(* ===== verification/_CoqProject ===== *)
-Q . S2P
Prelude.v
NList.v
BitMap.v
Sectors.v
FileHdr.v
OpenFile.v
Directory.v
FileSys.v
FileIO.v
Disk.v
Kernel.v
KernelInv.v
KernelSteps.v
KernelSafe.v
KernelProps.v
Switch.v
SwitchRisc.v
Machine.v
Paging.v
Mips.v
MipsFacts.v
MipsAlu.v
MipsTrap.v
PagedRun.v
Interp.v
Disasm.v
Debugger.v
Listing.v
SynchDisk.v
Host.v
HostDisk.v
StubFs.v
KernelTests.v
Boot.v
AddrSpace.v
FsTest.v
CommandLine.v
Coff2Noff.v
Coff2Flat.v
Syscalls.v
Stubs.v
UserRun.v
Programs.v
UserFiles.v
Console.v
Interleave.v
SynchList.v
ThreadTests.v
PollTests.v
Network.v
NetTest.v
