(* ===== verification/Prelude.v ===== *)
(** * Nachos: a verification development

    Nachos is an instructional operating system in C++ that runs on a simulated
    MIPS machine: [threads/] is the kernel (threads, scheduler, synchronization),
    [machine/] the simulated hardware (interrupts and time, disk, timer, console,
    network, the MIPS processor and its memory), [filesys/] the file system,
    [userprog/] address spaces and system calls, [network/] a post office, [test/] the
    user programs.  [bin/] holds the tools on the host's side: two converters of executables,
    an interpreter, a disassembler of MIPS code and a lister of object files.  This
    library models them and proves what makes them correct.

    ** Conventions

    This file holds them.  The code runs on a 32-bit little-endian host.  A
    computation that changes a state [S], may fail an [ASSERT], meet undefined
    behaviour or halt the machine has type [M S A] below.  Integers are [Z], kept in
    their width by [u32], [i32] and [int]; memory and disk are lists of bytes.  What
    the code does not set (uninitialised memory) is an argument of the operation.
    [Random()] is an argument too, and the UNIX host is the interface [Posix] of [Host],
    with its documented behaviour as laws.  Loops that are not structural take fuel, and run
    out of it with [OutOfFuel]: theorems that a call returns say [Ok], so they show
    that the fuel is enough ([check_due] gets one round per pending interrupt and one
    more, [SynchDisk.run_until] 32 steps for a disk request, the walks over a
    chain of headers the number of sectors, [name_length] the length of the name and
    two, the loops of [FsTest] a round per byte and one more, those over the command
    line a round per word).  Where the theorem is that a loop never ends ([Deallocate]), it holds for
    every fuel.

    ** Files

    - [NList]: [threads/list.cc], cells and pointers; [LinkedFacts] shows that they
      refine the sequences of module [Lists], which the kernel's queues use.
    - [BitMap]: [userprog/bitmap.cc].  [Sectors]: the interface [SectorDisk] of a disk
      of sectors with its laws, which the file system is written against, and a plain
      array that implements it.
    - [FileHdr], [OpenFile], [Directory], [FileSys]: [filesys/], from the chain of header
      sectors to the file system's operations; [fs_inv] is the invariant of the disk.
      [FileIO]: reads and writes of open files keep it.
    - [Disk]: the latency of [machine/disk.cc].  [Host]: the file calls of
      [machine/sysdep.cc], over UNIX as an interface; [HostDisk]: the disk on its UNIX file;
      [StubFs]: the file system stub of [filesys.h] and [openfile.h] on UNIX files.
    - [Kernel]: [threads/thread.cc], [scheduler.cc], [synch.cc], [system.cc] and
      [machine/interrupt.cc], [timer.cc] as one machine that steps the running thread;
      [KernelInv] its invariant, [KernelSteps] and [KernelSafe] that every step keeps
      it, [KernelProps] the theorems.  [Switch]: the i386 code of [threads/switch.c] and
      the stack [StackAllocate] of [thread.cc] prepares, on registers and words of memory;
      [SwitchRisc]: the same for MIPS and PA-RISC.
    - [SynchDisk]: [filesys/synchdisk.cc] run by the kernel; it implements
      [SectorDisk].  [Boot]: the file system on the kernel, from start to file contents.
      [FsTest]: [filesys/fstest.cc], copying, printing and the tests.  [CommandLine]:
      [main] of [threads/main.cc] in all its builds, the flags of [Initialize], and a run
      of the program from its command line.
    - [Machine], [Paging]: [machine/machine.cc], [translate.cc], the registers, memory,
      translation and page replacement; [Mips], [MipsFacts], [MipsAlu], [MipsTrap]:
      [machine/mipssim.cc], every instruction, against the instruction manual, and the
      registers at the end of an instruction and at a trap.  [PagedRun]: instructions under
      demand paging against a machine that has all of the program's memory.
      [Debugger]: [Machine::Debugger] in the loop of [Machine::Run].
    - [AddrSpace]: [userprog/addrspace.cc] and [StartProcess] of [progtest.cc];
      [Syscalls]: [userprog/exception.cc], over the interface [ThreadOps]; [Stubs]: the
      start-up code and the stubs of [test/start.c], instruction by instruction;
      [UserRun]: a program running on all of it; [Programs]: the compiled [halt] and [sort]
      of [test/]; [UserFiles]: files made, written and read by a user program.
    - [Coff2Noff]: [bin/coff2noff.c], which makes the executables [AddrSpace] loads;
      [Coff2Flat]: [bin/coff2flat.c], the older converter, on the same headers.
      [Interp]: the interpreter [bin/execute.c] and its system calls [bin/system.c];
      [Disasm]: the text of instructions, [bin/d.c] and [bin/disasm.c]; [Listing]: what
      [bin/out.c] prints of an object file.
    - [Console]: [machine/console.cc] and the echo thread of [progtest.cc];
      [SynchList]: [threads/synchlist.cc]; [Network]: [machine/network.cc] and
      [network/post.cc].  These three are event systems: every order of interrupts and
      thread steps is a run.  [NetTest]: [network/nettest.cc] on two machines.
    - [Interleave]: programs of threads that share locks, their runs and the lemmas on
      sections and queues; [ThreadTests]: the programs of [threads/threadtest.cc] that
      synchronize (readers and writers, barrier, bounded buffer); [PollTests]: those
      that poll; [KernelTests]: the first five tests, run by the kernel.

    ** What is shown

    - Kernel: no step fails an assertion of the kernel or loops, except for the causes
      [kernel_stops_only_for_cause] lists; every thread is where its status says;
      semaphores keep their count and lose no wakeup; ids are unique; interrupts that are
      due are delivered, and no time overflows, while the clock is two timer periods from
      the end of an [int]; the scheduler runs the best thread.  [SWITCH] saves and
      restores every register, and the first switch to a thread runs its function, on
      each of the three hosts.
    - File system: formatting establishes the invariant, [Create] keeps it and [Open]
      finds the file, refused calls change nothing, reads and writes act on exactly the
      bytes asked for, keep the invariant and change no other file, the directory is a
      finite map, chains of headers of any length work.  A file of exactly 26 sectors
      is the exception to all of this: [Allocate] then uses a sector number that was never
      set, and the theorems on new files leave it out; what [Allocate] does when the
      further headers do not fit is shown too.  [Remove] never returns, which is
      a bug of [FileHeader::Deallocate].  The stub over UNIX is a map from names to
      bytes, for files below [2^31] bytes.
    - Composition: a disk request run by the kernel to its end is the plain access it
      should be, so that a started kernel formats, creates, writes and reads back; a
      command line means what its options say, and one that copies files and prints them
      shows exactly their bytes.  The disk on its UNIX file does what the plain disk does,
      and a later run finds the sectors the last one left.
    - User programs: a load or store under paging acts on the thread's own memory
      whatever is replaced, and a program that keeps to the rule for load delay slots cannot
      tell the paged machine from one with all of its memory; the register instructions have
      an effect that is given exactly, and it is the manual's but for [OR], the logical right
      shifts and jumps at the end of a region, in the cases that are named; a started process has the executable's bytes at its
      addresses, from the COFF file through the converter and [Copy] on; a stub enters the
      kernel with the number of its call and comes back with the kernel's result; system
      calls pass exactly the user's bytes when their pages are in memory, and lose them
      when they are not; so a program that creates, writes and reopens a file reads back
      what it wrote.  The compiled [halt] and [sort] of the repository are what the
      converter makes of their object files, and run on a machine with one thread.  The
      debugger does not disturb a program.
    - Tools: the converter writes the sections of code and initialised data where its
      header says and never leaves a partial file; the interpreter's effect on registers is
      given exactly, and where it is the same manual's; what the disassembler prints determines what an instruction does, up to the
      five it prints wrong; the lister prints a line for each word, with the relocations
      lined up.
    - Devices: the console echoes what is typed, but for the character 255, and fails
      only at the end of its input; the synchronized list is a queue
      without lost wakeups; mail arrives unchanged and in order, and what is on the wire
      can always be received; the mail test prints both messages on both machines.
    - Clients: readers and writers exclude each other, nobody passes the barrier early,
      the bounded buffer keeps its bound and its order; each is free of deadlock and ends
      within a number of steps.  The programs that poll keep the bound and the order too,
      and can always end, but no number of steps bounds them.  Two threads that yield
      alternate, the 128th thread is refused, and a thread that yields lets one of lower
      priority run.

    ** Not modelled

    [SWITCH] for the SPARC, which needs the register windows of that processor; of
    [sysdep.cc], the calls of the host for polling, signals, random numbers and memory
    protection, while the sockets are queues of datagrams and the console's files are
    lists; output for debugging; [Cleanup] of [system.cc], which frees what the program
    has when it exits; the programs [matmult] and [shell] of [test/], of which the first
    takes too many instructions to run here and the second waits for input; of [bin/], the
    loading of object files by [main.c], [disasm.c] and [out.c], which
    needs headers and libraries of the host that are not in the repository, and the
    histograms of [execute.c].  Ticks are unbounded integers, [int]s in the code, which
    wrap around after [2^31] of them; only [interrupts_delivered_in_time] says how far it
    holds of [int]s.  In
    [Syscalls] the thread operations are an interface, with an instance for one thread and
    none by the kernel of [Kernel].  In [Interleave] threads are interleaved at the calls
    of locks and conditions, not at the kernel's own steps. *)

From Stdlib Require Export ZArith Lia.
From stdpp Require Export base gmap list strings numbers sorting.

(** ** Outcomes of the C++ code

    [Ok] is a normal return.  [Stop] ends the run of the whole program:
    [AssertFailed] is the [ASSERT] macro of [utility.h] (print a message,
    [Abort]), [Undefined] marks a step the C++ language gives no meaning to (a
    read of an uninitialised variable, a dangling or out-of-range access),
    [Halted] is [Interrupt::Halt] (which never returns) and [OutOfFuel] is the
    model's own bound on a loop, never a behaviour of the code. *)
Inductive stop : Type := AssertFailed | Undefined | Halted | OutOfFuel.

Inductive res (A : Type) : Type :=
| Ok (a : A)
| Stop (w : stop).
Arguments Ok {A} a.
Arguments Stop {A} w.

#[export] Instance stop_eq_dec : EqDecision stop.
Proof. solve_decision. Defined.
#[export] Instance res_eq_dec `{EqDecision A} : EqDecision (res A).
Proof. solve_decision. Defined.

#[export] Instance res_ret : MRet res := @Ok.
#[export] Instance res_bind : MBind res := fun A B f m =>
  match m with Ok a => f a | Stop w => Stop w end.

(** State-and-outcome computations: the C++ code mutates objects reached from
    global pointers, the model threads them as a state [S]. *)
Definition M (S A : Type) : Type := S -> res (A * S).

#[export] Instance M_ret (S : Type) : MRet (M S) := fun A a s => Ok (a, s).
#[export] Instance M_bind (S : Type) : MBind (M S) := fun A B f m s =>
  match m s with Ok (a, s') => f a s' | Stop w => Stop w end.

Definition get {S : Type} : M S S := fun s => Ok (s, s).
Definition gets {S A : Type} (f : S -> A) : M S A := fun s => Ok (f s, s).
Definition modify {S : Type} (f : S -> S) : M S unit := fun s => Ok (tt, f s).
Definition halt {S A : Type} (w : stop) : M S A := fun _ => Stop w.
Definition lift {S A : Type} (r : res A) : M S A := fun s =>
  match r with Ok a => Ok (a, s) | Stop w => Stop w end.

(** [ASSERT(condition)] of [utility.h]. *)
Definition ASSERT {S : Type} (condition : bool) : M S unit :=
  if condition then mret tt else halt AssertFailed.

(** A part of a larger state, and a computation on the part run on the whole. *)
Record lens (S T : Type) : Type := Lens { lget : S -> T; lset : T -> S -> S }.
Arguments Lens {S T} _ _.
Arguments lget {S T} _ _.
Arguments lset {S T} _ _ _.

Definition zoom {S T A : Type} (l : lens S T) (m : M T A) : M S A := fun s =>
  match m (lget l s) with Ok (a, t) => Ok (a, lset l t s) | Stop w => Stop w end.

Definition lfst {S T : Type} : lens (S * T) S := Lens fst (fun x p => (x, snd p)).
Definition lsnd {S T : Type} : lens (S * T) T := Lens snd (fun x p => (fst p, x)).

(** [for (int i = lo; n more times; i++) body(i)]. *)
Fixpoint mfor {S : Type} (n : nat) (i : Z) (body : Z -> M S unit) : M S unit :=
  match n with
  | O => mret tt
  | Datatypes.S n => body i ≫= fun _ => mfor n (i + 1)%Z body
  end.

(** ** Machine integers of the i386 host

    An [int] is a [Z] in [[-2^31, 2^31)], an [unsigned int] a [Z] in
    [[0, 2^32)], a byte of memory or disk a [Z] in [[0, 256)]. *)
Open Scope Z_scope.

Definition u32 (z : Z) : Z := z mod 2 ^ 32.
Definition i32 (z : Z) : Z := (z + 2 ^ 31) mod 2 ^ 32 - 2 ^ 31.
Definition is_u32 (z : Z) : Prop := 0 <= z < 2 ^ 32.
Definition is_i32 (z : Z) : Prop := - 2 ^ 31 <= z < 2 ^ 31.
Definition is_byte (z : Z) : Prop := 0 <= z < 256.

(** [divRoundDown] and [divRoundUp] of [utility.h], C's truncating division. *)
Definition divRoundDown (n s : Z) : Z := Z.quot n s.
Definition divRoundUp (n s : Z) : Z :=
  Z.quot n s + (if 0 <? Z.rem n s then 1 else 0).

(** The result of a signed addition, subtraction or multiplication: overflow is
    undefined in C++. *)
Definition int (z : Z) : res Z :=
  if (- 2 ^ 31 <=? z) && (z <? 2 ^ 31) then Ok z else Stop Undefined.

(** Arrays: a checked read and a checked write at a C index. *)
Definition aget {A : Type} (l : list A) (i : Z) : res A :=
  if (0 <=? i) then match l !! Z.to_nat i with Some a => Ok a | None => Stop Undefined end
  else Stop Undefined.
Definition aset {A : Type} (l : list A) (i : Z) (a : A) : res (list A) :=
  if (0 <=? i) && (i <? Z.of_nat (length l)) then Ok (<[Z.to_nat i := a]> l)
  else Stop Undefined.

(** [bcopy] out of and into a buffer at an offset, inside its bounds. *)
Definition slice {A : Type} (off n : Z) (buf : list A) : res (list A) :=
  if (0 <=? off) && (0 <=? n) && (off + n <=? Z.of_nat (length buf))
  then Ok (take (Z.to_nat n) (drop (Z.to_nat off) buf)) else Stop Undefined.
Definition ins {A : Type} (off : nat) (bs buf : list A) : list A :=
  take off buf ++ bs ++ drop (off + length bs) buf.
Definition splice {A : Type} (off : Z) (bs buf : list A) : res (list A) :=
  if (0 <=? off) && (off + Z.of_nat (length bs) <=? Z.of_nat (length buf))
  then Ok (ins (Z.to_nat off) bs buf) else Stop Undefined.

(** Little-endian bytes of an unsigned value, as the host stores it. *)
Fixpoint le_bytes (n : nat) (z : Z) : list Z :=
  match n with O => [] | S n => (z mod 256) :: le_bytes n (z / 256) end.
Fixpoint le_val (bs : list Z) : Z :=
  match bs with [] => 0 | b :: bs => b + 256 * le_val bs end.

(** ** Tactics *)

(** Run one monadic bind whose first computation is known. *)
Ltac munfold := unfold mbind, mret, M_bind, M_ret, res_bind, res_ret in *.

Ltac mrun := repeat (progress (munfold; simpl)).

(** Case analysis on the boolean test of the first [if] of the goal. *)
Ltac case_if :=
  match goal with
  | |- context [ if ?b then _ else _ ] =>
      lazymatch b with
      | context [ if _ then _ else _ ] => fail
      | _ => let H := fresh "Hif" in destruct b eqn:H
      end
  end.

(** Reflect boolean comparisons on [Z] into propositions. *)
Ltac zbool :=
  repeat match goal with
  | H : (_ && _)%bool = true |- _ => apply andb_true_iff in H; destruct H
  | H : (_ || _)%bool = false |- _ => apply orb_false_iff in H; destruct H
  | H : negb _ = true |- _ => apply negb_true_iff in H
  | H : negb _ = false |- _ => apply negb_false_iff in H
  | H : (_ =? _) = true |- _ => apply Z.eqb_eq in H
  | H : (_ =? _) = false |- _ => apply Z.eqb_neq in H
  | H : (_ <? _) = true |- _ => apply Z.ltb_lt in H
  | H : (_ <? _) = false |- _ => apply Z.ltb_ge in H
  | H : (_ <=? _) = true |- _ => apply Z.leb_le in H
  | H : (_ <=? _) = false |- _ => apply Z.leb_gt in H
  end.

(** ** Generic lemmas *)

Create HintDb nachos discriminated.
Create Rewrite HintDb nachos.

Lemma bind_ok {S A B} (m : M S A) (f : A -> M S B) s a s' :
  m s = Ok (a, s') -> (m ≫= f) s = f a s'.
Proof. intros H. unfold mbind, M_bind. by rewrite H. Qed.

Lemma bind_stop {S A B} (m : M S A) (f : A -> M S B) s w :
  m s = Stop w -> (m ≫= f) s = Stop w.
Proof. intros H. unfold mbind, M_bind. by rewrite H. Qed.

Lemma bind_inv {S A B} (m : M S A) (f : A -> M S B) s b s'' :
  (m ≫= f) s = Ok (b, s'') -> exists a s', m s = Ok (a, s') /\ f a s' = Ok (b, s'').
Proof.
  unfold mbind, M_bind. intros H. destruct (m s) as [[a s']|w] eqn:E; [|done].
  by exists a, s'.
Qed.

Lemma zoom_ok {S T A} (l : lens S T) (m : M T A) s a t :
  m (lget l s) = Ok (a, t) -> zoom l m s = Ok (a, lset l t s).
Proof. intros H. unfold zoom. by rewrite H. Qed.

Lemma zoom_stop {S T A} (l : lens S T) (m : M T A) s w :
  m (lget l s) = Stop w -> zoom l m s = Stop w.
Proof. intros H. unfold zoom. by rewrite H. Qed.

Lemma lift_ok {S A} (r : res A) (s : S) a : r = Ok a -> lift r s = Ok (a, s).
Proof. intros ->. done. Qed.

Lemma int_ok z : is_i32 z -> int z = Ok z.
Proof.
  unfold is_i32, int. intros.
  by rewrite (proj2 (Z.leb_le _ _)), (proj2 (Z.ltb_lt _ _)) by lia.
Qed.

Lemma u32_range z : is_u32 (u32 z).
Proof. unfold is_u32, u32. apply Z.mod_pos_bound. lia. Qed.

Lemma i32_range z : is_i32 (i32 z).
Proof. unfold is_i32, i32. pose proof (Z.mod_pos_bound (z + 2^31) (2^32)). lia. Qed.

Lemma u32_id z : is_u32 z -> u32 z = z.
Proof. intros. unfold u32. by apply Z.mod_small. Qed.

Lemma i32_id z : is_i32 z -> i32 z = z.
Proof. unfold is_i32, i32. intros. rewrite Z.mod_small; lia. Qed.

Lemma u32_i32 z : u32 (i32 z) = u32 z.
Proof.
  unfold u32, i32. rewrite Zminus_mod_idemp_l.
  f_equal; lia.
Qed.

Lemma i32_u32 z : i32 (u32 z) = i32 z.
Proof. unfold u32, i32. by rewrite Zplus_mod_idemp_l. Qed.

#[export] Hint Rewrite @length_app @length_insert @length_replicate @length_take
  @length_drop @length_map : nachos.
#[export] Hint Resolve u32_range i32_range : nachos.

Lemma divRoundUp_spec n s :
  0 <= n -> 0 < s -> n <= divRoundUp n s * s < n + s.
Proof.
  intros Hn Hs. unfold divRoundUp.
  pose proof (Z.quot_rem n s ltac:(lia)). pose proof (Z.rem_bound_pos n s Hn Hs).
  destruct (Z.ltb_spec 0 (Z.rem n s)); nia.
Qed.

Lemma aget_Some {A} (l : list A) i a :
  aget l i = Ok a <-> 0 <= i /\ l !! Z.to_nat i = Some a.
Proof.
  unfold aget. destruct (Z.leb_spec 0 i).
  - destruct (l !! Z.to_nat i); naive_solver.
  - split; [done|lia].
Qed.

Lemma aget_in_range {A} (l : list A) i :
  0 <= i < Z.of_nat (length l) -> exists a, aget l i = Ok a.
Proof.
  intros Hi. destruct (lookup_lt_is_Some_2 l (Z.to_nat i)) as [a Ha]; [lia|].
  exists a. apply aget_Some. split; [lia|done].
Qed.

Lemma aset_ok {A} (l : list A) i a :
  0 <= i < Z.of_nat (length l) -> aset l i a = Ok (<[Z.to_nat i := a]> l).
Proof.
  intros Hi. unfold aset.
  by rewrite (proj2 (Z.leb_le 0 i)), (proj2 (Z.ltb_lt i _)) by lia.
Qed.

Lemma slice_ok {A} off n (buf : list A) :
  0 <= off -> 0 <= n -> off + n <= Z.of_nat (length buf) ->
  slice off n buf = Ok (take (Z.to_nat n) (drop (Z.to_nat off) buf)).
Proof.
  intros. unfold slice.
  by rewrite !(proj2 (Z.leb_le _ _)) by lia.
Qed.

Lemma splice_ok {A} off (bs buf : list A) :
  0 <= off -> off + Z.of_nat (length bs) <= Z.of_nat (length buf) ->
  splice off bs buf = Ok (ins (Z.to_nat off) bs buf).
Proof. intros. unfold splice. by rewrite !(proj2 (Z.leb_le _ _)) by lia. Qed.

Lemma length_ins {A} off (bs buf : list A) :
  (off + length bs <= length buf)%nat -> length (ins off bs buf) = length buf.
Proof. intros. unfold ins. autorewrite with nachos. lia. Qed.

Lemma lookup_ins {A} off (bs buf : list A) i :
  (off + length bs <= length buf)%nat ->
  ins off bs buf !! i =
    if decide (off <= i < off + length bs)%nat then bs !! (i - off)%nat else buf !! i.
Proof.
  intros H. unfold ins. case_decide as Hi.
  - rewrite lookup_app_r, lookup_app_l by (rewrite length_take; lia). f_equal. rewrite length_take. lia.
  - destruct (decide (i < off)%nat).
    + rewrite lookup_app_l by (rewrite length_take; lia). by apply lookup_take_lt.
    + rewrite !lookup_app_r, lookup_drop by (rewrite ?length_take; lia). f_equal. rewrite length_take. lia.
Qed.

(** Two adjacent insertions are one. *)
Lemma ins_ins {A} off (a b buf : list A) :
  (off + length a + length b <= length buf)%nat ->
  ins (off + length a) b (ins off a buf) = ins off (a ++ b) buf.
Proof.
  intros H. apply list_eq. intros i.
  rewrite !lookup_ins by (rewrite ?length_ins, ?length_app; lia). rewrite length_app.
  repeat case_decide; try lia; try done.
  - rewrite lookup_app_r by lia. f_equal. lia.
  - by rewrite lookup_app_l by lia.
Qed.

Lemma ins_nil {A} off (buf : list A) : ins off [] buf = buf.
Proof. unfold ins. cbn [length app]. by rewrite Nat.add_0_r, take_drop. Qed.

Lemma Forall_ins {A} (P : A -> Prop) off bs buf :
  Forall P bs -> Forall P buf -> Forall P (ins off bs buf).
Proof.
  intros. unfold ins. repeat apply Forall_app_2; [by apply Forall_take|done|by apply Forall_drop].
Qed.

Lemma length_le_bytes n z : length (le_bytes n z) = n.
Proof. revert z. induction n; simpl; intros; [done|]. by rewrite IHn. Qed.

Lemma le_bytes_byte n z : Forall is_byte (le_bytes n z).
Proof.
  revert z. induction n; simpl; intros; constructor; [|done].
  apply Z.mod_pos_bound. lia.
Qed.

Lemma le_val_bytes n z : le_val (le_bytes n z) = z mod 256 ^ Z.of_nat n.
Proof.
  revert z. induction n as [|n IH]; intros z; simpl.
  - by rewrite Z.mod_1_r.
  - rewrite IH, Nat2Z.inj_succ, Z.pow_succ_r by lia.
    rewrite Z.rem_mul_r by (try lia; apply Z.pow_nonzero; lia). lia.
Qed.

Lemma le_val_range bs : Forall is_byte bs -> 0 <= le_val bs < 256 ^ Z.of_nat (length bs).
Proof.
  induction 1 as [|b bs Hb _ IH]; [cbn; lia|]. cbn [le_val length]. unfold is_byte in Hb.
  rewrite Nat2Z.inj_succ, Z.pow_succ_r by lia. nia.
Qed.

Lemma le_bytes_val bs : Forall is_byte bs -> le_bytes (length bs) (le_val bs) = bs.
Proof.
  induction 1 as [|b bs Hb _ IH]; [done|]. cbn [le_val length le_bytes]. unfold is_byte in Hb.
  rewrite (Z.mul_comm 256), Z.mod_add, Z.div_add, Z.mod_small, Z.div_small by lia. by rewrite Z.add_0_l, IH.
Qed.

Lemma filter_all {A} (P : A -> Prop) `{!forall x, Decision (P x)} (l : list A) :
  Forall P l -> filter P l = l.
Proof. induction 1; [done|]. rewrite filter_cons_True by done. by f_equal. Qed.

Lemma filter_none {A} (P : A -> Prop) `{!forall x, Decision (P x)} (l : list A) :
  Forall (fun x => ~ P x) l -> filter P l = [].
Proof. induction 1; [done|]. by rewrite filter_cons_False. Qed.

Lemma filter_ext_elem {A} (P Q : A -> Prop) `{!forall x, Decision (P x)} `{!forall x, Decision (Q x)}
    (l : list A) :
  (forall x, x ∈ l -> P x <-> Q x) -> filter P l = filter Q l.
Proof.
  induction l as [|x l IH]; intros Hiff; [done|].
  rewrite !filter_cons, IH by (intros; apply Hiff; by right).
  pose proof (Hiff x ltac:(by left)). repeat case_decide; naive_solver.
Qed.

(** ** Bits of 32-bit words *)

Lemma u32_testbit z j : 0 <= j < 32 -> Z.testbit (u32 z) j = Z.testbit z j.
Proof. intros. unfold u32. apply Z.mod_pow2_bits_low. lia. Qed.

Lemma is_u32_land_ones z : is_u32 z <-> Z.land z (Z.ones 32) = z.
Proof.
  rewrite Z.land_ones by lia. split.
  - intros. by apply Z.mod_small.
  - intros <-. apply Z.mod_pos_bound. lia.
Qed.

Lemma is_u32_lor a b : is_u32 a -> is_u32 b -> is_u32 (Z.lor a b).
Proof. rewrite !is_u32_land_ones. intros Ha Hb. by rewrite Z.land_lor_distr_l, Ha, Hb. Qed.

Lemma is_u32_land a b : is_u32 a -> is_u32 (Z.land a b).
Proof.
  rewrite !is_u32_land_ones. intros Ha.
  by rewrite <- Z.land_assoc, (Z.land_comm b), Z.land_assoc, Ha.
Qed.

(** Two 32-bit words with the same 32 bits are equal. *)
Lemma is_u32_ext a b :
  is_u32 a -> is_u32 b -> (forall j, 0 <= j < 32 -> Z.testbit a j = Z.testbit b j) -> a = b.
Proof.
  intros Ha Hb H. rewrite <- (Z.mod_small a (2 ^ 32)), <- (Z.mod_small b (2 ^ 32)) by done.
  apply Z.bits_inj'. intros j Hj. destruct (Z.lt_ge_cases j 32).
  - rewrite !Z.mod_pow2_bits_low by lia. by apply H.
  - by rewrite !Z.mod_pow2_bits_high by lia.
Qed.

#[export] Hint Resolve is_u32_lor is_u32_land : nachos.

Lemma mfor_inv {S} (P : Z -> S -> Prop) (body : Z -> M S unit) n i s :
  P i s ->
  (forall j s, i <= j < i + Z.of_nat n -> P j s ->
     exists s', body j s = Ok (tt, s') /\ P (j + 1) s') ->
  exists s', mfor n i body s = Ok (tt, s') /\ P (i + Z.of_nat n) s'.
Proof.
  revert i s. induction n as [|n IH]; intros i s Hi Hb; simpl.
  - exists s. split; [done|]. by rewrite Z.add_0_r.
  - destruct (Hb i s) as (s1 & Hrun & H1); [lia|done|].
    rewrite (bind_ok _ _ _ _ _ Hrun).
    destruct (IH (i + 1) s1 H1) as (s2 & Hrun2 & H2).
    { intros j t Hj. apply Hb. lia. }
    exists s2. split; [done|]. by replace (i + Z.of_nat (Datatypes.S n)) with (i + 1 + Z.of_nat n) by lia.
Qed.

(** Counting in a list from which an element is taken. *)
Lemma length_filter_delete {A} (P : A -> Prop) `{!forall x, Decision (P x)} (l : list A) i x :
  l !! i = Some x ->
  length (filter P l) = ((if decide (P x) then 1 else 0) + length (filter P (delete i l)))%nat.
Proof. intros Hx. rewrite (delete_Permutation l i x Hx) at 1. rewrite filter_cons. by case_decide. Qed.
Lemma elem_of_delete_other {A} (l : list A) i x y : l !! i = Some x -> y ∈ l -> x = y \/ y ∈ delete i l.
Proof. intros H Hin. rewrite (delete_Permutation l i x H) in Hin. apply elem_of_cons in Hin as [->|]; [by left|by right]. Qed.
