(* ===== verification/NList.v ===== *)
(** * [threads/list.cc]: singly linked lists

    Two models of the same class.  [Linked] is the C++ data structure: a heap
    of [ListElement] cells reached through [first], [next] and [last].  [Lists]
    is what a [List] promises its clients: a sequence of (key, item) pairs.
    The theorems show that each operation of [Linked] refines the one of
    [Lists], and what [SortedInsert] does to a sorted list.  The scheduler, the
    semaphores and the interrupt queue are modelled with [Lists]. *)

From S2P Require Import Prelude.

(** ** The contract: a list is a sequence of keys and items *)
Module Lists.

Section Contract.
Context {A : Type}.

(** [List::Append], [List::Prepend]: the key of the new element is 0. *)
Definition append (x : A) (l : list (Z * A)) : list (Z * A) := l ++ [(0, x)].
Definition prepend (x : A) (l : list (Z * A)) : list (Z * A) := (0, x) :: l.

(** [List::SortedInsert]: in front of the first element with a larger key. *)
Fixpoint sorted_insert (x : A) (sortKey : Z) (l : list (Z * A)) : list (Z * A) :=
  match l with
  | [] => [(sortKey, x)]
  | (k, y) :: l' =>
      if sortKey <? k then (sortKey, x) :: l else (k, y) :: sorted_insert x sortKey l'
  end.

(** [List::SortedRemove]: the first element with its key, [None] for [NULL]. *)
Definition sorted_remove (l : list (Z * A)) : option (Z * A) * list (Z * A) :=
  match l with [] => (None, []) | e :: l' => (Some e, l') end.

(** [List::Remove]: the same, the key ignored. *)
Definition remove (l : list (Z * A)) : option A * list (Z * A) :=
  match l with [] => (None, []) | (_, x) :: l' => (Some x, l') end.

Definition is_empty (l : list (Z * A)) : bool :=
  match l with [] => true | _ => false end.

(** [List::Mapcar]: the items in the order the function is applied to them. *)
Definition mapcar (l : list (Z * A)) : list A := snd <$> l.

(** Keys in increasing order, equal keys allowed. *)
Definition by_key : relation (Z * A) := fun e e' => e.1 <= e'.1.

End Contract.

Abbreviation sorted := (Sorted by_key).
End Lists.

(** ** The implementation: cells in a heap *)
Module Linked.

(** [ListElement]: an address is a [nat], [NULL] is [None]. *)
Record ListElement : Type := Elem { next : option nat; key : Z; item : Z }.

(** A [List] object together with the heap its cells live in. *)
Record List : Type := MkList {
  cells : gmap nat ListElement;
  first : option nat;
  last : option nat
}.

Definition NULL : Z := 0.

(** [ListElement::ListElement] at the address [a] that [new] returned. *)
Definition new_element (a : nat) (itemPtr sortKey : Z) : M List unit :=
  modify (fun s => MkList (<[a := Elem None sortKey itemPtr]> (cells s)) (first s) (last s)).

(** Reading a cell through a pointer. *)
Definition deref (p : option nat) : M List ListElement := fun s =>
  match p ≫= fun a => cells s !! a with Some e => Ok (e, s) | None => Stop Undefined end.

(** [p->next = q]. *)
Definition set_next (p q : option nat) : M List unit := fun s =>
  match p with
  | Some a =>
      match cells s !! a with
      | Some e => Ok (tt, MkList (<[a := Elem q (key e) (item e)]> (cells s)) (first s) (last s))
      | None => Stop Undefined
      end
  | None => Stop Undefined
  end.

Definition set_first (p : option nat) : M List unit :=
  modify (fun s => MkList (cells s) p (last s)).
Definition set_last (p : option nat) : M List unit :=
  modify (fun s => MkList (cells s) (first s) p).

(** [delete element]. *)
Definition delete_element (p : option nat) : M List unit := fun s =>
  match p with
  | Some a => Ok (tt, MkList (delete a (cells s)) (first s) (last s))
  | None => Ok (tt, s)
  end.

(** [List::List]. *)
Definition new_list (h : gmap nat ListElement) : List := MkList h None None.

(** [List::IsEmpty]. *)
Definition IsEmpty : M List bool :=
  p ← gets first; mret (match p with None => true | Some _ => false end).

(** [List::Append]. *)
Definition Append (a : nat) (x : Z) : M List unit :=
  _ ← new_element a x 0;
  e ← IsEmpty;
  if (e : bool) then
    _ ← set_first (Some a);
    set_last (Some a)
  else
    l ← gets last;
    _ ← set_next l (Some a);
    set_last (Some a).

(** [List::Prepend]. *)
Definition Prepend (a : nat) (x : Z) : M List unit :=
  _ ← new_element a x 0;
  e ← IsEmpty;
  if (e : bool) then
    _ ← set_first (Some a);
    set_last (Some a)
  else
    f ← gets first;
    _ ← set_next (Some a) f;
    set_first (Some a).

(** The loop of [List::SortedInsert]:
    [for (ptr = first; ptr->next != NULL; ptr = ptr->next)]; the result says
    whether the element was put in ([return] inside the loop). *)
Fixpoint insert_walk (fuel : nat) (a : nat) (sortKey : Z) (ptr : option nat) : M List bool :=
  match fuel with
  | O => halt OutOfFuel
  | S fuel =>
      e ← deref ptr;
      match next e with
      | None => mret false
      | Some n =>
          e' ← deref (Some n);
          if sortKey <? key e' then
            _ ← set_next (Some a) (Some n);
            _ ← set_next ptr (Some a);
            mret true
          else insert_walk fuel a sortKey (Some n)
      end
  end.

(** [List::SortedInsert]; the heap bounds the number of cells walked. *)
Definition SortedInsert (a : nat) (x sortKey : Z) : M List unit :=
  _ ← new_element a x sortKey;
  e ← IsEmpty;
  if (e : bool) then
    _ ← set_first (Some a);
    set_last (Some a)
  else
    f ← gets first;
    fe ← deref f;
    if sortKey <? key fe then
      _ ← set_next (Some a) f;
      set_first (Some a)
    else
      s ← get;
      done ← insert_walk (size (cells s)) a sortKey f;
      if (done : bool) then mret tt
      else
        l ← gets last;
        _ ← set_next l (Some a);
        set_last (Some a).

(** [List::SortedRemove]: the item and, through [keyPtr], its key. *)
Definition SortedRemove : M List (Z * option Z) :=
  element ← gets first;
  e ← IsEmpty;
  if (e : bool) then mret (NULL, None)
  else
    el ← deref element;
    l ← gets last;
    _ ← (if bool_decide (element = l) then
           _ ← set_first None;
           set_last None
         else set_first (next el));
    _ ← delete_element element;
    mret (item el, Some (key el)).

(** [List::Remove]. *)
Definition Remove : M List Z := r ← SortedRemove; mret (r.1).

(** [List::Mapcar]: the items passed to the function, in order. *)
Fixpoint mapcar_walk (fuel : nat) (ptr : option nat) : M List (list Z) :=
  match ptr with
  | None => mret []
  | Some _ =>
      match fuel with
      | O => halt OutOfFuel
      | S fuel =>
          e ← deref ptr;
          r ← mapcar_walk fuel (next e);
          mret (item e :: r)
      end
  end.
Definition Mapcar : M List (list Z) :=
  s ← get; mapcar_walk (size (cells s)) (first s).

(** [List::~List]: [while (Remove() != NULL) ;]. *)
Fixpoint delete_walk (fuel : nat) : M List unit :=
  match fuel with
  | O => halt OutOfFuel
  | S fuel => x ← Remove; if x =? NULL then mret tt else delete_walk fuel
  end.
Definition delete_list : M List unit :=
  s ← get; delete_walk (S (size (cells s))).

End Linked.

(** ** What [Lists] operations do to a sorted list *)
Module ListFacts.
Import Lists.

Section Facts.
Context {A : Type}.
Implicit Types (l : list (Z * A)) (x : A) (k : Z).

#[export] Instance by_key_trans : Transitive (by_key (A := A)).
Proof. intros [] [] []; unfold by_key; simpl; lia. Qed.

Lemma sorted_insert_le x k l :
  Forall (fun e => e.1 <= k) l -> sorted_insert x k l = l ++ [(k, x)].
Proof.
  induction 1 as [|[k' y] l Hle _ IH]; simpl in *; [done|].
  rewrite (proj2 (Z.ltb_ge k k')) by done. by rewrite IH.
Qed.

Lemma sorted_insert_split x k k' y l1 l2 :
  Forall (fun e => e.1 <= k) l1 -> k < k' ->
  sorted_insert x k (l1 ++ (k', y) :: l2) = l1 ++ (k, x) :: (k', y) :: l2.
Proof.
  intros Hl1 Hk. induction Hl1 as [|[k1 y1] l1 Hle _ IH]; simpl in *.
  - by rewrite (proj2 (Z.ltb_lt k k')).
  - rewrite (proj2 (Z.ltb_ge k k1)) by done. by rewrite IH.
Qed.

Lemma sorted_insert_perm x k l : sorted_insert x k l ≡ₚ (k, x) :: l.
Proof.
  induction l as [|[k' y] l IH]; simpl; [done|].
  case_if; [done|]. rewrite IH. apply Permutation_swap.
Qed.

Lemma sorted_insert_hd x k e l :
  by_key e (k, x) -> HdRel by_key e l -> HdRel by_key e (sorted_insert x k l).
Proof.
  intros Hk Hl. destruct l as [|[k' y] l]; simpl; [by constructor|].
  case_if; constructor; [done|]. by inversion Hl.
Qed.

Lemma sorted_insert_sorted x k l : sorted l -> sorted (sorted_insert x k l).
Proof.
  induction 1 as [|[k' y] l Hl IH Hhd]; simpl; [by repeat constructor|].
  case_if; zbool.
  - constructor; [by constructor|]. constructor. unfold by_key; simpl; lia.
  - constructor; [done|]. apply sorted_insert_hd; [unfold by_key; simpl; lia|done].
Qed.

(** In a sorted list the new element goes after every element whose key is not
    larger and before the others: equal keys stay in the order of insertion. *)
Lemma sorted_insert_stable x k l :
  sorted l ->
  sorted_insert x k l =
    filter (fun e => e.1 <= k) l ++ (k, x) :: filter (fun e => ¬ e.1 <= k) l.
Proof.
  intros Hs. apply Sorted_StronglySorted in Hs; [|apply _].
  induction Hs as [|[k' y] l Hs IH Hall]; [done|]. cbn [sorted_insert].
  destruct (Z.ltb_spec k k') as [Hlt|Hge].
  - rewrite filter_cons_False, filter_cons_True by (simpl; lia).
    assert (Forall (fun e => ¬ e.1 <= k) l) as Hgt.
    { eapply Forall_impl; [exact Hall|]. intros [] ?; unfold by_key in *; simpl in *; lia. }
    by rewrite (filter_all (fun e => ¬ e.1 <= k)), filter_none.
  - rewrite filter_cons_True, filter_cons_False by (simpl; lia). by rewrite IH.
Qed.

Lemma sorted_remove_least l e l' :
  sorted l -> sorted_remove l = (Some e, l') ->
  sorted l' /\ Forall (by_key e) l'.
Proof.
  intros Hs [= ]. destruct l as [|e0 l0]; simplify_eq/=.
  apply Sorted_StronglySorted in Hs; [|apply _].
  apply StronglySorted_inv in Hs as [Hs Hall]. split; [|done].
  by apply StronglySorted_Sorted.
Qed.

End Facts.
End ListFacts.

(** ** The cells represent a sequence *)
Module LinkedFacts.
Import Lists Linked ListFacts.

(** [seg h p es q]: following [next] from [p] visits exactly the cells [es]
    (address, key, item) and ends at [q]. *)
Fixpoint seg (h : gmap nat ListElement) (p : option nat)
    (es : list (nat * (Z * Z))) (q : option nat) : Prop :=
  match es with
  | [] => p = q
  | (a, (k, x)) :: es =>
      p = Some a /\ exists n, h !! a = Some (Elem n k x) /\ seg h n es q
  end.

(** The object [s] owns the cells [fp] and represents the sequence [l]. *)
Definition rep (fp : list nat) (s : List) (l : list (Z * Z)) : Prop :=
  exists es, es.*1 = fp /\ es.*2 = l /\ NoDup fp /\
    seg (cells s) (first s) es None /\ last s = fst <$> list.last es.

(** [s'] agrees with [s] on every cell outside [fp]. *)
Definition framed (fp : list nat) (s s' : List) : Prop :=
  forall b, b ∉ fp -> cells s' !! b = cells s !! b.

Lemma seg_app h p es1 es2 q :
  seg h p (es1 ++ es2) q <-> exists r, seg h p es1 r /\ seg h r es2 q.
Proof.
  revert p. induction es1 as [|[a [k x]] es1 IH]; intros p; simpl; [naive_solver|].
  setoid_rewrite IH. naive_solver.
Qed.

Lemma seg_insert h p es q a c :
  a ∉ es.*1 -> seg h p es q -> seg (<[a := c]> h) p es q.
Proof.
  revert p. induction es as [|[b [k x]] es IH]; intros p; simpl; [done|].
  rewrite not_elem_of_cons. intros [Hab Ha] (-> & n & Hb & Hs).
  split; [done|]. exists n. rewrite lookup_insert_ne by done. auto.
Qed.

Lemma seg_delete h p es q a :
  a ∉ es.*1 -> seg h p es q -> seg (delete a h) p es q.
Proof.
  revert p. induction es as [|[b [k x]] es IH]; intros p; simpl; [done|].
  rewrite not_elem_of_cons. intros [Hab Ha] (-> & n & Hb & Hs).
  split; [done|]. exists n. rewrite lookup_delete_ne by done. auto.
Qed.

Lemma seg_dom h p es q : seg h p es q -> Forall (fun a => is_Some (h !! a)) es.*1.
Proof.
  revert p. induction es as [|[b [k x]] es IH]; intros p; simpl; [constructor|].
  intros (-> & n & Hb & Hs). constructor; eauto.
Qed.

(** The number of cells of a list is at most the size of the heap. *)
Lemma seg_size h p es q : NoDup es.*1 -> seg h p es q -> (length es <= size h)%nat.
Proof.
  intros Hnd Hs. rewrite <- (length_fmap fst es).
  rewrite <- size_dom, <- (size_list_to_set (C := gset nat)) by done.
  apply subseteq_size. intros b Hb%elem_of_list_to_set.
  apply elem_of_dom. by eapply Forall_forall in Hb; [|by eapply seg_dom].
Qed.

(** Linking a fresh cell [a] behind the cell [b]. *)
Lemma seg_link h p es1 b kb xb es2 a k x q :
  NoDup (es1 ++ (b, (kb, xb)) :: es2).*1 -> a ∉ (es1 ++ (b, (kb, xb)) :: es2).*1 ->
  seg h p es1 (Some b) -> seg h q es2 None ->
  seg (<[b := Elem (Some a) kb xb]> (<[a := Elem q k x]> h)) p
    (es1 ++ (b, (kb, xb)) :: (a, (k, x)) :: es2) None.
Proof.
  rewrite !fmap_app. simpl. intros Hnd Ha Hs1 Hs2.
  apply NoDup_app in Hnd as (_ & Hd & [Hb _]%NoDup_cons).
  apply not_elem_of_app in Ha as [Ha1 [Hab Ha2]%not_elem_of_cons].
  apply seg_app. exists (Some b). split.
  - apply seg_insert; [|by apply seg_insert]. intros Hin. apply (Hd _ Hin). left.
  - simpl. split; [done|]. exists (Some a). rewrite lookup_insert_eq. split; [done|].
    split; [done|]. exists q. rewrite lookup_insert_ne by done.
    rewrite lookup_insert_eq. split; [done|].
    apply seg_insert; [done|by apply seg_insert].
Qed.

Lemma rep_new h : rep [] (new_list h) [].
Proof. exists []. repeat split; constructor. Qed.

Lemma rep_is_empty fp s l :
  rep fp s l -> IsEmpty s = Ok (is_empty l, s).
Proof.
  intros (es & <- & <- & _ & Hs & _). unfold IsEmpty. mrun.
  destruct es as [|[a [k x]] es]; simpl in *; [by rewrite Hs|].
  by destruct Hs as [-> _].
Qed.

(** The two ways a cell enters a list that is not empty. *)
Lemma link_back fp s l a k x :
  rep fp s l -> l <> [] -> a ∉ fp ->
  exists b eb, last s = Some b /\ b ∈ fp /\
    <[a := Elem None k x]> (cells s) !! b = Some eb /\
    rep (fp ++ [a])
      (MkList (<[b := Elem (Some a) (key eb) (item eb)]> (<[a := Elem None k x]> (cells s)))
         (first s) (Some a))
      (l ++ [(k, x)]).
Proof.
  intros (es & <- & <- & Hnd & Hs & Hl) Hne Ha.
  destruct es as [|[b [kb xb]] es1 _] using rev_ind; [done|].
  rewrite last_snoc in Hl. apply seg_app in Hs as Hs'.
  destruct Hs' as (r & Hs1 & (-> & n & Hb & ->)).
  assert (a <> b) by (rewrite fmap_app in Ha; set_solver).
  exists b, (Elem None kb xb). rewrite lookup_insert_ne by done. simpl.
  split_and!; [done|rewrite fmap_app; set_solver|by rewrite Hb|].
  exists ((es1 ++ [(b, (kb, xb))]) ++ [(a, (k, x))]).
  rewrite last_snoc, !(fmap_app _ _ [(a, _)]).
  split_and!; [done|done| |by rewrite <- app_assoc; apply seg_link|done].
  apply NoDup_app. split_and!; [done| |apply NoDup_singleton]. set_solver.
Qed.

Lemma link_front fp s l a k x :
  rep fp s l -> l <> [] -> a ∉ fp ->
  rep (a :: fp) (MkList (<[a := Elem (first s) k x]> (cells s)) (Some a) (last s))
    ((k, x) :: l).
Proof.
  intros (es & <- & <- & Hnd & Hs & Hl) Hne Ha. exists ((a, (k, x)) :: es).
  split_and!; [done|done|by constructor| |].
  - simpl. split; [done|]. exists (first s). rewrite lookup_insert_eq.
    split; [done|by apply seg_insert].
  - simpl. rewrite Hl. by destruct es.
Qed.

Lemma link_only s a k x :
  rep [a] (MkList (<[a := Elem None k x]> (cells s)) (Some a) (Some a)) [(k, x)].
Proof.
  exists [(a, (k, x))]. split_and!; [done|done|apply NoDup_singleton| |done].
  simpl. split; [done|]. exists None. by rewrite lookup_insert_eq.
Qed.

Lemma rep_new_element fp s l a x k :
  rep fp s l -> a ∉ fp ->
  rep fp (MkList (<[a := Elem None k x]> (cells s)) (first s) (last s)) l.
Proof.
  intros (es & <- & <- & Hnd & Hs & Hl) Ha. exists es.
  split_and!; try done. by apply seg_insert.
Qed.

Lemma rep_nil fp s : rep fp s [] -> fp = [] /\ first s = None /\ last s = None.
Proof. intros (es & <- & Hes & _ & Hs & Hl). apply fmap_nil_inv in Hes as ->. done. Qed.

(** [Append] adds the item at the end. *)
Lemma append_refines fp s l a x :
  rep fp s l -> a ∉ fp ->
  exists s', Append a x s = Ok (tt, s') /\ rep (fp ++ [a]) s' (append x l) /\
    framed (a :: fp) s s'.
Proof.
  intros Hr Ha. unfold Append.
  pose proof (rep_is_empty _ _ _ (rep_new_element fp s l a x 0 Hr Ha)) as He.
  mrun. unfold IsEmpty in He. munfold. simpl in He. injection He as ->.
  destruct l as [|e l]; simpl.
  - destruct (rep_nil _ _ Hr) as (-> & _). eexists. split_and!; [done|apply link_only|].
    intros b Hb. simpl. apply lookup_insert_ne. set_solver.
  - destruct (link_back fp s (e :: l) a 0 x Hr ltac:(done) Ha) as (b & eb & Hl & Hb & Heb & Hr').
    rewrite Hl. simpl. rewrite Heb. eexists. split_and!; [done|exact Hr'|].
    intros c Hc. simpl. rewrite !lookup_insert_ne; set_solver.
Qed.

(** [Prepend] adds it at the front. *)
Lemma prepend_refines fp s l a x :
  rep fp s l -> a ∉ fp ->
  exists s', Prepend a x s = Ok (tt, s') /\ rep (a :: fp) s' (prepend x l) /\
    framed (a :: fp) s s'.
Proof.
  intros Hr Ha. unfold Prepend.
  pose proof (rep_is_empty _ _ _ (rep_new_element fp s l a x 0 Hr Ha)) as He.
  mrun. unfold IsEmpty in He. munfold. simpl in He. injection He as ->.
  destruct l as [|e l]; simpl.
  - destruct (rep_nil _ _ Hr) as (-> & _). eexists. split_and!; [done|apply link_only|].
    intros b Hb. simpl. apply lookup_insert_ne. set_solver.
  - rewrite lookup_insert_eq. simpl. rewrite insert_insert_eq.
    eexists. split_and!; [done|by apply (link_front fp s)|].
    intros c Hc. simpl. apply lookup_insert_ne. set_solver.
Qed.

Lemma deref_ok a s e : cells s !! a = Some e -> deref (Some a) s = Ok (e, s).
Proof. intros H. unfold deref. simpl. by rewrite H. Qed.

Lemma set_next_ok a q s e :
  cells s !! a = Some e ->
  set_next (Some a) q s =
    Ok (tt, MkList (<[a := Elem q (key e) (item e)]> (cells s)) (first s) (last s)).
Proof. intros H. unfold set_next. by rewrite H. Qed.

(** The loop of [SortedInsert], started at a cell [b] of the list: either it
    links the new cell in front of the first larger key, or every key behind
    [b] is at most [k] and nothing changed. *)
Lemma insert_walk_spec a x k es2 : forall fuel s es1 b kb xb,
  let es := es1 ++ (b, (kb, xb)) :: es2 in
  (length es2 < fuel)%nat -> NoDup es.*1 -> a ∉ es.*1 ->
  seg (cells s) (first s) es None -> cells s !! a = Some (Elem None k x) ->
  Forall (fun e => e.2.1 <= k) es2 /\ insert_walk fuel a k (Some b) s = Ok (false, s) \/
  exists es2a c es2b h, es2 = es2a ++ c :: es2b /\
    Forall (fun e => e.2.1 <= k) es2a /\ k < c.2.1 /\
    insert_walk fuel a k (Some b) s = Ok (true, MkList h (first s) (last s)) /\
    seg h (first s) (es1 ++ (b, (kb, xb)) :: es2a ++ (a, (k, x)) :: c :: es2b) None /\
    (forall d, d ∉ a :: es.*1 -> h !! d = cells s !! d).
Proof.
  induction es2 as [|[c [kc xc]] es2 IH]; intros fuel s es1 b kb xb es Hf Hnd Ha Hs Hca;
    (destruct fuel as [|fuel]; [simpl in Hf; lia|]);
    pose proof Hs as (r & Hs1 & (-> & n & Hb & Hs2))%seg_app; simpl in Hs2;
    cbn [insert_walk]; rewrite (bind_ok _ _ _ _ _ (deref_ok _ _ _ Hb)); simpl.
  - left. subst n. split; [constructor|done].
  - destruct Hs2 as (-> & n' & Hc & Hs2).
    rewrite (bind_ok _ _ _ _ _ (deref_ok _ _ _ Hc)). simpl.
    destruct (Z.ltb_spec k kc) as [Hlt|Hge].
    + right. subst es. rewrite (bind_ok _ _ _ _ _ (set_next_ok _ _ _ _ Hca)).
      assert (a <> b) by (rewrite fmap_app in Ha; set_solver).
      erewrite bind_ok; [|apply set_next_ok; simpl; by rewrite lookup_insert_ne].
      eexists [], (c, (kc, xc)), es2, _.
      split_and!; [done|constructor|done|done| |].
      * apply seg_link; [done|done|done|]. simpl. split; [done|]. by exists n'.
      * intros d [Hda Hd]%not_elem_of_cons. rewrite fmap_app in Hd.
        apply not_elem_of_app in Hd as [_ [Hdb _]%not_elem_of_cons].
        simpl in *. by rewrite !lookup_insert_ne by congruence.
    + subst es. replace (es1 ++ (b, (kb, xb)) :: (c, (kc, xc)) :: es2) with
        ((es1 ++ [(b, (kb, xb))]) ++ (c, (kc, xc)) :: es2) in * by (by rewrite <- app_assoc).
      destruct (IH fuel s (es1 ++ [(b, (kb, xb))]) c kc xc) as
        [[Hall Hw]|(es2a & d & es2b & h & -> & Hall & Hd & Hw & Hsh & Hfr)];
        try done; [simpl in Hf; lia|..].
      * left. split; [by constructor|done].
      * right. exists ((c, (kc, xc)) :: es2a), d, es2b, h.
        split_and!; try done; [by constructor|]. by rewrite <- app_assoc in Hsh.
Qed.

(** A cell linked between two others: the represented sequence and the
    owned cells. *)
Lemma link_between s h e es1 c es2 a k x :
  NoDup (e :: es1 ++ c :: es2).*1 -> a ∉ (e :: es1 ++ c :: es2).*1 ->
  last s = fst <$> list.last (e :: es1 ++ c :: es2) ->
  seg h (first s) (e :: es1 ++ (a, (k, x)) :: c :: es2) None ->
  let es' := e :: es1 ++ (a, (k, x)) :: c :: es2 in
  es'.*1 ≡ₚ a :: (e :: es1 ++ c :: es2).*1 /\
  rep es'.*1 (MkList h (first s) (last s)) es'.*2.
Proof.
  intros Hnd Ha Hl Hs es'.
  assert (Hp : es'.*1 ≡ₚ a :: (e :: es1 ++ c :: es2).*1).
  { subst es'. rewrite !app_comm_cons, fmap_app, (fmap_app _ (e :: es1) (c :: es2)).
    symmetry. apply Permutation_middle. }
  split; [done|]. exists es'.
  split_and!; [done|done|rewrite Hp; by constructor|exact Hs|].
  change (last s = fst <$> list.last es'). rewrite Hl. subst es'.
  by rewrite !app_comm_cons, !last_app_cons, last_cons_cons.
Qed.

(** [SortedInsert] inserts by key, its loop ending within the fuel given. *)
Lemma sorted_insert_refines fp s l a x k :
  rep fp s l -> a ∉ fp ->
  exists s' fp', SortedInsert a x k s = Ok (tt, s') /\ fp' ≡ₚ a :: fp /\
    rep fp' s' (sorted_insert x k l) /\ framed (a :: fp) s s'.
Proof.
  intros Hr Ha. unfold SortedInsert.
  pose proof (rep_new_element fp s l a x k Hr Ha) as Hr1.
  erewrite bind_ok by done.
  set (s1 := MkList _ _ _) in *.
  rewrite (bind_ok _ _ _ _ _ (rep_is_empty _ _ _ Hr1)).
  assert (Hs1 : framed [a] s s1).
  { intros b Hb. simpl. apply lookup_insert_ne. set_solver. }
  destruct l as [|[k1 x1] l]; cbn [is_empty].
  { destruct (rep_nil _ _ Hr) as (-> & _). do 2 eexists.
    split_and!; [done|done|apply link_only|exact Hs1]. }
  pose proof Hr1 as (es & <- & Hes & Hnd & Hs & Hl).
  destruct es as [|[b [kb xb]] es]; [done|].
  rewrite fmap_cons in Hes. injection Hes as -> -> <-.
  pose proof Hs as (Hf & n & Hb & Hs2).
    erewrite bind_ok by done. rewrite Hf, (bind_ok _ _ _ _ _ (deref_ok _ _ _ Hb)).
  cbn [key]. destruct (Z.ltb_spec k k1) as [Hlt|Hge].
  - erewrite bind_ok by (apply set_next_ok; simpl; apply lookup_insert_eq).
    do 2 eexists. split_and!; [done|done| |].
    + rewrite <- Hf. simpl. rewrite insert_insert_eq, (proj2 (Z.ltb_lt k k1)) by done.
      by apply (link_front _ s).
    + intros c Hc. simpl. rewrite insert_insert_eq. apply lookup_insert_ne. set_solver.
  - erewrite bind_ok by done.
    destruct (insert_walk_spec a x k es (size (cells s1)) s1 [] b k1 x1) as
      [[Hall Hw]|(es2a & c & es2b & h & -> & Hall & Hc & Hw & Hsh & Hfr)]; try done.
    { apply (seg_size _ _ _ _ Hnd Hs). }
    { simpl. apply lookup_insert_eq. }
    + rewrite (bind_ok _ _ _ _ _ Hw). simpl.
      destruct (link_back _ s _ a k x Hr ltac:(done) Ha) as (b' & eb & Hl' & Hb' & Heb & Hr').
      erewrite bind_ok by done. simpl. rewrite Hl'.
      erewrite bind_ok by (apply set_next_ok; exact Heb).
      eexists _, (((b, (k1, x1)) :: es).*1 ++ [a]).
      split_and!; [done|by rewrite Permutation_app_comm| |].
      * cbn [sorted_insert]. rewrite (proj2 (Z.ltb_ge k k1)) by done.
        rewrite sorted_insert_le by (by apply Forall_fmap). exact Hr'.
      * intros d Hd. simpl. rewrite !lookup_insert_ne; [done|set_solver|set_solver].
    + rewrite (bind_ok _ _ _ _ _ Hw).
      destruct (link_between s1 h _ _ _ _ a k x Hnd Ha Hl Hsh) as [Hp Hr'].
      eexists _, _. split_and!; [done|exact Hp| |].
      2:{ intros d Hd. simpl. rewrite Hfr by done. apply Hs1. set_solver. }
      cbn [sorted_insert]. rewrite (proj2 (Z.ltb_ge k k1)) by done. destruct c as [c [kc xc]].
      rewrite (fmap_app snd es2a), (fmap_cons snd (c, (kc, xc))). cbn [snd].
      rewrite sorted_insert_split by (try done; by apply Forall_fmap).
      by rewrite (fmap_cons snd), (fmap_app snd es2a) in Hr'.
Qed.

(** [SortedRemove] takes the first cell off the list and frees it. *)
Lemma sorted_remove_refines fp s l :
  rep fp s l ->
  exists s', SortedRemove s =
      Ok (match l with [] => (NULL, None) | (k, x) :: _ => (x, Some k) end, s') /\
    rep (tail fp) s' (sorted_remove l).2 /\ framed fp s s' /\
    (forall a, head fp = Some a -> cells s' !! a = None).
Proof.
  intros Hr. unfold SortedRemove. erewrite bind_ok by done.
  rewrite (bind_ok _ _ _ _ _ (rep_is_empty _ _ _ Hr)).
  destruct l as [|[k x] l]; cbn [is_empty].
  { destruct (rep_nil _ _ Hr) as (-> & _). exists s. split_and!; [done..|]. by intros. }
  pose proof Hr as (es & <- & Hes & Hnd & Hs & Hl).
  destruct es as [|[a [k' x']] es]; [done|]. rewrite fmap_cons in Hes. injection Hes as -> -> <-.
  pose proof Hs as (Hf & n & Ha & Hs2). rewrite fmap_cons in Hnd.
  apply NoDup_cons in Hnd as [Hna Hnd].
  rewrite Hf, (bind_ok _ _ _ _ _ (deref_ok _ _ _ Ha)). erewrite bind_ok by done.
  assert (Hfree : forall f l, framed (a :: es.*1) s (MkList (delete a (cells s)) f l)).
  { intros f l b [Hb _]%not_elem_of_cons. simpl. by rewrite lookup_delete_ne. }
  rewrite Hl. destruct es as [|e es].
  - rewrite bool_decide_true by done. eexists. split_and!; [done| |by apply Hfree|].
    + exists []. split_and!; [done|done|constructor|done|done].
    + intros ? [= <-]. apply lookup_delete_eq.
  - rewrite bool_decide_false.
    2:{ rewrite last_cons_cons. intros Hla.
        destruct (list.last (e :: es)) as [e'|] eqn:He; [|done].
        simpl in Hla. injection Hla as ->. apply Hna, list_elem_of_fmap.
        exists e'. split; [done|]. by apply last_Some_elem_of. }
    eexists. split_and!; [done| |by apply Hfree|].
    + exists (e :: es). split_and!; [done|done|done|by apply seg_delete|].
      by rewrite last_cons_cons in Hl.
    + intros ? [= <-]. apply lookup_delete_eq.
Qed.

Lemma mapcar_walk_spec s es : forall fuel p,
  (length es <= fuel)%nat -> seg (cells s) p es None ->
  mapcar_walk fuel p s = Ok (snd <$> es.*2, s).
Proof.
  induction es as [|[a [k x]] es IH]; intros fuel p Hf; simpl; [intros ->; by destruct fuel|].
  intros (-> & n & Ha & Hs). destruct fuel as [|fuel]; simpl in *; [lia|].
  rewrite (bind_ok _ _ _ _ _ (deref_ok _ _ _ Ha)).
  by rewrite (bind_ok _ _ _ _ _ (IH fuel n ltac:(lia) Hs)).
Qed.

(** [Mapcar] applies the function to every item, in list order. *)
Lemma mapcar_refines fp s l : rep fp s l -> Mapcar s = Ok (mapcar l, s).
Proof.
  intros (es & <- & <- & Hnd & Hs & _). unfold Mapcar. erewrite bind_ok by done.
  apply mapcar_walk_spec; [|done]. by eapply seg_size.
Qed.

(** [Remove] returns the first item, [NULL] for an empty list. *)
Lemma remove_refines fp s l :
  rep fp s l ->
  exists s', Remove s = Ok (default NULL (remove l).1, s') /\
    rep (tail fp) s' (remove l).2 /\ framed fp s s'.
Proof.
  intros Hr. destruct (sorted_remove_refines fp s l Hr) as (s' & Hrun & Hr' & Hfr & _).
  exists s'. unfold Remove. rewrite (bind_ok _ _ _ _ _ Hrun).
  by destruct l as [|[k x] l].
Qed.

Lemma delete_walk_spec : forall fuel fp s l,
  rep fp s l -> Forall (fun e => e.2 <> NULL) l -> (length l < fuel)%nat ->
  exists s', delete_walk fuel s = Ok (tt, s') /\ rep [] s' [] /\
    (forall a, a ∈ fp -> cells s' !! a = None) /\ framed fp s s'.
Proof.
  induction fuel as [|fuel IH]; intros fp s l Hr Hl Hf; [lia|]. cbn [delete_walk].
  destruct (sorted_remove_refines fp s l Hr) as (s' & Hrun & Hr' & Hfr & Hfree).
  unfold Remove. erewrite bind_ok by (by rewrite (bind_ok _ _ _ _ _ Hrun)).
  destruct l as [|[k x] l]; simpl.
  { destruct (rep_nil _ _ Hr) as (-> & _). exists s'. split_and!; [done|done| |done].
    intros a Ha. by apply elem_of_nil in Ha. }
  apply Forall_cons in Hl as [Hx Hl]. simpl in Hx, Hf.
  rewrite (proj2 (Z.eqb_neq x NULL)) by done.
  assert (exists a fp0, fp = a :: fp0) as (a & fp0 & ->).
  { destruct Hr as ([|[a []] es] & <- & Hes & _); [done|]. by eexists _, _. }
  destruct (IH fp0 s' l Hr' Hl ltac:(lia)) as (s'' & Hw & Hr'' & Hc & Hfr').
  exists s''. split_and!; [done|done| |].
  - intros b [->|Hb]%elem_of_cons; [|by apply Hc].
    rewrite Hfr' by (by destruct Hr as (es & _ & _ & [? _]%NoDup_cons & _)).
    by apply Hfree.
  - intros b Hb. apply not_elem_of_cons in Hb as [Hb Hb'].
    rewrite Hfr', Hfr; [done|set_solver|done].
Qed.

(** C35. [List] of list.cc refines a sequence of (key, item) pairs: on a list
    whose cells represent [l], [IsEmpty], [Append], [Prepend], [SortedInsert],
    [SortedRemove], [Remove] and [Mapcar] all return normally (no dangling
    pointer, the loops end), return what the sequence operation returns, leave
    cells that represent the sequence operation's result, own exactly the cell
    allocated or freed in addition, and touch no other cell of the heap. *)
Theorem list_refines_sequence fp s l a x k :
  rep fp s l -> a ∉ fp ->
  IsEmpty s = Ok (is_empty l, s) /\
  Mapcar s = Ok (mapcar l, s) /\
  (exists s', Append a x s = Ok (tt, s') /\
     rep (fp ++ [a]) s' (append x l) /\ framed (a :: fp) s s') /\
  (exists s', Prepend a x s = Ok (tt, s') /\
     rep (a :: fp) s' (prepend x l) /\ framed (a :: fp) s s') /\
  (exists s' fp', SortedInsert a x k s = Ok (tt, s') /\ fp' ≡ₚ a :: fp /\
     rep fp' s' (sorted_insert x k l) /\ framed (a :: fp) s s') /\
  (exists s', SortedRemove s =
       Ok (match l with [] => (NULL, None) | (k, x) :: _ => (x, Some k) end, s') /\
     rep (tail fp) s' (sorted_remove l).2 /\ framed fp s s' /\
     (forall a, head fp = Some a -> cells s' !! a = None)) /\
  (exists s', Remove s = Ok (default NULL (remove l).1, s') /\
     rep (tail fp) s' (remove l).2 /\ framed fp s s').
Proof.
  intros Hr Ha. split_and!.
  - by eapply rep_is_empty.
  - by eapply mapcar_refines.
  - by apply append_refines.
  - by apply prepend_refines.
  - by apply sorted_insert_refines.
  - by apply sorted_remove_refines.
  - by apply remove_refines.
Qed.

Lemma list_refines_sequence_witness :
  exists s', SortedInsert 1 9 3 (MkList {[0%nat := Elem None 5 7]} (Some 0%nat) (Some 0%nat))
      = Ok (tt, s') /\ exists fp', rep fp' s' [(3, 9); (5, 7)].
Proof.
  destruct (list_refines_sequence [0%nat]
    (MkList {[0%nat := Elem None 5 7]} (Some 0%nat) (Some 0%nat)) [(5, 7)] 1 9 3)
    as (_ & _ & _ & _ & (s' & fp' & Hrun & _ & Hrep & _) & _).
  - exists [(0%nat, (5, 7))]. split_and!; [done|done|apply NoDup_singleton| |done].
    simpl. split; [done|]. exists None. split; reflexivity.
  - intros H. by apply list_elem_of_singleton in H.
  - exists s'. split; [exact Hrun|]. exists fp'. exact Hrep.
Defined.

(** [List::SortedInsert] keeps a sorted list sorted, adds exactly the new
    element, and puts it behind every element whose key is not larger: elements
    with equal keys leave the list in the order they entered it. *)
Lemma sorted_insert_keeps_order (x k : Z) (l : list (Z * Z)) :
  Lists.sorted l ->
  Lists.sorted (sorted_insert x k l) /\
  sorted_insert x k l ≡ₚ (k, x) :: l /\
  sorted_insert x k l =
    filter (fun e => e.1 <= k) l ++ (k, x) :: filter (fun e => ¬ e.1 <= k) l.
Proof.
  intros Hs. split_and!.
  - by apply sorted_insert_sorted.
  - apply sorted_insert_perm.
  - by apply sorted_insert_stable.
Qed.

(** [List::~List] terminates and frees every cell of the list, and only
    those, when no item on the list is a null pointer. *)
Lemma delete_list_frees fp s l :
  rep fp s l -> Forall (fun e => e.2 <> NULL) l ->
  exists s', delete_list s = Ok (tt, s') /\ rep [] s' [] /\
    (forall a, a ∈ fp -> cells s' !! a = None) /\ framed fp s s'.
Proof.
  intros Hr Hl. unfold delete_list. erewrite bind_ok by done.
  eapply delete_walk_spec; [done|done|].
  destruct Hr as (es & <- & <- & Hnd & Hs & _).
  rewrite length_fmap. pose proof (seg_size _ _ _ _ Hnd Hs). lia.
Qed.

End LinkedFacts.
