(* ===== verification/BitMap.v ===== *)
(** * [userprog/bitmap.cc]: allocation bitmaps

    A bitmap is an array of 32-bit words; bit [i] is bit [i % 32] of word
    [i / 32].  The theorems give the meaning of every operation in terms of the
    predicate [bit] and of the number of clear bits, on every branch. *)

From S2P Require Import Prelude.

Definition BitsInByte : Z := 8.
Definition BitsInWord : Z := 32.

(** [class BitMap]: [map] is the array of [unsigned int]s. *)
Record BitMap : Type := MkBitMap { numBits : Z; numWords : Z; map : list Z }.

Definition set_map (ms : list Z) : M BitMap unit :=
  modify (fun b => MkBitMap (numBits b) (numWords b) ms).

(** [1 << (which % BitsInWord)], an [int]. *)
Definition bit_mask (which : Z) : Z := i32 (Z.shiftl 1 (Z.rem which BitsInWord)).

(** [BitMap::Mark]. *)
Definition Mark (which : Z) : M BitMap unit :=
  n ← gets numBits;
  _ ← ASSERT ((0 <=? which) && (which <? n));
  ms ← gets map;
  w ← lift (aget ms (Z.quot which BitsInWord));
  ms' ← lift (aset ms (Z.quot which BitsInWord) (Z.lor w (u32 (bit_mask which))));
  set_map ms'.

(** [BitMap::Clear]. *)
Definition Clear (which : Z) : M BitMap unit :=
  n ← gets numBits;
  _ ← ASSERT ((0 <=? which) && (which <? n));
  ms ← gets map;
  w ← lift (aget ms (Z.quot which BitsInWord));
  ms' ← lift (aset ms (Z.quot which BitsInWord) (Z.land w (u32 (Z.lnot (bit_mask which)))));
  set_map ms'.

(** [BitMap::Test]. *)
Definition Test (which : Z) : M BitMap bool :=
  n ← gets numBits;
  _ ← ASSERT ((0 <=? which) && (which <? n));
  ms ← gets map;
  w ← lift (aget ms (Z.quot which BitsInWord));
  mret (negb (Z.land w (u32 (bit_mask which)) =? 0)).

(** [BitMap::BitMap]: [garbage] is what [new unsigned int[numWords]] holds. *)
Definition new_bitmap (nitems : Z) (garbage : list Z) : res BitMap :=
  let b := MkBitMap nitems (divRoundUp nitems BitsInWord) garbage in
  match mfor (Z.to_nat nitems) 0 Clear b with
  | Ok (_, b') => Ok b'
  | Stop w => Stop w
  end.

(** The loop of [BitMap::Find] from bit [i], [n] bits to go. *)
Fixpoint find_from (n : nat) (i : Z) : M BitMap Z :=
  match n with
  | O => mret (-1)
  | S n =>
      t ← Test i;
      if negb t then _ ← Mark i; mret i else find_from n (i + 1)
  end.

(** [BitMap::Find]. *)
Definition Find : M BitMap Z :=
  n ← gets numBits; find_from (Z.to_nat n) 0.

(** The loop of [BitMap::NumClear]. *)
Fixpoint count_clear (n : nat) (i count : Z) : M BitMap Z :=
  match n with
  | O => mret count
  | S n => t ← Test i; count_clear n (i + 1) (if negb t then count + 1 else count)
  end.

(** [BitMap::NumClear]. *)
Definition NumClear : M BitMap Z :=
  n ← gets numBits; count_clear (Z.to_nat n) 0 0.

(** [BitMap::Print]: the numbers of the bits that are set. *)
Fixpoint marked_from (n : nat) (i : Z) : M BitMap (list Z) :=
  match n with
  | O => mret []
  | S n =>
      t ← Test i;
      r ← marked_from n (i + 1);
      mret (if (t : bool) then i :: r else r)
  end.
Definition Print : M BitMap (list Z) :=
  n ← gets numBits; marked_from (Z.to_nat n) 0.

(** The bytes of [map] as [FetchFrom] and [WriteBack] move them, and back. *)
Definition map_bytes (ms : list Z) : list Z := ms ≫= le_bytes 4.
Fixpoint map_of_bytes (n : nat) (bs : list Z) : list Z :=
  match n with
  | O => []
  | S n => le_val (take 4 bs) :: map_of_bytes n (drop 4 bs)
  end.

(** ** Meaning *)

(** Bit [i] of the map. *)
Definition bit (b : BitMap) (i : Z) : bool :=
  match map b !! Z.to_nat (i / 32) with Some w => Z.testbit w (i mod 32) | None => false end.

(** The object invariant. *)
Definition wf (b : BitMap) : Prop :=
  0 <= numBits b /\ numWords b = divRoundUp (numBits b) BitsInWord /\
  Z.of_nat (length (map b)) = numWords b /\ Forall is_u32 (map b).

(** The clear bits, in increasing order. *)
Definition clear_bits (b : BitMap) : list Z :=
  filter (fun i => bit b i = false) (seqZ 0 (numBits b)).

(** [b'] has the size of [b] and the bits [f]. *)
Definition bits_are (b b' : BitMap) (f : Z -> bool) : Prop :=
  wf b' /\ numBits b' = numBits b /\ forall i, 0 <= i < numBits b -> bit b' i = f i.

(** ** Lemmas on one word *)

Lemma mask_testbit which j :
  0 <= which -> 0 <= j < 32 ->
  Z.testbit (u32 (bit_mask which)) j = (j =? which mod 32).
Proof.
  intros Hw Hj. unfold bit_mask, BitsInWord.
  rewrite u32_i32, u32_testbit by done. rewrite Z.rem_mod_nonneg by lia.
  rewrite Z.shiftl_1_l, Z.pow2_bits_eqb by (apply Z.mod_pos_bound; lia).
  apply Z.eqb_sym.
Qed.

Lemma unmask_testbit which j :
  0 <= which -> 0 <= j < 32 ->
  Z.testbit (u32 (Z.lnot (bit_mask which))) j = negb (j =? which mod 32).
Proof.
  intros Hw Hj. rewrite u32_testbit, Z.lnot_spec by lia. f_equal.
  rewrite <- (mask_testbit which j), u32_testbit by done. done.
Qed.

(** The test [map[..] & mask] is the bit itself. *)
Lemma land_mask_test w which :
  0 <= which -> is_u32 w ->
  negb (Z.land w (u32 (bit_mask which)) =? 0) = Z.testbit w (which mod 32).
Proof.
  intros Hw Hu. pose proof (Z.mod_pos_bound which 32 ltac:(lia)) as Hm.
  destruct (Z.testbit w (which mod 32)) eqn:E.
  - apply negb_true_iff, Z.eqb_neq. intros H0.
    assert (Z.testbit (Z.land w (u32 (bit_mask which))) (which mod 32) = true) as H1.
    { rewrite Z.land_spec, E, mask_testbit by lia. by rewrite Z.eqb_refl. }
    by rewrite H0, Z.bits_0 in H1.
  - apply negb_false_iff, Z.eqb_eq, is_u32_ext; [by apply is_u32_land|done|].
    intros j Hj. rewrite Z.land_spec, mask_testbit, Z.bits_0 by lia.
    destruct (Z.eqb_spec j (which mod 32)) as [->|]; [by rewrite E|].
    apply andb_false_r.
Qed.

(** ** Reading and updating the map *)

Lemma word_lookup b i :
  wf b -> 0 <= i < numBits b ->
  exists w, map b !! Z.to_nat (i / 32) = Some w /\ is_u32 w /\
    Z.quot i BitsInWord = i / 32 /\ 0 <= i / 32 < Z.of_nat (length (map b)) /\
    aget (map b) (i / 32) = Ok w.
Proof.
  intros (Hn & Hnw & Hlen & Hu) Hi. unfold BitsInWord in *.
  pose proof (divRoundUp_spec (numBits b) 32 Hn ltac:(lia)).
  assert (Hr : 0 <= i / 32 < Z.of_nat (length (map b))).
  { split; [apply Z.div_pos; lia|]. apply Z.div_lt_upper_bound; lia. }
  destruct (lookup_lt_is_Some_2 (map b) (Z.to_nat (i / 32))) as [w Hw]; [lia|].
  exists w. split; [done|]. split; [by eapply Forall_lookup_1 in Hw|].
  split; [apply Z.quot_div_nonneg; lia|]. split; [done|].
  apply aget_Some. split; [lia|done].
Qed.

(** Replacing the word of bit [i] by one that differs in at most that bit. *)
Lemma update_word b i w w' v :
  wf b -> 0 <= i < numBits b -> map b !! Z.to_nat (i / 32) = Some w -> is_u32 w' ->
  (forall j, 0 <= j < 32 -> Z.testbit w' j = if j =? i mod 32 then v else Z.testbit w j) ->
  bits_are b (MkBitMap (numBits b) (numWords b) (<[Z.to_nat (i / 32) := w']> (map b)))
    (fun j => if j =? i then v else bit b j).
Proof.
  intros (Hn & Hnw & Hlen & Hu) Hi Hw Hw' Hbits. split_and!; [|done|].
  - split_and!; simpl; [done|done|by rewrite length_insert|by apply Forall_insert].
  - intros j Hj. unfold bit. simpl.
    pose proof (Z.mod_pos_bound j 32 ltac:(lia)). pose proof (Z.mod_pos_bound i 32 ltac:(lia)).
    pose proof (Z.div_mod j 32 ltac:(lia)). pose proof (Z.div_mod i 32 ltac:(lia)).
    pose proof (Z.div_pos j 32 ltac:(lia) ltac:(lia)).
    pose proof (Z.div_pos i 32 ltac:(lia) ltac:(lia)).
    destruct (decide (i / 32 = j / 32)) as [E|E].
    + rewrite <- E, list_lookup_insert_eq by (by eapply lookup_lt_Some). rewrite Hw, Hbits by done.
      destruct (Z.eqb_spec (j mod 32) (i mod 32)), (Z.eqb_spec j i); try done; lia.
    + rewrite list_lookup_insert_ne by lia.
      destruct (Z.eqb_spec j i); [subst; lia|done].
Qed.

Lemma assert_range (S : Type) (i n : Z) (s : S) :
  ASSERT ((0 <=? i) && (i <? n)) s =
    if decide (0 <= i < n) then Ok (tt, s) else Stop AssertFailed.
Proof.
  unfold ASSERT. case_decide as H.
  - by rewrite (proj2 (Z.leb_le 0 i)), (proj2 (Z.ltb_lt i n)) by lia.
  - destruct (Z.leb_spec 0 i), (Z.ltb_spec i n); simpl; try done. lia.
Qed.

(** Every operation on an index first checks it. *)
Lemma out_of_range b i :
  ~ 0 <= i < numBits b ->
  Mark i b = Stop AssertFailed /\ Clear i b = Stop AssertFailed /\ Test i b = Stop AssertFailed.
Proof.
  intros H. unfold Mark, Clear, Test.
  split_and!; (erewrite bind_ok by done);
    (apply bind_stop; rewrite assert_range; by rewrite decide_False).
Qed.

Ltac bitmap_op Hw :=
  destruct Hw as (w & Hlk & Hu & Hq & Hr & Hget);
  erewrite bind_ok by done;
  erewrite bind_ok by (by rewrite assert_range, decide_True);
  erewrite bind_ok by done; rewrite Hq;
  erewrite bind_ok by (unfold lift; by rewrite Hget).

Lemma mark_spec b i :
  wf b -> 0 <= i < numBits b ->
  exists b', Mark i b = Ok (tt, b') /\ bits_are b b' (fun j => if j =? i then true else bit b j).
Proof.
  intros Hb Hi. unfold Mark. bitmap_op (word_lookup b i Hb Hi).
  erewrite bind_ok by (unfold lift; by rewrite aset_ok).
  eexists. split; [done|]. eapply update_word; try done; [auto with nachos|].
  intros j Hj. rewrite Z.lor_spec, mask_testbit by lia.
  destruct (j =? i mod 32); [apply orb_true_r|apply orb_false_r].
Qed.

Lemma clear_spec b i :
  wf b -> 0 <= i < numBits b ->
  exists b', Clear i b = Ok (tt, b') /\ bits_are b b' (fun j => if j =? i then false else bit b j).
Proof.
  intros Hb Hi. unfold Clear. bitmap_op (word_lookup b i Hb Hi).
  erewrite bind_ok by (unfold lift; by rewrite aset_ok).
  eexists. split; [done|]. eapply update_word; try done; [auto with nachos|].
  intros j Hj. rewrite Z.land_spec, unmask_testbit by lia.
  destruct (j =? i mod 32); [apply andb_false_r|apply andb_true_r].
Qed.

Lemma test_spec b i : wf b -> 0 <= i < numBits b -> Test i b = Ok (bit b i, b).
Proof.
  intros Hb Hi. unfold Test. bitmap_op (word_lookup b i Hb Hi).
  unfold mret, M_ret. rewrite land_mask_test by (try done; lia).
  unfold bit. by rewrite Hlk.
Qed.

(** ** The loops *)

Definition clear_from (b : BitMap) (i : Z) (n : nat) : list Z :=
  filter (fun j => bit b j = false) (seqZ i (Z.of_nat n)).

Lemma clear_from_S b i n :
  clear_from b i (S n) = (if bit b i then [] else [i]) ++ clear_from b (i + 1) n.
Proof.
  unfold clear_from. rewrite seqZ_cons, Nat2Z.inj_succ, Z.pred_succ by lia.
  destruct (bit b i) eqn:E; [by rewrite filter_cons_False by congruence|].
  by rewrite filter_cons_True.
Qed.

Lemma clear_bits_from b : wf b -> clear_bits b = clear_from b 0 (Z.to_nat (numBits b)).
Proof. intros [Hn _]. unfold clear_bits, clear_from. by rewrite Z2Nat.id. Qed.

Lemma find_from_spec b n i :
  wf b -> 0 <= i -> i + Z.of_nat n = numBits b ->
  match clear_from b i n with
  | [] => find_from n i b = Ok (-1, b)
  | j :: _ => exists b', find_from n i b = Ok (j, b') /\
                bits_are b b' (fun k => if k =? j then true else bit b k)
  end.
Proof.
  intros Hb. revert i. induction n as [|n IH]; intros i Hi Hn; [done|].
  rewrite clear_from_S. cbn [find_from].
  rewrite (bind_ok _ _ _ _ _ (test_spec b i Hb ltac:(lia))).
  destruct (bit b i) eqn:E; simpl; [apply IH; lia|].
  destruct (mark_spec b i Hb ltac:(lia)) as (b' & Hrun & Hb').
  exists b'. by rewrite (bind_ok _ _ _ _ _ Hrun).
Qed.

Lemma count_clear_spec b n i c :
  wf b -> 0 <= i -> i + Z.of_nat n = numBits b ->
  count_clear n i c b = Ok (c + Z.of_nat (length (clear_from b i n)), b).
Proof.
  intros Hb. revert i c. induction n as [|n IH]; intros i c Hi Hn.
  - simpl. unfold mret, M_ret. by rewrite Z.add_0_r.
  - rewrite clear_from_S. cbn [count_clear].
    rewrite (bind_ok _ _ _ _ _ (test_spec b i Hb ltac:(lia))), IH by lia.
    rewrite length_app. destruct (bit b i); simpl; do 2 f_equal; lia.
Qed.

Lemma numclear_spec b : wf b -> NumClear b = Ok (Z.of_nat (length (clear_bits b)), b).
Proof.
  intros Hb. pose proof Hb as [Hn _]. unfold NumClear. erewrite bind_ok by done.
  rewrite count_clear_spec by (try done; lia). by rewrite clear_bits_from.
Qed.

Lemma find_spec b :
  wf b ->
  match clear_bits b with
  | [] => Find b = Ok (-1, b)
  | i :: _ => exists b', Find b = Ok (i, b') /\
                bits_are b b' (fun k => if k =? i then true else bit b k)
  end.
Proof.
  intros Hb. pose proof Hb as [Hn _]. rewrite clear_bits_from by done.
  unfold Find. erewrite bind_ok by done. apply find_from_spec; [done|lia|lia].
Qed.

Lemma elem_of_clear_bits b i : i ∈ clear_bits b <-> 0 <= i < numBits b /\ bit b i = false.
Proof. unfold clear_bits. rewrite list_elem_of_filter, elem_of_seqZ. naive_solver lia. Qed.

Lemma NoDup_clear_bits b : NoDup (clear_bits b).
Proof. apply NoDup_filter, NoDup_seqZ. Qed.

(** Marking bit [i] removes it from the clear bits, and only it. *)
Lemma clear_bits_mark b b' i :
  bits_are b b' (fun j => if j =? i then true else bit b j) ->
  clear_bits b' = filter (fun j => j <> i) (clear_bits b).
Proof.
  intros (_ & Hn & Hbits). unfold clear_bits. rewrite Hn, list_filter_filter.
  apply filter_ext_elem. intros j Hj%elem_of_seqZ. rewrite Hbits by lia.
  destruct (Z.eqb_spec j i); naive_solver.
Qed.

Lemma clear_bits_find b b' i rest :
  clear_bits b = i :: rest ->
  bits_are b b' (fun j => if j =? i then true else bit b j) -> clear_bits b' = rest.
Proof.
  intros Hc Hb'. rewrite (clear_bits_mark _ _ _ Hb'), Hc.
  pose proof (NoDup_clear_bits b) as Hnd. rewrite Hc in Hnd. apply NoDup_cons in Hnd as [Hi _].
  rewrite filter_cons_False by naive_solver. apply filter_all, Forall_forall. intros j Hj ->. done.
Qed.

(** [Find] on a map with a clear bit, as a step on the clear bits. *)
Lemma find_takes b :
  wf b -> clear_bits b <> [] ->
  exists i b', Find b = Ok (i, b') /\ wf b' /\ numBits b' = numBits b /\
    clear_bits b = i :: clear_bits b' /\ 0 <= i < numBits b.
Proof.
  intros Hb Hne. pose proof (find_spec b Hb) as Hf.
  destruct (clear_bits b) as [|i rest] eqn:Hc; [done|].
  destruct Hf as (b' & Hrun & Hb'). pose proof Hb' as (Hw & Hn & _).
  exists i, b'. rewrite (clear_bits_find _ _ _ _ Hc Hb').
  assert (Hi : i ∈ clear_bits b) by (rewrite Hc; by left).
  apply elem_of_clear_bits in Hi as [Hi _]. by repeat (split; [done|]).
Qed.

(** The constructor clears every bit whatever the new array holds. *)
Lemma new_bitmap_spec n g :
  0 <= n -> Z.of_nat (length g) = divRoundUp n BitsInWord -> Forall is_u32 g ->
  exists b, new_bitmap n g = Ok b /\ wf b /\ numBits b = n /\
    forall i, 0 <= i < n -> bit b i = false.
Proof.
  intros Hn Hg Hu. unfold new_bitmap. set (b0 := MkBitMap _ _ _).
  destruct (mfor_inv (fun i b => wf b /\ numBits b = n /\ forall j, 0 <= j < i -> bit b j = false)
    Clear (Z.to_nat n) 0 b0) as (b & Hrun & Hb).
  - split_and!; [by split_and!|done|lia].
  - intros j b Hj (Hb & Hbn & Hlo). destruct (clear_spec b j Hb ltac:(lia)) as (b' & Hc & Hw & Hn' & Hbits).
    exists b'. split; [done|]. split_and!; [done|by rewrite Hn'|].
    intros i Hi. rewrite Hbits by lia. destruct (Z.eqb_spec i j); [done|]. apply Hlo. lia.
  - rewrite Hrun. exists b. rewrite Z2Nat.id in Hb by done. naive_solver.
Qed.

Lemma marked_from_spec b n i :
  wf b -> 0 <= i -> i + Z.of_nat n = numBits b ->
  marked_from n i b = Ok (filter (fun j => bit b j = true) (seqZ i (Z.of_nat n)), b).
Proof.
  intros Hb. revert i. induction n as [|n IH]; intros i Hi Hn; [done|]. cbn [marked_from].
  rewrite (bind_ok _ _ _ _ _ (test_spec b i Hb ltac:(lia))).
  rewrite (bind_ok _ _ _ _ _ (IH (i + 1) ltac:(lia) ltac:(lia))).
  rewrite (seqZ_cons i), Nat2Z.inj_succ, Z.pred_succ by lia. unfold mret, M_ret.
  destruct (bit b i) eqn:E; [by rewrite filter_cons_True|].
  by rewrite filter_cons_False by congruence.
Qed.

(** ** Bytes of the map *)

Lemma length_map_bytes ms : length (map_bytes ms) = (4 * length ms)%nat.
Proof.
  induction ms as [|w ms IH]; [done|].
  change (map_bytes (w :: ms)) with (le_bytes 4 w ++ map_bytes ms).
  rewrite length_app, length_le_bytes, IH. cbn [length]. lia.
Qed.

Lemma map_bytes_roundtrip ms bs :
  Forall is_u32 ms -> map_of_bytes (length ms) (map_bytes ms ++ bs) = ms.
Proof.
  induction 1 as [|w ms Hw _ IH]; [done|].
  change (map_bytes (w :: ms)) with (le_bytes 4 w ++ map_bytes ms). cbn [length map_of_bytes].
  rewrite <- app_assoc, take_app_length', drop_app_length' by (by rewrite length_le_bytes).
  rewrite IH, le_val_bytes. f_equal. by apply Z.mod_small.
Qed.

Lemma map_bytes_byte ms : Forall is_byte (map_bytes ms).
Proof.
  induction ms as [|w ms IH]; [by constructor|].
  change (map_bytes (w :: ms)) with (le_bytes 4 w ++ map_bytes ms).
  apply Forall_app. split; [apply le_bytes_byte|done].
Qed.

(** The first clear bit is the lowest one. *)
Lemma clear_from_head b n i j rest k :
  clear_from b i n = j :: rest -> i <= k < j -> bit b k = true.
Proof.
  revert i. induction n as [|n IH]; intros i; [done|]. rewrite clear_from_S.
  destruct (bit b i) eqn:E; simpl; [|intros [= -> _]; lia].
  intros Hc Hk. destruct (Z.eq_dec k i) as [->|]; [done|]. apply (IH (i + 1)); [done|lia].
Qed.

(** ** The properties *)

(** On a well-formed bitmap and an index in range, [Mark] and [Clear]
    return, keep the bitmap well formed and its size, and change the bit [i] and
    no other; [Test] returns the bit and changes nothing; with an index out of
    range all three fail their assertion. *)
Lemma bitmap_bits_spec (b : BitMap) (i : Z) :
  wf b ->
  if decide (0 <= i < numBits b) then
    (exists b', Mark i b = Ok (tt, b') /\
       bits_are b b' (fun j => if j =? i then true else bit b j)) /\
    (exists b', Clear i b = Ok (tt, b') /\
       bits_are b b' (fun j => if j =? i then false else bit b j)) /\
    Test i b = Ok (bit b i, b)
  else
    Mark i b = Stop AssertFailed /\ Clear i b = Stop AssertFailed /\
    Test i b = Stop AssertFailed.
Proof.
  intros Hb. case_decide as Hi; [|by apply out_of_range].
  split_and!; [by apply mark_spec|by apply clear_spec|by apply test_spec].
Qed.

(** [Find] and [NumClear] agree on which bits are free: [NumClear] counts the
    clear bits; [Find] answers -1 and changes nothing exactly when that count is
    0, and otherwise marks and returns the lowest clear bit, after which the
    clear bits are the same ones without it (so [NumClear] drops by one and the
    same bit is never handed out twice). *)
Lemma bitmap_find_allocates (b : BitMap) :
  wf b ->
  NumClear b = Ok (Z.of_nat (length (clear_bits b)), b) /\
  (clear_bits b = [] -> Find b = Ok (-1, b)) /\
  (forall i rest, clear_bits b = i :: rest ->
     exists b', Find b = Ok (i, b') /\ wf b' /\ numBits b' = numBits b /\
       0 <= i < numBits b /\ bit b i = false /\
       (forall j, 0 <= j < i -> bit b j = true) /\
       (forall j, 0 <= j < numBits b -> bit b' j = (j =? i) || bit b j) /\
       clear_bits b' = rest /\
       NumClear b' = Ok (Z.of_nat (length (clear_bits b)) - 1, b')).
Proof.
  intros Hb. pose proof (find_spec b Hb) as Hf. split; [by apply numclear_spec|].
  split; [intros Hc; by rewrite Hc in Hf|]. intros i rest Hc. rewrite Hc in Hf.
  destruct Hf as (b' & Hrun & Hb'). exists b'. pose proof Hb' as (Hw & Hn & Hbits).
  pose proof (clear_bits_find _ _ _ _ Hc Hb') as Hc'.
  destruct (proj1 (elem_of_clear_bits b i)) as [Hi Hbi]; [rewrite Hc; by left|].
  split_and!; try done; try lia.
  - intros j Hj. rewrite clear_bits_from in Hc by done. by eapply clear_from_head.
  - rewrite numclear_spec, Hc' by done. rewrite Hc. cbn [length]. do 2 f_equal. lia.
Qed.

(** The constructor clears every bit whatever the freshly allocated array
    holds, and a bitmap written to disk and read back is the same bitmap: the
    bytes [WriteBack] emits decode, in [FetchFrom], to the words of [map]. *)
Lemma bitmap_create_store_load (n : Z) (garbage tail : list Z) :
  0 <= n -> Z.of_nat (length garbage) = divRoundUp n BitsInWord -> Forall is_u32 garbage ->
  exists b, new_bitmap n garbage = Ok b /\ wf b /\ numBits b = n /\
    clear_bits b = seqZ 0 n /\
    forall b', wf b' -> numBits b' = n ->
      Z.of_nat (length (map_bytes (map b'))) = numWords b' * 4 /\
      Forall is_byte (map_bytes (map b')) /\
      map_of_bytes (Z.to_nat (numWords b)) (map_bytes (map b') ++ tail) = map b'.
Proof.
  intros Hn Hg Hu. destruct (new_bitmap_spec n garbage Hn Hg Hu) as (b & Hnew & Hw & Hnb & Hbits).
  exists b. split_and!; try done.
  - unfold clear_bits. rewrite Hnb. apply filter_all, Forall_forall.
    intros i Hi%elem_of_seqZ. apply Hbits. lia.
  - intros b' (Hn' & Hnw' & Hl' & Hu') Hnb'. destruct Hw as (_ & Hnw & _ & _).
    split_and!; [rewrite length_map_bytes; lia|apply map_bytes_byte|].
    replace (Z.to_nat (numWords b)) with (length (map b')) by (rewrite Hnw, Hnb, <- Hnb'; lia).
    by apply map_bytes_roundtrip.
Qed.

