(* ===== verification/Sectors.v ===== *)
(** * The disk as the file system sees it

    [filesys/synchdisk.h] promises the file system a disk whose [ReadSector] and
    [WriteSector] return only when the request is done.  [SectorDisk] is that
    interface and [SectorDiskLaws] its contract; the file-system theorems are
    proved against it. *)

From S2P Require Import Prelude.

(** [machine/disk.h]. *)
Definition SectorSize : Z := 128.
Definition SectorsPerTrack : Z := 32.
Definition NumTracks : Z := 32.
Definition NumSectors : Z := SectorsPerTrack * NumTracks.

(** The contents of a whole disk, sector by sector. *)
Abbreviation image := (list (list Z)).

Definition sector_ok (bs : list Z) : Prop :=
  length bs = Z.to_nat SectorSize /\ Forall is_byte bs.
Definition image_ok (img : image) : Prop :=
  length img = Z.to_nat NumSectors /\ Forall sector_ok img.
Definition is_sector (s : Z) : Prop := 0 <= s < NumSectors.

Definition sector (img : image) (s : Z) : list Z := default [] (img !! Z.to_nat s).
Definition update (s : Z) (bs : list Z) (img : image) : image := <[Z.to_nat s := bs]> img.

(** [class SynchDisk]. *)
Class SectorDisk (D : Type) : Type := {
  ReadSector : Z -> M D (list Z);
  WriteSector : Z -> list Z -> M D unit
}.

(** What its clients rely on: a request inside the disk completes and acts on the
    contents, one outside it fails the assertion of [Disk::ReadRequest]. *)
Class SectorDiskLaws (D : Type) `{SectorDisk D} : Type := {
  contents : D -> image;
  disk_ok : D -> Prop;
  contents_ok : forall d, disk_ok d -> image_ok (contents d);
  read_sector : forall d s, disk_ok d -> is_sector s ->
    exists d', ReadSector s d = Ok (sector (contents d) s, d') /\ disk_ok d' /\
      contents d' = contents d;
  write_sector : forall d s bs, disk_ok d -> is_sector s -> sector_ok bs ->
    exists d', WriteSector s bs d = Ok (tt, d') /\ disk_ok d' /\
      contents d' = update s bs (contents d);
  read_outside : forall d s, disk_ok d -> ~ is_sector s -> ReadSector s d = Stop AssertFailed;
  write_outside : forall d s bs, disk_ok d -> ~ is_sector s ->
    WriteSector s bs d = Stop AssertFailed
}.

Lemma image_sector_ok img s : image_ok img -> is_sector s -> sector_ok (sector img s).
Proof.
  intros [Hl Hs] Hr. unfold is_sector, sector in *.
  destruct (lookup_lt_is_Some_2 img (Z.to_nat s)) as [bs Hbs]; [rewrite Hl; lia|].
  rewrite Hbs. simpl. by eapply Forall_lookup_1 in Hbs.
Qed.

Lemma sector_update_eq img s bs :
  image_ok img -> is_sector s -> sector (update s bs img) s = bs.
Proof.
  intros [Hl _] Hs. unfold sector, update, is_sector in *.
  by rewrite list_lookup_insert_eq by (rewrite Hl; lia).
Qed.

Lemma sector_update_ne img s t bs :
  is_sector s -> is_sector t -> s <> t -> sector (update s bs img) t = sector img t.
Proof.
  intros Hs Ht Hne. unfold sector, update, is_sector in *.
  by rewrite list_lookup_insert_ne by lia.
Qed.

Lemma update_ok img s bs : image_ok img -> sector_ok bs -> image_ok (update s bs img).
Proof.
  intros [Hl Hs] Hbs. split; [by rewrite <- Hl; apply length_insert|by apply Forall_insert].
Qed.

#[export] Hint Resolve image_sector_ok update_ok contents_ok : nachos.

(** ** A disk that is only its contents

    The smallest implementation of the interface, used to run the file system. *)
Module PlainDisk.

Definition in_range (s : Z) : bool := (0 <=? s) && (s <? NumSectors).

#[export] Instance plain_disk : SectorDisk image := {
  ReadSector s := fun img => if in_range s then Ok (sector img s, img) else Stop AssertFailed;
  WriteSector s bs := fun img => if in_range s then Ok (tt, update s bs img) else Stop AssertFailed
}.

Lemma in_range_spec s : if in_range s then is_sector s else ~ is_sector s.
Proof.
  unfold in_range, is_sector. destruct (Z.leb_spec 0 s), (Z.ltb_spec s NumSectors); simpl; lia.
Qed.

#[export, refine] Instance plain_disk_laws : SectorDiskLaws image := {
  contents img := img;
  disk_ok := image_ok
}.
Proof.
  - done.
  - intros d s Hd Hs. exists d. pose proof (in_range_spec s). simpl. by destruct (in_range s).
  - intros d s bs Hd Hs Hbs. exists (update s bs d). pose proof (in_range_spec s). simpl.
    destruct (in_range s); [|done]. split_and!; [done|by apply update_ok|done].
  - intros d s Hd Hs. pose proof (in_range_spec s). simpl. by destruct (in_range s).
  - intros d s bs Hd Hs. pose proof (in_range_spec s). simpl. by destruct (in_range s).
Defined.

End PlainDisk.
