(* ===== verification/FileHdr.v ===== *)
(** * [filesys/filehdr.cc]: file headers and their chains

    A file header (i-node) holds 26 direct sector numbers and, in this version of
    the file system, the sector of the next header of the file.  The model keeps
    the header as the record the C++ class is, with the 128 bytes it occupies on
    disk.  [chain] is the abstract view: a header stands for the list of the data
    sectors of its file. *)

From S2P Require Import Prelude BitMap Sectors.

(** [filehdr.h]: [(SectorSize - 3*sizeof(int) - 3*sizeof(time_t)) / sizeof(int)]. *)
Definition NumDirect : Z := (SectorSize - 3 * 4 - 3 * 4) / 4.
Definition HdrSpan : Z := NumDirect * SectorSize.

(** [class FileHeader]. *)
Record FileHeader : Type := MkHdr {
  createTime : Z;
  lastAccessTime : Z;
  lastWriteTime : Z;
  nextFdrSector : Z;
  numBytes : Z;
  numSectors : Z;
  dataSectors : list Z
}.

Definition set_next (s : Z) (h : FileHeader) : FileHeader :=
  MkHdr (createTime h) (lastAccessTime h) (lastWriteTime h) s (numBytes h) (numSectors h)
    (dataSectors h).
Definition set_size (nb ns : Z) (h : FileHeader) : FileHeader :=
  MkHdr (createTime h) (lastAccessTime h) (lastWriteTime h) (nextFdrSector h) nb ns
    (dataSectors h).
Definition set_data (i s : Z) (h : FileHeader) : FileHeader :=
  MkHdr (createTime h) (lastAccessTime h) (lastWriteTime h) (nextFdrSector h) (numBytes h)
    (numSectors h) (<[Z.to_nat i := s]> (dataSectors h)).
Definition set_access (t : Z) (h : FileHeader) : FileHeader :=
  MkHdr (createTime h) t (lastWriteTime h) (nextFdrSector h) (numBytes h) (numSectors h)
    (dataSectors h).
Definition set_created (t w : Z) (h : FileHeader) : FileHeader :=
  MkHdr t (lastAccessTime h) w (nextFdrSector h) (numBytes h) (numSectors h) (dataSectors h).

(** The words of the object in memory order, and its bytes. *)
Definition hdr_words (h : FileHeader) : list Z :=
  [createTime h; lastAccessTime h; lastWriteTime h; nextFdrSector h; numBytes h; numSectors h]
    ++ dataSectors h.
Definition hdr_bytes (h : FileHeader) : list Z := map_bytes (u32 <$> hdr_words h).
Definition hdr_of_words (ws : list Z) : FileHeader :=
  let w i := default 0 (ws !! i) in
  MkHdr (w 0%nat) (w 1%nat) (w 2%nat) (w 3%nat) (w 4%nat) (w 5%nat) (drop 6 ws).
Definition hdr_of_bytes (bs : list Z) : FileHeader :=
  hdr_of_words (i32 <$> map_of_bytes 32 bs).

Section FileHdr.
Context {D : Type} `{!SectorDisk D}.

(** [FileHeader::FetchFrom]. *)
Definition FetchFrom (s : Z) : M D FileHeader :=
  bs ← ReadSector s; mret (hdr_of_bytes bs).

(** [FileHeader::WriteBack]. *)
Definition WriteBack (h : FileHeader) (s : Z) : M D unit := WriteSector s (hdr_bytes h).

(** [FileHeader::FileLength]. *)
Definition FileLength (h : FileHeader) : Z := numBytes h.

(** [FileHeader::Allocate], the header a further group of sectors starts (the
    [if] of its loop).  [hdr] is the object
    [hdr] points to, [olds] the objects it pointed to before, the latest first
    (the last of [hdr :: olds] is [this]); [fresh k] is what the [k]-th
    [new FileHeader] holds; [cur] is [cur_sector], [None] before its first
    assignment. *)
Definition alloc_header (fresh : nat -> FileHeader) (i : Z) (hdr : FileHeader)
    (olds : list FileHeader) (cur : option Z)
    : M (BitMap * D) (FileHeader * list FileHeader * option Z) :=
  if negb (i =? 0) && (Z.rem i NumDirect =? 0) then
    next ← zoom lfst Find;
    let hdr := set_next next hdr in
    _ ← (if negb (i =? NumDirect) then
           c ← lift (match cur with Some c => Ok c | None => Stop Undefined end);
           zoom lsnd (WriteBack hdr c)
         else mret tt);
    mret (fresh (length olds), hdr :: olds, Some next)
  else mret (hdr, olds, cur).

(** The loop of [FileHeader::Allocate], [n] sectors to go. *)
Fixpoint alloc_loop (fresh : nat -> FileHeader) (n : nat) (i : Z) (hdr : FileHeader)
    (olds : list FileHeader) (cur : option Z)
    : M (BitMap * D) (FileHeader * list FileHeader * option Z) :=
  match n with
  | O => mret (hdr, olds, cur)
  | S n =>
      '(hdr, olds, cur) ← alloc_header fresh i hdr olds cur;
      s ← zoom lfst Find;
      alloc_loop fresh n (i + 1) (set_data (Z.rem i NumDirect) s hdr) olds cur
  end.

(** [FileHeader::Allocate] called on the object [this], at time [now]. *)
Definition Allocate (fresh : nat -> FileHeader) (now : Z) (this : FileHeader) (fileSize : Z)
    : M (BitMap * D) (bool * FileHeader) :=
  let this := set_size fileSize (divRoundUp fileSize SectorSize) this in
  free ← zoom lfst NumClear;
  if free <? numSectors this then mret (false, this)
  else
    '(hdr, olds, cur) ← alloc_loop fresh (Z.to_nat (numSectors this)) 0 this [] None;
    let hdr := set_next (-1) hdr in
    let i := Z.max 0 (numSectors this) in
    _ ← (if NumDirect <=? i then
           c ← lift (match cur with Some c => Ok c | None => Stop Undefined end);
           zoom lsnd (WriteBack hdr c)
         else mret tt);
    let this := List.last olds hdr in
    mret (true, set_created now now this).

(** One pass of the [for] of [FileHeader::Deallocate], [n] iterations to go, up to
    its [break]: the result is [hdr] when the [for] is left. *)
Fixpoint dealloc_pass (n : nat) (i : Z) (hdr : FileHeader) : M (BitMap * D) FileHeader :=
  match n with
  | O => mret hdr
  | S n =>
      s ← lift (aget (dataSectors hdr) (Z.rem i NumDirect));
      t ← zoom lfst (Test s);
      _ ← ASSERT t;
      _ ← zoom lfst (Clear s);
      if nextFdrSector hdr =? -1 then mret hdr
      else
        hdr' ← zoom lsnd (FetchFrom (nextFdrSector hdr));
        dealloc_pass n (i + 1) hdr'
  end.

(** [FileHeader::Deallocate]: [while (true)] around the [for]; [fuel] passes. *)
Fixpoint dealloc_loop (fuel : nat) (this hdr : FileHeader) : M (BitMap * D) unit :=
  match fuel with
  | O => halt OutOfFuel
  | S fuel =>
      hdr' ← dealloc_pass (Z.to_nat (numSectors this)) 0 hdr;
      dealloc_loop fuel this hdr'
  end.
Definition Deallocate (fuel : nat) (this : FileHeader) : M (BitMap * D) unit :=
  dealloc_loop fuel this this.

(** The loop of [FileHeader::ByteToSector]; [NumDirect*SectorSize] is unsigned, so
    [offset] is compared and decreased as an unsigned number. *)
Fixpoint byte_to_sector_loop (fuel : nat) (hdr : FileHeader) (offset : Z)
    : M D (FileHeader * Z) :=
  if HdrSpan <=? u32 offset then
    match fuel with
    | O => halt OutOfFuel
    | S fuel =>
        hdr' ← FetchFrom (nextFdrSector hdr);
        byte_to_sector_loop fuel hdr' (i32 (u32 offset - HdrSpan))
    end
  else mret (hdr, offset).

(** [FileHeader::ByteToSector]. *)
Definition ByteToSector (this : FileHeader) (offset : Z) : M D Z :=
  '(hdr, offset) ← byte_to_sector_loop (Z.to_nat (u32 offset / HdrSpan)) this offset;
  let offset := i32 (u32 offset mod HdrSpan) in
  lift (aget (dataSectors hdr) (Z.quot offset SectorSize)).

(** The first loop of [FileHeader::Print]: the sector numbers it prints. *)
Fixpoint print_sectors (n : nat) (i : Z) (hdr : FileHeader) : M D (list Z) :=
  match n with
  | O => mret []
  | S n =>
      hdr ← (if negb (i =? 0) && (Z.rem i NumDirect =? 0)
             then FetchFrom (nextFdrSector hdr) else mret hdr);
      s ← lift (aget (dataSectors hdr) (Z.rem i NumDirect));
      r ← print_sectors n (i + 1) hdr;
      mret (s :: r)
  end.

(** Its second loop: the bytes it prints, [k] of them printed before. *)
Fixpoint print_contents (n : nat) (i k : Z) (total : Z) (hdr : FileHeader) : M D (list Z) :=
  match n with
  | O => mret []
  | S n =>
      hdr ← (if negb (i =? 0) && (Z.rem i NumDirect =? 0)
             then FetchFrom (nextFdrSector hdr) else mret hdr);
      s ← lift (aget (dataSectors hdr) (Z.rem i NumDirect));
      data ← ReadSector s;
      let m := Z.max 0 (Z.min SectorSize (total - k)) in
      r ← print_contents n (i + 1) (k + m) total hdr;
      mret (take (Z.to_nat m) data ++ r)
  end.

(** [FileHeader::Print]: the sector numbers, then the bytes of the file. *)
Definition Print (this : FileHeader) : M D (list Z * list Z) :=
  ss ← print_sectors (Z.to_nat (numSectors this)) 0 this;
  bs ← print_contents (Z.to_nat (numSectors this)) 0 0 (numBytes this) this;
  mret (ss, bs).

End FileHdr.

(** ** Headers as bytes *)

(** The object invariant: every field is an [int]. *)
Definition hdr_ok (h : FileHeader) : Prop :=
  length (dataSectors h) = Z.to_nat NumDirect /\ Forall is_i32 (hdr_words h).

(** The header a sector of the image holds. *)
Definition hdr_at (img : image) (s : Z) : FileHeader := hdr_of_bytes (sector img s).

Lemma length_map_of_bytes n bs : length (map_of_bytes n bs) = n.
Proof. revert bs. induction n as [|n IH]; intros bs; simpl; [done|]. by rewrite IH. Qed.

Lemma length_hdr_words h : hdr_ok h -> length (hdr_words h) = 32%nat.
Proof. intros [Hl _]. unfold hdr_words. rewrite length_app, Hl. done. Qed.

Lemma hdr_bytes_ok h : hdr_ok h -> sector_ok (hdr_bytes h).
Proof.
  intros Hh. split; [|apply map_bytes_byte].
  unfold hdr_bytes. rewrite length_map_bytes, length_fmap, length_hdr_words by done. done.
Qed.

Lemma hdr_of_words_words h : hdr_of_words (hdr_words h) = h.
Proof. by destruct h. Qed.

Lemma hdr_bytes_roundtrip h : hdr_ok h -> hdr_of_bytes (hdr_bytes h) = h.
Proof.
  intros Hh. unfold hdr_of_bytes, hdr_bytes.
  rewrite <- (app_nil_r (map_bytes _)).
  replace 32%nat with (length (u32 <$> hdr_words h))
    by (by rewrite length_fmap, length_hdr_words).
  rewrite map_bytes_roundtrip.
  - transitivity (hdr_of_words (hdr_words h)); [|apply hdr_of_words_words]. f_equal.
    rewrite <- list_fmap_compose. transitivity (id <$> hdr_words h); [|apply list_fmap_id].
    apply list_fmap_ext. intros i w Hw. simpl. rewrite i32_u32. apply i32_id.
    destruct Hh as [_ Hw']. by eapply Forall_lookup_1 in Hw'.
  - apply Forall_fmap, Forall_true. intros. apply u32_range.
Qed.

Lemma hdr_of_bytes_ok bs : hdr_ok (hdr_of_bytes bs).
Proof.
  unfold hdr_of_bytes. set (ws := i32 <$> map_of_bytes 32 bs).
  assert (Hl : length ws = 32%nat) by (unfold ws; by rewrite length_fmap, length_map_of_bytes).
  assert (Hr : Forall is_i32 ws) by (apply Forall_fmap, Forall_true; intros; apply i32_range).
  do 6 (destruct ws as [|? ws]; [done|]). split; [by injection Hl|done].
Qed.

Lemma hdr_at_ok img s : hdr_ok (hdr_at img s).
Proof. apply hdr_of_bytes_ok. Qed.

Lemma hdr_ok_intro h :
  length (dataSectors h) = Z.to_nat NumDirect -> is_i32 (createTime h) ->
  is_i32 (lastAccessTime h) -> is_i32 (lastWriteTime h) -> is_i32 (nextFdrSector h) ->
  is_i32 (numBytes h) -> is_i32 (numSectors h) -> Forall is_i32 (dataSectors h) -> hdr_ok h.
Proof. intros. split; [done|]. unfold hdr_words. apply Forall_app. split; [|done]. rewrite !Forall_cons, Forall_nil. naive_solver. Qed.

Lemma hdr_ok_elim h :
  hdr_ok h -> length (dataSectors h) = Z.to_nat NumDirect /\ is_i32 (createTime h) /\
  is_i32 (lastAccessTime h) /\ is_i32 (lastWriteTime h) /\ is_i32 (nextFdrSector h) /\
  is_i32 (numBytes h) /\ is_i32 (numSectors h) /\ Forall is_i32 (dataSectors h).
Proof.
  intros [Hl Hw]. unfold hdr_words in Hw. apply Forall_app in Hw as [Hw Hd].
  rewrite !Forall_cons in Hw. naive_solver.
Qed.

Lemma set_next_hdr_ok s h : is_i32 s -> hdr_ok h -> hdr_ok (set_next s h).
Proof. intros Hs (?&?&?&?&?&?&?&?)%hdr_ok_elim. by apply hdr_ok_intro. Qed.
Lemma set_size_ok nb ns h : is_i32 nb -> is_i32 ns -> hdr_ok h -> hdr_ok (set_size nb ns h).
Proof. intros Hb Hs (?&?&?&?&?&?&?&?)%hdr_ok_elim. by apply hdr_ok_intro. Qed.
Lemma set_data_ok i s h : is_i32 s -> hdr_ok h -> hdr_ok (set_data i s h).
Proof.
  intros Hs (?&?&?&?&?&?&?&?)%hdr_ok_elim. apply hdr_ok_intro; try done; simpl.
  - by rewrite length_insert.
  - by apply Forall_insert.
Qed.
Lemma set_created_ok t w h : is_i32 t -> is_i32 w -> hdr_ok h -> hdr_ok (set_created t w h).
Proof. intros Ht Hw (?&?&?&?&?&?&?&?)%hdr_ok_elim. by apply hdr_ok_intro. Qed.
Lemma set_access_ok t h : is_i32 t -> hdr_ok h -> hdr_ok (set_access t h).
Proof. intros Ht (?&?&?&?&?&?&?&?)%hdr_ok_elim. by apply hdr_ok_intro. Qed.

#[export] Hint Resolve hdr_bytes_ok hdr_at_ok set_next_hdr_ok set_size_ok set_data_ok
  set_created_ok set_access_ok : nachos.

(** ** Chains *)

(** [chain img h secs hsecs]: starting from the header [h] in memory, the data
    sectors of the file are [secs] and its further headers, on the image [img],
    are in the sectors [hsecs]. *)
Fixpoint chain (img : image) (h : FileHeader) (secs hsecs : list Z) : Prop :=
  match hsecs with
  | [] => nextFdrSector h = -1 /\ secs `prefix_of` dataSectors h
  | s :: hs =>
      nextFdrSector h = s /\ is_sector s /\
      exists rest, secs = dataSectors h ++ rest /\ chain img (hdr_at img s) rest hs
  end.

(** Only the chained header sectors of the image matter. *)
Lemma chain_frame img img' h secs hsecs :
  (forall s, s ∈ hsecs -> sector img' s = sector img s) ->
  chain img h secs hsecs -> chain img' h secs hsecs.
Proof.
  revert h secs. induction hsecs as [|s hs IH]; intros h secs Hf; [done|].
  intros (Hn & Hs & rest & -> & Hc). split; [done|]. split; [done|]. exists rest. split; [done|].
  unfold hdr_at. rewrite Hf by (by left). apply IH; [|done]. intros t Ht. apply Hf. by right.
Qed.

(** Only the pointers of the header matter. *)
Lemma chain_hdr img h h' secs hsecs :
  nextFdrSector h' = nextFdrSector h -> dataSectors h' = dataSectors h ->
  chain img h secs hsecs -> chain img h' secs hsecs.
Proof. intros Hn Hd. destruct hsecs; simpl; rewrite Hn, Hd; done. Qed.

Lemma chain_hsecs img h secs hsecs : chain img h secs hsecs -> Forall is_sector hsecs.
Proof.
  revert h secs. induction hsecs as [|s hs IH]; intros h secs; [by constructor|].
  intros (_ & Hs & rest & _ & Hc). constructor; [done|by eapply IH].
Qed.

Section FileHdrFacts.
Context {D : Type} `{!SectorDisk D} `{!SectorDiskLaws D}.

(** [d'] is [d] with its contents [img]. *)
Definition now_holds (d' : D) (img : image) : Prop := disk_ok d' /\ contents d' = img.

Lemma fetch_from_spec (d : D) s :
  disk_ok d -> is_sector s ->
  exists d', FetchFrom s d = Ok (hdr_at (contents d) s, d') /\ now_holds d' (contents d).
Proof.
  intros Hd Hs. destruct (read_sector d s Hd Hs) as (d' & Hrun & Hd' & Hc).
  exists d'. unfold FetchFrom. rewrite (bind_ok _ _ _ _ _ Hrun). done.
Qed.

Lemma write_back_spec (d : D) h s :
  disk_ok d -> is_sector s -> hdr_ok h ->
  exists d', WriteBack h s d = Ok (tt, d') /\ now_holds d' (update s (hdr_bytes h) (contents d)).
Proof.
  intros Hd Hs Hh. unfold WriteBack.
  destruct (write_sector d s (hdr_bytes h) Hd Hs) as (d' & Hrun & Hd' & Hc); [auto with nachos|].
  by exists d'.
Qed.

Lemma hdr_at_update_eq img s h :
  image_ok img -> is_sector s -> hdr_ok h -> hdr_at (update s (hdr_bytes h) img) s = h.
Proof. intros. unfold hdr_at. rewrite sector_update_eq by done. by apply hdr_bytes_roundtrip. Qed.

Lemma byte_to_sector_loop_spec fuel h off (d : D) secs hsecs :
  disk_ok d -> hdr_ok h -> chain (contents d) h secs hsecs ->
  0 <= off < 2 ^ 31 -> off < SectorSize * Z.of_nat (length secs) ->
  (Z.to_nat (off / HdrSpan) <= fuel)%nat ->
  exists h' d', byte_to_sector_loop fuel h off d = Ok ((h', off mod HdrSpan), d') /\
    now_holds d' (contents d) /\
    dataSectors h' !! Z.to_nat (off mod HdrSpan / SectorSize) = secs !! Z.to_nat (off / SectorSize).
Proof.
  change HdrSpan with 3328. change SectorSize with 128.
  revert fuel h off d secs. induction hsecs as [|s hs IH]; intros fuel h off d secs Hd Hh Hc Ho Hl Hf.
  - destruct Hc as [_ Hp]. pose proof (prefix_length _ _ Hp) as Hlen.
    destruct Hh as [Hh _]. change (Z.to_nat NumDirect) with 26%nat in Hh.
    assert (off < 3328) by lia. exists h, d.
    destruct fuel; simpl; rewrite (u32_id off) by (unfold is_u32; lia);
      destruct (Z.leb_spec HdrSpan off) as [HH|_];
      try (change HdrSpan with 3328 in HH; lia);
      rewrite (Z.mod_small off 3328) by lia;
      (split_and!; [done|done|]); symmetry; eapply prefix_lookup_lt; try done;
      enough (off / 128 < Z.of_nat (length secs)) by lia;
      apply Z.div_lt_upper_bound; lia.
  - destruct Hc as (Hn & Hs & rest & -> & Hc).
    pose proof Hh as [Hlen _]. change (Z.to_nat NumDirect) with 26%nat in Hlen.
    rewrite length_app in Hl.
    destruct (Z.lt_ge_cases off 3328) as [Hlt|Hge].
    + exists h, d.
      assert (byte_to_sector_loop fuel h off d = Ok ((h, off), d)) as ->.
      { destruct fuel; simpl; rewrite (u32_id off) by (unfold is_u32; lia);
          destruct (Z.leb_spec HdrSpan off) as [HH|_]; try done; change HdrSpan with 3328 in HH; lia. }
      rewrite (Z.mod_small off 3328) by lia. split_and!; [done|done|].
      rewrite lookup_app_l; [done|]. rewrite Hlen.
      pose proof (Z.div_lt_upper_bound off 128 26). lia.
    + destruct fuel as [|fuel].
      { pose proof (Z.div_le_mono 3328 off 3328). change (3328 / 3328) with 1 in *. lia. }
      destruct (fetch_from_spec d s Hd Hs) as (d1 & Hrun & Hd1 & Hc1).
      assert (Hoff : off = off - 3328 + 1 * 3328) by lia.
      assert (Hdiv : off / 3328 = (off - 3328) / 3328 + 1) by (rewrite Hoff at 1; apply Z.div_add; lia).
      assert (Hmod : off mod 3328 = (off - 3328) mod 3328) by (rewrite Hoff at 1; apply Z.mod_add; lia).
      assert (Hdiv' : off / 128 = (off - 3328) / 128 + 26)
        by (rewrite <- Z.div_add by lia; f_equal; lia).
      pose proof (Z.div_pos (off - 3328) 3328 ltac:(lia) ltac:(lia)).
      pose proof (Z.div_pos (off - 3328) 128 ltac:(lia) ltac:(lia)).
      destruct (IH fuel (hdr_at (contents d) s) (off - 3328) d1 rest) as (h' & d' & Hrun' & Hh' & Hlk);
        [done|apply hdr_at_ok|by rewrite Hc1|lia|lia|lia|].
      exists h', d'. simpl. rewrite (u32_id off) by (unfold is_u32; lia).
      rewrite (proj2 (Z.leb_le HdrSpan off)) by (change HdrSpan with 3328; lia).
      rewrite Hn, (bind_ok _ _ _ _ _ Hrun).
      change HdrSpan with 3328. rewrite i32_id by (unfold is_i32; lia).
      rewrite Hrun', Hmod. split_and!; [done|by rewrite <- Hc1|].
      rewrite Hlk, Hdiv', lookup_app_r by (rewrite Hlen; lia). f_equal. rewrite Hlen. lia.
Qed.

(** On a chain, [ByteToSector] finds the sector that holds the byte. *)
Lemma byte_to_sector_spec h off (d : D) secs hsecs s :
  disk_ok d -> hdr_ok h -> chain (contents d) h secs hsecs ->
  0 <= off < 2 ^ 31 -> secs !! Z.to_nat (off / SectorSize) = Some s ->
  exists d', ByteToSector h off d = Ok (s, d') /\ now_holds d' (contents d).
Proof.
  intros Hd Hh Hc Ho Hs. unfold ByteToSector.
  pose proof (lookup_lt_Some _ _ _ Hs) as Hlt.
  pose proof (Z.mod_pos_bound off HdrSpan ltac:(done)) as Hm.
  rewrite (u32_id off) by (unfold is_u32; lia).
  destruct (byte_to_sector_loop_spec (Z.to_nat (off / HdrSpan)) h off d secs hsecs)
    as (h' & d' & Hrun & Hd' & Hlk); try done.
  { change SectorSize with 128 in *. pose proof (Z.mod_pos_bound off 128). pose proof (Z.div_mod off 128). lia. }
  exists d'. rewrite (bind_ok _ _ _ _ _ Hrun). split; [|done].
  change HdrSpan with 3328 in *.
  rewrite (u32_id (off mod 3328)), Z.mod_mod, i32_id by (unfold is_u32, is_i32; lia).
  rewrite Z.quot_div_nonneg by (done || lia).
  apply lift_ok, aget_Some. split; [apply Z.div_pos; [lia|done]|]. by rewrite Hlk.
Qed.

(** ** [Allocate]

    [pchain] is a chain under construction: its last header is still the object
    [cur] in memory. *)
Fixpoint pchain (img : image) (h : FileHeader) (secs hsecs : list Z) (cur : FileHeader) : Prop :=
  match hsecs with
  | [] => h = cur /\ secs `prefix_of` dataSectors cur
  | s :: hs =>
      nextFdrSector h = s /\ is_sector s /\
      exists rest, secs = dataSectors h ++ rest /\
        pchain img (match hs with [] => cur | _ => hdr_at img s end) rest hs cur
  end.

Lemma prefix_insert (l l' : list Z) x :
  l `prefix_of` l' -> (length l < length l')%nat ->
  l ++ [x] `prefix_of` <[length l := x]> l'.
Proof.
  intros [k ->] Hl. rewrite length_app in Hl. destruct k as [|y k]; [simpl in Hl; lia|].
  exists k. rewrite <- (Nat.add_0_r (length l)), insert_app_r, <- app_assoc. done.
Qed.

Lemma pchain_data img h secs hsecs cur x :
  hdr_ok h -> hdr_ok cur -> pchain img h secs hsecs cur ->
  (length secs < 26 * S (length hsecs))%nat ->
  let cur' := set_data (Z.of_nat (length secs - 26 * length hsecs)) x cur in
  (26 * length hsecs <= length secs)%nat /\
  pchain img (match hsecs with [] => cur' | _ => h end) (secs ++ [x]) hsecs cur'.
Proof.
  revert h secs. induction hsecs as [|s hs IH]; intros h secs Hh Hk Hp Hl; simpl in *.
  - destruct Hp as [_ Hp]. split; [lia|]. split; [done|]. simpl.
    rewrite Nat.sub_0_r, Nat2Z.id. apply prefix_insert; [done|].
    destruct Hk as [-> _]. change (Z.to_nat NumDirect) with 26%nat. lia.
  - destruct Hp as (Hn & Hs & rest & -> & Hp). pose proof Hh as [Hlen _].
    change (Z.to_nat NumDirect) with 26%nat in Hlen. rewrite length_app in *.
    destruct (IH (match hs with [] => cur | _ => hdr_at img s end) rest) as [Hle Hp'];
      [destruct hs; [done|apply hdr_at_ok]|done|done|lia|].
    split; [lia|]. do 2 (split; [done|]). exists (rest ++ [x]).
    split; [by rewrite app_assoc|].
    replace (length (dataSectors h) + length rest - _)%nat with (length rest - 26 * length hs)%nat by lia.
    by destruct hs.
Qed.

(** Writing the last header of the chain to its sector [c]. *)
Lemma pchain_write img h secs hs c cur cur' :
  image_ok img -> is_sector c -> NoDup (hs ++ [c]) -> hdr_ok cur' ->
  dataSectors cur' = dataSectors cur ->
  pchain img h secs (hs ++ [c]) cur ->
  let img' := update c (hdr_bytes cur') img in
  (nextFdrSector cur' = -1 -> chain img' h secs (hs ++ [c])) /\
  (forall fr, length secs = (26 * S (length (hs ++ [c])))%nat -> hdr_ok h ->
     is_sector (nextFdrSector cur') ->
     pchain img' h secs (hs ++ [c; nextFdrSector cur']) fr).
Proof.
  intros Hi Hc Hnd Hk Hd. revert h secs. induction hs as [|s hs IH]; intros h secs Hp;
    cbn [chain pchain app length] in *.
  - destruct Hp as (Hn & Hs & rest & -> & _ & Hp). split; intros.
    + do 2 (split; [done|]). exists rest. split; [done|].
      rewrite hdr_at_update_eq by done. by rewrite Hd.
    + do 2 (split; [done|]). exists rest. split; [done|].
      rewrite hdr_at_update_eq by done. do 2 (split; [done|]).
      exists []. split; [|split; [done|apply prefix_nil]].
      rewrite app_nil_r, Hd. destruct Hp as [k Hp].
      assert (length k = 0)%nat as Hk0%length_zero_iff_nil.
      { apply (f_equal length) in Hp. rewrite !length_app in *.
        destruct H0 as [H0 _]. destruct Hk as [Hk _]. rewrite Hd in Hk.
        change (Z.to_nat NumDirect) with 26%nat in *. lia. }
      by rewrite Hk0, app_nil_r in Hp.
  - destruct Hp as (Hn & Hs & rest & -> & Hp). apply NoDup_cons in Hnd as [Hsc Hnd].
    assert (Hat : hdr_at (update c (hdr_bytes cur') img) s = hdr_at img s).
    { unfold hdr_at. rewrite sector_update_ne; [done|done|done|].
      intros ->. apply Hsc, elem_of_app. right. by left. }
    assert (Hm : pchain img (hdr_at img s) rest (hs ++ [c]) cur) by (by destruct hs).
    destruct (IH Hnd _ _ Hm) as [H1 H2]. split.
    + intros Hnx. do 2 (split; [done|]). exists rest. split; [done|].
      rewrite Hat. by apply H1.
    + intros fr Hl Hh Hnx. do 2 (split; [done|]). exists rest. split; [done|].
      rewrite Hat. specialize (H2 fr). rewrite length_app in Hl.
      destruct Hh as [Hh _]. change (Z.to_nat NumDirect) with 26%nat in *.
      assert (pchain (update c (hdr_bytes cur') img) (hdr_at img s) rest
                (hs ++ [c; nextFdrSector cur']) fr) by (apply H2; [lia|apply hdr_at_ok|done]).
      by destruct hs.
Qed.

(** The number of further headers a file of [n] sectors takes. *)
Definition extra_hdrs (n : Z) : Z := Z.max 0 (n - 1) / NumDirect.

Lemma is_sector_i32 s : is_sector s -> is_i32 s.
Proof. unfold is_sector, is_i32. change NumSectors with 1024. lia. Qed.

(** A fresh sector is not one of those already taken. *)
Lemma taken_NoDup (fm0 : BitMap) l x rest : clear_bits fm0 ≡ₚ l ++ x :: rest -> NoDup (l ++ [x]).
Proof.
  intros Hp. pose proof (NoDup_clear_bits fm0) as Hnd. rewrite Hp in Hnd.
  rewrite cons_middle, app_assoc in Hnd. by apply NoDup_app in Hnd as [? _].
Qed.

Lemma taken_sector (fm0 : BitMap) l rest x :
  numBits fm0 = NumSectors -> clear_bits fm0 ≡ₚ l ++ rest -> x ∈ l -> is_sector x.
Proof.
  intros Hfm0 Hp Hx. assert (Hin : x ∈ clear_bits fm0) by (rewrite Hp; set_solver).
  apply elem_of_clear_bits in Hin as [Hin _]. by rewrite Hfm0 in Hin.
Qed.

Lemma List_last_cons {A} (x y : A) (l : list A) z w :
  List.last (x :: y :: l) z = List.last (y :: l) w.
Proof. revert x y. induction l as [|a l IH]; intros x y; [done|]. apply (IH y a). Qed.

Lemma extra_step i :
  0 <= i -> extra_hdrs (i + 1) = extra_hdrs i + (if negb (i =? 0) && (Z.rem i NumDirect =? 0) then 1 else 0).
Proof.
  intros Hi. unfold extra_hdrs. change NumDirect with 26. rewrite Z.rem_mod_nonneg by lia.
  rewrite Z.max_r by lia. destruct (Z.eqb_spec i 0) as [->|Hne]; [done|].
  rewrite Z.max_r by lia. simpl.
  pose proof (Z.div_mod i 26 ltac:(lia)). pose proof (Z.mod_pos_bound i 26 ltac:(lia)).
  pose proof (Z.div_mod (i - 1) 26 ltac:(lia)). pose proof (Z.mod_pos_bound (i - 1) 26 ltac:(lia)).
  replace (i + 1 - 1) with i by lia.
  destruct (Z.eqb_spec (i mod 26) 0); lia.
Qed.

Lemma last_snoc_inv {A} (l : list A) : l = [] \/ exists l' x, l = l' ++ [x].
Proof. destruct l as [|x l _] using rev_ind; [by left|right; eauto]. Qed.

Lemma extra_mono i j : i <= j -> extra_hdrs i <= extra_hdrs j.
Proof. intros. unfold extra_hdrs. apply Z.div_le_mono; [done|lia]. Qed.

Section Allocating.
Context (fresh : nat -> FileHeader) (Hfresh : forall k, hdr_ok (fresh k)).
Context (fm0 : BitMap) (d0 : D) (nb ns : Z).
Context (Hfm0 : numBits fm0 = NumSectors).

(** What holds in the loop of [Allocate] with [i] data sectors and [e] further
    headers taken. *)
Definition alloc_inv (i e : Z) (hdr : FileHeader) (olds : list FileHeader) (cur : option Z)
    (st : BitMap * D) : Prop :=
  exists secs hsecs,
    Z.of_nat (length secs) = i /\ Z.of_nat (length hsecs) = e /\
    length olds = length hsecs /\ cur = last hsecs /\
    pchain (contents (snd st)) (List.last olds hdr) secs hsecs hdr /\
    clear_bits fm0 ≡ₚ (secs ++ hsecs) ++ clear_bits (fst st) /\
    wf (fst st) /\ numBits (fst st) = NumSectors /\ disk_ok (snd st) /\
    hdr_ok hdr /\ hdr_ok (List.last olds hdr) /\
    numBytes (List.last olds hdr) = nb /\ numSectors (List.last olds hdr) = ns /\
    (forall s, is_sector s -> s ∉ hsecs -> sector (contents (snd st)) s = sector (contents d0) s).

(** Starting a further header keeps the invariant. *)
Lemma alloc_header_inv i hdr olds cur st :
  alloc_inv i (extra_hdrs i) hdr olds cur st -> 0 <= i ->
  extra_hdrs (i + 1) - extra_hdrs i <= Z.of_nat (length (clear_bits (fst st))) ->
  exists hdr' olds' cur' st',
    alloc_header fresh i hdr olds cur st = Ok ((hdr', olds', cur'), st') /\
    alloc_inv i (extra_hdrs (i + 1)) hdr' olds' cur' st'.
Proof.
  intros Hinv Hi Hfree. rewrite extra_step in * by done. unfold alloc_header.
  destruct (negb (i =? 0) && (Z.rem i NumDirect =? 0)) eqn:Ec;
    [|rewrite Z.add_0_r; by exists hdr, olds, cur, st].
  zbool. destruct Hinv as (secs & hsecs & Hls & Hlh & Hlo & Hcur & Hp & Hperm & Hw & Hn & Hd & Hh & Hth
    & Hnb & Hns & Hfr). destruct st as [fm d]; simpl in *.
  destruct (find_takes fm) as (next & fm' & Hfind & Hw' & Hn' & Hcb & Hr); [done|intros Hnil; rewrite Hnil in Hfree; simpl in Hfree; lia|].
  rewrite Hcb in Hperm. assert (Hnx : is_sector next) by (unfold is_sector; lia).
  assert (Hnd : NoDup ((secs ++ hsecs) ++ [next])) by (by eapply taken_NoDup).
  erewrite bind_ok by (by apply zoom_ok). cbn [lset lfst snd].
  assert (Hl26 : length secs = (26 * S (length hsecs))%nat).
  { unfold extra_hdrs in Hlh. change NumDirect with 26 in *. rewrite Z.max_r in Hlh by lia.
    rewrite Z.rem_mod_nonneg in H0 by lia.
    pose proof (Z.div_mod i 26 ltac:(lia)). pose proof (Z.div_mod (i - 1) 26 ltac:(lia)).
    pose proof (Z.mod_pos_bound (i - 1) 26 ltac:(lia)). lia. }
  destruct (last_snoc_inv hsecs) as [->|(hs & c & ->)].
  - destruct olds; [|done]. simpl in *. destruct Hp as [_ Hp].
    rewrite (proj2 (Z.eqb_eq i NumDirect)) by (change NumDirect with 26; lia). simpl.
    eexists _, _, _, _. split; [reflexivity|]. exists secs, [next]. simpl.
    pose proof (is_sector_i32 _ Hnx).
    split_and!; try done; try lia; try (by auto with nachos).
    + exists []. split_and!; [|done|apply prefix_nil]. rewrite app_nil_r.
      destruct Hp as [k Hp]. assert (length k = 0)%nat as Hk0%length_zero_iff_nil.
      { apply (f_equal length) in Hp. rewrite length_app in Hp. destruct Hh as [Hh _].
        change (Z.to_nat NumDirect) with 26%nat in *. lia. }
      by rewrite Hk0, app_nil_r in Hp.
    + rewrite Hperm, app_nil_r, <- app_assoc. done.
    + intros s Hs Hns'. apply Hfr; [done|]. apply not_elem_of_nil.
  - rewrite last_snoc in Hcur. subst cur.
    rewrite (proj2 (Z.eqb_neq i NumDirect))
      by (change NumDirect with 26; rewrite length_app in Hl26; simpl in *; lia). simpl.
    assert (Hc : is_sector c) by (apply (taken_sector fm0 _ _ c Hfm0 Hperm); set_solver).
    pose proof (is_sector_i32 _ Hnx) as Hnx32.
    assert (Hndh : NoDup (hs ++ [c])).
    { rewrite <- app_assoc in Hnd. apply NoDup_app in Hnd as (_ & _ & Hnd).
      by apply NoDup_app in Hnd as [? _]. }
    destruct (write_back_spec d (set_next next hdr) c Hd Hc) as (d' & Hwb & Hd' & Hc'); [auto with nachos|].
    destruct (pchain_write (contents d) (List.last olds hdr) secs hs c hdr (set_next next hdr))
      as [_ Hp']; [auto with nachos|done|done|auto with nachos|done|done|].
    assert (Hlast : forall x, List.last (set_next next hdr :: olds) x = List.last olds hdr).
    { intros x. destruct olds; [rewrite length_app in Hlo; simpl in Hlo; lia|]. apply List_last_cons. }
    erewrite bind_ok.
    2:{ erewrite bind_ok by done. by apply zoom_ok. }
    eexists _, _, _, _. split; [reflexivity|]. exists secs, (hs ++ [c; next]).
    rewrite Hlast. cbn [fst snd lset lsnd]. rewrite Hc'.
    rewrite length_app in *. cbn [length] in *.
    split_and!; try done; try lia.
    + change [c; next] with ([c] ++ [next]). by rewrite app_assoc, last_snoc.
    + apply Hp'; [lia|done|done].
    + rewrite Hperm. rewrite <- !app_assoc. done.
    + intros s Hs Hnin. rewrite sector_update_ne by (set_solver || done). apply Hfr; [done|set_solver].
Qed.

(** Taking a data sector keeps the invariant. *)
Lemma alloc_data_inv i hdr olds cur st :
  alloc_inv i (extra_hdrs (i + 1)) hdr olds cur st -> 0 <= i ->
  clear_bits (fst st) <> [] ->
  exists s st', zoom lfst Find st = Ok (s, st') /\
    alloc_inv (i + 1) (extra_hdrs (i + 1)) (set_data (Z.rem i NumDirect) s hdr) olds cur st'.
Proof.
  intros (secs & hsecs & Hls & Hlh & Hlo & Hcur & Hp & Hperm & Hw & Hn & Hd & Hh & Hth
    & Hnb & Hns & Hfr) Hi Hfree. destruct st as [fm d]; simpl in *.
  destruct (find_takes fm) as (s & fm' & Hfind & Hw' & Hn' & Hcb & Hr); [done|done|].
  rewrite Hcb in Hperm. assert (Hs : is_i32 s) by (apply is_sector_i32; unfold is_sector; lia).
  eexists s, _. split; [by apply zoom_ok|]. exists (secs ++ [s]), hsecs. cbn [fst snd lset lfst].
  assert (Hk : Z.rem i NumDirect = Z.of_nat (length secs - 26 * length hsecs) /\
               (length secs < 26 * S (length hsecs))%nat).
  { unfold extra_hdrs in Hlh. change NumDirect with 26 in *. rewrite Z.rem_mod_nonneg by lia.
    rewrite Z.max_r in Hlh by lia. replace (i + 1 - 1) with i in Hlh by lia.
    pose proof (Z.div_mod i 26 ltac:(lia)). pose proof (Z.mod_pos_bound i 26 ltac:(lia)). lia. }
  destruct Hk as [-> Hlt].
  destruct (pchain_data (contents d) _ secs hsecs hdr s Hth Hh Hp Hlt) as [_ Hp'].
  assert (Hthis : List.last olds (set_data (Z.of_nat (length secs - 26 * length hsecs)) s hdr) =
    match hsecs with [] => set_data (Z.of_nat (length secs - 26 * length hsecs)) s hdr
                   | _ => List.last olds hdr end).
  { destruct hsecs, olds; try done. cbn [List.last]. clear. revert f.
    induction olds; intros; [done|]. cbn [List.last]. apply IHolds. }
  rewrite Hthis, length_app. cbn [length]. split_and!; try done; try lia.
  - rewrite Hperm, <- !app_assoc. apply Permutation_app_head.
    rewrite (Permutation_app_comm [s]), <- !app_assoc. apply Permutation_app_head. simpl.
    apply Permutation_cons_append.
  - auto with nachos.
  - destruct hsecs; [auto with nachos|done].
  - by destruct hsecs, olds.
  - by destruct hsecs, olds.
Qed.

Lemma alloc_inv_free i e hdr olds cur st :
  alloc_inv i e hdr olds cur st ->
  Z.of_nat (length (clear_bits (fst st))) = Z.of_nat (length (clear_bits fm0)) - i - e.
Proof.
  intros (secs & hsecs & Hls & Hlh & _ & _ & _ & Hperm & _).
  apply Permutation_length in Hperm. rewrite !length_app in Hperm. lia.
Qed.

Lemma alloc_loop_inv n i hdr olds cur st :
  alloc_inv i (extra_hdrs i) hdr olds cur st -> 0 <= i ->
  i + Z.of_nat n + extra_hdrs (i + Z.of_nat n) <= Z.of_nat (length (clear_bits fm0)) ->
  exists hdr' olds' cur' st', alloc_loop fresh n i hdr olds cur st = Ok ((hdr', olds', cur'), st') /\
    alloc_inv (i + Z.of_nat n) (extra_hdrs (i + Z.of_nat n)) hdr' olds' cur' st'.
Proof.
  revert i hdr olds cur st. induction n as [|n IH]; intros i hdr olds cur st Hinv Hi Hfree.
  - rewrite Z.add_0_r. by exists hdr, olds, cur, st.
  - pose proof (extra_mono (i + 1) (i + Z.of_nat (S n)) ltac:(lia)).
    destruct (alloc_header_inv i hdr olds cur st Hinv Hi) as (hdr1 & olds1 & cur1 & st1 & Hrun1 & Hinv1).
    { rewrite (alloc_inv_free _ _ _ _ _ _ Hinv). lia. }
    destruct (alloc_data_inv i hdr1 olds1 cur1 st1 Hinv1 Hi) as (s & st2 & Hrun2 & Hinv2).
    { intros Hnil. apply alloc_inv_free in Hinv1. rewrite Hnil in Hinv1. simpl in Hinv1. lia. }
    cbn [alloc_loop]. rewrite (bind_ok _ _ _ _ _ Hrun1), (bind_ok _ _ _ _ _ Hrun2).
    replace (i + Z.of_nat (S n)) with (i + 1 + Z.of_nat n) in * by lia.
    apply IH; [done|lia|done].
Qed.

(** When the map is full [Find] gives -1: [bad] entries of the header are -1. *)
Definition alloc_gen (bad : nat) (i e : Z) (hdr : FileHeader) (olds : list FileHeader) (cur : option Z)
    (st : BitMap * D) : Prop :=
  exists secs hsecs,
    Z.of_nat (length secs + bad) = i /\ Z.of_nat (length hsecs) = e /\
    length olds = length hsecs /\ cur = last hsecs /\
    pchain (contents (snd st)) (List.last olds hdr) (secs ++ replicate bad (-1)) hsecs hdr /\
    clear_bits fm0 ≡ₚ (secs ++ hsecs) ++ clear_bits (fst st) /\
    wf (fst st) /\ numBits (fst st) = NumSectors /\ disk_ok (snd st) /\
    hdr_ok hdr /\ hdr_ok (List.last olds hdr) /\
    numBytes (List.last olds hdr) = nb /\ numSectors (List.last olds hdr) = ns /\
    (forall s, is_sector s -> s ∉ hsecs -> sector (contents (snd st)) s = sector (contents d0) s).

Lemma alloc_inv_gen i e hdr olds cur st : alloc_inv i e hdr olds cur st -> alloc_gen 0 i e hdr olds cur st.
Proof.
  intros (secs & hsecs & Hls & Hrest). exists secs, hsecs. cbn [replicate]. rewrite app_nil_r, Nat.add_0_r. done.
Qed.

Lemma find_none (st : BitMap * D) : wf (fst st) -> clear_bits (fst st) = [] -> zoom lfst Find st = Ok (-1, st).
Proof.
  intros Hw Hc. pose proof (find_spec (fst st) Hw) as Hf. rewrite Hc in Hf. destruct st as [fm d].
  exact (zoom_ok lfst _ (fm, d) _ _ Hf).
Qed.

(** The object [this] when an entry of the last header changes. *)
Lemma this_set_data j x hdr (olds : list FileHeader) :
  List.last olds (set_data j x hdr) = match olds with [] => set_data j x hdr | _ => List.last olds hdr end.
Proof. destruct olds as [|o olds]; [done|]. revert o. induction olds as [|o' olds IH]; intros o; [done|]. apply (IH o'). Qed.

Lemma alloc_gen_data bad i hdr olds cur st :
  alloc_gen bad i (extra_hdrs (i + 1)) hdr olds cur st -> 0 <= i -> clear_bits (fst st) = [] ->
  zoom lfst Find st = Ok (-1, st) /\
  alloc_gen (S bad) (i + 1) (extra_hdrs (i + 1)) (set_data (Z.rem i NumDirect) (-1) hdr) olds cur st.
Proof.
  intros (secs & hsecs & Hls & Hlh & Hlo & Hcur & Hp & Hperm & Hw & Hn & Hd & Hh & Hth & Hnb & Hns & Hfr) Hi Hfull.
  split; [by apply find_none|]. exists secs, hsecs. set (l := secs ++ replicate bad (-1)) in *.
  assert (Hl : length l = (length secs + bad)%nat) by (unfold l; by rewrite length_app, length_replicate).
  assert (Hk : Z.rem i NumDirect = Z.of_nat (length l - 26 * length hsecs) /\ (length l < 26 * S (length hsecs))%nat).
  { unfold extra_hdrs in Hlh. change NumDirect with 26 in *. rewrite Z.rem_mod_nonneg by lia.
    rewrite Z.max_r in Hlh by lia. replace (i + 1 - 1) with i in Hlh by lia.
    pose proof (Z.div_mod i 26 ltac:(lia)). pose proof (Z.mod_pos_bound i 26 ltac:(lia)). lia. }
  destruct Hk as [-> Hlt]. destruct (pchain_data (contents (snd st)) _ l hsecs hdr (-1) Hth Hh Hp Hlt) as [_ Hp'].
  rewrite this_set_data. rewrite replicate_S_end, app_assoc. fold l.
  assert (Hm : match olds with [] => set_data (Z.of_nat (length l - 26 * length hsecs)) (-1) hdr | _ => List.last olds hdr end =
    match hsecs with [] => set_data (Z.of_nat (length l - 26 * length hsecs)) (-1) hdr | _ => List.last olds hdr end)
    by (by destruct hsecs, olds).
  pose proof (set_data_ok (Z.of_nat (length l - 26 * length hsecs)) (-1) hdr ltac:(done) Hh).
  rewrite Hm. split_and!; try done; try lia.
  - by destruct hsecs.
  - by destruct hsecs, olds.
  - by destruct hsecs, olds.
Qed.

Lemma alloc_gen_loop n bad i hdr olds cur st :
  alloc_gen bad i (extra_hdrs i) hdr olds cur st -> 0 <= i -> extra_hdrs (i + Z.of_nat n) = extra_hdrs i ->
  clear_bits (fst st) = [] ->
  exists hdr', alloc_loop fresh n i hdr olds cur st = Ok ((hdr', olds, cur), st) /\
    alloc_gen (bad + n) (i + Z.of_nat n) (extra_hdrs (i + Z.of_nat n)) hdr' olds cur st.
Proof.
  revert bad i hdr. induction n as [|n IH]; intros bad i hdr Hg Hi He Hfull.
  { exists hdr. by rewrite Z.add_0_r, Nat.add_0_r. }
  pose proof (extra_mono i (i + 1) ltac:(lia)) as M1. pose proof (extra_mono (i + 1) (i + Z.of_nat (S n)) ltac:(lia)) as M2.
  assert (E1 : extra_hdrs (i + 1) = extra_hdrs i) by lia. pose proof (extra_step i Hi) as Hstep.
  rewrite <- E1 in Hg. destruct (alloc_gen_data bad i hdr olds cur st Hg Hi Hfull) as [Hfind Hg1].
  destruct (IH (S bad) (i + 1) _ Hg1 ltac:(lia)) as (hdr' & Hrun & Hg'); [rewrite E1, <- He; f_equal; lia|done|].
  exists hdr'. replace (i + Z.of_nat (S n)) with (i + 1 + Z.of_nat n) by lia. replace (bad + S n)%nat with (S bad + n)%nat by lia.
  split; [|done]. cbn [alloc_loop]. unfold alloc_header.
  destruct (negb (i =? 0) && (Z.rem i NumDirect =? 0)); [lia|]. erewrite bind_ok by done.
  cbv beta iota. by rewrite (bind_ok _ _ _ _ _ Hfind).
Qed.

Lemma alloc_loop_app n n' i hdr olds cur st :
  alloc_loop fresh (n + n') i hdr olds cur st =
  ('(hdr, olds, cur) ← alloc_loop fresh n i hdr olds cur; alloc_loop fresh n' (i + Z.of_nat n) hdr olds cur) st.
Proof.
  revert i hdr olds cur st. induction n as [|n IH]; intros i hdr olds cur st.
  { rewrite Z.add_0_r. done. }
  cbn [Nat.add alloc_loop]. munfold. destruct (alloc_header _ _ _ _ _ _) as [[[[h o] c] st1]|]; [|done].
  destruct (zoom lfst Find st1) as [[x st2]|]; [|done]. rewrite IH. munfold.
  replace (i + Z.of_nat (S n)) with (i + 1 + Z.of_nat n) by lia. done.
Qed.

(** The map runs out among the data sectors of the last header. *)
Lemma alloc_loop_short n hdr olds cur st :
  let free := Z.of_nat (length (clear_bits fm0)) in
  let e := extra_hdrs (Z.of_nat n) in
  alloc_inv 0 (extra_hdrs 0) hdr olds cur st -> 27 * e <= free < Z.of_nat n + e ->
  exists hdr' olds' cur' st', alloc_loop fresh n 0 hdr olds cur st = Ok ((hdr', olds', cur'), st') /\
    clear_bits (fst st') = [] /\ alloc_gen (Z.to_nat (Z.of_nat n + e - free)) (Z.of_nat n) e hdr' olds' cur' st'.
Proof.
  intros free e Hinv Hf. set (i0 := free - e).
  assert (He : 26 * e <= Z.max 0 (Z.of_nat n - 1) < 26 * (e + 1)).
  { unfold e, extra_hdrs. change NumDirect with 26. pose proof (Z.div_mod (Z.max 0 (Z.of_nat n - 1)) 26 ltac:(lia)).
    pose proof (Z.mod_pos_bound (Z.max 0 (Z.of_nat n - 1)) 26 ltac:(lia)). lia. }
  assert (He0 : 0 <= e) by (unfold e, extra_hdrs; apply Z.div_pos; [lia|done]).
  assert (Hi0 : 26 * e <= i0 < Z.of_nat n) by (unfold i0; lia).
  assert (Hat : forall j, 26 * e < j <= Z.of_nat n -> extra_hdrs j = e).
  { intros j Hj. unfold extra_hdrs. change NumDirect with 26. symmetry. apply (Z.div_unique_pos _ _ _ (Z.max 0 (j - 1) - 26 * e)); lia. }
  replace n with (Z.to_nat i0 + S (n - Z.to_nat i0 - 1))%nat by lia. rewrite alloc_loop_app.
  destruct (alloc_loop_inv (Z.to_nat i0) 0 hdr olds cur st Hinv) as (h1 & o1 & c1 & st1 & Hrun1 & Hinv1); [lia| |].
  { rewrite Z2Nat.id, Z.add_0_l by lia. fold free. pose proof (extra_mono i0 (Z.of_nat n) ltac:(lia)) as Hm. fold e in Hm. lia. }
  rewrite (bind_ok _ _ _ _ _ Hrun1). rewrite Z2Nat.id, Z.add_0_l in * by lia. cbv beta iota. cbn [alloc_loop].
  pose proof (alloc_inv_free _ _ _ _ _ _ Hinv1) as Hfree1. fold free in Hfree1.
  destruct (alloc_header_inv i0 h1 o1 c1 st1 Hinv1 ltac:(lia)) as (h2 & o2 & c2 & st2 & Hrun2 & Hinv2).
  { rewrite (Hat (i0 + 1)) by lia. unfold i0 in *. lia. }
  rewrite (bind_ok _ _ _ _ _ Hrun2). pose proof (alloc_inv_free _ _ _ _ _ _ Hinv2) as Hfree2. fold free in Hfree2.
  rewrite (Hat (i0 + 1)) in Hfree2 by lia.
  assert (Hfull : clear_bits (fst st2) = []) by (apply length_zero_iff_nil; unfold i0 in *; lia).
  destruct (alloc_gen_data 0 i0 h2 o2 c2 st2 (alloc_inv_gen _ _ _ _ _ _ Hinv2) ltac:(lia) Hfull) as [Hfind Hg].
  cbv beta iota. rewrite (bind_ok _ _ _ _ _ Hfind).
  destruct (alloc_gen_loop (n - Z.to_nat i0 - 1) 1 (i0 + 1) _ o2 c2 st2 Hg ltac:(lia)) as (h3 & Hrun3 & Hg3); [rewrite !Hat by lia; done|done|].
  exists h3, o2, c2, st2. split; [exact Hrun3|]. split; [done|].
  replace (i0 + 1 + Z.of_nat (n - Z.to_nat i0 - 1)) with (Z.of_nat n) in Hg3 by lia.
  replace (Z.of_nat (Z.to_nat i0 + S (n - Z.to_nat i0 - 1))) with (Z.of_nat n) by lia. fold e in Hg3.
  replace (Z.to_nat (Z.of_nat n + e - free)) with (1 + (n - Z.to_nat i0 - 1))%nat by (unfold i0; lia). exact Hg3.
Qed.

(** When the map runs out before the last header, a header is written to sector -1:
    what holds of the loop then, with [i] data sectors and [e] headers asked for. *)
Definition alloc_weak (i e : Z) (hdr : FileHeader) (cur : option Z) (st : BitMap * D) : Prop :=
  let free := Z.of_nat (length (clear_bits fm0)) in
  wf (fst st) /\ numBits (fst st) = NumSectors /\ disk_ok (snd st) /\ hdr_ok hdr /\
  Z.of_nat (length (clear_bits (fst st))) = Z.max 0 (free - i - e) /\
  (1 <= e -> exists c, cur = Some c /\ if decide (27 * e <= free) then is_sector c else c = -1).

(** [Find] takes a sector while there is one and gives -1 afterwards. *)
Lemma find_either (st : BitMap * D) :
  wf (fst st) -> numBits (fst st) = NumSectors ->
  exists s fm', zoom lfst Find st = Ok (s, (fm', snd st)) /\ wf fm' /\ numBits fm' = NumSectors /\ is_i32 s /\
    Z.of_nat (length (clear_bits fm')) = Z.max 0 (Z.of_nat (length (clear_bits (fst st))) - 1) /\
    if decide (clear_bits (fst st) = []) then s = -1 else is_sector s.
Proof.
  intros Hw Hn. destruct st as [fm d]. simpl fst in *. destruct (decide (clear_bits fm = [])) as [E|E].
  - exists (-1), fm. rewrite find_none by done. rewrite E. done.
  - destruct (find_takes fm Hw E) as (s & fm' & Hf & Hw' & Hn' & Hc & Hr). exists s, fm'.
    assert (Hs : is_sector s) by (unfold is_sector; lia).
    split_and!; [by apply (zoom_ok lfst _ (fm, d))|done|lia|by apply is_sector_i32| |done].
    rewrite Hc. cbn [length]. lia.
Qed.

Lemma alloc_header_weak i hdr olds cur st :
  alloc_weak i (extra_hdrs i) hdr cur st -> 0 <= i ->
  alloc_header fresh i hdr olds cur st = Stop AssertFailed \/
  exists hdr' olds' cur' st', alloc_header fresh i hdr olds cur st = Ok ((hdr', olds', cur'), st') /\
    alloc_weak i (extra_hdrs (i + 1)) hdr' cur' st'.
Proof.
  intros (Hw & Hn & Hd & Hh & Hfree & Hcur) Hi. rewrite extra_step by done. unfold alloc_header.
  destruct (negb (i =? 0) && (Z.rem i NumDirect =? 0)) eqn:Ec.
  2:{ rewrite Z.add_0_r. right. exists hdr, olds, cur, st. done. }
  zbool. assert (He : i = 26 * (extra_hdrs i + 1)).
  { unfold extra_hdrs. change NumDirect with 26 in *. rewrite Z.rem_mod_nonneg in H0 by lia.
    pose proof (Z.div_mod i 26 ltac:(lia)). pose proof (Z.div_mod (Z.max 0 (i - 1)) 26 ltac:(lia)).
    pose proof (Z.mod_pos_bound (Z.max 0 (i - 1)) 26 ltac:(lia)). lia. }
  destruct (find_either st Hw Hn) as (next & fm' & Hfind & Hw' & Hn' & H32 & Hlen & Hnext).
  rewrite (bind_ok _ _ _ _ _ Hfind).
  assert (Hafter : forall d', disk_ok d' ->
    alloc_weak i (extra_hdrs i + 1) (fresh (length olds)) (Some next) (fm', d')).
  { intros d' Hd'. split_and!; [done|done|done|done|cbn [fst]; lia|]. intros _. exists next. split; [done|].
    destruct (decide (27 * (extra_hdrs i + 1) <= _)) as [Hle|Hgt], (decide (clear_bits (fst st) = [])) as [Hnil|Hne]; try done.
    - rewrite Hnil in Hfree. cbn [length] in Hfree. lia.
    - exfalso. apply Hne, length_zero_iff_nil. lia. }
  destruct (Z.eqb_spec i NumDirect) as [E|E].
  - right. eexists _, _, _, _. split; [reflexivity|]. by apply Hafter.
  - change NumDirect with 26 in E. destruct (Hcur ltac:(lia)) as (c & -> & Hc). cbn [negb].
    destruct (decide (is_sector c)) as [Hs|Hs].
    + destruct (write_back_spec (snd st) (set_next next hdr) c Hd Hs) as (d' & Hwb & Hd' & _); [auto with nachos|].
      right. erewrite bind_ok by (erewrite bind_ok by done; by apply (zoom_ok lsnd _ (fm', snd st))).
      eexists _, _, _, _. split; [reflexivity|]. by apply Hafter.
    + left. apply bind_stop. erewrite bind_ok by done. by apply (zoom_stop lsnd _ (fm', snd st)), write_outside.
Qed.

Lemma alloc_loop_weak n i hdr olds cur st :
  alloc_weak i (extra_hdrs i) hdr cur st -> 0 <= i ->
  alloc_loop fresh n i hdr olds cur st = Stop AssertFailed \/
  exists hdr' olds' cur' st', alloc_loop fresh n i hdr olds cur st = Ok ((hdr', olds', cur'), st') /\
    alloc_weak (i + Z.of_nat n) (extra_hdrs (i + Z.of_nat n)) hdr' cur' st'.
Proof.
  revert i hdr olds cur st. induction n as [|n IH]; intros i hdr olds cur st Hinv Hi.
  { right. rewrite Z.add_0_r. by exists hdr, olds, cur, st. }
  cbn [alloc_loop]. destruct (alloc_header_weak i hdr olds cur st Hinv Hi) as [Hstop|(h1 & o1 & c1 & st1 & Hrun & Hinv1)].
  { left. by apply bind_stop. }
  rewrite (bind_ok _ _ _ _ _ Hrun). destruct Hinv1 as (Hw & Hn & Hd & Hh & Hfree & Hcur).
  destruct (find_either st1 Hw Hn) as (s & fm' & Hfind & Hw' & Hn' & H32 & Hlen & _).
  cbv beta iota. rewrite (bind_ok _ _ _ _ _ Hfind).
  replace (i + Z.of_nat (S n)) with (i + 1 + Z.of_nat n) by lia. apply IH; [|lia].
  split_and!; [done|done|done|by apply set_data_ok|cbn [fst]; lia|done].
Qed.

End Allocating.

(** The outcome of a successful [Allocate]: the new header [h] has [size] bytes in
    the data sectors [secs], its further headers are in [hsecs], all of them free
    before and in use now, and no other sector was written. *)
Record allocated (fm fm' : BitMap) (d d' : D) (size : Z) (h : FileHeader)
    (secs hsecs : list Z) : Prop := {
  al_chain : chain (contents d') h secs hsecs;
  al_secs : Z.of_nat (length secs) = divRoundUp size SectorSize;
  al_hsecs : Z.of_nat (length hsecs) = extra_hdrs (divRoundUp size SectorSize);
  al_map : clear_bits fm ≡ₚ (secs ++ hsecs) ++ clear_bits fm';
  al_wf : wf fm' /\ numBits fm' = NumSectors;
  al_disk : disk_ok d';
  al_hdr : hdr_ok h /\ numBytes h = size /\ numSectors h = divRoundUp size SectorSize;
  al_frame : forall s, is_sector s -> s ∉ hsecs -> sector (contents d') s = sector (contents d) s
}.

Section Allocated.
Context (fresh : nat -> FileHeader) (Hfresh : forall k, hdr_ok (fresh k)).
Context (now : Z) (Hnow : is_i32 now) (this : FileHeader) (Hthis : hdr_ok this).
Context (fm : BitMap) (d : D) (Hfm : wf fm) (Hnb : numBits fm = NumSectors) (Hd : disk_ok d).
Context (size : Z) (Hsize : 0 <= size < 2 ^ 31).

Let ns := divRoundUp size SectorSize.

Lemma ns_range : 0 <= ns <= 2 ^ 24.
Proof. unfold ns. change SectorSize with 128. pose proof (divRoundUp_spec size 128). lia. Qed.

Lemma alloc_inv_start :
  alloc_inv fm d size ns 0 (extra_hdrs 0) (set_size size ns this) [] None (fm, d).
Proof.
  pose proof ns_range. exists [], [].
  split_and!; try done; try (split; [done|apply prefix_nil]);
    try (apply set_size_ok; unfold is_i32; done || lia).
Qed.

Lemma allocate_enters :
  ns <= Z.of_nat (length (clear_bits fm)) ->
  Allocate fresh now this size (fm, d) =
  ('(hdr, olds, cur) ← alloc_loop fresh (Z.to_nat ns) 0 (set_size size ns this) [] None;
   let hdr := set_next (-1) hdr in
   _ ← (if NumDirect <=? ns then
          c ← lift (match cur with Some c => Ok c | None => Stop Undefined end);
          zoom lsnd (WriteBack hdr c)
        else mret tt);
   mret (true, set_created now now (List.last olds hdr))) (fm, d).
Proof.
  intros Hfree. pose proof ns_range. unfold Allocate. fold ns. cbn [numSectors set_size].
  rewrite (Z.max_r 0 ns) by lia.
  erewrite bind_ok by (apply zoom_ok; by apply numclear_spec). cbn [fst lget lset lfst snd].
  by rewrite (proj2 (Z.ltb_ge _ _)) by lia.
Qed.

Lemma allocate_full :
  Z.of_nat (length (clear_bits fm)) < ns ->
  Allocate fresh now this size (fm, d) = Ok ((false, set_size size ns this), (fm, d)).
Proof.
  intros Hfree. unfold Allocate. fold ns. cbn [numSectors set_size].
  erewrite bind_ok by (apply zoom_ok; by apply numclear_spec). cbn [fst lget lset lfst snd].
  by rewrite (proj2 (Z.ltb_lt _ _)) by lia.
Qed.

Lemma allocate_at_limit :
  ns = NumDirect -> ns <= Z.of_nat (length (clear_bits fm)) ->
  Allocate fresh now this size (fm, d) = Stop Undefined.
Proof.
  intros Hns Hfree. rewrite allocate_enters by done.
  destruct (alloc_loop_inv fresh Hfresh fm d size ns Hnb (Z.to_nat ns) 0 _ _ _ _ alloc_inv_start)
    as (hdr & olds & cur & st & Hrun & Hinv); [done|rewrite Hns in *; change (extra_hdrs _) with 0; simpl in *; lia|].
  rewrite (bind_ok _ _ _ _ _ Hrun).
  destruct Hinv as (secs & hsecs & _ & Hlh & _ & Hcur & _).
  rewrite Hns in *. change (extra_hdrs _) with 0 in Hlh. destruct hsecs; [|simpl in Hlh; lia].
  subst cur. done.
Qed.

(** The end of [Allocate], after its loop. *)
Lemma allocate_ends bad hdr olds cur fm' d' :
  ns <> NumDirect -> alloc_gen fm d size ns bad ns (extra_hdrs ns) hdr olds cur (fm', d') ->
  alloc_loop fresh (Z.to_nat ns) 0 (set_size size ns this) [] None (fm, d) = Ok ((hdr, olds, cur), (fm', d')) ->
  ns <= Z.of_nat (length (clear_bits fm)) ->
  exists h d2 secs hsecs,
    Allocate fresh now this size (fm, d) = Ok ((true, h), (fm', d2)) /\
    Z.of_nat (length secs + bad) = ns /\ Z.of_nat (length hsecs) = extra_hdrs ns /\
    chain (contents d2) h (secs ++ replicate bad (-1)) hsecs /\
    clear_bits fm ≡ₚ (secs ++ hsecs) ++ clear_bits fm' /\
    (wf fm' /\ numBits fm' = NumSectors) /\ disk_ok d2 /\
    (hdr_ok h /\ numBytes h = size /\ numSectors h = ns) /\
    (forall s, is_sector s -> s ∉ hsecs -> sector (contents d2) s = sector (contents d) s).
Proof.
  intros Hns Hinv Hrun Hfree. pose proof ns_range.
  rewrite allocate_enters by lia. rewrite (bind_ok _ _ _ _ _ Hrun).
  destruct Hinv as (secs & hsecs & Hls & Hlh & Hlo & Hcur & Hp & Hperm & Hw & Hn & Hd' & Hh & Hth
    & Hb & Hs & Hfr). simpl fst in *. simpl snd in *.
  pose proof (set_next_hdr_ok (-1) hdr ltac:(done) Hh) as Hh'.
  assert (Hex : (NumDirect <=? ns) = negb (bool_decide (hsecs = []))).
  { unfold extra_hdrs in Hlh. change NumDirect with 26 in *.
    pose proof (Z.div_mod (Z.max 0 (ns - 1)) 26 ltac:(lia)).
    pose proof (Z.mod_pos_bound (Z.max 0 (ns - 1)) 26 ltac:(lia)).
    destruct hsecs; cbn [length] in Hlh; [apply Z.leb_gt|apply Z.leb_le]; lia. }
  rewrite Hex. destruct (last_snoc_inv hsecs) as [->|(hs & c & ->)].
  - destruct olds; [|done]. destruct Hp as [_ Hp]. simpl List.last in *.
    eexists _, _, secs, []. split; [by simpl|]. split_and!; try done. by apply set_created_ok.
  - subst cur. rewrite last_snoc.
    assert (Hc : is_sector c) by (apply (taken_sector fm _ _ c Hnb Hperm); set_solver).
    destruct (write_back_spec d' (set_next (-1) hdr) c Hd' Hc Hh') as (d2 & Hwb & Hd2 & Hc2).
    assert (Hndh : NoDup (hs ++ [c])).
    { pose proof (NoDup_clear_bits fm) as Hnd. rewrite Hperm in Hnd.
      apply NoDup_app in Hnd as [Hnd _]. by apply NoDup_app in Hnd as (_ & _ & ?). }
    destruct (pchain_write (contents d') (List.last olds hdr) (secs ++ replicate bad (-1)) hs c hdr (set_next (-1) hdr))
      as [Hch _]; [auto with nachos|done|done|done|done|done|].
    rewrite (bool_decide_eq_false_2 _) by (by destruct hs). cbn [negb].
    assert (Hlast : List.last olds (set_next (-1) hdr) = List.last olds hdr).
    { destruct olds as [|o olds]; [rewrite length_app in Hlo; simpl in Hlo; lia|].
      clear. revert o. induction olds as [|o' olds IH]; intros o; [done|]. apply (IH o'). }
    erewrite bind_ok by (erewrite bind_ok by done; by apply zoom_ok).
    eexists _, _, secs, (hs ++ [c]). split; [by simpl|]. cbn [fst snd lset lsnd].
    rewrite Hlast. split_and!; try done.
    + rewrite Hc2. eapply chain_hdr; [| |by apply Hch]; done.
    + by apply set_created_ok.
    + intros s Hs' Hnin. rewrite Hc2, sector_update_ne by (done || set_solver). by apply Hfr.
Qed.

Lemma allocate_ok :
  ns <> NumDirect -> ns + extra_hdrs ns <= Z.of_nat (length (clear_bits fm)) ->
  exists h fm' d' secs hsecs,
    Allocate fresh now this size (fm, d) = Ok ((true, h), (fm', d')) /\
    allocated fm fm' d d' size h secs hsecs.
Proof.
  intros Hns Hfree. pose proof ns_range.
  assert (0 <= extra_hdrs ns) by (unfold extra_hdrs; apply Z.div_pos; [lia|done]).
  destruct (alloc_loop_inv fresh Hfresh fm d size ns Hnb (Z.to_nat ns) 0 _ _ _ _ alloc_inv_start)
    as (hdr & olds & cur & [fm' d'] & Hrun & Hinv); [done|rewrite Z2Nat.id, Z.add_0_l by lia; lia|].
  rewrite Z2Nat.id, Z.add_0_l in Hinv by lia.
  destruct (allocate_ends 0 hdr olds cur fm' d' Hns (alloc_inv_gen _ _ _ _ _ _ _ _ _ _ Hinv) Hrun ltac:(lia))
    as (h & d2 & secs & hsecs & Hal & Hls & Hlh & Hch & Hrest).
  cbn [replicate] in Hch. rewrite app_nil_r in Hch. rewrite Nat.add_0_r in Hls.
  exists h, fm', d2, secs, hsecs. split; [done|]. destruct Hrest as (? & ? & ? & ? & ?). by constructor.
Qed.

(** The map runs out among the data sectors of the last header. *)
Lemma allocate_short :
  let free := Z.of_nat (length (clear_bits fm)) in
  ns <= free -> 27 * extra_hdrs ns <= free < ns + extra_hdrs ns ->
  exists h fm' d' secs hsecs,
    Allocate fresh now this size (fm, d) = Ok ((true, h), (fm', d')) /\ clear_bits fm' = [] /\
    chain (contents d') h (secs ++ replicate (Z.to_nat (ns + extra_hdrs ns - free)) (-1)) hsecs /\
    clear_bits fm ≡ₚ secs ++ hsecs /\ numSectors h = ns.
Proof.
  intros free Hle Hf. pose proof ns_range.
  assert (Hns : ns <> NumDirect) by (intros E; rewrite E in *; change (extra_hdrs NumDirect) with 0 in *; lia).
  destruct (alloc_loop_short fresh Hfresh fm d size ns Hnb (Z.to_nat ns) _ _ _ _ alloc_inv_start)
    as (hdr & olds & cur & [fm' d'] & Hrun & Hfull & Hg); [rewrite Z2Nat.id by lia; exact Hf|].
  rewrite Z2Nat.id in Hg by lia. fold free in Hg.
  destruct (allocate_ends _ hdr olds cur fm' d' Hns Hg Hrun Hle)
    as (h & d2 & secs & hsecs & Hal & _ & _ & Hch & Hperm & _ & _ & (_ & _ & Hn) & _).
  exists h, fm', d2, secs, hsecs. cbn [fst] in Hfull. rewrite Hfull, app_nil_r in Hperm. done.
Qed.

(** The map runs out before the last header. *)
Lemma allocate_fails :
  let free := Z.of_nat (length (clear_bits fm)) in
  ns <= free < 27 * extra_hdrs ns -> Allocate fresh now this size (fm, d) = Stop AssertFailed.
Proof.
  intros free Hf. pose proof ns_range. rewrite allocate_enters by (fold free; lia).
  assert (Hstart : alloc_weak fm 0 (extra_hdrs 0) (set_size size ns this) None (fm, d)).
  { split_and!; try done; try (apply set_size_ok; unfold is_i32; done || lia).
    change (extra_hdrs 0) with 0. cbn [fst]. fold free. lia. }
  destruct (alloc_loop_weak fresh Hfresh fm (Z.to_nat ns) 0 _ [] _ _ Hstart ltac:(done))
    as [Hstop|(hdr & olds & cur & st & Hrun & Hw)]; [by apply bind_stop|].
  rewrite Z2Nat.id, Z.add_0_l in Hw by lia. destruct Hw as (_ & _ & Hd' & _ & _ & Hcur).
  rewrite (bind_ok _ _ _ _ _ Hrun). cbv beta iota.
  destruct (Hcur ltac:(unfold ns in *; lia)) as (c & -> & Hc). fold free in Hc. rewrite decide_False in Hc by lia. subst c.
  rewrite (proj2 (Z.leb_le NumDirect ns)).
  2:{ unfold extra_hdrs in Hf. change NumDirect with 26 in *.
      pose proof (Z.div_mod (Z.max 0 (ns - 1)) 26 ltac:(lia)). pose proof (Z.mod_pos_bound (Z.max 0 (ns - 1)) 26 ltac:(lia)). lia. }
  apply bind_stop. erewrite bind_ok by done. apply (zoom_stop lsnd _ st), write_outside; [done|].
  unfold is_sector. lia.
Qed.

End Allocated.

(** ** [Deallocate] *)

Lemma dealloc_loop_never_ok fuel this hdr (st : BitMap * D) r :
  dealloc_loop fuel this hdr st <> Ok r.
Proof.
  revert hdr st. induction fuel as [|fuel IH]; intros hdr st; [done|]. cbn [dealloc_loop].
  unfold mbind at 1, M_bind at 1.
  destruct (dealloc_pass _ _ _ _) as [[hdr' st']|w]; [apply IH|done].
Qed.

(** One pass over a header with no successor clears its first sector and leaves
    the [for] at the [break]. *)
Lemma dealloc_pass_single n hdr (fm : BitMap) (d : D) s :
  wf fm -> nextFdrSector hdr = -1 -> dataSectors hdr !! 0%nat = Some s ->
  0 <= s < numBits fm ->
  if bit fm s then
    exists fm', dealloc_pass (S n) 0 hdr (fm, d) = Ok (hdr, (fm', d)) /\
      bits_are fm fm' (fun j => if j =? s then false else bit fm j)
  else dealloc_pass (S n) 0 hdr (fm, d) = Stop AssertFailed.
Proof.
  intros Hw Hnx Hs Hr. cbn [dealloc_pass].
  assert (Hget : aget (dataSectors hdr) (Z.rem 0 NumDirect) = Ok s) by (by apply aget_Some).
  destruct (clear_spec fm s Hw Hr) as (fm' & Hcl & Hb).
  destruct (bit fm s) eqn:E.
  - exists fm'. split; [|done]. erewrite bind_ok by (by apply lift_ok).
    erewrite bind_ok by (apply zoom_ok; by apply test_spec).
    cbn [fst lget lset lfst snd]. rewrite E.
    erewrite bind_ok by done. erewrite bind_ok by (by apply zoom_ok). by rewrite Hnx.
  - erewrite bind_ok by (by apply lift_ok).
    erewrite bind_ok by (apply zoom_ok; by apply test_spec).
    cbn [fst lget lset lfst snd]. rewrite E. done.
Qed.

(** With one data sector or more and no further header, the second pass fails. *)
Lemma single_header_dealloc fuel this (fm : BitMap) (d : D) s :
  wf fm -> nextFdrSector this = -1 -> 1 <= numSectors this ->
  dataSectors this !! 0%nat = Some s -> 0 <= s < numBits fm -> (2 <= fuel)%nat ->
  Deallocate fuel this (fm, d) = Stop AssertFailed.
Proof.
  intros Hw Hnx Hns Hs Hr Hf. destruct fuel as [|[|fuel]]; [lia|lia|].
  unfold Deallocate. cbn [dealloc_loop].
  destruct (Z.to_nat (numSectors this)) as [|n] eqn:En; [lia|].
  pose proof (dealloc_pass_single n this fm d s Hw Hnx Hs Hr) as Hp.
  destruct (bit fm s); [|by apply bind_stop].
  destruct Hp as (fm' & Hrun & Hw' & Hn' & Hb). rewrite (bind_ok _ _ _ _ _ Hrun).
  pose proof (dealloc_pass_single n this fm' d s Hw' Hnx Hs ltac:(lia)) as Hp.
  rewrite Hb, Z.eqb_refl in Hp by done. by apply bind_stop.
Qed.

(** ** [Print] *)

(** The step to the header of sector [i] in both loops of [Print]. *)
Lemma print_advance i hdr (d : D) rest hs k s rem :
  disk_ok d -> hdr_ok hdr -> chain (contents d) hdr rest hs -> 0 <= i ->
  drop k rest = s :: rem ->
  (Z.of_nat k = i mod 26 /\ (k = 0%nat -> i = 0) \/ k = 26%nat /\ i mod 26 = 0 /\ i <> 0) ->
  exists hdr' d' rest' hs' k',
    (if negb (i =? 0) && (Z.rem i NumDirect =? 0) then FetchFrom (nextFdrSector hdr) else mret hdr) d
      = Ok (hdr', d') /\ now_holds d' (contents d) /\ hdr_ok hdr' /\
    chain (contents d) hdr' rest' hs' /\ drop k' rest' = s :: rem /\
    Z.of_nat k' = i mod 26 /\ aget (dataSectors hdr') (Z.rem i NumDirect) = Ok s.
Proof.
  intros Hd Hh Hc Hi Hdrop Hk. change NumDirect with 26. rewrite Z.rem_mod_nonneg by lia.
  pose proof (Z.mod_pos_bound i 26 ltac:(lia)).
  assert (Hlk : rest !! k = Some s) by (rewrite <- (Nat.add_0_r k), <- lookup_drop, Hdrop; done).
  destruct Hh as [Hl Hw]. change (Z.to_nat NumDirect) with 26%nat in Hl.
  destruct Hk as [(Hki & Hk0)|(-> & Hi0 & Hne)].
  - exists hdr, d, rest, hs, k.
    replace (negb (i =? 0) && (i mod 26 =? 0)) with false.
    2:{ destruct (Z.eqb_spec i 0); [done|]. destruct (Z.eqb_spec (i mod 26) 0); [|done].
        exfalso. apply n. apply Hk0. lia. }
    do 6 (split; [done|]). apply aget_Some. split; [lia|]. rewrite <- Hki, Nat2Z.id.
    destruct hs; [by destruct Hc as [_ Hp]; eapply prefix_lookup_Some|].
    destruct Hc as (_ & _ & rest' & -> & _). by rewrite lookup_app_l in Hlk by lia.
  - destruct hs as [|t hs].
    { destruct Hc as [_ Hp%prefix_length]. apply lookup_lt_Some in Hlk. lia. }
    destruct Hc as (Hn & Ht & rest' & -> & Hc).
    destruct (fetch_from_spec d t Hd Ht) as (d' & Hrun & Hd').
    exists (hdr_at (contents d) t), d', rest', hs, 0%nat.
    rewrite (proj2 (Z.eqb_neq i 0)), Hi0, Hn by done. cbn [negb andb Z.eqb].
    rewrite drop_app_ge, Hl, drop_0 in Hdrop by lia.
    subst rest'. split_and!; try done; try apply Hd'; try apply hdr_at_ok.
    apply aget_Some. split; [done|]. pose proof (hdr_at_ok (contents d) t) as [Hl' _].
    change (Z.to_nat NumDirect) with 26%nat in Hl'.
    destruct hs; [by destruct Hc as [_ Hp]; apply (prefix_lookup_Some (s :: rem))|].
    destruct Hc as (_ & _ & r & Hr & _).
    change (Z.to_nat 0) with 0%nat. rewrite <- (lookup_app_l _ r) by lia. by rewrite <- Hr.
Qed.

(** The data of a list of sectors. *)
Definition file_data (img : image) (secs : list Z) : list Z := secs ≫= sector img.

Lemma print_relation k i :
  Z.of_nat k = i mod 26 -> 0 <= i ->
  Z.of_nat (S k) = (i + 1) mod 26 /\ (S k = 0%nat -> i + 1 = 0) \/
  S k = 26%nat /\ (i + 1) mod 26 = 0 /\ i + 1 <> 0.
Proof.
  intros Hk Hi. pose proof (Z.mod_pos_bound i 26 ltac:(lia)).
  rewrite <- (Z.add_mod_idemp_l i 1) by lia. rewrite <- Hk.
  destruct (decide (k = 25%nat)) as [->|Hne]; [right; split_and!; [done|done|lia]|left].
  rewrite Z.mod_small by lia. split; [lia|done].
Qed.

Lemma print_sectors_spec rem i hdr (d : D) rest hs k :
  disk_ok d -> hdr_ok hdr -> chain (contents d) hdr rest hs -> 0 <= i -> drop k rest = rem ->
  (Z.of_nat k = i mod 26 /\ (k = 0%nat -> i = 0) \/ k = 26%nat /\ i mod 26 = 0 /\ i <> 0) ->
  exists d', print_sectors (length rem) i hdr d = Ok (rem, d') /\ now_holds d' (contents d).
Proof.
  revert i hdr d rest hs k. induction rem as [|s rem IH];
    intros i hdr d rest hs k Hd Hh Hc Hi Hr Hk; [by exists d|].
  destruct (print_advance i hdr d rest hs k s rem Hd Hh Hc Hi Hr Hk)
    as (hdr1 & d1 & rest1 & hs1 & k1 & Hrun & [Hd1 Hc1] & Hh1 & Hch & Hr1 & Hk1 & Hget).
  destruct (IH (i + 1) hdr1 d1 rest1 hs1 (S k1)) as (d2 & Hrun2 & Hd2);
    [done|done|by rewrite Hc1|lia| |by apply print_relation|].
  { rewrite <- Nat.add_1_r, <- drop_drop, Hr1. done. }
  exists d2. cbn [print_sectors length]. rewrite (bind_ok _ _ _ _ _ Hrun).
  erewrite bind_ok by (by apply lift_ok). erewrite bind_ok by done. by rewrite <- Hc1.
Qed.

Lemma print_contents_spec total rem i kk hdr (d : D) rest hs k :
  disk_ok d -> hdr_ok hdr -> chain (contents d) hdr rest hs -> 0 <= i -> drop k rest = rem ->
  Forall is_sector rem -> 0 <= kk <= total ->
  (Z.of_nat k = i mod 26 /\ (k = 0%nat -> i = 0) \/ k = 26%nat /\ i mod 26 = 0 /\ i <> 0) ->
  exists d', print_contents (length rem) i kk total hdr d =
      Ok (take (Z.to_nat (total - kk)) (file_data (contents d) rem), d') /\
    now_holds d' (contents d).
Proof.
  revert i kk hdr d rest hs k. induction rem as [|s rem IH];
    intros i kk hdr d rest hs k Hd Hh Hc Hi Hr Hs Hkk Hk.
  { exists d. split; [|done]. simpl. by rewrite take_nil. }
  apply Forall_cons in Hs as [Hs Hss].
  destruct (print_advance i hdr d rest hs k s rem Hd Hh Hc Hi Hr Hk)
    as (hdr1 & d1 & rest1 & hs1 & k1 & Hrun & [Hd1 Hc1] & Hh1 & Hch & Hr1 & Hk1 & Hget).
  destruct (read_sector d1 s Hd1 Hs) as (d2 & Hrun2 & Hd2 & Hc2). rewrite Hc1 in *.
  set (m := Z.max 0 (Z.min SectorSize (total - kk))).
  assert (Hm : 0 <= m <= 128 /\ (m = 128 \/ m = total - kk) /\ m <= total - kk)
    by (unfold m; change SectorSize with 128; lia).
  destruct (IH (i + 1) (kk + m) hdr1 d2 rest1 hs1 (S k1)) as (d3 & Hrun3 & Hd3);
    [done|done|by rewrite Hc2|lia| |done|lia|by apply print_relation|].
  { rewrite <- Nat.add_1_r, <- drop_drop, Hr1. done. }
  exists d3. rewrite Hc2 in *. split; [|done].
  cbn [print_contents length]. rewrite (bind_ok _ _ _ _ _ Hrun).
  erewrite bind_ok by (by apply lift_ok). rewrite (bind_ok _ _ _ _ _ Hrun2). fold m.
  rewrite (bind_ok _ _ _ _ _ Hrun3). unfold mret, M_ret. do 2 f_equal.
  unfold file_data. cbn [mbind list_bind]. fold (list_bind _ _ (sector (contents d)) rem).
  change (list_bind _ _ (sector (contents d)) rem) with (file_data (contents d) rem).
  assert (Hlen : length (sector (contents d) s) = 128%nat).
  { apply image_sector_ok; [|done]. auto with nachos. }
  destruct (decide (m = 128)) as [E|E].
  - rewrite E, !take_ge with (n := Z.to_nat 128) by (rewrite Hlen; done).
    rewrite take_app_ge by lia. do 2 f_equal. lia.
  - assert (m = total - kk) as -> by lia.
    replace (total - (kk + (total - kk))) with 0 by lia. rewrite take_0, app_nil_r.
    rewrite take_app_le; [done|lia].
Qed.

(** ** Properties *)

(** C30. [FileHeader::Allocate] on a well-formed map, for a file of [size] bytes
    ([ns] sectors, [extra_hdrs ns] further headers), with [free] free sectors, in
    every case.  With fewer than [ns] free sectors it returns FALSE and changes
    neither map nor disk.  With room for the data and the further headers it
    returns TRUE and the header stands for a file of exactly [ns] data sectors:
    the header chain on disk lists them, data and header sectors are distinct,
    were free, are now marked (and nothing else is), and no other sector was
    written.  The code does not do what it means to in the other three: a file of
    exactly [NumDirect] sectors has its header written to the sector in the
    uninitialised [cur_sector]; when the test for room, which does not count the
    further headers, passes although they do not fit, the code returns TRUE with a
    header whose last entries are sector -1 and every sector marked, if the map
    runs out in the last header, and else writes a header to sector -1, which
    fails the disk's assertion. *)
Theorem allocate_correct (fresh : nat -> FileHeader) (now : Z) (this : FileHeader)
    (fm : BitMap) (d : D) (size : Z) :
  (forall k, hdr_ok (fresh k)) -> is_i32 now -> hdr_ok this ->
  wf fm -> numBits fm = NumSectors -> disk_ok d -> 0 <= size < 2 ^ 31 ->
  let ns := divRoundUp size SectorSize in
  let free := Z.of_nat (length (clear_bits fm)) in
  (free < ns ->
     exists h, Allocate fresh now this size (fm, d) = Ok ((false, h), (fm, d))) /\
  (ns <> NumDirect -> ns + extra_hdrs ns <= free ->
     exists h fm' d' secs hsecs,
       Allocate fresh now this size (fm, d) = Ok ((true, h), (fm', d')) /\
       allocated fm fm' d d' size h secs hsecs /\ NoDup (secs ++ hsecs) /\
       Z.of_nat (length (clear_bits fm')) = free - ns - extra_hdrs ns) /\
  (ns = NumDirect -> ns <= free ->
     Allocate fresh now this size (fm, d) = Stop Undefined) /\
  (ns <= free -> 27 * extra_hdrs ns <= free < ns + extra_hdrs ns ->
     exists h fm' d' secs hsecs,
       Allocate fresh now this size (fm, d) = Ok ((true, h), (fm', d')) /\ clear_bits fm' = [] /\
       chain (contents d') h (secs ++ replicate (Z.to_nat (ns + extra_hdrs ns - free)) (-1)) hsecs /\
       clear_bits fm ≡ₚ secs ++ hsecs /\ numSectors h = ns) /\
  (ns <= free < 27 * extra_hdrs ns -> Allocate fresh now this size (fm, d) = Stop AssertFailed).
Proof.
  intros Hfresh Hnow Hthis Hw Hn Hd Hsize ns free. split_and!.
  - intros Hf. eexists. by apply allocate_full.
  - intros Hns Hf. destruct (allocate_ok fresh Hfresh now Hnow this Hthis fm d Hw Hn Hd size Hsize Hns Hf)
      as (h & fm' & d' & secs & hsecs & Hrun & Hal).
    exists h, fm', d', secs, hsecs. split_and!; [done|done| |].
    + pose proof (NoDup_clear_bits fm) as Hnd. rewrite (al_map _ _ _ _ _ _ _ _ Hal) in Hnd.
      by apply NoDup_app in Hnd as [? _].
    + pose proof (Permutation_length (al_map _ _ _ _ _ _ _ _ Hal)) as Hlen.
      rewrite !length_app in Hlen.
      pose proof (al_secs _ _ _ _ _ _ _ _ Hal). pose proof (al_hsecs _ _ _ _ _ _ _ _ Hal).
      fold ns in H, H0. unfold free. lia.
  - intros Hns Hf. by apply allocate_at_limit.
  - intros Hle Hf. by apply allocate_short.
  - intros Hf. by apply allocate_fails.
Qed.

(** [FileHeader::ByteToSector] follows the chain of headers: for every offset
    inside the data sectors of a file it terminates within the bound the model
    gives its loop, returns the sector that holds that byte and leaves the disk's
    contents as they are. *)
Lemma byte_to_sector_correct (h : FileHeader) (off : Z) (d : D) (secs hsecs : list Z) :
  disk_ok d -> hdr_ok h -> chain (contents d) h secs hsecs ->
  0 <= off < SectorSize * Z.of_nat (length secs) -> off < 2 ^ 31 ->
  exists s d', ByteToSector h off d = Ok (s, d') /\ now_holds d' (contents d) /\
    secs !! Z.to_nat (off / SectorSize) = Some s.
Proof.
  intros Hd Hh Hc Ho Hmax.
  destruct (lookup_lt_is_Some_2 secs (Z.to_nat (off / SectorSize))) as [s Hs].
  { pose proof (Z.div_pos off SectorSize ltac:(lia) ltac:(done)).
    enough (off / SectorSize < Z.of_nat (length secs)) by lia.
    apply Z.div_lt_upper_bound; [done|lia]. }
  destruct (byte_to_sector_spec h off d secs hsecs s) as (d' & Hrun & Hd'); try done; [lia|].
  by exists s, d'.
Qed.

(** [FileHeader::Print] walks the chain and prints the numbers of the data
    sectors of the file, in order, and then the first [numBytes] bytes they hold,
    and changes nothing on the disk. *)
Lemma print_shows_file (h : FileHeader) (d : D) (secs hsecs : list Z) :
  disk_ok d -> hdr_ok h -> chain (contents d) h secs hsecs -> Forall is_sector secs ->
  numSectors h = Z.of_nat (length secs) -> 0 <= numBytes h ->
  exists d', Print h d = Ok ((secs, take (Z.to_nat (numBytes h)) (file_data (contents d) secs)), d') /\
    now_holds d' (contents d).
Proof.
  intros Hd Hh Hc Hs Hns Hnb. unfold Print. rewrite Hns, Nat2Z.id.
  destruct (print_sectors_spec secs 0 h d secs hsecs 0) as (d1 & Hrun1 & Hd1 & Hc1);
    [done|done|done|done|done|by left|].
  destruct (print_contents_spec (numBytes h) secs 0 0 h d1 secs hsecs 0) as (d2 & Hrun2 & Hd2 & Hc2);
    [done|done|by rewrite Hc1|done|done|done|lia|by left|].
  exists d2. rewrite (bind_ok _ _ _ _ _ Hrun1), (bind_ok _ _ _ _ _ Hrun2).
  rewrite Z.sub_0_r, Hc1 in *. done.
Qed.

(** [FileHeader::Deallocate] never returns: its [break] leaves only the inner
    [for], never the [while (true)].  For a header with one data sector in use or
    more and no further header, the first pass clears the first data sector and
    the second pass fails the assertion that this sector is still marked. *)
Lemma deallocate_never_returns (fuel : nat) (this : FileHeader) (fm : BitMap) (d : D) (s : Z) :
  (forall r, Deallocate fuel this (fm, d) <> Ok r) /\
  (wf fm -> nextFdrSector this = -1 -> 1 <= numSectors this ->
   dataSectors this !! 0%nat = Some s -> 0 <= s < numBits fm -> (2 <= fuel)%nat ->
   Deallocate fuel this (fm, d) = Stop AssertFailed).
Proof.
  split; [intros r; apply dealloc_loop_never_ok|].
  intros Hw Hnx Hns Hs Hr Hf. by apply (single_header_dealloc _ _ _ _ s).
Qed.

End FileHdrFacts.

(** ** Witnesses, on a disk of zeroes *)

Import PlainDisk.

Definition zero_hdr : FileHeader := MkHdr 0 0 0 0 0 0 (replicate 26 0).
Definition blank_map : BitMap := MkBitMap 1024 32 (replicate 32 0).
Definition blank_disk : image := replicate 1024 (replicate 128 0).

Lemma zero_hdr_ok : hdr_ok zero_hdr.
Proof. split; [done|]. unfold hdr_words. repeat constructor; done. Qed.

Lemma blank_map_wf : wf blank_map.
Proof. split_and!; [done|done|done|]. apply Forall_replicate. done. Qed.

Lemma blank_disk_ok : image_ok blank_disk.
Proof.
  split; [by apply length_replicate|]. apply Forall_replicate.
  split; [done|]. by apply Forall_replicate.
Qed.

(** A map with 1024 sectors of which only the first 29 are free. *)
Definition tight_map : BitMap := MkBitMap 1024 32 (- 2 ^ 29 mod 2 ^ 32 :: replicate 31 (2 ^ 32 - 1)).

Lemma tight_map_wf : wf tight_map.
Proof. split_and!; [done|done|done|]. constructor; [done|]. apply Forall_replicate. done. Qed.

Lemma allocate_correct_witness :
  (exists h fm' d', Allocate (fun _ => zero_hdr) 7 zero_hdr 5000 (blank_map, blank_disk)
     = Ok ((true, h), (fm', d')) /\ length (clear_bits fm') = 983%nat) /\
  (exists h fm' d' secs hsecs, Allocate (fun _ => zero_hdr) 7 zero_hdr 3700 (tight_map, blank_disk)
     = Ok ((true, h), (fm', d')) /\ clear_bits fm' = [] /\ chain d' h (secs ++ [-1]) hsecs).
Proof.
  split.
  - destruct (proj1 (proj2 (allocate_correct (fun _ => zero_hdr) 7 zero_hdr blank_map blank_disk 5000
      (fun _ => zero_hdr_ok) ltac:(done) zero_hdr_ok blank_map_wf eq_refl blank_disk_ok ltac:(done))))
      as (h & fm' & d' & secs & hsecs & Hrun & _ & _ & Hfree).
    + vm_compute. discriminate.
    + vm_compute. discriminate.
    + exists h, fm', d'. split; [exact Hrun|]. apply Nat2Z.inj. rewrite Hfree. vm_compute. reflexivity.
  - destruct (proj1 (proj2 (proj2 (proj2 (allocate_correct (fun _ => zero_hdr) 7 zero_hdr tight_map blank_disk 3700
      (fun _ => zero_hdr_ok) ltac:(done) zero_hdr_ok tight_map_wf eq_refl blank_disk_ok ltac:(done))))))
      as (h & fm' & d' & secs & hsecs & Hrun & Hfull & Hch & _).
    + vm_compute. discriminate.
    + vm_compute. split; [discriminate|reflexivity].
    + exists h, fm', d', secs, hsecs. split; [exact Hrun|]. split; [exact Hfull|].
      replace [-1] with (replicate (Z.to_nat (divRoundUp 3700 SectorSize + extra_hdrs (divRoundUp 3700 SectorSize)
        - Z.of_nat (length (clear_bits tight_map)))) (-1)) by (vm_compute; reflexivity). exact Hch.
Defined.
