(* ===== verification/OpenFile.v ===== *)
(** * [filesys/openfile.cc]: open files

    An open file is its header, the sector of the header and a position.  The
    theorems give [ReadAt] and [WriteAt] their meaning on the sequence of bytes
    the file holds, whatever the alignment of the request. *)

From S2P Require Import Prelude BitMap Sectors FileHdr.

(** [class OpenFile]. *)
Record OpenFile : Type := MkOpen { hdr : FileHeader; seekPosition : Z; hdrSector : Z }.

Section OpenFile.
Context {D : Type} `{!SectorDisk D}.

(** [OpenFile::OpenFile]. *)
Definition new_open_file (s : Z) : M D OpenFile :=
  h ← FetchFrom s; mret (MkOpen h 0 s).

(** [OpenFile::Seek]. *)
Definition Seek (position : Z) (f : OpenFile) : OpenFile := MkOpen (hdr f) position (hdrSector f).

(** [OpenFile::Length]. *)
Definition Length (f : OpenFile) : Z := FileLength (hdr f).

(** The loop of [OpenFile::ReadAt]: [n] sectors from sector [i] of the file, in the
    order [buf] holds them. *)
Fixpoint read_sectors (h : FileHeader) (n : nat) (i : Z) : M D (list Z) :=
  match n with
  | O => mret []
  | S n =>
      s ← ByteToSector h (i * SectorSize);
      bs ← ReadSector s;
      r ← read_sectors h n (i + 1);
      mret (bs ++ r)
  end.

(** [OpenFile::ReadAt]: the value returned and the bytes copied to [into]. *)
Definition ReadAt (f : OpenFile) (numBytes position : Z) : M D (Z * list Z) :=
  let fileLength := FileLength (hdr f) in
  if (numBytes <=? 0) || (fileLength <=? position) then mret (0, [])
  else
    last ← lift (int (position + numBytes));
    let numBytes := if fileLength <? last then fileLength - position else numBytes in
    let firstSector := divRoundDown position SectorSize in
    let lastSector := divRoundDown (position + numBytes - 1) SectorSize in
    let numSectors := 1 + lastSector - firstSector in
    buf ← read_sectors (hdr f) (Z.to_nat numSectors) firstSector;
    into ← lift (slice (position - firstSector * SectorSize) numBytes buf);
    mret (numBytes, into).

(** The loop of [OpenFile::WriteAt] that writes [buf] back, [n] sectors to go. *)
Fixpoint write_sectors (h : FileHeader) (n : nat) (i firstSector : Z) (buf : list Z)
    : M D unit :=
  match n with
  | O => mret tt
  | S n =>
      s ← ByteToSector h (i * SectorSize);
      bs ← lift (slice ((i - firstSector) * SectorSize) SectorSize buf);
      _ ← WriteSector s bs;
      write_sectors h n (i + 1) firstSector buf
  end.

(** [OpenFile::WriteAt], the buffer it writes: [numBytes] bytes of the caller's
    [from] at [position], between the sectors [firstSector] and [lastSector];
    [junk] is what the new [buf] holds. *)
Definition write_buffer (junk : nat -> Z) (f : OpenFile) (from : list Z)
    (numBytes position firstSector lastSector : Z) : M D (list Z) :=
  let numSectors := 1 + lastSector - firstSector in
  let buf := junk <$> seq 0 (Z.to_nat (numSectors * SectorSize)) in
  let firstAligned := position =? firstSector * SectorSize in
  let lastAligned := position + numBytes =? (lastSector + 1) * SectorSize in
  buf ← (if negb firstAligned then
           '(_, bs) ← ReadAt f SectorSize (firstSector * SectorSize);
           lift (splice 0 bs buf)
         else mret buf);
  buf ← (if negb lastAligned && (negb (firstSector =? lastSector) || firstAligned) then
           '(_, bs) ← ReadAt f SectorSize (lastSector * SectorSize);
           lift (splice ((lastSector - firstSector) * SectorSize) bs buf)
         else mret buf);
  bs ← lift (slice 0 numBytes from);
  lift (splice (position - firstSector * SectorSize) bs buf).

(** [OpenFile::WriteAt]. *)
Definition WriteAt (junk : nat -> Z) (f : OpenFile) (from : list Z) (numBytes position : Z)
    : M D Z :=
  let fileLength := FileLength (hdr f) in
  if (numBytes <=? 0) || (fileLength <=? position) then mret 0
  else
    last ← lift (int (position + numBytes));
    let numBytes := if fileLength <? last then fileLength - position else numBytes in
    let firstSector := divRoundDown position SectorSize in
    let lastSector := divRoundDown (position + numBytes - 1) SectorSize in
    let numSectors := 1 + lastSector - firstSector in
    buf ← write_buffer junk f from numBytes position firstSector lastSector;
    _ ← write_sectors (hdr f) (Z.to_nat numSectors) firstSector firstSector buf;
    mret numBytes.

(** [OpenFile::Read], at time [now]: the file after it and the bytes read. *)
Definition Read (now : Z) (f : OpenFile) (numBytes : Z) : M D (OpenFile * (Z * list Z)) :=
  '(result, into) ← ReadAt f numBytes (seekPosition f);
  pos ← lift (int (seekPosition f + result));
  let f := MkOpen (set_access now (hdr f)) pos (hdrSector f) in
  _ ← WriteBack (hdr f) (hdrSector f);
  mret (f, (result, into)).

(** [OpenFile::Write], at time [now]. *)
Definition Write (junk : nat -> Z) (now : Z) (f : OpenFile) (from : list Z) (numBytes : Z)
    : M D (OpenFile * Z) :=
  result ← WriteAt junk f from numBytes (seekPosition f);
  pos ← lift (int (seekPosition f + result));
  let h := set_access now (hdr f) in
  let h := set_created (createTime h) now h in
  let f := MkOpen h pos (hdrSector f) in
  _ ← WriteBack (hdr f) (hdrSector f);
  mret (f, result).

End OpenFile.

(** ** The file as a sequence of bytes *)

(** [h] is the header of a file whose data is in [secs] and whose further headers
    are in [hsecs]. *)
Record file_rep (img : image) (h : FileHeader) (secs hsecs : list Z) : Prop := {
  fr_hdr : hdr_ok h;
  fr_chain : chain img h secs hsecs;
  fr_secs : Forall is_sector secs;
  fr_nodup : NoDup (secs ++ hsecs);
  fr_len : Z.of_nat (length secs) = divRoundUp (numBytes h) SectorSize;
  fr_size : 0 <= numBytes h < 2 ^ 31
}.

Definition file_bytes (img : image) (h : FileHeader) (secs : list Z) : list Z :=
  take (Z.to_nat (numBytes h)) (file_data img secs).

Lemma file_data_app img l1 l2 : file_data img (l1 ++ l2) = file_data img l1 ++ file_data img l2.
Proof. apply bind_app. Qed.

Lemma file_data_cons img s l : file_data img (s :: l) = sector img s ++ file_data img l.
Proof. done. Qed.

Lemma sector_length img s : image_ok img -> is_sector s -> length (sector img s) = 128%nat.
Proof. intros Hi Hs. by apply image_sector_ok. Qed.

Lemma length_file_data img secs :
  image_ok img -> Forall is_sector secs -> length (file_data img secs) = (128 * length secs)%nat.
Proof.
  intros Hi. induction 1 as [|s l Hs _ IH]; [done|].
  rewrite file_data_cons, length_app, IH, sector_length by done. cbn [length]. lia.
Qed.

Lemma take_file_data img secs k :
  image_ok img -> Forall is_sector secs ->
  take (128 * k) (file_data img secs) = file_data img (take k secs).
Proof.
  intros Hi Hs. revert k. induction Hs as [|s l Hs _ IH]; intros k.
  { rewrite take_nil. apply take_nil. }
  destruct k as [|k]; [done|]. cbn [take]. rewrite !file_data_cons.
  rewrite take_app_ge, sector_length by (rewrite ?sector_length by done; lia || done).
  f_equal. rewrite <- IH. f_equal. lia.
Qed.

Lemma drop_file_data img secs k :
  image_ok img -> Forall is_sector secs ->
  drop (128 * k) (file_data img secs) = file_data img (drop k secs).
Proof.
  intros Hi Hs. revert k. induction Hs as [|s l Hs _ IH]; intros k.
  { rewrite drop_nil. apply drop_nil. }
  destruct k as [|k]; [done|]. cbn [drop]. rewrite !file_data_cons.
  rewrite drop_app_ge, sector_length by (rewrite ?sector_length by done; lia || done).
  rewrite <- IH. f_equal. lia.
Qed.

Lemma file_data_byte img secs :
  image_ok img -> Forall is_sector secs -> Forall is_byte (file_data img secs).
Proof.
  intros Hi. induction 1 as [|s l Hs _ IH]; [by constructor|].
  rewrite file_data_cons. apply Forall_app. split; [|done]. by apply image_sector_ok.
Qed.

(** Only the sectors of the list matter. *)
Lemma file_data_frame img img' secs :
  (forall s, s ∈ secs -> sector img' s = sector img s) -> file_data img' secs = file_data img secs.
Proof.
  induction secs as [|s l IH]; intros H; [done|].
  rewrite !file_data_cons, H by (by left). f_equal. apply IH. intros. apply H. by right.
Qed.

(** Writing the sector of index [i] of the list replaces its 128 bytes. *)
Lemma file_data_update img secs i s bs :
  image_ok img -> Forall is_sector secs -> NoDup secs -> secs !! i = Some s -> length bs = 128%nat ->
  file_data (update s bs img) secs = ins (128 * i) bs (file_data img secs).
Proof.
  intros Hi Hs Hnd Hlk Hbs. unfold ins. rewrite Hbs.
  replace (128 * i + 128)%nat with (128 * S i)%nat by lia.
  rewrite take_file_data, drop_file_data by done.
  rewrite <- (take_drop_middle secs i s Hlk) at 1. rewrite file_data_app, file_data_cons.
  assert (Hss : is_sector s) by (by eapply Forall_lookup_1 in Hlk).
  rewrite sector_update_eq by done.
  rewrite <- (take_drop_middle secs i s Hlk) in Hnd, Hs.
  apply NoDup_app in Hnd as (_ & Hn1 & Hn2). apply NoDup_cons in Hn2 as [Hn2 _].
  apply Forall_app in Hs as [Hs1 Hs2]. apply Forall_cons in Hs2 as [_ Hs2].
  rewrite Forall_forall in Hs1, Hs2.
  f_equal; [|f_equal]; apply file_data_frame; intros t Ht; apply sector_update_ne;
    auto; intros ->; [apply (Hn1 t Ht); by left|done].
Qed.

Lemma rep_capacity img h secs hsecs :
  file_rep img h secs hsecs ->
  numBytes h <= 128 * Z.of_nat (length secs) < numBytes h + 128.
Proof.
  intros [_ _ _ _ Hl Hs]. change SectorSize with 128 in Hl.
  pose proof (divRoundUp_spec (numBytes h) 128). lia.
Qed.

(** A file fits on the disk. *)
Lemma rep_size img h secs hsecs : file_rep img h secs hsecs -> 0 <= numBytes h <= 128 * 1024.
Proof.
  intros Hr. pose proof (rep_capacity _ _ _ _ Hr). destruct Hr as [_ _ Hs Hnd _ Hn].
  apply NoDup_app in Hnd as [Hnd _].
  assert (Hle : (length secs <= length (seqZ 0 1024))%nat).
  { apply submseteq_length, NoDup_submseteq; [done|]. intros s Hin. rewrite Forall_forall in Hs.
    apply elem_of_seqZ. apply Hs in Hin. unfold is_sector in Hin. change NumSectors with 1024 in Hin. lia. }
  rewrite length_seqZ in Hle. lia.
Qed.

Lemma length_file_bytes img h secs hsecs :
  image_ok img -> file_rep img h secs hsecs -> Z.of_nat (length (file_bytes img h secs)) = numBytes h.
Proof.
  intros Hi Hr. pose proof (rep_capacity _ _ _ _ Hr). destruct Hr as [_ _ Hs _ _ Hn].
  unfold file_bytes. rewrite length_take, length_file_data by done. lia.
Qed.

Section OpenFileFacts.
Context {D : Type} `{!SectorDisk D} `{!SectorDiskLaws D}.

Lemma rep_sector (d : D) h secs hsecs i :
  disk_ok d -> file_rep (contents d) h secs hsecs -> 0 <= i < Z.of_nat (length secs) ->
  exists s d', secs !! Z.to_nat i = Some s /\ is_sector s /\
    ByteToSector h (i * SectorSize) d = Ok (s, d') /\ now_holds d' (contents d).
Proof.
  intros Hd Hr Hi. destruct (lookup_lt_is_Some_2 secs (Z.to_nat i)) as [s Hs]; [lia|].
  pose proof (rep_capacity _ _ _ _ Hr) as Hcap. change SectorSize with 128.
  destruct (byte_to_sector_spec h (i * 128) d secs hsecs s) as (d' & Hrun & Hd'); try apply Hr; try done.
  - destruct Hr as [_ _ _ _ _ Hn]. lia.
  - change SectorSize with 128. by rewrite Z.div_mul by lia.
  - exists s, d'. split; [done|]. split; [|done].
    eapply (Forall_lookup_1 _ secs); [apply Hr|done].
Qed.

Lemma read_sectors_spec h n i (d : D) secs hsecs :
  disk_ok d -> file_rep (contents d) h secs hsecs -> 0 <= i -> i + Z.of_nat n <= Z.of_nat (length secs) ->
  exists d', read_sectors h n i d =
      Ok (take (128 * n) (drop (128 * Z.to_nat i) (file_data (contents d) secs)), d') /\
    now_holds d' (contents d).
Proof.
  revert i d. induction n as [|n IH]; intros i d Hd Hr Hi Hn; [by exists d|].
  destruct (rep_sector d h secs hsecs i) as (s & d1 & Hs & Hss & Hrun1 & Hd1 & Hc1); [done|done|lia|].
  destruct (read_sector d1 s Hd1 Hss) as (d2 & Hrun2 & Hd2 & Hc2). rewrite Hc1 in *.
  destruct (IH (i + 1) d2) as (d3 & Hrun3 & Hd3); [done|by rewrite Hc2|lia|lia|].
  rewrite Hc2 in *. exists d3. split; [|done]. cbn [read_sectors].
  rewrite (bind_ok _ _ _ _ _ Hrun1), (bind_ok _ _ _ _ _ Hrun2), (bind_ok _ _ _ _ _ Hrun3).
  unfold mret, M_ret. do 2 f_equal. destruct Hr as [_ _ Hsec _ _ _].
  rewrite !drop_file_data, !take_file_data by (auto using Forall_drop with nachos).
  replace (Z.to_nat (i + 1)) with (S (Z.to_nat i)) by lia.
  by rewrite (drop_S secs s (Z.to_nat i)) by done.
Qed.

(** Reading bytes through a window of whole sectors. *)
Lemma window (X : list Z) (p n f k nb : nat) :
  (128 * f <= p)%nat -> (p + n <= 128 * (f + k))%nat -> (p + n <= nb)%nat ->
  take n (drop (p - 128 * f) (take (128 * k) (drop (128 * f) X))) = take n (drop p (take nb X)).
Proof.
  intros. rewrite !skipn_firstn_comm, !take_take, drop_drop.
  by replace (128 * f + (p - 128 * f))%nat with p by lia;
    replace (n `min` (128 * k - (p - 128 * f)))%nat with (n `min` (nb - p))%nat by lia.
Qed.

Lemma read_at_spec f n p (d : D) secs hsecs :
  disk_ok d -> file_rep (contents d) (hdr f) secs hsecs -> 0 <= p -> p + n < 2 ^ 31 ->
  let r := take (Z.to_nat n) (drop (Z.to_nat p) (file_bytes (contents d) (hdr f) secs)) in
  exists d', ReadAt f n p d = Ok ((Z.of_nat (length r), r), d') /\ now_holds d' (contents d).
Proof.
  intros Hd Hr Hp Hmax r. pose proof (rep_capacity _ _ _ _ Hr) as Hcap.
  pose proof (length_file_bytes (contents d) _ _ _ ltac:(auto with nachos) Hr) as Hlen.
  unfold ReadAt, FileLength.
  destruct (Z.leb_spec n 0) as [Hn|Hn]; simpl.
  { exists d. unfold r. by replace (Z.to_nat n) with 0%nat by lia. }
  destruct (Z.leb_spec (numBytes (hdr f)) p) as [Hpl|Hpl].
  { exists d. unfold r. by rewrite drop_ge, take_nil by lia. }
  erewrite bind_ok by (apply lift_ok, int_ok; unfold is_i32; lia).
  set (m := if numBytes (hdr f) <? p + n then _ else _).
  assert (Hm : 0 < m /\ p + m <= numBytes (hdr f) /\ m = Z.min n (numBytes (hdr f) - p))
    by (unfold m; destruct (Z.ltb_spec (numBytes (hdr f)) (p + n)); lia).
  unfold divRoundDown. change SectorSize with 128. rewrite !Z.quot_div_nonneg by lia.
  set (a := p / 128). set (b := (p + m - 1) / 128).
  pose proof (Z.div_mod p 128 ltac:(lia)) as H1. pose proof (Z.mod_pos_bound p 128 ltac:(lia)) as H2.
  pose proof (Z.div_mod (p + m - 1) 128 ltac:(lia)) as H3.
  pose proof (Z.mod_pos_bound (p + m - 1) 128 ltac:(lia)) as H4. fold a in H1. fold b in H3.
  destruct (read_sectors_spec (hdr f) (Z.to_nat (1 + b - a)) a d secs hsecs) as (d' & Hrun & Hd');
    [done|done|lia|lia|].
  exists d'. split; [|done]. rewrite (bind_ok _ _ _ _ _ Hrun).
  assert (Hwin : take (Z.to_nat m) (drop (Z.to_nat (p - a * 128))
      (take (128 * Z.to_nat (1 + b - a)) (drop (128 * Z.to_nat a) (file_data (contents d) secs)))) = r).
  { replace (Z.to_nat (p - a * 128)) with (Z.to_nat p - 128 * Z.to_nat a)%nat by lia.
    rewrite (window _ _ _ _ _ (Z.to_nat (numBytes (hdr f)))) by lia.
    fold (file_bytes (contents d) (hdr f) secs). unfold r.
    destruct (Z.le_gt_cases n (numBytes (hdr f) - p)); [by replace m with n by lia|].
    rewrite !take_ge by (rewrite length_drop; lia). done. }
  erewrite bind_ok.
  2:{ apply lift_ok, slice_ok; [lia|lia|]. rewrite length_take, length_drop, length_file_data
        by (apply Hr || auto with nachos). lia. }
  rewrite Hwin. unfold mret, M_ret. do 3 f_equal. unfold r. rewrite length_take, length_drop. lia.
Qed.

(** The data sectors may change under a file. *)
Lemma rep_frame img img' h secs hsecs :
  file_rep img h secs hsecs ->
  (forall s, is_sector s -> s ∉ secs -> sector img' s = sector img s) ->
  file_rep img' h secs hsecs.
Proof.
  intros [Hh Hc Hs Hnd Hl Hn] Hf. constructor; try done.
  apply (chain_frame img); [|done]. intros s Hin.
  apply chain_hsecs in Hc as Hss. rewrite Forall_forall in Hss. apply Hf; [by apply Hss|].
  apply NoDup_app in Hnd as (_ & Hd & _). intros Hin'. by apply (Hd s).
Qed.

Lemma write_sectors_spec h n i first buf (d : D) secs hsecs :
  disk_ok d -> file_rep (contents d) h secs hsecs -> Forall is_byte buf ->
  0 <= first <= i -> i + Z.of_nat n <= Z.of_nat (length secs) ->
  Z.of_nat (length buf) = 128 * (i + Z.of_nat n - first) ->
  exists d', write_sectors h n i first buf d = Ok (tt, d') /\ disk_ok d' /\
    file_data (contents d') secs =
      ins (128 * Z.to_nat i) (drop (128 * Z.to_nat (i - first)) buf) (file_data (contents d) secs) /\
    (forall s, is_sector s -> s ∉ secs -> sector (contents d') s = sector (contents d) s).
Proof.
  revert i d. induction n as [|n IH]; intros i d Hd Hr Hb Hi Hn Hl.
  { exists d. rewrite drop_ge by lia. split_and!; try done. unfold ins. cbn [length app].
    by rewrite Nat.add_0_r, take_drop. }
  destruct (rep_sector d h secs hsecs i) as (s & d1 & Hs & Hss & Hrun1 & Hd1 & Hc1); [done|done|lia|].
  set (chunk := take 128 (drop (128 * Z.to_nat (i - first)) buf)).
  assert (Hlc : length chunk = 128%nat) by (unfold chunk; rewrite length_take, length_drop; lia).
  assert (Hslice : slice ((i - first) * SectorSize) SectorSize buf = Ok chunk).
  { change SectorSize with 128. rewrite slice_ok by lia. unfold chunk. do 3 f_equal. lia. }
  destruct (write_sector d1 s chunk Hd1 Hss) as (d2 & Hrun2 & Hd2 & Hc2).
  { split; [done|]. by apply Forall_take, Forall_drop. }
  rewrite Hc1 in Hc2.
  assert (Hin : s ∈ secs) by (by eapply list_elem_of_lookup_2).
  assert (Hf2 : forall t, is_sector t -> t ∉ secs -> sector (contents d2) t = sector (contents d) t).
  { intros t Ht Hnt. rewrite Hc2. apply sector_update_ne; [done|done|]. by intros <-. }
  destruct (IH (i + 1) d2) as (d3 & Hrun3 & Hd3 & Hdata & Hf3);
    [done|by eapply rep_frame|done|lia|lia|lia|].
  exists d3. split_and!; [|done| |].
  - cbn [write_sectors]. rewrite (bind_ok _ _ _ _ _ Hrun1).
    erewrite bind_ok by (by apply lift_ok). by rewrite (bind_ok _ _ _ _ _ Hrun2).
  - destruct Hr as [_ _ Hsec Hnd _ _]. apply NoDup_app in Hnd as (Hnd & _ & _).
    rewrite Hdata, Hc2, (file_data_update _ _ (Z.to_nat i)) by auto with nachos.
    replace (128 * Z.to_nat (i + 1))%nat with (128 * Z.to_nat i + length chunk)%nat by lia.
    rewrite ins_ins.
    2:{ rewrite length_drop, length_file_data by auto with nachos. lia. }
    f_equal. unfold chunk.
    replace (128 * Z.to_nat (i + 1 - first))%nat with (128 * Z.to_nat (i - first) + 128)%nat by lia.
    rewrite <- drop_drop. apply take_drop.
  - intros t Ht Hnt. rewrite Hf3 by done. by apply Hf2.
Qed.

(** The buffer [WriteAt] assembles, on sequences: [F] and [L] are the offsets of
    the first and the last sector of the request. *)
Lemma write_window (X buf w : list Z) (p F L nb : nat) (fa la fl : bool) :
  (F <= p < F + 128)%nat -> (L < p + length w <= L + 128)%nat ->
  (F = L \/ F + 128 <= L)%nat -> (p + length w <= nb <= length X)%nat ->
  (L + 128 <= length X)%nat -> length buf = (L + 128 - F)%nat ->
  (fa = true <-> p = F) -> (la = true <-> p + length w = L + 128)%nat -> (fl = true <-> F = L) ->
  let C := take nb X in
  let buf1 := if negb fa then ins 0 (take 128 (drop F C)) buf else buf in
  let buf2 := if negb la && (negb fl || fa)
              then ins (L - F) (take 128 (drop L C)) buf1 else buf1 in
  take nb (ins F (ins (p - F) w buf2) X) = ins p w C.
Proof.
  intros Hp Hw HFL Hnb HX Hbuf Hfa Hla Hfl C buf1 buf2.
  assert (Hl1 : length buf1 = length buf).
  { unfold buf1, C. destruct fa; [done|]. simpl. apply length_ins. autorewrite with nachos. lia. }
  assert (Hl2 : length buf2 = length buf).
  { unfold buf2, C. rewrite <- Hl1. destruct (negb la && _); [|done]. apply length_ins.
    autorewrite with nachos. lia. }
  assert (Hl3 : length (ins (p - F) w buf2) = length buf) by (rewrite length_ins; lia).
  assert (HC : length C = nb) by (unfold C; rewrite length_take; lia).
  apply list_eq. intros j. destruct (decide (j < nb)%nat) as [Hj|Hj].
  2:{ rewrite lookup_take_ge by lia. symmetry. apply lookup_ge_None. rewrite length_ins; lia. }
  rewrite lookup_take_lt, !lookup_ins by lia. rewrite Hl3.
  assert (HCj : C !! j = X !! j) by (unfold C; by apply lookup_take_lt).
  destruct (decide (p <= j < p + length w)%nat) as [Hin|Hout].
  { rewrite !decide_True by lia. f_equal. lia. }
  rewrite HCj. case_decide as HjF; [|done]. rewrite decide_False by lia.
  (* [j] is a byte of the first or of the last sector that must survive *)
  assert (H1 : (j < p)%nat -> buf1 !! (j - F)%nat = X !! j).
  { intros Hlt. unfold buf1. destruct fa; [by lia|]. simpl.
    rewrite lookup_ins, decide_True by (rewrite length_take, length_drop; lia).
    rewrite lookup_take_lt, lookup_drop by lia. rewrite <- HCj. f_equal. lia. }
  unfold buf2. destruct (negb la && (negb fl || fa)) eqn:Ec.
  - rewrite lookup_ins by (rewrite length_take, length_drop; lia).
    rewrite length_take, length_drop, HC. case_decide.
    + rewrite lookup_take_lt, lookup_drop by lia. rewrite <- HCj. f_equal. lia.
    + apply H1. lia.
  - destruct (decide (j < p)%nat) as [Hlt|Hge]; [by apply H1|].
    apply andb_false_iff in Ec as [Ec|Ec].
    + apply negb_false_iff in Ec. apply Hla in Ec. lia.
    + apply orb_false_iff in Ec as [Ec1 Ec2]. apply negb_false_iff in Ec1. apply Hfl in Ec1.
      unfold buf1. rewrite Ec2. simpl.
      rewrite lookup_ins, decide_True by (rewrite length_take, length_drop; lia).
      rewrite lookup_take_lt, lookup_drop by lia. rewrite <- HCj. f_equal. lia.
Qed.

(** One of the two reads [WriteAt] does to fill its buffer. *)
Lemma fill_spec (c : bool) f s off buf (d : D) secs hsecs :
  disk_ok d -> file_rep (contents d) (hdr f) secs hsecs -> 0 <= s -> s * 128 + 128 < 2 ^ 31 ->
  0 <= off -> off + 128 <= Z.of_nat (length buf) ->
  exists d',
    (if c then '(_, bs) ← ReadAt f SectorSize (s * SectorSize); lift (splice off bs buf)
     else mret buf) d =
    Ok (if c then ins (Z.to_nat off)
                    (take 128 (drop (Z.to_nat (s * 128)) (file_bytes (contents d) (hdr f) secs))) buf
        else buf, d') /\
    now_holds d' (contents d).
Proof.
  intros Hd Hr Hs Hmax Ho Hb. destruct c; [|by exists d]. change SectorSize with 128.
  destruct (read_at_spec f 128 (s * 128) d secs hsecs) as (d' & Hrun & Hd'); [done|done|lia|lia|].
  exists d'. split; [|done]. rewrite (bind_ok _ _ _ _ _ Hrun).
  apply lift_ok, splice_ok; [done|]. rewrite length_take. lia.
Qed.

Lemma fill_bytes (c : bool) off s (C buf : list Z) :
  Forall is_byte C -> Forall is_byte buf -> 0 <= off /\ off + 128 <= Z.of_nat (length buf) ->
  let buf' := if c then ins (Z.to_nat off) (take 128 (drop (Z.to_nat (s * 128)) C)) buf else buf in
  length buf' = length buf /\ Forall is_byte buf'.
Proof.
  intros HC Hb Ho. destruct c; [|done]. cbn zeta.
  split; [apply length_ins; rewrite length_take; lia|].
  apply Forall_ins; [by apply Forall_take, Forall_drop|done].
Qed.

(** The buffer holds the new bytes and, around them, what the file held. *)
Lemma write_buffer_spec junk f from m p a b (d : D) secs hsecs :
  disk_ok d -> file_rep (contents d) (hdr f) secs hsecs ->
  Forall is_byte from -> (forall k, is_byte (junk k)) ->
  0 <= p -> 0 < m <= Z.of_nat (length from) -> p + m <= numBytes (hdr f) < 2 ^ 31 - 128 ->
  0 <= a * 128 <= p -> p < a * 128 + 128 -> b * 128 < p + m <= b * 128 + 128 ->
  let w := take (Z.to_nat m) from in
  exists buf d', write_buffer junk f from m p a b d = Ok (buf, d') /\ now_holds d' (contents d) /\
    Z.of_nat (length buf) = (1 + b - a) * 128 /\ Forall is_byte buf /\
    take (Z.to_nat (numBytes (hdr f))) (ins (128 * Z.to_nat a) buf (file_data (contents d) secs)) =
      ins (Z.to_nat p) w (file_bytes (contents d) (hdr f) secs).
Proof.
  intros Hd Hr Hfrom Hjunk Hp Hm Hmax Ha Ha' Hb w. pose proof (rep_capacity _ _ _ _ Hr) as Hcap.
  unfold write_buffer. change SectorSize with 128.
  assert (Hlw : Z.of_nat (length w) = m) by (unfold w; rewrite length_take; lia).
  set (buf0 := junk <$> seq 0 _).
  assert (Hb0 : Z.of_nat (length buf0) = (1 + b - a) * 128)
    by (unfold buf0; rewrite length_fmap, length_seq; lia).
  assert (Hbyte0 : Forall is_byte buf0) by (apply Forall_fmap, Forall_true; intros; apply Hjunk).
  clearbody buf0.
  assert (HbyteC : Forall is_byte (file_bytes (contents d) (hdr f) secs)).
  { apply Forall_take, file_data_byte; [auto with nachos|apply Hr]. }
  destruct (fill_spec (negb (p =? a * 128)) f a 0 buf0 d secs hsecs) as (d1 & Hrun1 & Hd1 & Hc1);
    [done|done|lia|lia|lia|lia|].
  change SectorSize with 128 in Hrun1. rewrite (bind_ok _ _ _ _ _ Hrun1). clear Hrun1.
  set (buf1 := if negb (p =? a * 128) then _ else buf0).
  destruct (fill_bytes (negb (p =? a * 128)) 0 a (file_bytes (contents d) (hdr f) secs) buf0)
    as [Hl1 Hb1]; [done|done|lia|]. fold buf1 in Hl1, Hb1.
  destruct (fill_spec (negb (p + m =? (b + 1) * 128) && (negb (a =? b) || (p =? a * 128))) f b
    ((b - a) * 128) buf1 d1 secs hsecs) as (d2 & Hrun2 & Hd2 & Hc2);
    [done|by rewrite Hc1|lia|lia|lia|lia|].
  change SectorSize with 128 in Hrun2. rewrite (bind_ok _ _ _ _ _ Hrun2). clear Hrun2.
  rewrite Hc1 in *.
  set (buf2 := if negb (p + m =? (b + 1) * 128) && (negb (a =? b) || (p =? a * 128)) then _ else buf1).
  destruct (fill_bytes (negb (p + m =? (b + 1) * 128) && (negb (a =? b) || (p =? a * 128)))
    ((b - a) * 128) b (file_bytes (contents d) (hdr f) secs) buf1) as [Hl2 Hb2]; [done|done|lia|].
  fold buf2 in Hl2, Hb2.
  erewrite bind_ok by (apply lift_ok, slice_ok; lia). rewrite drop_0. fold w.
  eexists _, d2. split; [apply lift_ok, splice_ok; lia|]. split; [done|].
  split; [rewrite length_ins; lia|]. split; [apply Forall_ins; [by apply Forall_take|done]|].
  unfold buf2, buf1, file_bytes.
  replace (Z.to_nat (p - a * 128)) with (Z.to_nat p - 128 * Z.to_nat a)%nat by lia.
  replace (Z.to_nat ((b - a) * 128)) with (128 * Z.to_nat b - 128 * Z.to_nat a)%nat by lia.
  replace (Z.to_nat (a * 128)) with (128 * Z.to_nat a)%nat by lia.
  replace (Z.to_nat (b * 128)) with (128 * Z.to_nat b)%nat by lia.
  apply write_window; rewrite ?length_file_data by (apply Hr || auto with nachos); lia.
Qed.

Lemma write_at_spec junk f from n p (d : D) secs hsecs :
  disk_ok d -> file_rep (contents d) (hdr f) secs hsecs ->
  Forall is_byte from -> (forall k, is_byte (junk k)) ->
  0 <= p -> p + n < 2 ^ 31 -> n <= Z.of_nat (length from) ->
  let w := take (Z.to_nat (Z.min n (numBytes (hdr f) - p))) from in
  exists d', WriteAt junk f from n p d = Ok (Z.of_nat (length w), d') /\ disk_ok d' /\
    file_rep (contents d') (hdr f) secs hsecs /\
    file_bytes (contents d') (hdr f) secs = ins (Z.to_nat p) w (file_bytes (contents d) (hdr f) secs) /\
    (forall s, is_sector s -> s ∉ secs -> sector (contents d') s = sector (contents d) s).
Proof.
  intros Hd Hr Hfrom Hjunk Hp Hmax Hn w. pose proof (rep_capacity _ _ _ _ Hr) as Hcap.
  pose proof (rep_size _ _ _ _ Hr) as Hsz. unfold WriteAt, FileLength.
  destruct ((n <=? 0) || (numBytes (hdr f) <=? p)) eqn:Etriv.
  { exists d. assert (w = []) as ->.
    { unfold w. apply orb_true_iff in Etriv as [?|?]; zbool;
        by replace (Z.to_nat (Z.min n (numBytes (hdr f) - p))) with 0%nat by lia. }
    rewrite ins_nil. done. }
  zbool. erewrite bind_ok by (apply lift_ok, int_ok; unfold is_i32; lia).
  set (m := if numBytes (hdr f) <? p + n then _ else _).
  assert (Hm : m = Z.min n (numBytes (hdr f) - p))
    by (unfold m; destruct (Z.ltb_spec (numBytes (hdr f)) (p + n)); lia).
  unfold w. rewrite <- Hm. clearbody m. clear w.
  unfold divRoundDown. change SectorSize with 128. rewrite !Z.quot_div_nonneg by lia.
  set (a := p / 128). set (b := (p + m - 1) / 128).
  pose proof (Z.div_mod p 128 ltac:(lia)) as H1. pose proof (Z.mod_pos_bound p 128 ltac:(lia)) as H2.
  pose proof (Z.div_mod (p + m - 1) 128 ltac:(lia)) as H3.
  pose proof (Z.mod_pos_bound (p + m - 1) 128 ltac:(lia)) as H4. fold a in H1. fold b in H3.
  clearbody a b.
  destruct (write_buffer_spec junk f from m p a b d secs hsecs)
    as (buf & d1 & Hrun1 & [Hd1 Hc1] & Hlen & Hbyte & Hbuf); try done; try lia.
  rewrite (bind_ok _ _ _ _ _ Hrun1).
  destruct (write_sectors_spec (hdr f) (Z.to_nat (1 + b - a)) a a buf d1 secs hsecs)
    as (d2 & Hrun2 & Hd2 & Hdata & Hframe); [done|by rewrite Hc1|done|lia|lia|lia|].
  rewrite Hc1 in *. rewrite (bind_ok _ _ _ _ _ Hrun2). exists d2.
  split; [unfold mret, M_ret; rewrite length_take; do 2 f_equal; lia|]. split; [done|].
  split; [by eapply rep_frame|]. split; [|done].
  unfold file_bytes at 1. by rewrite Hdata, Z.sub_diag, drop_0, Hbuf.
Qed.

(** Overwriting the whole file. *)
Lemma write_whole junk f from (d : D) secs hsecs :
  disk_ok d -> file_rep (contents d) (hdr f) secs hsecs ->
  Forall is_byte from -> (forall k, is_byte (junk k)) -> Z.of_nat (length from) = numBytes (hdr f) ->
  exists d', WriteAt junk f from (numBytes (hdr f)) 0 d = Ok (numBytes (hdr f), d') /\ disk_ok d' /\
    file_rep (contents d') (hdr f) secs hsecs /\ file_bytes (contents d') (hdr f) secs = from /\
    (forall s, is_sector s -> s ∉ secs -> sector (contents d') s = sector (contents d) s).
Proof.
  intros Hd Hr Hfrom Hj Hl. pose proof (rep_size _ _ _ _ Hr).
  pose proof (length_file_bytes (contents d) _ _ _ ltac:(auto with nachos) Hr) as HlC.
  destruct (write_at_spec junk f from (numBytes (hdr f)) 0 d secs hsecs)
    as (d' & Hrun & Hd' & Hr' & Hb' & Hfr); [done|done|done|done|lia|lia|lia|].
  rewrite take_ge in Hrun, Hb' by lia. exists d'. rewrite Hrun, Hl. split_and!; try done.
  rewrite Hb'. unfold ins. change (Z.to_nat 0) with 0%nat. by rewrite take_0, drop_ge, app_nil_r by lia.
Qed.

(** An open file: its header is a file's, and the header's sector is its own. *)
Record open_ok (d : D) (f : OpenFile) (secs hsecs : list Z) : Prop := {
  oo_disk : disk_ok d;
  oo_rep : file_rep (contents d) (hdr f) secs hsecs;
  oo_sector : is_sector (hdrSector f);
  oo_apart : hdrSector f ∉ secs ++ hsecs;
  oo_pos : 0 <= seekPosition f < 2 ^ 31
}.

Lemma rep_hdr img h h' secs hsecs :
  hdr_ok h' -> nextFdrSector h' = nextFdrSector h -> dataSectors h' = dataSectors h ->
  numBytes h' = numBytes h -> file_rep img h secs hsecs -> file_rep img h' secs hsecs.
Proof.
  intros Hh Hn Hd Hb [_ Hc Hs Hnd Hl Hsz]. constructor; try done; rewrite ?Hb; try done.
  by apply (chain_hdr _ h).
Qed.

Lemma rep_update img s bs h secs hsecs :
  is_sector s -> s ∉ secs ++ hsecs -> file_rep img h secs hsecs ->
  file_rep (update s bs img) h secs hsecs /\ file_data (update s bs img) secs = file_data img secs.
Proof.
  intros Hs Hnin Hr. pose proof (fr_secs _ _ _ _ Hr) as Hss.
  pose proof (chain_hsecs _ _ _ _ (fr_chain _ _ _ _ Hr)) as Hhs. rewrite Forall_forall in Hss, Hhs.
  split.
  - destruct Hr as [Hh Hc Hsec Hnd Hl Hsz]. constructor; try done. apply (chain_frame img); [|done].
    intros t Ht. apply sector_update_ne; [done|by apply Hhs|set_solver].
  - apply file_data_frame. intros t Ht. apply sector_update_ne; [done|by apply Hss|set_solver].
Qed.

(** Writing a header with the same pointers back keeps the file open. *)
Lemma write_header_back (d : D) f h' pos secs hsecs :
  open_ok d f secs hsecs -> hdr_ok h' -> nextFdrSector h' = nextFdrSector (hdr f) ->
  dataSectors h' = dataSectors (hdr f) -> numBytes h' = numBytes (hdr f) -> 0 <= pos < 2 ^ 31 ->
  exists d', WriteBack h' (hdrSector f) d = Ok (tt, d') /\
    open_ok d' (MkOpen h' pos (hdrSector f)) secs hsecs /\
    hdr_at (contents d') (hdrSector f) = h' /\
    file_bytes (contents d') h' secs = file_bytes (contents d) (hdr f) secs /\
    (forall s, is_sector s -> s <> hdrSector f -> sector (contents d') s = sector (contents d) s).
Proof.
  intros [Hd Hr Hs Hnin _] Hh Hn Hda Hnb Hpos.
  destruct (write_back_spec d h' (hdrSector f) Hd Hs Hh) as (d' & Hrun & Hd' & Hc').
  destruct (rep_update (contents d) (hdrSector f) (hdr_bytes h') (hdr f) secs hsecs Hs Hnin Hr)
    as [Hr' Hdata].
  exists d'. split; [done|]. split; [|split; [|split]].
  - constructor; simpl; try done. rewrite Hc'. by apply (rep_hdr _ (hdr f)).
  - rewrite Hc'. apply hdr_at_update_eq; auto with nachos.
  - unfold file_bytes. by rewrite Hc', Hdata, Hnb.
  - intros s Hss Hne. rewrite Hc'. by apply sector_update_ne.
Qed.

Lemma read_advances_full now f n (d : D) secs hsecs :
  open_ok d f secs hsecs -> is_i32 now -> seekPosition f + n < 2 ^ 31 ->
  let C := file_bytes (contents d) (hdr f) secs in
  exists f' r d', Read now f n d = Ok ((f', (Z.of_nat (length r), r)), d') /\
    r = take (Z.to_nat n) (drop (Z.to_nat (seekPosition f)) C) /\
    seekPosition f' = seekPosition f + Z.of_nat (length r) /\
    hdr f' = set_access now (hdr f) /\ hdr_at (contents d') (hdrSector f) = hdr f' /\
    (open_ok d' f' secs hsecs /\ file_bytes (contents d') (hdr f') secs = C) /\ hdrSector f' = hdrSector f /\
    (forall s, is_sector s -> s <> hdrSector f -> sector (contents d') s = sector (contents d) s).
Proof.
  intros Ho Hnow Hmax C. pose proof Ho as [Hd Hr Hs Hnin Hpos].
  pose proof (length_file_bytes (contents d) _ _ _ ltac:(auto with nachos) Hr) as HlC.
  pose proof (rep_size _ _ _ _ Hr) as Hsz. pose proof (fr_hdr _ _ _ _ Hr) as Hh. fold C in HlC.
  destruct (read_at_spec f n (seekPosition f) d secs hsecs) as (d1 & Hrun1 & Hd1 & Hc1); [done|done|lia|done|].
  fold C in Hrun1. set (r := take _ _) in Hrun1.
  assert (Hlr : seekPosition f + Z.of_nat (length r) < 2 ^ 31)
    by (unfold r; rewrite length_take, length_drop; lia).
  destruct (write_header_back d1 f (set_access now (hdr f)) (seekPosition f + Z.of_nat (length r))
    secs hsecs) as (d2 & Hrun2 & Ho2 & Hat & Hb & Hfr);
    [by constructor; rewrite ?Hc1|auto with nachos|done|done|done|lia|].
  exists (MkOpen (set_access now (hdr f)) (seekPosition f + Z.of_nat (length r)) (hdrSector f)), r, d2.
  cbn [hdr seekPosition]. split; [|rewrite Hb; rewrite Hc1 in *; by split_and!].
  unfold Read. rewrite (bind_ok _ _ _ _ _ Hrun1).
  erewrite bind_ok by (apply lift_ok, int_ok; unfold is_i32; lia).
  by rewrite (bind_ok _ _ _ _ _ Hrun2).
Qed.

Lemma read_advances now f n (d : D) secs hsecs :
  open_ok d f secs hsecs -> is_i32 now -> seekPosition f + n < 2 ^ 31 ->
  let C := file_bytes (contents d) (hdr f) secs in
  exists f' r d', Read now f n d = Ok ((f', (Z.of_nat (length r), r)), d') /\
    r = take (Z.to_nat n) (drop (Z.to_nat (seekPosition f)) C) /\
    seekPosition f' = seekPosition f + Z.of_nat (length r) /\
    hdr f' = set_access now (hdr f) /\ hdr_at (contents d') (hdrSector f) = hdr f' /\
    open_ok d' f' secs hsecs /\ file_bytes (contents d') (hdr f') secs = C.
Proof.
  intros Ho Hnow Hmax C. destruct (read_advances_full now f n d secs hsecs Ho Hnow Hmax)
    as (f' & r & d' & H1 & H2 & H3 & H4 & H5 & [H6 H7] & _). by exists f', r, d'.
Qed.

Lemma write_advances_full junk now f from n (d : D) secs hsecs :
  open_ok d f secs hsecs -> is_i32 now -> seekPosition f + n < 2 ^ 31 ->
  Forall is_byte from -> (forall k, is_byte (junk k)) -> n <= Z.of_nat (length from) ->
  let C := file_bytes (contents d) (hdr f) secs in
  exists f' w d', Write junk now f from n d = Ok ((f', Z.of_nat (length w)), d') /\
    w = take (Z.to_nat (Z.min n (Length f - seekPosition f))) from /\
    seekPosition f' = seekPosition f + Z.of_nat (length w) /\
    hdr_at (contents d') (hdrSector f) = hdr f' /\ lastWriteTime (hdr f') = now /\
    createTime (hdr f') = createTime (hdr f) /\
    (open_ok d' f' secs hsecs /\
     file_bytes (contents d') (hdr f') secs = ins (Z.to_nat (seekPosition f)) w C) /\ hdrSector f' = hdrSector f /\
    (forall s, is_sector s -> s <> hdrSector f -> s ∉ secs -> sector (contents d') s = sector (contents d) s) /\
    nextFdrSector (hdr f') = nextFdrSector (hdr f) /\ dataSectors (hdr f') = dataSectors (hdr f) /\
    numBytes (hdr f') = numBytes (hdr f).
Proof.
  intros Ho Hnow Hmax Hfrom Hjunk Hn C. pose proof Ho as [Hd Hr Hs Hnin Hpos].
  pose proof (rep_size _ _ _ _ Hr) as Hsz. pose proof (fr_hdr _ _ _ _ Hr) as Hh.
  destruct (write_at_spec junk f from n (seekPosition f) d secs hsecs)
    as (d1 & Hrun1 & Hd1 & Hr1 & Hb1 & Hfr1); [done|done|done|done|lia|done|done|].
  fold C in Hb1. set (w := take _ _) in Hrun1, Hb1.
  assert (Hlw : seekPosition f + Z.of_nat (length w) < 2 ^ 31) by (unfold w; rewrite length_take; lia).
  set (h := set_created (createTime (hdr f)) now (set_access now (hdr f))).
  assert (hdr_ok h) by (apply set_created_ok; [apply hdr_ok_elim, Hh|done|auto with nachos]).
  destruct (write_header_back d1 f h (seekPosition f + Z.of_nat (length w))
    secs hsecs) as (d2 & Hrun2 & Ho2 & Hat & Hb & Hfr2); [by constructor|done|done|done|done|lia|].
  exists (MkOpen h (seekPosition f + Z.of_nat (length w)) (hdrSector f)), w, d2.
  cbn [hdr seekPosition]. split; [|rewrite Hb, Hb1; split_and!; try done; intros s H1 H2 H3; by rewrite Hfr2, Hfr1].
  unfold Write. rewrite (bind_ok _ _ _ _ _ Hrun1).
  erewrite bind_ok by (apply lift_ok, int_ok; unfold is_i32; lia).
  by rewrite (bind_ok _ _ _ _ _ Hrun2).
Qed.

Lemma write_advances junk now f from n (d : D) secs hsecs :
  open_ok d f secs hsecs -> is_i32 now -> seekPosition f + n < 2 ^ 31 ->
  Forall is_byte from -> (forall k, is_byte (junk k)) -> n <= Z.of_nat (length from) ->
  let C := file_bytes (contents d) (hdr f) secs in
  exists f' w d', Write junk now f from n d = Ok ((f', Z.of_nat (length w)), d') /\
    w = take (Z.to_nat (Z.min n (Length f - seekPosition f))) from /\
    seekPosition f' = seekPosition f + Z.of_nat (length w) /\
    hdr_at (contents d') (hdrSector f) = hdr f' /\ lastWriteTime (hdr f') = now /\
    createTime (hdr f') = createTime (hdr f) /\
    open_ok d' f' secs hsecs /\
    file_bytes (contents d') (hdr f') secs = ins (Z.to_nat (seekPosition f)) w C.
Proof.
  intros Ho Hnow Hmax Hfrom Hjunk Hn C. destruct (write_advances_full junk now f from n d secs hsecs Ho Hnow Hmax Hfrom Hjunk Hn)
    as (f' & w & d' & H1 & H2 & H3 & H4 & H5 & H6 & [H7 H8] & _). by exists f', w, d'.
Qed.

(** ** Properties *)

(** [OpenFile::ReadAt] of [n] bytes at [p] on an open file returns the bytes
    of the file from [p] on, [n] of them or as many as there are before the end of
    the file (none when [n <= 0] or [p] is past the end), whatever their alignment
    to sectors, and leaves the disk's contents unchanged. *)
Lemma read_at_correct (f : OpenFile) (n p : Z) (d : D) (secs hsecs : list Z) :
  disk_ok d -> file_rep (contents d) (hdr f) secs hsecs -> 0 <= p -> p + n < 2 ^ 31 ->
  exists r d', ReadAt f n p d = Ok ((Z.of_nat (length r), r), d') /\
    now_holds d' (contents d) /\
    r = take (Z.to_nat n) (drop (Z.to_nat p) (file_bytes (contents d) (hdr f) secs)) /\
    Z.of_nat (length r) = Z.max 0 (Z.min n (Length f - p)).
Proof.
  intros Hd Hr Hp Hmax. destruct (read_at_spec f n p d secs hsecs Hd Hr Hp Hmax) as (d' & Hrun & Hd').
  eexists _, d'. split; [exact Hrun|]. split; [done|]. split; [done|].
  pose proof (length_file_bytes (contents d) _ _ _ ltac:(auto with nachos) Hr).
  unfold Length, FileLength. rewrite length_take, length_drop. lia.
Qed.

(** Read after write: [WriteAt] of [n] bytes at [p] returns how many fitted
    before the end of the file; the file then holds the old bytes with those
    replaced, so that [ReadAt] at [p] returns what was written; the headers of the
    file and every sector of any other file are as they were. *)
Lemma write_at_then_read_at (junk : nat -> Z) (f : OpenFile) (from : list Z) (n p : Z)
    (d : D) (secs hsecs : list Z) :
  disk_ok d -> file_rep (contents d) (hdr f) secs hsecs ->
  Forall is_byte from -> (forall k, is_byte (junk k)) ->
  0 <= p < 2 ^ 31 -> p + n < 2 ^ 31 -> n <= Z.of_nat (length from) ->
  let w := take (Z.to_nat (Z.min n (Length f - p))) from in
  exists d' d'', WriteAt junk f from n p d = Ok (Z.of_nat (length w), d') /\
    file_rep (contents d') (hdr f) secs hsecs /\
    file_bytes (contents d') (hdr f) secs =
      ins (Z.to_nat p) w (file_bytes (contents d) (hdr f) secs) /\
    ReadAt f (Z.of_nat (length w)) p d' = Ok ((Z.of_nat (length w), w), d'') /\
    (forall s, is_sector s -> s ∉ secs -> sector (contents d'') s = sector (contents d) s).
Proof.
  intros Hd Hr Hfrom Hjunk Hp Hmax Hn w.
  destruct (write_at_spec junk f from n p d secs hsecs Hd Hr Hfrom Hjunk (proj1 Hp) Hmax Hn)
    as (d' & Hrun & Hd' & Hr' & Hbytes & Hframe). fold (FileLength (hdr f)) (Length f) w in Hrun, Hbytes.
  pose proof (length_file_bytes (contents d) _ _ _ ltac:(auto with nachos) Hr) as HlC.
  pose proof (rep_size _ _ _ _ Hr) as Hsz.
  assert (Hlw : Z.of_nat (length w) <= Z.max 0 (Z.min n (Length f - p)))
    by (unfold w; rewrite length_take; lia).
  destruct (read_at_spec f (Z.of_nat (length w)) p d' secs hsecs) as (d'' & Hread & Hd'' & Hc'');
    [done|done|lia|lia|].
  exists d', d''. rewrite Hc''. split_and!; try done. rewrite Hread, Hbytes, Nat2Z.id.
  unfold Length, FileLength in Hlw.
  replace (take (length w) (drop (Z.to_nat p) _)) with w; [done|].
  destruct (decide (length w = 0)%nat) as [E|E].
  { destruct w; [done|discriminate E]. }
  unfold ins. rewrite drop_app_length' by (rewrite length_take; lia). by rewrite take_app_length.
Qed.

End OpenFileFacts.
