(* ===== verification/Directory.v ===== *)
(** * [filesys/directory.cc]: directories

    A directory is a table of entries; an entry names its file by a [char *], so
    what a name means depends on the strings the host's memory holds when the
    table is searched.  [dir_map] is the abstract directory, a finite map from
    names to header sectors, and the theorems show that the operations act on it
    as a map as long as the pointers stay valid. *)

From S2P Require Import Prelude BitMap Sectors FileHdr OpenFile.

(** [class DirectoryEntry], 16 bytes: [inUse] and its padding, [sector], [type]
    and its padding, the pointer [name]. *)
Record DirectoryEntry : Type := MkEntry {
  inUse : Z; inUse_pad : Z; sector_no : Z; type : Z; type_pad : Z; name : Z
}.
Definition EntrySize : Z := 16.

#[export] Instance entry_eq_dec : EqDecision DirectoryEntry.
Proof. solve_decision. Defined.

(** The strings in the host's memory, by address. *)
Definition strings : Type := Z -> option string.

(** [!strcmp(a, b)]. *)
Definition same_string (mem : strings) (a b : Z) : res bool :=
  match mem a, mem b with
  | Some x, Some y => Ok (bool_decide (x = y))
  | _, _ => Stop Undefined
  end.

Definition in_use (e : DirectoryEntry) : bool := negb (inUse e =? 0).
Definition set_in_use (v : Z) (e : DirectoryEntry) : DirectoryEntry :=
  MkEntry v (inUse_pad e) (sector_no e) (type e) (type_pad e) (name e).

(** [Directory::Directory]: [garbage] is what [new DirectoryEntry[size]] holds. *)
Definition new_directory (garbage : list DirectoryEntry) : list DirectoryEntry :=
  set_in_use 0 <$> garbage.

(** [Directory::FindIndex], from entry [i] on. *)
Fixpoint find_index_from (mem : strings) (i : Z) (table : list DirectoryEntry) (n : Z) : res Z :=
  match table with
  | [] => Ok (-1)
  | e :: table =>
      if in_use e then
        match same_string mem (name e) n with
        | Ok true => Ok i
        | Ok false => find_index_from mem (i + 1) table n
        | Stop w => Stop w
        end
      else find_index_from mem (i + 1) table n
  end.
Definition FindIndex (mem : strings) (table : list DirectoryEntry) (n : Z) : res Z :=
  find_index_from mem 0 table n.

(** [Directory::Find]. *)
Definition Find (mem : strings) (table : list DirectoryEntry) (n : Z) : res Z :=
  i ← FindIndex mem table n;
  if negb (i =? -1) then e ← aget table i; mret (sector_no e) else mret (-1).

(** The loop of [Directory::Add]: fill the first entry not in use. *)
Fixpoint add_from (table : list DirectoryEntry) (n newSector : Z)
    : option (list DirectoryEntry) :=
  match table with
  | [] => None
  | e :: table =>
      if negb (in_use e) then
        Some (MkEntry 1 (inUse_pad e) newSector 70 (type_pad e) n :: table)
      else (e ::.) <$> add_from table n newSector
  end.

(** [Directory::Add]. *)
Definition Add (mem : strings) (table : list DirectoryEntry) (n newSector : Z)
    : res (bool * list DirectoryEntry) :=
  i ← FindIndex mem table n;
  if negb (i =? -1) then mret (false, table)
  else match add_from table n newSector with
       | Some table' => mret (true, table')
       | None => mret (false, table)
       end.

(** [Directory::Remove]. *)
Definition Remove (mem : strings) (table : list DirectoryEntry) (n : Z)
    : res (bool * list DirectoryEntry) :=
  i ← FindIndex mem table n;
  if i =? -1 then mret (false, table)
  else
    e ← aget table i;
    table' ← aset table i (set_in_use 0 e);
    mret (true, table').

(** [Directory::List]: the names it prints. *)
Fixpoint List (mem : strings) (table : list DirectoryEntry) : res (list string) :=
  match table with
  | [] => Ok []
  | e :: table =>
      if in_use e then
        match mem (name e) with
        | Some s => r ← List mem table; mret (s :: r)
        | None => Stop Undefined
        end
      else List mem table
  end.

(** The table as the bytes it occupies. *)
Definition entry_words (e : DirectoryEntry) : list Z :=
  [inUse e + 256 * inUse_pad e; u32 (sector_no e); type e + 256 * type_pad e; name e].
Definition table_bytes (table : list DirectoryEntry) : list Z :=
  map_bytes (table ≫= entry_words).
Definition entry_of_words (w0 w1 w2 w3 : Z) : DirectoryEntry :=
  MkEntry (w0 mod 256) (w0 / 256) (i32 w1) (w2 mod 256) (w2 / 256) w3.
Fixpoint table_of_words (n : nat) (ws : list Z) : list DirectoryEntry :=
  match n, ws with
  | S n, w0 :: w1 :: w2 :: w3 :: ws => entry_of_words w0 w1 w2 w3 :: table_of_words n ws
  | _, _ => []
  end.
Definition table_of_bytes (n : nat) (bs : list Z) : list DirectoryEntry :=
  table_of_words n (map_of_bytes (4 * n) bs).

Section Directory.
Context {D : Type} `{!SectorDisk D}.

(** [Directory::FetchFrom]. *)
Definition FetchFrom (table : list DirectoryEntry) (f : OpenFile) : M D (list DirectoryEntry) :=
  '(_, bs) ← ReadAt f (Z.of_nat (length table) * EntrySize) 0;
  bytes ← lift (splice 0 bs (table_bytes table));
  mret (table_of_bytes (length table) bytes).

(** [Directory::WriteBack]. *)
Definition WriteBack (junk : nat -> Z) (table : list DirectoryEntry) (f : OpenFile) : M D unit :=
  _ ← WriteAt junk f (table_bytes table) (Z.of_nat (length table) * EntrySize) 0;
  mret tt.

(** [Directory::Print]: for each entry in use its name, its header's sector and
    what [FileHeader::Print] prints. *)
Fixpoint Print (mem : strings) (table : list DirectoryEntry)
    : M D (list (string * Z * (list Z * list Z))) :=
  match table with
  | [] => mret []
  | e :: table =>
      if in_use e then
        s ← lift (match mem (name e) with Some s => Ok s | None => Stop Undefined end);
        h ← FileHdr.FetchFrom (sector_no e);
        p ← FileHdr.Print h;
        r ← Print mem table;
        mret ((s, sector_no e, p) :: r)
      else Print mem table
  end.

End Directory.

(** ** Tables as bytes *)

Definition entry_ok (e : DirectoryEntry) : Prop :=
  is_byte (inUse e) /\ 0 <= inUse_pad e < 2 ^ 24 /\ is_i32 (sector_no e) /\
  is_byte (type e) /\ 0 <= type_pad e < 2 ^ 24 /\ is_u32 (name e).

Lemma entry_words_u32 e : entry_ok e -> Forall is_u32 (entry_words e).
Proof.
  unfold entry_ok, is_byte, is_i32. intros (?&?&?&?&?&?). unfold entry_words.
  pose proof (u32_range (sector_no e)). unfold is_u32 in *.
  rewrite !Forall_cons, Forall_nil. lia.
Qed.

Lemma table_words_roundtrip table :
  Forall entry_ok table -> table_of_words (length table) (table ≫= entry_words) = table.
Proof.
  induction 1 as [|e table He _ IH]; [done|]. simpl. f_equal; [|done].
  destruct e as [u up s t tp nm]. unfold entry_ok, is_byte in He. simpl in He.
  destruct He as (Hu&Hup&Hs&Ht&Htp&Hn). unfold entry_of_words. simpl.
  rewrite !(Z.mul_comm 256), !Z.mod_add, !Z.div_add, !Z.mod_small, !Z.div_small by lia.
  by rewrite i32_u32, i32_id.
Qed.

Lemma length_table_words table : length (table ≫= entry_words) = (4 * length table)%nat.
Proof.
  induction table as [|e t IH]; [done|].
  change ((e :: t) ≫= entry_words) with (entry_words e ++ (t ≫= entry_words)).
  rewrite length_app, IH. cbn [length entry_words]. lia.
Qed.

Lemma length_table_bytes table : length (table_bytes table) = (16 * length table)%nat.
Proof. unfold table_bytes. rewrite length_map_bytes, length_table_words. lia. Qed.

(** The bytes [WriteBack] writes decode, in [FetchFrom], to the table. *)
Lemma table_bytes_roundtrip table :
  Forall entry_ok table -> table_of_bytes (length table) (table_bytes table) = table.
Proof.
  intros Ht. unfold table_of_bytes, table_bytes.
  rewrite <- length_table_words, <- (app_nil_r (map_bytes _)), map_bytes_roundtrip.
  - by apply table_words_roundtrip.
  - apply Forall_bind. eapply Forall_impl; [exact Ht|]. apply entry_words_u32.
Qed.

(** ** The directory as a finite map *)

(** The names and sectors of the entries in use. *)
Definition used (mem : strings) (table : list DirectoryEntry) : list (string * Z) :=
  omap (fun e => if in_use e then (fun s => (s, sector_no e)) <$> mem (name e) else None) table.
Definition dir_map (mem : strings) (table : list DirectoryEntry) : gmap string Z :=
  list_to_map (used mem table).

(** The pointers of the entries in use are valid and name different files. *)
Definition dir_ok (mem : strings) (table : list DirectoryEntry) : Prop :=
  Forall (fun e => in_use e = true -> is_Some (mem (name e))) table /\
  NoDup (used mem table).*1.

Lemma used_app mem t1 t2 : used mem (t1 ++ t2) = used mem t1 ++ used mem t2.
Proof. apply omap_app. Qed.

Lemma used_cons mem e t s :
  mem (name e) = Some s ->
  used mem (e :: t) = (if in_use e then [(s, sector_no e)] else []) ++ used mem t.
Proof. intros Hs. unfold used. simpl. destruct (in_use e); [|done]. by rewrite Hs. Qed.

Lemma used_cons_free mem e t : in_use e = false -> used mem (e :: t) = used mem t.
Proof. intros He. unfold used. simpl. by rewrite He. Qed.

(** A search finds an entry in use with the name, or there is none. *)
Lemma find_index_spec mem i table n s :
  Forall (fun e => in_use e = true -> is_Some (mem (name e))) table -> mem n = Some s -> 0 <= i ->
  (~ (s ∈ (used mem table).*1) /\ find_index_from mem i table n = Ok (-1)) \/
  (exists pre e post, table = pre ++ e :: post /\ in_use e = true /\ mem (name e) = Some s /\
     find_index_from mem i table n = Ok (i + Z.of_nat (length pre))).
Proof.
  intros Hv Hn. revert i. induction Hv as [|e table He _ IH]; intros i Hi.
  { left. split; [apply not_elem_of_nil|done]. }
  destruct (in_use e) eqn:Hu; cbn [find_index_from]; rewrite Hu.
  - destruct (He eq_refl) as [x Hx]. unfold same_string. rewrite Hx, Hn.
    destruct (decide (x = s)) as [->|Hne].
    + right. exists [], e, table. rewrite bool_decide_true by done. split_and!; try done.
      by rewrite Z.add_0_r.
    + rewrite bool_decide_false by done.
      destruct (IH (i + 1) ltac:(lia)) as [[Hnin Hf]|(pre & e' & post & -> & Hu' & He' & Hf)].
      * left. split; [|done]. rewrite (used_cons _ _ _ x Hx), Hu. simpl. set_solver.
      * right. exists (e :: pre), e', post. rewrite Hf. split_and!; try done. f_equal. simpl. lia.
  - destruct (IH (i + 1) ltac:(lia)) as [[Hnin Hf]|(pre & e' & post & -> & Hu' & He' & Hf)].
    + left. by rewrite used_cons_free.
    + right. exists (e :: pre), e', post. rewrite Hf. split_and!; try done. f_equal. simpl. lia.
Qed.

Lemma used_middle mem pre e post s :
  in_use e = true -> mem (name e) = Some s ->
  used mem (pre ++ e :: post) = used mem pre ++ (s, sector_no e) :: used mem post.
Proof. intros Hu Hs. by rewrite used_app, (used_cons _ _ _ _ Hs), Hu. Qed.

Lemma dir_map_None mem table s : s ∉ (used mem table).*1 -> dir_map mem table !! s = None.
Proof. apply not_elem_of_list_to_map_1. Qed.

Lemma dir_map_middle mem pre e post s :
  dir_ok mem (pre ++ e :: post) -> in_use e = true -> mem (name e) = Some s ->
  dir_map mem (pre ++ e :: post) = <[s := sector_no e]> (dir_map mem (pre ++ post)) /\
  dir_map mem (pre ++ post) !! s = None /\ dir_ok mem (pre ++ post).
Proof.
  intros [Hv Hnd] Hu Hs. rewrite (used_middle _ _ _ _ _ Hu Hs) in Hnd.
  assert (Hp : used mem pre ++ (s, sector_no e) :: used mem post ≡ₚ
               (s, sector_no e) :: used mem (pre ++ post)).
  { rewrite used_app. symmetry. apply Permutation_middle. }
  rewrite Hp in Hnd. simpl in Hnd. apply NoDup_cons in Hnd as [Hnin Hnd].
  split_and!; [|by apply dir_map_None|].
  - unfold dir_map. rewrite (used_middle _ _ _ _ _ Hu Hs).
    rewrite <- list_to_map_cons. apply list_to_map_proper; [|done].
    rewrite Hp. simpl. by constructor.
  - split; [|done]. apply Forall_app in Hv as [Hv1 Hv2]. apply Forall_cons in Hv2 as [_ Hv2].
    by apply Forall_app.
Qed.

Lemma dir_find_spec mem table n s :
  dir_ok mem table -> mem n = Some s ->
  Find mem table n = Ok (default (-1) (dir_map mem table !! s)).
Proof.
  intros Hok Hn. unfold Find, FindIndex.
  destruct (find_index_spec mem 0 table n s (proj1 Hok) Hn ltac:(done))
    as [[Hnin ->]|(pre & e & post & -> & Hu & He & ->)].
  - by rewrite dir_map_None.
  - destruct (dir_map_middle _ _ _ _ _ Hok Hu He) as (-> & _). rewrite lookup_insert_eq.
    cbn [mbind res_bind]. rewrite Z.add_0_l, (proj2 (Z.eqb_neq _ _)) by lia. simpl.
    rewrite (proj2 (aget_Some _ _ e)); [done|]. rewrite Nat2Z.id. split; [lia|].
    by rewrite list_lookup_middle.
Qed.

Lemma add_from_spec table n k :
  match add_from table n k with
  | None => Forall (fun e => in_use e = true) table
  | Some table' => exists pre e post, table = pre ++ e :: post /\ in_use e = false /\
      table' = pre ++ MkEntry 1 (inUse_pad e) k 70 (type_pad e) n :: post
  end.
Proof.
  induction table as [|e table IH]; simpl; [done|]. destruct (in_use e) eqn:Hu; simpl.
  - destruct (add_from table n k); simpl.
    + destruct IH as (pre & e' & post & -> & ? & ->). by exists (e :: pre), e', post.
    + by constructor.
  - by exists [], e, table.
Qed.

(** [Add] when the name is new and there is room. *)
Lemma add_spec mem table n k s table' :
  dir_ok mem table -> mem n = Some s -> dir_map mem table !! s = None ->
  add_from table n k = Some table' ->
  Add mem table n k = Ok (true, table') /\ dir_ok mem table' /\
  dir_map mem table' = <[s := k]> (dir_map mem table).
Proof.
  intros Hok Hn Hnone Hadd. pose proof (add_from_spec table n k) as Hspec. rewrite Hadd in Hspec.
  destruct Hspec as (pre & e & post & -> & Hfree & ->).
  set (new := MkEntry 1 (inUse_pad e) k 70 (type_pad e) n) in *.
  destruct Hok as [Hv Hnd].
  assert (Hused : used mem (pre ++ e :: post) = used mem (pre ++ post)).
  { by rewrite !used_app, used_cons_free. }
  assert (Hp : used mem (pre ++ new :: post) ≡ₚ (s, k) :: used mem (pre ++ post)).
  { rewrite (used_middle _ _ new _ s) by done. rewrite used_app. symmetry. apply Permutation_middle. }
  assert (Hnin : s ∉ (used mem (pre ++ post)).*1).
  { rewrite <- Hused. by apply not_elem_of_list_to_map_2. }
  rewrite Hused in Hnd. split_and!.
  - unfold Add, FindIndex.
    destruct (find_index_spec mem 0 (pre ++ e :: post) n s Hv Hn ltac:(done))
      as [[_ ->]|(pre' & e' & post' & Heq & Hu & He & _)].
    + cbn [mbind res_bind]. simpl. by rewrite Hadd.
    + exfalso. apply Hnin. rewrite <- Hused, Heq, (used_middle _ _ _ _ _ Hu He), fmap_app. set_solver.
  - split.
    + apply Forall_app in Hv as [Hv1 Hv2]. apply Forall_cons in Hv2 as [_ Hv2].
      apply Forall_app. split; [done|]. constructor; [by intros _; exists s|done].
    + rewrite Hp. simpl. by apply NoDup_cons.
  - unfold dir_map. rewrite Hused, <- list_to_map_cons. apply list_to_map_proper; [|done].
    rewrite Hp. by apply NoDup_cons.
Qed.

Lemma add_existing mem table n k s :
  dir_ok mem table -> mem n = Some s -> is_Some (dir_map mem table !! s) ->
  Add mem table n k = Ok (false, table).
Proof.
  intros [Hv _] Hn [x Hx]. unfold Add, FindIndex.
  destruct (find_index_spec mem 0 table n s Hv Hn ltac:(done))
    as [[Hnin _]|(pre & e & post & _ & _ & _ & ->)].
  - by rewrite dir_map_None in Hx.
  - cbn [mbind res_bind]. by rewrite Z.add_0_l, (proj2 (Z.eqb_neq _ _)) by lia.
Qed.

Lemma add_full mem table n k s :
  dir_ok mem table -> mem n = Some s -> Forall (fun e => in_use e = true) table ->
  Add mem table n k = Ok (false, table).
Proof.
  intros [Hv _] Hn Hall. unfold Add, FindIndex.
  pose proof (add_from_spec table n k) as Hspec.
  destruct (find_index_spec mem 0 table n s Hv Hn ltac:(done))
    as [[_ ->]|(pre & e & post & _ & _ & _ & ->)]; cbn [mbind res_bind].
  - destruct (add_from table n k); [|done]. destruct Hspec as (pre & e & post & -> & Hf & _).
    apply Forall_app in Hall as [_ Hall]. apply Forall_cons in Hall as [Hu _]. congruence.
  - by rewrite Z.add_0_l, (proj2 (Z.eqb_neq _ _)) by lia.
Qed.

Lemma remove_spec mem table n s :
  dir_ok mem table -> mem n = Some s ->
  exists table', Remove mem table n = Ok (bool_decide (is_Some (dir_map mem table !! s)), table') /\
    length table' = length table /\ dir_ok mem table' /\
    dir_map mem table' = delete s (dir_map mem table).
Proof.
  intros Hok Hn. unfold Remove, FindIndex.
  destruct (find_index_spec mem 0 table n s (proj1 Hok) Hn ltac:(done))
    as [[Hnin ->]|(pre & e & post & -> & Hu & He & ->)]; cbn [mbind res_bind].
  - exists table. rewrite bool_decide_false by (rewrite dir_map_None by done; by intros [? ?]).
    by rewrite delete_id by (by apply dir_map_None).
  - destruct (dir_map_middle _ _ _ _ _ Hok Hu He) as (Hm & Hnone & Hok').
    exists (pre ++ set_in_use 0 e :: post).
    assert (Hused : used mem (pre ++ set_in_use 0 e :: post) = used mem (pre ++ post)).
    { by rewrite !used_app, used_cons_free. }
    rewrite Z.add_0_l, (proj2 (Z.eqb_neq _ _)) by lia.
    rewrite (proj2 (aget_Some _ _ e)) by (rewrite Nat2Z.id, list_lookup_middle by done; split; [lia|done]).
    cbn [mbind res_bind]. rewrite aset_ok by (rewrite length_app; simpl; lia). rewrite Nat2Z.id.
    rewrite bool_decide_true by (rewrite Hm, lookup_insert_eq; eauto).
    split; [rewrite <- (Nat.add_0_r (length pre)), insert_app_r; done|]. split; [by rewrite !length_app|]. split.
    + destruct Hok' as [Hv Hnd]. split; [|by rewrite Hused].
      apply Forall_app in Hv as [Hv1 Hv2]. apply Forall_app. split; [done|]. by constructor.
    + unfold dir_map at 1. rewrite Hused, Hm. fold (dir_map mem (pre ++ post)).
      by rewrite delete_insert_id.
Qed.

Lemma dir_list_spec mem table :
  dir_ok mem table -> List mem table = Ok (used mem table).*1.
Proof.
  intros [Hv _]. induction Hv as [|e table He _ IH]; [done|]. cbn [List].
  destruct (in_use e) eqn:Hu.
  - destruct (He eq_refl) as [s Hs]. by rewrite Hs, IH, (used_cons _ _ _ _ Hs), Hu.
  - by rewrite IH, used_cons_free.
Qed.

Section DirectoryFacts.
Context {D : Type} `{!SectorDisk D} `{!SectorDiskLaws D}.

(** The file [f] holds exactly the table [t]. *)
Record table_file (img : image) (f : OpenFile) (secs hsecs : list Z)
    (t : list DirectoryEntry) : Prop := {
  tf_rep : file_rep img (hdr f) secs hsecs;
  tf_size : numBytes (hdr f) = 16 * Z.of_nat (length t);
  tf_bytes : file_bytes img (hdr f) secs = table_bytes t;
  tf_ok : Forall entry_ok t
}.

Lemma fetch_table_spec (d : D) f secs hsecs t t0 :
  disk_ok d -> table_file (contents d) f secs hsecs t -> length t0 = length t ->
  exists d', FetchFrom t0 f d = Ok (t, d') /\ now_holds d' (contents d).
Proof.
  intros Hd [Hr Hsz Hb Hok] Hl. pose proof (rep_size _ _ _ _ Hr). unfold FetchFrom, EntrySize. rewrite Hl.
  destruct (read_at_spec f (Z.of_nat (length t) * 16) 0 d secs hsecs) as (d' & Hrun & Hd');
    [done|done|lia|lia|].
  exists d'. split; [|done]. rewrite (bind_ok _ _ _ _ _ Hrun), Hb, drop_0.
  pose proof (length_table_bytes t). pose proof (length_table_bytes t0).
  rewrite take_ge by lia.
  erewrite bind_ok by (apply lift_ok, splice_ok; lia).
  unfold ins. rewrite take_0, drop_ge, app_nil_r by lia. simpl app.
  by rewrite table_bytes_roundtrip.
Qed.

Lemma write_table_spec junk (d : D) f secs hsecs t :
  disk_ok d -> file_rep (contents d) (hdr f) secs hsecs ->
  numBytes (hdr f) = 16 * Z.of_nat (length t) ->
  Forall entry_ok t -> (forall k, is_byte (junk k)) ->
  exists d', WriteBack junk t f d = Ok (tt, d') /\ disk_ok d' /\
    table_file (contents d') f secs hsecs t /\
    (forall s, is_sector s -> s ∉ secs -> sector (contents d') s = sector (contents d) s).
Proof.
  intros Hd Hr Hsz Hok Hj. pose proof (length_table_bytes t).
  destruct (write_whole junk f (table_bytes t) d secs hsecs)
    as (d' & Hrun & Hd' & Hr' & Hb' & Hfr); [done|done|apply map_bytes_byte|done|lia|].
  exists d'. split; [|split; [done|split; [|done]]]; [|by constructor].
  unfold WriteBack, EntrySize. replace (Z.of_nat (length t) * 16) with (numBytes (hdr f)) by lia.
  by rewrite (bind_ok _ _ _ _ _ Hrun).
Qed.

End DirectoryFacts.

(** ** Properties *)

(** C27. A directory whose name pointers are valid and distinct refines a finite
    map from names to header sectors: [Find] is lookup (-1 for absent), [Add]
    fails without effect on a name already there or a full table and otherwise
    inserts, [Remove] deletes and says whether the name was there, and [List]
    prints exactly the names of the map; the invariant is kept. *)
Theorem directory_refines_map (mem : strings) (table : list DirectoryEntry) (n k : Z) (s : string) :
  dir_ok mem table -> mem n = Some s ->
  Find mem table n = Ok (default (-1) (dir_map mem table !! s)) /\
  (exists ok table', Add mem table n k = Ok (ok, table') /\ dir_ok mem table' /\
     dir_map mem table' = (if (ok : bool) then <[s := k]> (dir_map mem table) else dir_map mem table) /\
     (ok = true <-> dir_map mem table !! s = None /\ exists e, e ∈ table /\ in_use e = false)) /\
  (exists table', Remove mem table n = Ok (bool_decide (is_Some (dir_map mem table !! s)), table') /\
     dir_ok mem table' /\ dir_map mem table' = delete s (dir_map mem table)) /\
  (exists names, List mem table = Ok names /\ NoDup names /\
     forall x, x ∈ names <-> is_Some (dir_map mem table !! x)).
Proof.
  intros Hok Hn. split; [by apply dir_find_spec|]. split; [|split].
  - pose proof (add_from_spec table n k) as Hspec.
    destruct (dir_map mem table !! s) as [x|] eqn:Hs.
    { exists false, table. rewrite (add_existing mem table n k s) by (done || eauto). naive_solver. }
    destruct (add_from table n k) as [table'|] eqn:Ha.
    + exists true, table'. destruct (add_spec mem table n k s table' Hok Hn Hs Ha) as (-> & Hok' & ->).
      destruct Hspec as (pre & e & post & -> & Hf & _).
      repeat (split; [done|]). split; [|done]. intros _. split; [done|]. exists e. split; [set_solver|done].
    + exists false, table. rewrite (add_full mem table n k s) by done.
      repeat (split; [done|]). intros (_ & e & He & Hf).
      rewrite Forall_forall in Hspec. apply Hspec in He. congruence.
  - destruct (remove_spec mem table n s Hok Hn) as (table' & ? & _ & ? & ?). by exists table'.
  - exists (used mem table).*1. split; [by apply dir_list_spec|]. split; [apply Hok|].
    intros x. unfold dir_map. split.
    + intros Hx. destruct (list_to_map (M := gmap string Z) (used mem table) !! x) eqn:E; [eauto|].
      by apply not_elem_of_list_to_map in E.
    + intros [y Hy]. apply elem_of_list_to_map_2 in Hy. apply list_elem_of_fmap. by exists (x, y).
Qed.

Definition two_entries : list DirectoryEntry :=
  [MkEntry 1 0 9 70 0 1000; MkEntry 0 5 0 0 0 0; MkEntry 1 0 12 70 0 1010].
Definition three_strings : strings := fun p =>
  if p =? 1000 then Some "a"%string else if p =? 1010 then Some "b"%string
  else if p =? 1020 then Some "b"%string else None.

Lemma directory_refines_map_witness :
  Find three_strings two_entries 1020 = Ok 12.
Proof.
  refine (proj1 (directory_refines_map three_strings two_entries 1020 0 "b"%string _ eq_refl)).
  split.
  - unfold two_entries. rewrite !Forall_cons, Forall_nil. split_and!; try done; vm_compute; eauto.
  - vm_compute. apply (bool_decide_unpack _). vm_compute. done.
Defined.

(** A directory entry borrows its name: the table holds the caller's pointer,
    so when the caller's buffer at [p] later holds another string, the file is no
    longer found under the name it was added with, but under the buffer's new
    contents. *)
Lemma directory_names_are_borrowed (mem mem' : strings) (table table' : list DirectoryEntry)
    (p q k : Z) (s1 s2 : string) :
  Forall (fun e => in_use e = false) table ->
  mem p = Some s1 -> Add mem table p k = Ok (true, table') ->
  mem' p = Some s2 -> mem' q = Some s1 -> s1 <> s2 ->
  Find mem table' p = Ok k /\ Find mem' table' q = Ok (-1) /\ Find mem' table' p = Ok k.
Proof.
  intros Hfree Hp Hadd Hp' Hq Hne.
  assert (Hempty : forall m, dir_ok m table /\ dir_map m table = ∅).
  { intros m. assert (used m table = []) as E.
    { clear -Hfree. induction Hfree as [|e t He _ IH]; [done|]. by rewrite used_cons_free. }
    split; [|unfold dir_map; by rewrite E]. split; [|rewrite E; apply NoDup_nil_2].
    eapply Forall_impl; [exact Hfree|]. intros e He Hu. congruence. }
  assert (Hm : forall m s, m p = Some s -> dir_ok m table' /\ dir_map m table' = <[s := k]> ∅).
  { intros m s Hs. destruct (Hempty m) as [Hok Hmap]. destruct (Hempty mem) as [Hok0 Hmap0].
    destruct (add_from table p k) as [t|] eqn:Ha.
    - destruct (add_spec mem table p k s1 t) as [Hadd' _]; try done; [by rewrite Hmap0|].
      rewrite Hadd in Hadd'. injection Hadd' as <-.
      destruct (add_spec m table p k s table') as (_ & ? & ->); try done; by rewrite Hmap.
    - pose proof (add_from_spec table p k) as Hall. rewrite Ha in Hall.
      rewrite (add_full mem table p k s1) in Hadd by done. done. }
  destruct (Hm mem s1 Hp) as [Hok1 Hm1]. destruct (Hm mem' s2 Hp') as [Hok2 Hm2].
  rewrite (dir_find_spec mem table' p s1), (dir_find_spec mem' table' q s1),
    (dir_find_spec mem' table' p s2), Hm1, Hm2 by done.
  by rewrite !lookup_insert_eq, lookup_insert_ne by done.
Qed.

