(* ===== verification/FileSys.v ===== *)
(** * [filesys/filesys.cc]: the file system

    The free-sector bitmap and the root directory are files of the file system
    itself; [Create], [Open] and [Remove] bring copies of them into memory, change
    the copies and write them back.  [fs_inv] is the invariant of the disk: the
    sectors of the bitmap, of the directory, of the pipe, and of every file are
    all different and none of them is free. *)

From S2P Require Import Prelude BitMap Sectors FileHdr OpenFile Directory.

(** [filesys.cc]. *)
Definition FreeMapSector : Z := 0.
Definition DirectorySector : Z := 1.
Definition PipeSector : Z := 2.
Definition FreeMapFileSize : Z := NumSectors / BitsInByte.
Definition NumDirEntries : Z := 10.
Definition DirectoryFileSize : Z := EntrySize * NumDirEntries.
Definition PipeFileSize : Z := 500.

(** [class FileSystem]. *)
Record FileSystem : Type := MkFS {
  freeMapFile : OpenFile; directoryFile : OpenFile; pipeFile : OpenFile
}.

(** What a call meets and the code does not set: the contents of freshly allocated
    objects, the clock, the strings in memory. *)
Record Env : Type := MkEnv {
  new_words : list Z;              (* [new unsigned int[numWords]] *)
  new_table : list DirectoryEntry; (* [new DirectoryEntry[NumDirEntries]] *)
  new_hdr : nat -> FileHeader;     (* the successive [new FileHeader] *)
  new_buf : nat -> nat -> Z;       (* the buffers of the successive [WriteAt] *)
  time_now : Z;
  mem : strings
}.

Section FileSys.
Context {D : Type} `{!SectorDisk D}.

(** [BitMap::FetchFrom]. *)
Definition map_FetchFrom (b : BitMap) (f : OpenFile) : M D BitMap :=
  '(_, bs) ← ReadAt f (numWords b * 4) 0;
  bytes ← lift (splice 0 bs (map_bytes (map b)));
  mret (MkBitMap (numBits b) (numWords b) (map_of_bytes (length (map b)) bytes)).

(** [BitMap::WriteBack]. *)
Definition map_WriteBack (junk : nat -> Z) (b : BitMap) (f : OpenFile) : M D unit :=
  _ ← WriteAt junk f (map_bytes (map b)) (numWords b * 4) 0;
  mret tt.

(** Run a computation that also changes the bitmap [b] in memory. *)
Definition with_map {A : Type} (b : BitMap) (m : M (BitMap * D) A) : M D (A * BitMap) := fun d =>
  match m (b, d) with Ok (a, (b', d')) => Ok ((a, b'), d') | Stop w => Stop w end.

(** [FileSystem::FileSystem]. *)
Definition new_file_system (env : Env) (format : bool) : M D FileSystem :=
  if format then
    freeMap ← lift (new_bitmap NumSectors (new_words env));
    let directory := new_directory (new_table env) in
    '(_, freeMap) ← lift (Mark FreeMapSector freeMap);
    '(_, freeMap) ← lift (Mark DirectorySector freeMap);
    '(_, freeMap) ← lift (Mark PipeSector freeMap);
    let fresh k := new_hdr env (3 + k)%nat in
    '(ok, mapHdr, freeMap) ←
      with_map freeMap (Allocate fresh (time_now env) (new_hdr env 0) FreeMapFileSize);
    _ ← ASSERT ok;
    '(ok, dirHdr, freeMap) ←
      with_map freeMap (Allocate fresh (time_now env) (new_hdr env 1) DirectoryFileSize);
    _ ← ASSERT ok;
    '(ok, pipeHdr, freeMap) ←
      with_map freeMap (Allocate fresh (time_now env) (new_hdr env 2) PipeFileSize);
    _ ← ASSERT ok;
    _ ← FileHdr.WriteBack mapHdr FreeMapSector;
    _ ← FileHdr.WriteBack dirHdr DirectorySector;
    _ ← FileHdr.WriteBack pipeHdr PipeSector;
    freeMapFile ← new_open_file FreeMapSector;
    directoryFile ← new_open_file DirectorySector;
    pipeFile ← new_open_file PipeSector;
    _ ← map_WriteBack (new_buf env 0) freeMap freeMapFile;
    _ ← WriteBack (new_buf env 1) directory directoryFile;
    mret (MkFS freeMapFile directoryFile pipeFile)
  else
    freeMapFile ← new_open_file FreeMapSector;
    directoryFile ← new_open_file DirectorySector;
    pipeFile ← new_open_file PipeSector;
    mret (MkFS freeMapFile directoryFile pipeFile).

(** [FileSystem::Create]. *)
Definition Create (env : Env) (fs : FileSystem) (n initialSize : Z) : M D bool :=
  directory ← FetchFrom (new_directory (new_table env)) (directoryFile fs);
  found ← lift (Find (mem env) directory n);
  if negb (found =? -1) then mret false
  else
    freeMap ← lift (new_bitmap NumSectors (new_words env));
    freeMap ← map_FetchFrom freeMap (freeMapFile fs);
    '(s, freeMap) ← lift (BitMap.Find freeMap);
    if s =? -1 then mret false
    else
      '(ok, directory) ← lift (Add (mem env) directory n s);
      if negb ok then mret false
      else
        '(ok, hdr, freeMap) ← with_map freeMap
          (Allocate (fun k => new_hdr env (S k)) (time_now env) (new_hdr env 0) initialSize);
        if negb ok then mret false
        else
          _ ← FileHdr.WriteBack hdr s;
          _ ← WriteBack (new_buf env 0) directory (directoryFile fs);
          _ ← map_WriteBack (new_buf env 1) freeMap (freeMapFile fs);
          mret true.

(** [FileSystem::Open]: [None] is [NULL]. *)
Definition Open (env : Env) (fs : FileSystem) (n : Z) : M D (option OpenFile) :=
  directory ← FetchFrom (new_directory (new_table env)) (directoryFile fs);
  s ← lift (Find (mem env) directory n);
  if 0 <=? s then f ← new_open_file s; mret (Some f) else mret None.

(** [FileSystem::Remove], with [fuel] passes for [Deallocate]. *)
Definition Remove (fuel : nat) (env : Env) (fs : FileSystem) (n : Z) : M D bool :=
  directory ← FetchFrom (new_directory (new_table env)) (directoryFile fs);
  s ← lift (Find (mem env) directory n);
  if s =? -1 then mret false
  else
    fileHdr ← FileHdr.FetchFrom s;
    freeMap ← lift (new_bitmap NumSectors (new_words env));
    freeMap ← map_FetchFrom freeMap (freeMapFile fs);
    '(_, freeMap) ← with_map freeMap (Deallocate fuel fileHdr);
    '(_, freeMap) ← lift (Clear s freeMap);
    '(_, directory) ← lift (Directory.Remove (mem env) directory n);
    _ ← map_WriteBack (new_buf env 0) freeMap (freeMapFile fs);
    _ ← WriteBack (new_buf env 1) directory (directoryFile fs);
    mret true.

(** [FileSystem::List]: the names it prints. *)
Definition List (env : Env) (fs : FileSystem) : M D (list string) :=
  directory ← FetchFrom (new_directory (new_table env)) (directoryFile fs);
  lift (Directory.List (mem env) directory).

(** [FileSystem::Print]: what its parts print. *)
Definition Print (env : Env) (fs : FileSystem)
    : M D ((list Z * list Z) * (list Z * list Z) * list Z * list (string * Z * (list Z * list Z))) :=
  freeMap ← lift (new_bitmap NumSectors (new_words env));
  bitHdr ← FileHdr.FetchFrom FreeMapSector;
  p1 ← FileHdr.Print bitHdr;
  dirHdr ← FileHdr.FetchFrom DirectorySector;
  p2 ← FileHdr.Print dirHdr;
  freeMap ← map_FetchFrom freeMap (freeMapFile fs);
  '(p3, _) ← lift (BitMap.Print freeMap);
  directory ← FetchFrom (new_directory (new_table env)) (directoryFile fs);
  p4 ← Directory.Print (mem env) directory;
  mret (p1, p2, p3, p4).

(** [FileSystem::ReadPipe]. *)
Definition ReadPipe (now : Z) (numBytes : Z) : M D (Z * list Z) :=
  f ← new_open_file PipeSector;
  '(_, r) ← Read now f numBytes;
  mret r.

(** [FileSystem::WritePipe]. *)
Definition WritePipe (junk : nat -> Z) (now : Z) (data : list Z) (numBytes : Z) : M D Z :=
  f ← new_open_file PipeSector;
  '(_, r) ← Write junk now f data numBytes;
  mret r.

End FileSys.

(** ** The invariant *)

(** What the C++ language guarantees of the inputs of a call. *)
Record env_ok (env : Env) : Prop := {
  eo_words : length (new_words env) = 32%nat /\ Forall is_u32 (new_words env);
  eo_table : length (new_table env) = Z.to_nat NumDirEntries /\ Forall entry_ok (new_table env);
  eo_hdr : forall k, hdr_ok (new_hdr env k);
  eo_buf : forall k i, is_byte (new_buf env k i);
  eo_time : is_i32 (time_now env)
}.

(** The file [f] holds exactly the bitmap [fm] of the disk's sectors. *)
Record map_file (img : image) (f : OpenFile) (secs : list Z) (fm : BitMap) : Prop := {
  mf_rep : file_rep img (hdr f) secs [];
  mf_size : numBytes (hdr f) = 128;
  mf_bytes : file_bytes img (hdr f) secs = map_bytes (map fm);
  mf_wf : wf fm;
  mf_bits : numBits fm = NumSectors
}.

(** [ext s] is the data sectors and the further header sectors of the file whose
    first header is in sector [s]. *)
Definition layout : Type := Z -> list Z * list Z.

Definition own (ext : layout) (s : Z) : list Z := s :: (ext s).1 ++ (ext s).2.

Definition files (table : list DirectoryEntry) : list Z :=
  sector_no <$> filter (fun e => in_use e = true) table.

Definition owned (table : list DirectoryEntry) (ms ds ps : list Z) (ext : layout) : list Z :=
  [FreeMapSector; DirectorySector; PipeSector] ++ ms ++ ds ++ ps ++ (files table ≫= own ext).

(** The sector [s] holds the first header of a well-formed file. *)
Definition file_at (img : image) (ext : layout) (s : Z) : Prop :=
  is_sector s /\ file_rep img (hdr_at img s) (ext s).1 (ext s).2.
Definition contents_at (img : image) (ext : layout) (s : Z) : list Z :=
  file_bytes img (hdr_at img s) (ext s).1.

Record fs_inv {D : Type} `{!SectorDisk D, !SectorDiskLaws D} (m : strings) (fs : FileSystem) (d : D)
    (table : list DirectoryEntry) (fm : BitMap) (ms ds ps : list Z) (ext : layout) : Prop := {
  fi_disk : disk_ok d;
  fi_map : map_file (contents d) (freeMapFile fs) ms fm;
  fi_dir : table_file (contents d) (directoryFile fs) ds [] table;
  fi_len : length table = Z.to_nat NumDirEntries;
  fi_names : dir_ok m table;
  fi_pipe : file_rep (contents d) (hdr_at (contents d) PipeSector) ps [];
  fi_files : Forall (file_at (contents d) ext) (files table);
  fi_own : NoDup (owned table ms ds ps ext ++ clear_bits fm)
}.

(** ** Files do not interfere *)

Definition agree (img img' : image) (l : list Z) : Prop :=
  forall s, s ∈ l -> sector img' s = sector img s.

Lemma rep_agree img img' h secs hsecs :
  file_rep img h secs hsecs -> agree img img' (secs ++ hsecs) ->
  file_rep img' h secs hsecs /\ file_bytes img' h secs = file_bytes img h secs.
Proof.
  intros Hr Ha. split.
  - destruct Hr as [Hh Hc Hs Hnd Hl Hsz]. constructor; try done. apply (chain_frame img); [|done].
    intros s Hs'. apply Ha. set_solver.
  - unfold file_bytes. f_equal. apply file_data_frame. intros s Hs. apply Ha. set_solver.
Qed.

Lemma file_at_agree img img' ext s :
  file_at img ext s -> agree img img' (own ext s) ->
  file_at img' ext s /\ contents_at img' ext s = contents_at img ext s /\ hdr_at img' s = hdr_at img s.
Proof.
  intros [Hs Hr] Ha. assert (Hat : hdr_at img' s = hdr_at img s).
  { unfold hdr_at. rewrite Ha; [done|]. by left. }
  destruct (rep_agree img img' _ _ _ Hr) as [Hr' Hb]; [intros t Ht; apply Ha; by right|].
  unfold file_at, contents_at. rewrite Hat. done.
Qed.

Lemma own_in_owned table ms ds ps ext s :
  s ∈ files table -> own ext s ⊆ owned table ms ds ps ext.
Proof. intros Hs t Ht. unfold owned. do 4 (apply elem_of_app; right). apply list_elem_of_bind. eauto. Qed.

Section FileSysFacts.
Context {D : Type} `{!SectorDisk D} `{!SectorDiskLaws D}.

Lemma with_map_ok {A} b (m : M (BitMap * D) A) d a b' d' :
  m (b, d) = Ok (a, (b', d')) -> with_map b m d = Ok ((a, b'), d').
Proof. intros H. unfold with_map. by rewrite H. Qed.

Lemma with_map_stop {A} b (m : M (BitMap * D) A) d w :
  m (b, d) = Stop w -> with_map b m d = Stop w.
Proof. intros H. unfold with_map. by rewrite H. Qed.

Lemma new_open_file_spec (d : D) s :
  disk_ok d -> is_sector s ->
  exists d', new_open_file s d = Ok (MkOpen (hdr_at (contents d) s) 0 s, d') /\ now_holds d' (contents d).
Proof.
  intros Hd Hs. destruct (fetch_from_spec d s Hd Hs) as (d' & Hrun & Hd').
  exists d'. split; [|done]. unfold new_open_file. by rewrite (bind_ok _ _ _ _ _ Hrun).
Qed.

(** A bitmap of the disk's size is 32 words. *)
Lemma wf_words fm : wf fm -> numBits fm = NumSectors -> length (map fm) = 32%nat /\ numWords fm = 32.
Proof.
  intros (_ & Hw & Hl & _) Hn. rewrite Hn in Hw. change (divRoundUp _ _) with 32 in Hw. lia.
Qed.

Lemma map_fetch_spec (d : D) f secs fm b0 :
  disk_ok d -> map_file (contents d) f secs fm -> wf b0 -> numBits b0 = NumSectors ->
  exists d', map_FetchFrom b0 f d = Ok (fm, d') /\ now_holds d' (contents d).
Proof.
  intros Hd [Hr Hsz Hb Hw Hn] Hw0 Hn0. pose proof (wf_words _ Hw Hn) as [Hl Hnw].
  pose proof (wf_words _ Hw0 Hn0) as [Hl0 Hnw0]. unfold map_FetchFrom. rewrite Hnw0.
  destruct (read_at_spec f (32 * 4) 0 d secs []) as (d' & Hrun & Hd'); [done|done|lia|lia|].
  exists d'. split; [|done]. rewrite (bind_ok _ _ _ _ _ Hrun), Hb, drop_0.
  pose proof (length_map_bytes (map fm)) as Hlb. pose proof (length_map_bytes (map b0)) as Hlb0.
  rewrite take_ge by (change (Z.to_nat (32 * 4)) with 128%nat; lia).
  erewrite bind_ok by (apply lift_ok, splice_ok; lia).
  unfold ins. rewrite take_0, drop_ge, app_nil_r by (change (Z.to_nat 0) with 0%nat; lia). cbn [app].
  rewrite Hl0, <- Hl, <- (app_nil_r (map_bytes _)), map_bytes_roundtrip by apply Hw.
  rewrite Hn0, <- Hn. destruct fm; cbn in *. by subst.
Qed.

Lemma map_write_spec junk (d : D) f secs fm :
  disk_ok d -> file_rep (contents d) (hdr f) secs [] -> numBytes (hdr f) = 128 ->
  wf fm -> numBits fm = NumSectors -> (forall k, is_byte (junk k)) ->
  exists d', map_WriteBack junk fm f d = Ok (tt, d') /\ disk_ok d' /\
    map_file (contents d') f secs fm /\
    (forall s, is_sector s -> s ∉ secs -> sector (contents d') s = sector (contents d) s).
Proof.
  intros Hd Hr Hsz Hw Hn Hj. pose proof (wf_words _ Hw Hn) as [Hl Hnw].
  pose proof (length_map_bytes (map fm)) as Hlb.
  destruct (write_whole junk f (map_bytes (map fm)) d secs [])
    as (d' & Hrun & Hd' & Hr' & Hb' & Hfr); [done|done|apply map_bytes_byte|done|lia|].
  exists d'. split; [|split; [done|split; [|done]]]; [|by constructor].
  unfold map_WriteBack. rewrite Hnw. change (32 * 4) with 128. rewrite <- Hsz.
  by rewrite (bind_ok _ _ _ _ _ Hrun).
Qed.

(** A new in-memory bitmap, before [FetchFrom]. *)
Lemma new_map env :
  env_ok env -> exists b, new_bitmap NumSectors (new_words env) = Ok b /\ wf b /\
    numBits b = NumSectors /\ clear_bits b = seqZ 0 NumSectors.
Proof.
  intros [[Hl Hu] _ _ _ _].
  destruct (new_bitmap_spec NumSectors (new_words env)) as (b & Hnew & Hw & Hn & Hbits);
    [done|by rewrite Hl|done|].
  exists b. split_and!; try done. unfold clear_bits. rewrite Hn. apply filter_all, Forall_forall.
  intros i Hi%elem_of_seqZ. apply Hbits. lia.
Qed.

Lemma map_file_agree img img' f secs fm :
  map_file img f secs fm -> agree img img' secs -> map_file img' f secs fm.
Proof.
  intros [Hr Hsz Hb Hw Hn] Ha. destruct (rep_agree img img' _ _ _ Hr) as [Hr' Hb'].
  { by rewrite app_nil_r. }
  constructor; try done. by rewrite Hb'.
Qed.

Lemma table_file_agree img img' f secs t :
  table_file img f secs [] t -> agree img img' secs -> table_file img' f secs [] t.
Proof.
  intros [Hr Hsz Hb Hok] Ha. destruct (rep_agree img img' _ _ _ Hr) as [Hr' Hb'].
  { by rewrite app_nil_r. }
  constructor; try done. by rewrite Hb'.
Qed.

Lemma rep_sectors img h secs hsecs s : file_rep img h secs hsecs -> s ∈ secs ++ hsecs -> is_sector s.
Proof.
  intros Hr [Hs|Hs]%elem_of_app.
  - pose proof (fr_secs _ _ _ _ Hr) as H. rewrite Forall_forall in H. by apply H.
  - pose proof (chain_hsecs _ _ _ _ (fr_chain _ _ _ _ Hr)) as H. rewrite Forall_forall in H. by apply H.
Qed.

(** Every sector the invariant speaks of is on the disk. *)
Lemma owned_sector m fs (d : D) table fm ms ds ps ext s :
  fs_inv m fs d table fm ms ds ps ext -> s ∈ owned table ms ds ps ext -> is_sector s.
Proof.
  intros [_ Hm Hd _ _ Hp Hf _] Hs. unfold owned in Hs.
  rewrite !elem_of_app in Hs. destruct Hs as [Hs|[Hs|[Hs|[Hs|Hs]]]].
  - repeat (apply elem_of_cons in Hs as [->|Hs]; [done|]). by apply not_elem_of_nil in Hs.
  - eapply (rep_sectors _ _ ms []); [apply Hm|]. by rewrite app_nil_r.
  - eapply (rep_sectors _ _ ds []); [apply Hd|]. by rewrite app_nil_r.
  - eapply (rep_sectors _ _ ps []); [apply Hp|]. by rewrite app_nil_r.
  - apply list_elem_of_bind in Hs as (t & Hs & Ht). rewrite Forall_forall in Hf.
    destruct (Hf t Ht) as [Hst Hr]. apply elem_of_cons in Hs as [->|Hs]; [done|].
    by eapply rep_sectors.
Qed.

(** The invariant depends on the contents of the disk only. *)
Lemma fs_inv_same m fs (d d' : D) table fm ms ds ps ext :
  fs_inv m fs d table fm ms ds ps ext -> now_holds d' (contents d) ->
  fs_inv m fs d' table fm ms ds ps ext.
Proof. intros [Hd Hm Hdir Hl Hn Hp Hf Ho] [Hd' Hc']. constructor; rewrite ?Hc'; done. Qed.

Lemma used_files m table s x : (s, x) ∈ used m table -> x ∈ files table.
Proof.
  unfold used, files. rewrite list_elem_of_omap, list_elem_of_fmap.
  intros (e & He & Heq). destruct (in_use e) eqn:Hu; [|done].
  destruct (m (name e)); [|done]. injection Heq as _ <-. exists e. split; [done|].
  by apply list_elem_of_filter.
Qed.

Lemma dir_map_files m table s x : dir_map m table !! s = Some x -> x ∈ files table.
Proof. intros H. apply elem_of_list_to_map_2 in H. by eapply used_files. Qed.

Lemma fs_lookup_sector m fs (d : D) table fm ms ds ps ext s x :
  fs_inv m fs d table fm ms ds ps ext -> dir_map m table !! s = Some x -> is_sector x.
Proof.
  intros Hinv Hx. eapply owned_sector; [done|]. eapply own_in_owned; [by eapply dir_map_files|by left].
Qed.

Lemma NoDup_app_disj {A} (l k : list A) x : NoDup (l ++ k) -> x ∈ l -> x ∈ k -> False.
Proof. intros (_ & H & _)%NoDup_app Hl Hk. by eapply H. Qed.

(** The data of the system files are apart. *)
Lemma owned_disjoint table ms ds ps ext l :
  NoDup (owned table ms ds ps ext ++ l) ->
  NoDup (([FreeMapSector; DirectorySector; PipeSector] ++ ps ++ (files table ≫= own ext)) ++ ms) /\
  NoDup (([FreeMapSector; DirectorySector; PipeSector] ++ ps ++ (files table ≫= own ext)) ++ ds) /\
  NoDup (ds ++ ms).
Proof.
  intros (Hnd & _ & _)%NoDup_app.
  assert (Hp : owned table ms ds ps ext ≡ₚ
    (([FreeMapSector; DirectorySector; PipeSector] ++ ps ++ (files table ≫= own ext)) ++ ms) ++ ds).
  { unfold owned. solve_Permutation. }
  assert (Hp2 : owned table ms ds ps ext ≡ₚ
    (([FreeMapSector; DirectorySector; PipeSector] ++ ps ++ (files table ≫= own ext)) ++ ds) ++ ms).
  { unfold owned. solve_Permutation. }
  assert (Hp3 : owned table ms ds ps ext ≡ₚ
    (ds ++ ms) ++ ([FreeMapSector; DirectorySector; PipeSector] ++ ps ++ (files table ≫= own ext))).
  { unfold owned. solve_Permutation. }
  split_and!.
  - rewrite Hp in Hnd. by apply NoDup_app in Hnd as [? _].
  - rewrite Hp2 in Hnd. by apply NoDup_app in Hnd as [? _].
  - rewrite Hp3 in Hnd. by apply NoDup_app in Hnd as [? _].
Qed.

(** The three writes at the end of [Create], as a change of the image: outside the
    new file's sectors and the two system files nothing changes. *)
Section Commit.
Context (env : Env) (fs : FileSystem) (d : D) (table : list DirectoryEntry) (fm : BitMap).
Context (ms ds ps : list Z) (ext : layout).
Context (Henv : env_ok env) (Hinv : fs_inv (mem env) fs d table fm ms ds ps ext).
Context (sct : Z) (secs hsecs : list Z) (h : FileHeader) (fm2 : BitMap) (d3 : D).
Context (Hfree : clear_bits fm ≡ₚ (sct :: secs ++ hsecs) ++ clear_bits fm2).
Context (Hsct : is_sector sct) (Hnew : Forall is_sector (secs ++ hsecs)).
Context (Hd3 : disk_ok d3) (Hh : hdr_ok h).
Context (H3 : forall s, is_sector s -> s ∉ hsecs -> sector (contents d3) s = sector (contents d) s).
Context (table' : list DirectoryEntry) (Hlen : length table' = length table).
Context (Htok : Forall entry_ok table') (Hw2 : wf fm2) (Hn2 : numBits fm2 = NumSectors).

Lemma new_apart x : x ∈ owned table ms ds ps ext -> x ∉ sct :: secs ++ hsecs.
Proof.
  intros Hx Hin. pose proof (fi_own _ _ _ _ _ _ _ _ _ Hinv) as Hnd. rewrite Hfree in Hnd.
  eapply NoDup_app_disj; [exact Hnd|exact Hx|]. apply elem_of_app. by left.
Qed.

Lemma commit :
  exists d', (_ ← FileHdr.WriteBack h sct;
      _ ← WriteBack (new_buf env 0) table' (directoryFile fs);
      _ ← map_WriteBack (new_buf env 1) fm2 (freeMapFile fs);
      mret true) d3 = Ok (true, d') /\ disk_ok d' /\
    map_file (contents d') (freeMapFile fs) ms fm2 /\
    table_file (contents d') (directoryFile fs) ds [] table' /\
    hdr_at (contents d') sct = h /\
    (forall x, x ∈ hsecs -> sector (contents d') x = sector (contents d3) x) /\
    (forall x, x ∈ owned table ms ds ps ext -> x ∉ ms -> x ∉ ds ->
       sector (contents d') x = sector (contents d) x).
Proof.
  pose proof (fi_own _ _ _ _ _ _ _ _ _ Hinv) as Hnd.
  destruct (owned_disjoint _ _ _ _ _ _ Hnd) as (_ & _ & Hdm).
  assert (Hms : ms ⊆ owned table ms ds ps ext) by (unfold owned; set_solver).
  assert (Hds : ds ⊆ owned table ms ds ps ext) by (unfold owned; set_solver).
  assert (Hown : forall x, x ∈ owned table ms ds ps ext -> is_sector x /\ x <> sct /\ x ∉ hsecs).
  { intros x Hx. split; [by eapply owned_sector|]. pose proof (new_apart x Hx). set_solver. }
  assert (Hndn : NoDup (sct :: secs ++ hsecs)).
  { pose proof (NoDup_clear_bits fm) as Hc. rewrite Hfree in Hc. by apply NoDup_app in Hc as [? _]. }
  apply NoDup_cons in Hndn as [Hsn _].
  destruct (write_back_spec d3 h sct Hd3 Hsct Hh) as (d4 & Hrun4 & Hd4 & Hc4).
  assert (H4 : forall x, is_sector x -> x <> sct -> sector (contents d4) x = sector (contents d3) x).
  { intros x Hx Hne. rewrite Hc4. by apply sector_update_ne. }
  pose proof (fi_dir _ _ _ _ _ _ _ _ _ Hinv) as Hdir.
  pose proof (fi_map _ _ _ _ _ _ _ _ _ Hinv) as Hmap.
  destruct (write_table_spec (new_buf env 0) d4 (directoryFile fs) ds [] table')
    as (d5 & Hrun5 & Hd5 & Htf & H5); [done| |rewrite Hlen; apply Hdir|done|apply Henv|].
  { apply (table_file_agree (contents d) _ _ _ table); [done|]. intros x Hx.
    destruct (Hown x (Hds _ Hx)) as (? & ? & ?). rewrite H4, H3; done. }
  destruct (map_write_spec (new_buf env 1) d5 (freeMapFile fs) ms fm2)
    as (d6 & Hrun6 & Hd6 & Hmf & H6); [done| |apply Hmap|done|done|apply Henv|].
  { apply (map_file_agree (contents d) _ _ _ fm); [done|]. intros x Hx.
    destruct (Hown x (Hms _ Hx)) as (? & ? & ?). rewrite H5, H4, H3; try done.
    intros Hx'. by eapply (NoDup_app_disj ds ms x). }
  exists d6. split_and!; try done.
  - rewrite (bind_ok _ _ _ _ _ Hrun4), (bind_ok _ _ _ _ _ Hrun5), (bind_ok _ _ _ _ _ Hrun6). done.
  - eapply table_file_agree; [exact Htf|]. intros x Hx. destruct (Hown x (Hds _ Hx)) as (? & _ & _).
    apply H6; [done|]. intros Hx'. by eapply (NoDup_app_disj ds ms x).
  - assert (Hno : sct ∉ owned table ms ds ps ext) by (intros Hx; destruct (Hown _ Hx) as (_ & ? & _); done).
    unfold hdr_at. rewrite H6, H5 by (done || set_solver).
    fold (hdr_at (contents d4) sct). rewrite Hc4. apply hdr_at_update_eq; auto with nachos.
  - intros x Hx. assert (Hxs : is_sector x) by (rewrite Forall_forall in Hnew; apply Hnew; set_solver).
    assert (Hno : x ∉ owned table ms ds ps ext) by (intros Hx'; destruct (Hown _ Hx') as (_ & _ & ?); done).
    rewrite H6, H5, H4 by (done || set_solver). done.
  - intros x Hx Hxm Hxd. destruct (Hown x Hx) as (? & ? & ?). by rewrite H6, H5, H4, H3.
Qed.

End Commit.

(** [Create] up to the point where it knows whether the name is taken. *)
Lemma create_enters env fs (d : D) table fm ms ds ps ext n size s :
  env_ok env -> fs_inv (mem env) fs d table fm ms ds ps ext -> mem env n = Some s ->
  exists b0 d1, now_holds d1 (contents d) /\ wf b0 /\ numBits b0 = NumSectors /\
    Create env fs n size d =
    (if bool_decide (is_Some (dir_map (mem env) table !! s)) then mret false
     else
       freeMap ← map_FetchFrom b0 (freeMapFile fs);
       '(s, freeMap) ← lift (BitMap.Find freeMap);
       if s =? -1 then mret false
       else
         '(ok, directory) ← lift (Add (mem env) table n s);
         if negb ok then mret false
         else
           '(ok, hdr, freeMap) ← with_map freeMap
             (Allocate (fun k => new_hdr env (S k)) (time_now env) (new_hdr env 0) size);
           if negb ok then mret false
           else
             _ ← FileHdr.WriteBack hdr s;
             _ ← WriteBack (new_buf env 0) directory (directoryFile fs);
             _ ← map_WriteBack (new_buf env 1) freeMap (freeMapFile fs);
             mret true) d1.
Proof.
  intros Henv Hinv Hn. destruct (new_map env Henv) as (b0 & Hb0 & Hw0 & Hn0 & _).
  destruct (fetch_table_spec d (directoryFile fs) ds [] table (new_directory (new_table env)))
    as (d1 & Hrun1 & Hd1); [apply Hinv|apply Hinv| |].
  { unfold new_directory. rewrite length_fmap, (fi_len _ _ _ _ _ _ _ _ _ Hinv). apply Henv. }
  exists b0, d1. split_and!; try done; try apply Hd1. unfold Create.
  rewrite (bind_ok _ _ _ _ _ Hrun1).
  erewrite bind_ok by (apply lift_ok, dir_find_spec; [apply Hinv|done]).
  destruct (dir_map (mem env) table !! s) as [x|] eqn:Hx.
  - pose proof (fs_lookup_sector _ _ _ _ _ _ _ _ _ _ _ Hinv Hx) as Hxs. unfold is_sector in Hxs.
    rewrite bool_decide_true by eauto. simpl. by rewrite (proj2 (Z.eqb_neq x (-1))) by lia.
  - rewrite bool_decide_false by (by intros [? ?]). simpl.
    by erewrite bind_ok by (by apply lift_ok).
Qed.

Lemma files_add mem table n k table' :
  add_from table n k = Some table' ->
  exists new, in_use new = true /\ sector_no new = k /\ length table' = length table /\
    files table' ≡ₚ k :: files table /\
    (Forall entry_ok table -> is_u32 n -> is_i32 k -> Forall entry_ok table') /\
    used mem table' ≡ₚ used mem (new :: table).
Proof.
  intros Ha. pose proof (add_from_spec table n k) as Hs. rewrite Ha in Hs.
  destruct Hs as (pre & e & post & -> & Hf & ->). exists (MkEntry 1 (inUse_pad e) k 70 (type_pad e) n).
  split_and!; try done.
  - by rewrite !length_app.
  - unfold files. rewrite !filter_app, filter_cons_True, filter_cons_False by (done || congruence).
    rewrite !fmap_app. simpl. symmetry. apply Permutation_middle.
  - intros Hok Hn Hk. apply Forall_app in Hok as [Ho1 Ho2]. apply Forall_cons in Ho2 as [He Ho2].
    apply Forall_app. split; [done|]. constructor; [|done].
    destruct He as (?&?&?&?&?&?). by repeat (split; [done|]).
  - change (?x :: pre ++ ?l) with ([x] ++ pre ++ l). rewrite !used_app. change (?x :: post) with ([x] ++ post).
    rewrite !used_app. replace (used mem [e]) with (@nil (string * Z)) by (by rewrite used_cons_free).
    solve_Permutation.
Qed.

Definition extend (ext : layout) (x : Z) (secs hsecs : list Z) : layout :=
  fun y => if decide (y = x) then (secs, hsecs) else ext y.

Lemma bind_ext_elem {A B} (f g : A -> list B) l :
  (forall x, x ∈ l -> f x = g x) -> l ≫= f = l ≫= g.
Proof.
  induction l as [|x l IH]; intros H; [done|]. simpl. rewrite (H x) by (by left).
  f_equal. apply IH. intros. apply H. by right.
Qed.

(** Adding a file in sectors that were free keeps the invariant, and the other
    files as they are. *)
Lemma inv_extended m fs (d d' : D) table table' fm fm2 ms ds ps ext x secs hsecs h :
  fs_inv m fs d table fm ms ds ps ext -> dir_ok m table' -> length table' = length table ->
  files table' ≡ₚ x :: files table ->
  clear_bits fm ≡ₚ (x :: secs ++ hsecs) ++ clear_bits fm2 -> is_sector x -> disk_ok d' ->
  map_file (contents d') (freeMapFile fs) ms fm2 ->
  table_file (contents d') (directoryFile fs) ds [] table' ->
  file_rep (contents d') h secs hsecs -> hdr_at (contents d') x = h ->
  (forall y, y ∈ owned table ms ds ps ext -> y ∉ ms -> y ∉ ds ->
     sector (contents d') y = sector (contents d) y) ->
  fs_inv m fs d' table' fm2 ms ds ps (extend ext x secs hsecs) /\
  Forall (fun y => contents_at (contents d') (extend ext x secs hsecs) y = contents_at (contents d) ext y /\
                   hdr_at (contents d') y = hdr_at (contents d) y) (files table).
Proof.
  intros Hinv Hok' Hlen Hfiles Hclear Hx Hd' Hmf' Htf' Hrep Hat Hold.
  pose proof (fi_own _ _ _ _ _ _ _ _ _ Hinv) as Hnd.
  destruct (owned_disjoint _ _ _ _ _ _ Hnd) as (Hdm & Hdd & _).
  set (rest := [FreeMapSector; DirectorySector; PipeSector] ++ ps ++ (files table ≫= own ext)) in *.
  assert (Hrest : agree (contents d) (contents d') rest).
  { intros y Hy. apply Hold; [unfold owned, rest in *; set_solver| |]; intros Hy'.
    - by apply (NoDup_app_disj rest ms y).
    - by apply (NoDup_app_disj rest ds y). }
  assert (Hxown : x ∉ owned table ms ds ps ext).
  { intros Hin. rewrite Hclear in Hnd. eapply NoDup_app_disj; [exact Hnd|exact Hin|by left]. }
  assert (Hsame : forall y, y ∈ files table -> extend ext x secs hsecs y = ext y /\ own ext y ⊆ rest).
  { intros y Hy. split.
    - unfold extend. rewrite decide_False; [done|]. intros ->. apply Hxown.
      eapply own_in_owned; [done|by left].
    - intros z Hz. unfold rest. do 2 (apply elem_of_app; right). apply list_elem_of_bind. eauto. }
  pose proof (fi_files _ _ _ _ _ _ _ _ _ Hinv) as Hf. rewrite Forall_forall in Hf.
  assert (Hothers : forall y, y ∈ files table ->
    file_at (contents d') (extend ext x secs hsecs) y /\
    contents_at (contents d') (extend ext x secs hsecs) y = contents_at (contents d) ext y /\
    hdr_at (contents d') y = hdr_at (contents d) y).
  { intros y Hy. destruct (Hsame y Hy) as [He Hsub].
    destruct (file_at_agree (contents d) (contents d') ext y (Hf y Hy)) as (Hfa & Hc & Hha);
      [intros z Hz; by apply Hrest, Hsub|].
    unfold file_at, contents_at in *. rewrite He. done. }
  split; [|apply Forall_forall; intros y Hy; by apply Hothers].
  constructor; try done.
  - by rewrite Hlen, (fi_len _ _ _ _ _ _ _ _ _ Hinv).
  - assert (hdr_at (contents d') PipeSector = hdr_at (contents d) PipeSector) as ->.
    { unfold hdr_at. rewrite Hrest; [done|]. unfold rest. set_solver. }
    eapply rep_agree; [apply Hinv|]. rewrite app_nil_r. intros y Hy. apply Hrest. unfold rest. set_solver.
  - rewrite Hfiles. constructor; [|apply Forall_forall; intros y Hy; by apply Hothers].
    split; [done|]. unfold extend. rewrite Hat, decide_True by done. done.
  - assert (Hp : owned table' ms ds ps (extend ext x secs hsecs) ++ clear_bits fm2 ≡ₚ
                 owned table ms ds ps ext ++ clear_bits fm); [|by rewrite Hp].
    rewrite Hclear. unfold owned. rewrite Hfiles. cbn [mbind list_bind].
    fold (mbind (M := list) (own (extend ext x secs hsecs)) (files table)).
    rewrite (bind_ext_elem _ (own ext) (files table)).
    + unfold own at 1, extend. rewrite decide_True by done. simpl fst. simpl snd. solve_Permutation.
    + intros y Hy. unfold own. by rewrite (proj1 (Hsame y Hy)).
Qed.

Lemma create_ok env fs (d : D) table fm ms ds ps ext n size s :
  env_ok env -> fs_inv (mem env) fs d table fm ms ds ps ext -> mem env n = Some s -> is_u32 n ->
  dir_map (mem env) table !! s = None -> (exists e, e ∈ table /\ in_use e = false) ->
  0 <= size < 2 ^ 31 ->
  let ns := divRoundUp size SectorSize in
  ns <> NumDirect -> 1 + ns + extra_hdrs ns <= Z.of_nat (length (clear_bits fm)) ->
  exists d' table' fm' ext' x, Create env fs n size d = Ok (true, d') /\
    fs_inv (mem env) fs d' table' fm' ms ds ps ext' /\
    dir_map (mem env) table' = <[s := x]> (dir_map (mem env) table) /\
    numBytes (hdr_at (contents d') x) = size /\
    Z.of_nat (length (clear_bits fm')) = Z.of_nat (length (clear_bits fm)) - (1 + ns + extra_hdrs ns) /\
    Forall (fun y => contents_at (contents d') ext' y = contents_at (contents d) ext y /\
                     hdr_at (contents d') y = hdr_at (contents d) y) (files table).
Proof.
  intros Henv Hinv Hn Hn32 Hnone (e & He & Heu) Hsize ns Hns Hfree.
  assert (0 <= ns /\ 0 <= extra_hdrs ns) as [Hns0 Hex0].
  { split; [|unfold extra_hdrs; apply Z.div_pos; [lia|done]].
    unfold ns. change SectorSize with 128. pose proof (divRoundUp_spec size 128). lia. }
  destruct (create_enters env fs d table fm ms ds ps ext n size s Henv Hinv Hn)
    as (b0 & d1 & [Hd1 Hc1] & Hw0 & Hn0 & ->).
  rewrite bool_decide_false by (rewrite Hnone; by intros [? ?]).
  pose proof (fi_map _ _ _ _ _ _ _ _ _ Hinv) as Hmf. pose proof (mf_wf _ _ _ _ Hmf) as Hw.
  pose proof (mf_bits _ _ _ _ Hmf) as Hbits.
  destruct (map_fetch_spec d1 (freeMapFile fs) ms fm b0) as (d2 & Hrun2 & Hd2 & Hc2);
    [done|by rewrite Hc1|done|done|]. rewrite Hc1 in Hc2.
  rewrite (bind_ok _ _ _ _ _ Hrun2).
  destruct (find_takes fm) as (x & fm1 & Hfind & Hw1 & Hn1 & Hcb & Hx); [done|by intros E; rewrite E in Hfree; simpl in Hfree; lia|].
  erewrite bind_ok by (by apply lift_ok). cbv beta iota.
  rewrite (proj2 (Z.eqb_neq x (-1))) by lia.
  rewrite Hbits in Hx, Hn1. assert (Hxs : is_sector x) by done.
  pose proof (add_from_spec table n x) as Hadd.
  destruct (add_from table n x) as [table'|] eqn:Ha.
  2:{ rewrite Forall_forall in Hadd. apply Hadd in He. congruence. }
  destruct (add_spec (mem env) table n x s table') as (Hrun3 & Hok' & Hmap');
    [apply Hinv|done|done|done|].
  erewrite bind_ok by (by apply lift_ok). cbv beta iota. cbn [negb].
  destruct (files_add (mem env) table n x table' Ha) as (new & _ & _ & Hlen & Hfiles & Htok & _).
  destruct (allocate_ok (fun k => new_hdr env (S k)) (fun k => eo_hdr _ Henv (S k)) (time_now env)
    (eo_time _ Henv) (new_hdr env 0) (eo_hdr _ Henv 0) fm1 d2 Hw1 Hn1 Hd2 size Hsize Hns)
    as (h & fm2 & d3 & secs & hsecs & Hrun4 & Hal).
  { rewrite Hcb in Hfree. simpl in Hfree. fold ns. lia. }
  erewrite bind_ok by (by apply with_map_ok). cbv beta iota. cbn [negb].
  destruct Hal as [Hch Hls Hlh Hperm [Hw2 Hn2] Hd3 [Hh [Hhb Hhn]] Hfr]. rewrite Hc2 in Hfr.
  assert (Hclear : clear_bits fm ≡ₚ (x :: secs ++ hsecs) ++ clear_bits fm2) by (rewrite Hcb, Hperm; done).
  assert (Hnew : Forall is_sector (secs ++ hsecs)).
  { apply Forall_forall. intros y Hy. by apply (taken_sector fm1 _ _ y Hn1 Hperm). }
  destruct (commit env fs d table fm ms ds ps ext Henv Hinv x secs hsecs h fm2 d3 Hclear Hxs Hnew Hd3 Hh Hfr
    table' Hlen) as (d' & Hrun5 & Hd' & Hmf' & Htf' & Hat & Hhs & Hold); [|done|done|].
  { apply Htok; [apply (fi_dir _ _ _ _ _ _ _ _ _ Hinv)|done|by apply is_sector_i32]. }
  rewrite Hrun5. exists d', table', fm2, (extend ext x secs hsecs), x.
  destruct (inv_extended (mem env) fs d d' table table' fm fm2 ms ds ps ext x secs hsecs h)
    as [Hinv' Hothers]; try done.
  { constructor; try done; rewrite ?Hhb; try done.
    - apply (chain_frame (contents d3)); [|done]. intros y Hy. by apply Hhs.
    - by apply Forall_app in Hnew as [? _].
    - pose proof (NoDup_clear_bits fm1) as Hc. rewrite Hperm in Hc. by apply NoDup_app in Hc as [? _]. }
  split_and!; try done; try apply Hothers; [by rewrite Hat|].
  apply Permutation_length in Hclear. rewrite length_app in Hclear. simpl in Hclear.
  rewrite length_app in Hclear. fold ns in Hls, Hlh. lia.
Qed.

(** [Create] refuses, and leaves the disk as it was, for each of the reasons its
    comment lists. *)
Lemma create_refused env fs (d : D) table fm ms ds ps ext n size s :
  env_ok env -> fs_inv (mem env) fs d table fm ms ds ps ext -> mem env n = Some s ->
  0 <= size < 2 ^ 31 ->
  is_Some (dir_map (mem env) table !! s) \/ Forall (fun e => in_use e = true) table \/
  Z.of_nat (length (clear_bits fm)) < 1 + divRoundUp size SectorSize ->
  exists d', Create env fs n size d = Ok (false, d') /\ now_holds d' (contents d).
Proof.
  intros Henv Hinv Hn Hsize Hwhy.
  destruct (create_enters env fs d table fm ms ds ps ext n size s Henv Hinv Hn)
    as (b0 & d1 & [Hd1 Hc1] & Hw0 & Hn0 & ->).
  case_bool_decide as Hs; [by exists d1|]. destruct Hwhy as [Hwhy|Hwhy]; [done|].
  apply eq_None_not_Some in Hs.
  pose proof (fi_map _ _ _ _ _ _ _ _ _ Hinv) as Hmf. pose proof (mf_wf _ _ _ _ Hmf) as Hw.
  pose proof (mf_bits _ _ _ _ Hmf) as Hbits.
  destruct (map_fetch_spec d1 (freeMapFile fs) ms fm b0) as (d2 & Hrun2 & Hd2 & Hc2);
    [done|by rewrite Hc1|done|done|]. rewrite Hc1 in Hc2.
  exists d2. split; [|done]. rewrite (bind_ok _ _ _ _ _ Hrun2).
  destruct (decide (clear_bits fm = [])) as [Hnil|Hnil].
  { pose proof (find_spec fm Hw) as Hf. rewrite Hnil in Hf. by erewrite bind_ok by (by apply lift_ok). }
  destruct (find_takes fm Hw Hnil) as (x & fm1 & Hfind & Hw1 & Hn1 & Hcb & Hx).
  erewrite bind_ok by (by apply lift_ok). cbv beta iota. rewrite (proj2 (Z.eqb_neq x (-1))) by lia.
  destruct (add_from table n x) as [table'|] eqn:Ha.
  2:{ pose proof (add_from_spec table n x) as Hadd. rewrite Ha in Hadd.
      erewrite bind_ok by (eapply lift_ok, add_full; [apply Hinv|done|done]). done. }
  destruct Hwhy as [Hall|Hfull].
  { exfalso. pose proof (add_from_spec table n x) as Hadd. rewrite Ha in Hadd.
    destruct Hadd as (pre & e & post & -> & He & _). rewrite Forall_forall in Hall.
    rewrite Hall in He by set_solver. done. }
  destruct (add_spec (mem env) table n x s table') as (Hrun3 & _); [apply Hinv|done|done|done|].
  erewrite bind_ok by (by apply lift_ok). cbv beta iota. cbn [negb].
  erewrite bind_ok; [|apply with_map_ok, allocate_full; [done|rewrite Hcb in Hfull; simpl in Hfull; lia]].
  done.
Qed.

Lemma open_spec env fs (d : D) table fm ms ds ps ext n s :
  env_ok env -> fs_inv (mem env) fs d table fm ms ds ps ext -> mem env n = Some s ->
  exists d', Open env fs n d =
      Ok ((fun x => MkOpen (hdr_at (contents d) x) 0 x) <$> dir_map (mem env) table !! s, d') /\
    now_holds d' (contents d).
Proof.
  intros Henv Hinv Hn.
  destruct (fetch_table_spec d (directoryFile fs) ds [] table (new_directory (new_table env)))
    as (d1 & Hrun1 & Hd1 & Hc1); [apply Hinv|apply Hinv| |].
  { unfold new_directory. rewrite length_fmap, (fi_len _ _ _ _ _ _ _ _ _ Hinv). apply Henv. }
  unfold Open. rewrite (bind_ok _ _ _ _ _ Hrun1).
  erewrite bind_ok by (apply lift_ok, dir_find_spec; [apply Hinv|done]).
  destruct (dir_map (mem env) table !! s) as [x|] eqn:Hx; [|by exists d1]. simpl.
  pose proof (fs_lookup_sector _ _ _ _ _ _ _ _ _ _ _ Hinv Hx) as Hxs.
  rewrite (proj2 (Z.leb_le 0 x)) by (unfold is_sector in Hxs; lia).
  destruct (new_open_file_spec d1 x Hd1 Hxs) as (d2 & Hrun2 & Hd2 & Hc2). rewrite Hc1 in *.
  exists d2. by rewrite (bind_ok _ _ _ _ _ Hrun2).
Qed.

(** ** Formatting *)

(** Allocating one of the small system files: no further header, so nothing is
    written yet. *)
Lemma alloc_small env fm (d : D) k size :
  env_ok env -> wf fm -> numBits fm = NumSectors -> disk_ok d -> 0 <= size <= 3200 ->
  divRoundUp size SectorSize <= Z.of_nat (length (clear_bits fm)) ->
  exists h fm' d' secs,
    with_map fm (Allocate (fun j => new_hdr env (3 + j)) (time_now env) (new_hdr env k) size) d =
      Ok ((true, h, fm'), d') /\
    chain (contents d') h secs [] /\ Z.of_nat (length secs) = divRoundUp size SectorSize /\
    clear_bits fm ≡ₚ secs ++ clear_bits fm' /\ wf fm' /\ numBits fm' = NumSectors /\ disk_ok d' /\
    hdr_ok h /\ numBytes h = size.
Proof.
  intros Henv Hw Hn Hd Hs Hfree.
  pose proof (divRoundUp_spec size 128 ltac:(lia) ltac:(lia)) as Hdiv. change 128 with SectorSize in Hdiv.
  assert (Hlt : 0 <= divRoundUp size SectorSize < 26) by (change SectorSize with 128 in *; lia).
  assert (He : extra_hdrs (divRoundUp size SectorSize) = 0).
  { unfold extra_hdrs. change NumDirect with 26. apply Z.div_small. lia. }
  destruct (allocate_ok (fun j => new_hdr env (3 + j)) (fun j => eo_hdr _ Henv (3 + j)) (time_now env)
    (eo_time _ Henv) (new_hdr env k) (eo_hdr _ Henv k) fm d Hw Hn Hd size) as
    (h & fm' & d' & secs & hsecs & Hrun & Hal); [lia|change NumDirect with 26; lia|lia|].
  destruct Hal as [Hch Hls Hlh Hperm [Hw' Hn'] Hd' [Hh [Hb _]] _].
  rewrite He in Hlh. destruct hsecs; [|simpl in Hlh; lia]. rewrite app_nil_r in Hperm.
  exists h, fm', d', secs. split; [by apply with_map_ok|]. by repeat (split; [done|]).
Qed.

(** Marking one free sector. *)
Lemma mark_takes fm i l k :
  wf fm -> numBits fm = NumSectors -> is_sector i -> clear_bits fm = l ++ i :: k -> NoDup (l ++ i :: k) ->
  exists fm', Mark i fm = Ok (tt, fm') /\ wf fm' /\ numBits fm' = NumSectors /\ clear_bits fm' = l ++ k.
Proof.
  intros Hw Hn Hi Hc Hnd. destruct (mark_spec fm i Hw) as (fm' & Hrun & Hb); [by rewrite Hn|].
  exists fm'. pose proof Hb as (Hw' & Hn' & _). split_and!; [done|done|by rewrite Hn'|].
  rewrite (clear_bits_mark _ _ _ Hb), Hc. apply NoDup_app in Hnd as (_ & Hd & Hnd).
  apply NoDup_cons in Hnd as [Hk _]. rewrite filter_app, filter_cons_False by naive_solver.
  rewrite !filter_all; [done|apply Forall_forall|apply Forall_forall];
    intros x Hx ->; [done|]. apply (Hd i Hx). by left.
Qed.

(** A file with no further header is well formed on any image. *)
Lemma small_rep img img' h secs fm fm' :
  hdr_ok h -> chain img' h secs [] -> Z.of_nat (length secs) = divRoundUp (numBytes h) SectorSize ->
  0 <= numBytes h <= 3200 -> numBits fm = NumSectors -> clear_bits fm ≡ₚ secs ++ clear_bits fm' ->
  file_rep img h secs [].
Proof.
  intros Hh Hc Hl Hb Hn Hp. constructor; try done.
  - apply Forall_forall. intros s Hs. by apply (taken_sector fm _ _ s Hn Hp).
  - pose proof (NoDup_clear_bits fm) as Hnd. rewrite Hp in Hnd. rewrite app_nil_r.
    by apply NoDup_app in Hnd as [? _].
  - lia.
Qed.

Lemma new_directory_free m garbage :
  files (new_directory garbage) = [] /\ used m (new_directory garbage) = [] /\
  Forall (fun e => in_use e = false) (new_directory garbage).
Proof.
  assert (Hall : Forall (fun e => in_use e = false) (new_directory garbage)).
  { apply Forall_fmap, Forall_true. done. }
  split_and!; [| |done].
  - unfold files. rewrite filter_none; [done|]. eapply Forall_impl; [exact Hall|].
    intros e He Hu. congruence.
  - induction Hall as [|e t He _ IH]; [done|]. by rewrite used_cons_free.
Qed.

(** The three header writes of the constructor. *)
Lemma write_three (d : D) h0 h1 h2 :
  disk_ok d -> hdr_ok h0 -> hdr_ok h1 -> hdr_ok h2 ->
  exists d', (forall A (k : M D A),
      (_ ← FileHdr.WriteBack h0 FreeMapSector; _ ← FileHdr.WriteBack h1 DirectorySector;
       _ ← FileHdr.WriteBack h2 PipeSector; k) d = k d') /\ disk_ok d' /\
    hdr_at (contents d') FreeMapSector = h0 /\ hdr_at (contents d') DirectorySector = h1 /\
    hdr_at (contents d') PipeSector = h2.
Proof.
  intros Hd H0 H1 H2.
  destruct (write_back_spec d h0 FreeMapSector Hd ltac:(done) H0) as (d1 & Hr1 & Hd1 & Hc1).
  destruct (write_back_spec d1 h1 DirectorySector Hd1 ltac:(done) H1) as (d2 & Hr2 & Hd2 & Hc2).
  destruct (write_back_spec d2 h2 PipeSector Hd2 ltac:(done) H2) as (d3 & Hr3 & Hd3 & Hc3).
  exists d3. split; [|split; [done|]].
  - intros A k. by rewrite (bind_ok _ _ _ _ _ Hr1), (bind_ok _ _ _ _ _ Hr2), (bind_ok _ _ _ _ _ Hr3).
  - split_and!.
    + unfold hdr_at. rewrite Hc3, sector_update_ne, Hc2, sector_update_ne by done.
      rewrite Hc1. apply hdr_at_update_eq; [auto with nachos|done|done].
    + unfold hdr_at. rewrite Hc3, sector_update_ne by done.
      rewrite Hc2. apply hdr_at_update_eq; [auto with nachos|done|done].
    + rewrite Hc3. apply hdr_at_update_eq; [auto with nachos|done|done].
Qed.

Lemma all_sectors : seqZ 0 NumSectors = 0 :: 1 :: 2 :: seqZ 3 1021.
Proof. vm_compute. reflexivity. Qed.

(** The constructor's marks and allocations. *)
Lemma format_allocates env (d : D) :
  env_ok env -> disk_ok d ->
  exists h0 h1 h2 fm d' ms ds ps,
    new_file_system env true d =
    (_ ← FileHdr.WriteBack h0 FreeMapSector; _ ← FileHdr.WriteBack h1 DirectorySector;
     _ ← FileHdr.WriteBack h2 PipeSector;
     freeMapFile ← new_open_file FreeMapSector;
     directoryFile ← new_open_file DirectorySector;
     pipeFile ← new_open_file PipeSector;
     _ ← map_WriteBack (new_buf env 0) fm freeMapFile;
     _ ← WriteBack (new_buf env 1) (new_directory (new_table env)) directoryFile;
     mret (MkFS freeMapFile directoryFile pipeFile)) d' /\
    disk_ok d' /\ wf fm /\ numBits fm = NumSectors /\
    [0; 1; 2] ++ ms ++ ds ++ ps ++ clear_bits fm ≡ₚ seqZ 0 NumSectors /\
    length (clear_bits fm) = 1014%nat /\
    (forall img, file_rep img h0 ms []) /\ numBytes h0 = FreeMapFileSize /\
    (forall img, file_rep img h1 ds []) /\ numBytes h1 = DirectoryFileSize /\
    (forall img, file_rep img h2 ps []) /\ numBytes h2 = PipeFileSize /\
    hdr_ok h0 /\ hdr_ok h1 /\ hdr_ok h2.
Proof.
  intros Henv Hd. destruct (new_map env Henv) as (b & Hb & Hw & Hn & Hc).
  pose proof (NoDup_seqZ 0 NumSectors) as Hnd. rewrite all_sectors in Hnd, Hc.
  destruct (mark_takes b 0 [] (1 :: 2 :: seqZ 3 1021)) as (b0 & Hm0 & Hw0 & Hn0 & Hc0);
    [done|done|done|done|exact Hnd|].
  apply NoDup_cons in Hnd as [_ Hnd].
  destruct (mark_takes b0 1 [] (2 :: seqZ 3 1021)) as (b1 & Hm1 & Hw1 & Hn1 & Hc1);
    [done|done|done|done|exact Hnd|].
  apply NoDup_cons in Hnd as [_ Hnd].
  destruct (mark_takes b1 2 [] (seqZ 3 1021)) as (b2 & Hm2 & Hw2 & Hn2 & Hc2);
    [done|done|done|done|exact Hnd|]. cbn [app] in Hc2.
  assert (Hlen2 : length (clear_bits b2) = 1021%nat) by (rewrite Hc2; apply length_seqZ).
  destruct (alloc_small env b2 d 0 FreeMapFileSize)
    as (h0 & f0 & d0 & ms & Hr0 & Hch0 & Hl0 & Hp0 & Hwf0 & Hnf0 & Hd0 & Hh0 & Hs0);
    [done|done|done|done|done|by rewrite Hlen2|].
  pose proof (Permutation_length Hp0) as Hlp0. rewrite length_app in Hlp0.
  change (divRoundUp FreeMapFileSize SectorSize) with 1 in Hl0.
  destruct (alloc_small env f0 d0 1 DirectoryFileSize)
    as (h1 & f1 & d1 & ds & Hr1 & Hch1 & Hl1 & Hp1 & Hwf1 & Hnf1 & Hd1 & Hh1 & Hs1);
    [done|done|done|done|done|change (divRoundUp DirectoryFileSize SectorSize) with 2; lia|].
  pose proof (Permutation_length Hp1) as Hlp1. rewrite length_app in Hlp1.
  change (divRoundUp DirectoryFileSize SectorSize) with 2 in Hl1.
  destruct (alloc_small env f1 d1 2 PipeFileSize)
    as (h2 & f2 & d2 & ps & Hr2 & Hch2 & Hl2 & Hp2 & Hwf2 & Hnf2 & Hd2 & Hh2 & Hs2);
    [done|done|done|done|done|change (divRoundUp PipeFileSize SectorSize) with 4; lia|].
  pose proof (Permutation_length Hp2) as Hlp2. rewrite length_app in Hlp2.
  change (divRoundUp PipeFileSize SectorSize) with 4 in Hl2.
  exists h0, h1, h2, f2, d2, ms, ds, ps. split_and!; try done; try lia.
  - unfold new_file_system. erewrite bind_ok by (by apply lift_ok).
    do 3 (erewrite bind_ok by (by apply lift_ok); cbv beta iota).
    rewrite (bind_ok _ _ _ _ _ Hr0); cbv beta iota. erewrite bind_ok by done.
    rewrite (bind_ok _ _ _ _ _ Hr1); cbv beta iota. erewrite bind_ok by done.
    rewrite (bind_ok _ _ _ _ _ Hr2); cbv beta iota. by erewrite bind_ok by done.
  - rewrite all_sectors, <- Hc2, Hp0, Hp1, Hp2. done.
  - intros img. by apply (small_rep img (contents d0) h0 ms b2 f0); rewrite ?Hs0.
  - intros img. by apply (small_rep img (contents d1) h1 ds f0 f1); rewrite ?Hs1.
  - intros img. by apply (small_rep img (contents d2) h2 ps f1 f2); rewrite ?Hs2.
Qed.

Lemma format_ok env (d : D) m :
  env_ok env -> disk_ok d ->
  exists fs d' table fm ms ds ps ext,
    new_file_system env true d = Ok (fs, d') /\ fs_inv m fs d' table fm ms ds ps ext /\
    Forall (fun e => in_use e = false) table /\ dir_map m table = ∅ /\
    length (clear_bits fm) = 1014%nat /\ numBytes (hdr_at (contents d') PipeSector) = PipeFileSize.
Proof.
  intros Henv Hd. destruct (format_allocates env d Henv Hd)
    as (h0 & h1 & h2 & fm & d2 & ms & ds & ps & -> & Hd2 & Hw & Hn & Hp & Hfree & Hr0 & Hs0 & Hr1 & Hs1
        & Hr2 & Hs2 & Hh0 & Hh1 & Hh2).
  destruct (write_three d2 h0 h1 h2 Hd2 Hh0 Hh1 Hh2) as (d3 & Hrun & Hd3 & Ha0 & Ha1 & Ha2).
  rewrite Hrun. clear Hrun.
  destruct (new_open_file_spec d3 FreeMapSector) as (d4 & Hrun4 & Hd4 & Hc4); [done|done|].
  destruct (new_open_file_spec d4 DirectorySector) as (d5 & Hrun5 & Hd5 & Hc5); [done|done|].
  destruct (new_open_file_spec d5 PipeSector) as (d6 & Hrun6 & Hd6 & Hc6); [done|done|].
  rewrite Hc5, Hc4 in *. rewrite Ha0 in Hrun4. rewrite Ha1 in Hrun5. rewrite Ha2 in Hrun6.
  rewrite (bind_ok _ _ _ _ _ Hrun4), (bind_ok _ _ _ _ _ Hrun5), (bind_ok _ _ _ _ _ Hrun6).
  set (table := new_directory (new_table env)).
  destruct (new_directory_free m (new_table env)) as (Hfiles & Hused & Hallfree). fold table in Hfiles, Hused, Hallfree.
  assert (Hlen : length table = 10%nat) by (unfold table, new_directory; rewrite length_fmap; apply Henv).
  assert (Hok : Forall entry_ok table).
  { apply Forall_fmap. eapply Forall_impl; [apply (eo_table _ Henv)|].
    intros e (?&?&?&?&?&?). by repeat (split; [done|]). }
  destruct (map_write_spec (new_buf env 0) d6 (MkOpen h0 0 FreeMapSector) ms fm)
    as (d7 & Hrun7 & Hd7 & Hmf & H7); [done|apply Hr0|done|done|done|apply Henv|].
  destruct (write_table_spec (new_buf env 1) d7 (MkOpen h1 0 DirectorySector) ds [] table)
    as (d8 & Hrun8 & Hd8 & Htf & H8); [done|apply Hr1|simpl; by rewrite Hs1, Hlen|done|apply Henv|].
  rewrite (bind_ok _ _ _ _ _ Hrun7), (bind_ok _ _ _ _ _ Hrun8).
  assert (Hnd : NoDup (owned table ms ds ps (fun _ => ([], [])) ++ clear_bits fm)).
  { unfold owned. rewrite Hfiles. cbn [mbind list_bind]. rewrite app_nil_r, <- !app_assoc.
    unfold FreeMapSector, DirectorySector, PipeSector. rewrite Hp. apply NoDup_seqZ. }
  destruct (owned_disjoint _ _ _ _ _ _ Hnd) as (Hdm & Hdd & Hdsms).
  assert (Hpipe : hdr_at (contents d8) PipeSector = h2).
  { rewrite <- Ha2, <- Hc6. unfold hdr_at. rewrite H8, H7; [done|done| |done|];
      intros Hin; eapply NoDup_app_disj; [exact Hdm| |exact Hin|exact Hdd| |exact Hin]; set_solver. }
  eexists _, d8, table, fm, ms, ds, ps, (fun _ => ([], [])). split; [reflexivity|].
  split; [|split_and!; try done; [by unfold dir_map; rewrite Hused|by rewrite Hpipe]].
  constructor; try done.
  - eapply map_file_agree; [exact Hmf|]. intros x Hx. apply H8.
    + eapply (rep_sectors _ _ ms []); [apply (Hr0 [])|]. by rewrite app_nil_r.
    + intros Hx'. by eapply (NoDup_app_disj ds ms x).
  - split; [|rewrite Hused; apply NoDup_nil_2].
    eapply Forall_impl; [exact Hallfree|]. intros e He Hu. congruence.
  - rewrite Hpipe. apply Hr2.
  - rewrite Hfiles. by constructor.
Qed.

(** [Remove] up to [Deallocate]. *)
Lemma remove_enters fuel env fs (d : D) table fm ms ds ps ext n s x :
  env_ok env -> fs_inv (mem env) fs d table fm ms ds ps ext -> mem env n = Some s ->
  dir_map (mem env) table !! s = Some x ->
  exists d1 (k : unit * BitMap -> M D bool), now_holds d1 (contents d) /\
    Remove fuel env fs n d =
    (with_map fm (Deallocate fuel (hdr_at (contents d) x)) ≫= k) d1.
Proof.
  intros Henv Hinv Hn Hx. destruct (new_map env Henv) as (b0 & Hb0 & Hw0 & Hn0 & _).
  destruct (fetch_table_spec d (directoryFile fs) ds [] table (new_directory (new_table env)))
    as (d1 & Hrun1 & Hd1 & Hc1); [apply Hinv|apply Hinv| |].
  { unfold new_directory. rewrite length_fmap, (fi_len _ _ _ _ _ _ _ _ _ Hinv). apply Henv. }
  pose proof (fs_lookup_sector _ _ _ _ _ _ _ _ _ _ _ Hinv Hx) as Hxs.
  destruct (fetch_from_spec d1 x Hd1 Hxs) as (d2 & Hrun2 & Hd2 & Hc2). rewrite Hc1 in *.
  destruct (map_fetch_spec d2 (freeMapFile fs) ms fm b0) as (d3 & Hrun3 & Hd3 & Hc3);
    [done|rewrite Hc2; apply Hinv|done|done|]. rewrite Hc2 in *.
  eexists d3, _. split; [done|]. unfold Remove. rewrite (bind_ok _ _ _ _ _ Hrun1).
  erewrite bind_ok by (apply lift_ok, dir_find_spec; [apply Hinv|done]). rewrite Hx. change (default (-1) (Some x)) with x.
  rewrite (proj2 (Z.eqb_neq x (-1))) by (unfold is_sector in Hxs; lia).
  rewrite (bind_ok _ _ _ _ _ Hrun2). erewrite bind_ok by (by apply lift_ok).
  by rewrite (bind_ok _ _ _ _ _ Hrun3).
Qed.

(** The pipe is an open file whose header is in [PipeSector]. *)
Lemma pipe_open m fs (d : D) table fm ms ds ps ext :
  fs_inv m fs d table fm ms ds ps ext ->
  exists d1, new_open_file PipeSector d = Ok (MkOpen (hdr_at (contents d) PipeSector) 0 PipeSector, d1) /\
    contents d1 = contents d /\
    open_ok d1 (MkOpen (hdr_at (contents d) PipeSector) 0 PipeSector) ps [].
Proof.
  intros Hinv. destruct (new_open_file_spec d PipeSector) as (d1 & Hrun & Hd1 & Hc1); [apply Hinv|done|].
  exists d1. split; [done|]. split; [done|]. constructor; rewrite ?Hc1; try done; [apply Hinv|].
  cbn [hdrSector]. rewrite app_nil_r. intros Hin.
  pose proof (fi_own _ _ _ _ _ _ _ _ _ Hinv) as Hnd. apply NoDup_app in Hnd as (Hnd & _ & _).
  unfold owned in Hnd. apply (NoDup_app_disj _ _ PipeSector Hnd); [set_solver|set_solver].
Qed.

(** ** Properties *)

(** C16. [FileSystem::Create] of a new name, with a free directory entry and room
    for the header, the data and the further headers, for a file that is not of exactly
    [NumDirect] sectors (which [Allocate] gets wrong), returns TRUE and keeps the
    invariant; [Open] of that name then yields the file, of the requested size and
    at position 0, while every file that existed keeps its header and its bytes;
    the free sectors drop by exactly those the file takes. *)
Theorem create_then_open (env : Env) (fs : FileSystem) (d : D) table fm ms ds ps ext
    (n size : Z) (s : string) :
  env_ok env -> fs_inv (mem env) fs d table fm ms ds ps ext -> mem env n = Some s -> is_u32 n ->
  dir_map (mem env) table !! s = None -> (exists e, e ∈ table /\ in_use e = false) ->
  0 <= size < 2 ^ 31 ->
  let ns := divRoundUp size SectorSize in
  ns <> NumDirect -> 1 + ns + extra_hdrs ns <= Z.of_nat (length (clear_bits fm)) ->
  exists d' d'' table' fm' ext' x,
    Create env fs n size d = Ok (true, d') /\
    fs_inv (mem env) fs d' table' fm' ms ds ps ext' /\
    dir_map (mem env) table' = <[s := x]> (dir_map (mem env) table) /\
    Open env fs n d' = Ok (Some (MkOpen (hdr_at (contents d') x) 0 x), d'') /\
    Length (MkOpen (hdr_at (contents d') x) 0 x) = size /\
    Z.of_nat (length (clear_bits fm')) = Z.of_nat (length (clear_bits fm)) - (1 + ns + extra_hdrs ns) /\
    Forall (fun y => contents_at (contents d') ext' y = contents_at (contents d) ext y /\
                     hdr_at (contents d') y = hdr_at (contents d) y) (files table).
Proof.
  intros Henv Hinv Hn Hn32 Hnone Hroom Hsize ns Hns Hfree.
  destruct (create_ok env fs d table fm ms ds ps ext n size s)
    as (d' & table' & fm' & ext' & x & Hrun & Hinv' & Hmap & Hb & Hf & Ho); try done.
  destruct (open_spec env fs d' table' fm' ms ds ps ext' n s) as (d'' & Hopen & _); try done.
  exists d', d'', table', fm', ext', x. split_and!; try done; try apply Hb.
  by rewrite Hopen, Hmap, lookup_insert_eq.
Qed.

(** C38. [FileSystem::Create] returns FALSE and leaves the disk's contents
    untouched when the name exists, when the directory is full, and when the free
    sectors do not suffice for the header and the data. *)
Theorem create_refuses_cleanly (env : Env) (fs : FileSystem) (d : D) table fm ms ds ps ext
    (n size : Z) (s : string) :
  env_ok env -> fs_inv (mem env) fs d table fm ms ds ps ext -> mem env n = Some s ->
  0 <= size < 2 ^ 31 ->
  is_Some (dir_map (mem env) table !! s) \/ Forall (fun e => in_use e = true) table \/
  Z.of_nat (length (clear_bits fm)) < 1 + divRoundUp size SectorSize ->
  exists d', Create env fs n size d = Ok (false, d') /\ contents d' = contents d /\
    fs_inv (mem env) fs d' table fm ms ds ps ext.
Proof.
  intros Henv Hinv Hn Hsize Hwhy.
  destruct (create_refused env fs d table fm ms ds ps ext n size s) as (d' & Hrun & Hd'); try done.
  exists d'. split; [done|]. split; [apply Hd'|]. by eapply fs_inv_same.
Qed.

(** C39. [FileSystem::Remove] of a name that does not exist returns FALSE and
    changes nothing; of a file that exists it never returns, and when the file has
    data and a single header it ends in the failed assertion of
    [FileHeader::Deallocate]. *)
Theorem remove_existing_never_returns (fuel : nat) (env : Env) (fs : FileSystem) (d : D)
    table fm ms ds ps ext (n : Z) (s : string) :
  env_ok env -> fs_inv (mem env) fs d table fm ms ds ps ext -> mem env n = Some s ->
  match dir_map (mem env) table !! s with
  | None => exists d', Remove fuel env fs n d = Ok (false, d') /\ contents d' = contents d
  | Some x =>
      (forall r, Remove fuel env fs n d <> Ok r) /\
      (nextFdrSector (hdr_at (contents d) x) = -1 -> 1 <= numSectors (hdr_at (contents d) x) ->
       (ext x).1 <> [] -> (2 <= fuel)%nat -> Remove fuel env fs n d = Stop AssertFailed)
  end.
Proof.
  intros Henv Hinv Hn. destruct (dir_map (mem env) table !! s) as [x|] eqn:Hx.
  - destruct (remove_enters fuel env fs d table fm ms ds ps ext n s x) as (d1 & k & _ & ->); try done.
    split.
    + intros r. unfold mbind, M_bind, with_map.
      destruct (Deallocate _ _ _) as [[u [b d2]]|w] eqn:E; [|done].
      exfalso. by eapply dealloc_loop_never_ok.
    + intros Hnx Hns Hne Hfuel. apply bind_stop, with_map_stop.
      pose proof (fi_files _ _ _ _ _ _ _ _ _ Hinv) as Hf. rewrite Forall_forall in Hf.
      destruct (Hf x (dir_map_files _ _ _ _ Hx)) as [_ Hr].
      destruct (ext x).1 as [|s0 rest] eqn:Es; [done|].
      pose proof (fr_secs _ _ _ _ Hr) as Hs0. apply Forall_cons in Hs0 as [Hs0 _].
      pose proof (mf_bits _ _ _ _ (fi_map _ _ _ _ _ _ _ _ _ Hinv)) as Hbits.
      apply (single_header_dealloc _ _ _ _ s0); try done;
        [apply (fi_map _ _ _ _ _ _ _ _ _ Hinv)| |by rewrite Hbits].
      pose proof (fr_chain _ _ _ _ Hr) as Hch. destruct (ext x).2 as [|t hs].
      * destruct Hch as [_ [l Hl]]. by rewrite Hl.
      * destruct Hch as (Hn1 & Ht & _). unfold is_sector in Ht. lia.
  - destruct (fetch_table_spec d (directoryFile fs) ds [] table (new_directory (new_table env)))
      as (d1 & Hrun1 & Hd1 & Hc1); [apply Hinv|apply Hinv| |].
    { unfold new_directory. rewrite length_fmap, (fi_len _ _ _ _ _ _ _ _ _ Hinv). apply Henv. }
    exists d1. split; [|done]. unfold Remove. rewrite (bind_ok _ _ _ _ _ Hrun1).
    erewrite bind_ok by (apply lift_ok, dir_find_spec; [apply Hinv|done]). by rewrite Hx.
Qed.

(** A [WritePipe], and a [ReadPipe] of [n] bytes: what was written, then what the pipe's
    file held before. *)
Lemma pipe_io (m : strings) (fs : FileSystem) (d : D) table fm ms ds ps ext
    (junk : nat -> Z) (t1 t2 : Z) (data : list Z) (n : Z) :
  fs_inv m fs d table fm ms ds ps ext ->
  numBytes (hdr_at (contents d) PipeSector) = PipeFileSize ->
  Forall is_byte data -> (forall k, is_byte (junk k)) -> is_i32 t1 -> is_i32 t2 ->
  Z.of_nat (length data) <= PipeFileSize -> n < 2 ^ 31 ->
  let P := file_bytes (contents d) (hdr_at (contents d) PipeSector) ps in
  let r := take (Z.to_nat n) (data ++ drop (length data) P) in
  exists d' d'', WritePipe junk t1 data (Z.of_nat (length data)) d = Ok (Z.of_nat (length data), d') /\
    ReadPipe t2 n d' = Ok ((Z.of_nat (length r), r), d'').
Proof.
  intros Hinv Hsz Hdata Hj Ht1 Ht2 Hlen Hmax P r0. change PipeFileSize with 500 in *.
  destruct (pipe_open _ _ _ _ _ _ _ _ _ Hinv) as (d1 & Hrun1 & Hc1 & Ho1).
  destruct (write_advances junk t1 (MkOpen (hdr_at (contents d) PipeSector) 0 PipeSector) data
    (Z.of_nat (length data)) d1 ps []) as (f' & w & d2 & Hrun2 & Hw & _ & Hat & _ & _ & Ho2 & Hb2);
    try done; [simpl; lia|].
  assert (Hwd : w = data).
  { rewrite Hw. unfold Length, FileLength. cbn [hdr seekPosition]. rewrite Hsz. apply take_ge. lia. }
  subst w. rewrite Hwd in *.
  exists d2. unfold WritePipe, ReadPipe. rewrite (bind_ok _ _ _ _ _ Hrun1).
  rewrite (bind_ok _ _ _ _ _ Hrun2). cbv beta iota.
  destruct (new_open_file_spec d2 PipeSector) as (d3 & Hrun3 & Hd3 & Hc3); [apply Ho2|done|].
  cbn [hdrSector] in Hat. rewrite Hat in Hrun3.
  assert (Hsec : hdrSector f' = PipeSector).
  { unfold Write in Hrun2. repeat (apply bind_inv in Hrun2 as (? & ? & _ & Hrun2)).
    by injection Hrun2 as <- _ _. }
  destruct (read_advances t2 (MkOpen (hdr f') 0 PipeSector) n d3 ps [])
    as (f'' & r & d4 & Hrun4 & Hr & _).
  { destruct Ho2 as [? ? ? ? ?]. rewrite Hsec in *. constructor; rewrite ?Hc3; done. }
  { done. }
  { simpl. lia. }
  exists d4. split; [done|]. rewrite (bind_ok _ _ _ _ _ Hrun3), (bind_ok _ _ _ _ _ Hrun4). cbv beta iota.
  assert (r = r0) as ->; [|done].
  rewrite Hr, Hc3. cbn [hdr seekPosition]. change (Z.to_nat 0) with 0%nat.
  rewrite drop_0, Hb2. unfold ins. cbn [hdr seekPosition]. change (Z.to_nat 0) with 0%nat.
  rewrite take_0, Hc1. done.
Qed.

(** The pipe: [WritePipe] of at most [PipeFileSize] bytes writes them all at
    the start of the pipe file, and a later [ReadPipe] of as many bytes returns
    exactly them. *)
Lemma pipe_roundtrip (m : strings) (fs : FileSystem) (d : D) table fm ms ds ps ext
    (junk : nat -> Z) (t1 t2 : Z) (data : list Z) :
  fs_inv m fs d table fm ms ds ps ext ->
  numBytes (hdr_at (contents d) PipeSector) = PipeFileSize ->
  Forall is_byte data -> (forall k, is_byte (junk k)) -> is_i32 t1 -> is_i32 t2 ->
  Z.of_nat (length data) <= PipeFileSize ->
  exists d' d'', WritePipe junk t1 data (Z.of_nat (length data)) d = Ok (Z.of_nat (length data), d') /\
    ReadPipe t2 (Z.of_nat (length data)) d' = Ok ((Z.of_nat (length data), data), d'').
Proof.
  intros Hinv Hsz Hdata Hj Ht1 Ht2 Hlen. change PipeFileSize with 500 in *.
  destruct (pipe_io m fs d table fm ms ds ps ext junk t1 t2 data (Z.of_nat (length data))) as (d' & d'' & Hw & Hr); try done; [lia|].
  rewrite Nat2Z.id, take_app_length in Hr. by exists d', d''.
Qed.

End FileSysFacts.

(** ** Witnesses: a formatted disk *)

Import PlainDisk.

Definition env0 : Env := MkEnv (replicate 32 7) (replicate 10 (MkEntry 3 1 4 1 5 9))
  (fun _ => zero_hdr) (fun _ _ => 17) 42
  (fun p => if p =? 1000 then Some "a"%string else None).

Lemma env0_ok : env_ok env0.
Proof.
  constructor.
  - split; [done|]. by apply Forall_replicate.
  - split; [done|]. by apply Forall_replicate.
  - intros k. apply zero_hdr_ok.
  - done.
  - done.
Qed.

Lemma blank_disk_ready : disk_ok blank_disk.
Proof. apply blank_disk_ok. Qed.

Lemma create_then_open_witness :
  exists fs d d' d'' x, new_file_system env0 true blank_disk = Ok (fs, d) /\
    Create env0 fs 1000 100 d = Ok (true, d') /\
    Open env0 fs 1000 d' = Ok (Some (MkOpen (hdr_at d' x) 0 x), d'').
Proof.
  destruct (format_ok env0 blank_disk (mem env0) env0_ok blank_disk_ready)
    as (fs & d & table & fm & ms & ds & ps & ext & Hrun & Hinv & Hall & Hmap & Hfree & _).
  destruct (create_then_open env0 fs d table fm ms ds ps ext 1000 100 "a"%string env0_ok Hinv eq_refl)
    as (d' & d'' & table' & fm' & ext' & x & Hc & _ & _ & Ho & _).
  - unfold is_u32. lia.
  - rewrite Hmap. apply lookup_empty.
  - destruct table as [|e table]; [discriminate (fi_len _ _ _ _ _ _ _ _ _ Hinv)|].
    exists e. split; [left|]. apply Forall_cons in Hall as [He _]. exact He.
  - lia.
  - vm_compute. discriminate.
  - rewrite Hfree. vm_compute. discriminate.
  - exists fs, d, d', d'', x. split; [exact Hrun|]. split; [exact Hc|exact Ho].
Defined.

Lemma create_refuses_cleanly_witness :
  exists fs d d', new_file_system env0 true blank_disk = Ok (fs, d) /\
    Create env0 fs 1000 1000000 d = Ok (false, d') /\ d' = d.
Proof.
  destruct (format_ok env0 blank_disk (mem env0) env0_ok blank_disk_ready)
    as (fs & d & table & fm & ms & ds & ps & ext & Hrun & Hinv & Hall & Hmap & Hfree & _).
  destruct (create_refuses_cleanly env0 fs d table fm ms ds ps ext 1000 1000000 "a"%string env0_ok Hinv eq_refl)
    as (d' & Hc & Hsame & _).
  - lia.
  - right. right. rewrite Hfree. reflexivity.
  - exists fs, d, d'. split; [exact Hrun|]. split; [exact Hc|exact Hsame].
Defined.

Lemma remove_existing_never_returns_witness :
  exists fs d d', new_file_system env0 true blank_disk = Ok (fs, d) /\
    Create env0 fs 1000 100 d = Ok (true, d') /\ forall r, Remove 9 env0 fs 1000 d' <> Ok r.
Proof.
  destruct (format_ok env0 blank_disk (mem env0) env0_ok blank_disk_ready)
    as (fs & d & table & fm & ms & ds & ps & ext & Hrun & Hinv & Hall & Hmap & Hfree & _).
  destruct (create_ok env0 fs d table fm ms ds ps ext 1000 100 "a"%string env0_ok Hinv eq_refl)
    as (d' & table' & fm' & ext' & x & Hc & Hinv' & Hmap' & _).
  - unfold is_u32. lia.
  - rewrite Hmap. apply lookup_empty.
  - destruct table as [|e table]; [discriminate (fi_len _ _ _ _ _ _ _ _ _ Hinv)|].
    exists e. split; [left|]. apply Forall_cons in Hall as [He _]. exact He.
  - lia.
  - vm_compute. discriminate.
  - rewrite Hfree. vm_compute. discriminate.
  - exists fs, d, d'. split; [exact Hrun|]. split; [exact Hc|].
    pose proof (remove_existing_never_returns 9 env0 fs d' table' fm' ms ds ps ext' 1000 "a"%string
      env0_ok Hinv' eq_refl) as H.
    rewrite Hmap', lookup_insert_eq in H. exact (proj1 H).
Defined.

(** The same runs, evaluated. *)
Definition session : res (bool * option Z * res (bool * image)) :=
  match new_file_system env0 true blank_disk with
  | Ok (fs, d) =>
      match Create env0 fs 1000 100 d with
      | Ok (ok, d) =>
          match Open env0 fs 1000 d with
          | Ok (f, d) => Ok (ok, Length <$> f, Remove 9 env0 fs 1000 d)
          | Stop w => Stop w
          end
      | Stop w => Stop w
      end
  | Stop w => Stop w
  end.
Example session_result : session = Ok (true, Some 100, Stop AssertFailed).
Proof. vm_compute. reflexivity. Qed.
