(* ===== verification/FileIO.v ===== *)
(** * Reading and writing files of the file system

    [OpenFile::Read] and [OpenFile::Write] on files found by [FileSystem::Open]: they
    keep the invariant of the disk, and change no other file. *)

From S2P Require Import Prelude BitMap Sectors FileHdr OpenFile Directory FileSys.

Section FileIO.
Context {D : Type} `{!SectorDisk D} `{!SectorDiskLaws D}.

(** The sectors of a file are apart from all others the invariant speaks of. *)
Lemma own_apart table ms ds ps ext l x :
  NoDup (owned table ms ds ps ext ++ l) -> x ∈ files table ->
  exists rest, files table ≡ₚ x :: rest /\
    NoDup (own ext x ++ [FreeMapSector; DirectorySector; PipeSector] ++ ms ++ ds ++ ps ++ (rest ≫= own ext)).
Proof.
  intros (Hnd & _ & _)%NoDup_app Hx. apply elem_of_Permutation in Hx as [rest Hrest]. exists rest. split; [done|].
  assert (Hp : owned table ms ds ps ext ≡ₚ
    own ext x ++ [FreeMapSector; DirectorySector; PipeSector] ++ ms ++ ds ++ ps ++ (rest ≫= own ext)); [|by rewrite Hp in Hnd].
  unfold owned. rewrite Hrest. cbn [mbind list_bind]. fold (mbind (M := list) (own ext) rest). solve_Permutation.
Qed.

(** A change of the sectors of one file. *)
Lemma fs_inv_update m fs (d d' : D) table fm ms ds ps ext x :
  fs_inv m fs d table fm ms ds ps ext -> x ∈ files table -> disk_ok d' -> file_at (contents d') ext x ->
  (forall s, is_sector s -> s ∉ own ext x -> sector (contents d') s = sector (contents d) s) ->
  fs_inv m fs d' table fm ms ds ps ext /\
  Forall (fun y => y <> x -> contents_at (contents d') ext y = contents_at (contents d) ext y /\
                             hdr_at (contents d') y = hdr_at (contents d) y) (files table).
Proof.
  intros Hinv Hx Hd' Hfile Hframe. pose proof Hinv as [Hd Hm Hdir Hl Hn Hp Hf Ho].
  destruct (own_apart _ _ _ _ _ _ x Ho Hx) as (rest & Hrest & Hnd).
  set (R := [FreeMapSector; DirectorySector; PipeSector] ++ ms ++ ds ++ ps ++ (rest ≫= own ext)) in Hnd.
  assert (HR : forall s, s ∈ R -> is_sector s -> sector (contents d') s = sector (contents d) s).
  { intros s Hs Hss. apply Hframe; [done|]. intros Hin. by apply (NoDup_app_disj _ _ s Hnd). }
  assert (Hall : forall s, s ∈ R -> is_sector s).
  { intros s Hs. eapply owned_sector; [exact Hinv|]. unfold owned. rewrite Hrest. cbn [mbind list_bind].
    fold (mbind (M := list) (own ext) rest). unfold R in Hs. set_solver. }
  assert (Hag : forall l, l ⊆ R -> agree (contents d) (contents d') l) by (intros l Hsub s Hs; auto).
  rewrite Forall_forall in Hf.
  assert (Hothers : forall y, y ∈ files table -> y <> x -> file_at (contents d') ext y /\
    contents_at (contents d') ext y = contents_at (contents d) ext y /\ hdr_at (contents d') y = hdr_at (contents d) y).
  { intros y Hy Hne. apply file_at_agree; [by apply Hf|]. apply Hag. intros s Hs. unfold R. do 4 (apply elem_of_app; right).
    apply list_elem_of_bind. exists y. split; [done|]. rewrite Hrest in Hy. by apply elem_of_cons in Hy as [|]. }
  split; [|apply Forall_forall; intros y Hy Hne; by apply Hothers]. split; try done.
  - eapply map_file_agree; [done|]. apply Hag. unfold R. intros s Hs. rewrite !elem_of_app in *. tauto.
  - eapply table_file_agree; [done|]. apply Hag. unfold R. intros s Hs. rewrite !elem_of_app in *. tauto.
  - assert (hdr_at (contents d') PipeSector = hdr_at (contents d) PipeSector) as ->.
    { unfold hdr_at. rewrite (Hag [PipeSector]); [done|intros s ->%list_elem_of_singleton; by do 2 right; left|by left]. }
    eapply rep_agree; [done|]. rewrite app_nil_r. apply Hag. unfold R. intros s Hs. rewrite !elem_of_app. tauto.
  - apply Forall_forall. intros y Hy. destruct (decide (y = x)) as [->|Hne]; [done|by apply Hothers].
Qed.

(** A file of the file system that a caller has open: the header in memory has the
    size and the pointers of the one on disk. *)
Record opened (img : image) (f : OpenFile) (x : Z) : Prop := {
  op_sector : hdrSector f = x;
  op_hdr : hdr_ok (hdr f);
  op_next : nextFdrSector (hdr f) = nextFdrSector (hdr_at img x);
  op_data : dataSectors (hdr f) = dataSectors (hdr_at img x);
  op_size : numBytes (hdr f) = numBytes (hdr_at img x);
  op_pos : 0 <= seekPosition f < 2 ^ 31
}.

Lemma opened_ok m fs (d : D) table fm ms ds ps ext f x :
  fs_inv m fs d table fm ms ds ps ext -> x ∈ files table -> opened (contents d) f x ->
  open_ok d f (ext x).1 (ext x).2 /\ file_bytes (contents d) (hdr f) (ext x).1 = contents_at (contents d) ext x.
Proof.
  intros Hinv Hx [O1 O2 O3 O4 O5 O6]. pose proof (fi_files _ _ _ _ _ _ _ _ _ Hinv) as Hf. rewrite Forall_forall in Hf.
  destruct (Hf x Hx) as [Hs Hr]. destruct (own_apart _ _ _ _ _ _ x (fi_own _ _ _ _ _ _ _ _ _ Hinv) Hx) as (rest & _ & Hnd).
  apply NoDup_app in Hnd as (Hnd & _). apply NoDup_cons in Hnd as [Hnot _]. split.
  - split; [apply Hinv|by apply (rep_hdr _ (hdr_at (contents d) x))|by rewrite O1|by rewrite O1|done].
  - unfold contents_at, file_bytes. by rewrite O5.
Qed.

(** [Read] and [Write] keep the invariant, the file being open, and every other
    open file. *)
Lemma io_keeps m fs (d d' : D) table fm ms ds ps ext f f' x :
  fs_inv m fs d table fm ms ds ps ext -> x ∈ files table -> opened (contents d) f x ->
  open_ok d' f' (ext x).1 (ext x).2 -> hdrSector f' = x -> hdr_at (contents d') x = hdr f' ->
  nextFdrSector (hdr f') = nextFdrSector (hdr f) -> dataSectors (hdr f') = dataSectors (hdr f) ->
  numBytes (hdr f') = numBytes (hdr f) ->
  (forall s, is_sector s -> s <> x -> s ∉ (ext x).1 -> sector (contents d') s = sector (contents d) s) ->
  fs_inv m fs d' table fm ms ds ps ext /\ opened (contents d') f' x /\
  contents_at (contents d') ext x = file_bytes (contents d') (hdr f') (ext x).1 /\
  Forall (fun y => y <> x -> contents_at (contents d') ext y = contents_at (contents d) ext y) (files table) /\
  (forall g y, y ∈ files table -> opened (contents d) g y -> opened (contents d') g y).
Proof.
  intros Hinv Hx Hop [P1 P2 P3 P4 P5] Hs Hat Hn Hda Hnb Hframe.
  destruct (fs_inv_update m fs d d' table fm ms ds ps ext x Hinv Hx P1) as [Hinv' Hothers].
  { split; [by rewrite <- Hs|]. by rewrite Hat. }
  { intros s Hss Hns. unfold own in Hns. apply Hframe; [done| |]; intros Hin; apply Hns; set_solver. }
  rewrite Forall_forall in Hothers. pose proof Hop as [O1 O2 O3 O4 O5 O6]. split_and!; [done| | | |].
  - split; [done|apply P2|by rewrite Hat..|done].
  - unfold contents_at. by rewrite Hat.
  - apply Forall_forall. intros y Hy Hne. by apply Hothers.
  - intros g y Hy [G1 G2 G3 G4 G5 G6]. destruct (decide (y = x)) as [->|Hne].
    + split; [done|done|rewrite Hat; congruence..|done].
    + destruct (Hothers y Hy Hne) as [_ Hh]. split; [done|done|by rewrite Hh..|done].
Qed.

(** Further strings on the heap do not change a directory. *)
Lemma used_mono (m m' : strings) table : (forall q s, m q = Some s -> m' q = Some s) ->
  Forall (fun e => in_use e = true -> is_Some (m (name e))) table -> used m' table = used m table.
Proof.
  intros Hm. unfold used. induction table as [|e table IH]; intros Hf; [done|]. apply Forall_cons in Hf as [He Hf].
  cbn [omap list_omap]. rewrite (IH Hf). destruct (in_use e); [|done]. destruct (He eq_refl) as [s Hs]. by rewrite Hs, (Hm _ _ Hs).
Qed.
Lemma fs_inv_names (m m' : strings) fs (d : D) table fm ms ds ps ext :
  fs_inv m fs d table fm ms ds ps ext -> (forall q s, m q = Some s -> m' q = Some s) ->
  fs_inv m' fs d table fm ms ds ps ext /\ dir_map m' table = dir_map m table.
Proof.
  intros [H1 H2 H3 H4 [H5 H5'] H6 H7 H8] Hm. pose proof (used_mono m m' table Hm H5) as Hu.
  split; [|unfold dir_map; by rewrite Hu]. split; try done. split; [|by rewrite Hu].
  eapply Forall_impl; [exact H5|]. intros e He Hin. destruct (He Hin) as [s Hs]. rewrite (Hm _ _ Hs). done.
Qed.

(** Two names are two files. *)
Lemma used_sectors (m : strings) table : Forall (fun e => in_use e = true -> is_Some (m (name e))) table ->
  (used m table).*2 = files table.
Proof.
  unfold used, files. induction table as [|e table IH]; intros Hf; [done|]. apply Forall_cons in Hf as [He Hf].
  cbn [omap list_omap]. destruct (in_use e) eqn:Hu.
  - destruct (He eq_refl) as [s Hs]. rewrite Hs, filter_cons_True by done. cbn. by rewrite <- (IH Hf).
  - rewrite filter_cons_False by (by rewrite Hu). by apply IH.
Qed.
Lemma NoDup_owners (ext : layout) l : NoDup (l ≫= own ext) -> NoDup l.
Proof.
  induction l as [|x l IH]; intros H; [constructor|]. cbn [mbind list_bind] in H. fold (mbind (M := list) (own ext) l) in H.
  apply NoDup_app in H as (_ & Hdis & Hl). apply NoDup_cons. split; [|by apply IH]. intros Hx. apply (Hdis x); [by left|].
  apply list_elem_of_bind. exists x. split; [by left|done].
Qed.
Lemma dir_map_inj m fs (d : D) table fm ms ds ps ext s s' x :
  fs_inv m fs d table fm ms ds ps ext -> dir_map m table !! s = Some x -> dir_map m table !! s' = Some x -> s = s'.
Proof.
  intros Hinv H1%elem_of_list_to_map_2 H2%elem_of_list_to_map_2. destruct (fi_names _ _ _ _ _ _ _ _ _ Hinv) as [Hn _].
  assert (Hnd : NoDup (used m table).*2).
  { rewrite (used_sectors m table Hn). apply (NoDup_owners ext). pose proof (fi_own _ _ _ _ _ _ _ _ _ Hinv) as Ho.
    unfold owned in Ho. rewrite !NoDup_app in Ho. naive_solver. }
  apply list_elem_of_lookup in H1 as [i Hi], H2 as [j Hj].
  assert (i = j) as ->; [|congruence]. eapply (NoDup_lookup (used m table).*2); [done|rewrite list_lookup_fmap, Hi; done|].
  by rewrite list_lookup_fmap, Hj.
Qed.

(** A file that [Open] found is open. *)
Lemma open_opened m fs (d : D) table fm ms ds ps ext x :
  fs_inv m fs d table fm ms ds ps ext -> x ∈ files table -> opened (contents d) (MkOpen (hdr_at (contents d) x) 0 x) x.
Proof.
  intros Hinv Hx. pose proof (fi_files _ _ _ _ _ _ _ _ _ Hinv) as Hf. rewrite Forall_forall in Hf.
  destruct (Hf x Hx) as [Hs Hr]. split; try done. apply Hr.
Qed.

(** The effect of a [Write] of [n] bytes of [from] through [f] on the file [x], and of
    a [Read]. *)
Lemma write_file m fs (d : D) table fm ms ds ps ext f x junk now from n :
  fs_inv m fs d table fm ms ds ps ext -> x ∈ files table -> opened (contents d) f x ->
  is_i32 now -> seekPosition f + n < 2 ^ 31 -> Forall is_byte from -> (forall k, is_byte (junk k)) ->
  n <= Z.of_nat (length from) ->
  let w := take (Z.to_nat (Z.min n (Length f - seekPosition f))) from in
  exists f' d', Write junk now f from n d = Ok ((f', Z.of_nat (length w)), d') /\
    fs_inv m fs d' table fm ms ds ps ext /\ opened (contents d') f' x /\
    seekPosition f' = seekPosition f + Z.of_nat (length w) /\
    contents_at (contents d') ext x = ins (Z.to_nat (seekPosition f)) w (contents_at (contents d) ext x) /\
    Forall (fun y => y <> x -> contents_at (contents d') ext y = contents_at (contents d) ext y) (files table) /\
    (forall g y, y ∈ files table -> opened (contents d) g y -> opened (contents d') g y).
Proof.
  intros Hinv Hx Hop Hnow Hmax Hfrom Hjunk Hn w. destruct (opened_ok _ _ _ _ _ _ _ _ _ _ _ Hinv Hx Hop) as [Hok Hbytes].
  destruct (write_advances_full junk now f from n d _ _ Hok Hnow Hmax Hfrom Hjunk Hn)
    as (f' & w' & d' & Hrun & -> & Hpos & Hat & _ & _ & [Hok' Hb'] & Hsec & Hfr & E1 & E2 & E3).
  pose proof (op_sector _ _ _ Hop) as Hs. rewrite Hs in *.
  destruct (io_keeps m fs d d' table fm ms ds ps ext f f' x) as (K1 & K2 & K3 & K4 & K5); try done.
  exists f', d'. rewrite Hbytes in Hb'. split_and!; try done. by rewrite K3.
Qed.

Lemma read_file m fs (d : D) table fm ms ds ps ext f x now n :
  fs_inv m fs d table fm ms ds ps ext -> x ∈ files table -> opened (contents d) f x ->
  is_i32 now -> seekPosition f + n < 2 ^ 31 ->
  let r := take (Z.to_nat n) (drop (Z.to_nat (seekPosition f)) (contents_at (contents d) ext x)) in
  exists f' d', Read now f n d = Ok ((f', (Z.of_nat (length r), r)), d') /\
    fs_inv m fs d' table fm ms ds ps ext /\ opened (contents d') f' x /\
    seekPosition f' = seekPosition f + Z.of_nat (length r) /\
    Forall (fun y => contents_at (contents d') ext y = contents_at (contents d) ext y) (files table) /\
    (forall g y, y ∈ files table -> opened (contents d) g y -> opened (contents d') g y).
Proof.
  intros Hinv Hx Hop Hnow Hmax r. destruct (opened_ok _ _ _ _ _ _ _ _ _ _ _ Hinv Hx Hop) as [Hok Hbytes].
  destruct (read_advances_full now f n d _ _ Hok Hnow Hmax)
    as (f' & r' & d' & Hrun & -> & Hpos & Hh & Hat & [Hok' Hb'] & Hsec & Hfr).
  pose proof (op_sector _ _ _ Hop) as Hs. rewrite Hs in *. rewrite Hbytes in *.
  destruct (io_keeps m fs d d' table fm ms ds ps ext f f' x) as (K1 & K2 & K3 & K4 & K5); try done; try (by rewrite Hh).
  { intros s H1 H2 _. by apply Hfr. }
  exists f', d'. split_and!; try done. rewrite Forall_forall in K4. apply Forall_forall. intros y Hy.
  destruct (decide (y = x)) as [->|Hne]; [by rewrite K3, Hb'|by apply K4].
Qed.

(** ** Property *)

(** C17. [Read] and [Write] through an open file of the file system: both return,
    keep the invariant of the disk (bitmap, directory, every file's header chain, all
    sectors owned once) and leave every open file open; [Read] returns the file's
    bytes at the position and changes no file, [Write] replaces exactly the bytes at
    the position, up to the end of the file, and changes no other file. *)
Theorem file_io_keeps_file_system m fs (d : D) table fm ms ds ps ext f x junk now from n :
  fs_inv m fs d table fm ms ds ps ext -> x ∈ files table -> opened (contents d) f x ->
  is_i32 now -> seekPosition f + n < 2 ^ 31 -> Forall is_byte from -> (forall k, is_byte (junk k)) ->
  n <= Z.of_nat (length from) ->
  (let r := take (Z.to_nat n) (drop (Z.to_nat (seekPosition f)) (contents_at (contents d) ext x)) in
   exists f' d', Read now f n d = Ok ((f', (Z.of_nat (length r), r)), d') /\
     fs_inv m fs d' table fm ms ds ps ext /\ opened (contents d') f' x /\
     seekPosition f' = seekPosition f + Z.of_nat (length r) /\
     Forall (fun y => contents_at (contents d') ext y = contents_at (contents d) ext y) (files table) /\
     (forall g y, y ∈ files table -> opened (contents d) g y -> opened (contents d') g y)) /\
  (let w := take (Z.to_nat (Z.min n (Length f - seekPosition f))) from in
   exists f' d', Write junk now f from n d = Ok ((f', Z.of_nat (length w)), d') /\
     fs_inv m fs d' table fm ms ds ps ext /\ opened (contents d') f' x /\
     seekPosition f' = seekPosition f + Z.of_nat (length w) /\
     contents_at (contents d') ext x = ins (Z.to_nat (seekPosition f)) w (contents_at (contents d) ext x) /\
     Forall (fun y => y <> x -> contents_at (contents d') ext y = contents_at (contents d) ext y) (files table) /\
     (forall g y, y ∈ files table -> opened (contents d) g y -> opened (contents d') g y)).
Proof.
  intros Hinv Hx Hop Hnow Hmax Hfrom Hjunk Hn. split.
  - exact (read_file m fs d table fm ms ds ps ext f x now n Hinv Hx Hop Hnow Hmax).
  - exact (write_file m fs d table fm ms ds ps ext f x junk now from n Hinv Hx Hop Hnow Hmax Hfrom Hjunk Hn).
Qed.
End FileIO.

(** ** Witness *)

Import PlainDisk.

(** A new file of 100 bytes, and three bytes written to it. *)
Lemma file_io_keeps_file_system_witness :
  exists fs d d' f f' d'', new_file_system env0 true blank_disk = Ok (fs, d) /\
    Create env0 fs 1000 100 d = Ok (true, d') /\
    Write (fun _ => 0) 42 f [1; 2; 3] 3 d' = Ok ((f', 3), d'') /\ seekPosition f' = 3.
Proof.
  destruct (format_ok env0 blank_disk (mem env0) env0_ok blank_disk_ready)
    as (fs & d & table & fm & ms & ds & ps & ext & Hrun & Hinv & Hall & Hmap & Hfree & _).
  destruct (create_ok env0 fs d table fm ms ds ps ext 1000 100 "a"%string env0_ok Hinv eq_refl)
    as (d' & table' & fm' & ext' & x & Hc & Hinv' & Hmap' & Hsz & _).
  - unfold is_u32. lia.
  - rewrite Hmap. apply lookup_empty.
  - destruct table as [|e table]; [discriminate (fi_len _ _ _ _ _ _ _ _ _ Hinv)|].
    exists e. split; [left|]. by apply Forall_cons in Hall as [He _].
  - lia.
  - vm_compute. discriminate.
  - rewrite Hfree. vm_compute. discriminate.
  - assert (Hx : x ∈ files table') by (eapply (dir_map_files (mem env0) _ "a"); rewrite Hmap'; apply lookup_insert_eq).
    destruct (file_io_keeps_file_system (mem env0) fs d' table' fm' ms ds ps ext' _ x (fun _ => 0) 42 [1; 2; 3] 3
      Hinv' Hx (open_opened _ _ _ _ _ _ _ _ _ x Hinv' Hx)) as [_ (f' & d'' & Hw & _ & _ & Hpos & _)].
    + unfold is_i32. lia.
    + cbn. lia.
    + repeat constructor; unfold is_byte; lia.
    + intros k. unfold is_byte. lia.
    + cbn. lia.
    + unfold Length, FileLength in Hw, Hpos. cbn [hdr seekPosition] in Hw, Hpos. rewrite Hsz in Hw, Hpos.
      eexists fs, d, d', _, f', d''. split; [exact Hrun|]. split; [exact Hc|]. split; [exact Hw|exact Hpos].
Defined.
