(* ===== verification/Disk.v ===== *)
(** * [machine/disk.cc]: the simulated disk

    The disk does the transfer at once on its backing file and reports completion
    later, after the time the mechanics would take.  The theorems bound that time
    and relate it to the position of the head. *)

From S2P Require Import Prelude Sectors.

(** [machine/stats.h]. *)
Definition UserTick : Z := 1.
Definition SystemTick : Z := 10.
Definition RotationTime : Z := 500.
Definition SeekTime : Z := 500.
Definition TimerTicks : Z := 100.

(** [class Disk]: [image] is the backing file past its magic number. *)
Record Disk : Type := MkDisk {
  backing : image; active : bool; lastSector : Z; bufferInit : Z
}.

(** [Disk::Disk], for a backing file with contents [img]. *)
Definition new_disk (img : image) : Disk := MkDisk img false 0 0.

(** [Disk::TimeToSeek] at time [now]: the seek time and [*rotation]. *)
Definition TimeToSeek (now : Z) (d : Disk) (newSector : Z) : Z * Z :=
  let newTrack := Z.quot newSector SectorsPerTrack in
  let oldTrack := Z.quot (lastSector d) SectorsPerTrack in
  let seek := Z.abs (newTrack - oldTrack) * SeekTime in
  let over := Z.rem (now + seek) RotationTime in
  (seek, if 0 <? over then RotationTime - over else 0).

(** [Disk::ModuloDiff]. *)
Definition ModuloDiff (to from : Z) : Z :=
  let toOffset := Z.rem to SectorsPerTrack in
  let fromOffset := Z.rem from SectorsPerTrack in
  Z.rem ((toOffset - fromOffset) + SectorsPerTrack) SectorsPerTrack.

(** [Disk::ComputeLatency]. *)
Definition ComputeLatency (now : Z) (d : Disk) (newSector : Z) (writing : bool) : Z :=
  let '(seek, rotation) := TimeToSeek now d newSector in
  let timeAfter := now + seek + rotation in
  if negb writing && (seek =? 0) &&
     (ModuloDiff newSector (Z.quot (bufferInit d) RotationTime)
        <? Z.quot (timeAfter - bufferInit d) RotationTime)
  then RotationTime
  else
    let rotation :=
      rotation + ModuloDiff newSector (Z.quot timeAfter RotationTime) * RotationTime in
    seek + rotation + RotationTime.

(** [Disk::UpdateLast]. *)
Definition UpdateLast (now : Z) (newSector : Z) (d : Disk) : Disk :=
  let '(seek, rotate) := TimeToSeek now d newSector in
  MkDisk (backing d) (active d) newSector
    (if negb (seek =? 0) then now + seek + rotate else bufferInit d).

(** The part of [Disk::ReadRequest] before [Schedule]: the bytes read, and the
    delay [Schedule] is called with. *)
Definition ReadRequest (now : Z) (sectorNumber : Z) : M Disk (list Z * Z) :=
  d ← get;
  let ticks := ComputeLatency now d sectorNumber false in
  _ ← ASSERT (negb (active d));
  _ ← ASSERT ((0 <=? sectorNumber) && (sectorNumber <? NumSectors));
  let data := sector (backing d) sectorNumber in
  _ ← modify (fun d => UpdateLast now sectorNumber
                (MkDisk (backing d) true (lastSector d) (bufferInit d)));
  mret (data, ticks).

(** The part of [Disk::WriteRequest] before [Schedule]. *)
Definition WriteRequest (now : Z) (sectorNumber : Z) (data : list Z) : M Disk Z :=
  d ← get;
  let ticks := ComputeLatency now d sectorNumber true in
  _ ← ASSERT (negb (active d));
  _ ← ASSERT ((0 <=? sectorNumber) && (sectorNumber <? NumSectors));
  _ ← modify (fun d => UpdateLast now sectorNumber
                (MkDisk (update sectorNumber data (backing d)) true (lastSector d) (bufferInit d)));
  mret ticks.

(** [Disk::HandleInterrupt] before it calls the handler of the client. *)
Definition HandleInterrupt (d : Disk) : Disk :=
  MkDisk (backing d) false (lastSector d) (bufferInit d).

(** ** Facts *)

Lemma modulo_diff_spec to from :
  0 <= to -> 0 <= from ->
  0 <= ModuloDiff to from < 32 /\ (from + ModuloDiff to from) mod 32 = to mod 32.
Proof.
  intros Ht Hf. unfold ModuloDiff. change SectorsPerTrack with 32.
  rewrite (Z.rem_mod_nonneg to 32), (Z.rem_mod_nonneg from 32) by lia.
  pose proof (Z.mod_pos_bound to 32 ltac:(lia)). pose proof (Z.mod_pos_bound from 32 ltac:(lia)).
  rewrite Z.rem_mod_nonneg by lia. split; [apply Z.mod_pos_bound; lia|].
  rewrite Z.add_mod_idemp_r by lia.
  replace (from + (to mod 32 - from mod 32 + 32)) with (to mod 32 + (from - from mod 32) + 1 * 32) by lia.
  rewrite Z.mod_add by lia. rewrite (Z.div_mod from 32) at 1 by lia.
  replace (to mod 32 + (32 * (from / 32) + from mod 32 - from mod 32)) with (to mod 32 + (from / 32) * 32) by lia.
  rewrite Z.mod_add, Z.mod_mod by lia. done.
Qed.

(** The seek ends, after [rotation], at a sector boundary. *)
Lemma time_to_seek_spec now d s :
  0 <= now -> is_sector s -> is_sector (lastSector d) ->
  let '(seek, rotation) := TimeToSeek now d s in
  seek = Z.abs (s / 32 - lastSector d / 32) * 500 /\ 0 <= seek <= 31 * 500 /\
  0 <= rotation < 500 /\ (now + seek + rotation) mod 500 = 0.
Proof.
  intros Hn Hs Hl. unfold is_sector in *. change NumSectors with 1024 in *. unfold TimeToSeek.
  change SectorsPerTrack with 32. change SeekTime with 500. change RotationTime with 500.
  rewrite !(Z.quot_div_nonneg _ 32) by lia.
  assert (0 <= s / 32 < 32) by (split; [apply Z.div_pos|apply Z.div_lt_upper_bound]; lia).
  assert (0 <= lastSector d / 32 < 32) by (split; [apply Z.div_pos|apply Z.div_lt_upper_bound]; lia).
  set (seek := Z.abs (s / 32 - lastSector d / 32) * 500).
  assert (0 <= seek <= 31 * 500) by (unfold seek; lia).
  rewrite Z.rem_mod_nonneg by lia. pose proof (Z.mod_pos_bound (now + seek) 500 ltac:(lia)).
  split; [done|]. split; [done|]. destruct (Z.ltb_spec 0 ((now + seek) mod 500)).
  - split; [lia|]. rewrite <- Z.add_mod_idemp_l by lia.
    replace ((now + seek) mod 500 + (500 - (now + seek) mod 500)) with 500 by lia. done.
  - split; [lia|]. rewrite Z.add_0_r. lia.
Qed.

(** The latency is positive and bounded. *)
Lemma latency_bounds now d s w :
  0 <= now -> is_sector s -> is_sector (lastSector d) ->
  500 <= ComputeLatency now d s w <= 31 * 500 + 499 + 31 * 500 + 500.
Proof.
  intros Hn Hs Hl. unfold ComputeLatency. pose proof (time_to_seek_spec now d s Hn Hs Hl) as Ht.
  destruct (TimeToSeek now d s) as [seek rotation]. destruct Ht as (_ & Hseek & Hrot & _).
  change RotationTime with 500. case_if; [lia|].
  destruct (modulo_diff_spec s (Z.quot (now + seek + rotation) 500)) as [Hd _].
  - unfold is_sector in Hs. lia.
  - apply Z.quot_pos; lia.
  - lia.
Qed.


