(* ===== verification/Kernel.v ===== *)
(** * The kernel: [threads/] and [machine/interrupt.cc], [machine/timer.cc]

    The kernel is a machine that runs one thread at a time.  A thread's stack is a
    list of [frame]s, what is left to do of the calls it has made; [SWITCH] makes
    another thread's stack the one that runs.  [step] executes the frame on top of
    the running thread's stack.  Code that cannot lose the processor (interrupts
    are off and no thread switch is made) is one step; interrupt handlers run
    inside the step that enables interrupts or finds the machine idle, as in the
    code.  The threads are arbitrary client programs over the kernel's calls
    ([op]).

    The ticks are unbounded integers here; the code keeps them in [int]s. *)

From S2P Require Import Prelude NList Sectors Disk.

(** ** Data *)

(** [thread.h]. *)
Inductive ThreadStatus : Type := JUST_CREATED | RUNNING | READY | BLOCKED.
Definition MaxThreadCount : Z := 128.
Definition STACK_FENCEPOST : Z := 3735928559.

(** [interrupt.h]. *)
Inductive IntStatus : Type := IntOff | IntOn.
Inductive MachineStatus : Type := IdleMode | SystemMode | UserMode.
Inductive IntType : Type :=
| TimerInt | DiskInt | ConsoleWriteInt | ConsoleReadInt | NetworkSendInt | NetworkRecvInt.

#[export] Instance ThreadStatus_eq_dec : EqDecision ThreadStatus.
Proof. solve_decision. Defined.
#[export] Instance IntStatus_eq_dec : EqDecision IntStatus.
Proof. solve_decision. Defined.
#[export] Instance MachineStatus_eq_dec : EqDecision MachineStatus.
Proof. solve_decision. Defined.
#[export] Instance IntType_eq_dec : EqDecision IntType.
Proof. solve_decision. Defined.

(** The handlers devices schedule: [TimerHandler] of [timer.cc], [DiskDone] of
    [disk.cc]. *)
Inductive Handler : Type :=
| TimerHandler (rounding : bool) (* of the timer with [RoundingTimerInterruptHandler]
                                    or the one with [TimerInterruptHandler] *)
| DiskDone.

Record PendingInterrupt : Type := MkPend { handler : Handler; when : Z; type : IntType }.

(** The result of [queue->Remove()] as a list. *)
Definition option_list {A : Type} (o : option A) : list A :=
  match o with Some x => [x] | None => [] end.

(** The calls a thread makes.  Semaphores, locks and condition variables are named
    by their index; [OpFork prio body] is [new Thread] followed by [Fork]. *)
Inductive op : Type :=
| OpP (s : nat)
| OpV (s : nat)
| OpAcquire (l : nat)
| OpRelease (l : nat)
| OpWait (c l : nat)
| OpSignal (c l : nat)
| OpBroadcast (c l : nat)
| OpYield
| OpSetPriority (prio : Z)
| OpOneTick
| OpFork (prio : Z) (body : list op)
| OpReadSector (s : Z)
| OpWriteSector (s : Z) (data : list Z).

(** What a thread still has to do, by the place in the code it will resume at. *)
Inductive frame : Type :=
| FOp (o : op)                    (* make this call *)
| FPLoop (s : nat)                (* [Semaphore::P] at its [while] *)
| FSetLevel (l : IntStatus)       (* [interrupt->SetLevel(l)] *)
| FSetHolder (l : nat)            (* [Lock::Acquire] after [sema->P()] *)
| FSleepLoop                      (* [Thread::Sleep] at its [while] *)
| FAfterRun                       (* [Scheduler::Run] after [SWITCH] *)
| FYield                          (* [OneTick] at [currentThread->Yield()] *)
| FSetStatus (m : MachineStatus)  (* [OneTick] at [status = old] *)
| FEnable                         (* [ThreadRoot] at [InterruptEnable] *)
| FFinish                         (* [ThreadRoot] at [ThreadFinish] *)
| FReadRequest (s : Z)            (* [SynchDisk::ReadSector] at [ReadRequest] *)
| FWriteRequest (s : Z) (data : list Z).

(** [class Thread]; [stack] is the word at the bottom of the stack, [None] for the
    main thread's; [buf] is the buffer the thread's disk reads go to. *)
Record Thread : Type := MkThread {
  tid : Z;
  priority : Z;
  tstatus : ThreadStatus;
  stack : option Z;
  frames : list frame;
  buf : list Z
}.

(** [class Semaphore]: [value] and [queue].  The other fields are history the code
    does not read: the value it was made with, how many [P]s and [V]s have taken
    effect, and the threads [V] has taken from the queue that have not tested
    [value] since. *)
Record Semaphore : Type := MkSem {
  value : Z; queue : list (Z * nat);
  initial : Z; downs : Z; ups : Z; woken : list nat
}.

(** [class Lock]. *)
Record Lock : Type := MkLock { sema : nat; holdingThread : option nat }.

(** [class Interrupt]. *)
Record Interrupt : Type := MkInterrupt {
  level : IntStatus;
  pending : list (Z * PendingInterrupt);
  inHandler : bool;
  yieldOnReturn : bool;
  status : MachineStatus
}.

(** [class Statistics], the counters the kernel changes. *)
Record Statistics : Type := MkStats {
  totalTicks : Z;
  idleTicks : Z;
  systemTicks : Z;
  userTicks : Z;
  numDiskReads : Z;
  numDiskWrites : Z
}.

(** The globals of [system.cc], and the objects they point to.  [conds] are the
    [waitingQueue]s of the condition variables; [nextThread] is the address the
    next [new Thread] returns, [draws] the number of calls of [Random()] made. *)
Record Kernel : Type := MkKernel {
  threads : gmap nat Thread;
  nextThread : nat;
  currentThread : nat;
  threadToBeDestroyed : option nat;
  ThreadIDOccupied : list bool;
  thread_poiners : list (option nat);
  readyList : list (Z * nat);
  lastSwitchTime : Z;
  sems : list Semaphore;
  locks : list Lock;
  conds : list (list (Z * nat));
  interrupt : Interrupt;
  stats : Statistics;
  disk : Disk;
  draws : nat
}.

Definition set_tid (v : Z) (r : Thread) : Thread :=
  MkThread v (priority r) (tstatus r) (stack r) (frames r) (buf r).
Definition set_priority (v : Z) (r : Thread) : Thread :=
  MkThread (tid r) v (tstatus r) (stack r) (frames r) (buf r).
Definition set_tstatus (v : ThreadStatus) (r : Thread) : Thread :=
  MkThread (tid r) (priority r) v (stack r) (frames r) (buf r).
Definition set_stack (v : option Z) (r : Thread) : Thread :=
  MkThread (tid r) (priority r) (tstatus r) v (frames r) (buf r).
Definition set_frames (v : list frame) (r : Thread) : Thread :=
  MkThread (tid r) (priority r) (tstatus r) (stack r) v (buf r).
Definition set_buf (v : list Z) (r : Thread) : Thread :=
  MkThread (tid r) (priority r) (tstatus r) (stack r) (frames r) v.
Definition set_level (v : IntStatus) (r : Interrupt) : Interrupt :=
  MkInterrupt v (pending r) (inHandler r) (yieldOnReturn r) (status r).
Definition set_pending (v : list (Z * PendingInterrupt)) (r : Interrupt) : Interrupt :=
  MkInterrupt (level r) v (inHandler r) (yieldOnReturn r) (status r).
Definition set_inHandler (v : bool) (r : Interrupt) : Interrupt :=
  MkInterrupt (level r) (pending r) v (yieldOnReturn r) (status r).
Definition set_yieldOnReturn (v : bool) (r : Interrupt) : Interrupt :=
  MkInterrupt (level r) (pending r) (inHandler r) v (status r).
Definition set_status (v : MachineStatus) (r : Interrupt) : Interrupt :=
  MkInterrupt (level r) (pending r) (inHandler r) (yieldOnReturn r) v.
Definition set_totalTicks (v : Z) (r : Statistics) : Statistics :=
  MkStats v (idleTicks r) (systemTicks r) (userTicks r) (numDiskReads r) (numDiskWrites r).
Definition set_idleTicks (v : Z) (r : Statistics) : Statistics :=
  MkStats (totalTicks r) v (systemTicks r) (userTicks r) (numDiskReads r) (numDiskWrites r).
Definition set_systemTicks (v : Z) (r : Statistics) : Statistics :=
  MkStats (totalTicks r) (idleTicks r) v (userTicks r) (numDiskReads r) (numDiskWrites r).
Definition set_userTicks (v : Z) (r : Statistics) : Statistics :=
  MkStats (totalTicks r) (idleTicks r) (systemTicks r) v (numDiskReads r) (numDiskWrites r).
Definition set_numDiskReads (v : Z) (r : Statistics) : Statistics :=
  MkStats (totalTicks r) (idleTicks r) (systemTicks r) (userTicks r) v (numDiskWrites r).
Definition set_numDiskWrites (v : Z) (r : Statistics) : Statistics :=
  MkStats (totalTicks r) (idleTicks r) (systemTicks r) (userTicks r) (numDiskReads r) v.
Definition set_threads (v : gmap nat Thread) (r : Kernel) : Kernel :=
  MkKernel v (nextThread r) (currentThread r) (threadToBeDestroyed r) (ThreadIDOccupied r) (thread_poiners r) (readyList r) (lastSwitchTime r) (sems r) (locks r) (conds r) (interrupt r) (stats r) (disk r) (draws r).
Definition set_nextThread (v : nat) (r : Kernel) : Kernel :=
  MkKernel (threads r) v (currentThread r) (threadToBeDestroyed r) (ThreadIDOccupied r) (thread_poiners r) (readyList r) (lastSwitchTime r) (sems r) (locks r) (conds r) (interrupt r) (stats r) (disk r) (draws r).
Definition set_currentThread (v : nat) (r : Kernel) : Kernel :=
  MkKernel (threads r) (nextThread r) v (threadToBeDestroyed r) (ThreadIDOccupied r) (thread_poiners r) (readyList r) (lastSwitchTime r) (sems r) (locks r) (conds r) (interrupt r) (stats r) (disk r) (draws r).
Definition set_threadToBeDestroyed (v : option nat) (r : Kernel) : Kernel :=
  MkKernel (threads r) (nextThread r) (currentThread r) v (ThreadIDOccupied r) (thread_poiners r) (readyList r) (lastSwitchTime r) (sems r) (locks r) (conds r) (interrupt r) (stats r) (disk r) (draws r).
Definition set_ThreadIDOccupied (v : list bool) (r : Kernel) : Kernel :=
  MkKernel (threads r) (nextThread r) (currentThread r) (threadToBeDestroyed r) v (thread_poiners r) (readyList r) (lastSwitchTime r) (sems r) (locks r) (conds r) (interrupt r) (stats r) (disk r) (draws r).
Definition set_thread_poiners (v : list (option nat)) (r : Kernel) : Kernel :=
  MkKernel (threads r) (nextThread r) (currentThread r) (threadToBeDestroyed r) (ThreadIDOccupied r) v (readyList r) (lastSwitchTime r) (sems r) (locks r) (conds r) (interrupt r) (stats r) (disk r) (draws r).
Definition set_readyList (v : list (Z * nat)) (r : Kernel) : Kernel :=
  MkKernel (threads r) (nextThread r) (currentThread r) (threadToBeDestroyed r) (ThreadIDOccupied r) (thread_poiners r) v (lastSwitchTime r) (sems r) (locks r) (conds r) (interrupt r) (stats r) (disk r) (draws r).
Definition set_lastSwitchTime (v : Z) (r : Kernel) : Kernel :=
  MkKernel (threads r) (nextThread r) (currentThread r) (threadToBeDestroyed r) (ThreadIDOccupied r) (thread_poiners r) (readyList r) v (sems r) (locks r) (conds r) (interrupt r) (stats r) (disk r) (draws r).
Definition set_sems (v : list Semaphore) (r : Kernel) : Kernel :=
  MkKernel (threads r) (nextThread r) (currentThread r) (threadToBeDestroyed r) (ThreadIDOccupied r) (thread_poiners r) (readyList r) (lastSwitchTime r) v (locks r) (conds r) (interrupt r) (stats r) (disk r) (draws r).
Definition set_locks (v : list Lock) (r : Kernel) : Kernel :=
  MkKernel (threads r) (nextThread r) (currentThread r) (threadToBeDestroyed r) (ThreadIDOccupied r) (thread_poiners r) (readyList r) (lastSwitchTime r) (sems r) v (conds r) (interrupt r) (stats r) (disk r) (draws r).
Definition set_conds (v : list (list (Z * nat))) (r : Kernel) : Kernel :=
  MkKernel (threads r) (nextThread r) (currentThread r) (threadToBeDestroyed r) (ThreadIDOccupied r) (thread_poiners r) (readyList r) (lastSwitchTime r) (sems r) (locks r) v (interrupt r) (stats r) (disk r) (draws r).
Definition set_interrupt (v : Interrupt) (r : Kernel) : Kernel :=
  MkKernel (threads r) (nextThread r) (currentThread r) (threadToBeDestroyed r) (ThreadIDOccupied r) (thread_poiners r) (readyList r) (lastSwitchTime r) (sems r) (locks r) (conds r) v (stats r) (disk r) (draws r).
Definition set_stats (v : Statistics) (r : Kernel) : Kernel :=
  MkKernel (threads r) (nextThread r) (currentThread r) (threadToBeDestroyed r) (ThreadIDOccupied r) (thread_poiners r) (readyList r) (lastSwitchTime r) (sems r) (locks r) (conds r) (interrupt r) v (disk r) (draws r).
Definition set_disk (v : Disk) (r : Kernel) : Kernel :=
  MkKernel (threads r) (nextThread r) (currentThread r) (threadToBeDestroyed r) (ThreadIDOccupied r) (thread_poiners r) (readyList r) (lastSwitchTime r) (sems r) (locks r) (conds r) (interrupt r) (stats r) v (draws r).
Definition set_draws (v : nat) (r : Kernel) : Kernel :=
  MkKernel (threads r) (nextThread r) (currentThread r) (threadToBeDestroyed r) (ThreadIDOccupied r) (thread_poiners r) (readyList r) (lastSwitchTime r) (sems r) (locks r) (conds r) (interrupt r) (stats r) (disk r) v.

(** How the system was started: the [-rs] and [-rd] flags of [Initialize], and the
    semaphore and the lock of [SynchDisk]. *)
Record Config : Type := MkConfig {
  randomYield : bool; roundingSlice : bool; disk_sem : nat; disk_lock : nat
}.

(** ** Operations *)

Section Kernel.
Context (Random : nat -> Z) (cfg : Config).

Definition thread (t : nat) : M Kernel Thread := fun k =>
  match threads k !! t with Some x => Ok (x, k) | None => Stop Undefined end.
Definition put_thread (t : nat) (T : Thread) : M Kernel unit :=
  modify (fun k => set_threads (<[t := T]> (threads k)) k).
Definition with_thread (t : nat) (f : Thread -> Thread) : M Kernel unit :=
  T ← thread t; put_thread t (f T).
Definition push (fs : list frame) : M Kernel unit :=
  t ← gets currentThread;
  with_thread t (fun T => set_frames (fs ++ frames T) T).

(** [Scheduler::ReadyToRun]. *)
Definition ReadyToRun (t : nat) : M Kernel unit :=
  _ ← with_thread t (set_tstatus READY);
  T ← thread t;
  modify (fun k => set_readyList (Lists.sorted_insert t (priority T) (readyList k)) k).

(** [Scheduler::FindNextToRun]. *)
Definition FindNextToRun : M Kernel (option nat) := fun k =>
  let '(t, l) := Lists.remove (readyList k) in Ok (t, set_readyList l k).

(** [Interrupt::ChangeLevel]. *)
Definition ChangeLevel (now : IntStatus) : M Kernel unit :=
  modify (fun k => set_interrupt (set_level now (interrupt k)) k).
(** [interrupt->SetLevel(IntOff)]: the old level. *)
Definition SetLevelOff : M Kernel IntStatus :=
  old ← gets (fun k => level (interrupt k));
  _ ← ChangeLevel IntOff;
  mret old.

(** [Interrupt::Schedule]. *)
Definition Schedule (h : Handler) (fromNow : Z) (ty : IntType) : M Kernel unit :=
  w ← gets (fun k => totalTicks (stats k) + fromNow);
  _ ← ASSERT (0 <? fromNow);
  modify (fun k => set_interrupt
    (set_pending (Lists.sorted_insert (MkPend h w ty) w (pending (interrupt k))) (interrupt k)) k).

(** [Interrupt::YieldOnReturn]. *)
Definition YieldOnReturn : M Kernel unit :=
  b ← gets (fun k => inHandler (interrupt k));
  _ ← ASSERT b;
  modify (fun k => set_interrupt (set_yieldOnReturn true (interrupt k)) k).

(** [Timer::TimeOfNextInterrupt]. *)
Definition TimeOfNextInterrupt : M Kernel Z :=
  if randomYield cfg then
    n ← gets draws;
    _ ← modify (set_draws (S n));
    mret (1 + Z.rem (Random n) (TimerTicks * 2))
  else mret TimerTicks.

(** [TimerInterruptHandler] of [system.cc]. *)
Definition TimerInterruptHandler : M Kernel unit :=
  m ← gets (fun k => status (interrupt k));
  if bool_decide (m <> IdleMode) then YieldOnReturn else mret tt.

(** [RoundingTimerInterruptHandler] of [system.cc]. *)
Definition RoundingTimerInterruptHandler : M Kernel unit :=
  timeDuration ← gets (fun k => totalTicks (stats k) - lastSwitchTime k);
  if TimerTicks <=? timeDuration then
    m ← gets (fun k => status (interrupt k));
    if bool_decide (m <> IdleMode) then
      _ ← YieldOnReturn;
      modify (fun k => set_lastSwitchTime (totalTicks (stats k)) k)
    else mret tt
  else mret tt.

(** [Timer::TimerExpired]. *)
Definition TimerExpired (rounding : bool) : M Kernel unit :=
  n ← TimeOfNextInterrupt;
  _ ← Schedule (TimerHandler rounding) n TimerInt;
  if rounding then RoundingTimerInterruptHandler else TimerInterruptHandler.

Definition sem (s : nat) : M Kernel Semaphore := fun k =>
  match sems k !! s with Some x => Ok (x, k) | None => Stop Undefined end.
Definition put_sem (s : nat) (x : Semaphore) : M Kernel unit :=
  modify (fun k => set_sems (<[s := x]> (sems k)) k).

(** [Semaphore::V] between its two [SetLevel]s. *)
Definition V_body (s : nat) : M Kernel unit :=
  x ← sem s;
  let '(t, q) := Lists.remove (queue x) in
  _ ← put_sem s (MkSem (value x) q (initial x) (downs x) (ups x) (woken x ++ option_list t));
  _ ← match t with Some t => ReadyToRun t | None => mret tt end;
  x ← sem s;
  put_sem s (MkSem (value x + 1) (queue x) (initial x) (downs x) (ups x + 1) (woken x)).

(** [Semaphore::V] in an interrupt handler, where the old level is [IntOff] (the
    second [SetLevel] asserts it) and no time passes. *)
Definition V_in_handler (s : nat) : M Kernel unit :=
  old ← SetLevelOff;
  _ ← V_body s;
  b ← gets (fun k => inHandler (interrupt k));
  _ ← ASSERT (bool_decide (old = IntOff) || negb b);
  ChangeLevel old.

(** The handlers: [Timer::TimerExpired]; [Disk::HandleInterrupt], which calls
    [SynchDisk::RequestDone]. *)
Definition run_handler (h : Handler) : M Kernel unit :=
  match h with
  | TimerHandler rounding => TimerExpired rounding
  | DiskDone =>
      _ ← modify (fun k => set_disk (HandleInterrupt (disk k)) k);
      V_in_handler (disk_sem cfg)
  end.

Definition set_machine_status (m : MachineStatus) : M Kernel unit :=
  modify (fun k => set_interrupt (set_status m (interrupt k)) k).
Definition put_pending (p : list (Z * PendingInterrupt)) : M Kernel unit :=
  modify (fun k => set_interrupt (set_pending p (interrupt k)) k).

(** [Interrupt::CheckIfDue] from the point where the handler is called. *)
Definition fire (old : MachineStatus) (toOccur : PendingInterrupt) : M Kernel bool :=
  _ ← modify (fun k => set_interrupt (set_inHandler true (interrupt k)) k);
  _ ← set_machine_status SystemMode;
  _ ← run_handler (handler toOccur);
  _ ← set_machine_status old;
  _ ← modify (fun k => set_interrupt (set_inHandler false (interrupt k)) k);
  mret true.

(** [Interrupt::CheckIfDue]. *)
Definition CheckIfDue (advanceClock : bool) : M Kernel bool :=
  old ← gets (fun k => status (interrupt k));
  l ← gets (fun k => level (interrupt k));
  _ ← ASSERT (bool_decide (l = IntOff));
  p ← gets (fun k => pending (interrupt k));
  match Lists.sorted_remove p with
  | (None, _) => mret false
  | (Some (w, toOccur), rest) =>
      _ ← put_pending rest;
      now ← gets (fun k => totalTicks (stats k));
      if negb advanceClock && (now <? w) then
        _ ← put_pending (Lists.sorted_insert toOccur w rest);
        mret false
      else
        _ ← (if now <? w then
               modify (fun k => set_stats (set_totalTicks w
                 (set_idleTicks (idleTicks (stats k) + (w - now)) (stats k))) k)
             else mret tt);
        if bool_decide (old = IdleMode) && bool_decide (type toOccur = TimerInt)
             && Lists.is_empty rest
        then
          _ ← put_pending (Lists.sorted_insert toOccur w rest);
          mret false
        else fire old toOccur
  end.

(** [while (CheckIfDue(FALSE)) ;]. *)
Fixpoint check_due (fuel : nat) : M Kernel unit :=
  match fuel with
  | O => halt OutOfFuel
  | S fuel => b ← CheckIfDue false; if (b : bool) then check_due fuel else mret tt
  end.
Definition CheckAllDue : M Kernel unit :=
  n ← gets (fun k => length (pending (interrupt k)));
  check_due (S n).

(** [Interrupt::OneTick]; the [Yield] it may end with is left to the stack. *)
Definition OneTick : M Kernel unit :=
  old ← gets (fun k => status (interrupt k));
  _ ← (if bool_decide (old = SystemMode) then
         modify (fun k => set_stats (set_totalTicks (totalTicks (stats k) + SystemTick)
           (set_systemTicks (systemTicks (stats k) + SystemTick) (stats k))) k)
       else
         modify (fun k => set_stats (set_totalTicks (totalTicks (stats k) + UserTick)
           (set_userTicks (userTicks (stats k) + UserTick) (stats k))) k));
  _ ← ChangeLevel IntOff;
  _ ← CheckAllDue;
  _ ← ChangeLevel IntOn;
  y ← gets (fun k => yieldOnReturn (interrupt k));
  if (y : bool) then
    _ ← modify (fun k => set_interrupt (set_yieldOnReturn false (interrupt k)) k);
    _ ← set_machine_status SystemMode;
    push [FYield; FSetStatus old]
  else mret tt.

(** [Interrupt::SetLevel]. *)
Definition SetLevel (now : IntStatus) : M Kernel unit :=
  old ← gets (fun k => level (interrupt k));
  b ← gets (fun k => inHandler (interrupt k));
  _ ← ASSERT (bool_decide (now = IntOff) || negb b);
  _ ← ChangeLevel now;
  if bool_decide (now = IntOn) && bool_decide (old = IntOff) then OneTick else mret tt.

(** [Interrupt::Idle]. *)
Definition Idle : M Kernel unit :=
  _ ← set_machine_status IdleMode;
  b ← CheckIfDue true;
  if (b : bool) then
    _ ← CheckAllDue;
    _ ← modify (fun k => set_interrupt (set_yieldOnReturn false (interrupt k)) k);
    set_machine_status SystemMode
  else halt Halted.

(** [Thread::CheckOverflow]. *)
Definition CheckOverflow (T : Thread) : M Kernel unit :=
  ASSERT (match stack T with None => true | Some w => w =? STACK_FENCEPOST end).

(** [Scheduler::Run] up to [SWITCH]. *)
Definition Run (next : nat) : M Kernel unit :=
  old ← gets currentThread;
  T ← thread old;
  _ ← CheckOverflow T;
  _ ← push [FAfterRun];
  _ ← modify (set_currentThread next);
  with_thread next (set_tstatus RUNNING).

(** [Thread::~Thread]. *)
Definition delete_thread (t : nat) : M Kernel unit :=
  cur ← gets currentThread;
  _ ← ASSERT (negb (bool_decide (t = cur)));
  T ← thread t;
  occ ← gets ThreadIDOccupied;
  occ ← lift (aset occ (tid T) false);
  ptrs ← gets thread_poiners;
  ptrs ← lift (aset ptrs (tid T) None);
  modify (fun k => set_threads (delete t (threads k))
    (set_ThreadIDOccupied occ (set_thread_poiners ptrs k))).

(** [Scheduler::Run] after [SWITCH]. *)
Definition AfterRun : M Kernel unit :=
  d ← gets threadToBeDestroyed;
  match d with
  | Some t => _ ← delete_thread t; modify (set_threadToBeDestroyed None)
  | None => mret tt
  end.

(** [Thread::Yield]. *)
Definition Yield : M Kernel unit :=
  old ← SetLevelOff;
  cur ← gets currentThread;
  next ← FindNextToRun;
  _ ← push [FSetLevel old];
  match next with
  | Some n => _ ← ReadyToRun cur; Run n
  | None => mret tt
  end.

(** [Thread::Sleep] up to its loop. *)
Definition Sleep : M Kernel unit :=
  cur ← gets currentThread;
  l ← gets (fun k => level (interrupt k));
  _ ← ASSERT (bool_decide (l = IntOff));
  _ ← with_thread cur (set_tstatus BLOCKED);
  push [FSleepLoop].

(** The loop of [Thread::Sleep], one round. *)
Definition SleepLoop : M Kernel unit :=
  next ← FindNextToRun;
  match next with
  | Some n => Run n
  | None => _ ← Idle; push [FSleepLoop]
  end.

(** [Thread::Finish]. *)
Definition Finish : M Kernel unit :=
  _ ← SetLevelOff;
  cur ← gets currentThread;
  _ ← modify (set_threadToBeDestroyed (Some cur));
  Sleep.

(** The index of the first free thread id, from [i] on. *)
Fixpoint free_id (i : Z) (occ : list bool) : option Z :=
  match occ with
  | [] => None
  | b :: occ => if negb b then Some i else free_id (i + 1) occ
  end.

(** [Thread::Thread]. *)
Definition new_thread (prio : Z) : M Kernel nat :=
  t ← gets nextThread;
  occ ← gets ThreadIDOccupied;
  match free_id 0 occ with
  | None => halt AssertFailed
  | Some i =>
      occ ← lift (aset occ i true);
      ptrs ← gets thread_poiners;
      ptrs ← lift (aset ptrs i (Some t));
      _ ← ASSERT ((0 <=? prio) && (prio <? 256));
      _ ← modify (fun k => set_nextThread (S t)
            (set_ThreadIDOccupied occ (set_thread_poiners ptrs k)));
      _ ← put_thread t (MkThread i prio JUST_CREATED None [] []);
      mret t
  end.

(** [Thread::SetPriority] of the running thread; [prio] is not checked. *)
Definition SetPriority (prio : Z) : M Kernel unit :=
  cur ← gets currentThread;
  with_thread cur (set_priority prio).

(** What [ThreadRoot] runs for a thread forked on [body]. *)
Definition thread_root (body : list op) : list frame := FEnable :: (FOp <$> body) ++ [FFinish].

(** [Thread::Fork], with [Thread::StackAllocate]. *)
Definition Fork (t : nat) (body : list op) : M Kernel unit :=
  _ ← with_thread t (fun T => set_stack (Some STACK_FENCEPOST) (set_frames (thread_root body) T));
  old ← SetLevelOff;
  _ ← ReadyToRun t;
  push [FSetLevel old].

(** [Semaphore::P] up to its loop. *)
Definition P (s : nat) : M Kernel unit :=
  old ← SetLevelOff; push [FPLoop s; FSetLevel old].

(** The loop of [Semaphore::P], one round, and the decrement after it. *)
Definition PLoop (s : nat) : M Kernel unit :=
  x ← sem s;
  cur ← gets currentThread;
  let woken := filter (fun t => t <> cur) (woken x) in
  if value x =? 0 then
    _ ← put_sem s (MkSem (value x) (Lists.append cur (queue x)) (initial x) (downs x) (ups x) woken);
    _ ← push [FPLoop s];
    Sleep
  else put_sem s (MkSem (value x - 1) (queue x) (initial x) (downs x + 1) (ups x) woken).

(** [Semaphore::V]. *)
Definition V (s : nat) : M Kernel unit :=
  old ← SetLevelOff; _ ← V_body s; push [FSetLevel old].

Definition lock (l : nat) : M Kernel Lock := fun k =>
  match locks k !! l with Some x => Ok (x, k) | None => Stop Undefined end.
Definition put_holder (l : nat) (h : option nat) : M Kernel unit :=
  L ← lock l; modify (fun k => set_locks (<[l := MkLock (sema L) h]> (locks k)) k).

(** [Lock::Acquire], [Lock::Release]. *)
Definition Acquire (l : nat) : M Kernel unit :=
  L ← lock l; _ ← push [FSetHolder l]; P (sema L).
Definition SetHolder (l : nat) : M Kernel unit :=
  cur ← gets currentThread; put_holder l (Some cur).
Definition Release (l : nat) : M Kernel unit :=
  _ ← put_holder l None; L ← lock l; V (sema L).

(** [Lock::isHeldByCurrentThread]. *)
Definition isHeldByCurrentThread (l : nat) : M Kernel bool :=
  L ← lock l; cur ← gets currentThread; mret (bool_decide (holdingThread L = Some cur)).

Definition cond (c : nat) : M Kernel (list (Z * nat)) := fun k =>
  match conds k !! c with Some x => Ok (x, k) | None => Stop Undefined end.
Definition put_cond (c : nat) (q : list (Z * nat)) : M Kernel unit :=
  modify (fun k => set_conds (<[c := q]> (conds k)) k).

(** [Condition::Wait] up to [Sleep]; the [V] inside [Release] runs with interrupts
    already off. *)
Definition Wait (c l : nat) : M Kernel unit :=
  old ← SetLevelOff;
  _ ← put_holder l None;
  L ← lock l;
  _ ← V_body (sema L);
  q ← cond c;
  cur ← gets currentThread;
  _ ← put_cond c (Lists.append cur q);
  _ ← push [FOp (OpAcquire l); FSetLevel old];
  Sleep.

(** [Condition::Signal]. *)
Definition Signal (c l : nat) : M Kernel unit :=
  old ← SetLevelOff;
  held ← isHeldByCurrentThread l;
  _ ← (if (held : bool) then
         q ← cond c;
         let '(t, q) := Lists.remove q in
         _ ← put_cond c q;
         match t with Some t => ReadyToRun t | None => mret tt end
       else mret tt);
  push [FSetLevel old].

(** The loop of [Condition::Broadcast], on the queue it empties. *)
Fixpoint broadcast_loop (c : nat) (q : list (Z * nat)) : M Kernel unit :=
  match q with
  | [] => mret tt
  | (_, t) :: q => _ ← put_cond c q; _ ← ReadyToRun t; broadcast_loop c q
  end.

(** [Condition::Broadcast]. *)
Definition Broadcast (c l : nat) : M Kernel unit :=
  old ← SetLevelOff;
  held ← isHeldByCurrentThread l;
  _ ← (if (held : bool) then q ← cond c; broadcast_loop c q else mret tt);
  push [FSetLevel old].

(** [Disk::ReadRequest] and [Disk::WriteRequest] with their [Schedule]. *)
Definition disk_read (s : Z) : M Kernel unit :=
  now ← gets (fun k => totalTicks (stats k));
  '(data, ticks) ← zoom (Lens disk set_disk) (ReadRequest now s);
  cur ← gets currentThread;
  _ ← with_thread cur (set_buf data);
  _ ← modify (fun k => set_stats (set_numDiskReads (numDiskReads (stats k) + 1) (stats k)) k);
  Schedule DiskDone ticks DiskInt.
Definition disk_write (s : Z) (data : list Z) : M Kernel unit :=
  now ← gets (fun k => totalTicks (stats k));
  ticks ← zoom (Lens disk set_disk) (WriteRequest now s data);
  _ ← modify (fun k => set_stats (set_numDiskWrites (numDiskWrites (stats k) + 1) (stats k)) k);
  Schedule DiskDone ticks DiskInt.

(** A call of a thread. *)
Definition call (o : op) : M Kernel unit :=
  match o with
  | OpP s => P s
  | OpV s => V s
  | OpAcquire l => Acquire l
  | OpRelease l => Release l
  | OpWait c l => Wait c l
  | OpSignal c l => Signal c l
  | OpBroadcast c l => Broadcast c l
  | OpYield => Yield
  | OpSetPriority prio => SetPriority prio
  | OpOneTick => OneTick
  | OpFork prio body => t ← new_thread prio; Fork t body
  | OpReadSector s => (* [SynchDisk::ReadSector] *)
      push [FOp (OpAcquire (disk_lock cfg)); FReadRequest s; FOp (OpP (disk_sem cfg));
            FOp (OpRelease (disk_lock cfg))]
  | OpWriteSector s data => (* [SynchDisk::WriteSector] *)
      push [FOp (OpAcquire (disk_lock cfg)); FWriteRequest s data; FOp (OpP (disk_sem cfg));
            FOp (OpRelease (disk_lock cfg))]
  end.

Definition exec (f : frame) : M Kernel unit :=
  match f with
  | FOp o => call o
  | FPLoop s => PLoop s
  | FSetLevel l => SetLevel l
  | FSetHolder l => SetHolder l
  | FSleepLoop => SleepLoop
  | FAfterRun => AfterRun
  | FYield => Yield
  | FSetStatus m => set_machine_status m
  | FEnable => SetLevel IntOn
  | FFinish => Finish
  | FReadRequest s => disk_read s
  | FWriteRequest s data => disk_write s data
  end.

(** One step of the running thread. *)
Definition step : M Kernel unit :=
  t ← gets currentThread;
  T ← thread t;
  match frames T with
  | [] => halt Undefined
  | f :: fs => _ ← put_thread t (set_frames fs T); exec f
  end.

(** [Initialize]: the system with the main thread about to enable interrupts and
    run [body]; [timers] are the pending interrupts of the timers it started. *)
Definition start_timer (rounding : bool) : M Kernel unit :=
  n ← TimeOfNextInterrupt; Schedule (TimerHandler rounding) n TimerInt.

Definition Initialize (ss : list Z) (ls : list Lock) (nconds : nat) (img : image) (body : list op)
    : res Kernel :=
  let k := MkKernel ∅ 0 0 None (replicate (Z.to_nat MaxThreadCount) false)
             (replicate (Z.to_nat MaxThreadCount) None) [] 0
             ((fun v => MkSem v [] v 0 0 []) <$> ss) ls (replicate nconds [])
             (MkInterrupt IntOff [] false false SystemMode) (MkStats 0 0 0 0 0 0) (new_disk img) 0 in
  match
    (_ ← (if randomYield cfg then start_timer false else mret tt);
     _ ← (if roundingSlice cfg then start_timer true else mret tt);
     t ← new_thread 255;
     _ ← modify (set_currentThread t);
     with_thread t (fun T => set_tstatus RUNNING (set_frames (thread_root body) T))) k
  with
  | Ok (_, k) => Ok k
  | Stop w => Stop w
  end.

(** Runs of the kernel. *)
Inductive reachable (k0 : Kernel) : Kernel -> Prop :=
| reach_refl : reachable k0 k0
| reach_step k k' : reachable k0 k -> step k = Ok (tt, k') -> reachable k0 k'.

Fixpoint run (n : nat) (k : Kernel) : res Kernel :=
  match n with
  | O => Ok k
  | S n => match step k with Ok (_, k') => run n k' | Stop w => Stop w end
  end.

End Kernel.
