(* ===== verification/KernelInv.v ===== *)
(** * The kernel's invariant

    [kinv] relates the status of every thread, the ready list, the queues of
    semaphores and condition variables, the stacks of the threads and the table of
    thread ids.  Every step of every client program keeps it. *)

From S2P Require Import Prelude NList Sectors Disk Kernel.

(** ** What the invariant speaks of *)

(** The places a thread can wait at, and who waits there, in order. *)
Inductive qref : Type := QSem (s : nat) | QCond (c : nat).

#[export] Instance qref_eq_dec : EqDecision qref.
Proof. solve_decision. Defined.

Definition queue_of (k : Kernel) (q : qref) : list nat :=
  match q with
  | QSem s => match sems k !! s with Some x => (queue x).*2 | None => [] end
  | QCond c => match conds k !! c with Some l => l.*2 | None => [] end
  end.

(** Frames that may lie below the top of a stack, down to [FFinish], the last. *)
Fixpoint plain (fs : list frame) : Prop :=
  match fs with
  | [] => False
  | (FPLoop _ | FSleepLoop | FAfterRun | FEnable) :: _ => False
  | FFinish :: fs => fs = []
  | _ :: fs => plain fs
  end.

(** What lies below a [Sleep] or a [Run]: the loop of [P], or plain frames. *)
Definition below (fs : list frame) : Prop :=
  match fs with FPLoop _ :: fs => plain fs | _ => plain fs end.

(** The stack of a thread of a given status; [cur] says it is the running one. *)
Definition good_frames (cur : Prop) (st : ThreadStatus) (fs : list frame) : Prop :=
  match st, fs with
  | JUST_CREATED, _ => False
  | RUNNING, FSleepLoop :: _ => False
  | RUNNING, FAfterRun :: fs => cur /\ below fs
  | RUNNING, FFinish :: fs => cur /\ fs = []
  | RUNNING, _ :: fs => cur /\ plain fs
  | RUNNING, [] => False
  | BLOCKED, FSleepLoop :: fs => cur /\ (below fs \/ fs = [])
  | BLOCKED, FAfterRun :: fs => ~ cur /\ (below fs \/ fs = [])
  | READY, FSleepLoop :: fs => cur /\ below fs
  | READY, FAfterRun :: fs => ~ cur /\ below fs
  | READY, FEnable :: fs => ~ cur /\ plain fs
  | _, _ => False
  end.

(** The stack of a thread that waits at [q], of one that is finishing, and of one
    that is inside the [P] of semaphore [s]. *)
Definition waits (q : qref) (fs : list frame) : Prop :=
  match q, fs with
  | QSem s, _ :: FPLoop s' :: _ => s' = s
  | QCond _, _ :: FOp (OpAcquire _) :: _ => True
  | _, _ => False
  end.
Definition finishing (fs : list frame) : Prop :=
  match fs with [FSleepLoop] | [FAfterRun] => True | _ => False end.
Definition in_P (s : nat) (fs : list frame) : Prop :=
  match fs with
  | FPLoop s' :: _ | FSleepLoop :: FPLoop s' :: _ | FAfterRun :: FPLoop s' :: _ => s' = s
  | _ => False
  end.

(** The stack of thread [t], the running thread's being [cf]. *)
Definition frames_of (k : Kernel) (cf : list frame) (t : nat) (T : Thread) : list frame :=
  if decide (t = currentThread k) then cf else frames T.

Definition sem_ok (x : Semaphore) : Prop :=
  0 <= value x /\ value x = initial x + ups x - downs x /\ NoDup (woken x) /\
  (queue x <> [] -> value x <= Z.of_nat (length (woken x))).

(** The invariant, with the stack of the running thread taken to be [cf] (inside a
    step it is in part already unwound) and the thread [transit] already taken off
    the ready list by [FindNextToRun] but not yet running. *)
Record kinv (cf : list frame) (transit : option nat) (k : Kernel) : Prop := {
  ki_cur : is_Some (threads k !! currentThread k);
  ki_nodup : NoDup (readyList k).*2;
  ki_sorted : Lists.sorted (readyList k);
  ki_ready : forall p t, (p, t) ∈ readyList k <->
    exists T, threads k !! t = Some T /\ tstatus T = READY /\ priority T = p /\ transit <> Some t;
  ki_transit : forall t, transit = Some t -> exists T, threads k !! t = Some T /\ tstatus T = READY;
  ki_frames : forall t T, threads k !! t = Some T ->
    good_frames (t = currentThread k) (tstatus T) (frames_of k cf t T);
  ki_queue : forall q, NoDup (queue_of k q);
  ki_unique : forall q q' t, t ∈ queue_of k q -> t ∈ queue_of k q' -> q = q';
  ki_waiting : forall q t, t ∈ queue_of k q ->
    exists T, threads k !! t = Some T /\ tstatus T = BLOCKED /\ waits q (frames_of k cf t T);
  ki_blocked : forall t T, threads k !! t = Some T -> tstatus T = BLOCKED ->
    (exists q, t ∈ queue_of k q) \/ finishing (frames_of k cf t T);
  ki_sems : forall s x, sems k !! s = Some x -> sem_ok x;
  ki_woken : forall s x t, sems k !! s = Some x -> t ∈ woken x ->
    exists T, threads k !! t = Some T /\ tstatus T <> BLOCKED /\ in_P s (frames_of k cf t T);
  ki_tables : length (ThreadIDOccupied k) = 128%nat /\ length (thread_poiners k) = 128%nat;
  ki_ids : forall t T, threads k !! t = Some T ->
    0 <= tid T /\ ThreadIDOccupied k !! Z.to_nat (tid T) = Some true /\
    thread_poiners k !! Z.to_nat (tid T) = Some (Some t);
  ki_occupied : forall i, ThreadIDOccupied k !! i = Some true ->
    exists t T, threads k !! t = Some T /\ tid T = Z.of_nat i;
  ki_next : forall t, is_Some (threads k !! t) -> (t < nextThread k)%nat;
  ki_destroy : forall t, threadToBeDestroyed k = Some t ->
    exists T, threads k !! t = Some T /\ tstatus T = BLOCKED /\ finishing (frames_of k cf t T)
}.

(** The fields the invariant depends on. *)
Record same_core (k k' : Kernel) : Prop := {
  sc_threads : threads k' = threads k;
  sc_next : nextThread k' = nextThread k;
  sc_cur : currentThread k' = currentThread k;
  sc_destroy : threadToBeDestroyed k' = threadToBeDestroyed k;
  sc_occ : ThreadIDOccupied k' = ThreadIDOccupied k;
  sc_ptrs : thread_poiners k' = thread_poiners k;
  sc_ready : readyList k' = readyList k;
  sc_sems : sems k' = sems k;
  sc_conds : conds k' = conds k
}.

Lemma kinv_core cf tr k k' : same_core k k' -> kinv cf tr k -> kinv cf tr k'.
Proof.
  intros [H1 H2 H3 H4 H5 H6 H7 H8 H9] [].
  constructor; unfold queue_of, frames_of in *; rewrite ?H1, ?H2, ?H3, ?H4, ?H5, ?H6, ?H7, ?H8, ?H9; done.
Qed.

(** ** Stacks *)

Lemma finishing_waits q fs : finishing fs -> waits q fs -> False.
Proof. destruct q, fs as [|[] [|[] ?]]; simpl; naive_solver. Qed.

Lemma good_wake q cur fs : waits q fs -> good_frames cur BLOCKED fs -> good_frames cur READY fs.
Proof. destruct q, fs as [|[] [|? ?]]; simpl; intuition congruence. Qed.

(** The running thread waits nowhere, is not ready and is not finishing. *)
Lemma running_apart cf tr k T :
  kinv cf tr k -> threads k !! currentThread k = Some T -> tstatus T = RUNNING ->
  (forall q, ~ (currentThread k ∈ queue_of k q)) /\ ~ (currentThread k ∈ (readyList k).*2) /\
  threadToBeDestroyed k <> Some (currentThread k) /\ tr <> Some (currentThread k).
Proof.
  intros Hk HT Hr. split_and!.
  - intros q Hq. destruct (ki_waiting _ _ _ Hk q _ Hq) as (T' & HT' & Hb & _). congruence.
  - intros Hin. apply list_elem_of_fmap in Hin as ([p t] & Ht & Hin). simpl in Ht. subst t.
    apply (ki_ready _ _ _ Hk) in Hin as (T' & HT' & Hb & _). congruence.
  - intros Hd. destruct (ki_destroy _ _ _ Hk _ Hd) as (T' & HT' & Hb & _). congruence.
  - intros Ht. destruct (ki_transit _ _ _ Hk _ Ht) as (T' & HT' & Hb). congruence.
Qed.

(** ** Changes of the state *)

Lemma frames_of_cur k cf T : frames_of k cf (currentThread k) T = cf.
Proof. unfold frames_of. by rewrite decide_True. Qed.
Lemma frames_of_other k cf t T : t <> currentThread k -> frames_of k cf t T = frames T.
Proof. intros. unfold frames_of. by rewrite decide_False. Qed.

(** A lookup in the thread table after one thread changed. *)
Ltac threads_insert :=
  repeat match goal with
  | H : <[?a := _]> _ !! ?b = Some _ |- _ =>
      apply lookup_insert_Some in H as [[<- <-]|[? H]]
  end.

(** The stored stack of the running thread does not matter, nor does its priority while
    it runs. *)
Lemma kinv_cur_prio cf tr k T T' :
  kinv cf tr k -> threads k !! currentThread k = Some T ->
  tid T' = tid T -> priority T' = priority T \/ tstatus T = RUNNING -> tstatus T' = tstatus T ->
  kinv cf tr (set_threads (<[currentThread k := T']> (threads k)) k).
Proof.
  intros Hk HT Hi Hp Hs. destruct Hk.
  assert (Hex : forall t (Q : Thread -> Prop),
    (exists U, threads k !! t = Some U /\ Q U) ->
    (t = currentThread k -> Q T -> Q T') ->
    exists U, <[currentThread k := T']> (threads k) !! t = Some U /\ Q U).
  { intros t Q (U & HU & HQ) Hcur. destruct (decide (t = currentThread k)) as [->|Hne].
    - exists T'. rewrite lookup_insert_eq. split; [done|]. apply Hcur; [done|]. congruence.
    - exists U. by rewrite lookup_insert_ne. }
  constructor; simpl; try done.
  - rewrite lookup_insert_eq. eauto.
  - intros p t. rewrite ki_ready0. split.
    + intros H. apply (Hex t (fun U => tstatus U = READY /\ priority U = p /\ tr <> Some t)); [done|].
      intros _ (Hst & Hpr & Htr). rewrite Hs. destruct Hp as [Hp|Hp]; [by rewrite Hp|congruence].
    + intros (U & HU & Hst & Hpr & Htr). threads_insert; [|eauto]. exists T. rewrite Hs in Hst.
      destruct Hp as [Hp|Hp]; [by rewrite <- Hp|congruence].
  - intros t Ht. apply (Hex t (fun U => tstatus U = READY)); [by apply ki_transit0|].
    intros _. by rewrite Hs.
  - intros t U HU. threads_insert.
    + rewrite Hs. apply ki_frames0 in HT. unfold frames_of in *. simpl. by rewrite decide_True in * by done.
    + by apply ki_frames0.
  - intros q t Ht. apply (Hex t (fun U => tstatus U = BLOCKED /\ waits q (frames_of k cf t U)));
      [by apply ki_waiting0|]. intros ->. by rewrite Hs, !frames_of_cur.
  - intros t U HU Hb. threads_insert.
    + rewrite Hs in Hb. destruct (ki_blocked0 _ _ HT Hb) as [?|Hf]; [by left|right].
      unfold frames_of in *. simpl. by rewrite decide_True in * by done.
    + by apply ki_blocked0.
  - intros s x t Hx Ht. apply (Hex t (fun U => tstatus U <> BLOCKED /\ in_P s (frames_of k cf t U)));
      [by eapply ki_woken0|]. intros ->. by rewrite Hs, !frames_of_cur.
  - intros t U HU. threads_insert; [|by apply ki_ids0]. rewrite Hi. by apply ki_ids0.
  - intros i Hocc. destruct (ki_occupied0 i Hocc) as (t & U & HU & Hti).
    destruct (decide (t = currentThread k)) as [->|Hne].
    + exists (currentThread k), T'. rewrite lookup_insert_eq. split; [done|]. congruence.
    + exists t, U. by rewrite lookup_insert_ne.
  - intros t. rewrite lookup_insert_is_Some. intros [<-|[_ ?]]; apply ki_next0; eauto.
  - intros t Ht. apply (Hex t (fun U => tstatus U = BLOCKED /\ finishing (frames_of k cf t U)));
      [by apply ki_destroy0|]. intros ->. by rewrite Hs, !frames_of_cur.
Qed.

Lemma kinv_cur_any cf tr k T T' :
  kinv cf tr k -> threads k !! currentThread k = Some T ->
  tid T' = tid T -> priority T' = priority T -> tstatus T' = tstatus T ->
  kinv cf tr (set_threads (<[currentThread k := T']> (threads k)) k).
Proof. intros Hk HT Hi Hp Hs. apply (kinv_cur_prio cf tr k T); auto. Qed.

(** The running thread moves on to another stack. *)
Lemma kinv_reframe cf cf' tr k T :
  kinv cf tr k -> threads k !! currentThread k = Some T -> tstatus T = RUNNING ->
  good_frames True RUNNING cf' ->
  (forall s x, sems k !! s = Some x -> currentThread k ∈ woken x -> in_P s cf' ) ->
  kinv cf' tr k.
Proof.
  intros Hk HT Hr Hg Hw. destruct (running_apart _ _ _ _ Hk HT Hr) as (Hq & _ & Hd & _). destruct Hk.
  assert (Hother : forall t U, t <> currentThread k -> frames_of k cf' t U = frames_of k cf t U).
  { intros t U Hne. by rewrite !frames_of_other. }
  constructor; try done.
  - intros t U HU. destruct (decide (t = currentThread k)) as [->|Hne].
    + rewrite frames_of_cur. assert (U = T) as -> by congruence. rewrite Hr.
      destruct cf' as [|[] ?]; simpl in *; naive_solver.
    + rewrite Hother by done. by apply ki_frames0.
  - intros q t Ht. destruct (decide (t = currentThread k)) as [->|Hne]; [by destruct (Hq q)|].
    destruct (ki_waiting0 q t Ht) as (U & HU & Hb & Hwt). exists U. by rewrite Hother.
  - intros t U HU Hb. destruct (decide (t = currentThread k)) as [->|Hne]; [congruence|].
    rewrite Hother by done. by apply ki_blocked0.
  - intros s x t Hx Ht. destruct (ki_woken0 s x t Hx Ht) as (U & HU & Hb & Hp). exists U.
    destruct (decide (t = currentThread k)) as [->|Hne].
    + rewrite frames_of_cur. split_and!; [done|done|]. by eapply Hw.
    + by rewrite Hother.
  - intros t Ht. destruct (ki_destroy0 t Ht) as (U & HU & Hb & Hf). exists U.
    rewrite Hother; [done|]. intros ->. done.
Qed.

(** [ReadyToRun], as a state. *)
Definition made_ready (t : nat) (T : Thread) (k : Kernel) : Kernel :=
  set_readyList (Lists.sorted_insert t (priority T) (readyList k))
    (set_threads (<[t := set_tstatus READY T]> (threads k)) k).

Lemma ready_to_run_eq k t T : threads k !! t = Some T -> ReadyToRun t k = Ok (tt, made_ready t T k).
Proof.
  intros HT. unfold ReadyToRun, with_thread, thread, put_thread, gets, modify. munfold.
  rewrite HT. simpl. by rewrite lookup_insert_eq.
Qed.

Lemma sorted_insert_in {A} (x : A) key l e : e ∈ Lists.sorted_insert x key l <-> e = (key, x) \/ e ∈ l.
Proof. rewrite (ListFacts.sorted_insert_perm x key l). apply elem_of_cons. Qed.

Lemma sorted_insert_nodup {A} (x : A) key (l : list (Z * A)) :
  NoDup l.*2 -> x ∉ l.*2 -> NoDup (Lists.sorted_insert x key l).*2.
Proof.
  intros Hnd Hx. rewrite (ListFacts.sorted_insert_perm x key l). simpl. by apply NoDup_cons.
Qed.

(** A thread taken off the head of the queue [q] is made ready; [sems'] and
    [conds'] are the queues after that. *)
Lemma kinv_wake cf tr k q t rest T sems' conds' :
  kinv cf tr k -> queue_of k q = t :: rest -> threads k !! t = Some T ->
  let k1 := set_sems sems' (set_conds conds' k) in
  (forall q', queue_of k1 q' = if decide (q' = q) then rest else queue_of k q') ->
  (forall s x, sems' !! s = Some x -> sem_ok x) ->
  (forall s x t', sems' !! s = Some x -> t' ∈ woken x ->
     (t' = t /\ q = QSem s) \/ exists y, sems k !! s = Some y /\ t' ∈ woken y) ->
  kinv cf tr (made_ready t T k1).
Proof.
  intros Hk Hq HT k1 Hq' Hsem Hwoken. destruct Hk.
  assert (Htq : t ∈ queue_of k q) by (rewrite Hq; by left).
  destruct (ki_waiting0 q t Htq) as (T0 & HT0 & Hb & Hwt). assert (T0 = T) as -> by congruence.
  assert (Hnr : t ∉ (readyList k).*2).
  { intros Hin. apply list_elem_of_fmap in Hin as ([p t'] & Ht' & Hin). simpl in Ht'. subst t'.
    apply ki_ready0 in Hin as (T' & HT' & Hr & _). congruence. }
  assert (Htr : tr <> Some t).
  { intros Htr. destruct (ki_transit0 t Htr) as (T' & HT' & Hr). congruence. }
  assert (Hrest : t ∉ rest) by (specialize (ki_queue0 q); rewrite Hq in ki_queue0; by apply NoDup_cons in ki_queue0 as [? _]).
  assert (Hin' : forall q' t', t' ∈ queue_of k1 q' -> t' ∈ queue_of k q' /\ t' <> t).
  { intros q' t' Ht'. rewrite Hq' in Ht'. case_decide as E.
    - subst q'. split; [rewrite Hq; by right|]. by intros ->.
    - split; [done|]. intros ->. apply E. by eapply ki_unique0. }
  assert (Hfr : forall t' U, frames_of (made_ready t T k1) cf t' U = frames_of k cf t' U) by done.
  assert (Hqm : forall q', queue_of (made_ready t T k1) q' = queue_of k1 q') by done.
  assert (Hframes : frames_of k cf t (set_tstatus READY T) = frames_of k cf t T).
  { unfold frames_of. by case_decide. }
  constructor; try done.
  - simpl. destruct (decide (t = currentThread k)) as [<-|]; [rewrite lookup_insert_eq; eauto|].
    by rewrite lookup_insert_ne.
  - simpl. by apply sorted_insert_nodup.
  - simpl. by apply ListFacts.sorted_insert_sorted.
  - intros p t'. simpl. rewrite sorted_insert_in, ki_ready0. split.
    + intros [[= -> ->]|(U & HU & Hr & Hp & Htr')].
      * exists (set_tstatus READY T). by rewrite lookup_insert_eq.
      * exists U. rewrite lookup_insert_ne; [done|]. intros ->. congruence.
    + intros (U & HU & Hr & Hp & Htr'). threads_insert; [left; by rewrite <- Hp|right; eauto].
  - intros t' Ht'. simpl. destruct (ki_transit0 t' Ht') as (U & HU & Hr). exists U.
    rewrite lookup_insert_ne; [done|]. by intros ->.
  - intros t' U HU. rewrite Hfr. simpl in HU |- *. threads_insert; [|by apply ki_frames0].
    rewrite Hframes. apply ki_frames0 in HT. rewrite Hb in HT. by eapply good_wake.
  - intros q'. rewrite Hqm, Hq'. case_decide; [|done].
    specialize (ki_queue0 q). rewrite Hq in ki_queue0. by apply NoDup_cons in ki_queue0 as [_ ?].
  - intros q1 q2 t'. rewrite !Hqm. intros [H1 _]%Hin' [H2 _]%Hin'. by eapply ki_unique0.
  - intros q' t'. rewrite Hqm. intros [H1 Hne]%Hin'. destruct (ki_waiting0 q' t' H1) as (U & HU & Hb' & Hw).
    exists U. rewrite Hfr. simpl. by rewrite lookup_insert_ne.
  - intros t' U HU Hb'. rewrite Hfr. simpl in HU. threads_insert; [done|].
    destruct (ki_blocked0 t' U HU Hb') as [[q' Hq'']|Hf]; [left|by right].
    exists q'. rewrite Hqm, Hq'. case_decide as E; [|done]. subst q'. rewrite Hq in Hq''.
    apply elem_of_cons in Hq'' as [->|?]; done.
  - intros s x t' Hx Ht'. simpl in Hx |- *.
    destruct (Hwoken s x t' Hx Ht') as [[-> ->]|(y & Hy & Hty)].
    + exists (set_tstatus READY T). rewrite Hfr, lookup_insert_eq, Hframes. split_and!; try done.
      destruct (ki_waiting0 (QSem s) t Htq) as (U & HU & _ & Hw). assert (U = T) as -> by congruence.
      apply ki_frames0 in HT. rewrite Hb in HT.
      destruct (frames_of k cf t T) as [|[] [|[] ?]]; simpl in *; naive_solver.
    + destruct (ki_woken0 s y t' Hy Hty) as (U & HU & Hb' & Hp). exists U.
      rewrite Hfr, lookup_insert_ne; [done|]. intros ->. congruence.
  - intros t' U HU. simpl in HU |- *. threads_insert; [|by apply ki_ids0]. by apply ki_ids0 in HT.
  - intros i Hi. destruct (ki_occupied0 i Hi) as (t' & U & HU & Hti). simpl.
    destruct (decide (t' = t)) as [->|].
    + exists t, (set_tstatus READY T). rewrite lookup_insert_eq. split; [done|]. simpl. congruence.
    + exists t', U. by rewrite lookup_insert_ne.
  - intros t'. simpl. rewrite lookup_insert_is_Some. intros [<-|[_ ?]]; apply ki_next0; eauto.
  - intros t' Ht'. simpl. destruct (ki_destroy0 t' Ht') as (U & HU & Hb' & Hf). exists U.
    rewrite Hfr, lookup_insert_ne; [done|]. intros ->. assert (U = T) as -> by congruence.
    by eapply finishing_waits.
Qed.

(** What code that was interrupted can rely on. *)
Record quiet (k k' : Kernel) : Prop := {
  qt_cur : currentThread k' = currentThread k;
  qt_destroy : threadToBeDestroyed k' = threadToBeDestroyed k;
  qt_threads : forall t T, threads k !! t = Some T ->
    exists T', threads k' !! t = Some T' /\ frames T' = frames T /\ (tstatus T = RUNNING -> T' = T)
}.

Lemma quiet_refl k : quiet k k.
Proof. constructor; try done. intros t T HT. by exists T. Qed.

Lemma quiet_trans k1 k2 k3 : quiet k1 k2 -> quiet k2 k3 -> quiet k1 k3.
Proof.
  intros [H1 H2 H4] [G1 G2 G4]. constructor; [congruence|congruence|].
  intros t T HT. destruct (H4 t T HT) as (T1 & HT1 & Hf1 & Hr1).
  destruct (G4 t T1 HT1) as (T2 & HT2 & Hf2 & Hr2). exists T2. split_and!; [done|congruence|].
  intros Hr. specialize (Hr1 Hr). subst T1. by apply Hr2.
Qed.

Lemma quiet_same k k' :
  threads k' = threads k -> currentThread k' = currentThread k ->
  threadToBeDestroyed k' = threadToBeDestroyed k -> quiet k k'.
Proof. intros Ht Hc Hd. constructor; try done. intros t T HT. exists T. by rewrite Ht. Qed.

#[export] Hint Resolve quiet_refl quiet_trans : nachos.

Lemma v_body_inv cf tr k s k' :
  kinv cf tr k -> V_body s k = Ok (tt, k') ->
  kinv cf tr k' /\ quiet k k' /\ interrupt k' = interrupt k /\ stats k' = stats k /\ disk k' = disk k.
Proof.
  intros Hk Hrun. unfold V_body in Hrun.
  apply bind_inv in Hrun as (x & k1 & Hx & Hrun). unfold sem in Hx.
  destruct (sems k !! s) as [y|] eqn:Hs; [injection Hx as <- <-|done].
  assert (Hlt : (s < length (sems k))%nat) by (by eapply lookup_lt_Some).
  pose proof (ki_sems _ _ _ Hk s y Hs) as (Hv & Hval & Hnd & Hwk).
  destruct (queue y) as [|[p t] rest] eqn:Hq.
  - (* nobody waits *)
    simpl in Hrun. munfold. unfold put_sem, sem, modify in Hrun. simpl in Hrun.
    rewrite list_lookup_insert_eq in Hrun by done. simpl in Hrun. injection Hrun as <-.
    rewrite list_insert_insert_eq, app_nil_r.
    split; [|by split_and!; try done; apply quiet_same].
    assert (Hqs : forall q, queue_of (set_sems (<[s := MkSem (value y + 1) [] (initial y) (downs y) (ups y + 1)
      (woken y)]> (sems k)) k) q = queue_of k q).
    { intros [s'|c]; [|done]. simpl. destruct (decide (s' = s)) as [->|].
      - by rewrite list_lookup_insert_eq, Hs, Hq.
      - by rewrite list_lookup_insert_ne. }
    destruct Hk. constructor; try done; try (setoid_rewrite Hqs; done).
    + intros s' x Hx. simpl in Hx. apply list_lookup_insert_Some in Hx as [(<- & <- & _)|[_ Hx]]; [|by eauto].
      split_and!; simpl; [lia|lia|done|done].
    + intros s' x t Hx Ht. simpl in Hx. apply list_lookup_insert_Some in Hx as [(<- & <- & _)|[_ Hx]];
        simpl in *; by eapply ki_woken0.
  - (* the first thread is woken *)
    assert (Hqk : queue_of k (QSem s) = t :: rest.*2) by (simpl; by rewrite Hs, Hq).
    destruct (ki_waiting _ _ _ Hk (QSem s) t ltac:(rewrite Hqk; by left)) as (T & HT & Hb & _).
    simpl in Hrun. unfold put_sem in Hrun. erewrite bind_ok in Hrun by done.
    rewrite (bind_ok _ _ _ _ _ (ready_to_run_eq (set_sems _ k) t T HT)) in Hrun.
    unfold sem, modify in Hrun. munfold. simpl in Hrun.
    rewrite list_lookup_insert_eq in Hrun by done. simpl in Hrun. injection Hrun as <-.
    rewrite list_insert_insert_eq.
    set (y' := MkSem (value y + 1) rest (initial y) (downs y) (ups y + 1) (woken y ++ [t])).
    assert (Htw : t ∉ woken y).
    { intros Hin. destruct (ki_woken _ _ _ Hk s y t Hs Hin) as (U & HU & Hb' & _). congruence. }
    assert (Hgoal : kinv cf tr (made_ready t T (set_sems (<[s := y']> (sems k)) (set_conds (conds k) k)))).
    { apply (kinv_wake cf tr k (QSem s) t rest.*2); try done.
      - intros [s'|c]; simpl; [|done]. destruct (decide (s' = s)) as [->|Hne].
        + by rewrite list_lookup_insert_eq, decide_True by done.
        + rewrite list_lookup_insert_ne, decide_False by congruence. done.
      - intros s' x Hx. apply list_lookup_insert_Some in Hx as [(<- & <- & _)|[_ Hx]];
          [|by eapply ki_sems in Hx].
        split_and!; simpl; [lia|lia| |].
        + apply NoDup_app. split_and!; [done| |apply NoDup_singleton]. intros a Ha ->%list_elem_of_singleton. done.
        + intros Hne. rewrite length_app. simpl. specialize (Hwk ltac:(done)). lia.
      - intros s' x t' Hx Ht'. apply list_lookup_insert_Some in Hx as [(<- & <- & _)|[_ Hx]]; [|eauto].
        simpl in Ht'. apply elem_of_app in Ht' as [Ht'|Ht']; [right; eauto|].
        apply list_elem_of_singleton in Ht' as ->. by left. }
    split; [exact Hgoal|]. split_and!; try done.
    constructor; try done. intros t' U HU. simpl. destruct (decide (t' = t)) as [->|].
    + rewrite lookup_insert_eq. eexists. split; [done|]. assert (U = T) as -> by congruence.
      split; [done|]. congruence.
    + rewrite lookup_insert_ne by done. by exists U.
Qed.

(** *** Blocking, choosing the next thread, switching *)

(** Only the semaphores' values and histories change. *)
Lemma kinv_sems cf tr k ss :
  kinv cf tr k ->
  (forall q, queue_of (set_sems ss k) q = queue_of k q) ->
  (forall s x, ss !! s = Some x -> sem_ok x) ->
  (forall s x t, ss !! s = Some x -> t ∈ woken x ->
     exists y, sems k !! s = Some y /\ t ∈ woken y) ->
  kinv cf tr (set_sems ss k).
Proof.
  intros Hk Hq Hok Hw. destruct Hk. constructor; try done; try (setoid_rewrite Hq; done).
  intros s x t Hx Ht. destruct (Hw s x t Hx Ht) as (y & Hy & Hty). by eapply ki_woken0.
Qed.

(** The running thread goes to sleep, at the end of the queue [q] or, when it
    finishes, nowhere. *)
Lemma kinv_block cf r k T T' ss cs d (oq : option qref) :
  kinv cf None k -> threads k !! currentThread k = Some T -> tstatus T = RUNNING ->
  tid T' = tid T -> priority T' = priority T -> tstatus T' = BLOCKED ->
  below r \/ r = [] ->
  let cf' := FSleepLoop :: r in
  let k1 := set_sems ss (set_conds cs (set_threadToBeDestroyed d k)) in
  match oq with Some q => waits q cf' | None => finishing cf' end ->
  (forall q, queue_of k1 q = queue_of k q ++ (if decide (oq = Some q) then [currentThread k] else [])) ->
  (forall t, d = Some t -> threadToBeDestroyed k = Some t \/ (t = currentThread k /\ oq = None)) ->
  (forall s x, ss !! s = Some x -> sem_ok x) ->
  (forall s x t, ss !! s = Some x -> t ∈ woken x ->
     t <> currentThread k /\ exists y, sems k !! s = Some y /\ t ∈ woken y) ->
  kinv cf' None (set_threads (<[currentThread k := T']> (threads k)) k1).
Proof.
  intros Hk HT Hr Hi Hp Hs Hbelow cf' k1 Hoq Hq Hd Hok Hw.
  destruct (running_apart _ _ _ _ Hk HT Hr) as (Hnq & Hnr & Hnd & _). destruct Hk.
  set (k2 := set_threads _ _).
  assert (Hfo : forall t U, t <> currentThread k -> frames_of k2 cf' t U = frames_of k cf t U).
  { intros t U Hne. by rewrite !frames_of_other. }
  assert (Hfc : forall U, frames_of k2 cf' (currentThread k) U = cf').
  { intros U. apply (frames_of_cur k2). }
  assert (Hin : forall q t, t ∈ queue_of k2 q <-> t ∈ queue_of k q \/ (t = currentThread k /\ oq = Some q)).
  { intros q t. change (queue_of k2 q) with (queue_of k1 q). rewrite Hq, elem_of_app.
    case_decide; [rewrite list_elem_of_singleton; naive_solver|]. rewrite elem_of_nil. naive_solver. }
  constructor; try done.
  - simpl. rewrite lookup_insert_eq. eauto.
  - intros p t. simpl. rewrite ki_ready0. split.
    + intros (U & HU & Hru & Hpu & _). exists U. rewrite lookup_insert_ne; [done|]. intros <-. congruence.
    + intros (U & HU & Hru & Hpu & _). threads_insert; [congruence|]. by exists U.
  - intros t U HU. simpl in HU. threads_insert.
    + rewrite Hfc, Hs. by split.
    + rewrite Hfo by done. by apply ki_frames0.
  - intros q. change (queue_of k2 q) with (queue_of k1 q). rewrite Hq. case_decide; [|by rewrite app_nil_r].
    apply NoDup_app. split_and!; [done| |apply NoDup_singleton].
    intros t Ht ->%list_elem_of_singleton. by apply (Hnq q).
  - intros q q' t. rewrite !Hin. intros [H1|[-> H1]] [H2|[E H2]]; subst; try congruence; [by eapply ki_unique0| |].
    + by destruct (Hnq q).
    + by destruct (Hnq q').
  - intros q t. rewrite Hin. intros [Ht|[-> ->]].
    + assert (t <> currentThread k) by (intros ->; by destruct (Hnq q)).
      destruct (ki_waiting0 q t Ht) as (U & HU & Hb & Hwt). exists U.
      rewrite Hfo by done. simpl. by rewrite lookup_insert_ne.
    + exists T'. simpl. rewrite lookup_insert_eq, Hfc. done.
  - intros t U HU Hb. simpl in HU. threads_insert.
    + rewrite Hfc. destruct oq as [q|]; [left|by right]. exists q. apply Hin. by right.
    + rewrite Hfo by done. destruct (ki_blocked0 t U HU Hb) as [[q Hqt]|]; [left|by right].
      exists q. apply Hin. by left.
  - intros s x t Hx Ht. destruct (Hw s x t Hx Ht) as (Hne & y & Hy & Hty).
    destruct (ki_woken0 s y t Hy Hty) as (U & HU & Hb & Hp'). exists U. simpl.
    by rewrite lookup_insert_ne, Hfo.
  - intros t U HU. simpl in HU. threads_insert; [|by apply ki_ids0]. rewrite Hi. by apply ki_ids0.
  - intros i Hocc. destruct (ki_occupied0 i Hocc) as (t & U & HU & Hti). simpl.
    destruct (decide (t = currentThread k)) as [->|Hne].
    + exists (currentThread k), T'. rewrite lookup_insert_eq. split; [done|]. congruence.
    + exists t, U. by rewrite lookup_insert_ne.
  - intros t. simpl. rewrite lookup_insert_is_Some. intros [<-|[_ ?]]; apply ki_next0; eauto.
  - intros t Ht. simpl in Ht |- *. destruct (Hd t Ht) as [Ht'|[-> ->]].
    + assert (t <> currentThread k) by (intros ->; done).
      destruct (ki_destroy0 t Ht') as (U & HU & Hb & Hf). exists U.
      rewrite Hfo by done. by rewrite lookup_insert_ne.
    + exists T'. by rewrite lookup_insert_eq, Hfc.
Qed.

(** The running thread yields: it is made ready while [tr] is about to run. *)
Lemma kinv_yield cf r tr k T T' :
  kinv cf tr k -> threads k !! currentThread k = Some T -> tstatus T = RUNNING ->
  tid T' = tid T -> priority T' = priority T -> tstatus T' = READY -> below r ->
  (forall s x, sems k !! s = Some x -> ~ (currentThread k ∈ woken x)) ->
  kinv (FSleepLoop :: r) tr
    (set_readyList (Lists.sorted_insert (currentThread k) (priority T) (readyList k))
       (set_threads (<[currentThread k := T']> (threads k)) k)).
Proof.
  intros Hk HT Hr Hi Hp Hs Hbelow Hw.
  destruct (running_apart _ _ _ _ Hk HT Hr) as (Hnq & Hnr & Hnd & Hnt). destruct Hk.
  set (k2 := set_readyList _ _).
  assert (Hfo : forall t U, t <> currentThread k -> frames_of k2 (FSleepLoop :: r) t U = frames_of k cf t U).
  { intros t U Hne. by rewrite !frames_of_other. }
  assert (Hfc : forall U, frames_of k2 (FSleepLoop :: r) (currentThread k) U = FSleepLoop :: r).
  { intros U. apply (frames_of_cur k2). }
  constructor; try done.
  - simpl. rewrite lookup_insert_eq. eauto.
  - simpl. by apply sorted_insert_nodup.
  - simpl. by apply ListFacts.sorted_insert_sorted.
  - intros p t. simpl. rewrite sorted_insert_in, ki_ready0. split.
    + intros [[= -> ->]|(U & HU & Hru & Hpu & Htr)].
      * exists T'. by rewrite lookup_insert_eq.
      * exists U. rewrite lookup_insert_ne; [done|]. intros <-. congruence.
    + intros (U & HU & Hru & Hpu & Htr). threads_insert; [left; congruence|right; by exists U].
  - intros t Ht. simpl. destruct (ki_transit0 t Ht) as (U & HU & Hru). exists U.
    rewrite lookup_insert_ne; [done|]. by intros <-.
  - intros t U HU. simpl in HU. threads_insert.
    + rewrite Hfc, Hs. by split.
    + rewrite Hfo by done. by apply ki_frames0.
  - intros q t Ht. assert (t <> currentThread k) by (intros ->; by destruct (Hnq q)).
    destruct (ki_waiting0 q t Ht) as (U & HU & Hb & Hwt). exists U.
    rewrite Hfo by done. simpl. by rewrite lookup_insert_ne.
  - intros t U HU Hb. simpl in HU. threads_insert; [congruence|].
    rewrite Hfo by done. by apply ki_blocked0.
  - intros s x t Hx Ht. assert (t <> currentThread k) by (intros ->; by eapply Hw).
    destruct (ki_woken0 s x t Hx Ht) as (U & HU & Hb & Hp'). exists U. simpl.
    by rewrite lookup_insert_ne, Hfo.
  - intros t U HU. simpl in HU. threads_insert; [|by apply ki_ids0]. rewrite Hi. by apply ki_ids0.
  - intros i Hocc. destruct (ki_occupied0 i Hocc) as (t & U & HU & Hti). simpl.
    destruct (decide (t = currentThread k)) as [->|Hne].
    + exists (currentThread k), T'. rewrite lookup_insert_eq. split; [done|]. congruence.
    + exists t, U. by rewrite lookup_insert_ne.
  - intros t. simpl. rewrite lookup_insert_is_Some. intros [<-|[_ ?]]; apply ki_next0; eauto.
  - intros t Ht. simpl in Ht. assert (t <> currentThread k) by (intros ->; done).
    destruct (ki_destroy0 t Ht) as (U & HU & Hb & Hf). exists U. simpl.
    by rewrite Hfo, lookup_insert_ne.
Qed.

(** [FindNextToRun] takes the head of the ready list. *)
Lemma find_next_inv cf k o k' :
  kinv cf None k -> FindNextToRun k = Ok (o, k') ->
  match o with
  | Some n => kinv cf (Some n) k' /\ exists p l, readyList k = (p, n) :: l /\ k' = set_readyList l k
  | None => readyList k = [] /\ k' = k
  end.
Proof.
  intros Hk Hrun. unfold FindNextToRun in Hrun. destruct (readyList k) as [|[p n] l] eqn:Hl; simpl in Hrun.
  - injection Hrun as <- <-. split; [done|]. destruct k; simpl in *. by subst.
  - injection Hrun as <- <-. split; [|by exists p, l]. destruct Hk. rewrite Hl in *.
    apply NoDup_cons in ki_nodup0 as [Hn Hnd].
    assert (Hno : forall p', (p', n) ∉ l).
    { intros p' Hin. apply Hn. apply list_elem_of_fmap. by exists (p', n). }
    assert (HnT : exists T, threads k !! n = Some T /\ tstatus T = READY).
    { destruct (proj1 (ki_ready0 p n) ltac:(by left)) as (T & HT & Hr & _). by exists T. }
    constructor; try done.
    + apply (ListFacts.sorted_remove_least ((p, n) :: l) (p, n) l ki_sorted0 eq_refl).
    + intros p' t. simpl. split.
      * intros Hin. destruct (proj1 (ki_ready0 p' t) ltac:(by right)) as (T & HT & Hr & Hp & _).
        exists T. split_and!; try done. intros [= ->]. by eapply Hno.
      * intros (T & HT & Hr & Hp & Htr).
        assert (Hin : (p', t) ∈ (p, n) :: l) by (apply ki_ready0; by exists T).
        apply elem_of_cons in Hin as [[= -> ->]|?]; done.
    + intros t [= <-]. done.
Qed.

(** [SWITCH] to the thread in transit: the running thread stops after [SWITCH]. *)
Definition switched (n : nat) (r : list frame) (k : Kernel) : Kernel :=
  let ths := alter (set_frames (FAfterRun :: r)) (currentThread k) (threads k) in
  set_threads (alter (set_tstatus RUNNING) n ths) (set_currentThread n k).

Lemma lookup_switched n r k t :
  threads (switched n r k) !! t =
    (fun T => let T1 := if decide (t = currentThread k) then set_frames (FAfterRun :: r) T else T in
       if decide (t = n) then set_tstatus RUNNING T1 else T1) <$> threads k !! t.
Proof.
  unfold switched. cbn [threads set_threads set_currentThread]. rewrite lookup_alter.
  repeat case_decide; subst; try done;
    rewrite lookup_alter; repeat case_decide; subst; try done;
    by destruct (threads k !! _).
Qed.

(** Being before and after [SWITCH] is alike for who waits, was woken or finishes. *)
Lemma waits_after q r : waits q (FAfterRun :: r) <-> waits q (FSleepLoop :: r).
Proof. by destruct q. Qed.
Lemma in_P_after s r : in_P s (FAfterRun :: r) <-> in_P s (FSleepLoop :: r).
Proof. done. Qed.
Lemma finishing_after r : finishing (FAfterRun :: r) <-> finishing (FSleepLoop :: r).
Proof. by destruct r. Qed.

Lemma kinv_switch r n k Tn :
  kinv (FSleepLoop :: r) (Some n) k ->
  threads (switched n r k) !! n = Some Tn ->
  kinv (frames Tn) None (switched n r k).
Proof.
  intros Hk HTn. set (k2 := switched n r k) in *. pose proof (lookup_switched n r k) as Hlk. fold k2 in Hlk.
  assert (Hfr : forall t U U', threads k !! t = Some U -> threads k2 !! t = Some U' ->
    frames_of k2 (frames Tn) t U' =
      if decide (t = currentThread k) then FAfterRun :: r else frames_of k (FSleepLoop :: r) t U).
  { intros t U U' HU HU'.
    assert (frames_of k2 (frames Tn) t U' = frames U') as ->.
    { unfold frames_of. case_decide; [|done]. change (currentThread k2) with n in *. congruence. }
    rewrite Hlk, HU in HU'. injection HU' as <-. unfold frames_of. repeat case_decide; auto. }
  assert (Hlike : forall (Φ : list frame -> Prop) t U U',
    (Φ (FAfterRun :: r) <-> Φ (FSleepLoop :: r)) -> threads k !! t = Some U -> threads k2 !! t = Some U' ->
    Φ (frames_of k2 (frames Tn) t U') <-> Φ (frames_of k (FSleepLoop :: r) t U)).
  { intros Φ t U U' HΦ HU HU'. rewrite (Hfr t U U' HU HU'). case_decide; [|done]. subst t. by rewrite frames_of_cur. }
  assert (Hback : forall t U', threads k2 !! t = Some U' -> exists U, threads k !! t = Some U /\
    tid U' = tid U /\ priority U' = priority U /\ (t <> n -> tstatus U' = tstatus U) /\
    (t = n -> tstatus U' = RUNNING)).
  { intros t U' HU'. rewrite Hlk in HU'. destruct (threads k !! t) as [U|]; [|done].
    injection HU' as <-. exists U. repeat case_decide; done. }
  assert (Hforth : forall t U, threads k !! t = Some U -> exists U', threads k2 !! t = Some U' /\
    tid U' = tid U /\ priority U' = priority U /\ (t <> n -> tstatus U' = tstatus U) /\
    (t = n -> tstatus U' = RUNNING)).
  { intros t U HU. rewrite Hlk, HU. eexists. split; [done|]. repeat case_decide; done. }
  destruct Hk. destruct (ki_transit0 n eq_refl) as (N & HN & HrN).
  assert (Hnb : forall t U, threads k !! t = Some U -> tstatus U = BLOCKED -> t <> n) by (intros; congruence).
  constructor; try done.
  - intros p t. change (readyList k2) with (readyList k). rewrite ki_ready0. split.
    + intros (U & HU & Hr & Hp & Htr). destruct (Hforth t U HU) as (U' & HU' & _ & Hp' & Hs & _).
      exists U'. split_and!; [done| |congruence|done]. rewrite Hs; [done|]. congruence.
    + intros (U' & HU' & Hr & Hp & _). destruct (Hback t U' HU') as (U & HU & _ & Hp' & Hs & Hsn).
      destruct (decide (t = n)) as [->|Hne]; [rewrite Hsn in Hr by done; done|].
      exists U. rewrite <- Hs, <- Hp' by done. split_and!; try done. congruence.
  - intros t U' HU'. change (currentThread k2) with n.
    destruct (Hback t U' HU') as (U & HU & _ & _ & Hs & Hsn). pose proof (ki_frames0 t U HU) as Hg.
    rewrite (Hfr t U U' HU HU'). unfold frames_of in Hg. destruct (decide (t = n)) as [->|Hne].
    + rewrite Hsn by done. assert (U = N) as -> by congruence. rewrite HrN in Hg. unfold frames_of.
      repeat case_decide; [simpl in *; naive_solver|].
      destruct (frames N) as [|[] ?]; simpl in *; naive_solver.
    + rewrite Hs by done. unfold frames_of. repeat case_decide.
      * destruct (tstatus U); simpl in *; naive_solver.
      * destruct (tstatus U), (frames U) as [|[] ?]; simpl in *; naive_solver.
  - intros q t Ht. destruct (ki_waiting0 q t Ht) as (U & HU & Hb & Hw).
    destruct (Hforth t U HU) as (U' & HU' & _ & _ & Hs & _). exists U'.
    split_and!; [done|rewrite Hs; [done|eauto]|]. by apply (Hlike (waits q) t U U' (waits_after q r)).
  - intros t U' HU' Hb. destruct (Hback t U' HU') as (U & HU & _ & _ & Hs & Hsn).
    destruct (decide (t = n)) as [->|Hne]; [rewrite Hsn in Hb by done; done|]. rewrite Hs in Hb by done.
    destruct (ki_blocked0 t U HU Hb) as [Hq|Hf]; [by left|right].
    by apply (Hlike finishing t U U' (finishing_after r)).
  - intros s x t Hx Ht. destruct (ki_woken0 s x t Hx Ht) as (U & HU & Hb & Hp).
    destruct (Hforth t U HU) as (U' & HU' & _ & _ & Hs & Hsn). exists U'. split_and!; [done| |].
    + destruct (decide (t = n)); [by rewrite Hsn|by rewrite Hs].
    + by apply (Hlike (in_P s) t U U' (in_P_after s r)).
  - intros t U' HU'. destruct (Hback t U' HU') as (U & HU & Hi & _). rewrite Hi. by apply ki_ids0.
  - intros i Hocc. destruct (ki_occupied0 i Hocc) as (t & U & HU & Hti).
    destruct (Hforth t U HU) as (U' & HU' & Hi & _). exists t, U'. split; [done|congruence].
  - intros t [U' HU']. destruct (Hback t U' HU') as (U & HU & _). apply ki_next0. eauto.
  - intros t Ht. destruct (ki_destroy0 t Ht) as (U & HU & Hb & Hf).
    destruct (Hforth t U HU) as (U' & HU' & _ & _ & Hs & _). exists U'.
    split_and!; [done|rewrite Hs; [done|eauto]|]. by apply (Hlike finishing t U U' (finishing_after r)).
Qed.

(** *** Creating and deleting threads *)

Lemma plain_root body : plain ((FOp <$> body) ++ [FFinish]).
Proof. by induction body. Qed.

Lemma free_id_spec occ i j :
  free_id i occ = Some j -> i <= j /\ occ !! Z.to_nat (j - i) = Some false.
Proof.
  revert i. induction occ as [|b occ IH]; intros i; [done|]. simpl. destruct b; simpl.
  - intros [Hle Hl]%IH. split; [lia|].
    replace (Z.to_nat (j - i)) with (S (Z.to_nat (j - (i + 1)))) by lia. done.
  - intros [= <-]. split; [lia|]. by rewrite Z.sub_diag.
Qed.

(** A thread is created and made ready. *)
Lemma kinv_new cf k i T :
  kinv cf None k -> 0 <= i -> ThreadIDOccupied k !! Z.to_nat i = Some false ->
  tid T = i -> tstatus T = READY -> (exists body, frames T = thread_root body) ->
  kinv cf None
    (set_readyList (Lists.sorted_insert (nextThread k) (priority T) (readyList k))
      (set_threads (<[nextThread k := T]> (threads k)) (set_nextThread (S (nextThread k))
        (set_ThreadIDOccupied (<[Z.to_nat i := true]> (ThreadIDOccupied k))
          (set_thread_poiners (<[Z.to_nat i := Some (nextThread k)]> (thread_poiners k)) k))))).
Proof.
  intros Hk Hi Hfree Hti Hr (body & Hf). set (t := nextThread k).
  assert (Hnew : threads k !! t = None).
  { apply eq_None_not_Some. intros Hs%(ki_next _ _ _ Hk). unfold t in Hs. lia. }
  destruct Hk. set (k2 := set_readyList _ _).
  assert (Hne : t <> currentThread k) by (intros ->; rewrite Hnew in ki_cur0; by destruct ki_cur0).
  assert (Hlt : (Z.to_nat i < 128)%nat) by (rewrite <- (proj1 ki_tables0); by eapply lookup_lt_Some).
  assert (Hold : forall t' U, threads k !! t' = Some U -> threads k2 !! t' = Some U).
  { intros t' U HU. simpl. rewrite lookup_insert_ne; [done|]. intros ->. congruence. }
  assert (Hid : forall t' U, threads k !! t' = Some U -> Z.to_nat (tid U) <> Z.to_nat i).
  { intros t' U HU E. apply ki_ids0 in HU as (_ & Hocc & _). congruence. }
  constructor; try done.
  - destruct ki_cur0 as [U HU]. exists U. by apply Hold.
  - simpl. apply sorted_insert_nodup; [done|]. intros Hin.
    apply list_elem_of_fmap in Hin as ([p t'] & -> & Hin).
    apply ki_ready0 in Hin as (U & HU & _). simpl in *. congruence.
  - simpl. by apply ListFacts.sorted_insert_sorted.
  - intros p t'. simpl. rewrite sorted_insert_in, ki_ready0. split.
    + intros [[= -> ->]|(U & HU & ?)]; [exists T; by rewrite lookup_insert_eq|].
      exists U. split; [by apply Hold|done].
    + intros (U & HU & Hru & Hp & ?). threads_insert; [left; by rewrite Hp|right; by exists U].
  - intros t' U HU. simpl in HU. threads_insert; [|by apply ki_frames0].
    rewrite frames_of_other by done. rewrite Hr, Hf. simpl. split; [done|]. apply plain_root.
  - intros q t' Ht. destruct (ki_waiting0 q t' Ht) as (U & HU & ?). exists U. split; [by apply Hold|done].
  - intros t' U HU Hb. simpl in HU. threads_insert; [congruence|]. by apply ki_blocked0.
  - intros s x t' Hx Ht. destruct (ki_woken0 s x t' Hx Ht) as (U & HU & ?). exists U.
    split; [by apply Hold|done].
  - simpl. by rewrite !length_insert.
  - intros t' U HU. simpl in HU |- *. threads_insert.
    + rewrite Hti, !list_lookup_insert_eq by (destruct ki_tables0; lia). done.
    + pose proof (Hid t' U HU). rewrite !list_lookup_insert_ne by done. by apply ki_ids0.
  - intros j Hj. simpl in Hj |- *. apply list_lookup_insert_Some in Hj as [(<- & _ & _)|[_ Hj]].
    + exists t, T. rewrite lookup_insert_eq. split; [done|]. lia.
    + destruct (ki_occupied0 j Hj) as (t' & U & HU & ?). exists t', U. split; [by apply Hold|done].
  - intros t'. simpl. rewrite lookup_insert_is_Some. intros [<-|[_ Hs]]; [unfold t; lia|].
    apply ki_next0 in Hs. lia.
  - intros t' Ht. destruct (ki_destroy0 t' Ht) as (U & HU & ?). exists U. split; [by apply Hold|done].
Qed.

(** The thread to be destroyed is deleted. *)
Lemma kinv_delete cf k t T :
  kinv cf None k -> threadToBeDestroyed k = Some t -> threads k !! t = Some T -> t <> currentThread k ->
  kinv cf None (set_threadToBeDestroyed None (set_threads (delete t (threads k))
    (set_ThreadIDOccupied (<[Z.to_nat (tid T) := false]> (ThreadIDOccupied k))
      (set_thread_poiners (<[Z.to_nat (tid T) := None]> (thread_poiners k)) k)))).
Proof.
  intros Hk Hd HT Hne. set (k2 := set_threadToBeDestroyed _ _).
  destruct Hk. destruct (ki_destroy0 t Hd) as (T0 & HT0 & Hb & Hf). assert (T0 = T) as -> by congruence.
  assert (Hold : forall t' U, t' <> t -> threads k !! t' = Some U -> threads k2 !! t' = Some U).
  { intros t' U Hn HU. simpl. by rewrite lookup_delete_ne. }
  assert (Hback : forall t' U, threads k2 !! t' = Some U -> t' <> t /\ threads k !! t' = Some U).
  { intros t' U HU. simpl in HU. apply lookup_delete_Some in HU as [? ?]. done. }
  assert (Hq : forall q t', t' ∈ queue_of k q -> t' <> t).
  { intros q t' Ht ->. destruct (ki_waiting0 q t Ht) as (U & HU & _ & Hw).
    assert (U = T) as -> by congruence. by eapply finishing_waits. }
  assert (Hid : forall t' U, t' <> t -> threads k !! t' = Some U -> Z.to_nat (tid U) <> Z.to_nat (tid T)).
  { intros t' U Hn HU E. apply ki_ids0 in HU as (_ & _ & HU), HT as (_ & _ & HT).
    rewrite E in HU. congruence. }
  constructor; try done.
  - destruct ki_cur0 as [U HU]. exists U. by apply Hold.
  - intros p t'. simpl. rewrite ki_ready0. split.
    + intros (U & HU & Hr & ?). exists U. split; [|done]. apply Hold; [|done]. intros ->. congruence.
    + intros (U & [_ HU]%Hback & ?). by exists U.
  - intros t' U [_ HU]%Hback. by apply ki_frames0.
  - intros q t' Ht. destruct (ki_waiting0 q t' Ht) as (U & HU & ?). exists U.
    split; [|done]. apply Hold; [by eapply Hq|done].
  - intros t' U [_ HU]%Hback. by apply ki_blocked0.
  - intros s x t' Hx Ht. destruct (ki_woken0 s x t' Hx Ht) as (U & HU & Hb' & ?). exists U.
    split; [|done]. apply Hold; [|done]. intros ->. congruence.
  - simpl. by rewrite !length_insert.
  - intros t' U [Hn HU]%Hback. simpl. pose proof (Hid t' U Hn HU).
    rewrite !list_lookup_insert_ne by done. by apply ki_ids0.
  - intros j Hj. simpl in Hj. apply list_lookup_insert_Some in Hj as [(_ & ? & _)|[Hnj Hj]]; [done|].
    destruct (ki_occupied0 j Hj) as (t' & U & HU & Hti). exists t', U. split; [|done].
    apply Hold; [|done]. intros ->. assert (U = T) as -> by congruence. rewrite Hti in Hnj. lia.
  - intros t' [U [_ HU]%Hback]. apply ki_next0. eauto.
Qed.
