(* ===== verification/KernelSteps.v ===== *)
(** * Every step keeps the kernel's invariant

    Computations are classified by what they do to the running thread: [calm] ones
    leave it alone, [settles] ones leave it running with more to do; the rest
    (blocking, switching, forking, finishing) are treated one by one. *)

From S2P Require Import Prelude NList Sectors Disk Kernel KernelInv.

(** ** Code that can run in an interrupt *)

(** [calm m]: whatever the running thread is doing, [m] keeps the invariant and
    leaves the interrupted code undisturbed. *)
Definition calm {A : Type} (m : M Kernel A) : Prop := forall cf tr k a k',
  kinv cf tr k -> m k = Ok (a, k') -> kinv cf tr k' /\ quiet k k'.

Lemma calm_bind {A B} (m : M Kernel A) (f : A -> M Kernel B) :
  calm m -> (forall a, calm (f a)) -> calm (m ≫= f).
Proof.
  intros Hm Hf cf tr k b k' Hk (a & k1 & H1 & H2)%bind_inv.
  destruct (Hm _ _ _ _ _ Hk H1) as [Hk1 Hq1]. destruct (Hf a _ _ _ _ _ Hk1 H2) as [Hk2 Hq2].
  eauto with nachos.
Qed.

Lemma calm_ret {A} (a : A) : calm (mret a).
Proof. intros cf tr k b k' Hk [= _ <-]. eauto with nachos. Qed.
Lemma calm_gets {A} (f : Kernel -> A) : calm (gets f).
Proof. intros cf tr k b k' Hk [= _ <-]. eauto with nachos. Qed.
Lemma calm_assert b : calm (ASSERT b).
Proof. intros cf tr k a k' Hk. destruct b; [intros [= _ <-]; eauto with nachos|done]. Qed.
Lemma calm_halt {A} w : calm (@halt _ A w).
Proof. done. Qed.

(** A change of fields the invariant does not depend on. *)
Lemma calm_modify f : (forall k, same_core k (f k)) -> calm (modify f).
Proof.
  intros Hc cf tr k a k' Hk [= _ <-]. split; [by eapply kinv_core|].
  destruct (Hc k). by apply quiet_same.
Qed.

Lemma calm_v_body s : calm (V_body s).
Proof. intros cf tr k [] k' Hk Hrun. by destruct (v_body_inv _ _ _ _ _ Hk Hrun) as (? & ? & _). Qed.

Create HintDb calm discriminated.
#[export] Hint Resolve calm_ret calm_gets calm_assert calm_halt calm_v_body : calm.

(** Decompose a computation into calm parts. *)
Ltac calm :=
  repeat match goal with
  | |- calm _ => solve [eauto with calm]
  | |- calm (mbind _ _) => apply calm_bind; [|intros]
  | |- calm (if ?b then _ else _) => destruct b
  | |- calm (match ?x with _ => _ end) => destruct x
  | |- calm (let '_ := ?x in _) => destruct x
  | |- calm (modify _) => apply calm_modify; intros; by constructor
  end.

(** ** Code that leaves the running thread running *)

Definition running (k : Kernel) (T : Thread) : Prop :=
  threads k !! currentThread k = Some T /\ tstatus T = RUNNING.

(** The invariant between steps. *)
Definition inv (k : Kernel) : Prop :=
  exists T, threads k !! currentThread k = Some T /\ kinv (frames T) None k.

Lemma plain_good fs : plain fs -> good_frames True RUNNING fs.
Proof. destruct fs as [|[] fs]; simpl; naive_solver. Qed.

(** Only a thread in the loop of [P] may have been woken. *)
Lemma not_woken cf tr k :
  kinv cf tr k -> (forall s, ~ in_P s cf) -> forall s x, sems k !! s = Some x -> ~ (currentThread k ∈ woken x).
Proof.
  intros Hk Hp s x Hx Hin. destruct (ki_woken _ _ _ Hk s x _ Hx Hin) as (T & _ & _ & Hin').
  rewrite frames_of_cur in Hin'. by eapply Hp.
Qed.

(** [m], run by a running thread that has unwound its stack to plain frames, ends
    in the invariant. *)
Definition settles {A : Type} (m : M Kernel A) : Prop := forall cf k T a k',
  kinv cf None k -> (forall s x, sems k !! s = Some x -> ~ (currentThread k ∈ woken x)) ->
  running k T -> plain (frames T) ->
  m k = Ok (a, k') -> inv k'.

(** Running [m] in the middle keeps what [settles] assumes. *)
Definition steady {A : Type} (m : M Kernel A) : Prop := forall cf k T a k',
  kinv cf None k -> (forall s x, sems k !! s = Some x -> ~ (currentThread k ∈ woken x)) ->
  running k T -> plain (frames T) ->
  m k = Ok (a, k') ->
  exists cf' T', kinv cf' None k' /\ (forall s x, sems k' !! s = Some x -> ~ (currentThread k' ∈ woken x)) /\
    running k' T' /\ plain (frames T').

Lemma settles_bind {A B} (m : M Kernel A) (f : A -> M Kernel B) :
  steady m -> (forall a, settles (f a)) -> settles (m ≫= f).
Proof.
  intros Hm Hf cf k T b k' Hk Hw HT Hp (a & k1 & H1 & H2)%bind_inv.
  destruct (Hm _ _ _ _ _ Hk Hw HT Hp H1) as (cf' & T' & Hk1 & Hw1 & HT1 & Hp1).
  by apply (Hf a cf' k1 T' b k').
Qed.

Lemma inv_plain cf k T :
  kinv cf None k -> (forall s x, sems k !! s = Some x -> ~ (currentThread k ∈ woken x)) ->
  running k T -> good_frames True RUNNING (frames T) -> inv k.
Proof.
  intros Hk Hw [HT Hr] Hp. exists T. split; [done|].
  apply (kinv_reframe cf _ _ _ T); [done|done|done|done|]. intros s x Hx Hin. by destruct (Hw s x Hx).
Qed.

Lemma settles_steady {A} (m : M Kernel A) : steady m -> settles m.
Proof.
  intros Hm cf k T a k' Hk Hw HT Hp H1.
  destruct (Hm _ _ _ _ _ Hk Hw HT Hp H1) as (cf' & T' & Hk1 & Hw1 & HT1 & Hp1).
  apply (inv_plain cf' k' T'); try done. by apply plain_good.
Qed.

Lemma steady_calm {A} (m : M Kernel A) : calm m -> steady m.
Proof.
  intros Hm cf k T a k' Hk Hw [HT Hr] Hp H1. destruct (Hm cf None k a k' Hk H1) as [Hk1 Hq].
  destruct (qt_threads _ _ Hq _ _ HT) as (T' & HT' & Hf & HTT). specialize (HTT Hr). subst T'.
  assert (HR : running k' T) by (split; [by rewrite (qt_cur _ _ Hq)|done]).
  exists [FFinish], T. assert (Hfin : kinv [FFinish] None k).
  { apply (kinv_reframe cf _ _ _ T); [done|done|done|done|]. intros s x Hx Hin. by destruct (Hw s x Hx). }
  destruct (Hm [FFinish] None k a k' Hfin H1) as [Hk2 _]. split_and!; [done| |done|done].
  apply (not_woken [FFinish] None k' Hk2). by intros s [].
Qed.

Lemma push_eq fs k T : threads k !! currentThread k = Some T ->
  push fs k = Ok (tt, set_threads (<[currentThread k := set_frames (fs ++ frames T) T]> (threads k)) k).
Proof. intros HT. unfold push, with_thread, thread, put_thread, gets, modify. munfold. by rewrite HT. Qed.

Lemma settles_push fs :
  (forall r, plain r -> good_frames True RUNNING (fs ++ r)) -> settles (push fs).
Proof.
  intros Hfs cf k T [] k' Hk Hw [HT Hr] Hp H1. rewrite (push_eq _ _ _ HT) in H1. injection H1 as <-.
  apply (inv_plain cf _ (set_frames (fs ++ frames T) T)); [by eapply kinv_cur_any|done| |by apply Hfs].
  split; [apply lookup_insert_eq|done].
Qed.

Lemma steady_push fs : (forall r, plain r -> plain (fs ++ r)) -> steady (push fs).
Proof.
  intros Hfs cf k T [] k' Hk Hw [HT Hr] Hp H1. rewrite (push_eq _ _ _ HT) in H1. injection H1 as <-.
  exists cf, (set_frames (fs ++ frames T) T). split_and!; [by eapply kinv_cur_any|done| |by apply Hfs].
  split; [apply lookup_insert_eq|done].
Qed.

(** Decompose a computation into steady parts. *)
Ltac settle :=
  repeat match goal with
  | |- settles _ => solve [eauto with calm]
  | |- settles (mbind _ _) => apply settles_bind; [|intros]
  | |- settles (push _) => apply settles_push; intros ? ?; by simpl
  | |- settles (if ?b then _ else _) => destruct b
  | |- settles (match ?x with _ => _ end) => destruct x
  | |- settles _ => apply settles_steady
  | |- steady (push _) => apply steady_push; intros ? ?; by simpl
  | |- steady _ => solve [eauto with calm]
  | |- steady _ => apply steady_calm; calm
  end.

Section KernelSteps.
Context (Random : nat -> Z) (cfg : Config).

Lemma calm_change_level l : calm (ChangeLevel l).
Proof. unfold ChangeLevel. calm. Qed.
#[local] Hint Resolve calm_change_level : calm.
Lemma calm_set_level_off : calm SetLevelOff.
Proof. unfold SetLevelOff. calm. Qed.
#[local] Hint Resolve calm_set_level_off : calm.
Lemma calm_schedule h n ty : calm (Schedule h n ty).
Proof. unfold Schedule. calm. Qed.
Lemma calm_yield_on_return : calm YieldOnReturn.
Proof. unfold YieldOnReturn. calm. Qed.
Lemma calm_time_of_next : calm (TimeOfNextInterrupt Random cfg).
Proof. unfold TimeOfNextInterrupt. calm. Qed.
#[local] Hint Resolve calm_schedule calm_yield_on_return calm_time_of_next : calm.
Lemma calm_timer_handler : calm TimerInterruptHandler.
Proof. unfold TimerInterruptHandler. calm. Qed.
Lemma calm_rounding_handler : calm RoundingTimerInterruptHandler.
Proof. unfold RoundingTimerInterruptHandler. calm. Qed.
#[local] Hint Resolve calm_timer_handler calm_rounding_handler : calm.
Lemma calm_timer_expired r : calm (TimerExpired Random cfg r).
Proof. unfold TimerExpired. calm. Qed.
Lemma calm_v_in_handler s : calm (V_in_handler s).
Proof. unfold V_in_handler. calm. Qed.
#[local] Hint Resolve calm_timer_expired calm_v_in_handler : calm.
Lemma calm_run_handler h : calm (run_handler Random cfg h).
Proof. unfold run_handler. calm. Qed.
Lemma calm_set_machine_status m : calm (set_machine_status m).
Proof. unfold set_machine_status. calm. Qed.
Lemma calm_put_pending p : calm (put_pending p).
Proof. unfold put_pending. calm. Qed.
#[local] Hint Resolve calm_run_handler calm_set_machine_status calm_put_pending : calm.
Lemma calm_fire old p : calm (fire Random cfg old p).
Proof. unfold fire. calm. Qed.
#[local] Hint Resolve calm_fire : calm.
Lemma calm_check_if_due b : calm (CheckIfDue Random cfg b).
Proof. unfold CheckIfDue. calm. Qed.
#[local] Hint Resolve calm_check_if_due : calm.
Lemma calm_check_due n : calm (check_due Random cfg n).
Proof. induction n; cbn [check_due]; calm. Qed.
#[local] Hint Resolve calm_check_due : calm.
Lemma calm_check_all_due : calm (CheckAllDue Random cfg).
Proof. unfold CheckAllDue. calm. Qed.
#[local] Hint Resolve calm_check_all_due : calm.
Lemma calm_idle : calm (Idle Random cfg).
Proof. unfold Idle. calm. Qed.
#[local] Hint Resolve calm_idle : calm.
Lemma settles_one_tick : settles (OneTick Random cfg).
Proof. unfold OneTick. settle. Qed.
#[local] Hint Resolve settles_one_tick : calm.
Lemma settles_set_level l : settles (SetLevel Random cfg l).
Proof. unfold SetLevel. settle. Qed.
Lemma settles_P s : settles (P s).
Proof. unfold P. settle. Qed.
Lemma settles_V s : settles (V s).
Proof. unfold V. settle. Qed.
Lemma calm_lock l : calm (lock l).
Proof.
  intros cf tr k a k' Hk H. unfold lock in H. destruct (locks k !! l); [injection H as _ <-|done].
  eauto with nachos.
Qed.
#[local] Hint Resolve settles_set_level settles_P settles_V calm_lock : calm.
Lemma calm_put_holder l h : calm (put_holder l h).
Proof. unfold put_holder. calm. Qed.
#[local] Hint Resolve calm_put_holder : calm.
Lemma settles_acquire l : settles (Acquire l).
Proof. unfold Acquire. settle. Qed.
Lemma settles_set_holder l : settles (SetHolder l).
Proof. unfold SetHolder. settle. Qed.
Lemma settles_release l : settles (Release l).
Proof. unfold Release. settle. Qed.

(** The first thread in a condition's queue is taken off it and made ready. *)
Lemma cond_wake cf tr k c p t q :
  kinv cf tr k -> conds k !! c = Some ((p, t) :: q) ->
  exists T, threads k !! t = Some T /\
    let k' := made_ready t T (set_conds (<[c := q]> (conds k)) k) in
    kinv cf tr k' /\ quiet k k'.
Proof.
  intros Hk Hc. assert (Hqk : queue_of k (QCond c) = t :: q.*2) by (simpl; by rewrite Hc).
  destruct (ki_waiting _ _ _ Hk (QCond c) t ltac:(rewrite Hqk; by left)) as (T & HT & Hb & _).
  exists T. split; [done|]. split.
  - change (set_conds (<[c := q]> (conds k)) k) with (set_sems (sems k) (set_conds (<[c := q]> (conds k)) k)).
    apply (kinv_wake cf tr k (QCond c) t q.*2); try done.
    + intros [s|c']; simpl; [done|]. destruct (decide (c' = c)) as [->|].
      * rewrite list_lookup_insert_eq by (by eapply lookup_lt_Some). by rewrite decide_True.
      * rewrite list_lookup_insert_ne, decide_False by congruence. done.
    + apply (ki_sems _ _ _ Hk).
    + eauto.
  - constructor; try done. intros t' U HU. simpl. destruct (decide (t' = t)) as [->|].
    + rewrite lookup_insert_eq. eexists. split; [done|]. assert (U = T) as -> by congruence.
      split; [done|]. congruence.
    + rewrite lookup_insert_ne by done. by exists U.
Qed.

Lemma put_cond_ready c q t k T : threads k !! t = Some T ->
  (put_cond c q ≫= fun _ => ReadyToRun t) k = Ok (tt, made_ready t T (set_conds (<[c := q]> (conds k)) k)).
Proof.
  intros HT. unfold put_cond. erewrite bind_ok by done. by apply ready_to_run_eq.
Qed.

Lemma calm_signal c :
  calm (q ← cond c;
        let '(t, q) := Lists.remove q in
        _ ← put_cond c q;
        match t with Some t => ReadyToRun t | None => mret tt end).
Proof.
  intros cf tr k a k' Hk (q & k1 & H1 & H2)%bind_inv. unfold cond in H1.
  destruct (conds k !! c) as [q0|] eqn:Hc; [injection H1 as <- <-|done].
  destruct q0 as [|[p t] q0]; cbn [Lists.remove] in H2.
  - unfold put_cond, modify in H2. munfold. simpl in H2. injection H2 as _ <-.
    rewrite list_insert_id by done. destruct k; eauto with nachos.
  - destruct (cond_wake cf tr k c p t q0 Hk Hc) as (T & HT & Hk2 & Hq).
    rewrite (put_cond_ready c q0 t k T HT) in H2. by destruct a; injection H2 as <-.
Qed.

Lemma calm_broadcast c : calm (q ← cond c; broadcast_loop c q).
Proof.
  intros cf tr k a k' Hk (q & k1 & H1 & H2)%bind_inv. unfold cond in H1.
  destruct (conds k !! c) as [q0|] eqn:Hc; [injection H1 as <- <-|done].
  revert k Hk Hc H2. induction q0 as [|[p t] q0 IH]; intros k Hk Hc H2; simpl in H2.
  - destruct a; injection H2 as <-. eauto with nachos.
  - destruct (cond_wake cf tr k c p t q0 Hk Hc) as (T & HT & Hk2 & Hq).
    change ((put_cond c q0 ≫= fun _ => ReadyToRun t ≫= fun _ => broadcast_loop c q0) k = Ok (a, k')) in H2.
    unfold put_cond in H2. erewrite bind_ok in H2 by done.
    rewrite (bind_ok _ _ _ _ _ (ready_to_run_eq (set_conds _ k) t T HT)) in H2.
    apply IH in H2 as [Hk3 Hq3]; [eauto with nachos|done|].
    simpl. rewrite list_lookup_insert_eq; [done|by eapply lookup_lt_Some].
Qed.
#[local] Hint Resolve calm_signal calm_broadcast : calm.

Lemma calm_held l : calm (isHeldByCurrentThread l).
Proof. unfold isHeldByCurrentThread. calm. Qed.
#[local] Hint Resolve calm_held : calm.
Lemma settles_signal c l : settles (Signal c l).
Proof. unfold Signal. settle. Qed.
Lemma settles_broadcast c l : settles (Broadcast c l).
Proof. unfold Broadcast. settle. Qed.

(** *** The disk *)

Lemma calm_disk {A} (m : M Disk A) : calm (zoom (Lens disk set_disk) m).
Proof.
  intros cf tr k a k' Hk. unfold zoom. simpl. destruct (m (disk k)) as [[b d]|]; [|done].
  intros [= _ <-]. split; [eapply kinv_core; [|done]; by constructor|by apply quiet_same].
Qed.

Lemma steady_buf d : steady (cur ← gets currentThread; with_thread cur (set_buf d)).
Proof.
  intros cf k T [] k' Hk Hw [HT Hr] Hp H1. unfold with_thread, thread, put_thread, gets, modify in H1.
  munfold. rewrite HT in H1. injection H1 as <-. exists cf, (set_buf d T).
  split_and!; [by eapply kinv_cur_any|done|split; [apply lookup_insert_eq|done]|done].
Qed.
Lemma steady_set_priority p : steady (SetPriority p).
Proof.
  intros cf k T [] k' Hk Hw [HT Hr] Hp H1. unfold SetPriority, with_thread, thread, put_thread, gets, modify in H1.
  munfold. rewrite HT in H1. injection H1 as <-. exists cf, (set_priority p T).
  split_and!; [by apply (kinv_cur_prio cf None k T); auto|done|split; [apply lookup_insert_eq|done]|done].
Qed.
#[local] Hint Resolve calm_disk : calm.

Lemma settles_disk_write s d : settles (disk_write s d).
Proof. unfold disk_write. settle. Qed.

Lemma settles_disk_read s : settles (disk_read s).
Proof.
  unfold disk_read. apply settles_bind; [apply steady_calm; calm|intros now].
  apply settles_bind; [apply steady_calm; calm|intros [data ticks]].
  intros cf k T a k' Hk Hw HT Hp H1.
  apply (settles_bind (cur ← gets currentThread; with_thread cur (set_buf data))
    (fun _ => _ ← modify (fun k => set_stats (set_numDiskReads (numDiskReads (stats k) + 1) (stats k)) k);
              Schedule DiskDone ticks DiskInt) (steady_buf data)) with cf k T a; [|done..].
  intros _. settle.
Qed.

(** ** Blocking *)

Lemma sleep_inv k T k' : threads k !! currentThread k = Some T -> Sleep k = Ok (tt, k') ->
  k' = set_threads (<[currentThread k := set_frames (FSleepLoop :: frames T) (set_tstatus BLOCKED T)]>
                     (threads k)) k.
Proof.
  intros HT (? & ? & [= <- <-] & H)%bind_inv. apply bind_inv in H as (? & ? & [= <- <-] & H).
  apply bind_inv in H as (? & ? & H1 & H). unfold ASSERT in H1. case_bool_decide; [injection H1 as _ <-|done].
  unfold with_thread, thread, put_thread, push, gets, modify in H. munfold. rewrite HT in H. simpl in H.
  unfold with_thread, thread, put_thread, modify in H. munfold. simpl in H.
  rewrite lookup_insert_eq in H. injection H as <-. simpl. by rewrite insert_insert_eq.
Qed.

Lemma push_sleep_inv fs k T k' : threads k !! currentThread k = Some T ->
  (push fs ≫= fun _ => Sleep) k = Ok (tt, k') ->
  k' = set_threads (<[currentThread k := set_frames (FSleepLoop :: fs ++ frames T) (set_tstatus BLOCKED T)]>
                     (threads k)) k.
Proof.
  intros HT H. rewrite (bind_ok _ _ _ _ _ (push_eq fs k T HT)) in H.
  apply (sleep_inv _ (set_frames (fs ++ frames T) T)) in H; [|apply lookup_insert_eq]. subst k'.
  unfold set_threads. simpl. by rewrite insert_insert_eq.
Qed.

(** What a thread sees of its own state between steps. *)
Lemma inv_of cf k T :
  threads k !! currentThread k = Some T -> frames T = cf -> kinv cf None k -> inv k.
Proof. intros HT <- Hk. by exists T. Qed.

Lemma filter_length_remove (l : list nat) (c : nat) :
  NoDup l -> (length l <= S (length (filter (fun t => t <> c) l)))%nat.
Proof.
  induction 1 as [|x l Hx Hl IH]; [simpl; lia|]. rewrite filter_cons. case_decide as E; [simpl; lia|].
  assert (x = c) as -> by (destruct (decide (x = c)); done).
  rewrite filter_all; [simpl; lia|]. apply Forall_forall. intros y Hy ->. done.
Qed.

(** The decrement at the end of [P]. *)
Lemma kinv_down s fs k x :
  kinv (FPLoop s :: fs) None k -> sems k !! s = Some x -> value x <> 0 ->
  let x' := MkSem (value x - 1) (queue x) (initial x) (downs x + 1) (ups x)
              (filter (fun t => t <> currentThread k) (woken x)) in
  let k' := set_sems (<[s := x']> (sems k)) k in
  kinv (FPLoop s :: fs) None k' /\
  (forall s' y, sems k' !! s' = Some y -> ~ (currentThread k' ∈ woken y)).
Proof.
  intros Hk Hx Hv x' k'. pose proof (ki_sems _ _ _ Hk s x Hx) as (Hpos & Hval & Hnd & Hwk).
  assert (Hlt : (s < length (sems k))%nat) by (by eapply lookup_lt_Some). split.
  - apply kinv_sems; [done| | |].
    + intros [s'|c]; [|done]. simpl. destruct (decide (s' = s)) as [->|].
      * by rewrite list_lookup_insert_eq, Hx.
      * by rewrite list_lookup_insert_ne.
    + intros s' y Hy. apply list_lookup_insert_Some in Hy as [(<- & <- & _)|[_ Hy]];
        [|by apply (ki_sems _ _ _ Hk) in Hy].
      split_and!; simpl; [lia|lia|by apply NoDup_filter|]. intros Hq. specialize (Hwk Hq).
      pose proof (filter_length_remove (woken x) (currentThread k) Hnd). lia.
    + intros s' y t Hy Ht. apply list_lookup_insert_Some in Hy as [(<- & <- & _)|[_ Hy]]; [|eauto].
      simpl in Ht. apply list_elem_of_filter in Ht as [_ Ht]. eauto.
  - intros s' y Hy Hin. simpl in Hy, Hin. apply list_lookup_insert_Some in Hy as [(<- & <- & _)|[Hne Hy]].
    + simpl in Hin. by apply list_elem_of_filter in Hin as [? _].
    + destruct (ki_woken _ _ _ Hk s' y _ Hy Hin) as (T & _ & _ & Hp). rewrite frames_of_cur in Hp. done.
Qed.

(** [m] is what a thread does on resuming at the frame [f]. *)
Definition resumes (f : frame) (m : M Kernel unit) : Prop := forall k T k',
  kinv (f :: frames T) None k -> threads k !! currentThread k = Some T -> m k = Ok (tt, k') -> inv k'.

Lemma resumes_PLoop s : resumes (FPLoop s) (PLoop s).
Proof.
  intros k T k' Hk HT (x & k1 & H1 & H2)%bind_inv. unfold sem in H1.
  destruct (sems k !! s) as [x0|] eqn:Hx; [injection H1 as <- <-|done].
  apply bind_inv in H2 as (? & ? & [= <- <-] & H2).
  pose proof (ki_frames _ _ _ Hk _ _ HT) as Hg. rewrite frames_of_cur in Hg.
  assert (Hr : tstatus T = RUNNING) by (destruct (tstatus T); simpl in Hg; tauto).
  rewrite Hr in Hg. destruct Hg as [_ Hplain].
  destruct (Z.eqb_spec (value x0) 0) as [Hz|Hz].
  - unfold put_sem in H2. apply bind_inv in H2 as (? & ? & [= <- <-] & H2).
    set (ss := <[s := _]> (sems k)) in H2.
    apply (push_sleep_inv _ (set_sems ss k) T _ HT) in H2. subst k'.
    pose proof (ki_sems _ _ _ Hk s x0 Hx) as (Hpos & Hval & Hnd & Hwk).
    assert (Hlt : (s < length (sems k))%nat) by (by eapply lookup_lt_Some).
    eapply inv_of; [apply lookup_insert_eq|done|].
    apply (kinv_block (FPLoop s :: frames T) (FPLoop s :: frames T) k T _ ss (conds k)
             (threadToBeDestroyed k) (Some (QSem s))); try done.
    + by left.
    + intros [s'|c]; [|by rewrite app_nil_r]. simpl. destruct (decide (s' = s)) as [->|].
      * unfold ss. rewrite list_lookup_insert_eq, Hx, decide_True by done. cbn [queue]. unfold Lists.append. by rewrite fmap_app.
      * unfold ss. rewrite list_lookup_insert_ne, decide_False, app_nil_r by congruence. done.
    + by left.
    + intros s' y Hy. apply list_lookup_insert_Some in Hy as [(<- & <- & _)|[_ Hy]];
        [|by apply (ki_sems _ _ _ Hk) in Hy].
      split_and!; simpl; [lia|lia|by apply NoDup_filter|lia].
    + intros s' y t Hy Ht. apply list_lookup_insert_Some in Hy as [(<- & <- & _)|[Hne Hy]].
      * simpl in Ht. apply list_elem_of_filter in Ht as [? Ht]. eauto.
      * split; [|eauto]. intros ->.
        destruct (ki_woken _ _ _ Hk s' y _ Hy Ht) as (U & _ & _ & Hp). by rewrite frames_of_cur in Hp.
  - unfold put_sem, modify in H2. injection H2 as <-.
    destruct (kinv_down s (frames T) k x0 Hk Hx Hz) as [Hk' Hw].
    eapply inv_plain; [exact Hk'|exact Hw|split; [exact HT|done]|]. by apply plain_good.
Qed.

Lemma settles_cond_sleep c l old :
  settles (q ← cond c;
           cur ← gets currentThread;
           _ ← put_cond c (Lists.append cur q);
           _ ← push [FOp (OpAcquire l); FSetLevel old];
           Sleep).
Proof.
  intros cf k T [] k' Hk Hw [HT Hr] Hp (q & k1 & H1 & H2)%bind_inv. unfold cond in H1.
  destruct (conds k !! c) as [q0|] eqn:Hc; [injection H1 as <- <-|done].
  apply bind_inv in H2 as (? & ? & [= <- <-] & H2). unfold put_cond in H2.
  apply bind_inv in H2 as (? & ? & [= <- <-] & H2). set (cs := <[c := _]> (conds k)) in H2.
  apply (push_sleep_inv _ (set_conds cs k) T _ HT) in H2. subst k'.
  assert (Hlt : (c < length (conds k))%nat) by (by eapply lookup_lt_Some).
  eapply inv_of; [apply lookup_insert_eq|done|].
  apply (kinv_block cf (FOp (OpAcquire l) :: FSetLevel old :: frames T) k T _ (sems k) cs
           (threadToBeDestroyed k) (Some (QCond c))); try done.
  - by left.
  - intros [s|c']; [by rewrite app_nil_r|]. simpl. destruct (decide (c' = c)) as [->|].
    + unfold cs. rewrite list_lookup_insert_eq, Hc, decide_True by done. unfold Lists.append. by rewrite fmap_app.
    + unfold cs. rewrite list_lookup_insert_ne, decide_False, app_nil_r by congruence. done.
  - by left.
  - apply (ki_sems _ _ _ Hk).
  - intros s x t Hx Ht. split; [|eauto]. intros ->. by eapply Hw.
Qed.
#[local] Hint Resolve settles_cond_sleep : calm.

Lemma settles_wait c l : settles (Wait c l).
Proof. unfold Wait. settle. Qed.

Lemma resumes_Finish : resumes FFinish Finish.
Proof.
  intros k T k' Hk HT (old & k1 & H1 & H2)%bind_inv. unfold SetLevelOff in H1.
  apply bind_inv in H1 as (? & ? & [= <- <-] & H1). unfold ChangeLevel in H1.
  apply bind_inv in H1 as (? & ? & [= <- <-] & H1). injection H1 as <- <-.
  apply bind_inv in H2 as (? & ? & [= <- <-] & H2). apply bind_inv in H2 as (? & ? & [= <- <-] & H2).
  set (k1 := set_interrupt _ k) in H2.
  assert (Hk1 : kinv (FFinish :: frames T) None k1) by (eapply kinv_core; [|done]; by constructor).
  pose proof (ki_frames _ _ _ Hk _ _ HT) as Hg. rewrite frames_of_cur in Hg.
  assert (Hr : tstatus T = RUNNING) by (destruct (tstatus T); simpl in Hg; tauto).
  rewrite Hr in Hg. destruct Hg as [_ Hnil].
  apply (sleep_inv _ T) in H2; [subst k'|done].
  eapply inv_of; [apply lookup_insert_eq|simpl; by rewrite Hnil|].
  apply (kinv_block (FFinish :: frames T) [] k1 T _ (sems k) (conds k) (Some (currentThread k)) None); try done.
  - by right.
  - intros q. by rewrite app_nil_r.
  - intros t [= <-]. by right.
  - apply (ki_sems _ _ _ Hk).
  - intros s x t Hx Ht. split; [|eauto]. intros ->.
    destruct (ki_woken _ _ _ Hk1 s x _ Hx Ht) as (U & _ & _ & Hp). by rewrite frames_of_cur in Hp.
Qed.

(** ** Switching *)

Lemma run_inv n k T k' :
  kinv (FSleepLoop :: frames T) (Some n) k -> threads k !! currentThread k = Some T ->
  Run n k = Ok (tt, k') -> inv k'.
Proof.
  intros Hk HT (? & ? & [= <- <-] & H)%bind_inv.
  apply bind_inv in H as (T0 & k0 & HT0 & H). unfold thread in HT0. rewrite HT in HT0. injection HT0 as <- <-.
  apply bind_inv in H as (? & ? & Ho & H). unfold CheckOverflow, ASSERT in Ho.
  destruct (match stack T with None => true | Some w => w =? STACK_FENCEPOST end); [injection Ho as _ <-|done].
  rewrite (bind_ok _ _ _ _ _ (push_eq _ _ _ HT)) in H. apply bind_inv in H as (? & ? & [= <- <-] & H).
  destruct (ki_transit _ _ _ Hk n eq_refl) as (N & HN & HrN).
  assert (Heq : k' = switched n (frames T) k).
  { unfold with_thread, thread, put_thread, modify in H. munfold. simpl in H.
    destruct (<[currentThread k := _]> (threads k) !! n) as [U|] eqn:HU; [|done].
    injection H as <-. unfold switched, set_threads. simpl. f_equal. apply map_eq. intros t.
    rewrite !lookup_alter. destruct (decide (n = t)) as [<-|Hnt].
    - rewrite lookup_insert_eq. rewrite lookup_insert in HU.
      case_decide; [rewrite HT; by injection HU as <-|by rewrite HU].
    - rewrite lookup_insert_ne by done. rewrite lookup_insert. by case_decide; subst; rewrite ?HT. }
  assert (exists Tn, threads k' !! n = Some Tn) as [Tn HTn].
  { rewrite Heq, lookup_switched, HN. by eexists. }
  exists Tn. subst k'. split; [exact HTn|]. by apply kinv_switch.
Qed.

Lemma settles_yield : settles Yield.
Proof.
  unfold Yield. apply settles_bind; [apply steady_calm; calm|intros old].
  intros cf k T [] k' Hk Hw [HT Hr] Hp (? & ? & [= <- <-] & H)%bind_inv.
  apply bind_inv in H as (o & k1 & Hn & H). pose proof (find_next_inv _ _ _ _ Hk Hn) as Hn'.
  destruct o as [n|].
  - destruct Hn' as (Hk1 & p & l & Hl & ->).
    rewrite (bind_ok _ _ _ _ _ (push_eq _ (set_readyList l k) T HT)) in H.
    set (T1 := set_frames _ T) in H. set (k2 := set_threads _ _) in H.
    assert (HT1 : threads k2 !! currentThread k = Some T1) by apply lookup_insert_eq.
    assert (Hk2 : kinv cf (Some n) k2) by (by apply (kinv_cur_any cf (Some n) (set_readyList l k) T)).
    rewrite (bind_ok _ _ _ _ _ (ready_to_run_eq k2 _ T1 HT1)) in H.
    apply (run_inv n _ (set_tstatus READY T1)) in H; [done| |apply lookup_insert_eq].
    by apply (kinv_yield cf (FSetLevel old :: frames T) (Some n) k2 T1).
  - destruct Hn' as (_ & ->). rewrite (bind_ok _ _ _ _ _ (push_eq _ k T HT)) in H. injection H as <-.
    apply (settles_push [FSetLevel old]) with cf k T tt; try done. by apply push_eq.
Qed.

Lemma resumes_SleepLoop : resumes FSleepLoop (SleepLoop Random cfg).
Proof.
  intros k T k' Hk HT (o & k1 & Hn & H)%bind_inv. pose proof (find_next_inv _ _ _ _ Hk Hn) as Hn'.
  destruct o as [n|].
  - destruct Hn' as (Hk1 & p & l & Hl & ->). by eapply run_inv.
  - destruct Hn' as (_ & ->). apply bind_inv in H as ([] & k2 & Hidle & H).
    destruct (calm_idle _ _ _ _ _ Hk Hidle) as [Hk2 Hq].
    destruct (qt_threads _ _ Hq _ _ HT) as (T' & HT' & Hf & _). rewrite <- (qt_cur _ _ Hq) in HT'.
    rewrite (push_eq _ _ _ HT') in H. injection H as <-.
    eapply inv_of; [apply lookup_insert_eq|done|]. simpl. rewrite Hf. by eapply kinv_cur_any.
Qed.

(** A thread back from [SWITCH] deletes the one that finished. *)
Lemma after_run_kinv cf k k' :
  kinv cf None k -> (forall T, threads k !! currentThread k = Some T -> tstatus T = RUNNING) ->
  AfterRun k = Ok (tt, k') ->
  kinv cf None k' /\ currentThread k' = currentThread k /\ sems k' = sems k /\
  threads k' !! currentThread k = threads k !! currentThread k.
Proof.
  intros Hk Hr (d & ? & [= <- <-] & H)%bind_inv. destruct (threadToBeDestroyed k) as [t|] eqn:Hd;
    [|injection H as <-; done].
  destruct (ki_destroy _ _ _ Hk t Hd) as (T & HT & Hb & _).
  assert (Hne : t <> currentThread k) by (intros ->; specialize (Hr T HT); congruence).
  destruct (ki_ids _ _ _ Hk t T HT) as (Hpos & Hocc & Hptr).
  pose proof (ki_tables _ _ _ Hk) as [Hlo Hlp].
  apply lookup_lt_Some in Hocc, Hptr.
  unfold delete_thread, gets, modify, thread in H. munfold. simpl in H.
  rewrite bool_decide_eq_false_2 in H by done. simpl in H. munfold.
  rewrite HT in H. unfold lift in H. rewrite !aset_ok in H by lia. simpl in H. injection H as <-.
  split; [by apply (kinv_delete cf k t T)|]. split_and!; try done. simpl. by rewrite lookup_delete_ne.
Qed.

Lemma resumes_AfterRun : resumes FAfterRun AfterRun.
Proof.
  intros k T k' Hk HT H. pose proof (ki_frames _ _ _ Hk _ _ HT) as Hg. rewrite frames_of_cur in Hg.
  assert (Hr : tstatus T = RUNNING) by (destruct (tstatus T); simpl in Hg; tauto).
  rewrite Hr in Hg. destruct Hg as [_ Hb].
  destruct (after_run_kinv _ _ _ Hk ltac:(congruence) H) as (Hk' & Hc & Hs & Ht).
  rewrite HT, <- Hc in Ht. exists T. split; [done|].
  apply (kinv_reframe (FAfterRun :: frames T) _ _ _ T); try done.
  - destruct (frames T) as [|[] ?]; simpl in *; naive_solver.
  - intros s x Hx Hin. destruct (ki_woken _ _ _ Hk' s x _ Hx Hin) as (U & _ & _ & Hp).
    rewrite frames_of_cur in Hp. destruct (frames T) as [|[] ?]; simpl in *; naive_solver.
Qed.

(** ** Forking *)

Lemma new_thread_inv prio k t k' :
  new_thread prio k = Ok (t, k') ->
  t = nextThread k /\ exists i, 0 <= i /\ ThreadIDOccupied k !! Z.to_nat i = Some false /\ 0 <= prio < 256 /\
    k' = set_threads (<[t := MkThread i prio JUST_CREATED None [] []]> (threads k)) (set_nextThread (S t)
           (set_ThreadIDOccupied (<[Z.to_nat i := true]> (ThreadIDOccupied k))
             (set_thread_poiners (<[Z.to_nat i := Some t]> (thread_poiners k)) k))).
Proof.
  intros H. unfold new_thread, gets, modify, put_thread, lift, modify in H. munfold. simpl in H.
  destruct (free_id 0 (ThreadIDOccupied k)) as [i|] eqn:Hi; [|done].
  apply free_id_spec in Hi as [Hpos Hi]. rewrite Z.sub_0_r in Hi.
  unfold aset in H. destruct ((0 <=? i) && (i <? Z.of_nat (length (ThreadIDOccupied k)))); [|done].
  destruct ((0 <=? i) && (i <? Z.of_nat (length (thread_poiners k)))); [|done].
  unfold ASSERT in H. destruct ((0 <=? prio) && (prio <? 256)) eqn:Hp; [|done]. munfold. simpl in H.
  injection H as <- <-. split; [done|]. exists i. zbool. done.
Qed.

Lemma settles_fork prio body : settles (t ← new_thread prio; Fork t body).
Proof.
  intros cf k T [] k' Hk Hw [HT Hr] Hp (t & k1 & H1 & H)%bind_inv.
  apply new_thread_inv in H1 as (-> & i & Hi & Hfree & Hprio & ->).
  set (k1 := set_threads _ _) in H. unfold Fork in H.
  set (T0 := MkThread i prio JUST_CREATED None [] []) in *.
  apply bind_inv in H as (? & k2 & H2 & H). unfold with_thread, thread, put_thread, modify in H2. munfold.
  change (threads k1) with (<[nextThread k := T0]> (threads k)) in H2.
  rewrite lookup_insert_eq in H2. injection H2 as _ <-.
  set (T1 := set_stack _ _) in H. apply bind_inv in H as (old & k2 & H2 & H).
  rewrite (ready_to_run_eq _ (nextThread k) T1 (lookup_insert_eq _ _ _)) in H2. injection H2 as _ <-.
  set (k3 := made_ready _ _ _) in H.
  assert (Hne : nextThread k <> currentThread k).
  { pose proof (ki_next _ _ _ Hk (currentThread k) (ki_cur _ _ _ Hk)). lia. }
  apply (settles_push [FSetLevel (level (interrupt k1))]) with cf k3 T tt; try done.
  - eapply kinv_core; [|apply (kinv_new cf k i (set_tstatus READY T1) Hk); try done; by exists body].
    constructor; try done. simpl. by rewrite !insert_insert_eq.
  - split; [|done]. simpl. by rewrite !insert_insert_eq, lookup_insert_ne.
Qed.

(** ** Steps *)

Lemma settles_resumes f m :
  settles m -> (forall s, ~ in_P s (f :: [])) ->
  match f with FPLoop _ | FSleepLoop | FAfterRun | FFinish => False | _ => True end -> resumes f m.
Proof.
  intros Hm _ Hf k T k' Hk HT H. pose proof (ki_frames _ _ _ Hk _ _ HT) as Hg. rewrite frames_of_cur in Hg.
  assert (tstatus T = RUNNING /\ plain (frames T)) as [Hr Hp].
  { destruct (tstatus T), f; simpl in *; tauto. }
  apply (Hm (f :: frames T) k T tt k'); try done. apply (not_woken _ _ _ Hk).
  intros s Hin. by destruct f.
Qed.

Lemma settles_call o : settles (call Random cfg o).
Proof.
  destruct o; simpl; eauto using settles_P, settles_V, settles_acquire, settles_release, settles_wait,
    settles_signal, settles_broadcast, settles_yield, settles_fork, settles_steady, steady_set_priority,
    settles_one_tick; settle.
Qed.

Lemma exec_resumes f : resumes f (exec Random cfg f).
Proof.
  destruct f; simpl; eauto using resumes_PLoop, resumes_SleepLoop, resumes_AfterRun, resumes_Finish;
    apply settles_resumes; try (by intros ? []); try done;
    eauto using settles_call, settles_set_level, settles_set_holder, settles_yield, settles_disk_read,
      settles_disk_write.
  settle.
Qed.

(** Every step keeps the invariant. *)
Lemma step_inv k k' : inv k -> step Random cfg k = Ok (tt, k') -> inv k'.
Proof.
  intros (T & HT & Hk) (? & ? & [= <- <-] & H)%bind_inv. unfold thread in H.
  apply bind_inv in H as (T0 & k0 & H0 & H). rewrite HT in H0. injection H0 as <- <-.
  destruct (frames T) as [|f fs] eqn:Hf; [done|]. unfold put_thread in H.
  apply bind_inv in H as (? & ? & [= <- <-] & H).
  apply (exec_resumes f _ (set_frames fs T)) in H; [done| |apply lookup_insert_eq].
  by apply (kinv_cur_any (f :: fs) None k T).
Qed.

Lemma reachable_inv k0 k : inv k0 -> reachable Random cfg k0 k -> inv k.
Proof. intros H0. induction 1; [done|]. by eapply step_inv. Qed.

End KernelSteps.
