(* ===== verification/KernelSafe.v ===== *)
(** * The kernel's assertions

    A step of the kernel never fails one of the kernel's own assertions, and the
    loop that delivers interrupts ends: a step that stops is either the halt of a
    machine with nothing left to do, or a call a client made wrongly. *)

From S2P Require Import Prelude NList Sectors Disk Kernel KernelInv KernelSteps.

Section KernelSafe.
Context (Random : nat -> Z) (cfg : Config).
(** [Random()] of [sysdep.cc] is not negative. *)
Context (Random_nonneg : forall n, 0 <= Random n).

(** ** Interrupts *)

Definition now (k : Kernel) : Z := totalTicks (stats k).
Definition pend (k : Kernel) : list (Z * PendingInterrupt) := pending (interrupt k).

(** What handlers leave as it is. *)
Record kept (k k' : Kernel) : Prop := {
  kp_sems : length (sems k') = length (sems k);
  kp_stacks : forall t T', threads k' !! t = Some T' ->
    exists T, threads k !! t = Some T /\ stack T' = stack T;
  kp_sector : lastSector (disk k') = lastSector (disk k)
}.

Lemma kept_refl k : kept k k.
Proof. constructor; try done. intros t T HT. by exists T. Qed.
Lemma kept_trans k1 k2 k3 : kept k1 k2 -> kept k2 k3 -> kept k1 k3.
Proof.
  intros [A1 A2 A3] [B1 B2 B3]. constructor; [congruence| |congruence].
  intros t T3 H3. destruct (B2 t T3 H3) as (T2 & H2 & E2). destruct (A2 t T2 H2) as (T1 & H1 & E1).
  exists T1. split; [done|congruence].
Qed.
Lemma kept_same k k' :
  sems k' = sems k -> threads k' = threads k -> lastSector (disk k') = lastSector (disk k) -> kept k k'.
Proof. intros Hs Ht Hd. constructor; [by rewrite Hs| |done]. intros t T. rewrite Ht. by exists T. Qed.
#[local] Hint Resolve kept_refl kept_trans : nachos.

Lemma made_ready_kept t T k : threads k !! t = Some T -> kept k (made_ready t T k).
Proof.
  intros HT. constructor; try done. intros t' T' HT'. simpl in HT'.
  threads_insert; [by exists T|by exists T'].
Qed.

(** [V] succeeds on an existing semaphore. *)
Lemma v_body_ok cf tr k s :
  kinv cf tr k -> (s < length (sems k))%nat ->
  exists k', V_body s k = Ok (tt, k') /\ kept k k' /\ kinv cf tr k' /\ quiet k k' /\
    interrupt k' = interrupt k /\ stats k' = stats k /\ conds k' = conds k.
Proof.
  intros Hk Hs. destruct (lookup_lt_is_Some_2 (sems k) s Hs) as [x Hx].
  assert (exists k', V_body s k = Ok (tt, k') /\ kept k k' /\ conds k' = conds k) as (k' & Hrun & Hkept & Hc).
  { unfold V_body. rewrite (bind_ok _ _ k x k) by (unfold sem; by rewrite Hx).
    destruct (queue x) as [|[p t] rest] eqn:Hq; cbn [Lists.remove]; unfold put_sem;
      erewrite bind_ok by done.
    - erewrite bind_ok by done. erewrite bind_ok; [|unfold sem; simpl; by rewrite list_lookup_insert_eq].
      eexists. split; [done|]. split; [|done]. constructor; try done; [simpl; by rewrite !length_insert|].
      intros t T HT. by exists T.
    - destruct (ki_waiting _ _ _ Hk (QSem s) t) as (T & HT & _); [simpl; rewrite Hx, Hq; by left|].
      rewrite (bind_ok _ _ _ _ _ (ready_to_run_eq (set_sems _ k) t T HT)).
      erewrite bind_ok; [|unfold sem; simpl; by rewrite list_lookup_insert_eq].
      eexists. split; [done|]. split; [|done]. constructor; try done; [simpl; by rewrite !length_insert|].
      simpl. intros t' T' HT'. threads_insert; [by exists T|by exists T']. }
  destruct (v_body_inv _ _ _ _ _ Hk Hrun) as (Hk' & Hq & Hi & Hst & Hd). by exists k'.
Qed.

(** The pending interrupts after a handler has run: as before, or with one in the
    future added, two timer periods ahead at most. *)
Definition later (k k' : Kernel) : Prop :=
  pend k' = pend k \/
  exists p w, now k < w <= now k + TimerTicks * 2 /\ pend k' = Lists.sorted_insert p w (pend k).

(** Every pending interrupt is at [b] at the latest. *)
Definition pending_by (b : Z) (l : list (Z * PendingInterrupt)) : Prop := Forall (fun e => e.1 <= b) l.
Lemma pending_by_insert b p w l : w <= b -> pending_by b l -> pending_by b (Lists.sorted_insert p w l).
Proof. intros Hw Hl. unfold pending_by. rewrite (ListFacts.sorted_insert_perm p w l). by constructor. Qed.
Lemma pending_by_later b k k' : later k k' -> now k + TimerTicks * 2 <= b -> pending_by b (pend k) -> pending_by b (pend k').
Proof. intros [->|(p & w & Hw & ->)] Hb Hl; [done|]. apply pending_by_insert; [lia|done]. Qed.

Lemma schedule_ok h n ty k :
  0 < n -> exists k', Schedule h n ty k = Ok (tt, k') /\
    k' = set_interrupt (set_pending (Lists.sorted_insert (MkPend h (now k + n) ty) (now k + n) (pend k))
           (interrupt k)) k.
Proof.
  intros Hn. unfold Schedule, gets, ASSERT, modify. munfold. rewrite (proj2 (Z.ltb_lt _ _)) by lia.
  by eexists.
Qed.

(** Running the interrupt-disabled part of the machine state through a handler. *)
Record handled (k k' : Kernel) : Prop := {
  hd_level : level (interrupt k') = level (interrupt k);
  hd_in : inHandler (interrupt k') = inHandler (interrupt k);
  hd_now : now k' = now k;
  hd_kept : kept k k'
}.

Lemma run_handler_ok cf tr k h :
  kinv cf tr k -> level (interrupt k) = IntOff -> inHandler (interrupt k) = true ->
  (disk_sem cfg < length (sems k))%nat ->
  exists k', run_handler Random cfg h k = Ok (tt, k') /\ handled k k' /\ later k k'.
Proof.
  intros Hk Hl Hh Hs. destruct h as [r|]; simpl.
  - unfold TimerExpired.
    assert (exists n d, TimeOfNextInterrupt Random cfg k = Ok (n, set_draws d k) /\ 0 < n <= TimerTicks * 2) as (n & d & Hn & Hpos).
    { unfold TimeOfNextInterrupt. destruct (randomYield cfg).
      - eexists _, _. split; [done|]. pose proof (Z.rem_bound_pos (Random (draws k)) (TimerTicks * 2)
          (Random_nonneg _) ltac:(done)). lia.
      - exists TimerTicks, (draws k). split; [by destruct k|done]. }
    rewrite (bind_ok _ _ _ _ _ Hn). destruct (schedule_ok (TimerHandler r) n TimerInt (set_draws d k) (proj1 Hpos))
      as (k1 & Hs1 & ->). rewrite (bind_ok _ _ _ _ _ Hs1). set (k1 := set_interrupt _ _).
    assert (exists k2, (if r then RoundingTimerInterruptHandler else TimerInterruptHandler) k1 = Ok (tt, k2) /\
      handled k1 k2 /\ pend k2 = pend k1) as (k2 & Hrun & Hh2 & Hp2).
    { unfold RoundingTimerInterruptHandler, TimerInterruptHandler, YieldOnReturn, ASSERT, gets, modify.
      assert (Hh1 : inHandler (interrupt k1) = true) by done. munfold.
      destruct r; cbv beta iota; rewrite ?Hh1; repeat case_if; eexists; (split; [done|]); (split; [|done]); constructor; try done;
        by apply kept_same. }
    exists k2. split; [done|]. destruct Hh2 as [A1 A2 A3 A4]. split.
    + constructor; try done. eapply kept_trans; [|done]. by apply kept_same.
    + right. exists (MkPend (TimerHandler r) (now k + n) TimerInt), (now k + n). split; [lia|]. by rewrite Hp2.
  - unfold modify. erewrite bind_ok by done. set (k1 := set_disk _ k). unfold V_in_handler, SetLevelOff, ChangeLevel.
    munfold. unfold gets, modify. simpl. rewrite Hl.
    set (k2 := set_interrupt _ k1).
    assert (Hk2 : kinv cf tr k2) by (eapply kinv_core; [|done]; by constructor).
    destruct (v_body_ok cf tr k2 (disk_sem cfg) Hk2 Hs) as (k3 & Hv & Hkept & _ & _ & Hi & Hst & _).
    rewrite Hv. unfold ASSERT. rewrite bool_decide_eq_true_2 by done. simpl. munfold. rewrite Hi. simpl.
    eexists. split; [done|]. split.
    + constructor; simpl; [by rewrite Hl|done|unfold now; simpl; by rewrite Hst|].
      apply (kept_trans _ k2); [by apply kept_same|]. apply (kept_trans _ k3); [done|by apply kept_same].
    + left. done.
Qed.

(** The machine between two interrupts, with interrupts off. *)
Record between (k : Kernel) : Prop := {
  bt_level : level (interrupt k) = IntOff;
  bt_in : inHandler (interrupt k) = false;
  bt_sem : (disk_sem cfg < length (sems k))%nat;
  bt_sorted : Lists.sorted (pend k)
}.

Lemma fire_ok cf tr k old p :
  kinv cf tr k -> between k ->
  exists k', fire Random cfg old p k = Ok (true, k') /\ kinv cf tr k' /\ between k' /\ kept k k' /\
    now k' = now k /\ status (interrupt k') = old /\ later k k'.
Proof.
  intros Hk [Hl Hin Hs Hsort].
  assert (exists k', fire Random cfg old p k = Ok (true, k') /\ level (interrupt k') = IntOff /\
    inHandler (interrupt k') = false /\ now k' = now k /\ kept k k' /\ status (interrupt k') = old /\
    later k k') as (k' & Hf & Hl' & Hi' & Hn & Hkept & Hst & Hlt).
  { unfold fire, set_machine_status, modify. do 2 erewrite bind_ok by done.
    set (k2 := set_interrupt _ _).
    assert (Hk2 : kinv cf tr k2) by (eapply kinv_core; [|done]; by constructor).
    destruct (run_handler_ok cf tr k2 (handler p) Hk2 Hl eq_refl Hs) as (k3 & Hr & [A1 A2 A3 A4] & Hlt).
    rewrite (bind_ok _ _ _ _ _ Hr). do 2 erewrite bind_ok by done. eexists. split; [done|].
    split_and!; try done; [by rewrite <- Hl|].
    apply (kept_trans _ k2); [by apply kept_same|]. apply (kept_trans _ k3); [done|by apply kept_same]. }
  exists k'. destruct (calm_fire Random cfg old p _ _ _ _ _ Hk Hf) as [Hk' _].
  split_and!; try done. split; try done; [by rewrite (kp_sems _ _ Hkept)|].
  destruct Hlt as [->|(q & w & _ & ->)]; [done|]. by apply ListFacts.sorted_insert_sorted.
Qed.

(** How many pending interrupts are due. *)
Definition due (k : Kernel) : nat := length (filter (fun e => e.1 <= now k) (pend k)).

Lemma due_later k k' : now k' = now k -> later k k' -> due k' = due k.
Proof.
  intros Hn Hl. unfold due. rewrite Hn. destruct Hl as [->|(p & w & Hw & ->)]; [done|].
  apply Permutation_length. rewrite (ListFacts.sorted_insert_perm p w (pend k)).
  by rewrite filter_cons_False by (simpl; lia).
Qed.

(** Only a timer interrupt, or none, is left. *)
Definition only_timer (k : Kernel) : Prop :=
  pend k = [] \/ exists e, pend k = [e] /\ type e.2 = TimerInt.

(** One call of [CheckIfDue]. *)
Record checked (adv r : bool) (k k' : Kernel) : Prop := {
  ck_kept : kept k k';
  ck_now : now k <= now k' /\ (adv = false -> now k' = now k);
  ck_status : status (interrupt k') = status (interrupt k);
  ck_due : adv = false -> r = true -> (due k' < due k)%nat;
  ck_not_due : adv = false -> r = false ->
    pend k' ≡ₚ pend k /\ (Forall (fun e => now k < e.1) (pend k) \/ status (interrupt k) = IdleMode);
  ck_idle : adv = true -> r = false -> only_timer k;
  ck_bound : forall b, now k' + TimerTicks * 2 <= b -> pending_by b (pend k) -> pending_by b (pend k')
}.

Lemma check_if_due_ok cf tr k adv :
  kinv cf tr k -> between k ->
  exists r k', CheckIfDue Random cfg adv k = Ok (r, k') /\ kinv cf tr k' /\ between k' /\ checked adv r k k'.
Proof.
  intros Hk Hb. pose proof Hb as [Hl Hin Hs Hsort].
  assert (exists r k', CheckIfDue Random cfg adv k = Ok (r, k') /\ between k' /\ checked adv r k k')
    as (r & k' & Hrun & Hb' & Hck).
  2:{ exists r, k'. destruct (calm_check_if_due Random cfg adv _ _ _ _ _ Hk Hrun) as [Hk' _]. done. }
  unfold CheckIfDue. do 2 erewrite bind_ok by done. rewrite Hl.
  do 2 erewrite bind_ok by done. fold (pend k).
  destruct (pend k) as [|[w p] rest] eqn:Hp; cbn [Lists.sorted_remove].
  - exists false, k. split_and!; [done|done|]. constructor; try done.
    + eauto with nachos.
    + intros _ _. rewrite Hp. split; [done|by left].
    + by left.
  - unfold put_pending, modify. do 2 erewrite bind_ok by done.
    set (k1 := set_interrupt (set_pending rest (interrupt k)) k). change (totalTicks (stats k1)) with (now k).
    destruct (ListFacts.sorted_remove_least _ (w, p) rest Hsort eq_refl) as [Hrest Hleast].
    assert (Hback : forall k2, pend k2 = Lists.sorted_insert p w rest -> now k <= now k2 ->
      (adv = false -> now k2 = now k /\ now k < w \/ now k2 = now k /\ status (interrupt k) = IdleMode) ->
      (adv = true -> rest = [] /\ type p = TimerInt) ->
      kept k k2 -> status (interrupt k2) = status (interrupt k) -> checked adv false k k2).
    { intros k2 Hp2 Hn2 Hf Ht Hkept Hst. constructor; try done.
      - split; [done|]. intros [[? _]|[? _]]%Hf; done.
      - intros Hadv _. rewrite Hp2, Hp, (ListFacts.sorted_insert_perm p w rest). split; [done|].
        destruct (Hf Hadv) as [[_ Hw]|[_ ?]]; [left|by right]. constructor; [done|].
        eapply Forall_impl; [exact Hleast|]. intros [w' p'] Hle. unfold Lists.by_key in Hle. simpl in *. lia.
      - intros Hadv _. destruct (Ht Hadv) as [-> Hty]. right. exists (w, p). by rewrite Hp.
      - intros b Hb2. rewrite Hp2, Hp. intros [Hw2 Hl2]%Forall_cons. by apply pending_by_insert. }
    destruct (negb adv && (now k <? w)) eqn:Hearly.
    + zbool. erewrite bind_ok by done. eexists false, _. split; [done|]. split.
      * split; try done. by apply ListFacts.sorted_insert_sorted.
      * apply Hback; try done; [intros _; left; done|by intros ->|by apply kept_same].
    + set (k2 := if now k <? w then set_stats (set_totalTicks w
                    (set_idleTicks (idleTicks (stats k) + (w - now k)) (stats k))) k1 else k1).
      rewrite (bind_ok _ _ k1 tt k2) by (unfold k2; by destruct (now k <? w)).
      assert (Hn2 : now k2 = Z.max (now k) w).
      { unfold k2. destruct (Z.ltb_spec (now k) w); unfold now in *; simpl; lia. }
      assert (Hi2 : interrupt k2 = interrupt k1) by (unfold k2; by destruct (now k <? w)).
      assert (Hkept : kept k k2) by (unfold k2; destruct (now k <? w); by apply kept_same).
      assert (Hw : adv = false -> w <= now k).
      { intros ->. simpl in Hearly. zbool. done. }
      destruct (bool_decide (status (interrupt k) = IdleMode) && bool_decide (type p = TimerInt)
                  && Lists.is_empty rest) eqn:Hidle.
      * zbool. apply bool_decide_eq_true in H, H1. erewrite bind_ok by done. eexists false, _. split; [done|].
        rewrite Hi2. split.
        -- split; try done; [by rewrite <- (kp_sems _ _ Hkept) in Hs|].
           by apply ListFacts.sorted_insert_sorted.
        -- apply Hback; try done; change (now (set_interrupt _ k2)) with (now k2); [lia| |
             |by eapply kept_trans; [exact Hkept|apply kept_same]].
           ++ intros Hadv. specialize (Hw Hadv). right. split; [lia|done].
           ++ intros _. split; [by destruct rest|done].
      * assert (Hk2 : kinv cf tr k2).
        { eapply kinv_core; [|exact Hk]. unfold k2. destruct (now k <? w); by constructor. }
        assert (Hb2 : between k2).
        { split; unfold pend; rewrite ?Hi2; try done. by rewrite (kp_sems _ _ Hkept). }
        destruct (fire_ok cf tr k2 (status (interrupt k)) p Hk2 Hb2)
          as (k3 & Hf & _ & Hb3 & Hkept3 & Hn3 & Hst3 & Hlt).
        exists true, k3. split_and!; [done|done|]. constructor; try done.
        -- by eapply kept_trans.
        -- split; [lia|]. intros Hadv%Hw. lia.
        -- intros Hadv%Hw _. rewrite (due_later k2 k3 Hn3 Hlt). unfold due.
           replace (pend k2) with rest by (unfold pend; by rewrite Hi2).
           rewrite Hp, Hn2, filter_cons_True by (simpl; lia).
           rewrite Z.max_l by lia. simpl. lia.
        -- intros b Hb4. rewrite Hp. intros [_ Hl4]%Forall_cons. apply (pending_by_later b k2 k3 Hlt); [lia|].
           replace (pend k2) with rest by (unfold pend; by rewrite Hi2). exact Hl4.
Qed.

(** [while (CheckIfDue(FALSE)) ;] ends. *)
Lemma check_due_ok cf tr n k :
  kinv cf tr k -> between k -> (due k < n)%nat ->
  exists k', check_due Random cfg n k = Ok (tt, k') /\ kinv cf tr k' /\ between k' /\ kept k k' /\
    now k' = now k /\ status (interrupt k') = status (interrupt k) /\
    (Forall (fun e => now k < e.1) (pend k') \/ status (interrupt k) = IdleMode) /\
    (forall b, now k + TimerTicks * 2 <= b -> pending_by b (pend k) -> pending_by b (pend k')).
Proof.
  revert k. induction n as [|n IH]; intros k Hk Hb Hn; [lia|]. simpl.
  destruct (check_if_due_ok cf tr k false Hk Hb) as (r & k1 & Hrun & Hk1 & Hb1 & [A1 A2 A3 A4 A5 _ A7]).
  rewrite (bind_ok _ _ _ _ _ Hrun). destruct A2 as [_ A2]. specialize (A2 eq_refl). destruct r.
  - destruct (IH k1 Hk1 Hb1) as (k2 & Hrun2 & Hk2 & Hb2 & Hkept & Hn2 & Hst & Hall & Hby).
    { specialize (A4 eq_refl eq_refl). lia. }
    exists k2. rewrite Hn2, A2, Hst, A3 in *. split_and!; try done; [by eapply kept_trans|]. intros b Hb3 Hl. by apply Hby, A7.
  - exists k1. destruct (A5 eq_refl eq_refl) as [Hperm Hall]. rewrite A2 in A7. split_and!; try done.
    destruct Hall as [Hall|?]; [left|by right]. by rewrite Hperm.
Qed.

Lemma check_all_due_ok cf tr k :
  kinv cf tr k -> between k ->
  exists k', CheckAllDue Random cfg k = Ok (tt, k') /\ kinv cf tr k' /\ between k' /\ kept k k' /\
    now k' = now k /\ status (interrupt k') = status (interrupt k) /\
    (Forall (fun e => now k < e.1) (pend k') \/ status (interrupt k) = IdleMode) /\
    (forall b, now k + TimerTicks * 2 <= b -> pending_by b (pend k) -> pending_by b (pend k')).
Proof.
  intros Hk Hb. unfold CheckAllDue. erewrite bind_ok by done. apply check_due_ok; [done|done|].
  unfold due. pose proof (length_filter (fun e => e.1 <= now k) (pend k)). unfold pend in *. lia.
Qed.

(** ** The state between two steps *)

Record safe (k : Kernel) : Prop := {
  sf_in : inHandler (interrupt k) = false;
  sf_sorted : Lists.sorted (pend k);
  sf_now : 0 <= now k;
  sf_sem : (disk_sem cfg < length (sems k))%nat;
  sf_sector : is_sector (lastSector (disk k));
  sf_stacks : forall t T, threads k !! t = Some T -> stack T = None \/ stack T = Some STACK_FENCEPOST
}.

(** The places of the code that are only reached with interrupts off. *)
Definition needs_off (f : frame) : bool :=
  match f with FPLoop _ | FSleepLoop | FAfterRun | FEnable => true | _ => false end.
Definition off (fs : list frame) (k : Kernel) : Prop :=
  match fs with f :: _ => if needs_off f then level (interrupt k) = IntOff else True | [] => True end.
Definition fine (k : Kernel) : Prop :=
  safe k /\ forall T, threads k !! currentThread k = Some T -> off (frames T) k.

Lemma plain_off fs k : plain fs -> off fs k.
Proof. by destruct fs as [|[] ?]. Qed.

Lemma safe_kept k k' :
  safe k -> kept k k' -> inHandler (interrupt k') = false -> Lists.sorted (pend k') -> now k <= now k' -> safe k'.
Proof.
  intros [H1 H2 H3 H4 H5 H6] [K1 K2 K3] Hi Hs Hn. split; try done.
  - lia.
  - by rewrite K1.
  - by rewrite K3.
  - intros t T' HT'. destruct (K2 t T' HT') as (T & HT & ->). eauto.
Qed.

(** Changes that leave the fields of [safe] alone. *)
Lemma safe_eq k k' :
  safe k -> pend k' = pend k -> inHandler (interrupt k') = inHandler (interrupt k) -> now k' = now k ->
  length (sems k') = length (sems k) -> lastSector (disk k') = lastSector (disk k) ->
  (forall t T', threads k' !! t = Some T' ->
     (exists T, threads k !! t = Some T /\ stack T' = stack T) \/ stack T' = Some STACK_FENCEPOST) ->
  safe k'.
Proof.
  intros [H1 H2 H3 H4 H5 H6] Hp Hi Hn Hs Hd Ht. rewrite <- Hp, <- Hn, <- Hs, <- Hd, <- Hi in *. split; try done.
  - intros t T' HT'. destruct (Ht t T' HT') as [(T & HT & ->)|?]; eauto.
Qed.

Ltac keep_stacks :=
  let t := fresh "t" in let U := fresh "U" in let HU := fresh "HU" in
  intros t U HU; simpl in HU; threads_insert; left; (eexists; split; [eassumption|reflexivity]).

Lemma safe_put t T T' k :
  safe k -> threads k !! t = Some T -> stack T' = stack T -> safe (set_threads (<[t := T']> (threads k)) k).
Proof.
  intros Hs HT Hst. apply (safe_eq k); try done. intros t' U HU. simpl in HU. threads_insert; left; eauto.
Qed.

(** The running thread goes on with more to do. *)
Lemma push_fine fs k T :
  safe k -> threads k !! currentThread k = Some T -> off (fs ++ frames T) k ->
  exists k', push fs k = Ok (tt, k') /\ fine k'.
Proof.
  intros Hs HT Hoff. rewrite (push_eq _ _ _ HT). eexists. split; [done|]. split.
  - apply (safe_eq k); try done. intros t U HU. simpl in HU. threads_insert; left; eauto.
  - simpl. rewrite lookup_insert_eq. by intros ? [= <-].
Qed.

Lemma one_tick_ok cf k T :
  kinv cf None k -> running k T -> plain (frames T) -> safe k ->
  exists k', OneTick Random cfg k = Ok (tt, k') /\ fine k'.
Proof.
  intros Hk [HT Hr] Hp Hs. unfold OneTick. erewrite bind_ok by done.
  set (old := status (interrupt k)).
  assert (exists st, (if bool_decide (old = SystemMode) then
         modify (fun k => set_stats (set_totalTicks (totalTicks (stats k) + SystemTick)
           (set_systemTicks (systemTicks (stats k) + SystemTick) (stats k))) k)
       else
         modify (fun k => set_stats (set_totalTicks (totalTicks (stats k) + UserTick)
           (set_userTicks (userTicks (stats k) + UserTick) (stats k))) k)) k = Ok (tt, set_stats st k) /\
       now k <= totalTicks st) as (st & Hst & Hnow).
  { case_if; eexists; (split; [done|]); unfold now, SystemTick, UserTick; simpl; lia. }
  rewrite (bind_ok _ _ _ _ _ Hst). unfold ChangeLevel, modify. erewrite bind_ok by done.
  set (k1 := set_interrupt _ _).
  assert (Hk1 : kinv cf None k1) by (eapply kinv_core; [|exact Hk]; by constructor).
  assert (Hb1 : between k1) by (split; try done; [apply (sf_in _ Hs)|apply (sf_sem _ Hs)|apply (sf_sorted _ Hs)]).
  destruct (check_all_due_ok cf None k1 Hk1 Hb1) as (k2 & Hrun & Hk2 & [B1 B2 B3 B4] & Hkept & Hn2 & _ & _ & _).
  rewrite (bind_ok _ _ _ _ _ Hrun). erewrite bind_ok by done. erewrite bind_ok by done.
  set (k3 := set_interrupt _ k2).
  assert (Hs3 : safe k3).
  { apply (safe_kept k); try done.
    - eapply kept_trans; [|eapply kept_trans; [exact Hkept|by apply kept_same]]. by apply kept_same.
    - change (now k3) with (now k2). rewrite Hn2. done. }
  assert (HT3 : threads k3 !! currentThread k3 = Some T).
  { destruct (calm_check_all_due Random cfg _ _ _ _ _ Hk1 Hrun) as [_ Hq].
    destruct (qt_threads _ _ Hq _ _ HT) as (T' & HT' & _ & HTT). rewrite <- (HTT Hr).
    change (threads k2 !! currentThread k2 = Some T'). by rewrite (qt_cur _ _ Hq). }
  case_if.
  - unfold set_machine_status, modify. do 2 erewrite bind_ok by done.
    apply (push_fine _ _ T); [|done|done]. by apply (safe_eq k3); try done; keep_stacks.
  - exists k3. split; [done|]. split; [done|]. intros T' HT'. assert (T' = T) as -> by congruence. by apply plain_off.
Qed.


(** ** What a step can stop at *)

Definition no_lock (k : Kernel) (l : nat) : Prop :=
  match locks k !! l with Some L => sems k !! sema L = None | None => True end.

(** The frame names a semaphore, a lock or a condition that does not exist. *)
Definition missing (k : Kernel) (f : frame) : Prop :=
  match f with
  | FPLoop s | FOp (OpV s) => sems k !! s = None
  | FOp (OpAcquire l) | FSetHolder l => locks k !! l = None
  | FOp (OpRelease l) => no_lock k l
  | FOp (OpWait c l) => no_lock k l \/ conds k !! c = None
  | FOp (OpSignal c l) | FOp (OpBroadcast c l) => locks k !! l = None \/ conds k !! c = None
  | _ => False
  end.

Definition blame (k : Kernel) (f : frame) (w : stop) : Prop :=
  match w with
  | Halted => f = FSleepLoop /\ readyList k = [] /\ only_timer k
  | AssertFailed =>
      match f with
      | FOp (OpFork prio _) => free_id 0 (ThreadIDOccupied k) = None \/ ~ (0 <= prio < 256)
      | FReadRequest s | FWriteRequest s _ => active (disk k) = true \/ ~ is_sector s
      | _ => False
      end
  | Undefined => missing k f
  | OutOfFuel => False
  end.

Definition outcome (k : Kernel) (f : frame) (r : res (unit * Kernel)) : Prop :=
  match r with Ok (_, k') => fine k' | Stop w => blame k f w end.

(** A call of a running thread is safe. *)
Definition safe_at (f : frame) (m : M Kernel unit) : Prop := forall cf k T,
  kinv cf None k -> running k T -> plain (frames T) -> safe k -> outcome k f (m k).

Lemma outcome_fine k f r : (exists k', r = Ok (tt, k') /\ fine k') -> outcome k f r.
Proof. intros (k' & -> & Hf). exact Hf. Qed.

(** The state with interrupts turned off. *)
Definition turned_off (k : Kernel) : Kernel := set_interrupt (set_level IntOff (interrupt k)) k.

Lemma set_level_off_eq k : SetLevelOff k = Ok (level (interrupt k), turned_off k).
Proof. done. Qed.
Lemma turned_off_kinv cf tr k : kinv cf tr k -> kinv cf tr (turned_off k).
Proof. intros Hk. eapply kinv_core; [|exact Hk]. by constructor. Qed.
Lemma turned_off_safe k : safe k -> safe (turned_off k).
Proof. intros Hs. apply (safe_eq k); try done. keep_stacks. Qed.
#[local] Hint Resolve turned_off_kinv turned_off_safe plain_off : nachos.

Lemma safe_set_level f l : safe_at f (SetLevel Random cfg l).
Proof.
  intros cf k T Hk HT Hp Hs. apply outcome_fine. unfold SetLevel. do 2 erewrite bind_ok by done.
  rewrite (sf_in _ Hs). unfold ASSERT. rewrite orb_true_r. erewrite bind_ok by done.
  unfold ChangeLevel, modify. erewrite bind_ok by done. set (k1 := set_interrupt _ k).
  assert (Hs1 : safe k1) by (apply (safe_eq k); try done; keep_stacks).
  case_if.
  - apply (one_tick_ok cf k1 T); try done. eapply kinv_core; [|exact Hk]. by constructor.
  - exists k1. split; [done|]. split; [done|]. intros T' HT'. destruct HT as [HT _].
    assert (T' = T) as -> by (change (threads k !! currentThread k = Some T') in HT'; congruence).
    by apply plain_off.
Qed.

Lemma P_fine k T s :
  threads k !! currentThread k = Some T -> safe k -> exists k', P s k = Ok (tt, k') /\ fine k'.
Proof.
  intros HT Hs. unfold P. rewrite (bind_ok _ _ _ _ _ (set_level_off_eq k)).
  apply (push_fine _ _ T); eauto with nachos. done.
Qed.

(** [V], and what follows it in a call that leaves the thread running. *)
Lemma v_then_push cf k T s fs :
  kinv cf None k -> running k T -> plain (frames T) -> safe k -> (forall r, plain r -> plain (fs ++ r)) ->
  (s < length (sems k))%nat ->
  exists k', (V_body s ≫= fun _ => push fs) k = Ok (tt, k') /\ fine k'.
Proof.
  intros Hk [HT Hr] Hp Hs Hfs Hlt.
  destruct (v_body_ok cf None k s Hk Hlt) as (k1 & Hv & Hkept & Hk1 & Hq & Hi & Hst & _).
  rewrite (bind_ok _ _ _ _ _ Hv). destruct (qt_threads _ _ Hq _ _ HT) as (T' & HT' & _ & HTT).
  specialize (HTT Hr). subst T'. rewrite <- (qt_cur _ _ Hq) in HT'.
  apply (push_fine _ _ T); [|done|by apply plain_off, Hfs].
  apply (safe_kept k); try done; unfold pend, now; rewrite ?Hi, ?Hst; try done; by destruct Hs.
Qed.

Lemma safe_V s : safe_at (FOp (OpV s)) (V s).
Proof.
  intros cf k T Hk HT Hp Hs. unfold V. rewrite (bind_ok _ _ _ _ _ (set_level_off_eq k)).
  destruct (decide (s < length (sems k))%nat) as [Hlt|Hge].
  - apply outcome_fine. eapply v_then_push; eauto with nachos.
  - assert (Hno : sems k !! s = None) by (apply lookup_ge_None; lia).
    rewrite (bind_stop _ _ _ Undefined); [done|]. unfold V_body. rewrite (bind_stop _ _ _ Undefined); [done|].
    unfold sem. simpl. by rewrite Hno.
Qed.

Lemma safe_acquire l : safe_at (FOp (OpAcquire l)) (Acquire l).
Proof.
  intros cf k T Hk [HT Hr] Hp Hs. unfold Acquire. destruct (locks k !! l) as [L|] eqn:HL.
  - rewrite (bind_ok _ _ k L k) by (unfold lock; by rewrite HL).
    rewrite (bind_ok _ _ _ _ _ (push_eq _ _ _ HT)).
    set (k1 := set_threads _ k).
    destruct (P_fine k1 (set_frames (FSetHolder l :: frames T) T) (sema L)) as (k' & -> & Hf);
      [apply lookup_insert_eq| |exact Hf].
    apply (safe_eq k); try done. keep_stacks.
  - rewrite (bind_stop _ _ _ Undefined); [done|]. unfold lock. by rewrite HL.
Qed.


Lemma fine_plain k T :
  safe k -> threads k !! currentThread k = Some T -> plain (frames T) -> fine k.
Proof. intros Hs HT Hp. split; [done|]. intros T' HT'. assert (T' = T) as -> by congruence. by apply plain_off. Qed.

(** A lock's holder changes. *)
Lemma put_holder_eq l h k L : locks k !! l = Some L ->
  put_holder l h k = Ok (tt, set_locks (<[l := MkLock (sema L) h]> (locks k)) k).
Proof. intros HL. unfold put_holder, lock, modify. munfold. by rewrite HL. Qed.
Lemma put_holder_stop l h k : locks k !! l = None -> put_holder l h k = Stop Undefined.
Proof. intros HL. unfold put_holder, lock. munfold. by rewrite HL. Qed.

Lemma safe_set_holder l : safe_at (FSetHolder l) (SetHolder l).
Proof.
  intros cf k T Hk [HT _] Hp Hs. unfold SetHolder. erewrite bind_ok by done.
  destruct (locks k !! l) as [L|] eqn:HL.
  - rewrite (put_holder_eq _ _ _ _ HL). apply (fine_plain _ T); [|done|done].
    apply (safe_eq k); try done. keep_stacks.
  - by rewrite put_holder_stop.
Qed.

(** The start of [Release], and of [Wait]: the holder is cleared, the lock's
    semaphore found. *)
Lemma release_prefix {A} l k (m : Lock -> M Kernel A) :
  (_ ← put_holder l None; L ← lock l; m L) k =
    match locks k !! l with
    | Some L => let L' := MkLock (sema L) None in m L' (set_locks (<[l := L']> (locks k)) k)
    | None => Stop Undefined
    end.
Proof.
  destruct (locks k !! l) as [L|] eqn:HL.
  - rewrite (bind_ok _ _ _ _ _ (put_holder_eq _ _ _ _ HL)). apply bind_ok. unfold lock. simpl.
    rewrite list_lookup_insert_eq; [done|]. by eapply lookup_lt_Some.
  - by rewrite (bind_stop _ _ _ _ (put_holder_stop _ _ _ HL)).
Qed.

Lemma set_locks_kinv cf tr k ls : kinv cf tr k -> kinv cf tr (set_locks ls k).
Proof. intros Hk. eapply kinv_core; [|exact Hk]. by constructor. Qed.
Lemma set_locks_safe k ls : safe k -> safe (set_locks ls k).
Proof. intros Hs. apply (safe_eq k); try done. keep_stacks. Qed.
#[local] Hint Resolve set_locks_kinv set_locks_safe : nachos.

Lemma safe_release l : safe_at (FOp (OpRelease l)) (Release l).
Proof.
  intros cf k T Hk HT Hp Hs. unfold Release. rewrite release_prefix.
  destruct (locks k !! l) as [L|] eqn:HL; [|by unfold outcome, blame, missing, no_lock; rewrite HL].
  cbv zeta. set (k1 := set_locks _ k). cbn [sema].
  pose proof (safe_V (sema L) cf k1 T (set_locks_kinv _ _ _ _ Hk) HT Hp (set_locks_safe _ _ Hs)) as HV.
  unfold outcome in *. destruct (V (sema L) k1) as [[[] k']|[]]; unfold blame, missing, no_lock in *;
    rewrite ?HL; naive_solver.
Qed.

(** [Sleep] with interrupts off. *)
Lemma sleep_fine k T :
  threads k !! currentThread k = Some T -> safe k -> level (interrupt k) = IntOff ->
  exists k', Sleep k = Ok (tt, k') /\ fine k'.
Proof.
  intros HT Hs Hl. unfold Sleep. do 2 erewrite bind_ok by done. rewrite Hl. erewrite bind_ok by done.
  unfold with_thread. rewrite (bind_ok _ _ k tt (set_threads (<[currentThread k := set_tstatus BLOCKED T]> (threads k)) k)).
  2:{ unfold thread, put_thread, modify. munfold. by rewrite HT. }
  apply (push_fine _ _ (set_tstatus BLOCKED T)); [|apply lookup_insert_eq|done].
  apply (safe_eq k); try done. keep_stacks.
Qed.

(** The tail of [Wait]. *)
Lemma cond_sleep_fine c l old k T :
  threads k !! currentThread k = Some T -> safe k -> level (interrupt k) = IntOff ->
  match conds k !! c with
  | Some _ => exists k', (q ← cond c; cur ← gets currentThread; _ ← put_cond c (Lists.append cur q);
                _ ← push [FOp (OpAcquire l); FSetLevel old]; Sleep) k = Ok (tt, k') /\ fine k'
  | None => (q ← cond c; cur ← gets currentThread; _ ← put_cond c (Lists.append cur q);
                _ ← push [FOp (OpAcquire l); FSetLevel old]; Sleep) k = Stop Undefined
  end.
Proof.
  intros HT Hs Hl. destruct (conds k !! c) as [q|] eqn:Hc.
  - rewrite (bind_ok _ _ k q k) by (unfold cond; by rewrite Hc). erewrite bind_ok by done.
    unfold put_cond, modify. erewrite bind_ok by done. set (k1 := set_conds _ k).
    rewrite (bind_ok _ _ _ _ _ (push_eq _ k1 T HT)). set (k2 := set_threads _ k1).
    assert (HT2 : threads k2 !! currentThread k2 =
      Some (set_frames ([FOp (OpAcquire l); FSetLevel old] ++ frames T) T)) by apply lookup_insert_eq.
    apply sleep_fine with (T := set_frames ([FOp (OpAcquire l); FSetLevel old] ++ frames T) T); try done.
    apply (safe_eq k); try done. keep_stacks.
  - rewrite (bind_stop _ _ _ Undefined); [done|]. unfold cond. by rewrite Hc.
Qed.


Lemma safe_wait c l : safe_at (FOp (OpWait c l)) (Wait c l).
Proof.
  intros cf k T Hk HT Hp Hs. unfold Wait. rewrite (bind_ok _ _ _ _ _ (set_level_off_eq k)), release_prefix.
  cbn [locks turned_off set_interrupt].
  destruct (locks k !! l) as [L|] eqn:HL; [|by left; unfold no_lock; rewrite HL].
  cbv zeta. cbn [sema]. set (k1 := set_locks _ _).
  destruct (decide (sema L < length (sems k))%nat) as [Hlt|Hge].
  - destruct (v_body_ok cf None k1 (sema L)) as (k2 & Hv & Hkept & Hk2 & Hq & Hi & Hst & Hc);
      [eauto with nachos|done|]. rewrite (bind_ok _ _ _ _ _ Hv).
    destruct HT as [HT Hr]. destruct (qt_threads _ _ Hq _ _ HT) as (T' & HT' & _ & _).
    change (currentThread k) with (currentThread k1) in HT'. rewrite <- (qt_cur _ _ Hq) in HT'.
    assert (Hs2 : safe k2).
    { apply (safe_kept k1); [unfold k1; eauto with nachos|done|..]; unfold pend, now; rewrite ?Hi, ?Hst; try done;
        by destruct Hs. }
    pose proof (cond_sleep_fine c l (level (interrupt k)) k2 T' HT' Hs2 ltac:(by rewrite Hi)) as Hcs.
    rewrite Hc in Hcs. cbn [conds k1 set_locks turned_off set_interrupt] in Hcs.
    change (conds k1) with (conds k) in Hcs.
    destruct (conds k !! c) eqn:Hck; [destruct Hcs as (k' & -> & Hf); exact Hf|rewrite Hcs; by right].
  - assert (Hno : sems k !! sema L = None) by (apply lookup_ge_None; lia).
    rewrite (bind_stop _ _ _ Undefined); [left; unfold no_lock; by rewrite HL|].
    unfold V_body. rewrite (bind_stop _ _ _ Undefined); [done|]. unfold sem. simpl. by rewrite Hno.
Qed.

(** Waking threads from a condition's queue. *)
Lemma signal_ok cf k c :
  kinv cf None k -> is_Some (conds k !! c) ->
  exists k', (q ← cond c; let '(t, q) := Lists.remove q in _ ← put_cond c q;
              match t with Some t => ReadyToRun t | None => mret tt end) k = Ok (tt, k') /\
    kept k k' /\ interrupt k' = interrupt k /\ stats k' = stats k.
Proof.
  intros Hk [q Hc]. rewrite (bind_ok _ _ k q k) by (unfold cond; by rewrite Hc).
  destruct q as [|[p t] q]; cbn [Lists.remove].
  - unfold put_cond, modify. erewrite bind_ok by done. eexists. split; [done|]. by split; [apply kept_same|].
  - destruct (cond_wake cf None k c p t q Hk Hc) as (T & HT & _).
    rewrite (put_cond_ready c q t k T HT). eexists. split; [done|]. split; [|done].
    eapply kept_trans; [|by apply made_ready_kept]. by apply kept_same.
Qed.

Lemma broadcast_ok cf k c :
  kinv cf None k -> is_Some (conds k !! c) ->
  exists k', (q ← cond c; broadcast_loop c q) k = Ok (tt, k') /\
    kept k k' /\ interrupt k' = interrupt k /\ stats k' = stats k.
Proof.
  intros Hk [q Hc]. rewrite (bind_ok _ _ k q k) by (unfold cond; by rewrite Hc).
  revert k Hk Hc. induction q as [|[p t] q IH]; intros k Hk Hc; simpl.
  - exists k. split; [done|]. by split; [apply kept_refl|].
  - destruct (cond_wake cf None k c p t q Hk Hc) as (T & HT & Hk2 & _).
    unfold put_cond, modify. erewrite bind_ok by done.
    rewrite (bind_ok _ _ _ _ _ (ready_to_run_eq (set_conds _ k) t T HT)).
    destruct (IH _ Hk2) as (k' & Hrun & Hkept & Hi & Hst).
    { simpl. rewrite list_lookup_insert_eq; [done|by eapply lookup_lt_Some]. }
    exists k'. split; [done|]. split; [|done]. eapply kept_trans; [|exact Hkept].
    eapply kept_trans; [|by apply made_ready_kept]. by apply kept_same.
Qed.

(** [Signal] and [Broadcast], by what they do when the lock is held. *)
Lemma safe_wake f c l (m : M Kernel unit) :
  (forall k, missing k f <-> locks k !! l = None \/ conds k !! c = None) ->
  calm m -> (forall cf k, kinv cf None k -> is_Some (conds k !! c) ->
    exists k', m k = Ok (tt, k') /\ kept k k' /\ interrupt k' = interrupt k /\ stats k' = stats k) ->
  (forall k, conds k !! c = None -> m k = Stop Undefined) ->
  safe_at f (old ← SetLevelOff; held ← isHeldByCurrentThread l;
             _ ← (if (held : bool) then m else mret tt); push [FSetLevel old]).
Proof.
  intros Hmiss Hcalm Hok Hno cf k T Hk [HT Hr] Hp Hs.
  rewrite (bind_ok _ _ _ _ _ (set_level_off_eq k)). destruct (locks k !! l) as [L|] eqn:HL.
  - rewrite (bind_ok _ _ _ (bool_decide (holdingThread L = Some (currentThread k))) (turned_off k)).
    2:{ unfold isHeldByCurrentThread, lock. munfold. simpl. by rewrite HL. }
    case_bool_decide.
    + destruct (conds k !! c) as [q|] eqn:Hc.
      * destruct (Hok cf (turned_off k)) as (k1 & Hrun & Hkept & Hi & Hst); [eauto with nachos|by exists q|].
        rewrite (bind_ok _ _ _ _ _ Hrun). destruct (Hcalm cf None (turned_off k) tt k1) as [_ Hq];
          [eauto with nachos|done|]. destruct (qt_threads _ _ Hq _ _ HT) as (T' & HT' & _ & HTT).
        specialize (HTT Hr). subst T'. change (currentThread k) with (currentThread (turned_off k)) in HT'.
        rewrite <- (qt_cur _ _ Hq) in HT'. apply outcome_fine. apply (push_fine _ _ T); [|done|by apply plain_off].
        apply (safe_kept (turned_off k)); unfold pend, now; rewrite ?Hi, ?Hst; eauto with nachos; by destruct Hs.
      * rewrite (bind_stop _ _ _ _ (Hno (turned_off k) Hc)). apply Hmiss. by right.
    + erewrite bind_ok by done. apply outcome_fine. apply (push_fine _ _ T); eauto with nachos.
  - rewrite (bind_stop _ _ _ Undefined); [apply Hmiss; by left|].
    unfold isHeldByCurrentThread. rewrite (bind_stop _ _ _ Undefined); [done|]. unfold lock. simpl. by rewrite HL.
Qed.

Lemma cond_stop {A} c (m : _ -> M Kernel A) k : conds k !! c = None -> (q ← cond c; m q) k = Stop Undefined.
Proof. intros Hc. apply bind_stop. unfold cond. by rewrite Hc. Qed.

Lemma safe_signal c l : safe_at (FOp (OpSignal c l)) (Signal c l).
Proof.
  apply (safe_wake (FOp (OpSignal c l)) c l); [done|apply calm_signal|intros cf k; apply signal_ok|].
  intros k. apply (cond_stop c).
Qed.

Lemma safe_broadcast c l : safe_at (FOp (OpBroadcast c l)) (Broadcast c l).
Proof.
  apply (safe_wake (FOp (OpBroadcast c l)) c l); [done|apply calm_broadcast|intros cf k; apply broadcast_ok|].
  intros k. apply (cond_stop c).
Qed.


(** *** Switching *)

Lemma level_off fs k : level (interrupt k) = IntOff -> off fs k.
Proof. intros Hl. destruct fs as [|f fs]; [done|]. simpl. by destruct (needs_off f). Qed.

Lemma fine_off k : safe k -> level (interrupt k) = IntOff -> fine k.
Proof. intros Hs Hl. split; [done|]. intros T _. by apply level_off. Qed.

Lemma run_fine n k T N :
  threads k !! currentThread k = Some T -> threads k !! n = Some N -> safe k -> level (interrupt k) = IntOff ->
  exists k', Run n k = Ok (tt, k') /\ fine k'.
Proof.
  intros HT HN Hs Hl. unfold Run. erewrite bind_ok by done.
  rewrite (bind_ok _ _ k T k) by (unfold thread; by rewrite HT). rewrite (bind_ok _ _ k tt k).
  2:{ unfold CheckOverflow. destruct (sf_stacks _ Hs _ _ HT) as [->| ->]; [done|]. by rewrite Z.eqb_refl. }
  rewrite (bind_ok _ _ _ _ _ (push_eq _ _ _ HT)). erewrite bind_ok by done.
  set (k1 := set_currentThread n _). set (T1 := set_frames _ T) in *.
  assert (exists N', threads k1 !! n = Some N') as [N' HN'].
  { simpl. destruct (decide (n = currentThread k)) as [->|]; [rewrite lookup_insert_eq|rewrite lookup_insert_ne by done];
      eauto. }
  assert (Hs1 : safe k1) by (apply (safe_eq k); try done; keep_stacks).
  exists (set_threads (<[n := set_tstatus RUNNING N']> (threads k1)) k1). split.
  - unfold with_thread, thread, put_thread, modify. munfold. by rewrite HN'.
  - apply fine_off; [|done]. by apply (safe_put n N').
Qed.

Lemma safe_yield f : safe_at f Yield.
Proof.
  intros cf k T Hk [HT Hr] Hp Hs. apply outcome_fine. unfold Yield.
  rewrite (bind_ok _ _ _ _ _ (set_level_off_eq k)). erewrite bind_ok by done.
  set (k0 := turned_off k). assert (Hk0 : kinv cf None k0) by (unfold k0; eauto with nachos).
  destruct (FindNextToRun k0) as [[o k1]|] eqn:Hn; [|unfold FindNextToRun in Hn; by destruct (Lists.remove _)].
  rewrite (bind_ok _ _ _ _ _ Hn). pose proof (find_next_inv _ _ _ _ Hk0 Hn) as Hn'.
  assert (Hs0 : safe k0) by (unfold k0; eauto with nachos).
  destruct o as [n|].
  - destruct Hn' as (Hk1 & p & l & Hl & ->). destruct (ki_transit _ _ _ Hk1 n eq_refl) as (N & HN & HrN).
    set (k1 := set_readyList l k0). rewrite (bind_ok _ _ _ _ _ (push_eq _ k1 T HT)).
    set (k2 := set_threads _ k1). set (T1 := set_frames _ T) in *.
    rewrite (bind_ok _ _ _ _ _ (ready_to_run_eq k2 (currentThread k0) T1 (lookup_insert_eq _ _ _))).
    assert (HN0 : threads k !! n = Some N) by exact HN.
    assert (Hne : n <> currentThread k) by (intros ->; congruence).
    apply (run_fine n _ (set_tstatus READY T1) N); [apply lookup_insert_eq| | |done].
    + simpl. by rewrite !lookup_insert_ne by done.
    + apply (safe_kept k2); [|by apply made_ready_kept, lookup_insert_eq|apply Hs|apply Hs|done].
      apply (safe_eq k0); try done. keep_stacks.
  - destruct Hn' as (_ & ->). rewrite (bind_ok _ _ _ _ _ (push_eq _ k0 T HT)). eexists. split; [done|].
    apply fine_off; [|done]. apply (safe_eq k0); try done. keep_stacks.
Qed.

Lemma safe_PLoop k T s :
  kinv (FPLoop s :: frames T) None k -> threads k !! currentThread k = Some T -> safe k ->
  level (interrupt k) = IntOff -> outcome k (FPLoop s) (PLoop s k).
Proof.
  intros Hk HT Hs Hl. unfold PLoop. destruct (sems k !! s) as [x|] eqn:Hx.
  - rewrite (bind_ok _ _ k x k) by (unfold sem; by rewrite Hx). erewrite bind_ok by done. case_if.
    + unfold put_sem, modify. erewrite bind_ok by done. set (k1 := set_sems _ k).
      rewrite (bind_ok _ _ _ _ _ (push_eq _ k1 T HT)). apply outcome_fine.
      apply (sleep_fine _ (set_frames ([FPLoop s] ++ frames T) T)); [apply lookup_insert_eq| |done].
      apply (safe_eq k); try done; [simpl; by rewrite length_insert|keep_stacks].
    + apply fine_off; [|done]. apply (safe_eq k); try done; [simpl; by rewrite length_insert|keep_stacks].
  - rewrite (bind_stop _ _ _ Undefined); [done|]. unfold sem. by rewrite Hx.
Qed.

Lemma idle_ok cf k :
  kinv cf None k -> safe k -> level (interrupt k) = IntOff ->
  match Idle Random cfg k with
  | Ok (_, k') => safe k' /\ level (interrupt k') = IntOff
  | Stop w => w = Halted /\ only_timer k
  end.
Proof.
  intros Hk Hs Hl. unfold Idle, set_machine_status, modify. erewrite bind_ok by done. set (k0 := set_interrupt _ k).
  assert (Hk0 : kinv cf None k0) by (eapply kinv_core; [|exact Hk]; by constructor).
  assert (Hb0 : between k0) by (split; [done|apply (sf_in _ Hs)|apply (sf_sem _ Hs)|apply (sf_sorted _ Hs)]).
  destruct (check_if_due_ok cf None k0 true Hk0 Hb0) as (r & k1 & Hrun & Hk1 & Hb1 & [A1 A2 _ _ _ A6 _]).
  rewrite (bind_ok _ _ _ _ _ Hrun). destruct r.
  - destruct (check_all_due_ok cf None k1 Hk1 Hb1) as (k2 & Hrun2 & _ & [B1 B2 B3 B4] & Hkept & Hn2 & _ & _ & _).
    rewrite (bind_ok _ _ _ _ _ Hrun2). erewrite bind_ok by done. split; [|done].
    apply (safe_kept k); try done.
    + eapply kept_trans; [|eapply kept_trans; [exact A1|eapply kept_trans; [exact Hkept|by apply kept_same]]].
      by apply kept_same.
    + destruct A2 as [A2 _]. change (now k0) with (now k) in A2. unfold now in *. simpl. lia.
  - split; [done|]. exact (A6 eq_refl eq_refl).
Qed.

Lemma safe_SleepLoop k T :
  kinv (FSleepLoop :: frames T) None k -> threads k !! currentThread k = Some T -> safe k ->
  level (interrupt k) = IntOff -> outcome k FSleepLoop (SleepLoop Random cfg k).
Proof.
  intros Hk HT Hs Hl. unfold SleepLoop.
  destruct (FindNextToRun k) as [[o k1]|] eqn:Hn; [|unfold FindNextToRun in Hn; by destruct (Lists.remove _)].
  rewrite (bind_ok _ _ _ _ _ Hn). pose proof (find_next_inv _ _ _ _ Hk Hn) as Hn'. destruct o as [n|].
  - destruct Hn' as (Hk1 & p & l & Hrl & ->). destruct (ki_transit _ _ _ Hk1 n eq_refl) as (N & HN & _).
    apply outcome_fine. apply (run_fine n _ T N); try done. apply (safe_eq k); try done. keep_stacks.
  - destruct Hn' as (Hnil & ->). pose proof (idle_ok _ k Hk Hs Hl) as Hidle.
    destruct (Idle Random cfg k) as [[[] k2]|w] eqn:E.
    + rewrite (bind_ok _ _ _ _ _ E). destruct Hidle as [Hs2 Hl2].
      destruct (calm_idle Random cfg _ _ _ _ _ Hk E) as [_ Hq].
      destruct (qt_threads _ _ Hq _ _ HT) as (T' & HT' & _ & _). rewrite <- (qt_cur _ _ Hq) in HT'.
      apply outcome_fine. apply (push_fine _ _ T'); [done|done|by apply level_off].
    + rewrite (bind_stop _ _ _ _ E). destruct Hidle as [-> Ht]. done.
Qed.


Lemma safe_AfterRun k T :
  kinv (FAfterRun :: frames T) None k -> threads k !! currentThread k = Some T -> safe k ->
  level (interrupt k) = IntOff -> outcome k FAfterRun (AfterRun k).
Proof.
  intros Hk HT Hs Hl. apply outcome_fine. unfold AfterRun. erewrite bind_ok by done.
  destruct (threadToBeDestroyed k) as [t|] eqn:Hd; [|exists k; split; [done|by apply fine_off]].
  destruct (ki_destroy _ _ _ Hk t Hd) as (U & HU & Hb & _).
  pose proof (ki_frames _ _ _ Hk _ _ HT) as Hg. rewrite frames_of_cur in Hg.
  assert (Hne : t <> currentThread k).
  { intros ->. assert (U = T) as -> by congruence. rewrite Hb in Hg. simpl in Hg. tauto. }
  destruct (ki_ids _ _ _ Hk t U HU) as (Hpos & Hocc & Hptr). apply lookup_lt_Some in Hocc, Hptr.
  unfold delete_thread, gets, modify, thread. munfold. simpl. rewrite bool_decide_eq_false_2 by done. simpl.
  munfold. rewrite HU. unfold lift. rewrite !aset_ok by lia. simpl. eexists. split; [done|].
  apply fine_off; [|done]. apply (safe_eq k); try done. intros t' T' HT'. simpl in HT'.
  apply lookup_delete_Some in HT' as [_ HT']. left. by exists T'.
Qed.

Lemma safe_Finish k T f :
  threads k !! currentThread k = Some T -> safe k -> outcome k f (Finish k).
Proof.
  intros HT Hs. apply outcome_fine. unfold Finish. rewrite (bind_ok _ _ _ _ _ (set_level_off_eq k)).
  do 2 erewrite bind_ok by done. apply (sleep_fine _ T); try done. apply (safe_eq k); try done. keep_stacks.
Qed.

(** *** Forking *)

Lemma safe_fork prio body : safe_at (FOp (OpFork prio body)) (t ← new_thread prio; Fork t body).
Proof.
  intros cf k T Hk [HT Hr] Hp Hs. destruct (free_id 0 (ThreadIDOccupied k)) as [i|] eqn:Hi.
  2:{ rewrite (bind_stop _ _ _ AssertFailed); [by left|]. unfold new_thread, gets. munfold. by rewrite Hi. }
  pose proof (free_id_spec _ _ _ Hi) as [Hpos Hlt]. apply lookup_lt_Some in Hlt. rewrite Z.sub_0_r in Hlt.
  pose proof (ki_tables _ _ _ Hk) as [Hlo Hlp].
  assert (Hlift : forall S A (a : A) (s : S), lift (Ok a) s = Ok (a, s)) by done.
  destruct (decide (0 <= prio < 256)) as [Hprio|Hprio].
  - set (T0 := MkThread i prio JUST_CREATED None [] []). set (t := nextThread k).
    set (k1 := set_threads (<[t := T0]> (threads k)) (set_nextThread (S t)
           (set_ThreadIDOccupied (<[Z.to_nat i := true]> (ThreadIDOccupied k))
             (set_thread_poiners (<[Z.to_nat i := Some t]> (thread_poiners k)) k)))).
    rewrite (bind_ok _ _ k t k1).
    2:{ unfold new_thread, gets, ASSERT, put_thread, modify. munfold. rewrite Hi, aset_ok, Hlift, aset_ok, Hlift by lia.
        by rewrite (proj2 (Z.leb_le _ _)), (proj2 (Z.ltb_lt _ _)) by lia. }
    unfold Fork. set (T1 := set_stack (Some STACK_FENCEPOST) (set_frames (thread_root body) T0)).
    set (k2 := set_threads (<[t := T1]> (threads k1)) k1). rewrite (bind_ok _ _ k1 tt k2).
    2:{ unfold with_thread, thread, put_thread, modify. munfold. unfold k1 at 1. simpl. by rewrite lookup_insert_eq. }
    rewrite (bind_ok _ _ _ _ _ (set_level_off_eq k2)).
    rewrite (bind_ok _ _ _ _ _ (ready_to_run_eq (turned_off k2) t T1 (lookup_insert_eq _ _ _))).
    set (k3 := made_ready _ _ _).
    assert (Hne : t <> currentThread k) by (pose proof (ki_next _ _ _ Hk _ (ki_cur _ _ _ Hk)); unfold t; lia).
    apply outcome_fine. apply (push_fine _ _ T); [| |by apply plain_off].
    + apply (safe_eq k); try done. intros t' U HU. simpl in HU.
      threads_insert; [by right|done|done|]. left. by exists U.
    + simpl. by rewrite !lookup_insert_ne by done.
  - rewrite (bind_stop _ _ _ AssertFailed); [by right|].
    unfold new_thread, gets, ASSERT. munfold. rewrite Hi, aset_ok, Hlift, aset_ok, Hlift by lia.
    destruct (Z.leb_spec 0 prio), (Z.ltb_spec prio 256); simpl; try done. lia.
Qed.

(** *** The disk *)

Lemma disk_fine k T ticks k1 :
  safe k -> threads k1 !! currentThread k1 = Some T -> plain (frames T) ->
  interrupt k1 = interrupt k -> now k1 = now k -> sems k1 = sems k -> is_sector (lastSector (disk k1)) ->
  (forall t T', threads k1 !! t = Some T' -> exists T, threads k !! t = Some T /\ stack T' = stack T) ->
  0 < ticks -> exists k', Schedule DiskDone ticks DiskInt k1 = Ok (tt, k') /\ fine k'.
Proof.
  intros [H1 H2 H3 H4 H5 H6] HT Hp Hi Hn Hs Hd Ht Hticks.
  destruct (schedule_ok DiskDone ticks DiskInt k1 Hticks) as (k' & Hrun & ->). eexists. split; [done|].
  apply (fine_plain _ T); [|done|done]. split; try done; simpl.
  - by rewrite Hi.
  - unfold pend. simpl. apply ListFacts.sorted_insert_sorted. by rewrite Hi.
  - change (0 <= now k1). by rewrite Hn.
  - by rewrite Hs.
  - intros t T' HT'. destruct (Ht t T' HT') as (U & HU & ->). eauto.
Qed.

Lemma safe_disk_read s : safe_at (FReadRequest s) (disk_read s).
Proof.
  intros cf k T Hk [HT Hr] Hp Hs. unfold disk_read. erewrite bind_ok by done.
  unfold ReadRequest, zoom, get, ASSERT. munfold. cbn [lget lset].
  destruct (active (disk k)) eqn:Ha; [by left|]. cbn [negb].
  destruct ((0 <=? s) && (s <? NumSectors)) eqn:Hsec; [|right; intros [? ?]; apply andb_false_iff in Hsec; zbool;
    destruct Hsec; zbool; lia].
  zbool. unfold modify, gets, with_thread, thread, put_thread. munfold. cbn [threads set_disk currentThread].
  rewrite HT. apply outcome_fine. eapply (disk_fine k (set_buf _ T)); try done.
  - apply lookup_insert_eq.
  - intros t U HU. simpl in HU. threads_insert; eauto.
  - pose proof (latency_bounds (now k) (disk k) s false (sf_now _ Hs) ltac:(done) (sf_sector _ Hs)).
    unfold now in *. lia.
Qed.

Lemma safe_disk_write s d : safe_at (FWriteRequest s d) (disk_write s d).
Proof.
  intros cf k T Hk [HT Hr] Hp Hs. unfold disk_write. erewrite bind_ok by done.
  unfold WriteRequest, zoom, get, ASSERT. munfold. cbn [lget lset].
  destruct (active (disk k)) eqn:Ha; [by left|]. cbn [negb].
  destruct ((0 <=? s) && (s <? NumSectors)) eqn:Hsec; [|right; intros [? ?]; apply andb_false_iff in Hsec; zbool;
    destruct Hsec; zbool; lia].
  zbool. unfold modify. apply outcome_fine. eapply (disk_fine k T); try done.
  - intros t U HU. simpl in HU. eauto.
  - pose proof (latency_bounds (now k) (disk k) s true (sf_now _ Hs) ltac:(done) (sf_sector _ Hs)).
    unfold now in *. lia.
Qed.


(** ** Steps *)

Lemma safe_set_status f m : safe_at f (set_machine_status m).
Proof.
  intros cf k T Hk [HT _] Hp Hs. apply (fine_plain _ T); [|done|done]. apply (safe_eq k); try done. keep_stacks.
Qed.

Lemma safe_set_priority f p : safe_at f (SetPriority p).
Proof.
  intros cf k T Hk [HT _] Hp Hs. unfold SetPriority, with_thread, thread, put_thread, gets, modify. munfold. rewrite HT.
  apply (fine_plain _ (set_priority p T)); [by apply (safe_put _ T)|apply lookup_insert_eq|done].
Qed.

Lemma safe_call o : safe_at (FOp o) (call Random cfg o).
Proof.
  destruct o; simpl; eauto using safe_V, safe_acquire, safe_release, safe_wait, safe_signal, safe_broadcast,
    safe_yield, safe_set_priority, safe_fork; intros cf k T Hk HR Hp Hs; pose proof HR as [HT _]; apply outcome_fine;
    [by apply (P_fine k T)|by apply (one_tick_ok cf k T)|apply (push_fine _ _ T); try done..].
Qed.

Lemma exec_safe f k T :
  kinv (f :: frames T) None k -> threads k !! currentThread k = Some T -> safe k -> off [f] k ->
  outcome k f (exec Random cfg f k).
Proof.
  intros Hk HT Hs Hoff.
  assert (Hg : needs_off f = false \/ f = FEnable -> f <> FFinish -> running k T /\ plain (frames T)).
  { pose proof (ki_frames _ _ _ Hk _ _ HT) as Hg. rewrite frames_of_cur in Hg. intros Hf Hne.
    unfold running. destruct (tstatus T), f; simpl in *; naive_solver. }
  assert (Hat : forall m, safe_at f m -> needs_off f = false \/ f = FEnable -> f <> FFinish -> outcome k f (m k)).
  { intros m Hm Hf Hne. destruct (Hg Hf Hne) as [HR Hp]. by apply (Hm (f :: frames T) k T). }
  destruct f; simpl in Hoff; cbn [exec].
  all: try (apply Hat; [|by auto|done];
    eauto using safe_call, safe_set_level, safe_set_holder, safe_yield, safe_set_status, safe_disk_read,
      safe_disk_write; fail).
  - by apply (safe_PLoop k T).
  - by apply (safe_SleepLoop k T).
  - by apply (safe_AfterRun k T).
  - by apply (safe_Finish k T).
Qed.

(** A step from a good state ends in one, or stops for a reason. *)
Lemma step_outcome k T f fs :
  inv k -> fine k -> threads k !! currentThread k = Some T -> frames T = f :: fs ->
  match step Random cfg k with
  | Ok (_, k') => inv k' /\ fine k'
  | Stop w => blame k f w
  end.
Proof.
  intros (T0 & HT0 & Hk) [Hs Hoff] HT Hf. assert (T0 = T) as -> by congruence.
  destruct (step Random cfg k) as [[[] k']|w] eqn:E.
  - split; [eapply step_inv; [by exists T|done]|]. revert E.
    unfold step, thread, put_thread, gets, modify. munfold. rewrite HT, Hf.
    set (k1 := set_threads _ k). intros E.
    pose proof (exec_safe f k1 (set_frames fs T)) as Hx. rewrite E in Hx. apply Hx.
    + rewrite Hf in Hk. by apply (kinv_cur_any (f :: fs) None k T).
    + apply lookup_insert_eq.
    + by apply (safe_put (currentThread k) T).
    + specialize (Hoff T HT). by rewrite Hf in Hoff.
  - revert E. unfold step, thread, put_thread, gets, modify. munfold. rewrite HT, Hf.
    set (k1 := set_threads _ k). intros E.
    pose proof (exec_safe f k1 (set_frames fs T)) as Hx. rewrite E in Hx. apply Hx.
    + rewrite Hf in Hk. by apply (kinv_cur_any (f :: fs) None k T).
    + apply lookup_insert_eq.
    + by apply (safe_put (currentThread k) T).
    + specialize (Hoff T HT). by rewrite Hf in Hoff.
Qed.

Lemma inv_nonempty k : inv k -> exists T f fs, threads k !! currentThread k = Some T /\ frames T = f :: fs.
Proof.
  intros (T & HT & Hk). pose proof (ki_frames _ _ _ Hk _ _ HT) as Hg. rewrite frames_of_cur in Hg.
  destruct (frames T) as [|f fs] eqn:Hf; [by destruct (tstatus T)|]. by exists T, f, fs.
Qed.

Lemma reachable_fine k0 k : inv k0 -> fine k0 -> reachable Random cfg k0 k -> inv k /\ fine k.
Proof.
  intros H0 F0. induction 1 as [|k k' _ [IHi IHf] Hs]; [done|].
  destruct (inv_nonempty k IHi) as (T & f & fs & HT & Hf).
  pose proof (step_outcome k T f fs IHi IHf HT Hf) as Ho. by rewrite Hs in Ho.
Qed.

End KernelSafe.
