(* ===== verification/KernelProps.v ===== *)
(** * What the kernel guarantees its threads

    Theorems on every state a run of the kernel can reach from [Initialize],
    whatever the programs of its threads are. *)

From S2P Require Import Prelude NList Sectors Disk Kernel KernelInv KernelSteps KernelSafe.

Section KernelProps.
Context (Random : nat -> Z) (cfg : Config).

(** ** The first state *)

(** [m] changes nothing the invariant depends on. *)
Definition aside {A : Type} (m : M Kernel A) : Prop := forall k a k', m k = Ok (a, k') -> same_core k k'.

Lemma aside_bind {A B} (m : M Kernel A) (f : A -> M Kernel B) :
  aside m -> (forall a, aside (f a)) -> aside (m ≫= f).
Proof.
  intros Hm Hf k b k' (a & k1 & H1 & H2)%bind_inv.
  destruct (Hm _ _ _ H1), (Hf _ _ _ _ H2). constructor; congruence.
Qed.

Lemma aside_assert b : aside (ASSERT b).
Proof. intros k a k' H. destruct b; [injection H as _ <-; by constructor|done]. Qed.

Lemma aside_start_timer b : aside (start_timer Random cfg b).
Proof.
  unfold start_timer, TimeOfNextInterrupt, Schedule.
  repeat first [case_if | apply aside_assert | apply aside_bind; [|intros]];
    intros k x k' [= _ <-]; by constructor.
Qed.

Lemma init_inv ss ls nconds img body k :
  Forall (fun v => 0 <= v) ss -> Initialize Random cfg ss ls nconds img body = Ok k -> inv k.
Proof.
  intros Hss H. unfold Initialize in H. set (k0 := MkKernel _ _ _ _ _ _ _ _ _ _ _ _ _ _ _) in H.
  match type of H with context [match ?m k0 with _ => _ end] => destruct (m k0) as [[u kk]|] eqn:E end; [|done].
  injection H as ->. apply bind_inv in E as (? & k1 & H1 & E). apply bind_inv in E as (? & k2 & H2 & E).
  assert (Hc1 : same_core k0 k1).
  { revert H1. case_if; [apply aside_start_timer|]. intros [= _ <-]. by constructor. }
  assert (Hc2 : same_core k1 k2).
  { revert H2. case_if; [apply aside_start_timer|]. intros [= _ <-]. by constructor. }
  destruct Hc1 as [A1 A2 A3 A4 A5 A6 A7 A8 A9], Hc2 as [B1 B2 B3 B4 B5 B6 B7 B8 B9].
  apply bind_inv in E as (t & k3 & Hn & E). apply new_thread_inv in Hn as (-> & i & Hi & Hfree & _ & ->).
  apply bind_inv in E as (? & ? & [= <- <-] & E).
  unfold with_thread, thread, put_thread, modify in E. munfold. simpl in E.
  rewrite lookup_insert_eq in E. injection E as _ <-.
  assert (C1 : threads k2 = ∅) by (by rewrite B1, A1). assert (C2 : nextThread k2 = 0%nat) by (by rewrite B2, A2).
  assert (C4 : threadToBeDestroyed k2 = None) by (by rewrite B4, A4). assert (C7 : readyList k2 = []) by (by rewrite B7, A7).
  assert (C5 : ThreadIDOccupied k2 = replicate 128 false) by (by rewrite B5, A5).
  assert (C6 : thread_poiners k2 = replicate 128 None) by (by rewrite B6, A6).
  assert (Hq : forall q, queue_of k2 q = []).
  { intros [s|c]; simpl.
    - rewrite B8, A8. simpl. rewrite list_lookup_fmap. by destruct (ss !! s).
    - rewrite B9, A9. simpl. destruct (replicate nconds [] !! c) as [l|] eqn:Hl; [|done].
      by apply lookup_replicate in Hl as [-> _]. }
  assert (Hsem : forall s y, sems k2 !! s = Some y -> exists v, 0 <= v /\ y = MkSem v [] v 0 0 []).
  { rewrite B8, A8. simpl. intros s y Hy. rewrite list_lookup_fmap in Hy.
    destruct (ss !! s) as [v|] eqn:Hv; [|done]. injection Hy as <-. exists v. split; [|done].
    by eapply Forall_lookup_1. }
  assert (Hlt : (Z.to_nat i < 128)%nat).
  { rewrite C5 in Hfree. by apply lookup_replicate in Hfree as [_ ?]. }
  eexists. split; [apply lookup_insert_eq|]. simpl. rewrite insert_insert_eq, C1.
  set (T := set_tstatus _ _). clearbody k0. clear A1 A2 A3 A4 A5 A6 A7 A8 A9 B1 B2 B3 B4 B5 B6 B7 B8 B9.
  set (K := set_threads _ _).
  assert (Hone : forall t U, threads K !! t = Some U -> t = nextThread k2 /\ U = T).
  { intros t U HU. simpl in HU. threads_insert; [done|]. by rewrite lookup_empty in HU. }
  assert (HqK : forall q, queue_of K q = []) by exact Hq.
  assert (HT : threads K !! nextThread k2 = Some T) by apply lookup_insert_eq.
  assert (HO : ThreadIDOccupied K = <[Z.to_nat i := true]> (replicate 128 false)) by (by rewrite <- C5).
  assert (HP : thread_poiners K = <[Z.to_nat i := Some (nextThread k2)]> (replicate 128 None)) by (by rewrite <- C6).
  constructor; change (readyList K) with (readyList k2); rewrite ?C7; try done.
  - constructor.
  - intros p t. split; [by intros ?%elem_of_nil|]. by intros (U & [-> ->]%Hone & Hr & _).
  - intros t U [-> ->]%Hone. rewrite (frames_of_cur K). split; [done|]. apply plain_root.
  - intros q. rewrite HqK. constructor.
  - intros q q' t. rewrite HqK. by intros ?%elem_of_nil.
  - intros q t. rewrite HqK. by intros ?%elem_of_nil.
  - by intros t U [-> ->]%Hone.
  - intros s y (v & Hv & ->)%Hsem. split_and!; simpl; [done|lia|constructor|done].
  - intros s y t (v & Hv & ->)%Hsem. by intros ?%elem_of_nil.
  - by rewrite HO, HP, !length_insert, !length_replicate.
  - intros t U [-> ->]%Hone. rewrite HO, HP, !list_lookup_insert_eq by (rewrite length_replicate; lia). done.
  - intros j Hj. rewrite HO in Hj. apply list_lookup_insert_Some in Hj as [(<- & _)|[_ Hj]].
    + exists (nextThread k2), T. split; [done|]. simpl. lia.
    + by apply lookup_replicate in Hj as [? _].
  - intros t [U [-> ->]%Hone]. simpl. lia.
  - change (threadToBeDestroyed K) with (threadToBeDestroyed k2). by rewrite C4.
Qed.

(** Starting a timer only adds a pending interrupt. *)
Lemma start_timer_eq b k k' :
  start_timer Random cfg b k = Ok (tt, k') -> Lists.sorted (pend k) ->
  exists p d, k' = set_interrupt (set_pending p (interrupt k)) (set_draws d k) /\ Lists.sorted p.
Proof.
  intros H Hs. unfold start_timer, TimeOfNextInterrupt, Schedule, gets, modify, ASSERT in H. munfold. simpl in H.
  destruct (randomYield cfg); simpl in H.
  - destruct (0 <? _) in H; [|done]. injection H as <-. eexists _, _. split; [done|].
    by apply ListFacts.sorted_insert_sorted.
  - injection H as <-. exists (Lists.sorted_insert (MkPend (TimerHandler b) (totalTicks (stats k) + TimerTicks) TimerInt)
      (totalTicks (stats k) + TimerTicks) (pend k)), (draws k).
    split; [by destruct k|]. by apply ListFacts.sorted_insert_sorted.
Qed.

Lemma with_thread_eq t f k T : threads k !! t = Some T ->
  with_thread t f k = Ok (tt, set_threads (<[t := f T]> (threads k)) k).
Proof. intros HT. unfold with_thread, thread, put_thread, modify. munfold. by rewrite HT. Qed.

Lemma init_fine ss ls nconds img body k :
  (disk_sem cfg < length ss)%nat -> Initialize Random cfg ss ls nconds img body = Ok k -> fine cfg k.
Proof.
  intros Hsem H. unfold Initialize in H. set (k0 := MkKernel _ _ _ _ _ _ _ _ _ _ _ _ _ _ _) in H.
  match type of H with context [match ?m k0 with _ => _ end] => destruct (m k0) as [[u kk]|] eqn:E end; [|done].
  injection H as ->. apply bind_inv in E as ([] & k1 & H1 & E). apply bind_inv in E as ([] & k2 & H2 & E).
  assert (exists p d, k1 = set_interrupt (set_pending p (interrupt k0)) (set_draws d k0) /\ Lists.sorted p)
    as (p1 & d1 & -> & Hp1).
  { revert H1. case_if; [intros H1; apply (start_timer_eq _ _ _ H1); constructor|].
    intros [= <-]. exists [], 0%nat. by split; [|constructor]. }
  assert (exists p d, k2 = set_interrupt (set_pending p (interrupt k0)) (set_draws d k0) /\ Lists.sorted p)
    as (p2 & d2 & -> & Hp2).
  { revert H2. case_if.
    - intros H2. apply start_timer_eq in H2 as (p & d & -> & Hp); [|done]. by exists p, d.
    - intros [= <-]. by exists p1, d1. }
  apply bind_inv in E as (t & k3 & Hn & E). apply new_thread_inv in Hn as (-> & i & Hi & Hfree & _ & ->).
  apply bind_inv in E as (? & ? & [= <- <-] & E).
  set (T0 := MkThread i 255 JUST_CREATED None [] []) in E. set (k2 := set_currentThread _ _) in E.
  assert (HT0 : threads k2 !! nextThread (set_interrupt (set_pending p2 (interrupt k0)) (set_draws d2 k0)) = Some T0)
    by apply lookup_insert_eq.
  rewrite (with_thread_eq _ _ _ _ HT0) in E. injection E as _ <-.
  split; [|by intros T _; apply level_off]. split; try done.
  - change (disk_sem cfg < length ((fun v => MkSem v [] v 0 0 []) <$> ss))%nat. by rewrite length_fmap.
  - intros t T HT. cbn [threads set_threads] in HT.
    apply lookup_insert_Some in HT as [[_ <-]|[_ HT]]; [by left|].
    apply lookup_insert_Some in HT as [[_ <-]|[_ HT]]; [by left|]. by rewrite lookup_empty in HT.
Qed.

Lemma run_reachable n k k' : run Random cfg n k = Ok k' -> reachable Random cfg k k'.
Proof.
  assert (Htrans : forall k1 k2 k3, reachable Random cfg k1 k2 -> reachable Random cfg k2 k3 ->
    reachable Random cfg k1 k3).
  { induction 2; [done|]. by eapply reach_step. }
  revert k. induction n as [|n IH]; intros k; simpl; [intros [= <-]; constructor|].
  destruct (step Random cfg k) as [[[] k1]|] eqn:Hs; [|done]. intros H. eapply Htrans; [|by apply IH].
  eapply reach_step; [constructor|done].
Qed.

(** A state of the kernel reached by running the program [body], and whatever it
    forks, from [Initialize]. *)
Definition reaches (ss : list Z) (ls : list Lock) (nconds : nat) (img : image) (body : list op)
    (k : Kernel) : Prop :=
  exists k0, Initialize Random cfg ss ls nconds img body = Ok k0 /\ reachable Random cfg k0 k.

Lemma reaches_inv ss ls nconds img body k :
  Forall (fun v => 0 <= v) ss -> reaches ss ls nconds img body k -> inv k.
Proof. intros Hss (k0 & H0 & Hk). eapply reachable_inv; [by eapply init_inv|done]. Qed.

Lemma inv_frames k T t U cf :
  threads k !! currentThread k = Some T -> cf = frames T -> threads k !! t = Some U ->
  frames_of k cf t U = frames U.
Proof. intros HT -> HU. unfold frames_of. case_decide; congruence. Qed.

Lemma reaches_fine ss ls nconds img body k :
  (forall n, 0 <= Random n) -> Forall (fun v => 0 <= v) ss -> (disk_sem cfg < length ss)%nat ->
  reaches ss ls nconds img body k -> inv k /\ fine cfg k.
Proof.
  intros HR Hss Hsem (k0 & H0 & Hk).
  eapply reachable_fine; [done|by eapply init_inv|by eapply init_fine|done].
Qed.

(** ** Safety *)

(** C9. The kernel's own assertions never fail.  In every state the kernel reaches
    the running thread has something to do, and when the step stops it is for one
    of these reasons: the machine halts with no thread ready and no interrupt but
    a timer's pending; a client forks with the thread table full or with a
    priority out of range; the disk is sent a request while busy or for a sector
    that does not exist; or a client names a semaphore, lock or condition that
    does not exist.  In particular the loops of the interrupt delivery end. *)
Theorem kernel_stops_only_for_cause ss ls nconds img body k :
  (forall n, 0 <= Random n) -> Forall (fun v => 0 <= v) ss -> (disk_sem cfg < length ss)%nat ->
  reaches ss ls nconds img body k ->
  exists T f fs, threads k !! currentThread k = Some T /\ frames T = f :: fs /\
    match step Random cfg k with Ok _ => True | Stop w => blame k f w end.
Proof.
  intros HR Hss Hsem Hk. destruct (reaches_fine _ _ _ _ _ _ HR Hss Hsem Hk) as [Hi Hf].
  destruct (inv_nonempty k Hi) as (T & f & fs & HT & Hfr). exists T, f, fs. split_and!; [done|done|].
  pose proof (step_outcome Random cfg HR k T f fs Hi Hf HT Hfr) as Ho.
  by destruct (step Random cfg k).
Qed.

(** C37. Delivery of interrupts.  From every state the kernel reaches whose clock is two
    timer periods away from the end of an [int] and whose pending interrupts are at times
    that are [int]s, with interrupts turned off as [OneTick] does,
    [while (CheckIfDue(FALSE));] ends; no time that it computes overflows an [int] (every
    pending interrupt still is at one); no time has passed and the machine's mode is the
    one before; and in user and system mode no pending interrupt is due any more.  (In
    idle mode a last timer interrupt that is due is left alone.) *)
Theorem interrupts_delivered_in_time ss ls nconds img body k :
  (forall n, 0 <= Random n) -> Forall (fun v => 0 <= v) ss -> (disk_sem cfg < length ss)%nat ->
  reaches ss ls nconds img body k ->
  totalTicks (stats k) + TimerTicks * 2 <= 2 ^ 31 - 1 -> pending_by (2 ^ 31 - 1) (pending (interrupt k)) ->
  exists k', CheckAllDue Random cfg (turned_off k) = Ok (tt, k') /\
    totalTicks (stats k') = totalTicks (stats k) /\ status (interrupt k') = status (interrupt k) /\
    Lists.sorted (pending (interrupt k')) /\ pending_by (2 ^ 31 - 1) (pending (interrupt k')) /\
    (status (interrupt k) <> IdleMode -> Forall (fun e => totalTicks (stats k) < e.1) (pending (interrupt k'))).
Proof.
  intros HR Hss Hsem Hk Hclock Hpend. destruct (reaches_fine _ _ _ _ _ _ HR Hss Hsem Hk) as [(T & HT & Hi) [Hs _]].
  destruct (check_all_due_ok Random cfg HR (frames T) None (turned_off k)) as (k' & Hrun & _ & Hb & _ & Hn & Hst & Hall & Hby).
  - by apply turned_off_kinv.
  - split; [done|apply Hs|apply Hs|apply Hs].
  - exists k'. split_and!; [done|exact Hn|exact Hst|apply Hb|by apply Hby|]. by destruct Hall.
Qed.

(** ** Threads *)

(** C11. In every state the kernel reaches, each thread is where its status says:
    only the current thread is [RUNNING]; the [READY] threads are exactly those in
    the ready list, each once, in order of priority; a [BLOCKED] thread is in
    exactly one queue of one semaphore or condition, once, or has called
    [Finish]; and every thread in a queue is [BLOCKED]. *)
Theorem threads_accounted_for ss ls nconds img body k :
  Forall (fun v => 0 <= v) ss -> reaches ss ls nconds img body k ->
  NoDup (readyList k).*2 /\ Lists.sorted (readyList k) /\ (forall q, NoDup (queue_of k q)) /\
  (forall q t, t ∈ queue_of k q -> exists T, threads k !! t = Some T /\ tstatus T = BLOCKED) /\
  (forall p t, (p, t) ∈ readyList k -> exists T, threads k !! t = Some T /\ tstatus T = READY) /\
  forall t T, threads k !! t = Some T ->
    match tstatus T with
    | JUST_CREATED => False
    | RUNNING => t = currentThread k
    | READY => (priority T, t) ∈ readyList k
    | BLOCKED => finishing (frames T) \/
        exists q, t ∈ queue_of k q /\ forall q', t ∈ queue_of k q' -> q' = q
    end.
Proof.
  intros Hss Hk. destruct (reaches_inv _ _ _ _ _ _ Hss Hk) as (C & HC & Hi).
  split_and!; [apply (ki_nodup _ _ _ Hi)|apply (ki_sorted _ _ _ Hi)|apply (ki_queue _ _ _ Hi)| | |].
  - intros q t (T & HT & Hb & _)%(ki_waiting _ _ _ Hi). by exists T.
  - intros p t (T & HT & Hr & _)%(ki_ready _ _ _ Hi). by exists T.
  - intros t T HT. pose proof (ki_frames _ _ _ Hi t T HT) as Hg. destruct (tstatus T) eqn:Hs.
    + done.
    + destruct (frames_of k (frames C) t T) as [|[] ?]; simpl in Hg; tauto.
    + apply (ki_ready _ _ _ Hi). by exists T.
    + destruct (ki_blocked _ _ _ Hi t T HT Hs) as [[q Hq]|Hf].
      * right. exists q. split; [done|]. intros q' Hq'. by eapply (ki_unique _ _ _ Hi).
      * left. by rewrite (inv_frames k C) in Hf.
Qed.

(** Thread ids: a thread's id is in the table's range, marked as occupied and
    mapped to the thread, so that no two threads share one; an id is marked as
    occupied only while a thread has it; there are never more than
    [MaxThreadCount] threads. *)
Lemma thread_ids_unique ss ls nconds img body k :
  Forall (fun v => 0 <= v) ss -> reaches ss ls nconds img body k ->
  (forall t T, threads k !! t = Some T ->
     0 <= tid T < MaxThreadCount /\ ThreadIDOccupied k !! Z.to_nat (tid T) = Some true /\
     thread_poiners k !! Z.to_nat (tid T) = Some (Some t)) /\
  (forall t t' T T', threads k !! t = Some T -> threads k !! t' = Some T' -> tid T = tid T' -> t = t') /\
  (forall i, ThreadIDOccupied k !! i = Some true -> exists t T, threads k !! t = Some T /\ tid T = Z.of_nat i) /\
  Z.of_nat (size (threads k)) <= MaxThreadCount.
Proof.
  intros Hss Hk. destruct (reaches_inv _ _ _ _ _ _ Hss Hk) as (C & HC & Hi).
  assert (Hids : forall t T, threads k !! t = Some T -> 0 <= tid T < MaxThreadCount /\
    ThreadIDOccupied k !! Z.to_nat (tid T) = Some true /\
    thread_poiners k !! Z.to_nat (tid T) = Some (Some t)).
  { intros t T HT. destruct (ki_ids _ _ _ Hi t T HT) as (Hpos & Ho & Hp). split_and!; try done.
    pose proof (lookup_lt_Some _ _ _ Ho) as Hlt. rewrite (proj1 (ki_tables _ _ _ Hi)) in Hlt.
    unfold MaxThreadCount. lia. }
  assert (Hinj : forall t t' T T', threads k !! t = Some T -> threads k !! t' = Some T' ->
    tid T = tid T' -> t = t').
  { intros t t' T T' HT HT' E. apply Hids in HT as (_ & _ & H1), HT' as (_ & _ & H2).
    rewrite E in H1. congruence. }
  split_and!; [done|done|apply (ki_occupied _ _ _ Hi)|].
  (* the ids are distinct numbers below 128 *)
  set (l := map_to_list (threads k)).
  assert (Hsub : (length ((fun e => tid e.2) <$> l) <= length (seqZ 0 128))%nat).
  { apply submseteq_length, NoDup_submseteq.
    - apply NoDup_fmap_2_strong; [|apply NoDup_map_to_list].
      intros [t T] [t' T'] H1%elem_of_map_to_list H2%elem_of_map_to_list E. simpl in E.
      assert (t = t') as -> by (by eapply Hinj). congruence.
    - intros i Hin. apply list_elem_of_fmap in Hin as ([t T] & -> & HT%elem_of_map_to_list).
      apply elem_of_seqZ. apply Hids in HT as [? _]. unfold MaxThreadCount in *. simpl. lia. }
  rewrite length_fmap in Hsub. unfold l in Hsub. rewrite length_seqZ in Hsub.
  rewrite <- length_map_to_list. unfold MaxThreadCount. lia.
Qed.

(** ** Semaphores *)

(** C10. [Semaphore]: the value is the initial one plus the [V]s less the [P]s that
    have taken effect and is never negative, so that no more [P]s ever succeed
    than the initial value and the [V]s allow (with initial value one, mutual
    exclusion).  No wakeup is lost: when the value is positive while threads wait,
    at least that many threads have left the queue, are awake and are about to
    test the value. *)
Theorem semaphore_correct ss ls nconds img body k s x :
  Forall (fun v => 0 <= v) ss -> reaches ss ls nconds img body k -> sems k !! s = Some x ->
  value x = initial x + ups x - downs x /\ 0 <= value x /\
  (queue x <> [] -> exists ts, NoDup ts /\ value x <= Z.of_nat (length ts) /\
     forall t, t ∈ ts -> exists T, threads k !! t = Some T /\ in_P s (frames T) /\
       (t = currentThread k \/ (priority T, t) ∈ readyList k)).
Proof.
  intros Hss Hk Hx. destruct (reaches_inv _ _ _ _ _ _ Hss Hk) as (C & HC & Hi).
  destruct (ki_sems _ _ _ Hi s x Hx) as (Hv & Heq & Hnd & Hw). split_and!; [done|done|].
  intros Hq. exists (woken x). split_and!; [done|by apply Hw|].
  intros t Ht. destruct (ki_woken _ _ _ Hi s x t Hx Ht) as (T & HT & Hb & Hp).
  exists T. rewrite (inv_frames k C) in Hp by done. split_and!; [done|done|].
  pose proof (ki_frames _ _ _ Hi t T HT) as Hg. destruct (tstatus T) eqn:Hs; [done| |right|done].
  - left. destruct (frames_of k (frames C) t T) as [|[] ?]; simpl in Hg; tauto.
  - apply (ki_ready _ _ _ Hi). by exists T.
Qed.

(** ** Scheduling *)

(** C36. The scheduler: the thread [FindNextToRun] picks is [READY], no [READY]
    thread has a smaller [priority] number, and it is taken off the list; a thread
    made ready is put behind every thread whose number is not larger and before
    the others, so that threads of equal priority run in the order they became
    ready. *)
Theorem scheduler_picks_best ss ls nconds img body k :
  Forall (fun v => 0 <= v) ss -> reaches ss ls nconds img body k ->
  (forall n k', FindNextToRun k = Ok (Some n, k') ->
     exists N, threads k !! n = Some N /\ tstatus N = READY /\
       readyList k = (priority N, n) :: readyList k' /\
       forall t T, threads k !! t = Some T -> tstatus T = READY -> priority N <= priority T) /\
  (forall k', FindNextToRun k = Ok (None, k') ->
     k' = k /\ forall t T, threads k !! t = Some T -> tstatus T <> READY) /\
  (forall t T, threads k !! t = Some T ->
     exists k', ReadyToRun t k = Ok (tt, k') /\ threads k' !! t = Some (set_tstatus READY T) /\
       readyList k' = filter (fun e => e.1 <= priority T) (readyList k) ++ (priority T, t) ::
                      filter (fun e => ¬ e.1 <= priority T) (readyList k)).
Proof.
  intros Hss Hk. destruct (reaches_inv _ _ _ _ _ _ Hss Hk) as (C & HC & Hi). split_and!.
  - intros n k' Hn. pose proof (find_next_inv _ _ _ _ Hi Hn) as (_ & p & l & Hl & ->).
    destruct (proj1 (ki_ready _ _ _ Hi p n) ltac:(rewrite Hl; by left)) as (N & HN & Hr & <- & _).
    exists N. split_and!; [done|done|done|]. intros t T HT HrT.
    assert (Hin : (priority T, t) ∈ readyList k) by (apply (ki_ready _ _ _ Hi); by exists T).
    pose proof (ki_sorted _ _ _ Hi) as Hsort. rewrite Hl in Hin, Hsort.
    apply elem_of_cons in Hin as [[= -> _]|Hin]; [done|].
    destruct (ListFacts.sorted_remove_least _ (priority N, n) l Hsort eq_refl) as [_ Hall].
    rewrite Forall_forall in Hall. by apply (Hall (priority T, t)).
  - intros k' Hn. pose proof (find_next_inv _ _ _ _ Hi Hn) as [Hnil ->]. split; [done|].
    intros t T HT Hr. assert (Hin : (priority T, t) ∈ readyList k) by (apply (ki_ready _ _ _ Hi); by exists T).
    rewrite Hnil in Hin. by apply elem_of_nil in Hin.
  - intros t T HT. eexists. split; [by apply ready_to_run_eq|]. split; [apply lookup_insert_eq|].
    apply ListFacts.sorted_insert_stable. apply (ki_sorted _ _ _ Hi).
Qed.
End KernelProps.

(** ** A run *)

(** Two threads wait for semaphore 2, the main thread signals it once. *)
Definition demo_cfg : Config := MkConfig false false 0 0.
Definition demo_random : nat -> Z := fun _ => 7.
Definition demo_body : list op := [OpFork 3 [OpP 2]; OpFork 5 [OpP 2]; OpYield; OpV 2].
Definition demo_sems : list Z := [0; 1; 0].

Definition demo_run (n : nat) : res Kernel :=
  match Initialize demo_random demo_cfg demo_sems [MkLock 1 None] 1 [] demo_body with
  | Ok k => run demo_random demo_cfg n k
  | Stop w => Stop w
  end.

Definition summary (k : Kernel) :=
  (currentThread k, readyList k, (fun x => (value x, queue x, woken x)) <$> sems k).

Lemma demo_reaches n k :
  demo_run n = Ok k -> reaches demo_random demo_cfg demo_sems [MkLock 1 None] 1 [] demo_body k.
Proof.
  unfold demo_run. intros H. destruct (Initialize _ _ _ _ _ _ _) as [k0|] eqn:H0; [|done].
  exists k0. split; [done|]. by apply run_reachable in H.
Qed.

Lemma demo_sems_ok : Forall (fun v => 0 <= v) demo_sems.
Proof. repeat constructor; lia. Qed.

(** The state after [n] steps of the run above. *)
Definition demo_state (n : nat) : Kernel :=
  match demo_run n with Ok k => k | Stop _ =>
    MkKernel ∅ 0 0 None [] [] [] 0 [] [] [] (MkInterrupt IntOff [] false false SystemMode)
      (MkStats 0 0 0 0 0 0) (new_disk []) 0
  end.

Lemma demo_reaches_17 : reaches demo_random demo_cfg demo_sems [MkLock 1 None] 1 [] demo_body (demo_state 17).
Proof. apply (demo_reaches 17). vm_compute. reflexivity. Qed.

Lemma threads_accounted_for_witness :
  summary (demo_state 17) = (0%nat, [(3, 1%nat)], [(0, [], []); (1, [], []); (1, [(0, 2%nat)], [1%nat])]) /\
  NoDup (readyList (demo_state 17)).*2.
Proof.
  split; [vm_compute; reflexivity|].
  exact (proj1 (threads_accounted_for _ _ _ _ _ _ _ _ demo_sems_ok demo_reaches_17)).
Defined.

Lemma semaphore_correct_witness :
  exists x, sems (demo_state 17) !! 2%nat = Some x /\ value x = 1 /\ queue x = [(0, 2%nat)] /\
    value x = initial x + ups x - downs x.
Proof.
  exists (MkSem 1 [(0, 2%nat)] 0 0 1 [1%nat]).
  assert (Hx : sems (demo_state 17) !! 2%nat = Some (MkSem 1 [(0, 2%nat)] 0 0 1 [1%nat]))
    by (vm_compute; reflexivity).
  split; [exact Hx|]. split; [reflexivity|]. split; [reflexivity|].
  exact (proj1 (semaphore_correct _ _ _ _ _ _ _ _ _ _ demo_sems_ok demo_reaches_17 Hx)).
Defined.

Lemma scheduler_picks_best_witness :
  exists k' N, FindNextToRun (demo_state 17) = Ok (Some 1%nat, k') /\ threads (demo_state 17) !! 1%nat = Some N /\
    tstatus N = READY /\ readyList (demo_state 17) = (priority N, 1%nat) :: readyList k'.
Proof.
  destruct (FindNextToRun (demo_state 17)) as [[n k']|w] eqn:E; [|vm_compute in E; discriminate E].
  assert (Hn : n = Some 1%nat) by (vm_compute in E; injection E as <- _; reflexivity). subst n.
  destruct (proj1 (scheduler_picks_best _ _ _ _ _ _ _ _ demo_sems_ok demo_reaches_17) _ _ E) as (N & HN & Hs & Hl & _).
  exists k', N. split; [reflexivity|]. split; [exact HN|]. split; [exact Hs|exact Hl].
Defined.

Lemma demo_random_nonneg : forall n, 0 <= demo_random n.
Proof. intros n. unfold demo_random. lia. Qed.
Lemma demo_disk_sem : (disk_sem demo_cfg < length demo_sems)%nat.
Proof. vm_compute. lia. Qed.

(** The run above ends when the second thread is left waiting for ever. *)
Lemma demo_reaches_24 : reaches demo_random demo_cfg demo_sems [MkLock 1 None] 1 [] demo_body (demo_state 24).
Proof. apply (demo_reaches 24). vm_compute. reflexivity. Qed.

Lemma kernel_stops_only_for_cause_witness :
  step demo_random demo_cfg (demo_state 24) = Stop Halted /\
  exists T f fs, threads (demo_state 24) !! currentThread (demo_state 24) = Some T /\ frames T = f :: fs /\
    match step demo_random demo_cfg (demo_state 24) with Ok _ => True | Stop w => blame (demo_state 24) f w end.
Proof.
  split; [vm_compute; reflexivity|].
  exact (kernel_stops_only_for_cause _ _ _ _ _ _ _ _ demo_random_nonneg demo_sems_ok demo_disk_sem demo_reaches_24).
Defined.

Lemma interrupts_delivered_in_time_witness :
  status (interrupt (demo_state 17)) = SystemMode /\
  exists k', CheckAllDue demo_random demo_cfg (turned_off (demo_state 17)) = Ok (tt, k').
Proof.
  split; [vm_compute; reflexivity|].
  destruct (interrupts_delivered_in_time _ _ _ _ _ _ _ _ demo_random_nonneg demo_sems_ok demo_disk_sem
    demo_reaches_17) as (k' & Hk' & _).
  - vm_compute. discriminate.
  - apply (bool_decide_eq_true_1 (Forall _ _)). vm_compute. reflexivity.
  - exists k'. exact Hk'.
Defined.
