(* ===== verification/Switch.v ===== *)
(** * The context switch: [threads/switch.c] for the i386 host, [Thread::StackAllocate]

    [Scheduler::Run] goes from one thread to another by calling [SWITCH], which is
    written in assembly language.  The model is a processor with the registers and the
    instructions that [SWITCH] and [ThreadRoot] use, on a memory of words; threads are
    the objects at the start of which [stackTop] and [machineState] are saved.  The
    theorems are what [Kernel.v] takes for granted when a thread is its continuation: a
    thread that is switched away from goes on where it was, and a new one starts in its
    function. *)

From S2P Require Import Prelude.

(** ** The processor *)

Inductive reg : Type := EAX | EBX | ECX | EDX | ESI | EDI | EBP | ESP.
#[export] Instance reg_eq_dec : EqDecision reg.
Proof. solve_decision. Defined.

(** The registers are unsigned words; the memory has a word at the addresses in use. *)
Record Cpu : Type := MkCpu {
  eax : Z; ebx : Z; ecx : Z; edx : Z; esi : Z; edi : Z; ebp : Z; esp : Z; eip : Z; mem : gmap Z Z
}.
Definition get_reg (r : reg) (c : Cpu) : Z :=
  match r with
  | EAX => eax c | EBX => ebx c | ECX => ecx c | EDX => edx c | ESI => esi c | EDI => edi c | EBP => ebp c | ESP => esp c
  end.
Definition set_reg (r : reg) (v : Z) (c : Cpu) : Cpu :=
  match r with
  | EAX => MkCpu v (ebx c) (ecx c) (edx c) (esi c) (edi c) (ebp c) (esp c) (eip c) (mem c)
  | EBX => MkCpu (eax c) v (ecx c) (edx c) (esi c) (edi c) (ebp c) (esp c) (eip c) (mem c)
  | ECX => MkCpu (eax c) (ebx c) v (edx c) (esi c) (edi c) (ebp c) (esp c) (eip c) (mem c)
  | EDX => MkCpu (eax c) (ebx c) (ecx c) v (esi c) (edi c) (ebp c) (esp c) (eip c) (mem c)
  | ESI => MkCpu (eax c) (ebx c) (ecx c) (edx c) v (edi c) (ebp c) (esp c) (eip c) (mem c)
  | EDI => MkCpu (eax c) (ebx c) (ecx c) (edx c) (esi c) v (ebp c) (esp c) (eip c) (mem c)
  | EBP => MkCpu (eax c) (ebx c) (ecx c) (edx c) (esi c) (edi c) v (esp c) (eip c) (mem c)
  | ESP => MkCpu (eax c) (ebx c) (ecx c) (edx c) (esi c) (edi c) (ebp c) v (eip c) (mem c)
  end.
Definition set_eip (v : Z) (c : Cpu) : Cpu :=
  MkCpu (eax c) (ebx c) (ecx c) (edx c) (esi c) (edi c) (ebp c) (esp c) v (mem c).
Definition set_mem (m : gmap Z Z) (c : Cpu) : Cpu :=
  MkCpu (eax c) (ebx c) (ecx c) (edx c) (esi c) (edi c) (ebp c) (esp c) (eip c) m.

(** An access to a word that is not there has no meaning. *)
Definition read_word (a : Z) : M Cpu Z := fun c =>
  match mem c !! u32 a with Some v => Ok (v, c) | None => Stop Undefined end.
Definition write_word (a v : Z) : M Cpu unit := fun c =>
  match mem c !! u32 a with Some _ => Ok (tt, set_mem (<[u32 a := v]> (mem c)) c) | None => Stop Undefined end.

(** [%r], [off(%r)] and a symbol. *)
Inductive operand : Type := Reg (r : reg) | At (off : Z) (r : reg) | Sym (a : Z).
Definition get (o : operand) : M Cpu Z :=
  match o with
  | Reg r => gets (get_reg r)
  | At off r => b ← gets (get_reg r); read_word (b + off)
  | Sym a => read_word a
  end.
Definition put (o : operand) (v : Z) : M Cpu unit :=
  match o with
  | Reg r => modify (set_reg r v)
  | At off r => b ← gets (get_reg r); write_word (b + off) v
  | Sym a => write_word a v
  end.

Inductive instr : Type := movl (src dst : operand) | pushl (src : operand) | popl (dst : operand) | call (r : reg) | ret.

Definition push (v : Z) : M Cpu unit :=
  s ← gets esp; _ ← modify (set_reg ESP (u32 (s - 4))); write_word (s - 4) v.
Definition pop : M Cpu Z :=
  s ← gets esp; v ← read_word s; _ ← modify (set_reg ESP (u32 (s + 4))); mret v.

(** An instruction, after [eip] was moved to the next one. *)
Definition exec (i : instr) : M Cpu unit :=
  match i with
  | movl src dst => v ← get src; put dst v
  | pushl src => v ← get src; push v
  | popl dst => v ← pop; put dst v
  | call r => next ← gets eip; target ← gets (get_reg r); _ ← push next; modify (set_eip target)
  | ret => v ← pop; modify (set_eip v)
  end.

(** ** The routines *)

(** [switch.h]: the offsets of the saved registers from the start of the thread. *)
Definition _ESP : Z := 0.
Definition _EAX : Z := 4.
Definition _EBX : Z := 8.
Definition _ECX : Z := 12.
Definition _EDX : Z := 16.
Definition _EBP : Z := 20.
Definition _ESI : Z := 24.
Definition _EDI : Z := 28.
Definition _PC : Z := 32.
Definition PCState : Z := _PC / 4 - 1.
Definition FPState : Z := _EBP / 4 - 1.
Definition InitialPCState : Z := _ESI / 4 - 1.
Definition InitialArgState : Z := _EDX / 4 - 1.
Definition WhenDonePCState : Z := _EDI / 4 - 1.
Definition StartupPCState : Z := _ECX / 4 - 1.
Definition InitialPC : reg := ESI.
Definition InitialArg : reg := EDX.
Definition WhenDonePC : reg := EDI.
Definition StartupPC : reg := ECX.

Definition ThreadRoot_code : list instr :=
  [pushl (Reg EBP); movl (Reg ESP) (Reg EBP); pushl (Reg InitialArg); call StartupPC; call InitialPC; call WhenDonePC;
   movl (Reg EBP) (Reg ESP); popl (Reg EBP); ret].

Definition SWITCH_code (eax_save : Z) : list instr :=
  [movl (Reg EAX) (Sym eax_save);
   movl (At 4 ESP) (Reg EAX);
   movl (Reg EBX) (At _EBX EAX);
   movl (Reg ECX) (At _ECX EAX);
   movl (Reg EDX) (At _EDX EAX);
   movl (Reg ESI) (At _ESI EAX);
   movl (Reg EDI) (At _EDI EAX);
   movl (Reg EBP) (At _EBP EAX);
   movl (Reg ESP) (At _ESP EAX);
   movl (Sym eax_save) (Reg EBX);
   movl (Reg EBX) (At _EAX EAX);
   movl (At 0 ESP) (Reg EBX);
   movl (Reg EBX) (At _PC EAX);
   movl (At 8 ESP) (Reg EAX);
   movl (At _EAX EAX) (Reg EBX);
   movl (Reg EBX) (Sym eax_save);
   movl (At _EBX EAX) (Reg EBX);
   movl (At _ECX EAX) (Reg ECX);
   movl (At _EDX EAX) (Reg EDX);
   movl (At _ESI EAX) (Reg ESI);
   movl (At _EDI EAX) (Reg EDI);
   movl (At _EBP EAX) (Reg EBP);
   movl (At _ESP EAX) (Reg ESP);
   movl (At _PC EAX) (Reg EAX);
   movl (Reg EAX) (At 4 ESP);
   movl (Sym eax_save) (Reg EAX);
   ret].

(** ** [Thread::StackAllocate] *)

Definition StackSize : Z := 4 * 1024.
Definition STACK_FENCEPOST : Z := 0xdeadbeef.

(** The addresses of the code it refers to. *)
Record Symbols : Type := MkSymbols { ThreadRoot : Z; InterruptEnable : Z; ThreadFinish : Z }.

(** [machineState] follows [stackTop]. *)
Definition machineState (t i : Z) : Z := t + 4 + 4 * i.

(** On the memory, for the thread at [t]; [stack] is the address that
    [AllocBoundedArray] returns. *)
Definition StackAllocate (sym : Symbols) (t stack func arg : Z) : M Cpu unit :=
  let stackTop := stack + 4 * (StackSize - 4) in
  let stackTop := stackTop - 4 in
  _ ← write_word stackTop (ThreadRoot sym);
  _ ← write_word t stackTop;
  _ ← write_word stack STACK_FENCEPOST;
  _ ← write_word (machineState t PCState) (ThreadRoot sym);
  _ ← write_word (machineState t StartupPCState) (InterruptEnable sym);
  _ ← write_word (machineState t InitialPCState) func;
  _ ← write_word (machineState t InitialArgState) arg;
  write_word (machineState t WhenDonePCState) (ThreadFinish sym).

(** ** Execution *)

Section Code.
(** The instruction at an address, and the address after it. *)
Context (fetch : Z -> option (instr * Z)).

Definition step : M Cpu unit := fun c =>
  match fetch (eip c) with Some (i, next) => exec i (set_eip next c) | None => Stop Undefined end.
Fixpoint steps (n : nat) : M Cpu unit :=
  match n with O => mret tt | S n => _ ← step; steps n end.

(** The instructions [l] are at the address [a]. *)
Fixpoint loaded (a : Z) (l : list instr) : Prop :=
  match l with [] => True | i :: l => exists next, fetch a = Some (i, next) /\ loaded next l end.

Lemma steps_add n k c c1 : steps n c = Ok (tt, c1) -> steps (n + k) c = steps k c1.
Proof.
  revert c. induction n as [|n IH]; intros c; [by intros [= ->]|]. cbn [steps Nat.add]. munfold.
  destruct (step c) as [[[] c']|]; [apply IH|done].
Qed.
End Code.

(** The registers saved in the thread at [t] are those of [v], and its [PC] is [eip v]. *)
Definition context_at (m : gmap Z Z) (t : Z) (v : Cpu) : Prop :=
  m !! (t + _ESP) = Some (esp v) /\ m !! (t + _EAX) = Some (eax v) /\ m !! (t + _EBX) = Some (ebx v) /\
  m !! (t + _ECX) = Some (ecx v) /\ m !! (t + _EDX) = Some (edx v) /\ m !! (t + _EBP) = Some (ebp v) /\
  m !! (t + _ESI) = Some (esi v) /\ m !! (t + _EDI) = Some (edi v) /\ m !! (t + _PC) = Some (eip v).

(** The [n] bytes at [a] and the [k] bytes at [b] do not overlap. *)
Definition apart (a n b k : Z) : Prop := a + n <= b \/ b + k <= a.
(** The [n] bytes at [a] are addresses. *)
Definition in_memory (a n : Z) : Prop := 0 <= a /\ a + n <= 2 ^ 32.

(** [SWITCH(t1, t2)] has been called and the memory is laid out for it: the frame of the
    call, the saved context [v2] of [t2] with its stack, the object of [t1] and the
    variable [_eax_save] do not overlap where it matters. *)
Record can_switch (es : Z) (c : Cpu) (t1 t2 rt : Z) (v1 v2 : Cpu) : Prop := {
  cs_frame : mem c !! esp c = Some rt /\ mem c !! (esp c + 4) = Some t1 /\ mem c !! (esp c + 8) = Some t2;
  cs_old : context_at (mem c) t1 v1;
  cs_new : context_at (mem c) t2 v2;
  cs_save : is_Some (mem c !! es);
  cs_stack : is_Some (mem c !! esp v2) /\ is_Some (mem c !! (esp v2 + 4));
  cs_range : in_memory (esp c) 12 /\ in_memory t1 36 /\ in_memory t2 36 /\ in_memory es 4 /\ in_memory (esp v2) 8;
  cs_threads : apart t1 36 t2 36;
  cs_frame_apart : apart t1 36 (esp c) 12 /\ apart es 4 (esp c) 12;
  cs_save_apart : apart es 4 t1 36 /\ apart es 4 t2 36 /\ apart es 4 (esp v2) 8;
  cs_stack_apart : apart (esp v2) 8 t1 36 /\ apart (esp v2) 8 t2 36;
  cs_stacks : apart (esp v2) 8 (esp c) 12
}.

Lemma read_run c a v : mem c !! a = Some v -> in_memory a 4 -> read_word a c = Ok (v, c).
Proof. intros H [? ?]. unfold read_word. rewrite u32_id by (unfold is_u32; lia). by rewrite H. Qed.
Lemma write_run c a v : is_Some (mem c !! a) -> in_memory a 4 -> write_word a v c = Ok (tt, set_mem (<[a := v]> (mem c)) c).
Proof. intros [x H] [? ?]. unfold write_word. rewrite u32_id by (unfold is_u32; lia). by rewrite H. Qed.

(** Moves one after the other. *)
Fixpoint moves (l : list (operand * operand)) : M Cpu unit :=
  match l with [] => mret tt | (src, dst) :: l => _ ← exec (movl src dst); moves l end.
Definition movs (l : list (operand * operand)) : list instr := (fun p => movl (fst p) (snd p)) <$> l.

(** Moves do not look at [eip]. *)
Lemma get_eip p n c v c1 : get p c = Ok (v, c1) -> c1 = c /\ get p (set_eip n c) = Ok (v, set_eip n c).
Proof.
  assert (Hr : forall a, read_word a c = Ok (v, c1) -> c1 = c /\ read_word a (set_eip n c) = Ok (v, set_eip n c)).
  { intros a. unfold read_word. cbn [mem set_eip]. destruct (mem c !! u32 a); [|done]. by intros [= <- <-]. }
  destruct p as [r|o r|a]; cbn [get].
  - intros [= <- <-]. split; [done|]. by destruct r.
  - intros H. erewrite bind_ok in H |- * by reflexivity. replace (get_reg r (set_eip n c)) with (get_reg r c) by (by destruct r). by apply Hr.
  - apply Hr.
Qed.
Lemma put_eip q n v c c' : put q v c = Ok (tt, c') -> put q v (set_eip n c) = Ok (tt, set_eip n c').
Proof.
  assert (Hw : forall a, write_word a v c = Ok (tt, c') -> write_word a v (set_eip n c) = Ok (tt, set_eip n c')).
  { intros a. unfold write_word. cbn [mem set_eip]. destruct (mem c !! u32 a); [|done]. by intros [= <-]. }
  destruct q as [r|o r|a]; cbn [put].
  - intros [= <-]. by destruct r.
  - intros H. erewrite bind_ok in H |- * by reflexivity. replace (get_reg r (set_eip n c)) with (get_reg r c) by (by destruct r). by apply Hw.
  - apply Hw.
Qed.
Lemma move_eip p q n c c' : exec (movl p q) c = Ok (tt, c') -> exec (movl p q) (set_eip n c) = Ok (tt, set_eip n c').
Proof.
  cbn [exec]. intros (v & c1 & Hg & Hp)%bind_inv. destruct (get_eip p n _ _ _ Hg) as [-> Hg'].
  rewrite (bind_ok _ _ _ _ _ Hg'). by apply put_eip.
Qed.
Lemma moves_eip l n c c' : moves l c = Ok (tt, c') -> moves l (set_eip n c) = Ok (tt, set_eip n c').
Proof.
  revert c. induction l as [|[p q] l IH]; intros c; cbn [moves]; [by intros [= <-]|]. intros ([] & c1 & Hx & Hr)%bind_inv.
  rewrite (bind_ok _ _ _ _ _ (move_eip _ _ n _ _ Hx)). by apply IH.
Qed.

Lemma moves_run fetch l rest c c' : loaded fetch (eip c) (movs l ++ rest) -> moves l c = Ok (tt, c') ->
  exists next, steps fetch (length l) c = Ok (tt, set_eip next c') /\ loaded fetch next rest.
Proof.
  revert c c'. induction l as [|[p q] l IH]; intros c c' Hl Hrun.
  { cbn in Hrun. injection Hrun as <-. exists (eip c). split; [by destruct c|done]. }
  cbn [movs fmap list_fmap app loaded fst snd] in Hl. destruct Hl as (next & Hf & Hl). cbn [moves] in Hrun.
  apply bind_inv in Hrun as ([] & c1 & Hx & Hrun). cbn [steps length].
  assert (Hstep : step fetch c = Ok (tt, set_eip next c1)) by (unfold step; rewrite Hf; by apply move_eip).
  rewrite (bind_ok _ _ _ _ _ Hstep).
  destruct (IH (set_eip next c1) (set_eip next c') Hl (moves_eip _ _ _ _ Hrun)) as (next' & Hs & Hl'). by exists next'.
Qed.

(** ** [SWITCH] *)

Definition SWITCH_moves (es : Z) : list (operand * operand) :=
  omap (fun i => match i with movl src dst => Some (src, dst) | _ => None end) (SWITCH_code es).
Lemma switch_code es : SWITCH_code es = movs (SWITCH_moves es) ++ [ret].
Proof. reflexivity. Qed.

Lemma move_load off r d c v : mem c !! (get_reg r c + off) = Some v -> in_memory (get_reg r c + off) 4 ->
  exec (movl (At off r) (Reg d)) c = Ok (tt, set_reg d v c).
Proof. intros H1 H2. cbn [exec get put]. erewrite bind_ok; [reflexivity|]. erewrite bind_ok by reflexivity. by apply read_run. Qed.
Lemma move_store off r d c : is_Some (mem c !! (get_reg d c + off)) -> in_memory (get_reg d c + off) 4 ->
  exec (movl (Reg r) (At off d)) c = Ok (tt, set_mem (<[get_reg d c + off := get_reg r c]> (mem c)) c).
Proof. intros H1 H2. cbn [exec get put]. erewrite bind_ok by reflexivity. erewrite bind_ok by reflexivity. by apply write_run. Qed.
Lemma move_from a d c v : mem c !! a = Some v -> in_memory a 4 -> exec (movl (Sym a) (Reg d)) c = Ok (tt, set_reg d v c).
Proof. intros H1 H2. cbn [exec get put]. erewrite bind_ok; [reflexivity|]. by apply read_run. Qed.
Lemma move_to a r c : is_Some (mem c !! a) -> in_memory a 4 ->
  exec (movl (Reg r) (Sym a)) c = Ok (tt, set_mem (<[a := get_reg r c]> (mem c)) c).
Proof. intros H1 H2. cbn [exec get put]. erewrite bind_ok by reflexivity. by apply write_run. Qed.

(** The memory after the registers of [c] were saved in [t]. *)
Definition saved (es t rt : Z) (c : Cpu) : gmap Z Z :=
  <[t + _PC := rt]> (<[t + _EAX := eax c]> (<[t + _ESP := esp c]> (<[t + _EBP := ebp c]> (<[t + _EDI := edi c]>
    (<[t + _ESI := esi c]> (<[t + _EDX := edx c]> (<[t + _ECX := ecx c]> (<[t + _EBX := ebx c]> (<[es := eax c]> (mem c)))))))))).

Ltac mem_solve :=
  cbn [mem set_mem set_reg get_reg eax ebx ecx edx esi edi ebp esp eip]; rewrite ?Z.add_0_r;
  repeat first [ rewrite lookup_insert_eq | rewrite lookup_insert_ne by (unfold apart, in_memory in *; lia) ];
  first [ eassumption | by eexists | done ].
Ltac move_solve := first
  [ apply move_load; [mem_solve|cbn; unfold in_memory in *; lia]
  | apply move_store; [mem_solve|cbn; unfold in_memory in *; lia]
  | apply move_from; [mem_solve|unfold in_memory in *; lia]
  | apply move_to; [mem_solve|unfold in_memory in *; lia] ].

Lemma switch_moves es c t1 t2 rt v1 v2 : can_switch es c t1 t2 rt v1 v2 ->
  exists pc, mem c !! esp v2 = Some pc /\
  moves (SWITCH_moves es) c = Ok (tt, MkCpu (eax v2) (ebx v2) (ecx v2) (edx v2) (esi v2) (edi v2) (ebp v2) (esp v2) (eip c)
    (<[esp v2 + 4 := eip v2]> (<[es := eax v2]> (saved es t1 rt c)))).
Proof.
  intros [(F0 & F1 & F2) (O1 & O2 & O3 & O4 & O5 & O6 & O7 & O8 & O9) (N1 & N2 & N3 & N4 & N5 & N6 & N7 & N8 & N9)
    Hes [[pc Hpc] Hs4] (R1 & R2 & R3 & R4 & R5) A1 [A2 A3] (A4 & A5 & A6) [A7 A8] A9].
  exists pc. split; [done|]. unfold saved. destruct c as [ax bx cx dx si di bp sp ip m].
  cbn [eax ebx ecx edx esi edi ebp esp eip mem] in *.
  unfold SWITCH_moves, SWITCH_code. cbn [omap list_omap moves]. unfold _ESP, _EAX, _EBX, _ECX, _EDX, _EBP, _ESI, _EDI, _PC in *.
  rewrite Z.add_0_r in *.
  do 26 (erewrite bind_ok by move_solve; cbn [mem set_mem set_reg get_reg eax ebx ecx edx esi edi ebp esp eip]; rewrite ?Z.add_0_r).
  done.
Qed.

(** The processor when [SWITCH] has returned to the context [v]. *)
Definition resumed (v : Cpu) (pc : Z) (m : gmap Z Z) : Cpu :=
  MkCpu (eax v) (ebx v) (ecx v) (edx v) (esi v) (edi v) (ebp v) (esp v + 4) pc m.
Definition switched (es t1 rt : Z) (c v2 : Cpu) : gmap Z Z := <[esp v2 + 4 := eip v2]> (<[es := eax v2]> (saved es t1 rt c)).

Lemma pop_run c v : mem c !! esp c = Some v -> in_memory (esp c) 8 -> pop c = Ok (v, set_reg ESP (u32 (esp c + 4)) c).
Proof.
  intros H [? ?]. unfold pop. erewrite bind_ok by reflexivity.
  erewrite bind_ok by (apply read_run; [done|unfold in_memory; lia]). done.
Qed.

Section Switch.
Context (fetch : Z -> option (instr * Z)) (es : Z) (c : Cpu) (t1 t2 rt : Z) (v1 v2 : Cpu).
Context (Hok : can_switch es c t1 t2 rt v1 v2) (Hcode : loaded fetch (eip c) (SWITCH_code es)).

Lemma switched_context : context_at (switched es t1 rt c v2) t1 (set_eip rt c).
Proof.
  destruct Hok as [_ _ _ _ _ (R1 & R2 & R3 & R4 & R5) A1 [A2 A3] (A4 & A5 & A6) [A7 A8] A9].
  unfold context_at, switched, saved, _ESP, _EAX, _EBX, _ECX, _EDX, _EBP, _ESI, _EDI, _PC.
  cbn [esp eax ebx ecx edx ebp esi edi eip set_eip]. unfold apart, in_memory in *.
  split_and!; repeat first [rewrite lookup_insert_eq | rewrite lookup_insert_ne by lia]; done.
Qed.

Lemma switched_other a : a + 4 <= t1 \/ t1 + 36 <= a -> a <> es -> a <> esp v2 + 4 -> switched es t1 rt c v2 !! a = mem c !! a.
Proof.
  intros H1 H2 H3. unfold switched, saved, _ESP, _EAX, _EBX, _ECX, _EDX, _EBP, _ESI, _EDI, _PC.
  by rewrite !lookup_insert_ne by lia.
Qed.

Lemma switch_run pc : mem c !! esp v2 = Some pc -> steps fetch 27 c = Ok (tt, resumed v2 pc (switched es t1 rt c v2)).
Proof.
  intros Hpc. destruct (switch_moves _ _ _ _ _ _ _ Hok) as (pc' & Hpc' & Hrun). assert (pc' = pc) as -> by congruence.
  rewrite switch_code in Hcode. destruct (moves_run fetch _ _ _ _ Hcode Hrun) as (next & Hs & (next' & Hf & _)).
  change 27%nat with (length (SWITCH_moves es) + 1)%nat. rewrite (steps_add _ _ _ _ _ Hs). cbn [steps].
  destruct Hok as [_ _ _ _ _ (R1 & R2 & R3 & R4 & R5) A1 [A2 A3] (A4 & A5 & A6) [A7 A8] A9]. unfold in_memory, apart in *.
  erewrite bind_ok; [reflexivity|]. unfold step. cbn [eip set_eip]. rewrite Hf. cbn [exec].
  erewrite bind_ok; [|apply pop_run; [|unfold in_memory; cbn; lia]].
  - cbn. rewrite u32_id by (unfold is_u32; lia). reflexivity.
  - cbn [mem set_eip esp]. change (switched es t1 rt c v2 !! esp v2 = Some pc). rewrite switched_other; [done|lia|lia|lia].
Qed.
End Switch.

(** ** New threads *)

(** The context that [StackAllocate] leaves in a thread. *)
Record new_context (sym : Symbols) (stack func arg : Z) (v : Cpu) : Prop := {
  nc_esp : esp v = stack + 4 * (StackSize - 4) - 4;
  nc_regs : ecx v = InterruptEnable sym /\ esi v = func /\ edx v = arg /\ edi v = ThreadFinish sym;
  nc_pc : eip v = ThreadRoot sym
}.

(** The object of the thread and its stack are there. *)
Record thread_memory (m : gmap Z Z) (t stack : Z) : Prop := {
  tm_object : forall i, 0 <= i < 9 -> is_Some (m !! (t + 4 * i));
  tm_stack : forall i, 0 <= i < StackSize -> is_Some (m !! (stack + 4 * i));
  tm_range : in_memory t 36 /\ in_memory stack (4 * StackSize);
  tm_apart : apart t 36 stack (4 * StackSize)
}.

Lemma stack_allocate_run sym t stack func arg c : thread_memory (mem c) t stack ->
  exists m v, StackAllocate sym t stack func arg c = Ok (tt, set_mem m c) /\ context_at m t v /\
    new_context sym stack func arg v /\ m !! esp v = Some (ThreadRoot sym) /\ m !! stack = Some STACK_FENCEPOST /\
    (forall a, is_Some (mem c !! a) -> is_Some (m !! a)).
Proof.
  intros [Ho Hs [[T1 T2] [S1 S2]] Ha]. unfold apart, StackSize in *.
  destruct (Ho 1) as [x1 E1]; [lia|]. destruct (Ho 2) as [x2 E2]; [lia|]. destruct (Ho 5) as [x5 E5]; [lia|].
  set (v := MkCpu x1 x2 (InterruptEnable sym) arg func (ThreadFinish sym) x5 (stack + 4 * (4 * 1024 - 4) - 4) (ThreadRoot sym) ∅).
  unfold StackAllocate, machineState, PCState, StartupPCState, InitialPCState, InitialArgState, WhenDonePCState, _PC, _ECX, _ESI, _EDX, _EDI, StackSize. cbv zeta.
  change (32 / 4 - 1) with 7. change (12 / 4 - 1) with 2. change (24 / 4 - 1) with 5. change (16 / 4 - 1) with 3. change (28 / 4 - 1) with 6.
  replace (t + 4 + 4 * 7) with (t + 32) by lia. replace (t + 4 + 4 * 2) with (t + 12) by lia.
  replace (t + 4 + 4 * 5) with (t + 24) by lia. replace (t + 4 + 4 * 3) with (t + 16) by lia.
  replace (t + 4 + 4 * 6) with (t + 28) by lia. set (top := stack + 4 * (4 * 1024 - 4) - 4) in *.
  assert (Hin : forall (m : gmap Z Z) a b x, is_Some (m !! b) -> is_Some (<[a := x]> m !! b)).
  { intros m a b x Hb. destruct (decide (a = b)) as [->|]; [by rewrite lookup_insert_eq|by rewrite lookup_insert_ne]. }
  assert (Hobj : forall i, 0 <= i < 9 -> forall k, k = t + 4 * i -> is_Some (mem c !! k) /\ in_memory k 4).
  { intros i Hi k ->. split; [by apply Ho|unfold in_memory; lia]. }
  assert (Htop : is_Some (mem c !! top) /\ in_memory top 4).
  { unfold top. split; [|unfold in_memory; lia]. replace (stack + _ - 4) with (stack + 4 * 4091) by lia. apply Hs. lia. }
  assert (Hbot : is_Some (mem c !! stack) /\ in_memory stack 4).
  { split; [|unfold in_memory; lia]. replace stack with (stack + 4 * 0) by lia. apply Hs. lia. }
  assert (Hw : forall a x m, is_Some (m !! a) -> in_memory a 4 -> write_word a x (set_mem m c) = Ok (tt, set_mem (<[a := x]> m) c)).
  { intros a x m H1 H2. by rewrite write_run. }
  destruct (Hobj 0 ltac:(lia) t ltac:(lia)) as [B0 I0]. destruct (Hobj 8 ltac:(lia) (t + 32) ltac:(lia)) as [B8 I8].
  destruct (Hobj 3 ltac:(lia) (t + 12) ltac:(lia)) as [B3 I3]. destruct (Hobj 6 ltac:(lia) (t + 24) ltac:(lia)) as [B6 I6].
  destruct (Hobj 4 ltac:(lia) (t + 16) ltac:(lia)) as [B4 I4]. destruct (Hobj 7 ltac:(lia) (t + 28) ltac:(lia)) as [B7 I7].
  eexists _, v. split.
  { rewrite (bind_ok _ _ _ tt (set_mem (<[top := ThreadRoot sym]> (mem c)) c)) by (destruct Htop; by apply write_run).
    do 6 (erewrite bind_ok by (apply Hw; [repeat apply Hin; first [done | apply Hbot]|first [done | apply Hbot]])).
    apply Hw; [by repeat apply Hin|done]. }
  unfold context_at, _ESP, _EAX, _EBX, _ECX, _EDX, _EBP, _ESI, _EDI, _PC.
  cbn [v esp eax ebx ecx edx ebp esi edi eip]. rewrite Z.add_0_r. assert (stack + 4 <= top) by (unfold top; lia).
  assert (apart t 36 top 4) by (unfold apart, top; lia). unfold apart in *. change (4 * 1) with 4 in E1. change (4 * 2) with 8 in E2. change (4 * 5) with 20 in E5.
  split_and!; try (repeat first [rewrite lookup_insert_eq | rewrite lookup_insert_ne by lia]; done).
  intros a Ha'. by repeat apply Hin.
Qed.

(** A called procedure that has returned: the caller's registers are as they were, and
    so is its stack, up to the address [top]. *)
Record returned (c c' : Cpu) (top : Z) : Prop := {
  rn_eip : mem c !! esp c = Some (eip c');
  rn_esp : esp c' = esp c + 4;
  rn_regs : ebx c' = ebx c /\ esi c' = esi c /\ edi c' = edi c /\ ebp c' = ebp c;
  rn_stack : forall a, esp c + 4 <= a < top -> mem c' !! a = mem c !! a;
  rn_there : forall a, is_Some (mem c !! a) -> is_Some (mem c' !! a)
}.

Lemma push_run c v : is_Some (mem c !! (esp c - 4)) -> in_memory (esp c - 4) 4 ->
  push v c = Ok (tt, set_mem (<[esp c - 4 := v]> (mem c)) (set_reg ESP (esp c - 4) c)).
Proof.
  intros H1 H2. unfold push. erewrite bind_ok by reflexivity. erewrite bind_ok by reflexivity.
  rewrite u32_id by (unfold in_memory, is_u32 in *; lia).
  exact (write_run (set_reg ESP (esp c - 4) c) (esp c - 4) v H1 H2).
Qed.
Lemma call_run fetch c r next l : loaded fetch (eip c) (call r :: l) -> r <> ESP -> fetch (eip c) = Some (call r, next) ->
  is_Some (mem c !! (esp c - 4)) -> in_memory (esp c - 4) 4 ->
  step fetch c = Ok (tt, set_eip (get_reg r c) (set_mem (<[esp c - 4 := next]> (mem c)) (set_reg ESP (esp c - 4) c))).
Proof.
  intros Hl Hr Hf H1 H2. unfold step. rewrite Hf. cbn [exec]. erewrite bind_ok by reflexivity. erewrite bind_ok by reflexivity.
  erewrite bind_ok by (apply push_run; done). unfold modify. do 2 f_equal.
Qed.

(** ** Properties *)

(** C12. The context switch on the i386: [SWITCH(t1, t2)] saves every register of the
    running thread in [t1], with the address it was called from, loads those saved in
    [t2] and goes on where [t2]'s stack says; apart from [t1]'s registers, its own
    variable and the slot of its first argument on [t2]'s stack, it leaves the memory as
    it is.  When some thread later switches to [t1], whose registers and return address
    nobody has touched, the first call of [SWITCH] returns, with every register as it
    was when it was called. *)
Theorem switch_resumes fetch es c t1 t2 rt v1 v2 :
  can_switch es c t1 t2 rt v1 v2 -> loaded fetch (eip c) (SWITCH_code es) ->
  exists pc c1, mem c !! esp v2 = Some pc /\ steps fetch 27 c = Ok (tt, c1) /\ c1 = resumed v2 pc (mem c1) /\
    context_at (mem c1) t1 (set_eip rt c) /\ mem c1 !! esp c = Some rt /\
    (forall a, a + 4 <= t1 \/ t1 + 36 <= a -> a <> es -> a <> esp v2 + 4 -> mem c1 !! a = mem c !! a) /\
    forall c2 t3 rt3 v3, eip c2 = eip c -> can_switch es c2 t3 t1 rt3 v3 (set_eip rt c) -> mem c2 !! esp c = mem c1 !! esp c ->
      exists c3, steps fetch 27 c2 = Ok (tt, c3) /\ c3 = resumed c rt (mem c3).
Proof.
  intros Hok Hcode. pose proof (cs_stack _ _ _ _ _ _ _ Hok) as [[pc Hpc] _]. exists pc, (resumed v2 pc (switched es t1 rt c v2)).
  assert (Hrt : switched es t1 rt c v2 !! esp c = Some rt).
  { rewrite (switched_other es c t1 rt v2); [apply Hok|..]; destruct Hok as [_ _ _ _ _ (R1 & R2 & R3 & R4 & R5) A1 [A2 A3] (A4 & A5 & A6) [A7 A8] A9];
      unfold apart, in_memory in *; lia. }
  split; [done|]. split; [by eapply switch_run|]. split; [done|]. split; [by eapply switched_context|]. split; [done|].
  split; [by intros; apply switched_other|]. intros c2 t3 rt3 v3 He Hok2 Hm. cbn [mem resumed] in Hm. rewrite Hrt in Hm.
  eexists. split; [eapply switch_run; [exact Hok2|by rewrite He|exact Hm]|]. done.
Qed.

Lemma step_ok fetch c i next c' : fetch (eip c) = Some (i, next) -> exec i (set_eip next c) = Ok (tt, c') -> step fetch c = Ok (tt, c').
Proof. intros Hf Hx. unfold step. by rewrite Hf. Qed.
Lemma push_step fetch c r next : fetch (eip c) = Some (pushl (Reg r), next) ->
  is_Some (mem c !! (esp c - 4)) -> in_memory (esp c - 4) 4 ->
  step fetch c = Ok (tt, set_mem (<[esp c - 4 := get_reg r (set_eip next c)]> (mem c)) (set_reg ESP (esp c - 4) (set_eip next c))).
Proof.
  intros Hf H1 H2. apply (step_ok _ _ _ _ _ Hf). cbn [exec get]. erewrite bind_ok by reflexivity.
  exact (push_run (set_eip next c) _ H1 H2).
Qed.

(** The first instructions of [ThreadRoot]. *)
Lemma root_starts fetch c e : loaded fetch (eip c) ThreadRoot_code -> esp c = e + 4 ->
  is_Some (mem c !! e) -> is_Some (mem c !! (e - 4)) -> is_Some (mem c !! (e - 8)) -> in_memory (e - 8) 12 ->
  exists c1 next, steps fetch 4 c = Ok (tt, c1) /\ eip c1 = ecx c /\ esp c1 = e - 8 /\ mem c1 !! (e - 4) = Some (edx c) /\
    mem c1 !! (e - 8) = Some next /\ loaded fetch next (drop 4 ThreadRoot_code) /\ esi c1 = esi c /\ edi c1 = edi c /\
    (forall a, is_Some (mem c !! a) -> is_Some (mem c1 !! a)).
Proof.
  intros (n1 & F1 & n2 & F2 & n3 & F3 & n4 & F4 & Hl) He H0 H4 H8 [R1 R2]. destruct c as [ax bx cx dx si di bp sp ip m].
  cbn [esp mem eip ecx edx esi edi] in *. subst sp.
  assert (Hin : forall (m : gmap Z Z) a b x, is_Some (m !! b) -> is_Some (<[a := x]> m !! b)).
  { intros m' a b x Hb. destruct (decide (a = b)) as [->|]; [by rewrite lookup_insert_eq|by rewrite lookup_insert_ne]. }
  set (m1 := <[e := bp]> m). set (m2 := <[e - 4 := dx]> m1). set (m3 := <[e - 8 := n4]> m2).
  exists (MkCpu ax bx cx dx si di e (e - 8) cx m3), n4. split.
  - cbn [steps]. rewrite (bind_ok (step fetch) _ _ tt (MkCpu ax bx cx dx si di bp e n1 m1)).
    2:{ erewrite push_step; [|exact F1|cbn; by replace (e + 4 - 4) with e by lia|cbn; unfold in_memory; lia].
        cbn. by replace (e + 4 - 4) with e by lia. }
    rewrite (bind_ok (step fetch) _ _ tt (MkCpu ax bx cx dx si di e e n2 m1)) by (by eapply step_ok).
    rewrite (bind_ok (step fetch) _ _ tt (MkCpu ax bx cx dx si di e (e - 4) n3 m2)).
    2:{ apply (push_step fetch (MkCpu ax bx cx dx si di e e n2 m1) InitialArg n3 F3); [by apply Hin|cbn; unfold in_memory; lia]. }
    erewrite bind_ok; [reflexivity|]. erewrite step_ok; [reflexivity|exact F4|]. cbn [exec].
    erewrite bind_ok by reflexivity. erewrite bind_ok by reflexivity.
    erewrite bind_ok by (apply push_run; cbn; [replace (e - 4 - 4) with (e - 8) by lia; by repeat apply Hin|unfold in_memory; lia]).
    cbn. by replace (e - 4 - 4) with (e - 8) by lia.
  - cbn [eip esp mem esi edi]. split_and!; try done.
    + unfold m3, m2. rewrite lookup_insert_ne by lia. by rewrite lookup_insert_eq.
    + apply lookup_insert_eq.
    + intros a Ha. by repeat apply Hin.
Qed.

(** A call from [ThreadRoot], with its argument still on the stack. *)
Lemma root_calls fetch c r l : loaded fetch (eip c) (call r :: l) -> r <> ESP -> is_Some (mem c !! (esp c - 4)) -> in_memory (esp c - 4) 4 ->
  exists c1 next, step fetch c = Ok (tt, c1) /\ eip c1 = get_reg r c /\ esp c1 = esp c - 4 /\ mem c1 !! (esp c - 4) = Some next /\
    loaded fetch next l /\ ebx c1 = ebx c /\ esi c1 = esi c /\ edi c1 = edi c /\ ebp c1 = ebp c /\
    (forall a, a <> esp c - 4 -> mem c1 !! a = mem c !! a).
Proof.
  intros (next & Hf & Hl) Hr H1 H2. eexists _, next. split; [by apply (call_run fetch c r next l); [exists next|..]|].
  cbn [eip esp mem ebx esi edi ebp set_eip set_mem set_reg]. split_and!; try done; [apply lookup_insert_eq|].
  intros a Ha. by apply lookup_insert_ne.
Qed.

(** C13. A new thread: [StackAllocate] prepares its stack and its saved registers so that
    the first [SWITCH] to it, by whatever thread and whenever, goes to [ThreadRoot],
    which calls [InterruptEnable], then the thread's function with its argument on the
    stack, then [ThreadFinish], when the procedures it calls keep the registers and the
    stack of their caller as the calling convention says. *)
Theorem new_thread_starts fetch es sym t stack func arg c0 c t1 rt v1 v2 m :
  thread_memory (mem c0) t stack -> StackAllocate sym t stack func arg c0 = Ok (tt, set_mem m c0) ->
  can_switch es c t1 t rt v1 v2 -> loaded fetch (eip c) (SWITCH_code es) -> loaded fetch (ThreadRoot sym) ThreadRoot_code ->
  apart es 4 stack (4 * StackSize) -> apart t1 36 stack (4 * StackSize) ->
  (forall a, t <= a < t + 36 \/ stack <= a < stack + 4 * StackSize -> mem c !! a = m !! a) ->
  let top := stack + 4 * StackSize in
  exists c1, steps fetch 31 c = Ok (tt, c1) /\ eip c1 = InterruptEnable sym /\
  forall c2, returned c1 c2 top ->
  exists c3, steps fetch 1 c2 = Ok (tt, c3) /\ eip c3 = func /\ mem c3 !! (esp c3 + 4) = Some arg /\
  forall c4, returned c3 c4 top ->
  exists c5, steps fetch 1 c4 = Ok (tt, c5) /\ eip c5 = ThreadFinish sym.
Proof.
  intros Htm Halloc Hok Hcode Hroot Hes Ht1 Hsame top.
  destruct (stack_allocate_run sym t stack func arg c0 Htm) as (m' & v & Hrun & Hv & Hnew & Hsp & _ & Hthere).
  assert (m' = m) as ->.
  { rewrite Halloc in Hrun. by injection Hrun as <-. }
  destruct Hnew as [Nesp (Ncx & Nsi & Ndx & Ndi) Npc]. destruct Htm as [_ Hst [_ [S1 S2]] _]. unfold StackSize in *.
  pose proof (cs_new _ _ _ _ _ _ _ Hok) as (C1 & _ & _ & C4 & C5 & _ & C7 & C8 & C9).
  destruct Hv as (V1 & _ & _ & V4 & V5 & _ & V7 & V8 & V9). unfold _ESP, _ECX, _EDX, _ESI, _EDI, _PC in *.
  rewrite Hsame in C1, C4, C5, C7, C8, C9 by lia. set (e := esp v2).
  assert (Hev : esp v = e) by (unfold e; congruence). assert (He : e = stack + 4 * 4091) by lia.
  assert (Hthere' : forall i, 4089 <= i <= 4091 -> is_Some (mem c !! (stack + 4 * i))).
  { intros i Hi. rewrite Hsame by lia. apply Hthere, Hst. lia. }
  assert (Hpc : mem c !! e = Some (ThreadRoot sym)) by (rewrite Hsame by lia; by rewrite <- Hev).
  pose proof (switch_run fetch es c t1 t rt v1 v2 Hok Hcode _ Hpc) as Hsw. set (c' := resumed v2 _ _) in Hsw.
  assert (Hmem : forall i, 4089 <= i <= 4091 -> is_Some (mem c' !! (stack + 4 * i))).
  { intros i Hi. cbn [c' mem resumed]. unfold apart in *. rewrite switched_other; [by apply Hthere'|lia..]. }
  destruct (root_starts fetch c' e) as (c1 & next & Hr & E1 & E2 & E3 & E4 & Hl & E5 & E6 & Hmem1); try done.
  { rewrite He. apply Hmem. lia. }
  { replace (e - 4) with (stack + 4 * 4090) by lia. apply Hmem. lia. }
  { replace (e - 8) with (stack + 4 * 4089) by lia. apply Hmem. lia. }
  { unfold in_memory in *. lia. }
  exists c1. split; [change 31%nat with (27 + 4)%nat; by rewrite (steps_add _ _ _ _ _ Hsw)|].
  split; [rewrite E1; cbn [c' resumed ecx]; congruence|]. intros c2 [Q1 Q2 (Q3 & Q4 & Q5 & Q6) Q7 Q8].
  assert (H8 : forall d, is_Some (mem c1 !! (e - 8)) -> (forall a, is_Some (mem c1 !! a) -> is_Some (mem d !! a)) ->
    esp d = e - 4 -> is_Some (mem d !! (esp d - 4)) /\ in_memory (esp d - 4) 4).
  { intros d Hx Hd ->. replace (e - 4 - 4) with (e - 8) by lia. split; [by apply Hd|unfold in_memory in *; lia]. }
  destruct (H8 c2 ltac:(by rewrite E4) Q8 ltac:(lia)) as [K1 K2]. rewrite E2, E4 in Q1. injection Q1 as Q1.
  destruct (root_calls fetch c2 InitialPC (drop 5 ThreadRoot_code)) as (c3 & n3 & Hs3 & G1 & G2 & G3 & Gl & G4 & G5 & G6 & G7 & G8);
    [by rewrite <- Q1|done|done|done|].
  exists c3. cbn [steps]. split; [by rewrite (bind_ok _ _ _ _ _ Hs3)|]. split; [rewrite G1; cbn [get_reg InitialPC c' resumed esi] in *; congruence|].
  split. { rewrite G8, Q7 by lia. replace (esp c3 + 4) with (e - 4) by lia. rewrite E3. cbn [c' resumed edx]. congruence. }
  intros c4 [P1 P2 (P3 & P4 & P5 & P6) P7 P8].
  assert (K : is_Some (mem c4 !! (esp c4 - 4)) /\ in_memory (esp c4 - 4) 4).
  { replace (esp c4 - 4) with (esp c2 - 4) by lia. split; [|done]. apply P8. by rewrite G3. }
  rewrite G2, G3 in P1. injection P1 as P1.
  destruct (root_calls fetch c4 WhenDonePC (drop 6 ThreadRoot_code)) as (c5 & n5 & Hs5 & D1 & _); [by rewrite <- P1|done|apply K|apply K|].
  exists c5. cbn [steps]. split; [by rewrite (bind_ok _ _ _ _ _ Hs5)|]. rewrite D1. cbn [get_reg WhenDonePC c' resumed edi] in *. congruence.
Qed.

(** ** Witnesses *)

(** [SWITCH] from address 1000 on, [ThreadRoot] from 2000 on. *)
Definition demo_fetch (a : Z) : option (instr * Z) :=
  (fun i => (i, a + 1)) <$> (if a <? 2000 then SWITCH_code 4000 !! Z.to_nat (a - 1000) else ThreadRoot_code !! Z.to_nat (a - 2000)).
Lemma demo_loaded : loaded demo_fetch 1000 (SWITCH_code 4000) /\ loaded demo_fetch 2000 ThreadRoot_code.
Proof. split; repeat (eexists; split; [vm_compute; reflexivity|]); exact I. Qed.

(** The thread at 100 calls [SWITCH] to the thread at 200, which is to go on at 88. *)
Definition demo_words : list (Z * Z) :=
  [(5000, 77); (5004, 100); (5008, 200); (4000, 0); (6000, 88); (6004, 0)] ++
  zip [100; 104; 108; 112; 116; 120; 124; 128; 132] (replicate 9 0) ++
  zip [200; 204; 208; 212; 216; 220; 224; 228; 232] [6000; 1; 2; 3; 4; 5; 6; 7; 88].
Definition demo_cpu : Cpu := MkCpu 11 12 13 14 15 16 17 5000 1000 (list_to_map demo_words).
Definition demo_old : Cpu := MkCpu 0 0 0 0 0 0 0 0 0 ∅.
Definition demo_new : Cpu := MkCpu 1 2 3 4 6 7 5 6000 88 ∅.

Lemma demo_can_switch : can_switch 4000 demo_cpu 100 200 77 demo_old demo_new.
Proof.
  split; unfold apart, in_memory; cbn [esp demo_cpu demo_new]; try lia.
  all: try (vm_compute; by split_and!).
  - exists 0. vm_compute. reflexivity.
  - split; [exists 88|exists 0]; vm_compute; reflexivity.
Qed.

Lemma switch_resumes_witness : exists c1, steps demo_fetch 27 demo_cpu = Ok (tt, c1) /\ eip c1 = 88 /\ edi c1 = 7 /\ esp c1 = 6004.
Proof.
  destruct (switch_resumes demo_fetch 4000 demo_cpu 100 200 77 demo_old demo_new demo_can_switch (proj1 demo_loaded))
    as (pc & c1 & Hpc & Hrun & Hc1 & _).
  exists c1. split; [exact Hrun|]. rewrite Hc1. cbn [resumed eip edi esp demo_new].
  assert (pc = 88) as -> by (vm_compute in Hpc; congruence). split; [reflexivity|]. split; reflexivity.
Defined.

(** The thread at 200 is new, with its stack at 8000; its function is at 3000, its
    argument 42. *)
Definition demo_symbols : Symbols := MkSymbols 2000 2500 2600.
Definition demo_before : Cpu :=
  set_mem (list_to_map (((fun i => (8000 + 4 * i, 0)) <$> seqZ 0 StackSize) ++ demo_words)) demo_cpu.
Definition memory_of (m : M Cpu unit) (c : Cpu) : gmap Z Z := match m c with Ok (_, c') => mem c' | Stop _ => mem c end.
Lemma memory_of_ok m c m' : m c = Ok (tt, set_mem m' c) -> m c = Ok (tt, set_mem (memory_of m c) c).
Proof. intros H. unfold memory_of. rewrite H. reflexivity. Qed.
Definition demo_forked : gmap Z Z := memory_of (StackAllocate demo_symbols 200 8000 3000 42) demo_before.
Definition demo_context : Cpu := MkCpu 1 2 2500 42 3000 2600 5 (8000 + 4 * 4091) 2000 ∅.

Lemma demo_memory : thread_memory (mem demo_before) 200 8000.
Proof.
  assert (H1 : forallb (fun i => bool_decide (is_Some (mem demo_before !! (200 + 4 * i)))) (seqZ 0 9) = true) by (vm_compute; reflexivity).
  assert (H2 : forallb (fun i => bool_decide (is_Some (mem demo_before !! (8000 + 4 * i)))) (seqZ 0 StackSize) = true) by (vm_compute; reflexivity).
  rewrite forallb_forall in H1, H2. split; [| |unfold in_memory, StackSize; lia|unfold apart, StackSize; lia].
  - intros i Hi. eapply bool_decide_eq_true_1, H1, list_elem_of_In, elem_of_seqZ. lia.
  - intros i Hi. eapply bool_decide_eq_true_1, H2, list_elem_of_In, elem_of_seqZ. lia.
Qed.
Lemma demo_forks : StackAllocate demo_symbols 200 8000 3000 42 demo_before = Ok (tt, set_mem demo_forked demo_before).
Proof.
  destruct (stack_allocate_run demo_symbols 200 8000 3000 42 demo_before demo_memory) as (m & v & Hrun & _).
  exact (memory_of_ok _ _ _ Hrun).
Qed.
Lemma demo_new_can_start : can_switch 4000 (set_mem demo_forked demo_cpu) 100 200 77 demo_old demo_context.
Proof.
  split; unfold apart, in_memory; cbn [esp demo_cpu set_mem demo_context]; try lia.
  all: try (vm_compute; by split_and!).
  - exists 0. vm_compute. reflexivity.
  - split; [exists 2000|exists 0]; vm_compute; reflexivity.
Qed.

Lemma new_thread_starts_witness :
  exists c1, steps demo_fetch 31 (set_mem demo_forked demo_cpu) = Ok (tt, c1) /\ eip c1 = 2500.
Proof.
  destruct (new_thread_starts demo_fetch 4000 demo_symbols 200 8000 3000 42 demo_before (set_mem demo_forked demo_cpu) 100 77
    demo_old demo_context demo_forked demo_memory demo_forks demo_new_can_start (proj1 demo_loaded) (proj2 demo_loaded)) as (c1 & Hrun & He & _).
  - unfold apart, StackSize. lia.
  - unfold apart, StackSize. lia.
  - intros a _. reflexivity.
  - exists c1. split; [exact Hrun|exact He].
Defined.
