(* ===== verification/SwitchRisc.v ===== *)
(** * The context switch on the other hosts: [threads/switch.c] for MIPS and PA-RISC

    The routines of [switch.c] for the DEC MIPS and for the HP PA-RISC ([HOST_SNAKE]), with
    the part of [Thread::StackAllocate] for them.  Both processors load and store words,
    copy registers with [or], and execute the instruction that follows a branch before
    they go to its target; the model has these.  The MIPS assembler keeps that from the
    programmer: it puts a [nop] behind a jump.  The theorems are those of [Switch.v] for
    the i386. *)

From stdpp Require Import functions.
From S2P Require Import Prelude.
From S2P Require Import Switch.

(** ** The processor *)

(** Register 0 is zero; [pc] is the instruction to execute and [npc] the one after it. *)
Record Risc : Type := MkRisc { gpr : Z -> Z; pc : Z; npc : Z; words : gmap Z Z }.

(** [sw]/[stw], [lw]/[ldw], [or], [j]/[bv], [jal]/[ble] through a register, [nop]. *)
Inductive rinstr : Type :=
| Store (r off b : Z) | Load (r off b : Z) | Or (rd rs rt : Z) | Branch (r : Z) | BranchLink (r : Z) | Nop.

Definition set_gpr (r v : Z) (c : Risc) : Risc := if r =? 0 then c else MkRisc (<[r := v]> (gpr c)) (pc c) (npc c) (words c).
Definition set_npc (a : Z) (c : Risc) : Risc := MkRisc (gpr c) (pc c) a (words c).

(** The instruction at the address [here], once [pc] and [npc] were moved on; the link
    register is 31, and the link is the address behind the instruction after the
    branch. *)
Definition execute (here : Z) (i : rinstr) (c : Risc) : res Risc :=
  match i with
  | Store r off b =>
      let a := u32 (gpr c b + off) in
      match words c !! a with Some _ => Ok (MkRisc (gpr c) (pc c) (npc c) (<[a := gpr c r]> (words c))) | None => Stop Undefined end
  | Load r off b => match words c !! u32 (gpr c b + off) with Some v => Ok (set_gpr r v c) | None => Stop Undefined end
  | Or rd rs rt => Ok (set_gpr rd (Z.lor (gpr c rs) (gpr c rt)) c)
  | Branch r => Ok (set_npc (gpr c r) c)
  | BranchLink r => Ok (set_gpr 31 (u32 (here + 8)) (set_npc (gpr c r) c))
  | Nop => Ok c
  end.

Section Code.
Context (fetch : Z -> option rinstr).
Definition rstep (c : Risc) : res Risc :=
  match fetch (pc c) with
  | Some i => execute (pc c) i (MkRisc (gpr c) (npc c) (u32 (npc c + 4)) (words c))
  | None => Stop Undefined
  end.
Fixpoint rsteps (n : nat) (c : Risc) : res Risc :=
  match n with O => Ok c | S n => match rstep c with Ok c => rsteps n c | Stop w => Stop w end end.

(** The instructions [l] are at the address [a]. *)
Fixpoint code_at (a : Z) (l : list rinstr) : Prop :=
  match l with [] => True | i :: l => fetch a = Some i /\ code_at (u32 (a + 4)) l end.
End Code.

(** ** The routines *)

Inductive host : Type := HOST_MIPS | HOST_SNAKE.

(** [switch.h]: the offsets from the start of the thread. *)
Definition SP : Z := 0.
Definition S0 : Z := 4.
Definition S1 : Z := 8.
Definition S2 : Z := 12.
Definition S3 : Z := 16.
Definition FP : Z := 36.
Definition PC (h : host) : Z := match h with HOST_MIPS => 40 | HOST_SNAKE => 68 end.

(** The registers of [ThreadRoot]. *)
Definition rInitialPC (h : host) : Z := match h with HOST_MIPS => 16 | HOST_SNAKE => 3 end.
Definition rInitialArg (h : host) : Z := match h with HOST_MIPS => 17 | HOST_SNAKE => 4 end.
Definition rWhenDonePC (h : host) : Z := match h with HOST_MIPS => 18 | HOST_SNAKE => 5 end.
Definition rStartupPC (h : host) : Z := match h with HOST_MIPS => 19 | HOST_SNAKE => 6 end.

(** The registers of a call: its two first arguments and the return address. *)
Definition arg0 (h : host) : Z := match h with HOST_MIPS => 4 | HOST_SNAKE => 26 end.
Definition arg1 (h : host) : Z := match h with HOST_MIPS => 5 | HOST_SNAKE => 25 end.
Definition ra (h : host) : Z := match h with HOST_MIPS => 31 | HOST_SNAKE => 2 end.

Definition mips_ThreadRoot : list rinstr :=
  [Or 30 0 0;
   BranchLink (rStartupPC HOST_MIPS); Nop;
   Or 4 (rInitialArg HOST_MIPS) 0;
   BranchLink (rInitialPC HOST_MIPS); Nop;
   BranchLink (rWhenDonePC HOST_MIPS); Nop].
Definition mips_SWITCH : list rinstr :=
  [Store 29 SP 4;
   Store 16 S0 4; Store 17 S1 4; Store 18 S2 4; Store 19 S3 4; Store 20 20 4; Store 21 24 4; Store 22 28 4; Store 23 32 4;
   Store 30 FP 4;
   Store 31 (PC HOST_MIPS) 4;
   Load 29 SP 5;
   Load 16 S0 5; Load 17 S1 5; Load 18 S2 5; Load 19 S3 5; Load 20 20 5; Load 21 24 5; Load 22 28 5; Load 23 32 5;
   Load 30 FP 5;
   Load 31 (PC HOST_MIPS) 5;
   Branch 31; Nop].

Definition snake_ThreadRoot : list rinstr :=
  [BranchLink (rStartupPC HOST_SNAKE); Or 2 31 0;
   Or 26 (rInitialArg HOST_SNAKE) 0;
   BranchLink (rInitialPC HOST_SNAKE); Or 2 31 0;
   BranchLink (rWhenDonePC HOST_SNAKE); Or 2 31 0].
Definition snake_SWITCH : list rinstr :=
  [Store 30 SP 26;
   Store 3 S0 26; Store 4 S1 26; Store 5 S2 26; Store 6 S3 26; Store 7 20 26; Store 8 24 26; Store 9 28 26; Store 10 32 26;
   Store 11 36 26; Store 12 40 26; Store 13 44 26; Store 14 48 26; Store 15 52 26; Store 16 56 26; Store 17 60 26; Store 18 64 26;
   Store 2 (PC HOST_SNAKE) 26;
   Load 30 SP 25;
   Load 3 S0 25; Load 4 S1 25; Load 5 S2 25; Load 6 S3 25; Load 7 20 25; Load 8 24 25; Load 9 28 25; Load 10 32 25;
   Load 11 36 25; Load 12 40 25; Load 13 44 25; Load 14 48 25; Load 15 52 25; Load 16 56 25; Load 17 60 25;
   Load 2 (PC HOST_SNAKE) 25;
   Branch 2;
   Load 18 64 25].

Definition ThreadRoot_of (h : host) : list rinstr := match h with HOST_MIPS => mips_ThreadRoot | HOST_SNAKE => snake_ThreadRoot end.
Definition SWITCH_of (h : host) : list rinstr := match h with HOST_MIPS => mips_SWITCH | HOST_SNAKE => snake_SWITCH end.

(** [Thread::StackAllocate]: on PA-RISC the stack grows upwards. *)
Definition put_word (a v : Z) (m : gmap Z Z) : res (gmap Z Z) :=
  match m !! u32 a with Some _ => Ok (<[u32 a := v]> m) | None => Stop Undefined end.
Fixpoint put_words (l : list (Z * Z)) (m : gmap Z Z) : res (gmap Z Z) :=
  match l with [] => Ok m | (a, v) :: l => match put_word a v m with Ok m => put_words l m | Stop w => Stop w end end.
Definition state_of (off : Z) : Z := off / 4 - 1.
Definition StackAllocate_of (h : host) (sym : Symbols) (t stack func arg : Z) : gmap Z Z -> res (gmap Z Z) :=
  put_words
    (match h with
     | HOST_SNAKE => [(t, stack + 4 * 16); (stack + 4 * (StackSize - 1), STACK_FENCEPOST)]
     | HOST_MIPS => [(t, stack + 4 * (StackSize - 4)); (stack, STACK_FENCEPOST)]
     end ++
     [(machineState t (state_of (PC h)), ThreadRoot sym);
      (machineState t (state_of S3), InterruptEnable sym);
      (machineState t (state_of S0), func);
      (machineState t (state_of S1), arg);
      (machineState t (state_of S2), ThreadFinish sym)]).

(** ** Saving and restoring *)

Definition stores (b : Z) (l : list (Z * Z)) : list rinstr := (fun p => Store (fst p) (snd p) b) <$> l.
Definition loads (b : Z) (l : list (Z * Z)) : list rinstr := (fun p => Load (fst p) (snd p) b) <$> l.

(** What [SWITCH] saves of a thread, register by register, and where. *)
Definition saved_of (h : host) : list (Z * Z) :=
  match h with
  | HOST_MIPS => [(29, 0); (16, 4); (17, 8); (18, 12); (19, 16); (20, 20); (21, 24); (22, 28); (23, 32); (30, 36); (31, 40)]
  | HOST_SNAKE => [(30, 0); (3, 4); (4, 8); (5, 12); (6, 16); (7, 20); (8, 24); (9, 28); (10, 32); (11, 36); (12, 40); (13, 44);
      (14, 48); (15, 52); (16, 56); (17, 60); (18, 64); (2, 68)]
  end.
(** Loaded before the branch, and behind it. *)
Definition early_of (h : host) : list (Z * Z) :=
  match h with HOST_MIPS => saved_of HOST_MIPS | HOST_SNAKE => take 16 (saved_of HOST_SNAKE) ++ [(2, 68)] end.
Definition late_of (h : host) : list (Z * Z) := match h with HOST_MIPS => [] | HOST_SNAKE => [(18, 64)] end.
Definition delay_of (h : host) : rinstr := match h with HOST_MIPS => Nop | HOST_SNAKE => Load 18 64 25 end.

Lemma switch_shape h : SWITCH_of h = stores (arg0 h) (saved_of h) ++ loads (arg1 h) (early_of h) ++ [Branch (ra h); delay_of h].
Proof. by destruct h. Qed.

Definition store_all (t : Z) (g : Z -> Z) (l : list (Z * Z)) (m : gmap Z Z) : gmap Z Z :=
  foldl (fun m p => <[t + snd p := g (fst p)]> m) m l.
Definition load_all (t : Z) (m : gmap Z Z) (l : list (Z * Z)) (g : Z -> Z) : Z -> Z :=
  foldl (fun g p => <[fst p := m !!! (t + snd p)]> g) g l.

Lemma store_all_in t g l m r off : NoDup (snd <$> l) -> (r, off) ∈ l -> store_all t g l m !! (t + off) = Some (g r).
Proof.
  unfold store_all. induction l as [|[r' off'] l IH] using rev_ind; [by intros _ ?%elem_of_nil|].
  rewrite fmap_app, foldl_snoc. cbn [fmap list_fmap fst snd]. intros (Hnd & Hni & _)%NoDup_app. rewrite elem_of_app, list_elem_of_singleton.
  intros [Hin|[= -> ->]]; [|apply lookup_insert_eq]. rewrite lookup_insert_ne; [by apply IH|].
  intros E. apply (Hni off); [by apply (list_elem_of_fmap_2 snd _ (r, off))|]. apply list_elem_of_singleton. lia.
Qed.
Lemma store_all_out t g l m a : (forall off, off ∈ snd <$> l -> a <> t + off) -> store_all t g l m !! a = m !! a.
Proof.
  unfold store_all. induction l as [|[r off] l IH] using rev_ind; [done|]. rewrite fmap_app, foldl_snoc. intros Hout. cbn [fst snd].
  rewrite lookup_insert_ne; [apply IH; intros o Ho|symmetry]; apply Hout; rewrite elem_of_app; [by left|right; by apply list_elem_of_singleton].
Qed.
Lemma load_all_in t m l g r off : NoDup (fst <$> l) -> (r, off) ∈ l -> load_all t m l g r = m !!! (t + off).
Proof.
  unfold load_all. induction l as [|[r' off'] l IH] using rev_ind; [by intros _ ?%elem_of_nil|].
  rewrite fmap_app, foldl_snoc. cbn [fmap list_fmap fst snd]. intros (Hnd & Hni & _)%NoDup_app. rewrite elem_of_app, list_elem_of_singleton.
  intros [Hin|[= -> ->]]; [|apply fn_lookup_insert]. rewrite fn_lookup_insert_ne; [by apply IH|].
  intros ->. apply (Hni r); [by apply (list_elem_of_fmap_2 fst _ (r, off))|by apply list_elem_of_singleton].
Qed.
Lemma load_all_out t m l g r : r ∉ fst <$> l -> load_all t m l g r = g r.
Proof.
  unfold load_all. induction l as [|[r' off'] l IH] using rev_ind; [done|]. rewrite fmap_app, foldl_snoc, elem_of_app. intros Hout. cbn [fst snd].
  rewrite fn_lookup_insert_ne; [apply IH; tauto|]. intros ->. apply Hout. right. by apply list_elem_of_singleton.
Qed.

(** The words of a thread that [SWITCH] uses are in memory. *)
Definition area (m : gmap Z Z) (t : Z) (l : list (Z * Z)) : Prop :=
  Forall (fun p => is_Some (m !! (t + snd p)) /\ is_u32 (t + snd p)) l.

Section Runs.
Context (fetch : Z -> option rinstr).

Lemma rsteps_add n k c c1 : rsteps fetch n c = Ok c1 -> rsteps fetch (n + k) c = rsteps fetch k c1.
Proof.
  revert c. induction n as [|n IH]; intros c; [by intros [= ->]|]. cbn [rsteps Nat.add].
  destruct (rstep fetch c); [apply IH|done].
Qed.

Lemma stores_run b l rest c : code_at fetch (pc c) (stores b l ++ rest) -> npc c = u32 (pc c + 4) -> area (words c) (gpr c b) l ->
  exists a, rsteps fetch (length l) c = Ok (MkRisc (gpr c) a (u32 (a + 4)) (store_all (gpr c b) (gpr c) l (words c))) /\ code_at fetch a rest.
Proof.
  revert c. induction l as [|[r off] l IH]; intros [g a n m] Hc Hn Hl; cbn [pc npc gpr words] in *.
  { exists a. by subst n. }
  inversion_clear Hl as [|? ? [[x Hx] Hu] Hl']. destruct Hc as [Hf Hc]. cbn [fst snd] in *. cbn [rsteps length]. unfold rstep. cbn [pc npc gpr words].
  rewrite Hf. cbn [execute gpr words pc npc]. rewrite u32_id, Hx by done. rewrite Hn.
  destruct (IH (MkRisc g (u32 (a + 4)) (u32 (u32 (a + 4) + 4)) (<[g b + off := g r]> m))) as (a' & Hrun & Hc'); cbn [pc npc gpr words]; [done|done| |].
  - eapply Forall_impl; [exact Hl'|]. intros p [Hp1 Hp2]. split; [|done]. apply lookup_insert_is_Some. destruct (decide (g b + off = g b + snd p)); [by left|by right].
  - by exists a'.
Qed.

Lemma loads_run b l rest c : code_at fetch (pc c) (loads b l ++ rest) -> npc c = u32 (pc c + 4) -> area (words c) (gpr c b) l ->
  b ∉ fst <$> l -> 0 ∉ fst <$> l ->
  exists a, rsteps fetch (length l) c = Ok (MkRisc (load_all (gpr c b) (words c) l (gpr c)) a (u32 (a + 4)) (words c)) /\ code_at fetch a rest.
Proof.
  revert c. induction l as [|[r off] l IH]; intros [g a n m] Hc Hn Hl Hb H0; cbn [pc npc gpr words] in *.
  { exists a. by subst n. }
  inversion_clear Hl as [|? ? [[x Hx] Hu] Hl']. destruct Hc as [Hf Hc]. cbn [fst snd] in *. rewrite fmap_cons, not_elem_of_cons in Hb, H0.
  cbn [fst] in *. cbn [rsteps length]. unfold rstep. cbn [pc npc gpr words].
  rewrite Hf. cbn [execute gpr words pc npc]. rewrite u32_id, Hx by done. rewrite Hn. unfold set_gpr. cbn [pc npc gpr words].
  destruct (Z.eqb_spec r 0) as [->|_]; [lia|]. assert (Hgb : <[r := x]> g b = g b) by (apply fn_lookup_insert_ne; lia).
  destruct (IH (MkRisc (<[r := x]> g) (u32 (a + 4)) (u32 (u32 (a + 4) + 4)) m)) as (a' & Hrun & Hc'); cbn [pc npc gpr words]; rewrite ?Hgb; try tauto.
  cbn [pc npc gpr words] in Hrun. rewrite Hgb in Hrun. exists a'. split; [|done]. rewrite Hrun. unfold load_all. cbn [foldl fst snd].
  by rewrite (lookup_total_correct _ _ _ Hx).
Qed.
End Runs.

(** ** [SWITCH] *)

(** [SWITCH(t1, t2)] has been called, and the words it uses are in memory. *)
Record can_switch_on (h : host) (c : Risc) (t1 t2 : Z) : Prop := {
  co_args : gpr c (arg0 h) = t1 /\ gpr c (arg1 h) = t2;
  co_next : npc c = u32 (pc c + 4);
  co_old : area (words c) t1 (saved_of h);
  co_new : area (words c) t2 (saved_of h);
  co_apart : apart t1 (PC h + 4) t2 (PC h + 4)
}.

(** The processor when [SWITCH(t1, t2)] has returned. *)
Definition switched_to (h : host) (t1 t2 : Z) (c : Risc) : Risc :=
  let p := words c !!! (t2 + PC h) in
  MkRisc (load_all t2 (words c) (early_of h ++ late_of h) (gpr c)) p (u32 (p + 4)) (store_all t1 (gpr c) (saved_of h) (words c)).

Lemma saved_facts h : NoDup (snd <$> saved_of h) /\ Forall (fun p => 0 <= snd p <= PC h) (saved_of h) /\
  NoDup (fst <$> (early_of h ++ late_of h)) /\ (early_of h ++ late_of h ≡ₚ saved_of h) /\ (ra h, PC h) ∈ early_of h /\
  arg1 h ∉ fst <$> (early_of h ++ late_of h) /\ 0 ∉ fst <$> (early_of h ++ late_of h).
Proof. split_and!; destruct h; apply (bool_decide_unpack _); vm_compute; reflexivity. Qed.

Lemma area_apart h m t1 t2 g : apart t1 (PC h + 4) t2 (PC h + 4) -> forall off, 0 <= off <= PC h ->
  store_all t1 g (saved_of h) m !! (t2 + off) = m !! (t2 + off).
Proof.
  intros Ha off Hoff. apply store_all_out. intros o (p & -> & Hp)%list_elem_of_fmap. destruct (saved_facts h) as (_ & Hr & _).
  rewrite Forall_forall in Hr. specialize (Hr p Hp). unfold apart in Ha. lia.
Qed.

Lemma area_sub m t l k : k ⊆ l -> area m t l -> area m t k.
Proof. unfold area. rewrite !Forall_forall. auto. Qed.

Lemma load_all_ext t m m' l g : (forall p, p ∈ l -> m' !! (t + snd p) = m !! (t + snd p)) -> load_all t m' l g = load_all t m l g.
Proof.
  unfold load_all. induction l as [|p l IH] using rev_ind; [done|]. rewrite !foldl_snoc. intros Hl. rewrite IH by (intros q Hq; apply Hl; set_solver).
  unfold lookup_total, map_lookup_total. rewrite Hl; [done|]. rewrite elem_of_app, list_elem_of_singleton. by right.
Qed.

(** The instruction behind the branch. *)
Lemma delay_run h here g p n m : area m (g (arg1 h)) (late_of h) ->
  execute here (delay_of h) (MkRisc g p n m) = Ok (MkRisc (load_all (g (arg1 h)) m (late_of h) g) p n m).
Proof.
  destruct h; [done|]. intros Ha. inversion_clear Ha as [|? ? [[x Hx] Hu] _]. cbn [fst snd] in *. cbn [execute delay_of words gpr].
  change (arg1 HOST_SNAKE) with 25 in *. rewrite u32_id, Hx by done. cbn [late_of load_all foldl fst snd]. by rewrite (lookup_total_correct _ _ _ Hx).
Qed.

Section Switch.
Context (fetch : Z -> option rinstr) (h : host) (c : Risc) (t1 t2 : Z).
Context (Hok : can_switch_on h c t1 t2) (Hcode : code_at fetch (pc c) (SWITCH_of h)).

Lemma switch_on_run : rsteps fetch (length (SWITCH_of h)) c = Ok (switched_to h t1 t2 c).
Proof.
  destruct Hok as [[H1 H2] Hn Ho Hw Ha]. destruct (saved_facts h) as (F1 & F2 & F3 & F4 & F5 & F6 & F7).
  rewrite switch_shape in Hcode |- *. rewrite fmap_app, not_elem_of_app in F6, F7. rewrite <- H1, <- H2 in *.
  destruct (stores_run fetch (arg0 h) (saved_of h) _ c Hcode Hn Ho) as (a1 & Hr1 & Hc1).
  set (m := store_all _ _ _ _) in Hr1.
  assert (Hm : forall p, p ∈ early_of h ++ late_of h -> m !! (gpr c (arg1 h) + snd p) = words c !! (gpr c (arg1 h) + snd p)).
  { intros p Hp. apply area_apart; [done|]. rewrite F4 in Hp. rewrite Forall_forall in F2. by apply F2. }
  assert (Harea : area m (gpr c (arg1 h)) (early_of h ++ late_of h)).
  { unfold area in *. rewrite Forall_forall in *. intros p Hp. rewrite Hm by done. apply Hw. by rewrite <- F4. }
  destruct (loads_run fetch (arg1 h) (early_of h) _ (MkRisc (gpr c) a1 (u32 (a1 + 4)) m) Hc1 eq_refl) as (a2 & Hr2 & Hb & Hd & _);
    [by apply Forall_app in Harea as [? _]|tauto|tauto|]. cbn [gpr words] in Hr2. set (g := load_all _ _ _ _) in Hr2.
  rewrite !length_app. unfold stores, loads at 1. rewrite !length_fmap.
  rewrite (rsteps_add _ _ _ _ _ Hr1), (rsteps_add _ _ _ _ _ Hr2). cbn [length rsteps]. unfold rstep. cbn [pc npc gpr words]. rewrite Hb.
  cbn [execute pc npc gpr words set_npc]. rewrite Hd.
  assert (Hg1 : g (arg1 h) = gpr c (arg1 h)) by (apply load_all_out; tauto).
  rewrite delay_run by (rewrite Hg1; by apply Forall_app in Harea as [_ ?]).
  assert (Hpc : g (ra h) = words c !!! (gpr c (arg1 h) + PC h)).
  { unfold g. rewrite fmap_app in F3. apply NoDup_app in F3 as (F3 & _). rewrite (load_all_in _ _ _ _ _ _ F3 F5).
    assert (Hp : (ra h, PC h) ∈ early_of h ++ late_of h) by (apply elem_of_app; by left). specialize (Hm _ Hp). cbn [snd] in Hm.
    unfold lookup_total, map_lookup_total. by rewrite Hm. }
  unfold switched_to. rewrite Hpc, Hg1, <- (load_all_ext _ _ _ _ (gpr c) Hm). unfold load_all at 2. by rewrite foldl_app.
Qed.

(** The registers of [t2] and the memory afterwards. *)
Lemma switched_registers r off : (r, off) ∈ saved_of h -> words c !! (t2 + off) = Some (gpr (switched_to h t1 t2 c) r).
Proof.
  intros Hin. destruct (saved_facts h) as (F1 & F2 & F3 & F4 & _). cbn [gpr switched_to].
  rewrite (load_all_in _ _ _ _ r off F3) by (by rewrite F4). destruct Hok as [_ _ _ Hw _]. unfold area in Hw. rewrite Forall_forall in Hw.
  destruct (Hw _ Hin) as [[x Hx] _]. cbn [snd] in Hx. by rewrite (lookup_total_correct _ _ _ Hx).
Qed.
Lemma switched_kept r : r ∉ fst <$> saved_of h -> gpr (switched_to h t1 t2 c) r = gpr c r.
Proof. intros Hr. destruct (saved_facts h) as (_ & _ & _ & F4 & _). apply load_all_out. by rewrite F4. Qed.
Lemma switched_saves r off : (r, off) ∈ saved_of h -> words (switched_to h t1 t2 c) !! (t1 + off) = Some (gpr c r).
Proof. apply store_all_in, saved_facts. Qed.
Lemma switched_memory a : a < t1 \/ t1 + PC h < a -> words (switched_to h t1 t2 c) !! a = words c !! a.
Proof.
  intros Ha. apply store_all_out. intros o (p & -> & Hp)%list_elem_of_fmap. destruct (saved_facts h) as (_ & Hr & _).
  rewrite Forall_forall in Hr. specialize (Hr p Hp). lia.
Qed.
End Switch.

Lemma ra_saved h : (ra h, PC h) ∈ saved_of h.
Proof. destruct h; apply (bool_decide_unpack _); vm_compute; reflexivity. Qed.

(** The context switch on MIPS and on PA-RISC: [SWITCH(t1, t2)] saves the stack
    pointer, the registers a procedure has to keep and the return address in [t1],
    loads those saved in [t2] and goes on at [t2]'s return address; the other registers
    and the rest of memory stay as they are.  When some thread later switches to [t1],
    whose words nobody has touched, the first call of [SWITCH] returns, with those
    registers as they were when it was called. *)
Lemma switch_resumes_on h fetch c t1 t2 :
  can_switch_on h c t1 t2 -> code_at fetch (pc c) (SWITCH_of h) ->
  let n := length (SWITCH_of h) in
  exists c1, rsteps fetch n c = Ok c1 /\ words c !! (t2 + PC h) = Some (pc c1) /\ npc c1 = u32 (pc c1 + 4) /\
    (forall r off, (r, off) ∈ saved_of h -> words c !! (t2 + off) = Some (gpr c1 r) /\ words c1 !! (t1 + off) = Some (gpr c r)) /\
    (forall r, r ∉ fst <$> saved_of h -> gpr c1 r = gpr c r) /\
    (forall a, a < t1 \/ t1 + PC h < a -> words c1 !! a = words c !! a) /\
    forall c2 t3, pc c2 = pc c -> can_switch_on h c2 t3 t1 ->
      (forall off, off ∈ snd <$> saved_of h -> words c2 !! (t1 + off) = words c1 !! (t1 + off)) ->
      exists c3, rsteps fetch n c2 = Ok c3 /\ pc c3 = gpr c (ra h) /\ npc c3 = u32 (pc c3 + 4) /\
        forall r, r ∈ fst <$> saved_of h -> gpr c3 r = gpr c r.
Proof.
  intros Hok Hcode n. exists (switched_to h t1 t2 c).
  pose proof (fun r off => switched_registers h c t1 t2 Hok r off) as Hr. pose proof (fun r off => switched_saves h c t1 t2 r off) as Hs.
  assert (Hpc : words c !! (t2 + PC h) = Some (pc (switched_to h t1 t2 c))).
  { pose proof (Hr _ _ (ra_saved h)) as Hx. rewrite Hx. cbn [pc switched_to]. by rewrite (lookup_total_correct _ _ _ Hx). }
  split_and!; [by apply switch_on_run|exact Hpc|done|by split; [apply Hr|apply Hs]|by apply switched_kept|by apply switched_memory|].
  intros c2 t3 Hp Hok2 Hsame. exists (switched_to h t3 t1 c2). split; [apply switch_on_run; [done|by rewrite Hp]|].
  assert (Hback : forall r off, (r, off) ∈ saved_of h -> words c2 !! (t1 + off) = Some (gpr c r)).
  { intros r off Hin. rewrite Hsame by (by apply (list_elem_of_fmap_2 snd _ (r, off))). by apply Hs. }
  split_and!; [|done|].
  - cbn [pc switched_to]. by rewrite (lookup_total_correct _ _ _ (Hback _ _ (ra_saved h))).
  - intros r ([r' off] & -> & Hin)%list_elem_of_fmap. pose proof (switched_registers h c2 t3 t1 Hok2 _ _ Hin) as Hx.
    rewrite (Hback _ _ Hin) in Hx. by injection Hx.
Qed.

(** ** [ThreadRoot] *)

Definition sp (h : host) : Z := match h with HOST_MIPS => 29 | HOST_SNAKE => 30 end.
Definition stack_top (h : host) (stack : Z) : Z :=
  match h with HOST_MIPS => stack + 4 * (StackSize - 4) | HOST_SNAKE => stack + 4 * 16 end.

Lemma put_words_run l m m' : put_words l m = Ok m' -> m' = foldl (fun m p => <[u32 (fst p) := snd p]> m) m l.
Proof.
  revert m. induction l as [|[a v] l IH]; intros m; cbn [put_words foldl fst snd]; [by intros [= ->]|]. unfold put_word.
  destruct (m !! u32 a); [apply IH|done].
Qed.

(** What [StackAllocate] leaves in the object of the new thread. *)
Lemma stack_allocate_on h sym t stack func arg m0 m :
  StackAllocate_of h sym t stack func arg m0 = Ok m ->
  in_memory t (PC h + 4) -> in_memory stack (4 * StackSize) -> apart t (PC h + 4) stack (4 * StackSize) ->
  m !! (t + SP) = Some (stack_top h stack) /\ m !! (t + PC h) = Some (ThreadRoot sym) /\ m !! (t + S3) = Some (InterruptEnable sym) /\
  m !! (t + S0) = Some func /\ m !! (t + S1) = Some arg /\ m !! (t + S2) = Some (ThreadFinish sym).
Proof.
  intros Hrun Ht Hst Ha. apply put_words_run in Hrun. subst m. unfold in_memory, apart, StackSize in *.
  destruct h; unfold PC, SP, S0, S1, S2, S3, machineState, state_of in *;
    cbn [app foldl fst snd];
    change (40 / 4 - 1) with 9; change (68 / 4 - 1) with 16; change (4 / 4 - 1) with 0; change (8 / 4 - 1) with 1;
    change (12 / 4 - 1) with 2; change (16 / 4 - 1) with 3;
    rewrite !u32_id by (unfold is_u32, StackSize; lia); rewrite ?Z.add_0_r;
    split_and!;
    repeat match goal with
    | |- <[?a := _]> _ !! ?b = _ => first [replace b with a by lia; rewrite lookup_insert_eq; reflexivity|rewrite lookup_insert_ne by (unfold StackSize; lia)]
    end.
Qed.

(** The code behind the first and behind the second call. *)
Definition first_call (h : host) : nat := match h with HOST_MIPS => 3 | HOST_SNAKE => 2 end.
Definition second_call (h : host) : nat := first_call h + 3.

(** The procedure called in [c] has returned in [c']: it went back to the return address
    and kept the registers it has to keep. *)
Record returned_on (h : host) (c c' : Risc) : Prop := {
  ro_pc : pc c' = gpr c (ra h);
  ro_npc : npc c' = u32 (pc c' + 4);
  ro_zero : gpr c' 0 = 0;
  ro_regs : forall r, r ∈ fst <$> saved_of h -> r <> ra h -> gpr c' r = gpr c r
}.

Lemma u32_next a k : u32 (u32 a + k) = u32 (a + k).
Proof. unfold u32. by rewrite Z.add_mod_idemp_l. Qed.

Section Root.
Context (fetch : Z -> option rinstr) (h : host).

(** A part of [ThreadRoot]: [n] instructions from [c] on call [target], to return to the
    code [rest]; the registers are [g] but for those of the link. *)
Definition calls (n : nat) (c : Risc) (g : Z -> Z) (target : Z) (rest : list rinstr) (c1 : Risc) : Prop :=
  rsteps fetch n c = Ok c1 /\ pc c1 = target /\ code_at fetch (gpr c1 (ra h)) rest /\
  forall r, r <> 31 -> r <> ra h -> gpr c1 r = g r.

(** What follows a call. *)
Definition link_of : rinstr := match h with HOST_MIPS => Nop | HOST_SNAKE => Or 2 31 0 end.

Lemma call_on c r rest : code_at fetch (pc c) (BranchLink r :: link_of :: rest) -> npc c = u32 (pc c + 4) -> gpr c 0 = 0 ->
  exists c1, calls 2 c (gpr c) (gpr c r) rest c1.
Proof.
  destruct c as [g a n m]. cbn [pc npc gpr]. intros (F1 & F2 & Hc) -> H0. unfold calls.
  replace (u32 (u32 (a + 4) + 4)) with (u32 (a + 8)) in Hc by (rewrite u32_next; f_equal; lia).
  cbn [rsteps]. unfold rstep. cbn [pc npc gpr words]. rewrite F1. cbn [execute set_gpr Z.eqb Pos.eqb pc npc gpr words set_npc].
  rewrite F2. unfold link_of. destruct h; eexists; (split; [reflexivity|]); cbn [pc gpr ra execute set_gpr Z.eqb Pos.eqb].
  - split; [done|]. split; [by rewrite fn_lookup_insert|]. intros r' H31 _. by apply fn_lookup_insert_ne.
  - split; [done|]. split.
    + by rewrite !fn_lookup_insert, fn_lookup_insert_ne, H0, Z.lor_0_r.
    + intros r' H31 H2. by rewrite !fn_lookup_insert_ne.
Qed.

(** A register is copied before the call. *)
Lemma or_call_on c rd rs r rest : code_at fetch (pc c) (Or rd rs 0 :: BranchLink r :: link_of :: rest) -> npc c = u32 (pc c + 4) ->
  gpr c 0 = 0 -> rd <> 0 -> rd <> r -> exists c1, calls 3 c (<[rd := gpr c rs]> (gpr c)) (gpr c r) rest c1.
Proof.
  destruct c as [g a n m]. cbn [pc npc gpr]. intros (F1 & Hc) -> H0 Hrd Hr.
  destruct (call_on (MkRisc (<[rd := g rs]> g) (u32 (a + 4)) (u32 (u32 (a + 4) + 4)) m) r rest Hc eq_refl) as (c1 & Hrun & Hpc & Hrest);
    [cbn [gpr]; by rewrite fn_lookup_insert_ne|]. cbn [gpr] in Hpc. rewrite fn_lookup_insert_ne in Hpc by done.
  exists c1. split; [|done]. change 3%nat with (1 + 2)%nat. erewrite rsteps_add; [exact Hrun|].
  cbn [rsteps]. unfold rstep. cbn [pc npc gpr words]. rewrite F1. cbn [execute gpr]. rewrite H0, Z.lor_0_r.
  unfold set_gpr. by destruct (Z.eqb_spec rd 0).
Qed.

Lemma root_first c : code_at fetch (pc c) (ThreadRoot_of h) -> npc c = u32 (pc c + 4) -> gpr c 0 = 0 ->
  exists c1 g, calls (first_call h) c g (gpr c (rStartupPC h)) (drop (first_call h) (ThreadRoot_of h)) c1 /\
    forall r, r <> 30 \/ h = HOST_SNAKE -> g r = gpr c r.
Proof.
  intros Hc Hn H0. pose proof call_on as H1. pose proof or_call_on as H2. unfold link_of in H1, H2. destruct h.
  - destruct (H2 c 30 0 19 (drop 3 mips_ThreadRoot)) as (c1 & Hcall); try done. exists c1. eexists. split; [exact Hcall|].
    intros r [Hr|?]; [by apply fn_lookup_insert_ne|done].
  - destruct (H1 c 6 (drop 2 snake_ThreadRoot)) as (c1 & Hcall); try done. exists c1. eexists. split; [exact Hcall|]. done.
Qed.

Lemma root_second c : code_at fetch (pc c) (drop (first_call h) (ThreadRoot_of h)) -> npc c = u32 (pc c + 4) -> gpr c 0 = 0 ->
  exists c1, calls 3 c (<[arg0 h := gpr c (rInitialArg h)]> (gpr c)) (gpr c (rInitialPC h)) (drop (second_call h) (ThreadRoot_of h)) c1.
Proof. intros Hc Hn H0. pose proof or_call_on as H2. unfold link_of in H2. destruct h; by eapply H2. Qed.

Lemma root_third c : code_at fetch (pc c) (drop (second_call h) (ThreadRoot_of h)) -> npc c = u32 (pc c + 4) -> gpr c 0 = 0 ->
  exists c1, calls 2 c (gpr c) (gpr c (rWhenDonePC h)) [] c1.
Proof. intros Hc Hn H0. pose proof call_on as H2. unfold link_of in H2. destruct h; by eapply H2. Qed.
End Root.

(** The registers of [ThreadRoot] are among the saved ones. *)
Lemma root_registers h : (sp h, SP) ∈ saved_of h /\ (rInitialPC h, S0) ∈ saved_of h /\ (rInitialArg h, S1) ∈ saved_of h /\
  (rWhenDonePC h, S2) ∈ saved_of h /\ (rStartupPC h, S3) ∈ saved_of h /\ 0 ∉ fst <$> saved_of h.
Proof. split_and!; destruct h; apply (bool_decide_unpack _); vm_compute; reflexivity. Qed.
Lemma root_not_link h r : r ∈ [rInitialPC h; rInitialArg h; rWhenDonePC h; sp h] ->
  r <> 31 /\ r <> ra h /\ (r <> 30 \/ h = HOST_SNAKE) /\ r <> arg0 h /\ r ∈ fst <$> saved_of h.
Proof.
  intros Hr. assert (Hall : Forall (fun r => r <> 31 /\ r <> ra h /\ (r <> 30 \/ bool_decide (ra h = 2) = true) /\ r <> arg0 h /\ r ∈ fst <$> saved_of h)
    [rInitialPC h; rInitialArg h; rWhenDonePC h; sp h]) by (destruct h; apply (bool_decide_unpack _); vm_compute; reflexivity).
  rewrite Forall_forall in Hall. destruct (Hall r Hr) as (H1 & H2 & H3 & H4 & H5). split_and!; try done.
  destruct H3 as [H3|H3]; [by left|]. destruct h; [done|by right].
Qed.

(** A new thread on MIPS and on PA-RISC: [StackAllocate] prepares its object so that
    the first [SWITCH] to it, by whatever thread and whenever, goes to [ThreadRoot] with
    its own stack, which calls [InterruptEnable], then the thread's function with its
    argument, then [ThreadFinish], when the procedures it calls keep the registers
    that the calling convention says. *)
Lemma new_thread_starts_on h fetch sym t stack func arg m0 m c t1 :
  StackAllocate_of h sym t stack func arg m0 = Ok m ->
  in_memory t (PC h + 4) -> in_memory stack (4 * StackSize) -> apart t (PC h + 4) stack (4 * StackSize) ->
  can_switch_on h c t1 t -> gpr c 0 = 0 -> code_at fetch (pc c) (SWITCH_of h) -> code_at fetch (ThreadRoot sym) (ThreadRoot_of h) ->
  (forall off, off ∈ snd <$> saved_of h -> words c !! (t + off) = m !! (t + off)) ->
  exists c1, rsteps fetch (length (SWITCH_of h) + first_call h) c = Ok c1 /\ pc c1 = InterruptEnable sym /\ gpr c1 (sp h) = stack_top h stack /\
  forall c2, returned_on h c1 c2 ->
  exists c3, rsteps fetch 3 c2 = Ok c3 /\ pc c3 = func /\ gpr c3 (arg0 h) = arg /\ gpr c3 (sp h) = stack_top h stack /\
  forall c4, returned_on h c3 c4 ->
  exists c5, rsteps fetch 2 c4 = Ok c5 /\ pc c5 = ThreadFinish sym.
Proof.
  intros Halloc Ht Hst Ha Hok H0 Hcode Hroot Hsame. destruct (stack_allocate_on _ _ _ _ _ _ _ _ Halloc Ht Hst Ha) as (W1 & W2 & W3 & W4 & W5 & W6).
  destruct (root_registers h) as (Q1 & Q2 & Q3 & Q4 & Q5 & Q0). set (c0 := switched_to h t1 t c).
  assert (Hreg : forall r off v, (r, off) ∈ saved_of h -> m !! (t + off) = Some v -> gpr c0 r = v).
  { intros r off v Hin Hv. pose proof (switched_registers h c t1 t Hok r off Hin) as Hx.
    rewrite Hsame, Hv in Hx by (by apply (list_elem_of_fmap_2 snd _ (r, off))). by injection Hx. }
  assert (Hpc : pc c0 = ThreadRoot sym).
  { cbn [pc c0 switched_to]. apply lookup_total_correct. rewrite Hsame; [done|]. by apply (list_elem_of_fmap_2 snd _ (ra h, PC h)), ra_saved. }
  pose proof (fun r Hr => root_not_link h r Hr) as Hlink.
  destruct (root_first fetch h c0) as (c1 & g & (Hrun1 & Hpc1 & Hc1 & Hk1) & Hg); [by rewrite Hpc|done|exact (eq_trans (switched_kept h c t1 t 0 Q0) H0)|].
  assert (K1 : forall r, r ∈ [rInitialPC h; rInitialArg h; rWhenDonePC h; sp h] -> gpr c1 r = gpr c0 r).
  { intros r Hr. destruct (Hlink r Hr) as (L1 & L2 & L3 & _). by rewrite Hk1, Hg. }
  exists c1. split; [by rewrite (rsteps_add _ _ _ _ _ (switch_on_run fetch h c t1 t Hok Hcode))|].
  split; [by rewrite Hpc1, (Hreg _ _ _ Q5 W3)|]. split; [by rewrite K1, (Hreg _ _ _ Q1 W1) by set_solver|].
  intros c2 [P2 N2 Z2 R2]. destruct (root_second fetch h c2) as (c3 & Hrun3 & Hpc3 & Hc3 & Hk3); [by rewrite P2|done|done|].
  assert (K3 : forall r, r ∈ [rInitialPC h; rInitialArg h; rWhenDonePC h; sp h] -> gpr c2 r = gpr c0 r).
  { intros r Hr. destruct (Hlink r Hr) as (L1 & L2 & L3 & _ & L5). by rewrite R2, K1. }
  assert (K4 : forall r, r ∈ [rInitialPC h; rInitialArg h; rWhenDonePC h; sp h] -> gpr c3 r = gpr c0 r).
  { intros r Hr. destruct (Hlink r Hr) as (L1 & L2 & L3 & L4 & L5). by rewrite Hk3, fn_lookup_insert_ne, K3. }
  exists c3. split; [done|]. split; [by rewrite Hpc3, K3, (Hreg _ _ _ Q2 W4) by set_solver|].
  split; [rewrite Hk3 by (by destruct h); by rewrite fn_lookup_insert, K3, (Hreg _ _ _ Q3 W5) by set_solver|].
  split; [by rewrite K4, (Hreg _ _ _ Q1 W1) by set_solver|].
  intros c4 [P4 N4 Z4 R4]. destruct (root_third fetch h c4) as (c5 & Hrun5 & Hpc5 & _); [by rewrite P4|done|done|].
  exists c5. split; [done|]. rewrite Hpc5, R4, K4, (Hreg _ _ _ Q4 W6); [done|set_solver|apply Hlink; set_solver..].
Qed.

(** ** Two threads *)

(** [SWITCH] from address 1000 on, [ThreadRoot] from 2000 on. *)
Definition demo_fetch_on (h : host) (a : Z) : option rinstr :=
  if a <? 2000 then SWITCH_of h !! Z.to_nat ((a - 1000) / 4) else ThreadRoot_of h !! Z.to_nat ((a - 2000) / 4).
Lemma demo_code h : code_at (demo_fetch_on h) 1000 (SWITCH_of h) /\ code_at (demo_fetch_on h) 2000 (ThreadRoot_of h).
Proof. destruct h; split; vm_compute; by split_and!. Qed.

(** The thread at 100 calls [SWITCH] from 77 to the thread at 200, which was saved in 88. *)
Definition demo_threads : gmap Z Z :=
  list_to_map (zip ((fun i => 100 + 4 * i) <$> seqZ 0 18) (replicate 18 0) ++ zip ((fun i => 200 + 4 * i) <$> seqZ 0 18) (replicate 18 88)).
Definition demo_risc (h : host) (m : gmap Z Z) : Risc :=
  MkRisc (<[0 := 0]> (<[arg0 h := 100]> (<[arg1 h := 200]> (<[ra h := 77]> (fun r => r))))) 1000 1004 m.

Lemma area_true m t l :
  forallb (fun p => bool_decide (is_Some (m !! (t + snd p))) && (0 <=? t + snd p) && (t + snd p <? 2 ^ 32)) l = true -> area m t l.
Proof.
  intros H. apply Forall_forall. intros p Hp. rewrite forallb_forall in H. specialize (H p (proj1 (list_elem_of_In _ _) Hp)). revert H. rewrite !andb_true_iff, bool_decide_eq_true. intros [[H1 H2] H3]. split; [done|]. unfold is_u32. lia.
Qed.
Ltac demo_area h := destruct h; apply area_true; vm_compute; reflexivity.

Lemma demo_can_switch_on h : can_switch_on h (demo_risc h demo_threads) 100 200.
Proof. split; [by destruct h|reflexivity|demo_area h|demo_area h|destruct h; unfold apart; cbn [PC]; lia]. Qed.

Example snake_switches : exists c, rsteps (demo_fetch_on HOST_SNAKE) 37 (demo_risc HOST_SNAKE demo_threads) = Ok c /\ pc c = 88 /\
  words c !! 168 = Some 77.
Proof.
  destruct (switch_resumes_on HOST_SNAKE (demo_fetch_on HOST_SNAKE) _ 100 200 (demo_can_switch_on HOST_SNAKE) (proj1 (demo_code HOST_SNAKE)))
    as (c & Hrun & Hpc & _ & Hregs & _).
  exists c. split; [exact Hrun|]. split; [|exact (proj2 (Hregs 2 68 (ra_saved HOST_SNAKE)))].
  vm_compute in Hpc. injection Hpc as Hpc. symmetry. exact Hpc.
Qed.

(** The thread at 200 is new, with its stack at 8000; its function is at 3000, its
    argument 42. *)
Definition demo_memory_on : gmap Z Z := list_to_map (((fun i => (8000 + 4 * i, 0)) <$> seqZ 0 StackSize) ++ map_to_list demo_threads).
Definition demo_started (h : host) : gmap Z Z :=
  match StackAllocate_of h demo_symbols 200 8000 3000 42 demo_memory_on with Ok m => m | Stop _ => ∅ end.
Lemma demo_starts h : StackAllocate_of h demo_symbols 200 8000 3000 42 demo_memory_on = Ok (demo_started h).
Proof.
  assert (H : match StackAllocate_of h demo_symbols 200 8000 3000 42 demo_memory_on with Ok _ => true | Stop _ => false end = true)
    by (destruct h; vm_compute; reflexivity).
  unfold demo_started. by destruct (StackAllocate_of h demo_symbols 200 8000 3000 42 demo_memory_on).
Qed.
Lemma demo_can_start_on h : can_switch_on h (demo_risc h (demo_started h)) 100 200.
Proof. split; [by destruct h|reflexivity|demo_area h|demo_area h|destruct h; unfold apart; cbn [PC]; lia]. Qed.

Example mips_thread_starts :
  exists c, rsteps (demo_fetch_on HOST_MIPS) 27 (demo_risc HOST_MIPS (demo_started HOST_MIPS)) = Ok c /\ pc c = 2500.
Proof.
  destruct (new_thread_starts_on HOST_MIPS (demo_fetch_on HOST_MIPS) demo_symbols 200 8000 3000 42 demo_memory_on (demo_started HOST_MIPS)
    (demo_risc HOST_MIPS (demo_started HOST_MIPS)) 100 (demo_starts HOST_MIPS)) as (c & Hrun & Hpc & _).
  - unfold in_memory. cbn [PC]. lia.
  - unfold in_memory, StackSize. lia.
  - unfold apart, StackSize. cbn [PC]. lia.
  - apply demo_can_start_on.
  - reflexivity.
  - apply demo_code.
  - apply demo_code.
  - intros off _. reflexivity.
  - exists c. split; [exact Hrun|exact Hpc].
Qed.
