(* ===== verification/Machine.v ===== *)
(** * The user machine: memory and address translation

    [machine/machine.cc] and [machine/translate.cc]: the registers, the main
    memory, the table of physical pages and the translation of user addresses.
    A user program runs on a [Host]: the rest of the kernel, which handles the
    exceptions the machine raises. *)

From S2P Require Import Prelude NList Sectors Disk Kernel.

(** ** Data *)

(** [machine.h]. *)
Definition PageSize : Z := SectorSize.
Definition NumPhysPages : Z := 32.
Definition MemorySize : Z := NumPhysPages * PageSize.
Definition TLBSize : Z := 4.

Inductive ExceptionType : Type :=
| NoException | SyscallException | PageFaultException | ReadOnlyException | BusErrorException
| AddressErrorException | OverflowException | IllegalInstrException | NumExceptionTypes.

#[export] Instance ExceptionType_eq_dec : EqDecision ExceptionType.
Proof. solve_decision. Defined.

Definition StackReg : Z := 29.
Definition RetAddrReg : Z := 31.
Definition NumGPRegs : Z := 32.
Definition HiReg : Z := 32.
Definition LoReg : Z := 33.
Definition PCReg : Z := 34.
Definition NextPCReg : Z := 35.
Definition PrevPCReg : Z := 36.
Definition LoadReg : Z := 37.
Definition LoadValueReg : Z := 38.
Definition BadVAddrReg : Z := 39.
Definition NumTotalRegs : Z := 40.

(** [class ReverseTranslationEntry]; [tid] is the thread the page belongs to. *)
Record ReverseTranslationEntry : Type := MkRev {
  virtualPage : Z; physicalPage : Z;
  valid : bool; readOnly : bool; use : bool; dirty : bool;
  LRU : Z; tid : Z
}.

(** [class TranslationEntry] of [translate.h]. *)
Record TranslationEntry : Type := MkTrans {
  te_virtualPage : Z; te_physicalPage : Z;
  te_valid : bool; te_readOnly : bool; te_use : bool; te_dirty : bool; te_LRU : Z
}.

(** [class Machine].  Memory is a list of bytes; registers are [int]s. *)
Record Machine : Type := MkMachine {
  registers : list Z;
  mainMemory : list Z;
  memoryBitmap : list bool;
  rt_page_table : list ReverseTranslationEntry;
  tlb : option (list TranslationEntry);
  tlbTimes : Z;
  pageTable : option (list TranslationEntry);
  pageTableSize : Z
}.

Definition set_registers (v : list Z) (m : Machine) : Machine :=
  MkMachine v (mainMemory m) (memoryBitmap m) (rt_page_table m) (tlb m) (tlbTimes m) (pageTable m) (pageTableSize m).
Definition set_mainMemory (v : list Z) (m : Machine) : Machine :=
  MkMachine (registers m) v (memoryBitmap m) (rt_page_table m) (tlb m) (tlbTimes m) (pageTable m) (pageTableSize m).
Definition set_memoryBitmap (v : list bool) (m : Machine) : Machine :=
  MkMachine (registers m) (mainMemory m) v (rt_page_table m) (tlb m) (tlbTimes m) (pageTable m) (pageTableSize m).
Definition set_rt_page_table (v : list ReverseTranslationEntry) (m : Machine) : Machine :=
  MkMachine (registers m) (mainMemory m) (memoryBitmap m) v (tlb m) (tlbTimes m) (pageTable m) (pageTableSize m).
Definition set_tlb (v : option (list TranslationEntry)) (m : Machine) : Machine :=
  MkMachine (registers m) (mainMemory m) (memoryBitmap m) (rt_page_table m) v (tlbTimes m) (pageTable m) (pageTableSize m).
Definition set_tlbTimes (v : Z) (m : Machine) : Machine :=
  MkMachine (registers m) (mainMemory m) (memoryBitmap m) (rt_page_table m) (tlb m) v (pageTable m) (pageTableSize m).
Definition set_pageTable (v : option (list TranslationEntry)) (m : Machine) : Machine :=
  MkMachine (registers m) (mainMemory m) (memoryBitmap m) (rt_page_table m) (tlb m) (tlbTimes m) v (pageTableSize m).
Definition set_pageTableSize (v : Z) (m : Machine) : Machine :=
  MkMachine (registers m) (mainMemory m) (memoryBitmap m) (rt_page_table m) (tlb m) (tlbTimes m) (pageTable m) v.

(** [Machine::Machine], without [USE_TLB].  The code leaves [dirty], [tlbTimes] and
    [pageTableSize] as they are in memory. *)
Definition new_machine (junk_dirty : bool) (junk_times junk_size : Z) : Machine :=
  MkMachine (replicate (Z.to_nat NumTotalRegs) 0) (replicate (Z.to_nat MemorySize) 0)
    (replicate (Z.to_nat NumPhysPages) false)
    ((fun i => MkRev (-1) (Z.of_nat i) false false false junk_dirty (-1) (-1))
       <$> seq 0 (Z.to_nat NumPhysPages))
    None junk_times None junk_size.

(** ** Registers *)

(** [Machine::ReadRegister], [Machine::WriteRegister]. *)
Definition ReadRegister (num : Z) : M Machine Z :=
  _ ← ASSERT ((0 <=? num) && (num <? NumTotalRegs));
  rs ← gets registers;
  lift (aget rs num).
Definition WriteRegister (num value : Z) : M Machine unit :=
  _ ← ASSERT ((0 <=? num) && (num <? NumTotalRegs));
  rs ← gets registers;
  rs ← lift (aset rs num value);
  modify (set_registers rs).

(** [registers[i]] in the machine's own code, which does not check. *)
Definition reg (i : Z) : M Machine Z := rs ← gets registers; lift (aget rs i).
Definition set_reg (i v : Z) : M Machine unit :=
  rs ← gets registers; rs ← lift (aset rs i v); modify (set_registers rs).

(** [Machine::AdvancePC]. *)
Definition AdvancePC : M Machine unit :=
  pc ← reg PCReg;
  _ ← WriteRegister PrevPCReg pc;
  pc ← reg PCReg;
  _ ← WriteRegister PCReg (i32 (pc + 4));
  next ← reg NextPCReg;
  WriteRegister NextPCReg (i32 (next + 4)).

(** [Machine::DelayedLoad] of [mipssim.cc]. *)
Definition DelayedLoad (nextReg nextValue : Z) : M Machine unit :=
  r ← reg LoadReg;
  v ← reg LoadValueReg;
  _ ← set_reg r v;
  _ ← set_reg LoadReg nextReg;
  _ ← set_reg LoadValueReg nextValue;
  set_reg 0 0.

(** ** Physical pages *)

(** The index of the first element that satisfies [p], from [i] on. *)
Fixpoint first {A : Type} (p : A -> bool) (i : Z) (l : list A) : option Z :=
  match l with
  | [] => None
  | x :: l => if p x then Some i else first p (i + 1) l
  end.

(** [Machine::findMemory]. *)
Definition findMemory : M Machine Z :=
  b ← gets memoryBitmap;
  match first negb 0 b with
  | Some i => b ← lift (aset b i true); _ ← modify (set_memoryBitmap b); mret i
  | None => mret (u32 (-1))
  end.

(** [Machine::ClearMemory]. *)
Definition ClearMemory : M Machine unit :=
  mfor (Z.to_nat NumPhysPages) 0 (fun i =>
    tbl ← gets rt_page_table;
    e ← lift (aget tbl i);
    if valid e then
      b ← gets memoryBitmap;
      x ← lift (aget b (physicalPage e));
      if (x : bool) then
        b ← lift (aset b (physicalPage e) false);
        modify (set_memoryBitmap b)
      else mret tt
    else mret tt).

(** ** Translation *)

(** The test of the search in [Machine::Translate]; [virtualPage] is compared as
    an unsigned number. *)
Definition maps (vpn current_tid : Z) (e : ReverseTranslationEntry) : bool :=
  valid e && (u32 (virtualPage e) =? vpn) && (tid e =? current_tid).

(** [Machine::Translate]: the exception, or the physical address. *)
Definition Translate (current_tid virtAddr size : Z) (writing : bool) : M Machine (ExceptionType + Z) :=
  if ((size =? 4) && negb (Z.land virtAddr 3 =? 0)) || ((size =? 2) && negb (Z.land virtAddr 1 =? 0))
  then mret (inl AddressErrorException)
  else
    let vpn := u32 virtAddr / PageSize in
    let offset := u32 virtAddr mod PageSize in
    _ ← modify (fun m => set_tlbTimes (i32 (tlbTimes m + 1)) m);
    tbl ← gets rt_page_table;
    match first (maps vpn current_tid) 0 tbl with
    | None => mret (inl PageFaultException)
    | Some i =>
        e ← lift (aget tbl i);
        if readOnly e && writing then mret (inl ReadOnlyException)
        else
          let pageFrame := u32 (physicalPage e) in
          if NumPhysPages <=? pageFrame then mret (inl BusErrorException)
          else
            let e' := MkRev (virtualPage e) (physicalPage e) (valid e) (readOnly e) true
                        (writing || dirty e) (LRU e) (tid e) in
            tbl ← lift (aset tbl i e');
            _ ← modify (set_rt_page_table tbl);
            let physAddr := i32 (pageFrame * PageSize + offset) in
            _ ← ASSERT ((0 <=? physAddr) && (physAddr + size <=? MemorySize));
            mret (inr physAddr)
    end.

(** [WordToHost] and the like are the identity on the little-endian host. *)
Definition WordToHost (word : Z) : Z := word.
Definition ShortToHost (shortword : Z) : Z := shortword.
Definition WordToMachine (word : Z) : Z := WordToHost word.
Definition ShortToMachine (shortword : Z) : Z := ShortToHost shortword.

(** A [char] as the [int] it is promoted to. *)
Definition i8 (b : Z) : Z := if b <? 128 then b else b - 256.

(** The [size] bytes at a physical address, as [ReadMem] and [WriteMem] access
    them. *)
Definition fetch (physicalAddress size : Z) : M Machine Z :=
  mem ← gets mainMemory;
  bs ← lift (slice physicalAddress size mem);
  if size =? 1 then mret (i8 (le_val bs))
  else if size =? 2 then mret (ShortToHost (le_val bs))
  else if size =? 4 then mret (i32 (WordToHost (le_val bs)))
  else halt AssertFailed.
Definition store (physicalAddress size value : Z) : M Machine unit :=
  mem ← gets mainMemory;
  bs ← (if size =? 1 then mret (le_bytes 1 (Z.land value 255))
        else if size =? 2 then mret (le_bytes 2 (ShortToMachine (Z.land value 65535)))
        else if size =? 4 then mret (le_bytes 4 (WordToMachine (u32 value)))
        else halt AssertFailed);
  mem ← lift (splice physicalAddress bs mem);
  modify (set_mainMemory mem).

(** ** Exceptions *)

(** The kernel a machine runs in: the part of its state that is the machine, the id
    of the current thread, the mode of the interrupt hardware, and the handler
    the machine's exceptions go to. *)
Class Host (W : Type) : Type := {
  machine : lens W Machine;
  current_tid : W -> Z;
  setStatus : MachineStatus -> W -> W;
  ExceptionHandler : ExceptionType -> M W unit
}.

Section Host.
Context {W : Type} `{Host W}.

Definition on_machine {A : Type} (m : M Machine A) : M W A := zoom machine m.

(** [Machine::RaiseException]. *)
Definition RaiseException (which : ExceptionType) (badVAddr : Z) : M W unit :=
  _ ← on_machine (set_reg BadVAddrReg badVAddr);
  _ ← on_machine (DelayedLoad 0 0);
  _ ← modify (setStatus SystemMode);
  _ ← ExceptionHandler which;
  modify (setStatus UserMode).

(** [Machine::ReadMem]: [None] when it returns [FALSE]. *)
Definition ReadMem (addr size : Z) : M W (option Z) :=
  t ← gets current_tid;
  x ← on_machine (Translate t addr size false);
  match x with
  | inl exception => _ ← RaiseException exception addr; mret None
  | inr physicalAddress => v ← on_machine (fetch physicalAddress size); mret (Some v)
  end.

(** [Machine::WriteMem]. *)
Definition WriteMem (addr size value : Z) : M W bool :=
  t ← gets current_tid;
  x ← on_machine (Translate t addr size true);
  match x with
  | inl exception => _ ← RaiseException exception addr; mret false
  | inr physicalAddress => _ ← on_machine (store physicalAddress size value); mret true
  end.
End Host.
