(* ===== verification/Paging.v ===== *)
(** * Virtual memory: [Machine::ReverseTableReplace], [Machine::tlbReplace]

    The machine together with the threads' "virtual disks", the arrays their
    address spaces keep the pages on that are not in main memory.  The theorems
    show that paging is transparent: what a thread reads and writes is a memory of
    its own. *)

From S2P Require Import Prelude NList Sectors Disk Kernel Machine.

(** ** The state *)

(** [disks] are the arrays [AddrSpace::disk] points to, by address;
    [disk_of t] is [thread_poiners[t]->space->disk]. *)
Record Vm : Type := MkVm {
  vm_machine : Machine;
  disks : gmap nat (list Z);
  disk_of : gmap Z nat;
  vm_tid : Z;
  vm_mode : MachineStatus;
  vm_draws : nat
}.

Definition set_vm_machine (m : Machine) (v : Vm) : Vm :=
  MkVm m (disks v) (disk_of v) (vm_tid v) (vm_mode v) (vm_draws v).
Definition set_disks (d : gmap nat (list Z)) (v : Vm) : Vm :=
  MkVm (vm_machine v) d (disk_of v) (vm_tid v) (vm_mode v) (vm_draws v).
Definition set_vm_mode (s : MachineStatus) (v : Vm) : Vm :=
  MkVm (vm_machine v) (disks v) (disk_of v) (vm_tid v) s (vm_draws v).
Definition set_vm_draws (n : nat) (v : Vm) : Vm :=
  MkVm (vm_machine v) (disks v) (disk_of v) (vm_tid v) (vm_mode v) n.

Definition vm : lens Vm Machine := Lens vm_machine set_vm_machine.

Section Paging.
Context (Random : nat -> Z).

(** The array of a thread's virtual disk. *)
Definition get_disk (t : Z) : M Vm (list Z) := fun v =>
  match disk_of v !! t with
  | Some d => match disks v !! d with Some bs => Ok (bs, v) | None => Stop Undefined end
  | None => Stop Undefined
  end.
Definition put_disk (t : Z) (bs : list Z) : M Vm unit := fun v =>
  match disk_of v !! t with
  | Some d => Ok (tt, set_disks (<[d := bs]> (disks v)) v)
  | None => Stop Undefined
  end.

(** The page [Machine::ReverseTableReplace] takes: the first free one of the first
    [TLBSize], or a random one. *)
Definition victim : M Vm Z :=
  tbl ← gets (fun v => rt_page_table (vm_machine v));
  match first (fun e => negb (valid e)) 0 (take (Z.to_nat TLBSize) tbl) with
  | Some i => mret i
  | None => n ← gets vm_draws; _ ← modify (set_vm_draws (S n)); mret (Z.rem (Random n) NumPhysPages)
  end.

(** A page of main memory is written back to its thread's disk. *)
Definition write_back (e : ReverseTranslationEntry) : M Vm unit :=
  mem ← gets (fun v => mainMemory (vm_machine v));
  page ← lift (slice (physicalPage e * PageSize) PageSize mem);
  d ← get_disk (tid e);
  d ← lift (splice (virtualPage e * PageSize) page d);
  put_disk (tid e) d.

(** A page is read from the current thread's disk to physical page [ppn]. *)
Definition read_in (ppn vpn : Z) : M Vm unit :=
  t ← gets vm_tid;
  d ← get_disk t;
  page ← lift (slice (vpn * PageSize) PageSize d);
  mem ← gets (fun v => mainMemory (vm_machine v));
  mem ← lift (splice (ppn * PageSize) page mem);
  zoom vm (modify (set_mainMemory mem)).

(** [Machine::ReverseTableReplace]. *)
Definition ReverseTableReplace (address : Z) : M Vm unit :=
  let vpn := u32 address / PageSize in
  position ← victim;
  tbl ← gets (fun v => rt_page_table (vm_machine v));
  e ← lift (aget tbl position);
  _ ← (if valid e && dirty e then write_back e else mret tt);
  _ ← read_in (physicalPage e) vpn;
  t ← gets vm_tid;
  tbl ← lift (aset tbl position
    (MkRev vpn (physicalPage e) true (readOnly e) (use e) false (LRU e) t));
  zoom vm (modify (set_rt_page_table tbl)).

(** The page-fault branch of [ExceptionHandler] of [exception.cc], without a TLB. *)
Definition page_fault : M Vm unit :=
  a ← zoom vm (ReadRegister BadVAddrReg);
  ReverseTableReplace a.

(** The machine in a kernel whose other exceptions are handled by [others]. *)
Definition vm_host (others : ExceptionType -> M Vm unit) : Host Vm := {|
  machine := vm;
  current_tid := vm_tid;
  setStatus := set_vm_mode;
  ExceptionHandler := fun which =>
    if bool_decide (which = PageFaultException) then page_fault else others which
|}.
End Paging.

(** [Machine::tlbReplace], on a TLB and a page table.  The search for the entry of
    least [LRU] starts from [TLBSize]; when no entry is below it the code indexes
    the TLB with -1. *)
Fixpoint least_recent (i minTag position : Z) (l : list TranslationEntry) : Z :=
  match l with
  | [] => position
  | e :: l => if te_LRU e <? minTag then least_recent (i + 1) (te_LRU e) i l
              else least_recent (i + 1) minTag position l
  end.

Definition set_te_LRU (v : Z) (e : TranslationEntry) : TranslationEntry :=
  MkTrans (te_virtualPage e) (te_physicalPage e) (te_valid e) (te_readOnly e) (te_use e) (te_dirty e) v.

Definition tlbReplace (address : Z) (t pt : list TranslationEntry) : res (list TranslationEntry) :=
  let vpn := u32 address / PageSize in
  match
    match first (fun e => negb (te_valid e)) 0 t with
    | Some i => Ok (i, t)
    | None =>
        let position := least_recent 0 TLBSize (-1) t in
        e ← aget t position;
        Ok (position, <[Z.to_nat position := set_te_LRU (TLBSize - 1) e]>
                        ((fun e => set_te_LRU (te_LRU e - 1) e) <$> t))
    end
  with
  | Ok (position, t) =>
      e ← aget t position;
      p ← aget pt vpn;
      aset t position (MkTrans vpn (te_physicalPage p) true (te_readOnly e) false false (te_LRU e))
  | Stop w => Stop w
  end.

(** ** A thread's memory *)

(** The byte of main memory at offset [o] of physical page [i], and the byte at
    address [a] of a thread's virtual disk. *)
Definition mem_byte (v : Vm) (i o : Z) : option Z := mainMemory (vm_machine v) !! Z.to_nat (i * PageSize + o).
Definition disk_byte (v : Vm) (t a : Z) : option Z :=
  d ← disk_of v !! t; bs ← disks v !! d; bs !! Z.to_nat a.

(** The entry that maps a page of a thread. *)
Definition mapping (v : Vm) (t vpn : Z) : option Z := first (maps vpn t) 0 (rt_page_table (vm_machine v)).

(** The byte at virtual address [a] of thread [t]. *)
Definition vbyte (v : Vm) (t a : Z) : option Z :=
  match mapping v t (a / PageSize) with
  | Some i => mem_byte v i (a mod PageSize)
  | None => disk_byte v t a
  end.

(** The pages of a 32-bit address space. *)
Definition MaxPages : Z := 33554432.

(** Thread [t] has page [vpn] on its disk. *)
Definition has_page (v : Vm) (t vpn : Z) : Prop :=
  0 <= vpn < MaxPages /\ exists d bs, disk_of v !! t = Some d /\ disks v !! d = Some bs /\
    (vpn + 1) * PageSize <= Z.of_nat (length bs).

(** The invariant of paging.  [vo_private]: no two threads share a virtual disk. *)
Record vm_ok (v : Vm) : Prop := {
  vo_table : length (rt_page_table (vm_machine v)) = 32%nat;
  vo_mem : length (mainMemory (vm_machine v)) = 4096%nat;
  vo_entry : forall i e, rt_page_table (vm_machine v) !! i = Some e ->
    physicalPage e = Z.of_nat i /\ readOnly e = false;
  vo_valid : forall i e, rt_page_table (vm_machine v) !! i = Some e -> valid e = true ->
    has_page v (tid e) (virtualPage e);
  vo_unique : forall i j e f, rt_page_table (vm_machine v) !! i = Some e ->
    rt_page_table (vm_machine v) !! j = Some f -> valid e = true -> valid f = true ->
    tid e = tid f -> virtualPage e = virtualPage f -> i = j;
  vo_clean : forall i e o, rt_page_table (vm_machine v) !! i = Some e -> valid e = true -> dirty e = false ->
    0 <= o < PageSize -> mem_byte v (Z.of_nat i) o = disk_byte v (tid e) (virtualPage e * PageSize + o);
  vo_private : forall t t' d, disk_of v !! t = Some d -> disk_of v !! t' = Some d -> t = t'
}.

(** ** Facts *)

Lemma first_Some {A} (p : A -> bool) (l : list A) i j :
  first p i l = Some j ->
  i <= j /\ exists x, l !! Z.to_nat (j - i) = Some x /\ p x = true /\
    forall n y, (n < Z.to_nat (j - i))%nat -> l !! n = Some y -> p y = false.
Proof.
  revert i. induction l as [|x l IH]; intros i; simpl; [done|]. destruct (p x) eqn:Hx.
  - intros [= <-]. split; [lia|]. rewrite Z.sub_diag. exists x. split_and!; try done. intros n y Hn. lia.
  - intros (Hle & y & Hy & Hp & Hbef)%IH. split; [lia|]. exists y.
    replace (Z.to_nat (j - i)) with (S (Z.to_nat (j - (i + 1)))) by lia. split_and!; try done.
    intros [|n] z Hn Hz; simpl in Hz; [congruence|]. apply (Hbef n); [lia|done].
Qed.

Lemma first_None {A} (p : A -> bool) (l : list A) i :
  first p i l = None -> forall n x, l !! n = Some x -> p x = false.
Proof.
  revert i. induction l as [|x l IH]; intros i; simpl; [done|]. destruct (p x) eqn:Hx; [done|].
  intros Hf [|n] y Hy; simpl in Hy; [congruence|]. by eapply IH.
Qed.

Lemma maps_iff vpn t e :
  0 <= virtualPage e < MaxPages \/ valid e = false ->
  maps vpn t e = true <-> valid e = true /\ virtualPage e = vpn /\ tid e = t.
Proof.
  intros Hv. unfold maps. rewrite !andb_true_iff, !Z.eqb_eq.
  destruct Hv as [Hv| ->]; [|naive_solver]. unfold MaxPages in Hv.
  rewrite u32_id by (unfold is_u32; lia). tauto.
Qed.

Section Facts.
Context (v : Vm) (Hv : vm_ok v).

Lemma entry_maps i e vpn t :
  rt_page_table (vm_machine v) !! i = Some e ->
  maps vpn t e = true <-> valid e = true /\ virtualPage e = vpn /\ tid e = t.
Proof.
  intros He. apply maps_iff. destruct (valid e) eqn:Hval; [left|by right].
  by destruct (vo_valid _ Hv i e He Hval) as [? _].
Qed.

(** The mapping of a page, by the entry it is in. *)
Lemma mapping_Some t vpn j :
  mapping v t vpn = Some j <->
  exists e, 0 <= j /\ rt_page_table (vm_machine v) !! Z.to_nat j = Some e /\
    valid e = true /\ virtualPage e = vpn /\ tid e = t.
Proof.
  unfold mapping. split.
  - intros (Hle & e & He & Hm & _)%first_Some. rewrite Z.sub_0_r in He. exists e.
    apply (entry_maps _ _ _ _ He) in Hm. done.
  - intros (e & Hj & He & Hm).
    destruct (first (maps vpn t) 0 (rt_page_table (vm_machine v))) as [j'|] eqn:Hf.
    + apply first_Some in Hf as (Hle & f & Hf & Hfm & _). rewrite Z.sub_0_r in Hf.
      apply (entry_maps _ _ _ _ Hf) in Hfm as (Hfv & Hfp & Hft). destruct Hm as (Hev & Hep & Het). f_equal.
      assert (Z.to_nat j' = Z.to_nat j) by (eapply (vo_unique _ Hv); eauto; congruence). lia.
    + pose proof (first_None _ _ _ Hf _ _ He) as Hno. apply (entry_maps _ _ vpn t He) in Hm. congruence.
Qed.

Lemma mapping_None t vpn :
  mapping v t vpn = None <->
  forall i e, rt_page_table (vm_machine v) !! i = Some e -> ~ (valid e = true /\ virtualPage e = vpn /\ tid e = t).
Proof.
  split.
  - intros Hn i e He Hm. assert (mapping v t vpn = Some (Z.of_nat i)); [|congruence].
    apply mapping_Some. exists e. rewrite Nat2Z.id. split; [lia|done].
  - intros Hno. destruct (mapping v t vpn) as [j|] eqn:Hm; [|done].
    apply mapping_Some in Hm as (e & _ & He & Hm). by destruct (Hno _ _ He).
Qed.

End Facts.

Lemma get_disk_ok v t vpn :
  has_page v t vpn -> exists d bs, disk_of v !! t = Some d /\ disks v !! d = Some bs /\
    get_disk t v = Ok (bs, v) /\ 0 <= vpn * PageSize /\ vpn * PageSize + PageSize <= Z.of_nat (length bs).
Proof.
  intros (Hvpn & d & bs & Hd & Hbs & Hlen). exists d, bs. change PageSize with 128 in *.
  split_and!; try done; try lia. unfold get_disk. by rewrite Hd, Hbs.
Qed.

(** Bytes of a page inside a larger array. *)
Lemma page_lookup (bs : list Z) p o :
  0 <= p -> 0 <= o < 128 ->
  take (Z.to_nat 128) (drop (Z.to_nat (p * 128)) bs) !! Z.to_nat o = bs !! Z.to_nat (p * 128 + o).
Proof.
  intros Hp Ho. rewrite lookup_take_lt by lia. rewrite lookup_drop. f_equal. lia.
Qed.

(** A page put into a larger array. *)
Lemma page_ins (page bs : list Z) p a :
  0 <= p -> 0 <= a -> length page = 128%nat -> p * 128 + 128 <= Z.of_nat (length bs) ->
  ins (Z.to_nat (p * 128)) page bs !! Z.to_nat a =
    if decide (a / 128 = p) then page !! Z.to_nat (a mod 128) else bs !! Z.to_nat a.
Proof.
  intros Hp Ha Hlen Hbs. rewrite lookup_ins by lia. rewrite Hlen.
  pose proof (Z.div_mod a 128 ltac:(lia)). pose proof (Z.mod_pos_bound a 128 ltac:(lia)).
  repeat case_decide; try done; try nia. f_equal. nia.
Qed.

Lemma length_page (bs : list Z) p :
  0 <= p -> p * 128 + 128 <= Z.of_nat (length bs) ->
  length (take (Z.to_nat 128) (drop (Z.to_nat (p * 128)) bs)) = 128%nat.
Proof. intros. rewrite length_take, length_drop. lia. Qed.

Lemma page_split a : 0 <= a -> a = a / 128 * 128 + a mod 128 /\ 0 <= a / 128 /\ 0 <= a mod 128 < 128.
Proof.
  intros. pose proof (Z.div_mod a 128 ltac:(lia)). pose proof (Z.mod_pos_bound a 128 ltac:(lia)).
  pose proof (Z.div_pos a 128). lia.
Qed.

(** What stays when only disks and main memory change. *)
Record same_shape (v v' : Vm) : Prop := {
  ss_disk_of : disk_of v' = disk_of v;
  ss_tid : vm_tid v' = vm_tid v;
  ss_table : rt_page_table (vm_machine v') = rt_page_table (vm_machine v);
  ss_regs : registers (vm_machine v') = registers (vm_machine v);
  ss_mode : vm_mode v' = vm_mode v;
  ss_mem : length (mainMemory (vm_machine v')) = length (mainMemory (vm_machine v));
  ss_pages : forall t p, has_page v t p -> has_page v' t p
}.

Lemma write_back_ok v i e :
  vm_ok v -> rt_page_table (vm_machine v) !! i = Some e -> valid e = true ->
  exists v', write_back e v = Ok (tt, v') /\ same_shape v v' /\ vm_machine v' = vm_machine v /\
    forall t a, 0 <= a -> disk_byte v' t a =
      if decide (t = tid e /\ a / 128 = virtualPage e) then mem_byte v (Z.of_nat i) (a mod 128)
      else disk_byte v t a.
Proof.
  intros Hv He Hval. destruct (vo_entry _ Hv i e He) as [Hphys _].
  destruct (get_disk_ok v (tid e) (virtualPage e) (vo_valid _ Hv i e He Hval)) as (d & bs & Hd & Hbs & Hget & H0 & Hlen).
  destruct (vo_valid _ Hv i e He Hval) as [Hvp _].
  pose proof (lookup_lt_Some _ _ _ He) as Hi. rewrite (vo_table _ Hv) in Hi. pose proof (vo_mem _ Hv) as Hm.
  change PageSize with 128 in *. unfold write_back. erewrite bind_ok by done.
  erewrite bind_ok; [|apply lift_ok, slice_ok; change PageSize with 128; lia].
  rewrite (bind_ok _ _ _ _ _ Hget). rewrite Hphys. change PageSize with 128.
  set (page := take _ (drop _ (mainMemory (vm_machine v)))).
  assert (Hpl : length page = 128%nat) by (apply length_page; lia).
  erewrite bind_ok; [|apply lift_ok, splice_ok; change PageSize with 128; lia]. change PageSize with 128.
  unfold put_disk. rewrite Hd. eexists. split; [done|]. split_and!; [|done|].
  - constructor; try done. intros t p (Hp & d' & bs' & Hd' & Hbs' & Hl). split; [done|]. simpl.
    destruct (decide (d' = d)) as [->|Hne].
    + exists d. eexists. rewrite lookup_insert_eq. split_and!; [done|done|]. rewrite length_ins by lia. congruence.
    + exists d', bs'. by rewrite lookup_insert_ne.
  - intros t a Ha. unfold disk_byte. simpl. destruct (disk_of v !! t) as [d'|] eqn:Hd'; simpl.
    2:{ rewrite decide_False; [done|]. intros [-> _]. congruence. }
    destruct (decide (d' = d)) as [->|Hne].
    + assert (t = tid e) as -> by (by eapply (vo_private _ Hv)). rewrite lookup_insert_eq, Hbs. simpl.
      rewrite page_ins by lia. repeat case_decide; try naive_solver.
      destruct (page_split a Ha) as (_ & _ & ?). unfold page, mem_byte. rewrite page_lookup by lia. done.
    + rewrite lookup_insert_ne by done. rewrite decide_False; [done|]. intros [-> _]. congruence.
Qed.

Lemma read_in_ok v ppn vpn :
  length (mainMemory (vm_machine v)) = 4096%nat -> 0 <= ppn < 32 -> has_page v (vm_tid v) vpn ->
  exists v', read_in ppn vpn v = Ok (tt, v') /\ same_shape v v' /\ disks v' = disks v /\
    forall j o, 0 <= j -> 0 <= o < 128 -> mem_byte v' j o =
      if decide (j = ppn) then disk_byte v (vm_tid v) (vpn * 128 + o) else mem_byte v j o.
Proof.
  intros Hm Hp Hpage. destruct (get_disk_ok v (vm_tid v) vpn Hpage) as (d & bs & Hd & Hbs & Hget & H0 & Hlen).
  destruct Hpage as [Hvp _]. unfold read_in. erewrite bind_ok by done. rewrite (bind_ok _ _ _ _ _ Hget).
  erewrite bind_ok; [|apply lift_ok, slice_ok; change PageSize with 128 in *; lia]. erewrite bind_ok by done.
  change PageSize with 128 in *. set (page := take _ (drop _ bs)).
  assert (Hpl : length page = 128%nat) by (apply length_page; lia).
  erewrite bind_ok; [|apply lift_ok, splice_ok; lia]. eexists. split; [done|]. split_and!; [|done|].
  - constructor; try done. simpl. rewrite length_ins; [done|]. lia.
  - intros j o Hj Ho. unfold mem_byte at 1. simpl. change PageSize with 128. rewrite page_ins by lia.
    replace ((j * 128 + o) / 128) with j by (rewrite Z.div_add_l, (Z.div_small o) by lia; lia).
    replace ((j * 128 + o) mod 128) with o by (rewrite Z.add_comm, Z.mod_add, Z.mod_small by lia; lia).
    case_decide; [|done]. unfold page, disk_byte. rewrite page_lookup by lia. rewrite Hd. simpl. by rewrite Hbs.
Qed.

Section Replace.
Context (Random : nat -> Z) (Random_nonneg : forall n, 0 <= Random n).

Lemma victim_ok v : length (rt_page_table (vm_machine v)) = 32%nat ->
  exists i n, victim Random v = Ok (i, set_vm_draws n v) /\ 0 <= i < 32.
Proof.
  intros Hl. unfold victim. erewrite bind_ok by done.
  destruct (first _ 0 _) as [i|] eqn:Hf.
  - exists i, (vm_draws v). split; [by destruct v|]. apply first_Some in Hf as (Hi & x & Hx & _).
    apply lookup_lt_Some in Hx. rewrite length_take in Hx. lia.
  - eexists _, _. split; [done|].
    pose proof (Z.rem_bound_pos (Random (vm_draws v)) NumPhysPages (Random_nonneg _) ltac:(done)).
    change NumPhysPages with 32 in *. lia.
Qed.

Lemma set_draws_ok v n : vm_ok v -> vm_ok (set_vm_draws n v).
Proof. by intros []. Qed.

(** The table after a page has been replaced. *)
Lemma replaced_ok v v' (i : nat) e vpn :
  vm_ok v -> rt_page_table (vm_machine v) !! i = Some e -> has_page v (vm_tid v) vpn ->
  mapping v (vm_tid v) vpn = None ->
  (forall t p, has_page v t p -> has_page v' t p) -> disk_of v' = disk_of v ->
  rt_page_table (vm_machine v') =
    <[i := MkRev vpn (physicalPage e) true (readOnly e) (use e) false (LRU e) (vm_tid v)]>
      (rt_page_table (vm_machine v)) ->
  length (mainMemory (vm_machine v')) = 4096%nat ->
  (forall t a, 0 <= a -> disk_byte v' t a =
     if decide (valid e = true /\ t = tid e /\ a / 128 = virtualPage e)
     then mem_byte v (Z.of_nat i) (a mod 128) else disk_byte v t a) ->
  (forall j o, 0 <= j -> 0 <= o < 128 -> mem_byte v' j o =
     if decide (j = Z.of_nat i) then disk_byte v' (vm_tid v) (vpn * 128 + o) else mem_byte v j o) ->
  vm_ok v' /\ mapping v' (vm_tid v) vpn = Some (Z.of_nat i) /\
  forall t a, 0 <= a -> vbyte v' t a = vbyte v t a.
Proof.
  intros Hv He Hpage Hnone Hpages Hdo Htbl Hmem Hdisk Hbytes.
  pose proof (lookup_lt_Some _ _ _ He) as Hi.
  assert (Hnot : forall j f, rt_page_table (vm_machine v) !! j = Some f ->
    ~ (valid f = true /\ virtualPage f = vpn /\ tid f = vm_tid v)) by (by apply mapping_None).
  set (e' := MkRev _ _ _ _ _ _ _ _) in Htbl.
  assert (Hlk : forall j f, rt_page_table (vm_machine v') !! j = Some f ->
    (j = i /\ f = e') \/ (j <> i /\ rt_page_table (vm_machine v) !! j = Some f)).
  { intros j f Hj. rewrite Htbl in Hj. apply list_lookup_insert_Some in Hj as [(<- & <- & _)|[? ?]]; auto. }
  assert (Hlk' : rt_page_table (vm_machine v') !! i = Some e')
    by (rewrite Htbl; by apply list_lookup_insert_eq).
  (* a page mapped by another entry than the victim's is not the victim's page *)
  assert (Hapart : forall j f, j <> i -> rt_page_table (vm_machine v) !! j = Some f -> valid f = true ->
    ~ (valid e = true /\ tid f = tid e /\ virtualPage f = virtualPage e)).
  { intros j f Hne Hf Hfv (Hev & Ht & Hp). apply Hne. by eapply (vo_unique _ Hv). }
  assert (Hok : vm_ok v').
  { split.
    - rewrite Htbl, length_insert. apply (vo_table _ Hv).
    - done.
    - intros j f [[-> ->]|[_ Hf]]%Hlk; [by apply (vo_entry _ Hv i e)|by apply (vo_entry _ Hv)].
    - intros j f [[-> ->]|[_ Hf]]%Hlk Hval; apply Hpages; [done|]. by apply (vo_valid _ Hv j f).
    - intros j1 j2 f1 f2 [[-> ->]|[Hn1 Hf1]]%Hlk [[-> ->]|[Hn2 Hf2]]%Hlk V1 V2 Ht Hp; simpl in *; try done.
      + destruct (Hnot j2 f2 Hf2). done.
      + destruct (Hnot j1 f1 Hf1). done.
      + by eapply (vo_unique _ Hv).
    - intros j f o [[-> ->]|[Hne Hf]]%Hlk Hval Hdirty Ho; change PageSize with 128 in *.
      + rewrite Hbytes by lia. by rewrite decide_True.
      + destruct (vo_valid _ Hv j f Hf Hval) as [Hvp _]. rewrite Hbytes by lia.
        rewrite decide_False by lia. rewrite Hdisk by lia.
        replace ((virtualPage f * 128 + o) / 128) with (virtualPage f)
          by (rewrite Z.div_add_l, (Z.div_small o) by lia; lia).
        rewrite decide_False by (intros (? & ? & ?); by destruct (Hapart j f Hne Hf Hval)).
        by apply (vo_clean _ Hv j f).
    - rewrite Hdo. apply (vo_private _ Hv). }
  assert (Hmap : mapping v' (vm_tid v) vpn = Some (Z.of_nat i)).
  { apply (mapping_Some v' Hok). exists e'. rewrite Nat2Z.id. split; [lia|done]. }
  split_and!; [done|done|]. intros t a Ha. destruct (page_split a Ha) as (Hsplit & Hp & Ho).
  unfold vbyte. change PageSize with 128.
  destruct (mapping v t (a / 128)) as [j|] eqn:Hj.
  - (* mapped before *)
    apply (mapping_Some v Hv) in Hj as (f & Hj0 & Hf & Hfv & Hfp & Hft).
    destruct (decide (Z.to_nat j = i)) as [Hji|Hji].
    + (* by the victim *)
      rewrite Hji, He in Hf. injection Hf as <-.
      assert (mapping v' t (a / 128) = None) as ->.
      { apply (mapping_None v' Hok). intros j2 f2 [[-> ->]|[Hne Hf2]]%Hlk (V2 & P2 & T2).
        - destruct (Hnot i e He). simpl in *. split_and!; congruence.
        - apply Hne. eapply (vo_unique _ Hv); eauto; congruence. }
      rewrite Hdisk by done. rewrite decide_True by done. by replace j with (Z.of_nat i) by lia.
    + assert (mapping v' t (a / 128) = Some j) as ->.
      { apply (mapping_Some v' Hok). exists f. split_and!; try done. rewrite Htbl. by rewrite list_lookup_insert_ne. }
      rewrite Hbytes by lia. by rewrite decide_False by lia.
  - (* not mapped before *)
    destruct (decide (t = vm_tid v /\ a / 128 = vpn)) as [[-> Hvpn]|Hother].
    + rewrite Hvpn, Hmap, Hbytes by lia. rewrite decide_True by done. rewrite <- Hvpn, <- Hsplit, Hdisk by done.
      rewrite decide_False; [done|]. intros (V & T & P). destruct (Hnot i e He). split_and!; congruence.
    + assert (mapping v' t (a / 128) = None) as ->.
      { apply (mapping_None v' Hok). intros j2 f2 [[-> ->]|[Hne Hf2]]%Hlk (V2 & P2 & T2); simpl in *.
        - apply Hother. by split.
        - rewrite (mapping_None v Hv) in Hj. by destruct (Hj j2 f2 Hf2). }
      rewrite Hdisk by done. rewrite decide_False; [done|]. intros (V & T & P).
      rewrite (mapping_None v Hv) in Hj. by destruct (Hj i e He).
Qed.

(** [ReverseTableReplace], on a page that is not in main memory. *)
Lemma replace_ok v addr :
  let vpn := u32 addr / PageSize in
  vm_ok v -> has_page v (vm_tid v) vpn -> mapping v (vm_tid v) vpn = None ->
  exists v', ReverseTableReplace Random addr v = Ok (tt, v') /\ vm_ok v' /\
    (exists i, mapping v' (vm_tid v) vpn = Some i) /\
    (forall t a, 0 <= a -> vbyte v' t a = vbyte v t a) /\
    vm_tid v' = vm_tid v /\ registers (vm_machine v') = registers (vm_machine v) /\ vm_mode v' = vm_mode v /\
    (forall t p, has_page v t p -> has_page v' t p).
Proof.
  intros vpn Hv Hpage Hnone. destruct (victim_ok v (vo_table _ Hv)) as (i & n & Hvic & Hi).
  unfold ReverseTableReplace. rewrite (bind_ok _ _ _ _ _ Hvic). set (v0 := set_vm_draws n v).
  assert (Hv0 : vm_ok v0) by (by apply set_draws_ok). erewrite bind_ok by done.
  destruct (lookup_lt_is_Some_2 (rt_page_table (vm_machine v)) (Z.to_nat i)) as [e He];
    [rewrite (vo_table _ Hv); lia|].
  erewrite bind_ok; [|apply lift_ok, aget_Some; split; [lia|exact He]].
  destruct (vo_entry _ Hv _ e He) as [Hphys Hro]. rewrite Z2Nat.id in Hphys by lia.
  (* the victim goes to its disk *)
  assert (exists v1, (if valid e && dirty e then write_back e else mret tt) v0 = Ok (tt, v1) /\
    same_shape v0 v1 /\ vm_machine v1 = vm_machine v /\
    forall t a, 0 <= a -> disk_byte v1 t a =
      if decide (valid e = true /\ t = tid e /\ a / 128 = virtualPage e)
      then mem_byte v (Z.of_nat (Z.to_nat i)) (a mod 128) else disk_byte v t a) as (v1 & Hw & Hs1 & Hm1 & Hd1).
  { destruct (valid e) eqn:Hval; [destruct (dirty e) eqn:Hdirty|]; simpl.
    - destruct (write_back_ok v0 (Z.to_nat i) e Hv0 He Hval) as (v1 & Hw & Hs & Hm & Hd).
      exists v1. split_and!; try done. intros t a Ha. rewrite Hd by done. repeat case_decide; naive_solver.
    - exists v0. split_and!; try done. intros t a Ha. case_decide as Hc; [|done]. destruct Hc as (_ & -> & Hp).
      destruct (page_split a Ha) as (Hsplit & _ & Ho).
      rewrite (vo_clean _ Hv (Z.to_nat i) e (a mod 128) He Hval Hdirty Ho).
      change PageSize with 128. by rewrite <- Hp, <- Hsplit.
    - by exists v0. }
  rewrite (bind_ok _ _ _ _ _ Hw). destruct Hs1 as [A1 A2 A3 A4 A5 A6 A7].
  (* the page comes in *)
  destruct (read_in_ok v1 (physicalPage e) vpn) as (v2 & Hr & [B1 B2 B3 B4 B5 B6 B7] & Hd2 & Hbytes).
  { rewrite Hm1. apply (vo_mem _ Hv). }
  { lia. }
  { rewrite A2. by apply A7. }
  rewrite (bind_ok _ _ _ _ _ Hr). erewrite bind_ok by done.
  erewrite bind_ok; [|apply lift_ok, aset_ok; change (rt_page_table (vm_machine v0)) with (rt_page_table (vm_machine v));
    rewrite (vo_table _ Hv); lia].
  eexists. split; [done|]. set (v3 := lset vm _ v2).
  assert (Hdb : forall t a, disk_byte v3 t a = disk_byte v1 t a).
  { intros t a. unfold disk_byte. simpl. by rewrite B1, Hd2. }
  assert (Hmb : forall j o, mem_byte v3 j o = mem_byte v2 j o) by done.
  assert (Hpg : forall t p, has_page v t p -> has_page v3 t p) by (intros t p Hp; by apply B7, A7).
  destruct (replaced_ok v v3 (Z.to_nat i) e vpn) as (Hok & Hmap & Hvb); try done.
  - simpl. by rewrite B1, A1.
  - simpl. by rewrite B2, A2.
  - simpl. rewrite B6, Hm1. apply (vo_mem _ Hv).
  - intros t a Ha. by rewrite Hdb, Hd1.
  - intros j o Hj Ho. rewrite Hmb, Hbytes, Hphys, A2, Hdb by done. rewrite Z2Nat.id by lia.
    destruct (decide (j = i)); [done|]. unfold mem_byte. by rewrite Hm1.
  - split_and!; try done; [by eexists|simpl; by rewrite B2, A2|simpl; by rewrite B4, Hm1|simpl; by rewrite B5, A5].
Qed.
End Replace.

(** ** Accesses *)

(** An access of [size] bytes that is aligned, and the bytes as a value. *)
Definition aligned (addr size : Z) : Prop :=
  (size = 1 \/ size = 2 \/ size = 4) /\ (size | u32 addr).
Definition as_value (size : Z) (bs : list Z) : Z :=
  if size =? 1 then i8 (le_val bs) else if size =? 2 then le_val bs else i32 (le_val bs).

Lemma land_small x n : 0 <= n -> Z.land x (Z.ones n) = 0 <-> (2 ^ n | x).
Proof. intros. rewrite Z.land_ones by lia. apply Z.mod_divide. apply Z.pow_nonzero; lia. Qed.

Lemma u32_divide n x : 0 <= n <= 32 -> (2 ^ n | u32 x) <-> (2 ^ n | x).
Proof.
  intros Hn. unfold u32. assert (Hd : (2 ^ n | 2 ^ 32)).
  { exists (2 ^ (32 - n)). rewrite <- Z.pow_add_r by lia. f_equal. lia. }
  split; intros H.
  - rewrite (Z.div_mod x (2 ^ 32)) by lia. apply Z.divide_add_r; [|done]. by apply Z.divide_mul_l.
  - rewrite Z.mod_eq by lia. apply Z.divide_sub_r; [done|]. by apply Z.divide_mul_l.
Qed.

Lemma aligned_test addr size :
  aligned addr size ->
  ((size =? 4) && negb (Z.land addr 3 =? 0)) || ((size =? 2) && negb (Z.land addr 1 =? 0)) = false.
Proof.
  intros [Hs Hd]. destruct Hs as [->|[->| ->]]; simpl; [done| |].
  - apply (proj1 (u32_divide 1 addr ltac:(lia))), (proj2 (land_small addr 1 ltac:(lia))) in Hd.
    change (Z.ones 1) with 1 in Hd. by rewrite Hd.
  - apply (proj1 (u32_divide 2 addr ltac:(lia))), (proj2 (land_small addr 2 ltac:(lia))) in Hd.
    change (Z.ones 2) with 3 in Hd. by rewrite Hd.
Qed.

(** An aligned access stays inside its page. *)
Lemma aligned_in_page addr size : aligned addr size -> u32 addr mod 128 + size <= 128.
Proof.
  intros [Hs [q Hq]]. pose proof (Z.mod_pos_bound (u32 addr) 128 ltac:(lia)).
  pose proof (Z.div_mod (u32 addr) 128 ltac:(lia)).
  set (r := u32 addr mod 128) in *. set (p := u32 addr / 128) in *.
  destruct Hs as [->|[->| ->]]; lia.
Qed.

(** The use and dirty bits of the entry in [Translate]. *)
Definition touched (writing : bool) (i : Z) (e : ReverseTranslationEntry) (m : Machine) : Machine :=
  set_rt_page_table
    (<[Z.to_nat i := MkRev (virtualPage e) (physicalPage e) (valid e) (readOnly e) true (writing || dirty e)
                       (LRU e) (tid e)]> (rt_page_table m))
    (set_tlbTimes (i32 (tlbTimes m + 1)) m).

(** [Translate] on a page of main memory, and on one that is not there. *)
Lemma translate_hit v addr size writing i :
  vm_ok v -> aligned addr size -> mapping v (vm_tid v) (u32 addr / 128) = Some i ->
  exists e, rt_page_table (vm_machine v) !! Z.to_nat i = Some e /\ 0 <= i < 32 /\
    Translate (vm_tid v) addr size writing (vm_machine v) =
      Ok (inr (i * 128 + u32 addr mod 128), touched writing i e (vm_machine v)).
Proof.
  intros Hv Ha Hm. pose proof Hm as Hm'. apply (mapping_Some v Hv) in Hm' as (e & Hi & He & _ & _ & _).
  pose proof (lookup_lt_Some _ _ _ He) as Hlt. rewrite (vo_table _ Hv) in Hlt.
  exists e. split; [done|]. split; [lia|]. unfold Translate. rewrite (aligned_test _ _ Ha).
  erewrite bind_ok by done. erewrite bind_ok by done. cbn [rt_page_table set_tlbTimes].
  change PageSize with 128. unfold mapping in Hm. rewrite Hm.
  erewrite bind_ok; [|apply lift_ok, aget_Some; split; [lia|exact He]].
  destruct (vo_entry _ Hv _ e He) as [Hphys Hro]. rewrite Z2Nat.id in Hphys by lia. rewrite Hro. cbn [andb].
  rewrite Hphys. rewrite u32_id by (unfold is_u32; lia). change NumPhysPages with 32.
  rewrite (proj2 (Z.leb_gt _ _)) by lia.
  erewrite bind_ok; [|apply lift_ok, aset_ok; rewrite (vo_table _ Hv); lia].
  erewrite bind_ok by done. pose proof (Z.mod_pos_bound (u32 addr) 128 ltac:(lia)).
  pose proof (aligned_in_page _ _ Ha) as Hin. destruct Ha as [Hs _].
  rewrite i32_id by (unfold is_i32; lia). unfold ASSERT. change MemorySize with 4096.
  rewrite (proj2 (Z.leb_le _ _)), (proj2 (Z.leb_le _ _)) by lia. erewrite bind_ok by done.
  unfold touched. rewrite Hphys, Hro. done.
Qed.

Lemma translate_miss v addr size writing :
  aligned addr size -> mapping v (vm_tid v) (u32 addr / 128) = None ->
  Translate (vm_tid v) addr size writing (vm_machine v) =
    Ok (inl PageFaultException, set_tlbTimes (i32 (tlbTimes (vm_machine v) + 1)) (vm_machine v)).
Proof.
  intros Ha Hm. unfold Translate. rewrite (aligned_test _ _ Ha). erewrite bind_ok by done.
  erewrite bind_ok by done. cbn [rt_page_table set_tlbTimes]. change PageSize with 128.
  unfold mapping in Hm. by rewrite Hm.
Qed.

(** Setting the bits of an entry changes no thread's memory. *)
Lemma touched_ok v writing i e :
  vm_ok v -> 0 <= i -> rt_page_table (vm_machine v) !! Z.to_nat i = Some e ->
  let v' := set_vm_machine (touched writing i e (vm_machine v)) v in
  vm_ok v' /\ (forall t p, mapping v' t p = mapping v t p) /\ (forall t a, vbyte v' t a = vbyte v t a).
Proof.
  intros Hv Hi He v'. pose proof (lookup_lt_Some _ _ _ He) as Hlt.
  set (e' := MkRev (virtualPage e) (physicalPage e) (valid e) (readOnly e) true (writing || dirty e) (LRU e) (tid e)).
  assert (Hlk : forall j f, rt_page_table (vm_machine v') !! j = Some f ->
    exists g, rt_page_table (vm_machine v) !! j = Some g /\ virtualPage f = virtualPage g /\
      physicalPage f = physicalPage g /\ valid f = valid g /\ readOnly f = readOnly g /\ tid f = tid g /\
      (dirty f = false -> dirty g = false)).
  { intros j f Hj. simpl in Hj. apply list_lookup_insert_Some in Hj as [(<- & <- & _)|[_ Hj]].
    - exists e. split_and!; try done. simpl. by intros [_ ?]%orb_false_iff.
    - by exists f. }
  assert (Hok : vm_ok v').
  { split; try done.
    - simpl. rewrite length_insert. apply (vo_table _ Hv).
    - apply (vo_mem _ Hv).
    - intros j f (g & Hg & _ & -> & _ & -> & _)%Hlk. by apply (vo_entry _ Hv).
    - intros j f (g & Hg & -> & _ & -> & _ & -> & _)%Hlk. by apply (vo_valid _ Hv j).
    - intros j1 j2 f1 f2 (g1 & G1 & -> & _ & -> & _ & -> & _)%Hlk (g2 & G2 & -> & _ & -> & _ & -> & _)%Hlk.
      by apply (vo_unique _ Hv).
    - intros j f o (g & Hg & -> & _ & -> & _ & -> & Hd)%Hlk V D. apply (vo_clean _ Hv j g o Hg V (Hd D)).
    - apply (vo_private _ Hv). }
  assert (Hmap : forall t p, mapping v' t p = mapping v t p).
  { intros t p. destruct (mapping v t p) as [j|] eqn:Hm.
    - apply (mapping_Some v Hv) in Hm as (f & Hj & Hf & Hm). apply (mapping_Some v' Hok).
      destruct (decide (Z.to_nat i = Z.to_nat j)) as [E|E].
      + exists e'. rewrite <- E in Hf |- *. simpl. rewrite list_lookup_insert_eq by done.
        assert (f = e) as -> by congruence. done.
      + exists f. simpl. by rewrite list_lookup_insert_ne.
    - rewrite (mapping_None v Hv) in Hm. apply (mapping_None v' Hok).
      intros j f (g & Hg & -> & _ & -> & _ & -> & _)%Hlk. by apply (Hm j). }
  split_and!; [done|done|]. intros t a. unfold vbyte. by rewrite Hmap.
Qed.

(** ** Registers *)

(** The registers are there and [LoadReg] names a general register. *)
Definition regs_ok (m : Machine) : Prop :=
  length (registers m) = 40%nat /\ exists r, registers m !! 37%nat = Some r /\ 0 <= r < 32.

Lemma reg_ok m i x : 0 <= i -> registers m !! Z.to_nat i = Some x -> reg i m = Ok (x, m).
Proof.
  intros Hi Hx. unfold reg. erewrite bind_ok by done. apply lift_ok, aget_Some. done.
Qed.
Lemma set_reg_ok m i x : length (registers m) = 40%nat -> 0 <= i < 40 ->
  set_reg i x m = Ok (tt, set_registers (<[Z.to_nat i := x]> (registers m)) m).
Proof.
  intros Hl Hi. unfold set_reg. erewrite bind_ok by done.
  erewrite bind_ok; [|apply lift_ok, aset_ok; lia]. done.
Qed.

(** The effect of [DelayedLoad]: the pending load is done, the next one noted, and
    register 0 stays zero. *)
Definition delayed (r x nextReg nextValue : Z) (rs : list Z) : list Z :=
  <[0%nat := 0]> (<[38%nat := nextValue]> (<[37%nat := nextReg]> (<[Z.to_nat r := x]> rs))).

Lemma delayed_load_ok m r x n y :
  length (registers m) = 40%nat -> registers m !! 37%nat = Some r -> 0 <= r < 32 ->
  registers m !! 38%nat = Some x ->
  DelayedLoad n y m = Ok (tt, set_registers (delayed r x n y (registers m)) m).
Proof.
  intros Hl Hr Hrange Hx. unfold DelayedLoad.
  rewrite (bind_ok _ _ _ _ _ (reg_ok m LoadReg r ltac:(done) Hr)).
  rewrite (bind_ok _ _ _ _ _ (reg_ok m LoadValueReg x ltac:(done) Hx)).
  rewrite (bind_ok _ _ _ _ _ (set_reg_ok m r x Hl ltac:(lia))).
  erewrite bind_ok; [|apply set_reg_ok; [cbn [registers set_registers]; by rewrite length_insert|done]].
  erewrite bind_ok; [|apply set_reg_ok; [cbn [registers set_registers]; by rewrite !length_insert|done]].
  rewrite set_reg_ok; [done|cbn [registers set_registers]; by rewrite !length_insert|done].
Qed.

Lemma regs_ok_delayed m r x n y : regs_ok m -> 0 <= n < 32 -> 0 <= r < 32 ->
  regs_ok (set_registers (delayed r x n y (registers m)) m).
Proof.
  intros [Hl _] Hn Hr. unfold delayed, regs_ok. cbn [registers set_registers]. split; [by rewrite !length_insert|].
  exists n. split; [|done]. rewrite !list_lookup_insert_ne by done.
  apply list_lookup_insert_eq. rewrite length_insert. lia.
Qed.

Section Access.
Context (Random : nat -> Z) (Random_nonneg : forall n, 0 <= Random n).
Context (others : ExceptionType -> M Vm unit).
#[local] Instance host : Host Vm := vm_host Random others.

(** What an access leaves as it is. *)
Record undisturbed (v v' : Vm) : Prop := {
  un_ok : vm_ok v';
  un_regs : regs_ok (vm_machine v');
  un_tid : vm_tid v' = vm_tid v;
  un_pages : forall t p, has_page v t p -> has_page v' t p
}.

(** A page fault brings the page in and changes no thread's memory. *)
Lemma page_fault_ok v addr :
  vm_ok v -> regs_ok (vm_machine v) -> has_page v (vm_tid v) (u32 addr / 128) ->
  mapping v (vm_tid v) (u32 addr / 128) = None ->
  exists v', RaiseException PageFaultException addr v = Ok (tt, v') /\ undisturbed v v' /\
    (exists i, mapping v' (vm_tid v) (u32 addr / 128) = Some i) /\
    (forall t a, 0 <= a -> vbyte v' t a = vbyte v t a).
Proof.
  intros Hv [Hl (r & Hr & Hrange)] Hpage Hm. unfold RaiseException, on_machine. cbn [machine host vm_host].
  rewrite (bind_ok _ _ _ _ _ (zoom_ok vm _ v _ _ (set_reg_ok (vm_machine v) BadVAddrReg addr Hl ltac:(done)))).
  set (rs1 := <[Z.to_nat BadVAddrReg := addr]> (registers (vm_machine v))).
  set (v1 := lset vm _ v).
  destruct (lookup_lt_is_Some_2 (registers (vm_machine v)) 38%nat ltac:(lia)) as [x Hx].
  assert (Hr1 : registers (vm_machine v1) !! 37%nat = Some r) by (simpl; unfold rs1; by rewrite list_lookup_insert_ne).
  assert (Hx1 : registers (vm_machine v1) !! 38%nat = Some x) by (simpl; unfold rs1; by rewrite list_lookup_insert_ne).
  assert (Hl1 : length (registers (vm_machine v1)) = 40%nat) by (simpl; unfold rs1; by rewrite length_insert).
  rewrite (bind_ok _ _ _ _ _ (zoom_ok vm _ v1 _ _ (delayed_load_ok (vm_machine v1) r x 0 0 Hl1 Hr1 Hrange Hx1))).
  set (v2 := lset vm _ v1). erewrite bind_ok by done. cbn [setStatus ExceptionHandler host vm_host].
  rewrite bool_decide_eq_true_2 by done. set (v3 := set_vm_mode SystemMode v2).
  assert (Hbad : ReadRegister BadVAddrReg (vm_machine v3) = Ok (addr, vm_machine v3)).
  { unfold ReadRegister. erewrite bind_ok by done. erewrite bind_ok by done. apply lift_ok, aget_Some. split; [done|].
    change (Z.to_nat BadVAddrReg) with 39%nat. simpl. unfold delayed.
    rewrite !list_lookup_insert_ne by lia. apply list_lookup_insert_eq.  change (Z.to_nat BadVAddrReg) with 39%nat. lia. }
  unfold page_fault.
  assert (Hv3 : vm_ok v3) by (by destruct Hv).
  destruct (replace_ok Random Random_nonneg v3 addr Hv3 Hpage Hm)
    as (v4 & Hrun & Hok & Hmap & Hvb & Ht & Hregs & Hmode & Hpg).
  rewrite (bind_ok _ _ v3 tt v4).
  2:{ rewrite (bind_ok _ _ _ _ _ (zoom_ok vm _ v3 _ _ Hbad)). exact Hrun. }
  eexists. split; [done|]. split; [|by split].
  assert (Hro : regs_ok (vm_machine v2)).
  { apply (regs_ok_delayed (vm_machine v1) r x 0 0); [|lia|lia]. split; [done|]. by exists r. }
  split; [by destruct Hok| |exact Ht|exact Hpg].
  unfold regs_ok in *. cbn [vm_machine set_vm_mode]. rewrite Hregs. exact Hro.
Qed.

(** The bytes a load or store of [size] bytes at [addr] concerns. *)
Definition touches (v : Vm) (addr size t a : Z) : Prop := t = vm_tid v /\ u32 addr <= a < u32 addr + size.

Lemma page_of_access addr size a :
  aligned addr size -> u32 addr <= a < u32 addr + size ->
  a / 128 = u32 addr / 128 /\ a mod 128 = u32 addr mod 128 + (a - u32 addr).
Proof.
  intros Ha Hr. pose proof (aligned_in_page _ _ Ha). pose proof (u32_range addr) as Hu. unfold is_u32 in Hu.
  destruct (page_split (u32 addr) ltac:(lia)) as (Hs & Hp & Ho).
  set (p := u32 addr / 128) in *. set (o := u32 addr mod 128) in *.
  split; symmetry; [apply (Z.div_unique_pos _ _ _ (o + (a - u32 addr)))|apply (Z.mod_unique_pos _ _ p)]; lia.
Qed.

(** A load from a page of main memory; [w] may differ from [v] in everything but
    the machine and the thread. *)
Lemma read_hit_full v addr size i :
  vm_ok v -> regs_ok (vm_machine v) -> aligned addr size -> mapping v (vm_tid v) (u32 addr / 128) = Some i ->
  exists bs m, Z.of_nat (length bs) = size /\
    (forall w, vm_machine w = vm_machine v -> vm_tid w = vm_tid v ->
       ReadMem addr size w = Ok (Some (as_value size bs), set_vm_machine m w)) /\
    (forall a, u32 addr <= a < u32 addr + size -> vbyte v (vm_tid v) a = bs !! Z.to_nat (a - u32 addr)) /\
    undisturbed v (set_vm_machine m v) /\ (forall t a, vbyte (set_vm_machine m v) t a = vbyte v t a) /\
    registers m = registers (vm_machine v) /\ tlb m = tlb (vm_machine v) /\
    (forall t p, mapping (set_vm_machine m v) t p = mapping v t p).
Proof.
  intros Hv Hr Ha Hm. destruct (translate_hit v addr size false i Hv Ha Hm) as (e & He & Hi & Htr).
  destruct (touched_ok v false i e Hv ltac:(lia) He) as (Hok & Hmaps & Hvb).
  pose proof (aligned_in_page _ _ Ha) as Hin. pose proof (Z.mod_pos_bound (u32 addr) 128 ltac:(lia)) as Ho.
  pose proof (vo_mem _ Hv) as Hlm. set (pa := i * 128 + u32 addr mod 128) in *.
  set (bs := take (Z.to_nat size) (drop (Z.to_nat pa) (mainMemory (vm_machine v)))).
  set (m := touched false i e (vm_machine v)) in *.
  assert (Hs : size = 1 \/ size = 2 \/ size = 4) by apply Ha.
  exists bs, m. assert (Hlen : Z.of_nat (length bs) = size).
  { unfold bs, pa. rewrite length_take, length_drop. lia. }
  split_and!; [done| | |split; [exact Hok|exact Hr|done|done]|exact Hvb|done|done|exact Hmaps].
  - intros w Hw Ht. unfold ReadMem, on_machine. cbn [current_tid machine host vm_host]. erewrite bind_ok by done.
    rewrite <- Ht, <- Hw in Htr. rewrite (bind_ok _ _ _ _ _ (zoom_ok vm _ w _ _ Htr)).
    rewrite (bind_ok _ _ _ (as_value size bs) (set_vm_machine m w)); [done|]. unfold zoom, fetch.
    erewrite bind_ok by done. erewrite bind_ok; [|apply lift_ok, slice_ok; unfold pa; simpl; lia].
    change (take (Z.to_nat size) (drop (Z.to_nat pa) (mainMemory (lget vm (lset vm m w))))) with bs.
    unfold as_value, ShortToHost, WordToHost. destruct Hs as [->|[->| ->]]; done.
  - intros a Hra. destruct (page_of_access addr size a Ha Hra) as [Hp Hmod]. unfold vbyte.
    change PageSize with 128. rewrite Hp, Hm, Hmod. unfold mem_byte, bs. change PageSize with 128.
    rewrite lookup_take_lt, lookup_drop by lia. f_equal. unfold pa. lia.
Qed.

Lemma read_hit_any v addr size i :
  vm_ok v -> regs_ok (vm_machine v) -> aligned addr size -> mapping v (vm_tid v) (u32 addr / 128) = Some i ->
  exists bs m, Z.of_nat (length bs) = size /\
    (forall w, vm_machine w = vm_machine v -> vm_tid w = vm_tid v ->
       ReadMem addr size w = Ok (Some (as_value size bs), set_vm_machine m w)) /\
    (forall a, u32 addr <= a < u32 addr + size -> vbyte v (vm_tid v) a = bs !! Z.to_nat (a - u32 addr)) /\
    undisturbed v (set_vm_machine m v) /\ (forall t a, vbyte (set_vm_machine m v) t a = vbyte v t a).
Proof.
  intros Hv Hr Ha Hm. destruct (read_hit_full v addr size i Hv Hr Ha Hm) as (bs & m & H1 & H2 & H3 & H4 & H5 & _).
  by exists bs, m.
Qed.

Lemma read_hit v addr size i :
  vm_ok v -> regs_ok (vm_machine v) -> aligned addr size -> mapping v (vm_tid v) (u32 addr / 128) = Some i ->
  exists bs v', ReadMem addr size v = Ok (Some (as_value size bs), v') /\ Z.of_nat (length bs) = size /\
    (forall a, u32 addr <= a < u32 addr + size -> vbyte v (vm_tid v) a = bs !! Z.to_nat (a - u32 addr)) /\
    undisturbed v v' /\ (forall t a, vbyte v' t a = vbyte v t a).
Proof.
  intros Hv Hr Ha Hm. destruct (read_hit_any v addr size i Hv Hr Ha Hm) as (bs & m & Hlen & Hrun & H3 & H4 & H5).
  exists bs, (set_vm_machine m v). split_and!; try done. by apply Hrun.
Qed.

Lemma le_bytes_mod n z : le_bytes n (z mod 256 ^ Z.of_nat n) = le_bytes n z.
Proof.
  revert z. induction n as [|n IH]; intros z; [done|]. cbn [le_bytes].
  rewrite Nat2Z.inj_succ, Z.pow_succ_r by lia.
  assert (Hp : 0 < 256 ^ Z.of_nat n) by (apply Z.pow_pos_nonneg; lia).
  rewrite Z.rem_mul_r by lia. f_equal.
  - rewrite Z.add_mod, Z.mul_mod by lia. rewrite Z.mod_same, Z.mul_0_l by lia.
    by rewrite (Z.mod_0_l 256), Z.add_0_r, !Z.mod_mod by lia.
  - rewrite Z.mul_comm, Z.div_add by lia. rewrite (Z.div_small (z mod 256)) by (apply Z.mod_pos_bound; lia).
    rewrite Z.add_0_l. apply IH.
Qed.

Lemma stored_bytes size x :
  size = 1 \/ size = 2 \/ size = 4 ->
  (if size =? 1 then mret (le_bytes 1 (Z.land x 255))
   else if size =? 2 then mret (le_bytes 2 (ShortToMachine (Z.land x 65535)))
   else if size =? 4 then mret (le_bytes 4 (WordToMachine (u32 x)))
   else @halt Machine _ AssertFailed) = mret (le_bytes (Z.to_nat size) x).
Proof.
  unfold ShortToMachine, ShortToHost, WordToMachine, WordToHost. intros [->|[->| ->]]; simpl; f_equal.
  - change 255 with (Z.ones 8). rewrite Z.land_ones by lia. apply (le_bytes_mod 1).
  - change 65535 with (Z.ones 16). rewrite Z.land_ones by lia. apply (le_bytes_mod 2).
  - apply (le_bytes_mod 4).
Qed.

(** A store to a page of main memory. *)
Lemma write_hit_full v addr size x i :
  vm_ok v -> regs_ok (vm_machine v) -> aligned addr size -> mapping v (vm_tid v) (u32 addr / 128) = Some i ->
  exists v', WriteMem addr size x v = Ok (true, v') /\ undisturbed v v' /\
    (registers (vm_machine v') = registers (vm_machine v) /\ forall t p, mapping v' t p = mapping v t p) /\
    forall t a, 0 <= a -> vbyte v' t a =
      if decide (touches v addr size t a) then le_bytes (Z.to_nat size) x !! Z.to_nat (a - u32 addr)
      else vbyte v t a.
Proof.
  intros Hv Hr Ha Hm. destruct (translate_hit v addr size true i Hv Ha Hm) as (e & He & Hi & Htr).
  unfold WriteMem, on_machine. cbn [current_tid machine host vm_host]. erewrite bind_ok by done.
  rewrite (bind_ok _ _ _ _ _ (zoom_ok vm _ v _ _ Htr)).
  destruct (touched_ok v true i e Hv ltac:(lia) He) as (Hok & Hmaps & Hvb).
  set (v1 := lset vm _ v) in *. change (vm_ok v1) in Hok.
  change (forall t p, mapping v1 t p = mapping v t p) in Hmaps.
  change (forall t a, vbyte v1 t a = vbyte v t a) in Hvb.
  pose proof (aligned_in_page _ _ Ha) as Hin. pose proof (Z.mod_pos_bound (u32 addr) 128 ltac:(lia)) as Ho.
  pose proof (vo_mem _ Hv) as Hlm. set (pa := i * 128 + u32 addr mod 128).
  assert (Hs : size = 1 \/ size = 2 \/ size = 4) by apply Ha.
  set (bs := le_bytes (Z.to_nat size) x).
  assert (Hlen : Z.of_nat (length bs) = size) by (unfold bs; rewrite length_le_bytes; lia).
  set (mem' := ins (Z.to_nat pa) bs (mainMemory (vm_machine v))).
  set (v2 := set_vm_machine (set_mainMemory mem' (vm_machine v1)) v1).
  assert (Hbytes : forall j o, 0 <= j -> 0 <= o < 128 -> mem_byte v2 j o =
    if decide (j = i /\ u32 addr mod 128 <= o < u32 addr mod 128 + size)
    then bs !! Z.to_nat (o - u32 addr mod 128) else mem_byte v j o).
  { intros j o Hj Hoo. unfold mem_byte. simpl. unfold mem'. change PageSize with 128.
    rewrite lookup_ins by (unfold pa; lia). unfold pa.
    repeat case_decide; try done; try lia. f_equal. lia. }
  exists v2. split_and!; [| | | |].
  - rewrite (bind_ok _ _ v1 tt v2); [done|]. unfold zoom, store. erewrite bind_ok by done.
    rewrite (stored_bytes size x Hs). erewrite bind_ok by done.
    erewrite bind_ok; [|apply lift_ok, splice_ok; fold bs; unfold pa; simpl; lia]. done.
  - split; [|exact Hr|done|done]. split; try apply Hok.
    + simpl. unfold mem'. rewrite length_ins; [done|]. unfold pa. lia.
    + intros j f o Hf V D Hoo. change PageSize with 128 in *.
      pose proof (lookup_lt_Some _ _ _ Hf) as Hlt. rewrite Hbytes by lia.
      rewrite decide_False; [by apply (vo_clean _ Hok j f)|]. intros [E _].
      simpl in Hf. replace j with (Z.to_nat i) in Hf by lia.
      rewrite list_lookup_insert_eq in Hf by (rewrite (vo_table _ Hv); lia). by injection Hf as <-.
  - done.
  - exact Hmaps.
  - intros t a Hpos. rewrite <- (Hvb t a). destruct (page_split a Hpos) as (Hsp & Hp & Hoo). unfold vbyte.
    change (mapping v2 t (a / PageSize)) with (mapping v1 t (a / PageSize)). rewrite (Hmaps t (a / PageSize)).
    change PageSize with 128. destruct (mapping v t (a / 128)) as [j|] eqn:Hj.
    + pose proof Hj as Hj'. apply (mapping_Some v Hv) in Hj' as (f & Hj0 & Hf & Vf & Pf & Tf).
      rewrite Hbytes by lia. unfold touches.
      destruct (decide (t = vm_tid v /\ u32 addr <= a < u32 addr + size)) as [[-> Hra]|Hno].
      * destruct (page_of_access addr size a Ha Hra) as [Hpa Hmod]. rewrite Hpa in Hj.
        assert (j = i) as -> by congruence. rewrite decide_True by lia. f_equal. lia.
      * rewrite decide_False; [done|]. intros [-> Hr2]. apply Hno.
        apply (mapping_Some v Hv) in Hm as (g & _ & Hg & _ & Pg & Tg).
        assert (g = f) as -> by congruence. split; [congruence|].
        destruct (page_split (u32 addr) ltac:(pose proof (u32_range addr) as Hu; unfold is_u32 in Hu; lia)) as (Hs2 & _).
        lia.
    + unfold touches. rewrite decide_False; [done|]. intros [-> Hra].
      destruct (page_of_access addr size a Ha Hra) as [Hpa _]. rewrite Hpa in Hj. congruence.
Qed.

Lemma write_hit v addr size x i :
  vm_ok v -> regs_ok (vm_machine v) -> aligned addr size -> mapping v (vm_tid v) (u32 addr / 128) = Some i ->
  exists v', WriteMem addr size x v = Ok (true, v') /\ undisturbed v v' /\
    (exists i, mapping v' (vm_tid v) (u32 addr / 128) = Some i) /\
    forall t a, 0 <= a -> vbyte v' t a =
      if decide (touches v addr size t a) then le_bytes (Z.to_nat size) x !! Z.to_nat (a - u32 addr)
      else vbyte v t a.
Proof.
  intros Hv Hr Ha Hm. destruct (write_hit_full v addr size x i Hv Hr Ha Hm) as (v' & H1 & H2 & [_ H3] & H4).
  exists v'. split_and!; [done|done|exists i; by rewrite H3|done].
Qed.

(** An access that is made again after a page fault, as [Machine::Run] makes the
    instruction again. *)
Definition read_retry (addr size : Z) : M Vm Z :=
  r ← ReadMem addr size;
  match r with
  | Some x => mret x
  | None => r ← ReadMem addr size; match r with Some x => mret x | None => halt OutOfFuel end
  end.
Definition write_retry (addr size x : Z) : M Vm unit :=
  b ← WriteMem addr size x;
  if (b : bool) then mret tt else b ← WriteMem addr size x; if (b : bool) then mret tt else halt OutOfFuel.

(** The first try of an access to a page that is not in main memory. *)
Lemma access_miss v addr size writing :
  vm_ok v -> regs_ok (vm_machine v) -> aligned addr size -> has_page v (vm_tid v) (u32 addr / 128) ->
  mapping v (vm_tid v) (u32 addr / 128) = None ->
  exists v1 v2, zoom vm (Translate (vm_tid v) addr size writing) v = Ok (inl PageFaultException, v1) /\
    RaiseException PageFaultException addr v1 = Ok (tt, v2) /\ undisturbed v v2 /\
    (exists i, mapping v2 (vm_tid v) (u32 addr / 128) = Some i) /\
    (forall t a, 0 <= a -> vbyte v2 t a = vbyte v t a).
Proof.
  intros Hv Hr Ha Hpage Hm. pose proof (translate_miss v addr size writing Ha Hm) as Htr.
  set (v1 := set_vm_machine (set_tlbTimes (i32 (tlbTimes (vm_machine v) + 1)) (vm_machine v)) v).
  assert (Hv1 : vm_ok v1) by (by destruct Hv).
  destruct (page_fault_ok v1 addr Hv1 Hr Hpage Hm) as (v2 & Hrun & [U1 U2 U3 U4] & Hmap & Hvb).
  exists v1, v2. split_and!; [by apply (zoom_ok vm)|done|by split|done|done].
Qed.

Lemma read_ok v addr size :
  vm_ok v -> regs_ok (vm_machine v) -> aligned addr size -> has_page v (vm_tid v) (u32 addr / 128) ->
  exists bs v', read_retry addr size v = Ok (as_value size bs, v') /\ Z.of_nat (length bs) = size /\
    (forall a, u32 addr <= a < u32 addr + size -> vbyte v (vm_tid v) a = bs !! Z.to_nat (a - u32 addr)) /\
    undisturbed v v' /\ (forall t a, 0 <= a -> vbyte v' t a = vbyte v t a).
Proof.
  intros Hv Hr Ha Hpage. unfold read_retry. destruct (mapping v (vm_tid v) (u32 addr / 128)) as [i|] eqn:Hm.
  - destruct (read_hit v addr size i Hv Hr Ha Hm) as (bs & v' & Hrun & Hlen & Hb & Hu & Hvb).
    exists bs, v'. by rewrite (bind_ok _ _ _ _ _ Hrun).
  - destruct (access_miss v addr size false Hv Hr Ha Hpage Hm) as (v1 & v2 & Htr & Hex & [U1 U2 U3 U4] & [i Hi] & Hvb).
    rewrite (bind_ok _ _ v None v2).
    2:{ unfold ReadMem, on_machine. cbn [current_tid machine host vm_host]. erewrite bind_ok by done.
        rewrite (bind_ok _ _ _ _ _ Htr). by rewrite (bind_ok _ _ _ _ _ Hex). }
    rewrite <- U3 in Hi. destruct (read_hit v2 addr size i U1 U2 Ha Hi) as (bs & v3 & Hrun & Hlen & Hb & [W1 W2 W3 W4] & Hvb3).
    exists bs, v3. rewrite (bind_ok _ _ _ _ _ Hrun). pose proof (u32_range addr) as Hu. unfold is_u32 in Hu.
    split_and!; [done|done| | |].
    + intros a Hra. rewrite <- Hvb by lia. rewrite <- U3. by apply Hb.
    + split; [done|done|congruence|auto].
    + intros t a Hpos. by rewrite Hvb3, Hvb.
Qed.

Lemma write_ok v addr size x :
  vm_ok v -> regs_ok (vm_machine v) -> aligned addr size -> has_page v (vm_tid v) (u32 addr / 128) ->
  exists v', write_retry addr size x v = Ok (tt, v') /\ undisturbed v v' /\
    forall t a, 0 <= a -> vbyte v' t a =
      if decide (touches v addr size t a) then le_bytes (Z.to_nat size) x !! Z.to_nat (a - u32 addr)
      else vbyte v t a.
Proof.
  intros Hv Hr Ha Hpage. unfold write_retry. destruct (mapping v (vm_tid v) (u32 addr / 128)) as [i|] eqn:Hm.
  - destruct (write_hit v addr size x i Hv Hr Ha Hm) as (v' & Hrun & Hu & _ & Hvb).
    exists v'. by rewrite (bind_ok _ _ _ _ _ Hrun).
  - destruct (access_miss v addr size true Hv Hr Ha Hpage Hm) as (v1 & v2 & Htr & Hex & [U1 U2 U3 U4] & [i Hi] & Hvb).
    rewrite (bind_ok _ _ v false v2).
    2:{ unfold WriteMem, on_machine. cbn [current_tid machine host vm_host]. erewrite bind_ok by done.
        rewrite (bind_ok _ _ _ _ _ Htr). by rewrite (bind_ok _ _ _ _ _ Hex). }
    rewrite <- U3 in Hi. destruct (write_hit v2 addr size x i U1 U2 Ha Hi) as (v3 & Hrun & [W1 W2 W3 W4] & _ & Hvb3).
    exists v3. rewrite (bind_ok _ _ _ _ _ Hrun). split_and!; [done|split; [done|done|congruence|auto]|].
    intros t a Hpos. rewrite Hvb3 by done. unfold touches. rewrite U3, Hvb by done. done.
Qed.

(** The value of bytes written by a store. *)
Lemma as_value_bytes size x :
  size = 1 \/ size = 2 \/ size = 4 ->
  as_value size (le_bytes (Z.to_nat size) x) =
    if size =? 1 then i8 (x mod 256) else if size =? 2 then x mod 65536 else i32 x.
Proof.
  intros [->|[->| ->]]; unfold as_value; cbn [Z.eqb Pos.eqb]; rewrite le_val_bytes; [done|done|].
  change (256 ^ Z.of_nat (Z.to_nat 4)) with (2 ^ 32). apply (i32_u32 x).
Qed.

(** ** Theorems *)

(** C21. A load of a user program under paging: on a page its thread has, in main
    memory or not, the load succeeds after at most one page fault and returns the
    bytes of the thread's own memory, sign-extended for a byte; no thread's memory
    changes, and the paging invariant is kept. *)
Theorem paged_load_correct v addr size :
  vm_ok v -> regs_ok (vm_machine v) -> aligned addr size -> has_page v (vm_tid v) (u32 addr / PageSize) ->
  exists bs v', read_retry addr size v = Ok (as_value size bs, v') /\ Z.of_nat (length bs) = size /\
    (forall a, u32 addr <= a < u32 addr + size -> vbyte v (vm_tid v) a = bs !! Z.to_nat (a - u32 addr)) /\
    vm_ok v' /\ regs_ok (vm_machine v') /\ vm_tid v' = vm_tid v /\
    (forall t a, 0 <= a -> vbyte v' t a = vbyte v t a).
Proof.
  intros Hv Hr Ha Hpage. destruct (read_ok v addr size Hv Hr Ha Hpage) as (bs & v' & H1 & H2 & H3 & [] & H5).
  by exists bs, v'.
Qed.

(** C23. A store of a user program under paging succeeds after at most one page
    fault and replaces exactly the bytes it is to write, in the memory of its own
    thread only; a load of the same size at the same address then returns the
    value stored. *)
Theorem paged_store_correct v addr size x :
  vm_ok v -> regs_ok (vm_machine v) -> aligned addr size -> has_page v (vm_tid v) (u32 addr / PageSize) ->
  exists v', write_retry addr size x v = Ok (tt, v') /\ vm_ok v' /\ regs_ok (vm_machine v') /\
    vm_tid v' = vm_tid v /\
    (forall t a, 0 <= a -> vbyte v' t a =
       if decide (touches v addr size t a) then le_bytes (Z.to_nat size) x !! Z.to_nat (a - u32 addr)
       else vbyte v t a) /\
    exists v'', read_retry addr size v' =
      Ok (if size =? 1 then i8 (x mod 256) else if size =? 2 then x mod 65536 else i32 x, v'').
Proof.
  intros Hv Hr Ha Hpage. destruct (write_ok v addr size x Hv Hr Ha Hpage) as (v' & Hrun & [U1 U2 U3 U4] & Hvb).
  exists v'. split_and!; try done.
  destruct (read_ok v' addr size U1 U2 Ha) as (bs & v'' & Hrd & Hlen & Hb & _); [rewrite U3; by apply U4|].
  exists v''. rewrite Hrd. f_equal. f_equal. rewrite <- as_value_bytes by apply Ha. f_equal.
  assert (Hs : size = 1 \/ size = 2 \/ size = 4) by apply Ha. pose proof (u32_range addr) as Hu. unfold is_u32 in Hu.
  apply list_eq_same_length with (Z.to_nat size); [rewrite length_le_bytes; lia|lia|].
  intros k b b' Hk Hkb Hkb'. specialize (Hb (u32 addr + Z.of_nat k) ltac:(lia)).
  rewrite U3, Hvb, decide_True in Hb by (unfold touches; lia).
  replace (Z.to_nat (u32 addr + Z.of_nat k - u32 addr)) with k in Hb by lia. congruence.
Qed.

(** [Machine::ReverseTableReplace]: on a page fault of the running thread it
    takes a page of main memory, writes it back to the disk of the thread it
    belongs to when it was modified, and brings the page in; the page is then in
    main memory, no thread's memory has changed, and the invariant is kept. *)
Lemma page_replacement_transparent v addr :
  vm_ok v -> has_page v (vm_tid v) (u32 addr / PageSize) -> mapping v (vm_tid v) (u32 addr / PageSize) = None ->
  exists v', ReverseTableReplace Random addr v = Ok (tt, v') /\ vm_ok v' /\
    is_Some (mapping v' (vm_tid v) (u32 addr / PageSize)) /\
    (forall t a, 0 <= a -> vbyte v' t a = vbyte v t a).
Proof.
  intros Hv Hpage Hm. destruct (replace_ok Random Random_nonneg v addr Hv Hpage Hm)
    as (v' & Hrun & Hok & [i Hi] & Hvb & _). by exists v'.
Qed.

(** Pages are found by thread id alone, and [~Thread] does not take the pages
    of a thread out of the table: a thread that is given the id of a finished one
    reads the finished thread's bytes wherever that thread left a page in main
    memory, not its own program's. *)
Lemma reused_id_reads_old_pages v a d i :
  vm_ok v -> regs_ok (vm_machine v) -> 0 <= a < 2 ^ 32 -> mapping v (vm_tid v) (a / PageSize) = Some i ->
  let fresh := MkVm (vm_machine v) (disks v) (<[vm_tid v := d]> (disk_of v)) (vm_tid v) (vm_mode v) (vm_draws v) in
  exists b v', ReadMem a 1 fresh = Ok (Some (i8 b), v') /\ vbyte v (vm_tid v) a = Some b.
Proof.
  intros Hv Hr Ha Hm fresh. assert (Hu : u32 a = a) by (by apply u32_id).
  assert (Hal : aligned a 1) by (split; [by left|apply Z.divide_1_l]).
  destruct (read_hit_any v a 1 i Hv Hr Hal ltac:(by rewrite Hu)) as (bs & m & Hlen & Hrun & Hb & _).
  destruct bs as [|b [|]]; simpl in Hlen; try lia. eexists b, _.
  rewrite (Hrun fresh eq_refl eq_refl). unfold as_value. simpl. rewrite Z.add_0_r. split; [done|].
  specialize (Hb a ltac:(lia)). by rewrite Hu, Z.sub_diag in Hb.
Qed.
End Access.

(** The invariant holds of a new machine. *)
Lemma new_machine_ok junk times size ds dof t mode n :
  (forall t t' d, dof !! t = Some d -> dof !! t' = Some d -> t = t') ->
  let v := MkVm (new_machine junk times size) ds dof t mode n in vm_ok v /\ regs_ok (vm_machine v).
Proof.
  intros Hp v.
  assert (Hlk : forall i e, rt_page_table (vm_machine v) !! i = Some e ->
    physicalPage e = Z.of_nat i /\ readOnly e = false /\ valid e = false).
  { intros i e He. unfold v in He. cbn [vm_machine rt_page_table new_machine] in He.
    rewrite list_lookup_fmap in He. destruct (seq 0 _ !! i) as [j|] eqn:Hj; [|done].
    apply lookup_seq in Hj as [-> _]. by injection He as <-. }
  split.
  - split; try done.
    + by intros i e (? & ? & _)%Hlk.
    + intros i e (_ & _ & Hf)%Hlk. congruence.
    + intros i j e f (_ & _ & Hf)%Hlk _. congruence.
    + intros i e o (_ & _ & Hf)%Hlk. congruence.
  - split; [done|]. exists 0. split; [done|lia].
Qed.

(** A thread 7 with a program of two pages, on a new machine. *)
Definition demo_vm : Vm :=
  MkVm (new_machine false 0 0) {[0%nat := Z.of_nat <$> seq 0 256]} {[7 := 0%nat]} 7 UserMode 0.
Definition no_others : ExceptionType -> M Vm unit := fun _ => halt AssertFailed.
Definition demo_Random : nat -> Z := fun n => Z.of_nat n.

Lemma demo_Random_nonneg n : 0 <= demo_Random n.
Proof. unfold demo_Random. lia. Qed.

Lemma demo_vm_ok : vm_ok demo_vm /\ regs_ok (vm_machine demo_vm).
Proof.
  apply new_machine_ok. intros t t' d. rewrite !lookup_singleton_Some. intros [<- _] [<- _]. done.
Qed.

Lemma demo_pages p : 0 <= p < 2 -> has_page demo_vm 7 p.
Proof.
  intros Hp. split; [unfold MaxPages; lia|]. exists 0%nat, (Z.of_nat <$> seq 0 256).
  split; [done|]. split; [done|]. rewrite length_fmap, length_seq. change PageSize with 128. lia.
Qed.

Lemma demo_aligned : aligned 132 4.
Proof. split; [by right; right|]. exists 33. done. Qed.

Lemma paged_load_correct_witness :
  exists bs v', @read_retry demo_Random no_others 132 4 demo_vm = Ok (as_value 4 bs, v') /\ Z.of_nat (length bs) = 4.
Proof.
  destruct (paged_load_correct demo_Random demo_Random_nonneg no_others demo_vm 132 4 (proj1 demo_vm_ok)
    (proj2 demo_vm_ok) demo_aligned (demo_pages 1 ltac:(lia))) as (bs & v' & Hrun & Hlen & _).
  exists bs, v'. split; [exact Hrun|exact Hlen].
Defined.

Lemma paged_store_correct_witness :
  exists v' v'', @write_retry demo_Random no_others 132 4 (-5) demo_vm = Ok (tt, v') /\
    @read_retry demo_Random no_others 132 4 v' = Ok (-5, v'').
Proof.
  destruct (paged_store_correct demo_Random demo_Random_nonneg no_others demo_vm 132 4 (-5) (proj1 demo_vm_ok)
    (proj2 demo_vm_ok) demo_aligned (demo_pages 1 ltac:(lia))) as (v' & Hrun & _ & _ & _ & _ & v'' & Hrd).
  exists v', v''. split; [exact Hrun|exact Hrd].
Defined.

