(* ===== verification/Mips.v ===== *)
(** * The MIPS instructions: [machine/mipssim.cc]

    Decoding, multiplication and the execution of one instruction.  Registers are
    32-bit [int]s; the simulator's own signed additions, subtractions and shifts
    wrap around, as its overflow tests take for granted. *)

From S2P Require Import Prelude NList Sectors Disk Kernel Machine.

(** ** Opcodes *)

(** [mipssim.h]: [SPECIAL] and [BCOND] are to be decoded further. *)
Inductive OpCode : Type :=
| OP_ADD | OP_ADDI | OP_ADDIU | OP_ADDU | OP_AND | OP_ANDI | OP_BEQ | OP_BGEZ | OP_BGEZAL | OP_BGTZ
| OP_BLEZ | OP_BLTZ | OP_BLTZAL | OP_BNE | OP_DIV | OP_DIVU | OP_J | OP_JAL | OP_JALR | OP_JR
| OP_LB | OP_LBU | OP_LH | OP_LHU | OP_LUI | OP_LW | OP_LWL | OP_LWR | OP_MFHI | OP_MFLO | OP_MTHI
| OP_MTLO | OP_MULT | OP_MULTU | OP_NOR | OP_OR | OP_ORI | OP_RFE | OP_SB | OP_SH | OP_SLL | OP_SLLV
| OP_SLT | OP_SLTI | OP_SLTIU | OP_SLTU | OP_SRA | OP_SRAV | OP_SRL | OP_SRLV | OP_SUB | OP_SUBU
| OP_SW | OP_SWL | OP_SWR | OP_XOR | OP_XORI | OP_SYSCALL | OP_UNIMP | OP_RES | SPECIAL | BCOND.

#[export] Instance OpCode_eq_dec : EqDecision OpCode.
Proof. solve_decision. Defined.

Inductive Format : Type := IFMT | JFMT | RFMT.

(** [opTable], by bits 31 to 26. *)
Definition opTable : list (OpCode * Format) :=
  [(SPECIAL, RFMT); (BCOND, IFMT); (OP_J, JFMT); (OP_JAL, JFMT);
   (OP_BEQ, IFMT); (OP_BNE, IFMT); (OP_BLEZ, IFMT); (OP_BGTZ, IFMT);
   (OP_ADDI, IFMT); (OP_ADDIU, IFMT); (OP_SLTI, IFMT); (OP_SLTIU, IFMT);
   (OP_ANDI, IFMT); (OP_ORI, IFMT); (OP_XORI, IFMT); (OP_LUI, IFMT);
   (OP_UNIMP, IFMT); (OP_UNIMP, IFMT); (OP_UNIMP, IFMT); (OP_UNIMP, IFMT);
   (OP_RES, IFMT); (OP_RES, IFMT); (OP_RES, IFMT); (OP_RES, IFMT);
   (OP_RES, IFMT); (OP_RES, IFMT); (OP_RES, IFMT); (OP_RES, IFMT);
   (OP_RES, IFMT); (OP_RES, IFMT); (OP_RES, IFMT); (OP_RES, IFMT);
   (OP_LB, IFMT); (OP_LH, IFMT); (OP_LWL, IFMT); (OP_LW, IFMT);
   (OP_LBU, IFMT); (OP_LHU, IFMT); (OP_LWR, IFMT); (OP_RES, IFMT);
   (OP_SB, IFMT); (OP_SH, IFMT); (OP_SWL, IFMT); (OP_SW, IFMT);
   (OP_RES, IFMT); (OP_RES, IFMT); (OP_SWR, IFMT); (OP_RES, IFMT);
   (OP_UNIMP, IFMT); (OP_UNIMP, IFMT); (OP_UNIMP, IFMT); (OP_UNIMP, IFMT);
   (OP_RES, IFMT); (OP_RES, IFMT); (OP_RES, IFMT); (OP_RES, IFMT);
   (OP_UNIMP, IFMT); (OP_UNIMP, IFMT); (OP_UNIMP, IFMT); (OP_UNIMP, IFMT);
   (OP_RES, IFMT); (OP_RES, IFMT); (OP_RES, IFMT); (OP_RES, IFMT)].

(** [specialTable], by bits 5 to 0. *)
Definition specialTable : list OpCode :=
  [OP_SLL; OP_RES; OP_SRL; OP_SRA; OP_SLLV; OP_RES; OP_SRLV; OP_SRAV;
   OP_JR; OP_JALR; OP_RES; OP_RES; OP_SYSCALL; OP_UNIMP; OP_RES; OP_RES;
   OP_MFHI; OP_MTHI; OP_MFLO; OP_MTLO; OP_RES; OP_RES; OP_RES; OP_RES;
   OP_MULT; OP_MULTU; OP_DIV; OP_DIVU; OP_RES; OP_RES; OP_RES; OP_RES;
   OP_ADD; OP_ADDU; OP_SUB; OP_SUBU; OP_AND; OP_OR; OP_XOR; OP_NOR;
   OP_RES; OP_RES; OP_SLT; OP_SLTU; OP_RES; OP_RES; OP_RES; OP_RES;
   OP_RES; OP_RES; OP_RES; OP_RES; OP_RES; OP_RES; OP_RES; OP_RES;
   OP_RES; OP_RES; OP_RES; OP_RES; OP_RES; OP_RES; OP_RES; OP_RES].

(** [class Instruction]: [value] is unsigned, [extra] an [int]. *)
Record Instruction : Type := MkInstr {
  value : Z; opCode : OpCode; rs : Z; rt : Z; rd : Z; extra : Z
}.

(** [Instruction::Decode]. *)
Definition Decode (value : Z) : res Instruction :=
  let rs := Z.land (Z.shiftr value 21) 0x1f in
  let rt := Z.land (Z.shiftr value 16) 0x1f in
  let rd := Z.land (Z.shiftr value 11) 0x1f in
  '(op, format) ← aget opTable (Z.land (Z.shiftr value 26) 0x3f);
  let extra :=
    match format with
    | IFMT =>
        let extra := Z.land value 0xffff in
        if negb (Z.land extra 0x8000 =? 0) then i32 (Z.lor extra 0xffff0000) else extra
    | RFMT => Z.land (Z.shiftr value 6) 0x1f
    | JFMT => Z.land value 0x3ffffff
    end in
  op ← match op with
       | SPECIAL => aget specialTable (Z.land value 0x3f)
       | BCOND =>
           let i := Z.land value 0x1f0000 in
           Ok (if i =? 0 then OP_BLTZ
               else if i =? 0x10000 then OP_BGEZ
               else if i =? 0x100000 then OP_BLTZAL
               else if i =? 0x110000 then OP_BGEZAL
               else OP_UNIMP)
       | _ => Ok op
       end;
  Ok (MkInstr value op rs rt rd extra).

(** ** Multiplication *)

(** The loop of [Mult]: [a] is an [int], the others are unsigned.  The [break] is
    taken when only bit 0 of [a] is left. *)
Fixpoint mult_loop (n : nat) (a bLo bHi lo hi : Z) : Z * Z :=
  match n with
  | O => (lo, hi)
  | S n =>
      let shift lo hi :=
        let bHi' := u32 (Z.shiftl bHi 1) in
        let bHi' := if negb (Z.land bLo 0x80000000 =? 0) then Z.lor bHi' 1 else bHi' in
        mult_loop n (Z.shiftr a 1) (u32 (Z.shiftl bLo 1)) bHi' lo hi in
      if negb (Z.land a 1 =? 0) then
        let lo := u32 (lo + bLo) in
        let hi := if lo <? bLo then u32 (hi + 1) else hi in
        let hi := u32 (hi + bHi) in
        if Z.land (u32 a) 0xfffffffe =? 0 then (lo, hi) else shift lo hi
      else shift lo hi
  end.

(** [Mult]: the words for [*hiPtr] and [*loPtr]. *)
Definition Mult (a b : Z) (signedArith : bool) : Z * Z :=
  if (a =? 0) || (b =? 0) then (0, 0)
  else
    let negative := signedArith && xorb (a <? 0) (b <? 0) in
    let a := if signedArith && (a <? 0) then i32 (- a) else a in
    let b := if signedArith && (b <? 0) then i32 (- b) else b in
    let '(lo, hi) := mult_loop 32 a (u32 b) 0 0 0 in
    let '(lo, hi) :=
      if negative then
        let hi := u32 (Z.lnot hi) in
        let lo := u32 (u32 (Z.lnot lo) + 1) in
        (lo, if lo =? 0 then u32 (hi + 1) else hi)
      else (lo, hi) in
    (i32 hi, i32 lo).

(** ** Instructions *)

(** [x & SIGN_BIT], as a condition. *)
Definition SIGN_BIT : Z := 0x80000000.
Definition signed_bit (x : Z) : bool := negb (Z.land (u32 x) SIGN_BIT =? 0).
Definition IndexToAddr (x : Z) : Z := i32 (Z.shiftl x 2).
Definition R31 : Z := 31.

(** The cases of [OneInstruction] that only use registers; [true] when the case
    raises [OverflowException]. *)
Definition exec_add (i : Instruction) : M Machine bool :=
  match opCode i with
  | OP_ADD =>
      a ← reg (rs i); b ← reg (rt i);
      let sum := i32 (a + b) in
      if negb (signed_bit (Z.lxor a b)) && signed_bit (Z.lxor a sum) then mret true
      else _ ← set_reg (rd i) sum; mret false
  | OP_ADDI =>
      a ← reg (rs i);
      let sum := i32 (a + extra i) in
      if negb (signed_bit (Z.lxor a (extra i))) && signed_bit (Z.lxor (extra i) sum) then mret true
      else _ ← set_reg (rt i) sum; mret false
  | OP_ADDIU => a ← reg (rs i); _ ← set_reg (rt i) (i32 (a + extra i)); mret false
  | OP_ADDU => a ← reg (rs i); b ← reg (rt i); _ ← set_reg (rd i) (i32 (a + b)); mret false
  | OP_AND => a ← reg (rs i); b ← reg (rt i); _ ← set_reg (rd i) (Z.land a b); mret false
  | OP_ANDI => a ← reg (rs i); _ ← set_reg (rt i) (Z.land a (Z.land (extra i) 0xffff)); mret false
  | _ => halt AssertFailed
  end.

Definition exec_sub (i : Instruction) : M Machine bool :=
  match opCode i with
  | OP_SUB =>
      a ← reg (rs i); b ← reg (rt i);
      let diff := i32 (a - b) in
      if signed_bit (Z.lxor a b) && signed_bit (Z.lxor a diff) then mret true
      else _ ← set_reg (rd i) diff; mret false
  | OP_SUBU => a ← reg (rs i); b ← reg (rt i); _ ← set_reg (rd i) (i32 (a - b)); mret false
  | _ => halt AssertFailed
  end.

(** Branches: [pcAfter]. *)
Definition exec_branch (i : Instruction) (pcAfter : Z) : M Machine Z :=
  let target := n ← reg NextPCReg; mret (i32 (n + IndexToAddr (extra i))) in
  let link := n ← reg NextPCReg; set_reg R31 (i32 (n + 4)) in
  match opCode i with
  | OP_BEQ => a ← reg (rs i); b ← reg (rt i); if a =? b then target else mret pcAfter
  | OP_BGEZAL => _ ← link; a ← reg (rs i); if negb (signed_bit a) then target else mret pcAfter
  | OP_BGEZ => a ← reg (rs i); if negb (signed_bit a) then target else mret pcAfter
  | OP_BGTZ => a ← reg (rs i); if 0 <? a then target else mret pcAfter
  | OP_BLEZ => a ← reg (rs i); if a <=? 0 then target else mret pcAfter
  | OP_BLTZAL => _ ← link; a ← reg (rs i); if signed_bit a then target else mret pcAfter
  | OP_BLTZ => a ← reg (rs i); if signed_bit a then target else mret pcAfter
  | OP_BNE => a ← reg (rs i); b ← reg (rt i); if negb (a =? b) then target else mret pcAfter
  | _ => halt AssertFailed
  end.

(** Jumps: [pcAfter]. *)
Definition exec_jump (i : Instruction) (pcAfter : Z) : M Machine Z :=
  let there := i32 (Z.lor (Z.land (u32 pcAfter) 0xf0000000) (u32 (IndexToAddr (extra i)))) in
  match opCode i with
  | OP_JAL => n ← reg NextPCReg; _ ← set_reg R31 (i32 (n + 4)); mret there
  | OP_J => mret there
  | OP_JALR => n ← reg NextPCReg; _ ← set_reg (rd i) (i32 (n + 4)); reg (rs i)
  | OP_JR => reg (rs i)
  | _ => halt AssertFailed
  end.

(** The host's division of [-2^31] by -1 traps. *)
Definition exec_div (i : Instruction) : M Machine unit :=
  match opCode i with
  | OP_DIV =>
      a ← reg (rs i); b ← reg (rt i);
      if b =? 0 then _ ← set_reg LoReg 0; set_reg HiReg 0
      else q ← lift (int (Z.quot a b)); _ ← set_reg LoReg q; set_reg HiReg (Z.rem a b)
  | OP_DIVU =>
      a ← reg (rs i); b ← reg (rt i);
      if u32 b =? 0 then _ ← set_reg LoReg 0; set_reg HiReg 0
      else _ ← set_reg LoReg (i32 (u32 a / u32 b)); set_reg HiReg (i32 (u32 a mod u32 b))
  | _ => halt AssertFailed
  end.

Definition exec_hilo (i : Instruction) : M Machine unit :=
  match opCode i with
  | OP_MFHI => x ← reg HiReg; set_reg (rd i) x
  | OP_MFLO => x ← reg LoReg; set_reg (rd i) x
  | OP_MTHI => x ← reg (rs i); set_reg HiReg x
  | OP_MTLO => x ← reg (rs i); set_reg LoReg x
  | OP_MULT =>
      a ← reg (rs i); b ← reg (rt i);
      let '(hi, lo) := Mult a b true in _ ← set_reg HiReg hi; set_reg LoReg lo
  | OP_MULTU =>
      a ← reg (rs i); b ← reg (rt i);
      let '(hi, lo) := Mult a b false in _ ← set_reg HiReg hi; set_reg LoReg lo
  | _ => halt AssertFailed
  end.

(** [OP_OR] of the code reads [rs] twice. *)
Definition exec_or (i : Instruction) : M Machine unit :=
  match opCode i with
  | OP_NOR => a ← reg (rs i); b ← reg (rt i); set_reg (rd i) (Z.lnot (Z.lor a b))
  | OP_OR => a ← reg (rs i); b ← reg (rs i); set_reg (rd i) (Z.lor a b)
  | OP_ORI => a ← reg (rs i); set_reg (rt i) (Z.lor a (Z.land (extra i) 0xffff))
  | _ => halt AssertFailed
  end.

Definition exec_xor (i : Instruction) : M Machine unit :=
  match opCode i with
  | OP_XOR => a ← reg (rs i); b ← reg (rt i); set_reg (rd i) (Z.lxor a b)
  | OP_XORI => a ← reg (rs i); set_reg (rt i) (Z.lxor a (Z.land (extra i) 0xffff))
  | _ => halt AssertFailed
  end.

Definition one_if (b : bool) : Z := if b then 1 else 0.

(** Shifts and comparisons.  [OP_SRL] and [OP_SRLV] shift an [int]. *)
Definition exec_shift (i : Instruction) : M Machine unit :=
  match opCode i with
  | OP_SLL => b ← reg (rt i); set_reg (rd i) (i32 (Z.shiftl b (extra i)))
  | OP_SLLV => b ← reg (rt i); a ← reg (rs i); set_reg (rd i) (i32 (Z.shiftl b (Z.land a 0x1f)))
  | OP_SLT => a ← reg (rs i); b ← reg (rt i); set_reg (rd i) (one_if (a <? b))
  | OP_SLTI => a ← reg (rs i); set_reg (rt i) (one_if (a <? extra i))
  | OP_SLTIU => a ← reg (rs i); set_reg (rt i) (one_if (u32 a <? u32 (extra i)))
  | OP_SLTU => a ← reg (rs i); b ← reg (rt i); set_reg (rd i) (one_if (u32 a <? u32 b))
  | OP_SRA => b ← reg (rt i); set_reg (rd i) (Z.shiftr b (extra i))
  | OP_SRAV => b ← reg (rt i); a ← reg (rs i); set_reg (rd i) (Z.shiftr b (Z.land a 0x1f))
  | OP_SRL => tmp ← reg (rt i); set_reg (rd i) (Z.shiftr tmp (extra i))
  | OP_SRLV => tmp ← reg (rt i); a ← reg (rs i); set_reg (rd i) (Z.shiftr tmp (Z.land a 0x1f))
  | _ => halt AssertFailed
  end.

(** The inner [switch]es of [OP_LWL], [OP_LWR], [OP_SWL], [OP_SWR], on [int]s. *)
Definition lwl_merge (k old value : Z) : Z :=
  if k =? 0 then value
  else if k =? 1 then i32 (Z.lor (Z.land old 0xff) (Z.shiftl value 8))
  else if k =? 2 then i32 (Z.lor (Z.land old 0xffff) (Z.shiftl value 16))
  else i32 (Z.lor (Z.land old 0xffffff) (Z.shiftl value 24)).
Definition lwr_merge (k old value : Z) : Z :=
  if k =? 0 then i32 (Z.lor (Z.land (u32 old) 0xffffff00) (Z.land (Z.shiftr value 24) 0xff))
  else if k =? 1 then i32 (Z.lor (Z.land (u32 old) 0xffff0000) (Z.land (Z.shiftr value 16) 0xffff))
  else if k =? 2 then i32 (Z.lor (Z.land (u32 old) 0xff000000) (Z.land (Z.shiftr value 8) 0xffffff))
  else value.
Definition swl_merge (k r value : Z) : Z :=
  if k =? 0 then r
  else if k =? 1 then i32 (Z.lor (Z.land (u32 value) 0xff000000) (Z.land (Z.shiftr r 8) 0xffffff))
  else if k =? 2 then i32 (Z.lor (Z.land (u32 value) 0xffff0000) (Z.land (Z.shiftr r 16) 0xffff))
  else i32 (Z.lor (Z.land (u32 value) 0xffffff00) (Z.land (Z.shiftr r 24) 0xff)).
Definition swr_merge (k r value : Z) : Z :=
  if k =? 0 then i32 (Z.lor (Z.land value 0xffffff) (Z.shiftl r 24))
  else if k =? 1 then i32 (Z.lor (Z.land value 0xffff) (Z.shiftl r 16))
  else if k =? 2 then i32 (Z.lor (Z.land value 0xff) (Z.shiftl r 8))
  else r.

Section Instructions.
Context {W : Type} `{Host W}.

(** Loads: the register and value of the delayed load, or [None] when the
    instruction was abandoned with an exception. *)
Definition exec_load (i : Instruction) : M W (option (Z * Z)) :=
  a ← on_machine (reg (rs i));
  let tmp := i32 (a + extra i) in
  let load size f :=
    v ← ReadMem tmp size;
    match v with Some value => x ← f value; mret (Some (rt i, x)) | None => mret None end in
  let pending := (* the value [rt] will have when the load in progress is done *)
    r ← on_machine (reg LoadReg);
    if r =? rt i then on_machine (reg LoadValueReg) else on_machine (reg (rt i)) in
  match opCode i with
  | OP_LB | OP_LBU =>
      load 1 (fun value => mret
        (if negb (Z.land value 0x80 =? 0) && bool_decide (opCode i = OP_LB)
         then i32 (Z.lor (u32 value) 0xffffff00) else Z.land value 0xff))
  | OP_LH | OP_LHU =>
      if negb (Z.land tmp 1 =? 0) then _ ← RaiseException AddressErrorException tmp; mret None
      else load 2 (fun value => mret
        (if negb (Z.land value 0x8000 =? 0) && bool_decide (opCode i = OP_LH)
         then i32 (Z.lor (u32 value) 0xffff0000) else Z.land value 0xffff))
  | OP_LW =>
      if negb (Z.land tmp 3 =? 0) then _ ← RaiseException AddressErrorException tmp; mret None
      else load 4 (fun value => mret value)
  | OP_LWL =>
      _ ← ASSERT (Z.land tmp 3 =? 0);
      load 4 (fun value => old ← pending; mret (lwl_merge (Z.land tmp 3) old value))
  | OP_LWR =>
      _ ← ASSERT (Z.land tmp 3 =? 0);
      load 4 (fun value => old ← pending; mret (lwr_merge (Z.land tmp 3) old value))
  | _ => halt AssertFailed
  end.

(** Stores: [false] when the instruction was abandoned. *)
Definition exec_store (i : Instruction) : M W bool :=
  a ← on_machine (reg (rs i));
  let tmp := i32 (a + extra i) in
  let merge f :=
    _ ← ASSERT (Z.land tmp 3 =? 0);
    v ← ReadMem (Z.land tmp (Z.lnot 3)) 4;
    match v with
    | Some value =>
        r ← on_machine (reg (rt i));
        WriteMem (Z.land tmp (Z.lnot 3)) 4 (f (Z.land tmp 3) r value)
    | None => mret false
    end in
  match opCode i with
  | OP_SB => r ← on_machine (reg (rt i)); WriteMem tmp 1 r
  | OP_SH => r ← on_machine (reg (rt i)); WriteMem tmp 2 r
  | OP_SW => r ← on_machine (reg (rt i)); WriteMem tmp 4 r
  | OP_SWL => merge swl_merge
  | OP_SWR => merge swr_merge
  | _ => halt AssertFailed
  end.

(** The end of [OneInstruction]: the delayed load and the program counters. *)
Definition finish_instruction (nextLoadReg nextLoadValue pcAfter : Z) : M Machine unit :=
  _ ← DelayedLoad nextLoadReg nextLoadValue;
  pc ← reg PCReg;
  _ ← set_reg PrevPCReg pc;
  next ← reg NextPCReg;
  _ ← set_reg PCReg next;
  set_reg NextPCReg pcAfter.

(** The [switch] of [OneInstruction] on a decoded instruction. *)
Definition execute (i : Instruction) : M W unit :=
  next ← on_machine (reg NextPCReg);
  let pcAfter := i32 (next + 4) in
  let done := on_machine (finish_instruction 0 0 pcAfter) in
  let overflow (b : bool) := if b then RaiseException OverflowException 0 else done in
  match opCode i with
  | OP_ADD | OP_ADDI | OP_ADDIU | OP_ADDU | OP_AND | OP_ANDI => b ← on_machine (exec_add i); overflow b
  | OP_SUB | OP_SUBU => b ← on_machine (exec_sub i); overflow b
  | OP_BEQ | OP_BGEZ | OP_BGEZAL | OP_BGTZ | OP_BLEZ | OP_BLTZ | OP_BLTZAL | OP_BNE =>
      pc ← on_machine (exec_branch i pcAfter); on_machine (finish_instruction 0 0 pc)
  | OP_J | OP_JAL | OP_JALR | OP_JR =>
      pc ← on_machine (exec_jump i pcAfter); on_machine (finish_instruction 0 0 pc)
  | OP_DIV | OP_DIVU => _ ← on_machine (exec_div i); done
  | OP_MFHI | OP_MFLO | OP_MTHI | OP_MTLO | OP_MULT | OP_MULTU => _ ← on_machine (exec_hilo i); done
  | OP_NOR | OP_OR | OP_ORI => _ ← on_machine (exec_or i); done
  | OP_XOR | OP_XORI => _ ← on_machine (exec_xor i); done
  | OP_LUI => _ ← on_machine (set_reg (rt i) (i32 (Z.shiftl (extra i) 16))); done
  | OP_SLL | OP_SLLV | OP_SLT | OP_SLTI | OP_SLTIU | OP_SLTU | OP_SRA | OP_SRAV | OP_SRL | OP_SRLV =>
      _ ← on_machine (exec_shift i); done
  | OP_LB | OP_LBU | OP_LH | OP_LHU | OP_LW | OP_LWL | OP_LWR =>
      l ← exec_load i;
      match l with Some (r, x) => on_machine (finish_instruction r x pcAfter) | None => mret tt end
  | OP_SB | OP_SH | OP_SW | OP_SWL | OP_SWR =>
      b ← exec_store i; if (b : bool) then done else mret tt
  | OP_SYSCALL => RaiseException SyscallException 0
  | OP_RES | OP_UNIMP => RaiseException IllegalInstrException 0
  | OP_RFE | SPECIAL | BCOND => halt AssertFailed
  end.

(** [Machine::OneInstruction]. *)
Definition OneInstruction : M W unit :=
  pc ← on_machine (reg PCReg);
  raw ← ReadMem pc 4;
  match raw with
  | None => mret tt
  | Some raw => i ← lift (Decode (u32 raw)); execute i
  end.

(** [Machine::Run], [n] rounds of its loop, which never ends; [OneTick] is
    [interrupt->OneTick()].  The debugger is not modelled. *)
Fixpoint rounds (OneTick : M W unit) (n : nat) : M W unit :=
  match n with
  | O => mret tt
  | S n => _ ← OneInstruction; _ ← OneTick; rounds OneTick n
  end.
Definition Run (OneTick : M W unit) (n : nat) : M W unit :=
  _ ← modify (setStatus UserMode); rounds OneTick n.
End Instructions.
