(* ===== verification/MipsFacts.v ===== *)
(** * Theorems on the MIPS instructions *)

From S2P Require Import Prelude NList Sectors Disk Kernel Machine Paging Mips.

(** ** Multiplication *)

Lemma land_1 a : Z.land a 1 = a mod 2.
Proof. apply (Z.land_ones a 1). lia. Qed.

(** Masking the top bit of a [k+1]-bit word. *)
Lemma land_top_bit k x : 0 <= k -> 0 <= x < 2 ^ (k + 1) -> Z.land x (2 ^ k) = x / 2 ^ k * 2 ^ k.
Proof.
  intros Hk Hx. rewrite <- (Z.mul_1_l (2 ^ k)) at 1. rewrite <- !Z.shiftl_mul_pow2, <- Z.shiftr_div_pow2 by lia.
  apply Z.bits_inj'. intros j Hj. rewrite Z.land_spec, !Z.shiftl_spec by lia. destruct (Z.lt_ge_cases j k).
  - rewrite !(Z.testbit_neg_r _ (j - k)) by lia. by rewrite andb_false_r.
  - rewrite Z.shiftr_spec by lia. replace (j - k + k) with j by lia.
    destruct (decide (j = k)) as [->|Hne]; [rewrite Z.sub_diag; by rewrite andb_true_r|].
    assert (Z.testbit 1 (j - k) = false) as -> by (apply Z.bits_above_log2; simpl; lia).
    rewrite andb_false_r. symmetry. apply Z.bits_above_log2; [lia|].
    destruct (decide (x = 0)) as [->|]; [simpl; lia|]. apply Z.log2_lt_pow2; [lia|].
    assert (2 ^ (k + 1) <= 2 ^ j) by (apply Z.pow_le_mono_r; lia). lia.
Qed.

Lemma land_high_bit x : is_u32 x -> Z.land x 0x80000000 = (x / 2 ^ 31) * 2 ^ 31.
Proof. intros. by apply (land_top_bit 31). Qed.

Lemma lor_even_1 x : Z.lor (2 * x) 1 = 2 * x + 1.
Proof.
  rewrite <- Z.add_lor_land. rewrite land_1. rewrite Z.mul_comm, Z.mod_mul by lia. lia.
Qed.

Lemma even_mod x : u32 (2 * x) = 2 * (x mod 2 ^ 31).
Proof. unfold u32. change (2 ^ 32) with (2 * 2 ^ 31). by rewrite Z.mul_mod_distr_l by lia. Qed.

(** Shifting the double word [bHi:bLo] left by one. *)
Lemma shift_double bLo bHi :
  is_u32 bLo -> is_u32 bHi ->
  let bHi' := u32 (Z.shiftl bHi 1) in
  let bHi' := if negb (Z.land bLo 0x80000000 =? 0) then Z.lor bHi' 1 else bHi' in
  is_u32 bHi' /\ u32 (Z.shiftl bLo 1) + 2 ^ 32 * bHi' = (2 * (bLo + 2 ^ 32 * bHi)) mod 2 ^ 64.
Proof.
  intros Hl Hh. cbv zeta. rewrite (land_high_bit bLo Hl). rewrite !Z.shiftl_mul_pow2 by lia.
  change (2 ^ 1) with 2. rewrite !(Z.mul_comm _ 2), !even_mod. unfold is_u32 in *.
  pose proof (Z.div_mod bLo (2 ^ 31) ltac:(lia)). pose proof (Z.mod_pos_bound bLo (2 ^ 31) ltac:(lia)).
  pose proof (Z.div_mod bHi (2 ^ 31) ltac:(lia)). pose proof (Z.mod_pos_bound bHi (2 ^ 31) ltac:(lia)).
  set (q := bLo / 2 ^ 31) in *. set (r := bLo mod 2 ^ 31) in *.
  set (q' := bHi / 2 ^ 31) in *. set (r' := bHi mod 2 ^ 31) in *.
  assert (q = 0 \/ q = 1) as Hq by lia. assert (q' = 0 \/ q' = 1) as Hq' by lia.
  destruct (Z.eqb_spec (q * 2 ^ 31) 0); cbn [negb]; rewrite ?lor_even_1; (split; [lia|]);
    apply (Z.mod_unique_pos _ _ q'); lia.
Qed.

(** Adding the double word [bHi:bLo] to [hi:lo]. *)
Lemma add_double lo hi bLo bHi :
  is_u32 lo -> is_u32 hi -> is_u32 bLo -> is_u32 bHi ->
  let lo' := u32 (lo + bLo) in
  let hi' := if lo' <? bLo then u32 (hi + 1) else hi in
  let hi' := u32 (hi' + bHi) in
  lo' + 2 ^ 32 * hi' = (lo + 2 ^ 32 * hi + (bLo + 2 ^ 32 * bHi)) mod 2 ^ 64.
Proof.
  unfold is_u32, u32. intros. cbv zeta.
  pose proof (Z.div_mod (lo + bLo) (2 ^ 32) ltac:(lia)). pose proof (Z.mod_pos_bound (lo + bLo) (2 ^ 32) ltac:(lia)).
  set (q := (lo + bLo) / 2 ^ 32) in *. set (r := (lo + bLo) mod 2 ^ 32) in *.
  assert (q = 0 \/ q = 1) as Hq by lia.
  assert (Hc : (if r <? bLo then (hi + 1) mod 2 ^ 32 else hi) = (hi + q) mod 2 ^ 32).
  { destruct (Z.ltb_spec r bLo); destruct Hq as [->| ->]; try lia; try done.
    rewrite Z.mod_small; lia. }
  rewrite Hc, Zplus_mod_idemp_l.
  pose proof (Z.div_mod (hi + q + bHi) (2 ^ 32) ltac:(lia)). pose proof (Z.mod_pos_bound (hi + q + bHi) (2 ^ 32) ltac:(lia)).
  apply (Z.mod_unique_pos _ _ ((hi + q + bHi) / 2 ^ 32)); lia.
Qed.

Lemma u32_one a : Z.land a 1 <> 0 -> Z.land (u32 a) 0xfffffffe = 0 -> u32 a = 1.
Proof.
  intros H1 H2. pose proof (u32_range a) as Hr.
  assert (Hor : Z.lor (Z.land (u32 a) 0xfffffffe) (Z.land (u32 a) 1) = u32 a).
  { rewrite <- Z.land_lor_distr_r. change (Z.lor 0xfffffffe 1) with (Z.ones 32). by apply is_u32_land_ones. }
  rewrite H2, Z.lor_0_l, land_1 in Hor. rewrite <- Hor. rewrite land_1 in H1.
  unfold u32 in *. pose proof (Z.mod_pos_bound a 2 ltac:(lia)).
  change (2 ^ 32) with (2 * 2 ^ 31). rewrite Z.rem_mul_r, Z.mul_comm, Z.mod_add, Z.mod_mod by lia. lia.
Qed.

Lemma mult_loop_spec n a bLo bHi lo hi :
  (n <= 32)%nat -> is_u32 bLo -> is_u32 bHi -> is_u32 lo -> is_u32 hi ->
  let '(lo', hi') := mult_loop n a bLo bHi lo hi in
  is_u32 lo' /\ is_u32 hi' /\
  lo' + 2 ^ 32 * hi' = (lo + 2 ^ 32 * hi + a mod 2 ^ Z.of_nat n * (bLo + 2 ^ 32 * bHi)) mod 2 ^ 64.
Proof.
  revert a bLo bHi lo hi. induction n as [|n IH]; intros a bLo bHi lo hi Hn HbL HbH Hl Hh.
  - cbn [mult_loop]. split_and!; [done|done|]. rewrite Z.mod_1_r. unfold is_u32 in *. rewrite Z.mod_small; lia.
  - assert (Hbits : a mod 2 ^ Z.of_nat (S n) = a mod 2 + 2 * (Z.shiftr a 1 mod 2 ^ Z.of_nat n)).
    { rewrite Nat2Z.inj_succ, Z.pow_succ_r, Z.rem_mul_r by lia.
      by rewrite Z.shiftr_div_pow2 by lia. }
    (* the rest of the loop *)
    assert (Hshift : forall lo hi, is_u32 lo -> is_u32 hi ->
      let bHi' := u32 (Z.shiftl bHi 1) in
      let bHi' := if negb (Z.land bLo 0x80000000 =? 0) then Z.lor bHi' 1 else bHi' in
      let '(lo', hi') := mult_loop n (Z.shiftr a 1) (u32 (Z.shiftl bLo 1)) bHi' lo hi in
      is_u32 lo' /\ is_u32 hi' /\
      lo' + 2 ^ 32 * hi' =
        (lo + 2 ^ 32 * hi + 2 * (Z.shiftr a 1 mod 2 ^ Z.of_nat n) * (bLo + 2 ^ 32 * bHi)) mod 2 ^ 64).
    { intros lo1 hi1 Hl1 Hh1. destruct (shift_double bLo bHi HbL HbH) as [HbH' HB].
      cbv zeta in *. set (bHi' := if negb (Z.land bLo 0x80000000 =? 0) then Z.lor (u32 (Z.shiftl bHi 1)) 1
                   else u32 (Z.shiftl bHi 1)) in *.
      specialize (IH (Z.shiftr a 1) (u32 (Z.shiftl bLo 1)) bHi' lo1 hi1 ltac:(lia) (u32_range _) HbH' Hl1 Hh1).
      destruct (mult_loop n _ _ _ _ _) as [lo2 hi2]. destruct IH as (? & ? & IH). split_and!; [done|done|].
      rewrite IH, HB. rewrite <- Zplus_mod_idemp_r, Z.mul_mod_idemp_r, Zplus_mod_idemp_r by lia.
      f_equal. lia. }
    cbn [mult_loop]. rewrite land_1. pose proof (Z.mod_pos_bound a 2 ltac:(lia)) as Ha2.
    destruct (Z.eqb_spec (a mod 2) 0) as [E|E]; cbn [negb].
    + specialize (Hshift lo hi Hl Hh). cbv zeta in Hshift. destruct (mult_loop n _ _ _ _ _).
      destruct Hshift as (? & ? & ->). split_and!; [done|done|]. rewrite Hbits, E. done.
    + pose proof (add_double lo hi bLo bHi Hl Hh HbL HbH) as Hadd. cbv zeta in Hadd.
      set (lo1 := u32 (lo + bLo)) in *. set (hi1 := if lo1 <? bLo then u32 (hi + 1) else hi) in *.
      set (hi2 := u32 (hi1 + bHi)) in *.
      destruct (Z.eqb_spec (Z.land (u32 a) 0xfffffffe) 0) as [E2|E2].
      * split_and!; [apply u32_range|apply u32_range|]. rewrite Hadd. f_equal.
        assert (Hone : u32 a = 1) by (apply u32_one; [rewrite land_1; lia|done]).
        assert (a mod 2 ^ Z.of_nat (S n) = 1) as ->; [|lia].
        assert (Hd : (2 ^ Z.of_nat (S n) | 2 ^ 32)).
        { exists (2 ^ (32 - Z.of_nat (S n))). rewrite <- Z.pow_add_r by lia. f_equal. lia. }
        unfold u32 in Hone.
        rewrite <- (Z.mod_mod_divide a (2 ^ 32)) by done. rewrite Hone. apply Z.mod_small. split; [lia|]. apply Z.pow_gt_1; lia.
      * specialize (Hshift lo1 hi2 (u32_range _) (u32_range _)). cbv zeta in Hshift. destruct (mult_loop n _ _ _ _ _).
        destruct Hshift as (? & ? & ->). split_and!; [done|done|].
        rewrite Hadd, Zplus_mod_idemp_l, Hbits. f_equal. assert (a mod 2 = 1) as -> by lia. ring.
Qed.

(** The two's complement of a double word. *)
Lemma negate_double lo hi :
  is_u32 lo -> is_u32 hi ->
  let hi' := u32 (Z.lnot hi) in
  let lo' := u32 (u32 (Z.lnot lo) + 1) in
  let hi'' := if lo' =? 0 then u32 (hi' + 1) else hi' in
  lo' + 2 ^ 32 * hi'' = (- (lo + 2 ^ 32 * hi)) mod 2 ^ 64.
Proof.
  unfold is_u32. intros Hl Hh. cbv zeta. unfold Z.lnot, u32.
  replace (Z.pred (- hi)) with (2 ^ 32 - 1 - hi + (-1) * 2 ^ 32) by lia.
  replace (Z.pred (- lo)) with (2 ^ 32 - 1 - lo + (-1) * 2 ^ 32) by lia.
  rewrite !Z.mod_add, !(Z.mod_small (2 ^ 32 - 1 - _)) by lia.
  destruct (decide (lo = 0)) as [->|Hne].
  - replace (2 ^ 32 - 1 - 0 + 1) with (1 * 2 ^ 32) by lia. rewrite Z.mod_mul by lia. cbn [Z.eqb].
    destruct (decide (hi = 0)) as [->|Hh0].
    + done.
    + rewrite (Z.mod_small (2 ^ 32 - 1 - hi + 1)) by lia.
      apply (Z.mod_unique_pos _ _ (-1)); lia.
  - rewrite (Z.mod_small (2 ^ 32 - 1 - lo + 1)) by lia. rewrite (proj2 (Z.eqb_neq _ _)) by lia.
    apply (Z.mod_unique_pos _ _ (-1)); lia.
Qed.

(** The product of the loop. *)
Lemma mult_loop_product a b :
  let '(lo, hi) := mult_loop 32 a (u32 b) 0 0 0 in
  is_u32 lo /\ is_u32 hi /\ lo + 2 ^ 32 * hi = u32 a * u32 b.
Proof.
  assert (Hz : is_u32 0) by (unfold is_u32; lia).
  pose proof (mult_loop_spec 32 a (u32 b) 0 0 0 ltac:(lia) (u32_range b) Hz Hz Hz) as Hm.
  destruct (mult_loop 32 a (u32 b) 0 0 0) as [lo hi]. destruct Hm as (Hl & Hh & ->). split_and!; [done|done|].
  change (a mod 2 ^ Z.of_nat 32) with (u32 a). pose proof (u32_range a) as Ha. pose proof (u32_range b) as Hb.
  unfold is_u32 in *. rewrite Z.mod_small; nia.
Qed.

Lemma i32_of_hi hi lo x :
  is_u32 hi -> is_u32 lo -> lo + 2 ^ 32 * hi = x mod 2 ^ 64 -> - 2 ^ 63 <= x < 2 ^ 63 ->
  i32 hi * 2 ^ 32 + u32 (i32 lo) = x.
Proof.
  intros Hh Hl Hx Hr. rewrite u32_i32, u32_id by done. unfold is_u32, i32 in *.
  assert (x mod 2 ^ 64 = x \/ x mod 2 ^ 64 = x + 2 ^ 64) as Hm.
  { destruct (Z.lt_ge_cases x 0); [right|left; apply Z.mod_small; lia].
    symmetry. apply (Z.mod_unique_pos _ _ (-1)); lia. }
  destruct (Z.lt_ge_cases hi (2 ^ 31)).
  - rewrite Z.mod_small by lia. lia.
  - replace (hi + 2 ^ 31) with (hi - 2 ^ 31 + 1 * 2 ^ 32) by lia. rewrite Z.mod_add, Z.mod_small by lia. lia.
Qed.

Lemma abs_u32 a : is_i32 a -> u32 (if a <? 0 then i32 (- a) else a) = Z.abs a.
Proof.
  unfold is_i32. intros Ha. destruct (Z.ltb_spec a 0); [rewrite u32_i32|]; rewrite u32_id; unfold is_u32; lia.
Qed.

Lemma mult_product a b :
  is_i32 a -> is_i32 b ->
  (let '(hi, lo) := Mult a b true in is_i32 hi /\ is_i32 lo /\ hi * 2 ^ 32 + u32 lo = a * b) /\
  (let '(hi, lo) := Mult a b false in is_i32 hi /\ is_i32 lo /\ u32 hi * 2 ^ 32 + u32 lo = u32 a * u32 b).
Proof.
  intros Ha Hb. unfold Mult. destruct (Z.eqb_spec a 0) as [->|Ha0]; [split; (split_and!; [done..|])|].
  { unfold is_i32 in *. change (u32 0) with 0. lia. }
  { change (u32 0) with 0. lia. }
  destruct (Z.eqb_spec b 0) as [->|Hb0]; [split; (split_and!; [done..|]); change (u32 0) with 0; lia|].
  cbn [orb andb]. split.
  - pose proof (mult_loop_product (if a <? 0 then i32 (- a) else a) (if b <? 0 then i32 (- b) else b)) as Hm.
    destruct (mult_loop 32 _ _ 0 0 0) as [lo hi]. destruct Hm as (Hl & Hh & Hm). rewrite !abs_u32 in Hm by done.
    unfold is_i32 in Ha, Hb. assert (- 2 ^ 63 <= a * b < 2 ^ 63) by nia.
    destruct (xorb (a <? 0) (b <? 0)) eqn:Hneg.
    + pose proof (negate_double lo hi Hl Hh) as Hn. cbv zeta in Hn. rewrite Hm in Hn.
      split_and!; [apply i32_range|apply i32_range|]. apply i32_of_hi; [case_if; apply u32_range|apply u32_range| |done].
      rewrite Hn. f_equal. destruct (Z.ltb_spec a 0), (Z.ltb_spec b 0); simpl in Hneg; try done; nia.
    + split_and!; [apply i32_range|apply i32_range|]. apply i32_of_hi; [done|done| |done].
      rewrite Hm. assert (Z.abs a * Z.abs b = a * b) as ->; [|rewrite Z.mod_small; [done|]].
      * destruct (Z.ltb_spec a 0), (Z.ltb_spec b 0); simpl in Hneg; try done; nia.
      * destruct (Z.ltb_spec a 0), (Z.ltb_spec b 0); simpl in Hneg; try done; nia.
  - pose proof (mult_loop_product a b) as Hm. destruct (mult_loop 32 a (u32 b) 0 0 0) as [lo hi].
    destruct Hm as (Hl & Hh & Hm). split_and!; [apply i32_range|apply i32_range|].
    rewrite !u32_i32, !u32_id by done. lia.
Qed.

(** ** Decoding *)

Lemma field v s w : 0 <= s -> 0 <= w -> Z.land (Z.shiftr v s) (Z.ones w) = (v / 2 ^ s) mod 2 ^ w.
Proof. intros. by rewrite Z.land_ones, Z.shiftr_div_pow2 by lia. Qed.

Lemma fields v :
  Z.land (Z.shiftr v 21) 0x1f = (v / 2 ^ 21) mod 32 /\ Z.land (Z.shiftr v 16) 0x1f = (v / 2 ^ 16) mod 32 /\
  Z.land (Z.shiftr v 11) 0x1f = (v / 2 ^ 11) mod 32 /\ Z.land (Z.shiftr v 26) 0x3f = (v / 2 ^ 26) mod 64 /\
  Z.land (Z.shiftr v 6) 0x1f = (v / 2 ^ 6) mod 32 /\ Z.land v 0xffff = v mod 65536 /\
  Z.land v 0x3ffffff = v mod 2 ^ 26 /\ Z.land v 0x3f = v mod 64.
Proof.
  split_and!; [apply (field v 21 5)|apply (field v 16 5)|apply (field v 11 5)|apply (field v 26 6)
    |apply (field v 6 5)|apply (Z.land_ones v 16)|apply (Z.land_ones v 26)|apply (Z.land_ones v 6)]; lia.
Qed.

(** The sign extension of [Decode]. *)
Lemma sign_extend x : 0 <= x < 65536 ->
  (if negb (Z.land x 0x8000 =? 0) then i32 (Z.lor x 0xffff0000) else x) = if x <? 32768 then x else x - 65536.
Proof.
  intros Hx. assert (Hbit : Z.land x 0x8000 = x / 32768 * 32768) by (by apply (land_top_bit 15)).
  rewrite Hbit. destruct (Z.ltb_spec x 32768).
  - rewrite Z.div_small by lia. done.
  - assert (x / 32768 = 1) as -> by (symmetry; apply (Z.div_unique_pos _ _ _ (x - 32768)); lia). cbn [Z.mul Z.eqb negb].
    assert (Z.lor x 0xffff0000 = x + 0xffff0000) as ->.
    { rewrite <- Z.add_lor_land. rewrite (Z.land_comm x). change 0xffff0000 with (Z.shiftl 0xffff 16).
      replace (Z.land (Z.shiftl 0xffff 16) x) with 0; [lia|]. symmetry. apply Z.bits_inj'. intros j Hj.
      rewrite Z.land_spec, Z.shiftl_spec, Z.testbit_0_l by lia. destruct (Z.lt_ge_cases j 16).
      - by rewrite Z.testbit_neg_r by lia.
      - rewrite (Z.bits_above_log2 x j); [by rewrite andb_false_r|lia|]. apply Z.log2_lt_pow2; [lia|].
        assert (2 ^ 16 <= 2 ^ j) by (apply Z.pow_le_mono_r; lia). lia. }
    change (1 * 32768 =? 0) with false. cbn [negb].
    unfold i32. replace (x + 0xffff0000 + 2 ^ 31) with (x + 0xffff0000 - 2 ^ 31 + 1 * 2 ^ 32) by lia.
    rewrite Z.mod_add, Z.mod_small by lia. lia.
Qed.

(** [Decode], in terms of the fields of the word. *)
Lemma decode_fields v op f :
  is_u32 v -> opTable !! Z.to_nat (v / 2 ^ 26) = Some (op, f) ->
  let imm := v mod 65536 in
  let ex := match f with
            | IFMT => if imm <? 32768 then imm else imm - 65536
            | RFMT => (v / 2 ^ 6) mod 32
            | JFMT => v mod 2 ^ 26
            end in
  let mk op := MkInstr v op ((v / 2 ^ 21) mod 32) ((v / 2 ^ 16) mod 32) ((v / 2 ^ 11) mod 32) ex in
  match op with
  | SPECIAL => exists o, specialTable !! Z.to_nat (v mod 64) = Some o /\ Decode v = Ok (mk o)
  | BCOND => Decode v = Ok (mk (let i := (v / 2 ^ 16) mod 32 in
      if i =? 0 then OP_BLTZ else if i =? 1 then OP_BGEZ else if i =? 16 then OP_BLTZAL
      else if i =? 17 then OP_BGEZAL else OP_UNIMP))
  | _ => Decode v = Ok (mk op)
  end.
Proof.
  intros Hv Hop imm ex mk. unfold is_u32 in Hv. destruct (fields v) as (F1 & F2 & F3 & F4 & F5 & F6 & F7 & F8).
  assert (Htop : (v / 2 ^ 26) mod 64 = v / 2 ^ 26).
  { apply Z.mod_small. split; [apply Z.div_pos; lia|]. apply Z.div_lt_upper_bound; lia. }
  assert (Hrun : Decode v = (o ← match op with
       | SPECIAL => aget specialTable (Z.land v 0x3f)
       | BCOND =>
           let i := Z.land v 0x1f0000 in
           Ok (if i =? 0 then OP_BLTZ
               else if i =? 0x10000 then OP_BGEZ
               else if i =? 0x100000 then OP_BLTZAL
               else if i =? 0x110000 then OP_BGEZAL
               else OP_UNIMP)
       | _ => Ok op
       end; Ok (mk o))).
  { unfold Decode. rewrite F1, F2, F3, F4, F5, F6, F7, Htop.
    assert (Hget : aget opTable (v / 2 ^ 26) = Ok (op, f)) by (apply aget_Some; split; [apply Z.div_pos; lia|done]).
    rewrite Hget. cbn [mbind res_bind]. unfold mk, ex. f_equal.
    pose proof (Z.mod_pos_bound v 65536 ltac:(lia)) as Hi. destruct f; try done. unfold imm. by rewrite <- sign_extend. }
  rewrite Hrun. destruct op; try done.
  - rewrite F8. assert (0 <= v mod 64 < 64) as Hm by (apply Z.mod_pos_bound; lia).
    destruct (lookup_lt_is_Some_2 specialTable (Z.to_nat (v mod 64))) as [o Ho]; [simpl; lia|].
    exists o. split; [done|]. assert (aget specialTable (v mod 64) = Ok o) as -> by (apply aget_Some; split; [lia|done]).
    done.
  - cbn [mbind res_bind]. do 2 f_equal.
    assert (Hi : Z.land v 0x1f0000 = (v / 2 ^ 16) mod 32 * 2 ^ 16).
    { rewrite <- F2. change 0x1f0000 with (Z.shiftl 0x1f 16). rewrite <- Z.shiftl_mul_pow2 by lia.
      apply Z.bits_inj'. intros j Hj. rewrite Z.land_spec, !Z.shiftl_spec by lia.
      destruct (Z.lt_ge_cases j 16); [by rewrite !(Z.testbit_neg_r _ (j - 16)) by lia; rewrite andb_false_r|].
      rewrite Z.land_spec, Z.shiftr_spec by lia. by replace (j - 16 + 16) with j by lia. }
    cbv zeta. rewrite Hi. set (i := (v / 2 ^ 16) mod 32).
    assert (Heq : forall c, (i * 2 ^ 16 =? c * 2 ^ 16) = (i =? c)).
    { intros c. destruct (Z.eqb_spec i c); [apply Z.eqb_eq|apply Z.eqb_neq]; lia. }
    change 0x10000 with (1 * 2 ^ 16). change 0x100000 with (16 * 2 ^ 16). change 0x110000 with (17 * 2 ^ 16).
    change (i * 2 ^ 16 =? 0) with (i * 2 ^ 16 =? 0 * 2 ^ 16). by rewrite !Heq.
Qed.

(** The encodings of the MIPS manual: by function code, by condition code, or by
    opcode with an immediate or a target. *)
Inductive Encoding : Type :=
| Special (fn : Z) | Bcond (code : Z) | Immediate (op : Z) | Jump (op : Z).

Definition encoding (op : OpCode) : option Encoding :=
  match op with
  | OP_SLL => Some (Special 0) | OP_SRL => Some (Special 2) | OP_SRA => Some (Special 3)
  | OP_SLLV => Some (Special 4) | OP_SRLV => Some (Special 6) | OP_SRAV => Some (Special 7)
  | OP_JR => Some (Special 8) | OP_JALR => Some (Special 9) | OP_SYSCALL => Some (Special 12)
  | OP_MFHI => Some (Special 16) | OP_MTHI => Some (Special 17) | OP_MFLO => Some (Special 18)
  | OP_MTLO => Some (Special 19) | OP_MULT => Some (Special 24) | OP_MULTU => Some (Special 25)
  | OP_DIV => Some (Special 26) | OP_DIVU => Some (Special 27) | OP_ADD => Some (Special 32)
  | OP_ADDU => Some (Special 33) | OP_SUB => Some (Special 34) | OP_SUBU => Some (Special 35)
  | OP_AND => Some (Special 36) | OP_OR => Some (Special 37) | OP_XOR => Some (Special 38)
  | OP_NOR => Some (Special 39) | OP_SLT => Some (Special 42) | OP_SLTU => Some (Special 43)
  | OP_BLTZ => Some (Bcond 0) | OP_BGEZ => Some (Bcond 1)
  | OP_BLTZAL => Some (Bcond 16) | OP_BGEZAL => Some (Bcond 17)
  | OP_J => Some (Jump 2) | OP_JAL => Some (Jump 3)
  | OP_BEQ => Some (Immediate 4) | OP_BNE => Some (Immediate 5) | OP_BLEZ => Some (Immediate 6)
  | OP_BGTZ => Some (Immediate 7) | OP_ADDI => Some (Immediate 8) | OP_ADDIU => Some (Immediate 9)
  | OP_SLTI => Some (Immediate 10) | OP_SLTIU => Some (Immediate 11) | OP_ANDI => Some (Immediate 12)
  | OP_ORI => Some (Immediate 13) | OP_XORI => Some (Immediate 14) | OP_LUI => Some (Immediate 15)
  | OP_LB => Some (Immediate 32) | OP_LH => Some (Immediate 33) | OP_LWL => Some (Immediate 34)
  | OP_LW => Some (Immediate 35) | OP_LBU => Some (Immediate 36) | OP_LHU => Some (Immediate 37)
  | OP_LWR => Some (Immediate 38) | OP_SB => Some (Immediate 40) | OP_SH => Some (Immediate 41)
  | OP_SWL => Some (Immediate 42) | OP_SW => Some (Immediate 43) | OP_SWR => Some (Immediate 46)
  | OP_RFE | OP_UNIMP | OP_RES | SPECIAL | BCOND => None
  end.

Definition assemble (e : Encoding) (s t d x : Z) : Z :=
  match e with
  | Special fn => s * 2 ^ 21 + t * 2 ^ 16 + d * 2 ^ 11 + x * 2 ^ 6 + fn
  | Bcond c => 1 * 2 ^ 26 + s * 2 ^ 21 + c * 2 ^ 16 + x mod 65536
  | Immediate op => op * 2 ^ 26 + s * 2 ^ 21 + t * 2 ^ 16 + x mod 65536
  | Jump op => op * 2 ^ 26 + x
  end.

(** The operands an encoding can hold; [Decode] also sets the register fields that
    overlap an immediate or a target. *)
Definition operands (e : Encoding) (s t d x : Z) : Prop :=
  match e with
  | Special _ => 0 <= s < 32 /\ 0 <= t < 32 /\ 0 <= d < 32 /\ 0 <= x < 32
  | Bcond c => 0 <= s < 32 /\ t = c /\ -32768 <= x < 32768 /\ d = x mod 65536 / 2 ^ 11
  | Immediate _ => 0 <= s < 32 /\ 0 <= t < 32 /\ -32768 <= x < 32768 /\ d = x mod 65536 / 2 ^ 11
  | Jump _ => 0 <= x < 2 ^ 26 /\ s = x / 2 ^ 21 /\ t = x / 2 ^ 16 mod 32 /\ d = x / 2 ^ 11 mod 32
  end.

Lemma opTable_codes k op f :
  opTable !! k = Some (op, f) ->
  match op with
  | SPECIAL => k = O /\ f = RFMT
  | BCOND => k = 1%nat /\ f = IFMT
  | OP_RES | OP_UNIMP => True
  | _ => match f with
         | IFMT => encoding op = Some (Immediate (Z.of_nat k))
         | JFMT => encoding op = Some (Jump (Z.of_nat k))
         | RFMT => False
         end
  end.
Proof. unfold opTable. do 64 (destruct k as [|k]; [intros [= <- <-]; done|]). done. Qed.

Lemma specialTable_codes k op :
  specialTable !! k = Some op -> op = OP_RES \/ op = OP_UNIMP \/ encoding op = Some (Special (Z.of_nat k)).
Proof. unfold specialTable. do 64 (destruct k as [|k]; [intros [= <-]; by (left + (right; left) + (right; right))|]). done. Qed.

Lemma encoding_codes op e :
  encoding op = Some e ->
  match e with
  | Special fn => 0 <= fn < 64 /\ specialTable !! Z.to_nat fn = Some op
  | Bcond c => (c = 0 /\ op = OP_BLTZ) \/ (c = 1 /\ op = OP_BGEZ) \/ (c = 16 /\ op = OP_BLTZAL) \/ (c = 17 /\ op = OP_BGEZAL)
  | Immediate k => 0 <= k < 64 /\ opTable !! Z.to_nat k = Some (op, IFMT) /\ op <> SPECIAL /\ op <> BCOND
  | Jump k => 0 <= k < 64 /\ opTable !! Z.to_nat k = Some (op, JFMT) /\ op <> SPECIAL /\ op <> BCOND
  end.
Proof. destruct op; intros [= <-]; split_and?; try done; naive_solver. Qed.

(** A word is the sum of its fields. *)
Lemma word_fields v : is_u32 v ->
  v = v / 2 ^ 26 * 2 ^ 26 + v / 2 ^ 21 mod 32 * 2 ^ 21 + v / 2 ^ 16 mod 32 * 2 ^ 16 + v mod 65536 /\
  v mod 65536 = v / 2 ^ 11 mod 32 * 2 ^ 11 + v / 2 ^ 6 mod 32 * 2 ^ 6 + v mod 64 /\
  v = v / 2 ^ 26 * 2 ^ 26 + v mod 2 ^ 26 /\ 0 <= v / 2 ^ 26 < 64.
Proof. unfold is_u32. intros. Z.to_euclidean_division_equations. lia. Qed.

Lemma assemble_fields k s t y : 0 <= k < 64 -> 0 <= s < 32 -> 0 <= t < 32 -> 0 <= y < 65536 ->
  let v := k * 2 ^ 26 + s * 2 ^ 21 + t * 2 ^ 16 + y in
  is_u32 v /\ v / 2 ^ 26 = k /\ v / 2 ^ 21 mod 32 = s /\ v / 2 ^ 16 mod 32 = t /\ v / 2 ^ 11 mod 32 = y / 2 ^ 11 /\
  v / 2 ^ 6 mod 32 = y / 2 ^ 6 mod 32 /\ v mod 65536 = y /\ v mod 64 = y mod 64.
Proof. unfold is_u32. intros. Z.to_euclidean_division_equations. lia. Qed.

Lemma assemble_jump k x : 0 <= k < 64 -> 0 <= x < 2 ^ 26 ->
  let v := k * 2 ^ 26 + x in
  is_u32 v /\ v / 2 ^ 26 = k /\ v / 2 ^ 21 mod 32 = x / 2 ^ 21 /\ v / 2 ^ 16 mod 32 = x / 2 ^ 16 mod 32 /\
  v / 2 ^ 11 mod 32 = x / 2 ^ 11 mod 32 /\ v mod 2 ^ 26 = x.
Proof. unfold is_u32. intros. Z.to_euclidean_division_equations. lia. Qed.

Lemma sign_of_low x : -32768 <= x < 32768 ->
  0 <= x mod 65536 < 65536 /\ (if x mod 65536 <? 32768 then x mod 65536 else x mod 65536 - 65536) = x.
Proof.
  intros Hx. split; [apply Z.mod_pos_bound; lia|]. destruct (Z.lt_ge_cases x 0).
  - replace (x mod 65536) with (x + 65536) by (apply (Z.mod_unique_pos _ _ (-1)); lia).
    destruct (Z.ltb_spec (x + 65536) 32768); lia.
  - rewrite Z.mod_small by lia. destruct (Z.ltb_spec x 32768); lia.
Qed.

Lemma low_of_sign y : 0 <= y < 65536 -> (if y <? 32768 then y else y - 65536) mod 65536 = y.
Proof.
  intros. destruct (Z.ltb_spec y 32768); [apply Z.mod_small; lia|].
  symmetry. apply (Z.mod_unique_pos _ _ (-1)); lia.
Qed.

(** An assembled instruction decodes to itself. *)
Lemma decode_assemble op e s t d x :
  encoding op = Some e -> operands e s t d x ->
  Decode (assemble e s t d x) = Ok (MkInstr (assemble e s t d x) op s t d x).
Proof.
  intros Henc Hops. pose proof (encoding_codes op e Henc) as Hc. destruct e as [fn|c|k|k]; cbn [assemble operands] in *.
  - destruct Hc as [Hfn Htab], Hops as (Hs & Ht & Hd & Hx).
    assert (Hy : 0 <= d * 2 ^ 11 + x * 2 ^ 6 + fn < 65536) by lia.
    destruct (assemble_fields 0 s t _ ltac:(lia) Hs Ht Hy) as (Hv & F1 & F2 & F3 & F4 & F5 & F6 & F7).
    set (v := 0 * 2 ^ 26 + s * 2 ^ 21 + t * 2 ^ 16 + (d * 2 ^ 11 + x * 2 ^ 6 + fn)) in *.
    replace (s * 2 ^ 21 + t * 2 ^ 16 + d * 2 ^ 11 + x * 2 ^ 6 + fn) with v by (subst v; lia).
    destruct (decode_fields v SPECIAL RFMT Hv) as (o & Ho & ->); [by rewrite F1|].
    rewrite F7 in Ho. rewrite F2, F3, F4, F5.
    replace ((d * 2 ^ 11 + x * 2 ^ 6 + fn) mod 64) with fn in Ho by (Z.to_euclidean_division_equations; lia).
    simplify_eq. do 2 f_equal; Z.to_euclidean_division_equations; lia.
  - destruct Hops as (Hs & -> & Hx & ->). destruct (sign_of_low x Hx) as [Hy Hsx].
    assert (Hcr : 0 <= c < 32) by lia.
    destruct (assemble_fields 1 s c _ ltac:(lia) Hs Hcr Hy) as (Hv & F1 & F2 & F3 & F4 & _ & F6 & _).
    set (v := 1 * 2 ^ 26 + s * 2 ^ 21 + c * 2 ^ 16 + x mod 65536) in *.
    pose proof (decode_fields v BCOND IFMT Hv) as Hdec. rewrite F1 in Hdec. rewrite (Hdec eq_refl). cbv zeta.
    rewrite F2, F3, F4, F6, Hsx. destruct Hc as [[-> ->]|[[-> ->]|[[-> ->]|[-> ->]]]]; done.
  - destruct Hc as (Hk & Htab & N1 & N2), Hops as (Hs & Ht & Hx & ->). destruct (sign_of_low x Hx) as [Hy Hsx].
    destruct (assemble_fields k s t _ Hk Hs Ht Hy) as (Hv & F1 & F2 & F3 & F4 & _ & F6 & _).
    set (v := k * 2 ^ 26 + s * 2 ^ 21 + t * 2 ^ 16 + x mod 65536) in *.
    pose proof (decode_fields v op IFMT Hv) as Hdec. rewrite F1 in Hdec. specialize (Hdec Htab). cbv zeta in Hdec.
    rewrite F2, F3, F4, F6, Hsx in Hdec. by destruct op.
  - destruct Hc as (Hk & Htab & N1 & N2), Hops as (Hx & -> & -> & ->).
    destruct (assemble_jump k x Hk Hx) as (Hv & F1 & F2 & F3 & F4 & F5).
    set (v := k * 2 ^ 26 + x) in *.
    pose proof (decode_fields v op JFMT Hv) as Hdec. rewrite F1 in Hdec. specialize (Hdec Htab). cbv zeta in Hdec.
    rewrite F2, F3, F4, F5 in Hdec. by destruct op.
Qed.

(** Every word decodes, to an instruction that assembles to it unless it is reserved
    or unimplemented. *)
Definition decodes_to (v : Z) (i : Instruction) : Prop :=
  Decode v = Ok i /\ value i = v /\ 0 <= rs i < 32 /\ 0 <= rt i < 32 /\ 0 <= rd i < 32 /\ is_i32 (extra i) /\
  match encoding (opCode i) with
  | Some e => assemble e (rs i) (rt i) (rd i) (extra i) = v
  | None => opCode i = OP_RES \/ opCode i = OP_UNIMP
  end.

Lemma decode_word v : is_u32 v -> exists i, decodes_to v i.
Proof.
  intros Hv. destruct (word_fields v Hv) as (W1 & W2 & W3 & Hk).
  destruct (lookup_lt_is_Some_2 opTable (Z.to_nat (v / 2 ^ 26))) as [[op f] Htab]; [simpl; lia|].
  pose proof (decode_fields v op f Hv Htab) as Hdec. cbv zeta in Hdec. pose proof (opTable_codes _ _ _ Htab) as Hc.
  pose proof (Z.mod_pos_bound (v / 2 ^ 21) 32 ltac:(lia)). pose proof (Z.mod_pos_bound (v / 2 ^ 16) 32 ltac:(lia)).
  pose proof (Z.mod_pos_bound (v / 2 ^ 11) 32 ltac:(lia)). pose proof (Z.mod_pos_bound (v / 2 ^ 6) 32 ltac:(lia)).
  pose proof (Z.mod_pos_bound v 65536 ltac:(lia)) as Hlow. pose proof (Z.mod_pos_bound v (2 ^ 26) ltac:(lia)).
  pose proof (low_of_sign _ Hlow) as Hsx.
  set (ex := match f with
             | IFMT => if v mod 65536 <? 32768 then v mod 65536 else v mod 65536 - 65536
             | JFMT => v mod 2 ^ 26
             | RFMT => (v / 2 ^ 6) mod 32
             end) in *.
  assert (Hex : is_i32 ex) by (unfold is_i32, ex; destruct f; try case_match; lia).
  assert (forall i, Decode v = Ok i -> value i = v -> rs i = v / 2 ^ 21 mod 32 -> rt i = v / 2 ^ 16 mod 32 ->
    rd i = v / 2 ^ 11 mod 32 -> extra i = ex ->
    match encoding (opCode i) with
    | Some e => assemble e (v / 2 ^ 21 mod 32) (v / 2 ^ 16 mod 32) (v / 2 ^ 11 mod 32) ex = v
    | None => opCode i = OP_RES \/ opCode i = OP_UNIMP
    end -> exists i, decodes_to v i) as Hfin.
  { intros i Hi E1 E2 E3 E4 E5 Hm. exists i. unfold decodes_to. rewrite E2, E3, E4, E5. split_and!; try done; lia. }
  destruct (decide (op = SPECIAL)) as [->|N1].
  { destruct Hdec as (o & Ho & Hdec), Hc as [Hk0 ->].
    eapply Hfin; [exact Hdec|reflexivity..|]; cbn [opCode].
    destruct (specialTable_codes _ _ Ho) as [->|[->| ->]]; [by left|by right|].
    rewrite Z2Nat.id by (apply Z.mod_pos_bound; lia). cbn [assemble]. unfold ex. lia. }
  destruct (decide (op = BCOND)) as [->|N2].
  { destruct Hc as [Hk1 ->]. eapply Hfin; [exact Hdec|reflexivity..|]; cbn [opCode].
    change (ex mod 65536 = v mod 65536) in Hsx. clearbody ex.
    destruct (Z.eqb_spec (v / 2 ^ 16 mod 32) 0); [cbn [encoding assemble]; lia|].
    destruct (Z.eqb_spec (v / 2 ^ 16 mod 32) 1); [cbn [encoding assemble]; lia|].
    destruct (Z.eqb_spec (v / 2 ^ 16 mod 32) 16); [cbn [encoding assemble]; lia|].
    destruct (Z.eqb_spec (v / 2 ^ 16 mod 32) 17); [cbn [encoding assemble]; lia|by right]. }
  apply (Hfin (MkInstr v op (v / 2 ^ 21 mod 32) (v / 2 ^ 16 mod 32) (v / 2 ^ 11 mod 32) ex)); [by destruct op|done..|].
  cbn [opCode]. destruct (decide (op = OP_RES)) as [->|N3]; [by left|]. destruct (decide (op = OP_UNIMP)) as [->|N4]; [by right|].
  destruct f.
  - assert (encoding op = Some (Immediate (v / 2 ^ 26))) as ->.
    { rewrite <- (Z2Nat.id (v / 2 ^ 26)) by lia. by destruct op. }
    cbn [assemble]. change (ex mod 65536 = v mod 65536) in Hsx. lia.
  - assert (encoding op = Some (Jump (v / 2 ^ 26))) as ->.
    { rewrite <- (Z2Nat.id (v / 2 ^ 26)) by lia. by destruct op. }
    cbn [assemble]. unfold ex. lia.
  - by destruct op.
Qed.

(**  The decoder and the encodings of the MIPS manual are inverse to each other.  Every
    32-bit word decodes without an index out of range, its fields are register
    numbers, and unless it is reserved or unimplemented it is the encoding of what
    it decodes to, in particular never [OP_RFE], [SPECIAL] or [BCOND], for which
    [OneInstruction] has no case.  The encoding of every instruction decodes to
    that instruction, its immediate sign-extended. *)
Lemma decode_roundtrip :
  (forall v, is_u32 v -> exists i, decodes_to v i) /\
  (forall op e s t d x, encoding op = Some e -> operands e s t d x ->
     Decode (assemble e s t d x) = Ok (MkInstr (assemble e s t d x) op s t d x)).
Proof. split; [apply decode_word|apply decode_assemble]. Qed.

