(* ===== verification/MipsAlu.v ===== *)
(** * The register instructions against the MIPS manual

    A reference semantics of the arithmetic, logical, shift, comparison, branch and
    jump instructions, over the integers; what [execute] computes for each of them; and
    the exact conditions under which the two are the same. *)

From S2P Require Import Prelude NList Sectors Disk Kernel Machine Paging Mips MipsFacts.

(** ** The reference *)

(** The value of a register. *)
Definition rv (m : Machine) (k : Z) : Z := registers m !!! Z.to_nat k.

(** What an instruction does when it does not trap: the registers it writes, in
    order, and the address of the instruction after its delay slot. *)
Record Effect : Type := MkEffect { writes : list (Z * Z); pc_after : Z }.

Definition fits (z : Z) : bool := (- 2 ^ 31 <=? z) && (z <? 2 ^ 31).

(** The manual's meaning of a register instruction; [None] is an overflow trap.  The
    target of a jump is in the 256 MB region of its delay slot.  Division by zero,
    undefined in the manual, gives zeros. *)
Definition manual (i : Instruction) (m : Machine) : option Effect :=
  let a := rv m (rs i) in
  let b := rv m (rt i) in
  let x := extra i in
  let zx := x mod 2 ^ 16 in
  let next := rv m NextPCReg in
  let seq := i32 (next + 4) in
  let to r v := Some (MkEffect [(r, v)] seq) in
  let checked r v := if fits v then to r v else None in
  let hilo h l := Some (MkEffect [(HiReg, h); (LoReg, l)] seq) in
  let branch (c : bool) := Some (MkEffect [] (if c then i32 (next + 4 * x) else seq)) in
  let link (c : bool) := Some (MkEffect [(R31, seq)] (if c then i32 (next + 4 * x) else seq)) in
  let region := i32 (u32 next / 2 ^ 28 * 2 ^ 28 + 4 * x) in
  let flag (c : bool) := if c then 1 else 0 in
  match opCode i with
  | OP_ADD => checked (rd i) (a + b)
  | OP_ADDI => checked (rt i) (a + x)
  | OP_ADDU => to (rd i) (i32 (a + b))
  | OP_ADDIU => to (rt i) (i32 (a + x))
  | OP_SUB => checked (rd i) (a - b)
  | OP_SUBU => to (rd i) (i32 (a - b))
  | OP_AND => to (rd i) (Z.land a b)
  | OP_ANDI => to (rt i) (Z.land a zx)
  | OP_OR => to (rd i) (Z.lor a b)
  | OP_ORI => to (rt i) (Z.lor a zx)
  | OP_XOR => to (rd i) (Z.lxor a b)
  | OP_XORI => to (rt i) (Z.lxor a zx)
  | OP_NOR => to (rd i) (Z.lnot (Z.lor a b))
  | OP_LUI => to (rt i) (i32 (zx * 2 ^ 16))
  | OP_SLL => to (rd i) (i32 (b * 2 ^ x))
  | OP_SLLV => to (rd i) (i32 (b * 2 ^ (a mod 32)))
  | OP_SRA => to (rd i) (b / 2 ^ x)
  | OP_SRAV => to (rd i) (b / 2 ^ (a mod 32))
  | OP_SRL => to (rd i) (i32 (u32 b / 2 ^ x))
  | OP_SRLV => to (rd i) (i32 (u32 b / 2 ^ (a mod 32)))
  | OP_SLT => to (rd i) (flag (a <? b))
  | OP_SLTI => to (rt i) (flag (a <? x))
  | OP_SLTU => to (rd i) (flag (u32 a <? u32 b))
  | OP_SLTIU => to (rt i) (flag (u32 a <? u32 x))
  | OP_MFHI => to (rd i) (rv m HiReg)
  | OP_MFLO => to (rd i) (rv m LoReg)
  | OP_MTHI => to HiReg a
  | OP_MTLO => to LoReg a
  | OP_MULT => hilo (a * b / 2 ^ 32) (i32 (a * b))
  | OP_MULTU => hilo (i32 (u32 a * u32 b / 2 ^ 32)) (i32 (u32 a * u32 b))
  | OP_DIV =>
      let '(q, r) := if b =? 0 then (0, 0) else (Z.quot a b, Z.rem a b) in
      Some (MkEffect [(LoReg, q); (HiReg, r)] seq)
  | OP_DIVU =>
      let '(q, r) := if u32 b =? 0 then (0, 0) else (u32 a / u32 b, u32 a mod u32 b) in
      Some (MkEffect [(LoReg, i32 q); (HiReg, i32 r)] seq)
  | OP_BEQ => branch (a =? b)
  | OP_BNE => branch (negb (a =? b))
  | OP_BGEZ => branch (0 <=? a)
  | OP_BGTZ => branch (0 <? a)
  | OP_BLEZ => branch (a <=? 0)
  | OP_BLTZ => branch (a <? 0)
  | OP_BGEZAL => link (0 <=? a)
  | OP_BLTZAL => link (a <? 0)
  | OP_J => Some (MkEffect [] region)
  | OP_JAL => Some (MkEffect [(R31, seq)] region)
  | OP_JR => Some (MkEffect [] a)
  | OP_JALR => Some (MkEffect [(rd i, seq)] a)
  | _ => None
  end.

(** The register instructions. *)
Definition register_op (op : OpCode) : bool :=
  match op with
  | OP_LB | OP_LBU | OP_LH | OP_LHU | OP_LW | OP_LWL | OP_LWR | OP_SB | OP_SH | OP_SW | OP_SWL | OP_SWR
  | OP_SYSCALL | OP_UNIMP | OP_RES | OP_RFE | SPECIAL | BCOND => false
  | _ => true
  end.

(** What the simulator computes: [OP_OR] stores its first operand, the logical right
    shifts shift in the sign, and a jump is to the region of the instruction after its
    delay slot; the rest is the manual's. *)
Definition simulated (i : Instruction) (m : Machine) : option Effect :=
  let seq := i32 (rv m NextPCReg + 4) in
  let region := i32 (u32 seq / 2 ^ 28 * 2 ^ 28 + 4 * extra i) in
  match opCode i with
  | OP_OR => Some (MkEffect [(rd i, rv m (rs i))] seq)
  | OP_SRL => Some (MkEffect [(rd i, rv m (rt i) / 2 ^ extra i)] seq)
  | OP_SRLV => Some (MkEffect [(rd i, rv m (rt i) / 2 ^ (rv m (rs i) mod 32))] seq)
  | OP_J => Some (MkEffect [] region)
  | OP_JAL => Some (MkEffect [(R31, seq)] region)
  | _ => manual i m
  end.

(** When that is the manual's effect. *)
Definition conforms (i : Instruction) (m : Machine) : Prop :=
  match opCode i with
  | OP_OR => Z.lor (rv m (rs i)) (rv m (rt i)) = rv m (rs i)
  | OP_SRL => 0 <= rv m (rt i) \/ extra i = 0
  | OP_SRLV => 0 <= rv m (rt i) \/ rv m (rs i) mod 32 = 0
  | OP_J | OP_JAL => u32 (rv m NextPCReg + 4) / 2 ^ 28 = u32 (rv m NextPCReg) / 2 ^ 28
  | _ => True
  end.

(** The registers after an effect and the end of the instruction. *)
Definition apply_writes (ws : list (Z * Z)) (rs : list Z) : list Z :=
  foldl (fun rs w => <[Z.to_nat (fst w) := snd w]> rs) rs ws.
Definition retire (nextReg nextValue pc : Z) (rs : list Z) : list Z :=
  let rs := delayed (rs !!! 37%nat) (rs !!! 38%nat) nextReg nextValue rs in
  let rs := <[36%nat := rs !!! 34%nat]> rs in
  let rs := <[34%nat := rs !!! 35%nat]> rs in
  <[35%nat := pc]> rs.

(** The fields [Decode] gives. *)
Definition decoded (i : Instruction) : Prop :=
  0 <= rs i < 32 /\ 0 <= rt i < 32 /\ 0 <= rd i < 32 /\
  match opCode i with
  | OP_SLL | OP_SRL | OP_SRA => 0 <= extra i < 32
  | OP_J | OP_JAL => 0 <= extra i < 2 ^ 26
  | _ => - 2 ^ 15 <= extra i < 2 ^ 15
  end.

(** The registers are [int]s, and a load in progress is to a general register. *)
Record regs_wf (m : Machine) : Prop := {
  rw_len : length (registers m) = 40%nat;
  rw_i32 : Forall is_i32 (registers m);
  rw_load : 0 <= rv m LoadReg < 32
}.

(** The part of the kernel's state that is the machine is a lens. *)
Class HostLaws (W : Type) `{Host W} : Prop := {
  machine_get_set : forall m w, lget machine (lset machine m w) = m;
  machine_set_get : forall w, lset machine (lget machine w) w = w;
  machine_set_set : forall m m' w, lset machine m (lset machine m' w) = lset machine m w
}.

#[export] Instance vm_host_laws Random others : @HostLaws Vm (vm_host Random others).
Proof. split; [done|by intros []|done]. Qed.

(** The fields of an instruction that was decoded. *)
Lemma opTable_formats k op f : opTable !! k = Some (op, f) ->
  match f with
  | JFMT => op = OP_J \/ op = OP_JAL
  | RFMT => op = SPECIAL
  | IFMT => match op with OP_J | OP_JAL | OP_SLL | OP_SRL | OP_SRA | SPECIAL => False | _ => True end
  end.
Proof. unfold opTable. do 64 (destruct k as [|k]; [intros [= <- <-]; by auto|]). done. Qed.
Lemma specialTable_formats k op : specialTable !! k = Some op ->
  match op with OP_J | OP_JAL => False | _ => True end.
Proof. unfold specialTable. do 64 (destruct k as [|k]; [by intros [= <-]|]). done. Qed.

Lemma decode_decoded w i : is_u32 w -> Decode w = Ok i -> decoded i.
Proof.
  intros Hw Hd. destruct (lookup_lt_is_Some_2 opTable (Z.to_nat (w / 2 ^ 26))) as [[op f] Htab].
  { unfold is_u32 in Hw. change (length opTable) with (Z.to_nat 64). apply Z2Nat.inj_lt; [apply Z.div_pos; lia|lia|].
    apply Z.div_lt_upper_bound; lia. }
  pose proof (decode_fields w op f Hw Htab) as H. cbv zeta in H. pose proof (opTable_formats _ _ _ Htab) as Hf.
  pose proof (Z.mod_pos_bound (w / 2 ^ 21) 32 ltac:(lia)). pose proof (Z.mod_pos_bound (w / 2 ^ 16) 32 ltac:(lia)).
  pose proof (Z.mod_pos_bound (w / 2 ^ 11) 32 ltac:(lia)). pose proof (Z.mod_pos_bound (w / 2 ^ 6) 32 ltac:(lia)).
  pose proof (Z.mod_pos_bound w 65536 ltac:(lia)). pose proof (Z.mod_pos_bound w (2 ^ 26) ltac:(lia)).
  destruct f.
  - assert (Hx : exists o, Decode w = Ok (MkInstr w o ((w / 2 ^ 21) mod 32) ((w / 2 ^ 16) mod 32) ((w / 2 ^ 11) mod 32)
        (if w mod 65536 <? 32768 then w mod 65536 else w mod 65536 - 65536)) /\
      match o with OP_J | OP_JAL | OP_SLL | OP_SRL | OP_SRA => False | _ => True end).
    { destruct op; try done; (eexists; split; [exact H|]); repeat case_match; done. }
    destruct Hx as (o & Ho & Hk). rewrite Ho in Hd. injection Hd as <-. unfold decoded. cbn [rs rt rd opCode extra].
    split_and!; try lia. destruct (w mod 65536 <? 32768) eqn:E; destruct o; try done; lia.
  - destruct Hf as [-> | ->]; rewrite H in Hd; injection Hd as <-; unfold decoded; cbn [rs rt rd opCode extra]; lia.
  - subst op. destruct H as (o & Ho & H). pose proof (specialTable_formats _ _ Ho) as Hs. rewrite H in Hd. injection Hd as <-.
    unfold decoded; cbn [rs rt rd opCode extra]. split_and!; try lia. destruct o; try done; lia.
Qed.

(** ** Registers *)

Lemma lookup_rv m k : regs_wf m -> 0 <= k < 40 -> registers m !! Z.to_nat k = Some (rv m k).
Proof. intros Hm Hk. apply list_lookup_lookup_total_lt. rewrite (rw_len m Hm). lia. Qed.

Lemma reg_rv m k : regs_wf m -> 0 <= k < 40 -> reg k m = Ok (rv m k, m).
Proof. intros Hm Hk. apply reg_ok; [lia|]. by apply lookup_rv. Qed.

Lemma rv_i32 m k : regs_wf m -> 0 <= k < 40 -> is_i32 (rv m k).
Proof.
  intros Hm Hk. eapply Forall_lookup_1; [apply (rw_i32 m Hm)|]. by apply lookup_rv.
Qed.

Lemma rv_insert_eq m k x : length (registers m) = 40%nat -> 0 <= k < 40 ->
  rv (set_registers (<[Z.to_nat k := x]> (registers m)) m) k = x.
Proof. intros Hl Hk. unfold rv. cbn [registers set_registers]. apply list_lookup_total_insert_eq. lia. Qed.

Lemma rv_insert_ne m j k x : 0 <= j -> 0 <= k -> j <> k ->
  rv (set_registers (<[Z.to_nat j := x]> (registers m)) m) k = rv m k.
Proof. intros. unfold rv. cbn [registers set_registers]. apply list_lookup_total_insert_ne. lia. Qed.

Lemma regs_wf_set m k x : regs_wf m -> 0 <= k < 40 -> is_i32 x -> (k = LoadReg -> 0 <= x < 32) ->
  regs_wf (set_registers (<[Z.to_nat k := x]> (registers m)) m).
Proof.
  intros [Hl Hi Hload] Hk Hx Hr. split; cbn [registers set_registers].
  - by rewrite length_insert.
  - by apply Forall_insert.
  - destruct (decide (k = LoadReg)) as [->|Hne].
    + rewrite rv_insert_eq by done. by apply Hr.
    + rewrite rv_insert_ne; [done|lia|done|done].
Qed.

(** ** Bits *)

Lemma signed_bit_testbit x : signed_bit x = Z.testbit x 31.
Proof.
  unfold signed_bit, SIGN_BIT. change 0x80000000 with (2 ^ 31).
  rewrite (land_top_bit 31) by (lia || apply u32_range).
  assert (Z.testbit x 31 = Z.testbit (u32 x) 31) as ->.
  { unfold u32. by rewrite Z.mod_pow2_bits_low by lia. }
  pose proof (u32_range x) as Hr. unfold is_u32 in Hr. set (y := u32 x) in *.
  rewrite Z.testbit_odd, Z.shiftr_div_pow2 by lia.
  assert (y / 2 ^ 31 = 0 \/ y / 2 ^ 31 = 1) as [-> | ->]; [|done..].
  Z.to_euclidean_division_equations. lia.
Qed.

Lemma sign_i32 x : is_i32 x -> signed_bit x = (x <? 0).
Proof.
  unfold is_i32. intros Hx. rewrite signed_bit_testbit, Z.testbit_odd, Z.shiftr_div_pow2 by lia.
  destruct (Z.ltb_spec x 0).
  - assert (x / 2 ^ 31 = -1) as -> by (Z.to_euclidean_division_equations; lia). done.
  - rewrite Z.div_small by lia. done.
Qed.

Lemma sign_lxor a b : is_i32 a -> is_i32 b -> signed_bit (Z.lxor a b) = xorb (a <? 0) (b <? 0).
Proof.
  intros Ha Hb. rewrite <- !sign_i32 by done. by rewrite !signed_bit_testbit, Z.lxor_spec.
Qed.

Lemma fits_spec z : fits z = true <-> is_i32 z.
Proof. unfold fits, is_i32. rewrite andb_true_iff, Z.leb_le, Z.ltb_lt. lia. Qed.

(** The value of a sum or difference that left the range. *)
Lemma i32_wrap z : - 2 ^ 32 <= z < 2 ^ 32 ->
  i32 z = if fits z then z else if z <? 0 then z + 2 ^ 32 else z - 2 ^ 32.
Proof.
  intros Hz. destruct (fits z) eqn:Hf; [by apply i32_id, fits_spec|].
  assert (Hn : ~ is_i32 z) by (intros H%fits_spec; congruence). unfold is_i32 in Hn. unfold i32.
  destruct (Z.ltb_spec z 0).
  - rewrite <- (Z.mod_unique_pos (z + 2 ^ 31) (2 ^ 32) (-1) (z + 2 ^ 31 + 2 ^ 32)); lia.
  - rewrite <- (Z.mod_unique_pos (z + 2 ^ 31) (2 ^ 32) 1 (z + 2 ^ 31 - 2 ^ 32)); lia.
Qed.

Ltac ltb_cases :=
  unfold is_i32 in *; repeat match goal with
    | |- context [if ?x <? ?y then _ else _] => destruct (Z.ltb_spec x y)
    | |- context [?x <? ?y] => destruct (Z.ltb_spec x y)
    end; try done; lia.

(** The overflow tests of [OP_ADD] and [OP_SUB] are exact. *)
Lemma add_overflow a b c : is_i32 a -> is_i32 b -> c = a \/ c = b ->
  negb (signed_bit (Z.lxor a b)) && signed_bit (Z.lxor c (i32 (a + b))) = negb (fits (a + b)).
Proof.
  intros Ha Hb Hc. assert (is_i32 c) by (by destruct Hc as [-> | ->]).
  rewrite !sign_lxor by (done || apply i32_range). rewrite i32_wrap by (unfold is_i32 in *; lia).
  destruct (fits (a + b)) eqn:Hf.
  - apply fits_spec in Hf. destruct Hc as [-> | ->]; ltb_cases.
  - assert (Hn : ~ is_i32 (a + b)) by (intros G%fits_spec; congruence). destruct Hc as [-> | ->]; ltb_cases.
Qed.

Lemma sub_overflow a b : is_i32 a -> is_i32 b ->
  signed_bit (Z.lxor a b) && signed_bit (Z.lxor a (i32 (a - b))) = negb (fits (a - b)).
Proof.
  intros Ha Hb. rewrite !sign_lxor by (done || apply i32_range). rewrite i32_wrap by (unfold is_i32 in *; lia).
  destruct (fits (a - b)) eqn:Hf; [apply fits_spec in Hf; ltb_cases|].
  assert (Hn : ~ is_i32 (a - b)) by (intros G%fits_spec; congruence). ltb_cases.
Qed.

(** ** The groups of instructions *)

Lemma low_16 x : Z.land x 0xffff = x mod 2 ^ 16.
Proof. apply (Z.land_ones x 16). lia. Qed.
Lemma low_5 x : Z.land x 0x1f = x mod 32.
Proof. apply (Z.land_ones x 5). lia. Qed.

Lemma reg_bind {B} k (f : Z -> M Machine B) m :
  regs_wf m -> 0 <= k < 40 -> (reg k ≫= f) m = f (rv m k) m.
Proof. intros. apply bind_ok. by apply reg_rv. Qed.

Lemma set_bind {B} k x (f : unit -> M Machine B) m :
  length (registers m) = 40%nat -> 0 <= k < 40 ->
  (set_reg k x ≫= f) m = f tt (set_registers (<[Z.to_nat k := x]> (registers m)) m).
Proof. intros. apply bind_ok. by apply set_reg_ok. Qed.

(** Run the register accesses of a group. *)
Ltac regs Hm :=
  repeat first
    [ rewrite (reg_bind _ _ _ Hm) by (done || lia)
    | rewrite set_bind by (first [apply (rw_len _ Hm) | done | lia | cbn [registers set_registers]; rewrite length_insert; apply (rw_len _ Hm)])
    | rewrite (reg_rv _ _ Hm) by (done || lia)
    | rewrite set_reg_ok by (first [apply (rw_len _ Hm) | done | lia | cbn [registers set_registers]; rewrite length_insert; apply (rw_len _ Hm)]) ];
  cbv beta.

Section Groups.
Context (i : Instruction) (m : Machine) (Hm : regs_wf m) (Hi : decoded i).

Definition wrote (ws : list (Z * Z)) : Machine := set_registers (apply_writes ws (registers m)) m.

Lemma exec_add_spec :
  match opCode i with OP_ADD | OP_ADDI | OP_ADDIU | OP_ADDU | OP_AND | OP_ANDI => True | _ => False end ->
  exec_add i m = match simulated i m with Some e => Ok (false, wrote (writes e)) | None => Ok (true, m) end.
Proof.
  destruct Hi as (Hs & Ht & Hd & Hx). pose proof (rv_i32 m (rs i) Hm ltac:(lia)) as Ia.
  pose proof (rv_i32 m (rt i) Hm ltac:(lia)) as Ib. unfold exec_add, simulated, manual. cbv zeta.
  destruct (opCode i); try done; intros _; regs Hm.
  - rewrite add_overflow by auto. destruct (fits _) eqn:Hf; cbn [negb]; [|done].
    rewrite i32_id by (by apply fits_spec). by regs Hm.
  - rewrite add_overflow by (unfold is_i32; auto; lia). destruct (fits _) eqn:Hf; cbn [negb]; [|done].
    rewrite i32_id by (by apply fits_spec). by regs Hm.
  - done.
  - done.
  - done.
  - by rewrite low_16.
Qed.

Lemma exec_sub_spec :
  match opCode i with OP_SUB | OP_SUBU => True | _ => False end ->
  exec_sub i m = match simulated i m with Some e => Ok (false, wrote (writes e)) | None => Ok (true, m) end.
Proof.
  destruct Hi as (Hs & Ht & Hd & Hx). pose proof (rv_i32 m (rs i) Hm ltac:(lia)) as Ia.
  pose proof (rv_i32 m (rt i) Hm ltac:(lia)) as Ib. unfold exec_sub, simulated, manual. cbv zeta.
  destruct (opCode i); try done; intros _; regs Hm; [|done].
  rewrite sub_overflow by auto. destruct (fits _) eqn:Hf; cbn [negb]; [|done].
  rewrite i32_id by (by apply fits_spec). by regs Hm.
Qed.

Lemma exec_or_spec : opCode i = OP_NOR \/ opCode i = OP_ORI \/ opCode i = OP_OR ->
  exists e, simulated i m = Some e /\ pc_after e = i32 (rv m NextPCReg + 4) /\ exec_or i m = Ok (tt, wrote (writes e)).
Proof.
  destruct Hi as (Hs & Ht & Hd & Hx). unfold exec_or, simulated, manual. cbv zeta.
  intros [E|[E|E]]; rewrite E; regs Hm; rewrite ?low_16, ?Z.lor_diag; eexists; (split; [reflexivity|done]).
Qed.

Lemma exec_xor_spec : opCode i = OP_XOR \/ opCode i = OP_XORI ->
  exists e, simulated i m = Some e /\ pc_after e = i32 (rv m NextPCReg + 4) /\ exec_xor i m = Ok (tt, wrote (writes e)).
Proof.
  destruct Hi as (Hs & Ht & Hd & Hx). unfold exec_xor, simulated, manual. cbv zeta.
  intros [E|E]; rewrite E; regs Hm; rewrite ?low_16; eexists; (split; [reflexivity|done]).
Qed.

Lemma exec_shift_spec :
  match opCode i with
  | OP_SLL | OP_SLLV | OP_SLT | OP_SLTI | OP_SLTIU | OP_SLTU | OP_SRA | OP_SRAV | OP_SRL | OP_SRLV => True
  | _ => False
  end ->
  exists e, simulated i m = Some e /\ pc_after e = i32 (rv m NextPCReg + 4) /\ exec_shift i m = Ok (tt, wrote (writes e)).
Proof.
  destruct Hi as (Hs & Ht & Hd & Hx). unfold exec_shift, simulated, manual. cbv zeta.
  destruct (opCode i); try done; intros _; regs Hm; rewrite ?low_5;
    rewrite ?Z.shiftl_mul_pow2, ?Z.shiftr_div_pow2 by (first [lia | apply Z.mod_pos_bound; lia]);
    eexists; (split; [reflexivity|done]).
Qed.

(** The instructions the manual forbids or leaves undefined, and the division the
    host traps on. *)
Definition permitted : Prop :=
  match opCode i with
  | OP_JALR => rd i <> rs i
  | OP_BGEZAL | OP_BLTZAL => rs i <> R31
  | OP_DIV => ~ (rv m (rs i) = - 2 ^ 31 /\ rv m (rt i) = -1)
  | _ => True
  end.

Lemma exec_hilo_spec :
  match opCode i with OP_MFHI | OP_MFLO | OP_MTHI | OP_MTLO | OP_MULT | OP_MULTU => True | _ => False end ->
  exists e, simulated i m = Some e /\ pc_after e = i32 (rv m NextPCReg + 4) /\ exec_hilo i m = Ok (tt, wrote (writes e)).
Proof.
  destruct Hi as (Hs & Ht & Hd & Hx). pose proof (rv_i32 m (rs i) Hm ltac:(lia)) as Ia.
  pose proof (rv_i32 m (rt i) Hm ltac:(lia)) as Ib. unfold exec_hilo, simulated, manual. cbv zeta.
  destruct (mult_product _ _ Ia Ib) as [Hsig Huns].
  destruct (opCode i); try done; intros _; regs Hm; try (eexists; by split).
  - destruct (Mult _ _ true) as [hi lo]. destruct Hsig as (Hh & Hl & Hp). regs Hm.
    eexists. split; [reflexivity|]. split; [done|]. rewrite <- Hp. pose proof (u32_range lo) as Hr. unfold is_u32 in Hr.
    rewrite Z.div_add_l, Z.div_small, Z.add_0_r by lia. unfold i32 at 1.
    replace (hi * 2 ^ 32 + u32 lo + 2 ^ 31) with (u32 lo + 2 ^ 31 + hi * 2 ^ 32) by lia. rewrite Z.mod_add by lia.
    change ((u32 lo + 2 ^ 31) mod 2 ^ 32 - 2 ^ 31) with (i32 (u32 lo)). by rewrite i32_u32, i32_id.
  - destruct (Mult _ _ false) as [hi lo]. destruct Huns as (Hh & Hl & Hp). regs Hm.
    eexists. split; [reflexivity|]. split; [done|]. rewrite <- Hp. pose proof (u32_range lo) as Hr. unfold is_u32 in Hr.
    rewrite Z.div_add_l, Z.div_small, Z.add_0_r by lia. rewrite i32_u32, (i32_id hi) by done. unfold i32 at 1.
    replace (u32 hi * 2 ^ 32 + u32 lo + 2 ^ 31) with (u32 lo + 2 ^ 31 + u32 hi * 2 ^ 32) by lia. rewrite Z.mod_add by lia.
    change ((u32 lo + 2 ^ 31) mod 2 ^ 32 - 2 ^ 31) with (i32 (u32 lo)). by rewrite i32_u32, i32_id.
Qed.

Lemma exec_div_spec : opCode i = OP_DIV \/ opCode i = OP_DIVU -> permitted ->
  exists e, simulated i m = Some e /\ pc_after e = i32 (rv m NextPCReg + 4) /\ exec_div i m = Ok (tt, wrote (writes e)).
Proof.
  destruct Hi as (Hs & Ht & Hd & Hx). pose proof (rv_i32 m (rs i) Hm ltac:(lia)) as Ia.
  pose proof (rv_i32 m (rt i) Hm ltac:(lia)) as Ib. unfold exec_div, simulated, manual, permitted. cbv zeta.
  intros [E|E]; rewrite E; regs Hm.
  - intros Hok. destruct (Z.eqb_spec (rv m (rt i)) 0) as [Hb|Hb]; regs Hm; [eexists; by split|].
    assert (Hq : is_i32 (Z.quot (rv m (rs i)) (rv m (rt i)))).
    { unfold is_i32 in *. Z.to_euclidean_division_equations. nia. }
    rewrite (bind_ok _ _ m _ m (lift_ok _ _ _ (int_ok _ Hq))). regs Hm. eexists. by split.
  - intros _. destruct (Z.eqb_spec (u32 (rv m (rt i))) 0); regs Hm; eexists; by split.
Qed.

Lemma taken (c : bool) s x m' : regs_wf m' -> is_i32 (4 * x) ->
  (if c then reg NextPCReg ≫= fun n => mret (i32 (n + IndexToAddr x)) else mret s) m' =
  Ok (if c then i32 (rv m' NextPCReg + 4 * x) else s, m').
Proof.
  intros Hm' Hx. destruct c; [|done]. rewrite reg_bind by done. unfold IndexToAddr.
  rewrite Z.shiftl_mul_pow2 by lia. replace (x * 2 ^ 2) with (4 * x) by lia. by rewrite (i32_id (4 * x)).
Qed.

Lemma exec_branch_spec :
  match opCode i with
  | OP_BEQ | OP_BGEZ | OP_BGEZAL | OP_BGTZ | OP_BLEZ | OP_BLTZ | OP_BLTZAL | OP_BNE => True
  | _ => False
  end -> permitted ->
  exists e, simulated i m = Some e /\
    exec_branch i (i32 (rv m NextPCReg + 4)) m = Ok (pc_after e, wrote (writes e)).
Proof.
  destruct Hi as (Hs & Ht & Hd & Hx). pose proof (rv_i32 m (rs i) Hm ltac:(lia)) as Ia.
  assert (Hwrote : wrote [] = m) by (unfold wrote, apply_writes; simpl; by destruct m).
  set (m1 := wrote [(R31, i32 (rv m NextPCReg + 4))]).
  assert (Hm1 : regs_wf m1) by (apply regs_wf_set; [done|done|apply i32_range|done]).
  assert (Hlink : (reg NextPCReg ≫= fun n => set_reg R31 (i32 (n + 4))) m = Ok (tt, m1)) by (by regs Hm).
  assert (Hnext : rv m1 NextPCReg = rv m NextPCReg) by (by apply rv_insert_ne).
  assert (Hrs : rs i <> R31 -> rv m1 (rs i) = rv m (rs i)) by (intros; apply rv_insert_ne; [done|lia|done]).
  assert (Hneg : negb (rv m (rs i) <? 0) = (0 <=? rv m (rs i))) by (by rewrite Z.ltb_antisym, negb_involutive).
  unfold exec_branch, simulated, manual, permitted. cbv zeta.
  destruct (opCode i); try done; intros _ Hok; (eexists; split; [reflexivity|]); cbn [pc_after writes];
    try (rewrite (bind_ok _ _ _ _ _ Hlink), (reg_bind _ _ _ Hm1), (Hrs Hok) by lia);
    regs Hm; rewrite ?(sign_i32 _ Ia), ?Hneg, taken by (done || unfold is_i32; lia); by rewrite ?Hwrote, ?Hnext.
Qed.

Lemma jump_target s x : 0 <= x < 2 ^ 26 ->
  i32 (Z.lor (Z.land (u32 s) 0xf0000000) (u32 (IndexToAddr x))) = i32 (u32 s / 2 ^ 28 * 2 ^ 28 + 4 * x).
Proof.
  intros Hx. unfold IndexToAddr. rewrite u32_i32, Z.shiftl_mul_pow2, (u32_id (x * 2 ^ 2)) by (unfold is_u32; lia).
  replace (x * 2 ^ 2) with (4 * x) by lia. pose proof (u32_range s) as Hr. unfold is_u32 in Hr.
  assert (Hland : Z.land (u32 s) 0xf0000000 = u32 s / 2 ^ 28 * 2 ^ 28).
  { change 0xf0000000 with (Z.shiftl (Z.ones 4) 28). rewrite <- Z.shiftl_mul_pow2, <- Z.shiftr_div_pow2 by lia.
    apply Z.bits_inj'. intros j Hj. rewrite Z.land_spec, !Z.shiftl_spec by lia.
    destruct (Z.lt_ge_cases j 28); [rewrite !(Z.testbit_neg_r _ (j - 28)) by lia; by rewrite andb_false_r|].
    rewrite Z.shiftr_spec, Z.testbit_ones by lia. replace (j - 28 + 28) with j by lia.
    destruct (Z.lt_ge_cases j 32); [|].
    - rewrite (proj2 (Z.leb_le 0 (j - 28))), (proj2 (Z.ltb_lt (j - 28) 4)) by lia. by rewrite andb_true_r.
    - rewrite (proj2 (Z.ltb_ge (j - 28) 4)), andb_false_r by lia. rewrite andb_false_r. symmetry.
      destruct (decide (u32 s = 0)) as [->|]; [apply Z.testbit_0_l|]. apply Z.bits_above_log2; [lia|].
      apply Z.log2_lt_pow2; [lia|]. assert (2 ^ 32 <= 2 ^ j) by (apply Z.pow_le_mono_r; lia). lia. }
  rewrite Hland, <- Z.add_lor_land. rewrite <- (Z.shiftl_mul_pow2 _ 28) by lia.
  assert (Hdisj : Z.land (Z.shiftl (u32 s / 2 ^ 28) 28) (4 * x) = 0).
  { apply Z.bits_inj'. intros j Hj. rewrite Z.land_spec, Z.shiftl_spec, Z.testbit_0_l by lia.
    destruct (Z.lt_ge_cases j 28); [by rewrite Z.testbit_neg_r by lia|].
    destruct (decide (x = 0)) as [->|]; [by rewrite Z.mul_0_r, Z.testbit_0_l, andb_false_r|].
    rewrite (Z.bits_above_log2 (4 * x) j); [by rewrite andb_false_r|lia|]. apply Z.log2_lt_pow2; [lia|].
    assert (2 ^ 28 <= 2 ^ j) by (apply Z.pow_le_mono_r; lia). lia. }
  rewrite Hdisj. f_equal. lia.
Qed.

Lemma exec_jump_spec :
  match opCode i with OP_J | OP_JAL | OP_JALR | OP_JR => True | _ => False end -> permitted ->
  exists e, simulated i m = Some e /\ exec_jump i (i32 (rv m NextPCReg + 4)) m = Ok (pc_after e, wrote (writes e)).
Proof.
  destruct Hi as (Hs & Ht & Hd & Hx). assert (Hwrote : wrote [] = m) by (unfold wrote, apply_writes; simpl; by destruct m).
  unfold exec_jump, simulated, manual, permitted. cbv zeta.
  destruct (opCode i); try done; intros _ Hok; (eexists; split; [reflexivity|]); cbn [pc_after writes];
    rewrite ?jump_target by done; regs Hm; rewrite ?Hwrote; try done.
  rewrite reg_rv; [|apply regs_wf_set; [done|lia|apply i32_range|unfold LoadReg; lia]|lia].
  rewrite rv_insert_ne by lia. done.
Qed.
End Groups.

(** ** The end of an instruction *)

Lemma regs_wf_delayed m n y : regs_wf m -> 0 <= n < 32 -> is_i32 y ->
  regs_wf (set_registers (delayed (rv m LoadReg) (rv m LoadValueReg) n y (registers m)) m).
Proof.
  intros Hm Hn Hy. pose proof (rw_load m Hm) as Hl.
  assert (Hne : rv m LoadReg = LoadReg -> 0 <= rv m LoadValueReg < 32) by (intros E; rewrite E in Hl; done || (unfold LoadReg in Hl; lia)).
  pose proof (regs_wf_set m (rv m LoadReg) (rv m LoadValueReg) Hm ltac:(lia) (rv_i32 m LoadValueReg Hm ltac:(done)) Hne) as H1.
  pose proof (regs_wf_set _ LoadReg n H1 ltac:(done) ltac:(unfold is_i32; lia) ltac:(done)) as H2.
  pose proof (regs_wf_set _ LoadValueReg y H2 ltac:(done) Hy ltac:(done)) as H3.
  exact (regs_wf_set _ 0 0 H3 ltac:(done) ltac:(done) ltac:(done)).
Qed.

Lemma finish_ok m n y pc : regs_wf m -> 0 <= n < 32 -> is_i32 y -> is_i32 pc ->
  finish_instruction n y pc m = Ok (tt, set_registers (retire n y pc (registers m)) m) /\
  regs_wf (set_registers (retire n y pc (registers m)) m).
Proof.
  intros Hm Hn Hy Hpc. unfold finish_instruction.
  assert (Hd : DelayedLoad n y m = Ok (tt, set_registers (delayed (rv m LoadReg) (rv m LoadValueReg) n y (registers m)) m)).
  { apply delayed_load_ok; [apply (rw_len m Hm)|by apply (lookup_rv m LoadReg)|apply (rw_load m Hm)|].
    by apply (lookup_rv m LoadValueReg). }
  pose proof (regs_wf_delayed m n y Hm Hn Hy) as H1. rewrite (bind_ok _ _ _ _ _ Hd).
  set (m1 := set_registers _ m) in *. rewrite (reg_bind _ _ _ H1), set_bind by (done || apply (rw_len _ H1)).
  pose proof (regs_wf_set m1 PrevPCReg (rv m1 PCReg) H1 ltac:(done) (rv_i32 m1 PCReg H1 ltac:(done)) ltac:(done)) as H2.
  set (m2 := set_registers _ m1) in *. rewrite (reg_bind _ _ _ H2), set_bind by (done || apply (rw_len _ H2)).
  pose proof (regs_wf_set m2 PCReg (rv m2 NextPCReg) H2 ltac:(done) (rv_i32 m2 NextPCReg H2 ltac:(done)) ltac:(done)) as H3.
  set (m3 := set_registers _ m2) in *. rewrite set_reg_ok by (done || apply (rw_len _ H3)).
  pose proof (regs_wf_set m3 NextPCReg pc H3 ltac:(done) Hpc ltac:(done)) as H4.
  exact (conj eq_refl H4).
Qed.

(** ** Ranges *)

Lemma i32_high_bits x j : is_i32 x -> 31 <= j -> Z.testbit x j = Z.testbit x 31.
Proof.
  unfold is_i32. intros Hx Hj. rewrite !Z.testbit_odd, !Z.shiftr_div_pow2 by lia.
  assert (2 ^ 31 <= 2 ^ j) by (apply Z.pow_le_mono_r; lia). destruct (Z.lt_ge_cases x 0).
  - by rewrite <- (Z.div_unique_pos x (2 ^ j) (-1) (x + 2 ^ j)), <- (Z.div_unique_pos x (2 ^ 31) (-1) (x + 2 ^ 31)) by lia.
  - by rewrite !Z.div_small by lia.
Qed.

Lemma is_i32_bits x : (forall j, 31 <= j -> Z.testbit x j = Z.testbit x 31) -> is_i32 x.
Proof.
  intros Hb. assert (Hlow : forall j, 0 <= j < 32 -> Z.testbit x j = Z.testbit (i32 x) j).
  { intros j Hj. transitivity (Z.testbit (u32 x) j); [unfold u32; by rewrite Z.mod_pow2_bits_low by lia|].
    rewrite <- u32_i32. unfold u32. by rewrite Z.mod_pow2_bits_low by lia. }
  assert (x = i32 x) as ->; [|apply i32_range]. apply Z.bits_inj'. intros j Hj.
  destruct (Z.lt_ge_cases j 32); [apply Hlow; lia|].
  rewrite Hb, (i32_high_bits (i32 x)) by (apply i32_range || lia). apply Hlow. lia.
Qed.

Lemma i32_land a b : is_i32 a -> is_i32 b -> is_i32 (Z.land a b).
Proof. intros. apply is_i32_bits. intros. rewrite !Z.land_spec. by rewrite (i32_high_bits a j), (i32_high_bits b j). Qed.
Lemma i32_lor a b : is_i32 a -> is_i32 b -> is_i32 (Z.lor a b).
Proof. intros. apply is_i32_bits. intros. rewrite !Z.lor_spec. by rewrite (i32_high_bits a j), (i32_high_bits b j). Qed.
Lemma i32_lxor a b : is_i32 a -> is_i32 b -> is_i32 (Z.lxor a b).
Proof. intros. apply is_i32_bits. intros. rewrite !Z.lxor_spec. by rewrite (i32_high_bits a j), (i32_high_bits b j). Qed.
Lemma i32_lnot a : is_i32 a -> is_i32 (Z.lnot a).
Proof. unfold is_i32. pose proof (Z.add_lnot_diag a). lia. Qed.
Lemma i32_low_16 x : is_i32 (x mod 2 ^ 16).
Proof. pose proof (Z.mod_pos_bound x (2 ^ 16)). unfold is_i32. lia. Qed.
Lemma i32_sra a k : is_i32 a -> 0 <= k -> is_i32 (a / 2 ^ k).
Proof.
  unfold is_i32. intros Ha Hk. assert (0 < 2 ^ k) by (by apply Z.pow_pos_nonneg).
  split; [apply Z.div_le_lower_bound|apply Z.div_lt_upper_bound]; nia.
Qed.
Lemma i32_flag (c : bool) : is_i32 (if c then 1 else 0).
Proof. by destruct c. Qed.
Lemma i32_quot a b : is_i32 a -> is_i32 b -> ~ (a = - 2 ^ 31 /\ b = -1) -> b <> 0 ->
  is_i32 (Z.quot a b) /\ is_i32 (Z.rem a b).
Proof. unfold is_i32. intros. Z.to_euclidean_division_equations. nia. Qed.

Create HintDb i32 discriminated.
#[export] Hint Resolve i32_range i32_land i32_lor i32_lxor i32_lnot i32_low_16 i32_sra i32_flag : i32.

(** The effects of the reference are of the machine's types. *)
Definition effect_ok (e : Effect) : Prop :=
  Forall (fun w => 0 <= fst w < 34 /\ is_i32 (snd w)) (writes e) /\ is_i32 (pc_after e).

Lemma effect_none pc : is_i32 pc -> effect_ok (MkEffect [] pc).
Proof. by split. Qed.
Lemma effect_one r v pc : 0 <= r < 34 -> is_i32 v -> is_i32 pc -> effect_ok (MkEffect [(r, v)] pc).
Proof. intros. split; [|done]. by apply Forall_singleton. Qed.
Lemma effect_two r v r' v' pc : 0 <= r < 34 -> 0 <= r' < 34 -> is_i32 v -> is_i32 v' -> is_i32 pc ->
  effect_ok (MkEffect [(r, v); (r', v')] pc).
Proof. intros. split; [|done]. apply Forall_cons; split; [done|by apply Forall_singleton]. Qed.
Lemma effect_checked r v pc e : 0 <= r < 34 -> is_i32 pc ->
  (if fits v then Some (MkEffect [(r, v)] pc) else None) = Some e -> effect_ok e.
Proof.
  intros Hr Hpc. destruct (fits v) eqn:Hf; [|done]. intros [= <-]. by apply effect_one; [|apply fits_spec|].
Qed.
Lemma i32_either (c : bool) u v : is_i32 (if c then i32 u else i32 v).
Proof. destruct c; apply i32_range. Qed.
#[export] Hint Resolve i32_either : i32.

Lemma product_i32 a b : is_i32 a -> is_i32 b -> is_i32 (a * b / 2 ^ 32).
Proof.
  unfold is_i32. intros. split; [apply Z.div_le_lower_bound|apply Z.div_lt_upper_bound]; nia.
Qed.

Lemma simulated_wf i m e : regs_wf m -> decoded i -> permitted i m -> simulated i m = Some e -> effect_ok e.
Proof.
  intros Hm (Hs & Ht & Hd & Hx) Hok. pose proof (rv_i32 m (rs i) Hm ltac:(lia)) as Ia.
  pose proof (rv_i32 m (rt i) Hm ltac:(lia)) as Ib. pose proof (rv_i32 m HiReg Hm ltac:(done)) as Ih.
  pose proof (rv_i32 m LoReg Hm ltac:(done)) as Il. pose proof (Z.mod_pos_bound (rv m (rs i)) 32 ltac:(lia)) as H5.
  unfold simulated, manual, permitted in *. cbv zeta.
  destruct (opCode i); try done;
    try (apply effect_checked; [lia|apply i32_range]);
    try (intros [= <-]; apply effect_none; eauto with i32);
    try (intros [= <-]; apply effect_one; [unfold HiReg, LoReg, R31; lia|eauto with i32 lia|eauto with i32]).
  - destruct (Z.eqb_spec (rv m (rt i)) 0); intros [= <-]; apply effect_two; try done; auto with i32;
      by apply i32_quot.
  - case_if; intros [= <-]; apply effect_two; auto with i32; done.
  - intros [= <-]; apply effect_two; auto with i32; try done. by apply product_i32.
  - intros [= <-]; apply effect_two; auto with i32; done.
Qed.

Lemma apply_writes_wf ws m : regs_wf m -> Forall (fun w => 0 <= fst w < 34 /\ is_i32 (snd w)) ws -> regs_wf (wrote m ws).
Proof.
  intros Hm Hws. revert m Hm. induction ws as [|[k x] ws IH]; intros m Hm; [by destruct m|].
  apply Forall_cons in Hws as [[Hk Hx] Hws]. cbn [fst snd] in *.
  pose proof (IH Hws _ (regs_wf_set m k x Hm ltac:(lia) Hx ltac:(unfold LoadReg; lia))) as Hwf. exact Hwf.
Qed.

(** ** One instruction *)

Section Execute.
Context {W : Type} `{HostLaws W}.

Lemma on_bind {A B} (p : M Machine A) (f : A -> M W B) w a m' :
  p (lget machine w) = Ok (a, m') -> (on_machine p ≫= f) w = f a (lset machine m' w).
Proof. intros Hp. apply bind_ok. by apply zoom_ok. Qed.

Lemma on_reg {B} k (f : Z -> M W B) w : regs_wf (lget machine w) -> 0 <= k < 40 ->
  (on_machine (reg k) ≫= f) w = f (rv (lget machine w) k) w.
Proof. intros Hm Hk. rewrite (on_bind _ _ _ _ _ (reg_rv _ k Hm Hk)). by rewrite machine_set_get. Qed.

(** A group has run and the instruction ends. *)
Lemma finish_wrote w ws pc : regs_wf (lget machine w) ->
  Forall (fun w => 0 <= fst w < 34 /\ is_i32 (snd w)) ws -> is_i32 pc ->
  on_machine (finish_instruction 0 0 pc) (lset machine (wrote (lget machine w) ws) w) =
  Ok (tt, lset machine (set_registers (retire 0 0 pc (apply_writes ws (registers (lget machine w)))) (lget machine w)) w).
Proof.
  intros Hm Hws Hpc. pose proof (apply_writes_wf _ _ Hm Hws) as Hm'.
  destruct (finish_ok _ 0 0 pc Hm' ltac:(lia) ltac:(done) Hpc) as [Hf _].
  unfold on_machine. erewrite zoom_ok by (rewrite machine_get_set; exact Hf). by rewrite machine_set_set.
Qed.

(** The machine after an instruction with effect [e]. *)
Definition after (m : Machine) (e : Effect) : Machine :=
  set_registers (retire 0 0 (pc_after e) (apply_writes (writes e) (registers m))) m.

Lemma lui_value x : i32 (Z.shiftl x 16) = i32 (x mod 2 ^ 16 * 2 ^ 16).
Proof.
  rewrite Z.shiftl_mul_pow2 by lia. rewrite <- (i32_u32 (x * 2 ^ 16)), <- (i32_u32 (x mod 2 ^ 16 * 2 ^ 16)). f_equal.
  unfold u32. change (2 ^ 32) with (2 ^ 16 * 2 ^ 16). rewrite !Z.mul_mod_distr_r by lia. by rewrite Z.mod_mod.
Qed.

Section Ends.
Context (i : Instruction) (w : W).
#[local] Abbreviation m := (lget machine w).
Context (Hm : regs_wf m) (Hi : decoded i) (Hok : permitted i m).

Lemma end_falls (p : M Machine unit) :
  (exists e, simulated i m = Some e /\ pc_after e = i32 (rv m NextPCReg + 4) /\ p m = Ok (tt, wrote m (writes e))) ->
  (on_machine p ≫= fun _ => on_machine (finish_instruction 0 0 (i32 (rv m NextPCReg + 4)))) w =
  match simulated i m with Some e => Ok (tt, lset machine (after m e) w) | None => RaiseException OverflowException 0 w end.
Proof.
  intros (e & He & Hpc & Hp). rewrite He, (on_bind _ _ _ _ _ Hp), <- Hpc.
  destruct (simulated_wf i m e Hm Hi Hok He) as [Hw Hr]. by apply finish_wrote.
Qed.

Lemma end_jumps (p : M Machine Z) :
  (exists e, simulated i m = Some e /\ p m = Ok (pc_after e, wrote m (writes e))) ->
  (on_machine p ≫= fun pc => on_machine (finish_instruction 0 0 pc)) w =
  match simulated i m with Some e => Ok (tt, lset machine (after m e) w) | None => RaiseException OverflowException 0 w end.
Proof.
  intros (e & He & Hp). rewrite He, (on_bind _ _ _ _ _ Hp).
  destruct (simulated_wf i m e Hm Hi Hok He) as [Hw Hr]. by apply finish_wrote.
Qed.

Lemma end_traps (p : M Machine bool) :
  (forall e, simulated i m = Some e -> pc_after e = i32 (rv m NextPCReg + 4)) ->
  p m = match simulated i m with Some e => Ok (false, wrote m (writes e)) | None => Ok (true, m) end ->
  (on_machine p ≫= fun b => if b : bool then RaiseException OverflowException 0
                            else on_machine (finish_instruction 0 0 (i32 (rv m NextPCReg + 4)))) w =
  match simulated i m with Some e => Ok (tt, lset machine (after m e) w) | None => RaiseException OverflowException 0 w end.
Proof.
  intros Hpc Hp. destruct (simulated i m) as [e|] eqn:He.
  - rewrite (on_bind _ _ _ _ _ Hp), <- (Hpc e eq_refl). destruct (simulated_wf i m e Hm Hi Hok He) as [Hw Hr].
    by apply finish_wrote.
  - rewrite (on_bind _ _ _ _ _ Hp). by rewrite machine_set_get.
Qed.
End Ends.

Lemma execute_register i w :
  regs_wf (lget machine w) -> decoded i -> permitted i (lget machine w) -> register_op (opCode i) = true ->
  execute i w =
  match simulated i (lget machine w) with
  | Some e => Ok (tt, lset machine (after (lget machine w) e) w)
  | None => RaiseException OverflowException 0 w
  end.
Proof.
  intros Hm Hi Hok Hop. unfold execute. rewrite on_reg by done. cbv beta zeta.
  assert (Hseq : match opCode i with OP_ADD | OP_ADDI | OP_ADDIU | OP_ADDU | OP_AND | OP_ANDI | OP_SUB | OP_SUBU => True | _ => False end ->
    forall e, simulated i (lget machine w) = Some e -> pc_after e = i32 (rv (lget machine w) NextPCReg + 4)).
  { unfold simulated, manual. cbv zeta. destruct (opCode i); try done; intros _ e; try case_if; by intros [= <-]. }
  destruct (opCode i) eqn:E; try discriminate Hop.
  all: try (apply end_traps; [done..|by apply Hseq|apply exec_add_spec || apply exec_sub_spec; [done|done|by rewrite E]]).
  all: try (apply end_jumps; [done..|apply exec_branch_spec || apply exec_jump_spec; [done|done|by rewrite E|done]]).
  all: try (apply end_falls; [done..|apply exec_xor_spec || apply exec_or_spec; [done|done|by auto]]).
  all: try (apply end_falls; [done..|apply exec_div_spec; [done|done|by auto|done]]).
  all: try (apply end_falls; [done..|apply exec_shift_spec || apply exec_hilo_spec; [done|done|by rewrite E]]).
  apply end_falls; [done..|]. unfold simulated, manual. rewrite E. eexists. split; [reflexivity|]. split; [done|].
  rewrite set_reg_ok; [|apply (rw_len _ Hm)|destruct Hi; lia]. by rewrite lui_value.
Qed.

End Execute.

Lemma srl_differs b k : is_i32 b -> 0 <= k < 32 -> b / 2 ^ k = i32 (u32 b / 2 ^ k) <-> 0 <= b \/ k = 0.
Proof.
  intros Hb Hk. assert (Hp : 0 < 2 ^ k) by (apply Z.pow_pos_nonneg; lia). split.
  - intros E. destruct (Z.lt_ge_cases b 0) as [Hneg|]; [|by left]. right. apply Z.le_antisymm; [|lia].
    apply Z.nlt_ge. intros Hk0. assert (2 ^ 1 <= 2 ^ k) by (apply Z.pow_le_mono_r; lia).
    pose proof (u32_range b) as Hr. unfold is_u32 in Hr. assert (b / 2 ^ k < 0) by (apply Z.div_lt_upper_bound; lia).
    assert (0 <= u32 b / 2 ^ k) by (apply Z.div_pos; lia). assert (u32 b / 2 ^ k < 2 ^ 31) by (apply Z.div_lt_upper_bound; nia).
    rewrite i32_id in E by (unfold is_i32; lia). lia.
  - intros [Hpos| ->].
    + rewrite u32_id by (unfold is_i32, is_u32 in *; lia). by rewrite i32_id by auto with i32 lia.
    + rewrite !Z.pow_0_r, !Z.div_1_r. by rewrite i32_u32, i32_id.
Qed.

Lemma jump_region n x : is_i32 n -> 0 <= x < 2 ^ 26 ->
  i32 (u32 (i32 (n + 4)) / 2 ^ 28 * 2 ^ 28 + 4 * x) = i32 (u32 n / 2 ^ 28 * 2 ^ 28 + 4 * x) <->
  u32 (n + 4) / 2 ^ 28 = u32 n / 2 ^ 28.
Proof.
  intros Hn Hx. rewrite u32_i32. split; [|by intros ->]. intros E. apply (f_equal u32) in E. rewrite !u32_i32 in E.
  assert (Hr : forall z, 0 <= u32 z / 2 ^ 28 < 16).
  { intros z. pose proof (u32_range z) as Hz. unfold is_u32 in Hz. split; [apply Z.div_pos; lia|apply Z.div_lt_upper_bound; lia]. }
  pose proof (Hr (n + 4)). pose proof (Hr n). 
  rewrite (u32_id (u32 (n + 4) / 2 ^ 28 * 2 ^ 28 + 4 * x)), (u32_id (u32 n / 2 ^ 28 * 2 ^ 28 + 4 * x)) in E
    by (unfold is_u32; lia).
  lia.
Qed.

(** The simulator does what the manual says exactly when [conforms] holds. *)
Lemma simulated_manual i m : regs_wf m -> decoded i -> simulated i m = manual i m <-> conforms i m.
Proof.
  intros Hm (Hs & Ht & Hd & Hx). pose proof (rv_i32 m (rt i) Hm ltac:(lia)) as Ib.
  pose proof (Z.mod_pos_bound (rv m (rs i)) 32 ltac:(lia)) as H5. pose proof (rv_i32 m NextPCReg Hm ltac:(done)) as In.
  unfold simulated, conforms, manual. cbv zeta. destruct (opCode i); try done.
  - rewrite <- (jump_region _ (extra i)) by done. split; [by intros [= ->]|by intros ->].
  - rewrite <- (jump_region _ (extra i)) by done. split; [by intros [= ->]|by intros ->].
  - split; [by intros [= <-]|by intros ->].
  - rewrite <- srl_differs by done. split; [by intros [= ->]|by intros ->].
  - rewrite <- srl_differs by done. split; [by intros [= ->]|by intros ->].
Qed.

(** C25.  The register instructions (addition, subtraction, logic, shifts, comparisons,
    multiplication, division, branches, jumps) against the MIPS manual.  For each of
    them, with operands the manual permits, [OneInstruction] writes exactly the registers
    that [simulated] gives, completes the load in progress, keeps register 0 at zero and
    advances the program counters through the delay slot; signed additions and
    subtractions trap exactly when the mathematical result does not fit.  This is what the
    manual says if and only if the instruction is not [OP_OR] with a second operand that
    adds bits, not a logical right shift of a negative operand by more than 0, and not a
    jump whose delay slot is the last word of a region of 256 MB. *)
Theorem register_instructions_correct {W : Type} `{HostLaws W} i w :
  let m := lget machine w in
  regs_wf m -> decoded i -> permitted i m -> register_op (opCode i) = true ->
  execute i w =
    match simulated i m with
    | Some e => Ok (tt, lset machine (after m e) w)
    | None => RaiseException OverflowException 0 w
    end /\
  (simulated i m = manual i m <-> conforms i m).
Proof. intros m Hm Hi Hp Hop. split; [by apply execute_register|by apply simulated_manual]. Qed.

(** A machine with 5 in register 1 and -3 in register 2. *)
Definition sample_vm : Vm :=
  MkVm (set_registers (<[1%nat := 5]> (<[2%nat := -3]> (replicate 40 0))) (new_machine false 0 0)) ∅ ∅ 0 UserMode 0.
#[local] Instance sample_host : Host Vm := vm_host (fun _ => 0) (fun _ => mret tt).

Lemma sample_wf : regs_wf (vm_machine sample_vm).
Proof.
  split; [done| |done]. cbn [registers set_registers vm_machine sample_vm].
  repeat apply Forall_insert; [|done..]. by apply Forall_replicate.
Qed.

Lemma register_instructions_correct_witness :
  let i := MkInstr 0 OP_ADD 1 2 3 0 in
  simulated i (vm_machine sample_vm) = Some (MkEffect [(3, 2)] 4) /\
  execute i sample_vm = Ok (tt, set_vm_machine (after (vm_machine sample_vm) (MkEffect [(3, 2)] 4)) sample_vm).
Proof.
  set (i := MkInstr 0 OP_ADD 1 2 3 0). split; [vm_compute; reflexivity|].
  assert (Hd : decoded i) by (unfold decoded; simpl; lia).
  pose proof (proj1 (register_instructions_correct (W := Vm) (H := sample_host) i sample_vm sample_wf Hd I eq_refl)) as Hrun.
  assert (He : simulated i (vm_machine sample_vm) = Some (MkEffect [(3, 2)] 4)) by (vm_compute; reflexivity).
  change (lget machine sample_vm) with (vm_machine sample_vm) in Hrun. rewrite He in Hrun. exact Hrun.
Defined.

