(* ===== verification/MipsTrap.v ===== *)
(** * Traps and the end of an instruction

    The registers, one by one, when an instruction of [machine/mipssim.cc] ends, and when
    [RaiseException] of [machine/machine.cc] enters the kernel. *)

From S2P Require Import Prelude NList Sectors Disk Kernel Machine Paging Mips MipsFacts MipsAlu.

Lemma rv_same m m' k : registers m' = registers m -> rv m' k = rv m k.
Proof. unfold rv. by intros ->. Qed.
Lemma wf_same m m' : registers m' = registers m -> regs_wf m -> regs_wf m'.
Proof. intros E [H1 H2 H3]. split; rewrite ?E; try done. by rewrite (rv_same m m' _ E). Qed.

(** The state at the end of an instruction, register by register, when no load was in
    progress. *)
Lemma retire_regs pc rs : length rs = 40%nat -> rs !!! 37%nat = 0 ->
  forall j, (j < 40)%nat -> retire 0 0 pc rs !!! j =
    if decide (j = 35%nat) then pc else if decide (j = 34%nat) then rs !!! 35%nat else if decide (j = 36%nat) then rs !!! 34%nat
    else if decide (j = 0 \/ j = 37 \/ j = 38)%nat then 0 else rs !!! j.
Proof.
  intros Hl H37 j Hj. unfold retire, delayed. rewrite H37. change (Z.to_nat 0) with 0%nat.
  repeat (case_decide; [subst; repeat first
    [rewrite list_lookup_total_insert_eq by (rewrite ?length_insert; lia)|rewrite list_lookup_total_insert_ne by lia]; done|]).
  case_decide as Hd.
  - destruct Hd as [->|[->| ->]]; repeat first
      [rewrite list_lookup_total_insert_eq by (rewrite ?length_insert; lia)|rewrite list_lookup_total_insert_ne by lia]; done.
  - rewrite !list_lookup_total_insert_ne by lia. done.
Qed.

Lemma delayed_regs x rs j : length rs = 40%nat -> (j < 40)%nat ->
  delayed 0 x 0 0 rs !!! j = if decide (j = 0 \/ j = 37 \/ j = 38)%nat then 0 else rs !!! j.
Proof.
  intros Hl Hj. unfold delayed. change (Z.to_nat 0) with 0%nat. case_decide as Hd.
  - destruct Hd as [->|[->| ->]]; repeat first
      [rewrite list_lookup_total_insert_eq by (rewrite ?length_insert; lia)|rewrite list_lookup_total_insert_ne by lia]; done.
  - by rewrite !list_lookup_total_insert_ne by lia.
Qed.

(** The machine with which [RaiseException] enters the kernel: a load in progress is
    finished first. *)
Definition trapped (m : Machine) (bad : Z) : Machine :=
  let m := set_registers (<[Z.to_nat BadVAddrReg := bad]> (registers m)) m in
  set_registers (delayed (rv m LoadReg) (rv m LoadValueReg) 0 0 (registers m)) m.

Lemma trapped_wf m bad : regs_wf m -> is_i32 bad -> regs_wf (trapped m bad).
Proof.
  intros Hwf Hb. pose proof (regs_wf_set m BadVAddrReg bad Hwf ltac:(done) Hb ltac:(done)) as H1.
  exact (regs_wf_delayed _ 0 0 H1 ltac:(lia) ltac:(done)).
Qed.

Lemma trapped_ok m bad : regs_wf m -> is_i32 bad -> rv m LoadReg = 0 ->
  regs_wf (trapped m bad) /\
  forall j, 0 <= j < 39 -> rv (trapped m bad) j = if (j =? 0) || (j =? LoadReg) || (j =? LoadValueReg) then 0 else rv m j.
Proof.
  intros Hwf Hb Hload. split; [by apply trapped_wf|].
  pose proof (regs_wf_set m BadVAddrReg bad Hwf ltac:(done) Hb ltac:(done)) as H1. unfold trapped.
  set (m1 := set_registers (<[_ := _]> _) m) in *.
  assert (Hne : forall j, 0 <= j < 39 -> rv m1 j = rv m j).
  { intros j Hj. unfold m1. apply rv_insert_ne; [done|lia|unfold BadVAddrReg; lia]. }
  rewrite (Hne LoadReg), Hload by done.
  intros j Hj. rewrite <- (Hne j Hj). unfold rv at 1. cbn [registers set_registers]. fold m1.
  rewrite delayed_regs by (apply (rw_len _ H1) || lia). unfold rv, LoadReg, LoadValueReg.
  case_decide; repeat match goal with |- context [?x =? ?y] => destruct (Z.eqb_spec x y) end; cbn [orb]; try lia; done.
Qed.

Lemma raise_enters {W : Type} `{HostLaws W} which bad (w : W) :
  regs_wf (lget machine w) -> is_i32 bad ->
  RaiseException which bad w = (_ ← ExceptionHandler which; modify (setStatus UserMode))
    (setStatus SystemMode (lset machine (trapped (lget machine w) bad) w)).
Proof.
  intros Hwf Hb. unfold RaiseException.
  rewrite (on_bind _ _ _ _ _ (set_reg_ok (lget machine w) BadVAddrReg bad (rw_len _ Hwf) ltac:(done))).
  set (m1 := set_registers _ _). pose proof (regs_wf_set _ BadVAddrReg bad Hwf ltac:(done) Hb ltac:(done)) as H1. fold m1 in H1.
  rewrite (on_bind _ _ (lset machine m1 w) _ _ (delayed_load_ok (lget machine (lset machine m1 w)) (rv m1 LoadReg) (rv m1 LoadValueReg) 0 0
    ltac:(rewrite machine_get_set; apply (rw_len _ H1)) ltac:(rewrite machine_get_set; by apply (lookup_rv m1 LoadReg))
    (rw_load _ H1) ltac:(rewrite machine_get_set; by apply (lookup_rv m1 LoadValueReg)))).
  rewrite machine_get_set, machine_set_set. by erewrite bind_ok by done.
Qed.
