(* ===== verification/PagedRun.v ===== *)
(** * User programs under demand paging: [Machine::OneInstruction] against a flat machine

    A program that [Machine::OneInstruction] of [machine/mipssim.cc] runs under
    [ReverseTableReplace] is compared with a machine that has all of the program's
    memory at hand, takes no page faults and whose loads take effect at once.  The
    simulator runs an instruction again when it took a page fault, which completes the
    load in progress; a program that keeps to the rule for load delay slots cannot see
    the difference. *)

From S2P Require Import Prelude NList Sectors Disk Kernel Machine Paging Mips MipsFacts MipsAlu MipsTrap.

(** ** The flat machine *)

(** [fregs] are the registers as the simulator numbers them, [fmem] the bytes of the
    program's address space that it has, [fdelay] the register the instruction before
    loaded, or 0. *)
Record Flat : Type := MkFlat { fregs : list Z; fmem : Z -> option Z; fdelay : Z }.

(** The registers alone. *)
Definition bare (rs : list Z) : Machine := MkMachine rs [] [] [] None 0 None 0.
Definition fr (s : Flat) (k : Z) : Z := rv (bare (fregs s)) k.

(** The registers an instruction reads. *)
Definition sources (i : Instruction) : list Z :=
  match opCode i with
  | OP_LUI | OP_J | OP_JAL | OP_MFHI | OP_MFLO => []
  | OP_SLL | OP_SRA | OP_SRL => [rt i]
  | OP_ADDI | OP_ADDIU | OP_ANDI | OP_ORI | OP_XORI | OP_SLTI | OP_SLTIU | OP_MTHI | OP_MTLO
  | OP_BGEZ | OP_BGTZ | OP_BLEZ | OP_BLTZ | OP_BGEZAL | OP_BLTZAL | OP_JR | OP_JALR
  | OP_LB | OP_LBU | OP_LH | OP_LHU | OP_LW => [rs i]
  | _ => [rs i; rt i]
  end.

(** What the manual forbids, as a test. *)
Definition allowed (i : Instruction) (m : Machine) : bool :=
  match opCode i with
  | OP_JALR => negb (rd i =? rs i)
  | OP_BGEZAL | OP_BLTZAL => negb (rs i =? R31)
  | OP_DIV => negb ((rv m (rs i) =? - 2 ^ 31) && (rv m (rt i) =? -1))
  | _ => true
  end.

(** The size of a load or store. *)
Definition width (op : OpCode) : option (bool * Z) :=
  match op with
  | OP_LB | OP_LBU => Some (false, 1)
  | OP_LH | OP_LHU => Some (false, 2)
  | OP_LW => Some (false, 4)
  | OP_SB => Some (true, 1)
  | OP_SH => Some (true, 2)
  | OP_SW => Some (true, 4)
  | _ => None
  end.

(** [z] as a signed number of [n] bits. *)
Definition sign_ext (n z : Z) : Z := (z + 2 ^ (n - 1)) mod 2 ^ n - 2 ^ (n - 1).

(** The value a load gives for the number its bytes make. *)
Definition loaded (op : OpCode) (z : Z) : Z :=
  match op with
  | OP_LB => sign_ext 8 z
  | OP_LBU => z mod 2 ^ 8
  | OP_LH => sign_ext 16 z
  | OP_LHU => z mod 2 ^ 16
  | _ => sign_ext 32 z
  end.

(** The bytes of an aligned access, which must all be there. *)
Definition flat_bytes (s : Flat) (addr size : Z) : option (list Z) :=
  if u32 addr mod size =? 0
  then mapM (fun k => fmem s (u32 addr + Z.of_nat k)) (seq 0 (Z.to_nat size)) else None.

Definition flat_store (mem : Z -> option Z) (addr size x : Z) : Z -> option Z := fun a =>
  if (u32 addr <=? a) && (a <? u32 addr + size) then le_bytes (Z.to_nat size) x !! Z.to_nat (a - u32 addr) else mem a.

(** An instruction that only uses registers, a load, and a store. *)
Definition advance (ws : list (Z * Z)) (pc : Z) (rs : list Z) : list Z :=
  <[0%nat := 0]> (<[35%nat := pc]> (<[34%nat := rs !!! 35%nat]> (apply_writes ws rs))).
Definition in_slot (s : Flat) (r : Z) : bool := negb (fdelay s =? 0) && (r =? fdelay s).

Definition address (i : Instruction) (s : Flat) : Z := i32 (fr s (rs i) + extra i).

Definition flat_exec (i : Instruction) (s : Flat) : option Flat :=
  let m := bare (fregs s) in
  let seq := i32 (fr s NextPCReg + 4) in
  if existsb (in_slot s) (sources i) then None
  else match width (opCode i) with
  | Some (false, size) =>
      bs ← flat_bytes s (address i s) size;
      Some (MkFlat (advance [(rt i, loaded (opCode i) (le_val bs))] seq (fregs s)) (fmem s) (rt i))
  | Some (true, size) =>
      _ ← flat_bytes s (address i s) size;
      Some (MkFlat (advance [] seq (fregs s)) (flat_store (fmem s) (address i s) size (fr s (rt i))) 0)
  | None =>
      if allowed i m then
        e ← simulated i m;
        if existsb (fun w => in_slot s (fst w)) (writes e) then None
        else Some (MkFlat (advance (writes e) (pc_after e) (fregs s)) (fmem s) 0)
      else None
  end.

(** The instruction a state is about to execute. *)
Definition flat_fetch (s : Flat) : option Instruction :=
  bs ← flat_bytes s (fr s PCReg) 4;
  match Decode (u32 (i32 (le_val bs))) with Ok i => Some i | Stop _ => None end.

Definition flat_step (s : Flat) : option Flat := i ← flat_fetch s; flat_exec i s.

Fixpoint flat_run (n : nat) (s : Flat) : option Flat :=
  match n with O => Some s | S n => s' ← flat_step s; flat_run n s' end.

(** ** What the two have in common *)

(** A register as the program sees it once the load in progress is done. *)
Definition view (m : Machine) (k : Z) : Z :=
  if negb (rv m LoadReg =? 0) && (k =? rv m LoadReg) then rv m LoadValueReg else rv m k.

Record sees (v : Vm) (s : Flat) : Prop := {
  se_vm : vm_ok v;
  se_wf : regs_wf (vm_machine v);
  se_zero : rv (vm_machine v) 0 = 0;
  se_len : length (fregs s) = 40%nat;
  se_view : forall k, 0 <= k < 36 -> fr s k = view (vm_machine v) k;
  se_delay : rv (vm_machine v) LoadReg = 0 \/ rv (vm_machine v) LoadReg = fdelay s;
  se_mem : forall a b, 0 <= a -> fmem s a = Some b ->
    vbyte v (vm_tid v) a = Some b /\ has_page v (vm_tid v) (a / PageSize)
}.

(** The address the next instruction takes a page fault at, if it does: its own, or the
    one it loads from or stores to. *)
Definition in_memory (v : Vm) (addr : Z) : bool :=
  bool_decide (is_Some (mapping v (vm_tid v) (u32 addr / PageSize))).
Definition missing (v : Vm) (s : Flat) : option Z :=
  if in_memory v (fr s PCReg) then
    i ← flat_fetch s;
    _ ← width (opCode i);
    if in_memory v (address i s) then None else Some (address i s)
  else Some (fr s PCReg).

(** ** Values *)

Lemma sign_ext_bit n z : 0 < n ->
  sign_ext n z = if Z.testbit z (n - 1) then z mod 2 ^ n - 2 ^ n else z mod 2 ^ n.
Proof.
  intros Hn. unfold sign_ext. assert (Hp : 2 ^ n = 2 * 2 ^ (n - 1)) by (rewrite <- Z.pow_succ_r by lia; f_equal; lia).
  assert (Hpos : 0 < 2 ^ (n - 1)) by (apply Z.pow_pos_nonneg; lia).
  assert (Hbit : Z.testbit z (n - 1) = Z.testbit (z mod 2 ^ n) (n - 1)) by (by rewrite Z.mod_pow2_bits_low by lia).
  rewrite Hbit, Z.testbit_odd, Z.shiftr_div_pow2 by lia. pose proof (Z.mod_pos_bound z (2 ^ n) ltac:(lia)) as Hm.
  rewrite <- Zplus_mod_idemp_l. set (y := z mod 2 ^ n) in *.
  destruct (Z.lt_ge_cases y (2 ^ (n - 1))) as [Hlt|Hge].
  - rewrite (Z.div_small y) by lia. cbn [Z.odd]. rewrite Z.mod_small by lia. lia.
  - rewrite <- (Z.div_unique_pos y (2 ^ (n - 1)) 1 (y - 2 ^ (n - 1))) by lia. cbn [Z.odd].
    rewrite <- (Z.mod_unique_pos (y + 2 ^ (n - 1)) (2 ^ n) 1 (y - 2 ^ (n - 1))) by lia. lia.
Qed.

Lemma land_bit z k : 0 <= k -> negb (Z.land z (2 ^ k) =? 0) = Z.testbit z k.
Proof.
  intros Hk. assert (E : Z.land z (2 ^ k) = if Z.testbit z k then 2 ^ k else 0).
  { apply Z.bits_inj'. intros j Hj. rewrite Z.land_spec, Z.pow2_bits_eqb by lia.
    destruct (Z.eqb_spec k j) as [<-|N].
    - destruct (Z.testbit z k); [by rewrite Z.pow2_bits_true|by rewrite Z.testbit_0_l].
    - rewrite andb_false_r. destruct (Z.testbit z k); [by rewrite Z.pow2_bits_false by lia|by rewrite Z.testbit_0_l]. }
  rewrite E. assert (0 < 2 ^ k) by (by apply Z.pow_pos_nonneg).
  destruct (Z.testbit z k); [|done]. apply negb_true_iff, Z.eqb_neq. lia.
Qed.

(** The sign extension of the simulator. *)
Lemma lor_high n z : 0 < n < 32 ->
  i32 (Z.lor (u32 z) (2 ^ 32 - 2 ^ n)) = z mod 2 ^ n - 2 ^ n.
Proof.
  intros Hn. assert (Hp : 0 < 2 ^ n) by (apply Z.pow_pos_nonneg; lia).
  assert (Hlt : 2 ^ n < 2 ^ 32) by (apply Z.pow_lt_mono_r; lia).
  assert (Hle : 2 ^ n <= 2 ^ 31) by (apply Z.pow_le_mono_r; lia).
  pose proof (Z.mod_pos_bound z (2 ^ n) Hp) as Hm.
  assert (Hmask : 2 ^ 32 - 2 ^ n = Z.shiftl (Z.ones (32 - n)) n).
  { rewrite Z.shiftl_mul_pow2, Z.ones_equiv by lia. rewrite <- Z.sub_1_r, Z.mul_sub_distr_r, <- Z.pow_add_r by lia.
    replace (32 - n + n) with 32 by lia. lia. }
  assert (Hbits : forall j, 0 <= j -> Z.testbit (2 ^ 32 - 2 ^ n) j = (n <=? j) && (j <? 32)).
  { intros j Hj. rewrite Hmask, Z.shiftl_spec by lia. destruct (Z.leb_spec n j).
    - rewrite Z.testbit_ones_nonneg by lia. apply eq_bool_prop_intro. rewrite !Is_true_true, !Z.ltb_lt. simpl. rewrite ?Z.ltb_lt. lia.
    - by rewrite Z.testbit_neg_r by lia. }
  assert (Hlor : Z.lor (u32 z) (2 ^ 32 - 2 ^ n) = z mod 2 ^ n + (2 ^ 32 - 2 ^ n)).
  { rewrite <- Z.add_lor_land.
    assert (Z.land (z mod 2 ^ n) (2 ^ 32 - 2 ^ n) = 0) as ->.
    { apply Z.bits_inj'. intros j Hj. rewrite Z.land_spec, Z.testbit_0_l, Hbits by lia.
      destruct (Z.leb_spec n j); [rewrite Z.mod_pow2_bits_high by lia; done|apply andb_false_r]. }
    rewrite Z.add_0_r. apply Z.bits_inj'. intros j Hj. rewrite !Z.lor_spec, !Hbits by lia. unfold u32.
    destruct (Z.leb_spec n j), (Z.ltb_spec j 32); cbn [andb]; rewrite ?orb_true_r, ?orb_false_r; try done.
    - rewrite !Z.mod_pow2_bits_high by lia. done.
    - by rewrite !Z.mod_pow2_bits_low by lia.
    - lia. }
  rewrite Hlor. replace (z mod 2 ^ n + (2 ^ 32 - 2 ^ n)) with (z mod 2 ^ n - 2 ^ n + 1 * 2 ^ 32) by lia.
  unfold i32. replace (z mod 2 ^ n - 2 ^ n + 1 * 2 ^ 32 + 2 ^ 31) with (z mod 2 ^ n - 2 ^ n + 2 ^ 31 + 1 * 2 ^ 32) by lia.
  rewrite Z.mod_add, Z.mod_small by lia. lia.
Qed.

Lemma extended n z : 0 < n < 32 ->
  (if negb (Z.land z (2 ^ (n - 1)) =? 0) then i32 (Z.lor (u32 z) (2 ^ 32 - 2 ^ n)) else Z.land z (Z.ones n)) = sign_ext n z.
Proof.
  intros Hn. rewrite land_bit, sign_ext_bit, lor_high, Z.land_ones by lia. done.
Qed.

(** The [char] a byte load gets, modulo 256. *)
Lemma char_mod_256 z : i8 z mod 2 ^ 8 = z mod 2 ^ 8.
Proof.
  unfold i8. destruct (z <? 128); [done|]. replace (z - 256) with (z + (-1) * 2 ^ 8) by lia. by apply Z.mod_add.
Qed.
Lemma sign_ext_mod n z z' : 0 < n -> z mod 2 ^ n = z' mod 2 ^ n -> sign_ext n z = sign_ext n z'.
Proof.
  intros Hn E. unfold sign_ext. f_equal. rewrite <- (Zplus_mod_idemp_l z), <- (Zplus_mod_idemp_l z'). by rewrite E.
Qed.

Lemma loaded_i32 op z : is_i32 (loaded op z).
Proof.
  unfold is_i32, loaded, sign_ext.
  pose proof (Z.mod_pos_bound (z + 2 ^ (8 - 1)) (2 ^ 8) ltac:(lia)). pose proof (Z.mod_pos_bound (z + 2 ^ (16 - 1)) (2 ^ 16) ltac:(lia)).
  pose proof (Z.mod_pos_bound (z + 2 ^ (32 - 1)) (2 ^ 32) ltac:(lia)).
  pose proof (Z.mod_pos_bound z (2 ^ 8) ltac:(lia)). pose proof (Z.mod_pos_bound z (2 ^ 16) ltac:(lia)).
  destruct op; lia.
Qed.

Lemma load_byte op z : op = OP_LB \/ op = OP_LBU ->
  (if negb (Z.land (i8 z) 0x80 =? 0) && bool_decide (op = OP_LB)
   then i32 (Z.lor (u32 (i8 z)) 0xffffff00) else Z.land (i8 z) 0xff) = loaded op z.
Proof.
  intros [-> | ->]; cbn [loaded].
  - rewrite bool_decide_eq_true_2, andb_true_r by done. rewrite <- (sign_ext_mod 8 (i8 z) z) by (lia || apply char_mod_256).
    apply (extended 8). lia.
  - rewrite bool_decide_eq_false_2, andb_false_r by done. rewrite (Z.land_ones _ 8) by lia. apply char_mod_256.
Qed.
Lemma load_half op z : op = OP_LH \/ op = OP_LHU ->
  (if negb (Z.land z 0x8000 =? 0) && bool_decide (op = OP_LH)
   then i32 (Z.lor (u32 z) 0xffff0000) else Z.land z 0xffff) = loaded op z.
Proof.
  intros [-> | ->]; cbn [loaded].
  - rewrite bool_decide_eq_true_2, andb_true_r by done. apply (extended 16). lia.
  - rewrite bool_decide_eq_false_2, andb_false_r by done. by rewrite (Z.land_ones _ 16) by lia.
Qed.

(** ** Registers *)

Lemma apply_writes_same ws rs rs' k : length rs = 40%nat -> length rs' = 40%nat ->
  rs !!! k = rs' !!! k -> apply_writes ws rs !!! k = apply_writes ws rs' !!! k.
Proof.
  unfold apply_writes. revert rs rs'. induction ws as [|[j x] ws IH]; intros rs rs' H1 H2 E; [done|]. cbn [foldl fst snd].
  apply IH; [by rewrite length_insert..|]. destruct (decide (Z.to_nat j = k)) as [->|N].
  - destruct (decide (k < 40)%nat).
    + by rewrite !list_lookup_total_insert_eq by lia.
    + by rewrite !list_insert_ge by lia.
  - by rewrite !list_lookup_total_insert_ne.
Qed.

Lemma apply_writes_skip ws rs k : Forall (fun w => Z.to_nat (fst w) <> k) ws -> apply_writes ws rs !!! k = rs !!! k.
Proof.
  unfold apply_writes. revert rs. induction ws as [|[j x] ws IH]; intros rs Hw; [done|]. cbn [foldl fst snd].
  apply Forall_cons in Hw as [Hj Hw]. rewrite IH by done. by rewrite list_lookup_total_insert_ne.
Qed.

Lemma length_apply_writes ws rs : length (apply_writes ws rs) = length rs.
Proof. unfold apply_writes. revert rs. induction ws as [|w ws IH]; intros rs; [done|]. cbn [foldl]. by rewrite IH, length_insert. Qed.

Ltac inserts := repeat first
  [ rewrite list_lookup_total_insert_eq by (rewrite ?length_insert, ?length_apply_writes; lia)
  | rewrite list_lookup_total_insert_ne by lia ].

(** The load in progress is done. *)
Lemma delayed_lookup r x n y rs k : length rs = 40%nat -> 0 <= r < 32 -> (k < 39)%nat ->
  delayed r x n y rs !!! k =
    if decide (k = 0%nat) then 0 else if decide (k = 38%nat) then y else if decide (k = 37%nat) then n
    else if decide (k = Z.to_nat r) then x else rs !!! k.
Proof. intros Hl Hr Hk. unfold delayed. repeat (case_decide; [subst; by inserts|]). by inserts. Qed.

Lemma trapped_view m bad : regs_wf m -> rv m 0 = 0 ->
  rv (trapped m bad) LoadReg = 0 /\ rv (trapped m bad) 0 = 0 /\
  forall k, 0 <= k < 36 -> view (trapped m bad) k = view m k.
Proof.
  intros Hm Hz. pose proof (rw_len m Hm) as Hl. pose proof (rw_load m Hm) as Hp.
  assert (Hb : forall k, 0 <= k < 39 -> rv (set_registers (<[Z.to_nat BadVAddrReg := bad]> (registers m)) m) k = rv m k).
  { intros k Hk. apply rv_insert_ne; [done|lia|unfold BadVAddrReg; lia]. }
  assert (Hd : forall k, 0 <= k < 39 -> rv (trapped m bad) k =
    if decide (k = 0) then 0 else if decide (k = LoadValueReg) then 0 else if decide (k = LoadReg) then 0
    else if decide (k = rv m LoadReg) then rv m LoadValueReg else rv m k).
  { intros k Hk. unfold trapped, rv at 1. cbn [registers set_registers].
    rewrite (Hb LoadReg), (Hb LoadValueReg) by done. rewrite delayed_lookup by (rewrite ?length_insert; lia).
    change (<[_ := _]> (registers m) !!! Z.to_nat k) with (rv (set_registers (<[Z.to_nat BadVAddrReg := bad]> (registers m)) m) k).
    rewrite Hb by done. unfold LoadReg, LoadValueReg in *. repeat case_decide; try done; lia. }
  rewrite !Hd by done. split_and!; [done|done|]. intros k Hk. unfold view. rewrite !Hd by (done || lia).
  unfold LoadReg, LoadValueReg in *. repeat case_decide; try lia; cbn [andb negb Z.eqb];
    repeat match goal with |- context [?x =? ?y] => destruct (Z.eqb_spec x y) end; cbn [andb negb]; try done; try lia; congruence.
Qed.

Lemma trapped_bad m bad : regs_wf m -> registers (trapped m bad) !! Z.to_nat BadVAddrReg = Some bad.
Proof.
  intros Hm. pose proof (rw_len m Hm) as Hl. pose proof (rw_load m Hm) as Hp. unfold trapped, delayed. cbv zeta.
  rewrite (rv_insert_ne m BadVAddrReg LoadReg) by done. cbn [registers set_registers]. change (Z.to_nat BadVAddrReg) with 39%nat.
  rewrite !list_lookup_insert_ne by lia. apply list_lookup_insert_eq. lia.
Qed.

(** An instruction ends: the registers the program sees. *)
Lemma retired_view m ws n y pc : regs_wf m -> Forall (fun w => 0 <= fst w < 34) ws -> 0 <= n < 32 ->
  let m' := set_registers (retire n y pc (apply_writes ws (registers m))) m in
  rv m' LoadReg = n /\ rv m' 0 = 0 /\
  forall k, 0 <= k < 36 -> view m' k =
    if decide (k = 0) then 0 else if decide (k = 35) then pc else if decide (k = 34) then rv m NextPCReg
    else if decide (k = n) then y else if decide (k = rv m LoadReg) then rv m LoadValueReg
    else apply_writes ws (registers m) !!! Z.to_nat k.
Proof.
  intros Hm Hws Hn m'. pose proof (rw_len m Hm) as Hl. pose proof (rw_load m Hm) as Hp.
  set (rs := apply_writes ws (registers m)) in *. assert (Hlr : length rs = 40%nat) by (unfold rs; by rewrite length_apply_writes).
  assert (Hskip : forall k, 34 <= k -> rs !!! Z.to_nat k = rv m k).
  { intros k Hk. apply apply_writes_skip. eapply Forall_impl; [exact Hws|]. simpl. lia. }
  pose proof (Hskip 37 ltac:(lia)) as E37. pose proof (Hskip 38 ltac:(lia)) as E38. pose proof (Hskip 35 ltac:(lia)) as E35.
  change (Z.to_nat 37) with 37%nat in E37. change (Z.to_nat 38) with 38%nat in E38. change (Z.to_nat 35) with 35%nat in E35.
  assert (Hr : 0 <= rs !!! 37%nat < 32) by (by rewrite E37).
  assert (Hd : forall k, 0 <= k < 39 -> k <> 36 -> rv m' k =
    if decide (k = 0) then 0 else if decide (k = 35) then pc else if decide (k = 34) then rv m NextPCReg
    else if decide (k = 38) then y else if decide (k = 37) then n
    else if decide (k = rv m LoadReg) then rv m LoadValueReg else rs !!! Z.to_nat k).
  { intros k Hk H36. unfold m', rv at 1, retire. cbn [registers set_registers].
    assert (Hlen : forall r x, length (delayed r x n y rs) = 40%nat) by (intros; unfold delayed; by rewrite !length_insert).
    destruct (decide (k = 35)) as [->|N35]; [by rewrite list_lookup_total_insert_eq by (rewrite !length_insert, Hlen; lia)|].
    rewrite list_lookup_total_insert_ne by lia.
    destruct (decide (k = 34)) as [->|N34].
    { rewrite list_lookup_total_insert_eq by (rewrite !length_insert, Hlen; lia).
      rewrite list_lookup_total_insert_ne, delayed_lookup by lia. rewrite E35, E37. unfold NextPCReg.
      repeat case_decide; try done; lia. }
    rewrite !list_lookup_total_insert_ne, delayed_lookup by lia. rewrite E37, E38. unfold LoadReg, LoadValueReg.
    repeat case_decide; try done; lia. }
  assert (HL : rv m' LoadReg = n) by (by apply Hd). assert (HV : rv m' LoadValueReg = y) by (by apply Hd).
  split_and!; [done|by apply Hd|]. intros k Hk. unfold view. rewrite HL, HV.
  destruct (Z.eqb_spec n 0) as [E|E], (Z.eqb_spec k n) as [F|F]; cbn [andb negb].
  - rewrite E in F. by rewrite F, Hd.
  - destruct (decide (k = 36)); [lia|]. rewrite Hd by lia. repeat case_decide; try done; lia.
  - subst k. repeat case_decide; try done; lia.
  - rewrite Hd by lia. repeat case_decide; try done; lia.
Qed.

(** ** Memory *)

(** The bytes of an access of the flat machine are those of the thread's memory. *)
Lemma flat_bytes_ok v s addr size bs : sees v s -> size = 1 \/ size = 2 \/ size = 4 ->
  flat_bytes s addr size = Some bs ->
  aligned addr size /\ Z.of_nat (length bs) = size /\ has_page v (vm_tid v) (u32 addr / 128) /\
  forall a, u32 addr <= a < u32 addr + size -> vbyte v (vm_tid v) a = bs !! Z.to_nat (a - u32 addr).
Proof.
  intros Hs Hz. unfold flat_bytes. destruct (Z.eqb_spec (u32 addr mod size) 0) as [E|]; [|done]. intros Hb.
  apply mapM_Some_1 in Hb. pose proof (Forall2_length _ _ _ Hb) as Hl. rewrite length_seq in Hl.
  pose proof (u32_range addr) as Hu. unfold is_u32 in Hu.
  assert (Hk : forall k, (k < Z.to_nat size)%nat -> exists b, bs !! k = Some b /\ fmem s (u32 addr + Z.of_nat k) = Some b).
  { intros k Hk. destruct (lookup_lt_is_Some_2 bs k ltac:(lia)) as [b Hbk].
    destruct (Forall2_lookup_r _ _ _ _ _ Hb Hbk) as (j & Hj & Hm). apply lookup_seq in Hj as [-> _]. by exists b. }
  split_and!.
  - split; [done|]. apply Z.mod_divide; [lia|done].
  - lia.
  - destruct (Hk 0%nat ltac:(lia)) as (b & _ & Hm). rewrite Z.add_0_r in Hm. by apply (se_mem v s Hs) in Hm as []; [|lia].
  - intros a Ha. destruct (Hk (Z.to_nat (a - u32 addr)) ltac:(lia)) as (b & -> & Hm).
    replace (u32 addr + Z.of_nat (Z.to_nat (a - u32 addr))) with a in Hm by lia. by apply (se_mem v s Hs) in Hm as []; [|lia].
Qed.

Lemma bytes_unique (f : Z -> option Z) base (bs bs' : list Z) : length bs = length bs' ->
  (forall a, base <= a < base + Z.of_nat (length bs) -> f a = bs !! Z.to_nat (a - base)) ->
  (forall a, base <= a < base + Z.of_nat (length bs) -> f a = bs' !! Z.to_nat (a - base)) -> bs = bs'.
Proof.
  intros Hl H1 H2. apply list_eq_same_length with (length bs); [done|done|].
  intros k b b' Hk Hb Hb'. specialize (H1 (base + Z.of_nat k) ltac:(lia)). specialize (H2 (base + Z.of_nat k) ltac:(lia)).
  replace (Z.to_nat (base + Z.of_nat k - base)) with k in * by lia. congruence.
Qed.

Lemma wf_regs_ok m : regs_wf m -> regs_ok m.
Proof.
  intros Hm. split; [apply (rw_len m Hm)|]. exists (rv m LoadReg). split; [by apply (lookup_rv m LoadReg)|apply (rw_load m Hm)].
Qed.

Section Access.
Context (Random : nat -> Z) (Random_nonneg : forall n, 0 <= Random n).
Context (others : ExceptionType -> M Vm unit).
#[local] Instance paged : Host Vm := vm_host Random others.
#[local] Instance paged_laws : HostLaws Vm := vm_host_laws Random others.

(** What an instruction leaves alone: who runs, and the memory of the other threads. *)
Record private (v v' : Vm) : Prop := {
  pr_tid : vm_tid v' = vm_tid v;
  pr_mem : forall t a, t <> vm_tid v -> 0 <= a -> vbyte v' t a = vbyte v t a;
  pr_pages : forall t p, has_page v t p -> has_page v' t p
}.

Lemma private_trans v1 v2 v3 : private v1 v2 -> private v2 v3 -> private v1 v3.
Proof.
  intros [A1 A2 A3] [B1 B2 B3]. split; [congruence| |by auto]. intros t a Ht Ha. rewrite B2, A2 by congruence. done.
Qed.

(** Registers and memory, from the state they are in. *)
Lemma sees_same v v' s : sees v s -> vm_ok v' -> registers (vm_machine v') = registers (vm_machine v) ->
  vm_tid v' = vm_tid v -> (forall a, 0 <= a -> vbyte v' (vm_tid v) a = vbyte v (vm_tid v) a) ->
  (forall t p, has_page v t p -> has_page v' t p) -> sees v' s.
Proof.
  intros [H1 H2 H3 H4 H5 H6 H7] Hok Hr Ht Hm Hp. split; try done.
  - by apply (wf_same (vm_machine v)).
  - by rewrite (rv_same (vm_machine v)).
  - intros k Hk. rewrite H5 by done. unfold view. by rewrite !(rv_same _ _ _ Hr).
  - by rewrite (rv_same (vm_machine v)).
  - rewrite Ht. intros a b Ha Hb. rewrite Hm by done. destruct (H7 a b Ha Hb). auto.
Qed.

(** A load or a fetch that hits. *)
Lemma read_sees v s addr size bs : sees v s -> size = 1 \/ size = 2 \/ size = 4 ->
  flat_bytes s addr size = Some bs -> in_memory v addr = true ->
  exists v', ReadMem addr size v = Ok (Some (as_value size bs), v') /\ sees v' s /\ private v v' /\
    registers (vm_machine v') = registers (vm_machine v) /\
    (forall a, 0 <= a -> vbyte v' (vm_tid v) a = vbyte v (vm_tid v) a) /\ forall a, in_memory v' a = in_memory v a.
Proof.
  intros Hs Hz Hb Hin. destruct (flat_bytes_ok v s addr size bs Hs Hz Hb) as (Ha & Hl & Hp & Hv).
  apply bool_decide_eq_true in Hin as [i Hi]. change PageSize with 128 in Hi.
  destruct (read_hit_full Random others v addr size i (se_vm _ _ Hs) (wf_regs_ok _ (se_wf _ _ Hs)) Ha Hi)
    as (bs' & m & Hl' & Hrun & Hv' & [U1 U2 U3 U4] & Hvb & Hreg & _ & Hmap).
  assert (bs' = bs) as ->. { apply (bytes_unique (vbyte v (vm_tid v)) (u32 addr)); [lia|rewrite Hl'; exact Hv'|rewrite Hl'; exact Hv]. }
  exists (set_vm_machine m v). split_and!.
  - by apply Hrun.
  - by apply (sees_same v).
  - split; [done|by intros|done].
  - done.
  - intros a _. apply Hvb.
  - intros a. unfold in_memory. by rewrite Hmap.
Qed.

(** An access that misses: the page is brought in, the program sees nothing. *)
Lemma fault_sees v s addr size : sees v s -> is_i32 addr -> aligned addr size ->
  has_page v (vm_tid v) (u32 addr / 128) -> in_memory v addr = false ->
  exists v', sees v' s /\ private v v' /\ in_memory v' addr = true /\
    ReadMem addr size v = Ok (None, v') /\ forall x, WriteMem addr size x v = Ok (false, v').
Proof.
  intros Hs Hi Ha Hp Hin. apply bool_decide_eq_false, eq_None_not_Some in Hin. change PageSize with 128 in Hin.
  pose proof (fun w => translate_miss v addr size w Ha Hin) as Htr.
  set (m1 := set_tlbTimes (i32 (tlbTimes (vm_machine v) + 1)) (vm_machine v)) in *. set (v1 := set_vm_machine m1 v).
  assert (Hwf : regs_wf m1) by (by apply (wf_same (vm_machine v)), (se_wf _ _ Hs)).
  pose proof (raise_enters (W := Vm) PageFaultException addr v1 Hwf Hi) as Hent.
  set (m2 := trapped m1 addr) in *. set (v2 := set_vm_mode SystemMode (set_vm_machine m2 v1)).
  change (setStatus SystemMode (lset machine (trapped (lget machine v1) addr) v1)) with v2 in Hent.
  assert (Hok2 : vm_ok v2) by (by destruct (se_vm _ _ Hs)). pose proof (trapped_wf m1 addr Hwf Hi) as Hwf2. fold m2 in Hwf2.
  assert (Hbad : zoom vm (ReadRegister BadVAddrReg) v2 = Ok (addr, v2)).
  { apply (zoom_ok vm _ v2 addr m2). unfold ReadRegister. erewrite bind_ok by done. erewrite bind_ok by done.
    apply lift_ok, aget_Some. split; [done|]. by apply trapped_bad. }
  destruct (replace_ok Random Random_nonneg v2 addr Hok2 Hp Hin) as (v3 & Hrun & Hok3 & Hmap & Hvb & Ht & Hregs & _ & Hpg).
  set (v4 := set_vm_mode UserMode v3).
  assert (Hex : RaiseException PageFaultException addr v1 = Ok (tt, v4)).
  { rewrite Hent. rewrite (bind_ok _ _ v2 tt v3); [done|]. unfold ExceptionHandler. cbn [paged vm_host].
    rewrite bool_decide_eq_true_2 by done. unfold page_fault. by rewrite (bind_ok _ _ _ _ _ Hbad). }
  destruct Hs as [H1 H2 H3 H4 H5 H6 H7]. destruct (trapped_view m1 addr Hwf H3) as (T1 & T2 & T3).
  fold m2 in T1, T2, T3. change (registers (vm_machine v4) = registers m2) in Hregs.
  exists v4. split_and!.
  - split; try done.
    + by destruct Hok3.
    + by apply (wf_same m2).
    + by rewrite (rv_same m2).
    + intros k Hk. rewrite H5 by done. transitivity (view m2 k); [by rewrite T3|]. unfold view. by rewrite !(rv_same _ _ _ Hregs).
    + left. by rewrite (rv_same m2).
    + intros a b Ha0 Hb. destruct (H7 a b Ha0 Hb) as [G1 G2]. change (vm_tid v4) with (vm_tid v3). rewrite Ht. split.
      * change (vbyte v4) with (vbyte v3). rewrite Hvb by done. exact G1.
      * apply Hpg. exact G2.
  - split; [exact Ht| |exact Hpg]. intros t a _ Ha0. exact (Hvb t a Ha0).
  - apply bool_decide_eq_true. destruct Hmap as [i Him]. exists i. change (vm_tid v4) with (vm_tid v3). rewrite Ht. exact Him.
  - unfold ReadMem, on_machine. erewrite bind_ok by done. rewrite (bind_ok _ _ _ _ _ (zoom_ok vm _ v _ _ (Htr false))).
    by rewrite (bind_ok _ _ _ _ _ Hex).
  - intros x. unfold WriteMem, on_machine. erewrite bind_ok by done. rewrite (bind_ok _ _ _ _ _ (zoom_ok vm _ v _ _ (Htr true))).
    by rewrite (bind_ok _ _ _ _ _ Hex).
Qed.

(** ** One instruction *)

(** Registers that are not being loaded are as the program sees them. *)
Lemma view_plain v s r : sees v s -> 0 <= r < 36 -> in_slot s r = false -> fr s r = rv (vm_machine v) r.
Proof.
  intros Hs Hr Hslot. rewrite (se_view _ _ Hs) by done. unfold view, in_slot in *.
  destruct (se_delay _ _ Hs) as [-> | ->]; [done|]. by rewrite Hslot.
Qed.
Lemma view_counters v s r : sees v s -> 32 <= r < 36 -> fr s r = rv (vm_machine v) r.
Proof.
  intros Hs Hr. rewrite (se_view _ _ Hs) by lia. unfold view. pose proof (rw_load _ (se_wf _ _ Hs)).
  destruct (Z.eqb_spec r (rv (vm_machine v) LoadReg)); [lia|]. by rewrite andb_false_r.
Qed.

(** What an instruction computes depends on the registers it reads. *)
Lemma effect_reads i m m' :
  (forall k, In k ([HiReg; LoReg; NextPCReg] ++ sources i) -> rv m k = rv m' k) ->
  simulated i m = simulated i m' /\ allowed i m = allowed i m'.
Proof.
  unfold simulated, manual, allowed, sources. cbv zeta. intros HF.
  destruct (opCode i); simpl in HF;
    rewrite ?(HF HiReg), ?(HF LoReg), ?(HF NextPCReg), ?(HF (rs i)), ?(HF (rt i)) by tauto; done.
Qed.

Lemma allowed_permitted i m : allowed i m = true -> permitted i m.
Proof.
  unfold allowed, permitted. destruct (opCode i); try done; rewrite negb_true_iff, ?Z.eqb_neq, ?andb_false_iff; try done.
  rewrite !Z.eqb_neq. lia.
Qed.

Section Instructions.
Context (v : Vm) (s : Flat) (i : Instruction) (Hs : sees v s) (Hi : decoded i).
#[local] Abbreviation m := (vm_machine v).

Lemma on_paged {B} k (f : Z -> M Vm B) : 0 <= k < 40 -> (on_machine (reg k) ≫= f) v = f (rv m k) v.
Proof. intros Hk. exact (on_reg (W := Vm) k f v (se_wf _ _ Hs) Hk). Qed.

Lemma execute_effect e : allowed i m = true -> simulated i m = Some e -> execute i v = Ok (tt, set_vm_machine (after m e) v).
Proof.
  intros Ha%allowed_permitted He. assert (Hop : register_op (opCode i) = true).
  { unfold simulated, manual in He. by destruct (opCode i). }
  pose proof (execute_register (W := Vm) i v (se_wf _ _ Hs) Hi Ha Hop) as Hrun. cbn [machine paged vm_host vm lget] in Hrun.
  rewrite He in Hrun. exact Hrun.
Qed.

(** The instruction ends. *)
Lemma ended_sees ws ws' n y pc :
  let m' := set_registers (retire n y pc (apply_writes ws (registers m))) m in
  regs_wf m' -> 0 <= n < 32 -> Forall (fun w => 0 <= fst w < 34) ws -> Forall (fun w => in_slot s (fst w) = false) ws ->
  (forall k, 0 < k < 34 -> apply_writes ws' (fregs s) !!! Z.to_nat k =
     if decide (k = n) then y else apply_writes ws (fregs s) !!! Z.to_nat k) ->
  sees (set_vm_machine m' v) (MkFlat (advance ws' pc (fregs s)) (fmem s) n).
Proof.
  intros m' Hwf Hn Hr Hslot Hfl. pose proof (se_wf _ _ Hs) as Hm. pose proof (rw_load _ Hm) as Hp.
  destruct (retired_view m ws n y pc Hm Hr Hn) as (HL & HZ & HV). fold m' in HL, HZ, HV.
  assert (Hlen : length (apply_writes ws' (fregs s)) = 40%nat) by (rewrite length_apply_writes; apply (se_len _ _ Hs)).
  split.
  - by destruct (se_vm _ _ Hs).
  - exact Hwf.
  - exact HZ.
  - cbn [fregs]. unfold advance. by rewrite !length_insert.
  - intros k Hk. cbn [vm_machine set_vm_machine]. rewrite HV by done. unfold fr, rv at 1, advance. cbn [fregs bare registers].
    destruct (decide (k = 0)) as [->|N0]; [by rewrite list_lookup_total_insert_eq by (rewrite !length_insert; lia)|].
    rewrite list_lookup_total_insert_ne by lia.
    destruct (decide (k = 35)) as [->|N35]; [by rewrite list_lookup_total_insert_eq by (rewrite !length_insert; lia)|].
    rewrite list_lookup_total_insert_ne by lia.
    destruct (decide (k = 34)) as [->|N34].
    { rewrite list_lookup_total_insert_eq by lia. exact (view_counters v s NextPCReg Hs ltac:(done)). }
    rewrite list_lookup_total_insert_ne, Hfl by lia. destruct (decide (k = n)); [done|].
    pose proof (se_view _ _ Hs k ltac:(lia)) as Hview. unfold view in Hview.
    destruct (decide (k = rv m LoadReg)) as [Ek|Nk].
    + rewrite apply_writes_skip.
      2:{ apply Forall_forall. intros w Hw E. rewrite Forall_forall in Hslot, Hr. specialize (Hslot w Hw). specialize (Hr w Hw).
          unfold in_slot in Hslot. destruct (se_delay _ _ Hs) as [D|D]; [lia|].
          rewrite (proj2 (Z.eqb_neq _ _)), (proj2 (Z.eqb_eq _ _)) in Hslot by lia. done. }
      rewrite <- Ek, Z.eqb_refl, (proj2 (Z.eqb_neq _ _)) in Hview by lia. exact Hview.
    + rewrite (proj2 (Z.eqb_neq k _)), andb_false_r in Hview by done.
      apply apply_writes_same; [apply (se_len _ _ Hs)|apply (rw_len _ Hm)|exact Hview].
  - by right.
  - exact (se_mem _ _ Hs).
Qed.

Lemma register_sees s' : existsb (in_slot s) (sources i) = false -> width (opCode i) = None ->
  flat_exec i s = Some s' -> exists v', execute i v = Ok (tt, v') /\ sees v' s' /\ private v v'.
Proof.
  intros Hsrc Hw. unfold flat_exec. rewrite Hsrc, Hw. pose proof Hi as (Hrs & Hrt & _). pose proof (se_wf _ _ Hs) as Hm.
  destruct (effect_reads i (bare (fregs s)) m) as [He Ha].
  { intros k [Hk|Hk]%in_app_or.
    - apply (view_counters v s k Hs). unfold HiReg, LoReg, NextPCReg in Hk. simpl in Hk. lia.
    - apply (view_plain v s k Hs).
      + assert (k = rs i \/ k = rt i) as [-> | ->]; [|lia..]. revert Hk. unfold sources. destruct (opCode i); simpl; tauto || naive_solver.
      + destruct (in_slot s k) eqn:E; [|done]. rewrite <- Hsrc. symmetry. apply existsb_exists. by exists k. }
  rewrite He, Ha. destruct (allowed i m) eqn:Hall; [|done]. destruct (simulated i m) as [e|] eqn:Heff; [|done].
  cbn [mbind option_bind]. destruct (existsb _ (writes e)) eqn:Hslot; [done|]. intros [= <-].
  destruct (simulated_wf i m e Hm Hi (allowed_permitted _ _ Hall) Heff) as [Hws Hpc].
  pose proof (finish_ok _ 0 0 (pc_after e) (apply_writes_wf _ _ Hm Hws) ltac:(lia) ltac:(done) Hpc) as [_ Hwf].
  eexists. split; [by apply execute_effect|]. split; [|by split].
  apply ended_sees with (ws := writes e) (y := 0).
  - exact Hwf.
  - lia.
  - eapply Forall_impl; [exact Hws|]. by intros w [].
  - apply Forall_forall. intros w Hw'. destruct (in_slot s (fst w)) eqn:E; [|done]. rewrite <- Hslot. symmetry.
    apply existsb_exists. exists w. by rewrite <- list_elem_of_In.
  - intros k Hk. by rewrite decide_False by lia.
Qed.

(** Loads. *)
Lemma load_runs size : width (opCode i) = Some (false, size) -> existsb (in_slot s) (sources i) = false ->
  aligned (address i s) size ->
  (forall bs v', ReadMem (address i s) size v = Ok (Some (as_value size bs), v') ->
     exec_load i v = Ok (Some (rt i, loaded (opCode i) (le_val bs)), v')) /\
  (forall v', ReadMem (address i s) size v = Ok (None, v') -> exec_load i v = Ok (None, v')).
Proof.
  intros Hw Hsrc Ha. pose proof (se_wf _ _ Hs) as Hm. pose proof Hi as (Hrs & _).
  assert (Haddr : address i s = i32 (rv m (rs i) + extra i)).
  { unfold address. f_equal. f_equal. apply (view_plain v s (rs i) Hs ltac:(lia)). unfold sources in Hsrc.
    destruct (opCode i); try discriminate Hw; cbn [existsb] in Hsrc; by apply orb_false_iff in Hsrc as []. }
  pose proof (aligned_test _ _ Ha) as Hal. rewrite Haddr in *. unfold exec_load.
  rewrite on_paged by lia. cbv beta zeta.
  split; [intros bs v' Hrd|intros v' Hrd];
  destruct (opCode i) eqn:E; try discriminate Hw; injection Hw as <-;
    cbn [Z.eqb Pos.eqb andb orb negb] in Hal; rewrite ?orb_false_r in Hal; rewrite ?Hal;
    rewrite (bind_ok _ _ _ _ _ Hrd); try reflexivity.
  - erewrite bind_ok by reflexivity. unfold mret, M_ret. cbn [as_value Z.eqb Pos.eqb]. repeat f_equal. apply load_byte. by left.
  - erewrite bind_ok by reflexivity. unfold mret, M_ret. cbn [as_value Z.eqb Pos.eqb]. repeat f_equal. apply load_byte. by right.
  - erewrite bind_ok by reflexivity. unfold mret, M_ret. cbn [as_value Z.eqb Pos.eqb]. repeat f_equal. apply load_half. by left.
  - erewrite bind_ok by reflexivity. unfold mret, M_ret. cbn [as_value Z.eqb Pos.eqb]. repeat f_equal. apply load_half. by right.
Qed.

Lemma execute_load size : width (opCode i) = Some (false, size) ->
  execute i v = (exec_load i ≫= fun l => match l with
    | Some (r, x) => on_machine (finish_instruction r x (i32 (rv m NextPCReg + 4))) | None => mret tt end) v.
Proof. intros Hw. unfold execute. rewrite on_paged by done. by destruct (opCode i). Qed.

Lemma execute_store size : width (opCode i) = Some (true, size) ->
  execute i v = (exec_store i ≫= fun b => if (b : bool) then on_machine (finish_instruction 0 0 (i32 (rv m NextPCReg + 4))) else mret tt) v.
Proof. intros Hw. unfold execute. rewrite on_paged by done. by destruct (opCode i). Qed.

Lemma width_size w size : width (opCode i) = Some (w, size) -> size = 1 \/ size = 2 \/ size = 4.
Proof. destruct (opCode i); intros [= <- <-]; auto. Qed.
Lemma address_i32 : is_i32 (address i s).
Proof. apply i32_range. Qed.

(** Stores. *)
Lemma store_runs size : width (opCode i) = Some (true, size) -> existsb (in_slot s) (sources i) = false ->
  exec_store i v = WriteMem (address i s) size (fr s (rt i)) v.
Proof.
  intros Hw Hsrc. pose proof Hi as (Hrs & Hrt & _).
  assert (Hsl : in_slot s (rs i) = false /\ in_slot s (rt i) = false).
  { unfold sources in Hsrc. destruct (opCode i); try discriminate Hw; cbn [existsb] in Hsrc;
      by apply orb_false_iff in Hsrc as [? [? _]%orb_false_iff]. }
  destruct Hsl as [S1 S2]. unfold address. rewrite (view_plain v s (rs i) Hs), (view_plain v s (rt i) Hs) by (done || lia).
  unfold exec_store. rewrite on_paged by lia. cbv beta zeta.
  destruct (opCode i); try discriminate Hw; injection Hw as <-; by rewrite on_paged by lia.
Qed.
End Instructions.

Lemma finish_sees v s n y pc ws : sees v s -> 0 <= n < 32 -> is_i32 y -> is_i32 pc -> ws = [(n, y)] \/ (ws = [] /\ n = 0) ->
  exists v', on_machine (finish_instruction n y pc) v = Ok (tt, v') /\
    sees v' (MkFlat (advance ws pc (fregs s)) (fmem s) n) /\ private v v'.
Proof.
  intros Hs Hn Hy Hpc Hws. destruct (finish_ok (vm_machine v) n y pc (se_wf _ _ Hs) Hn Hy Hpc) as [Hrun Hwf].
  eexists. split; [unfold on_machine; exact (zoom_ok vm _ v _ _ Hrun)|]. split; [|by split].
  apply (ended_sees v s Hs [] _ n y pc); [exact Hwf|done|done|done|].
  intros k Hk. destruct Hws as [-> |[-> ->]]; [|by rewrite decide_False by lia].
  unfold apply_writes. cbn [foldl fst snd]. destruct (decide (k = n)) as [->|].
  - apply list_lookup_total_insert_eq. rewrite (se_len _ _ Hs). lia.
  - apply list_lookup_total_insert_ne. lia.
Qed.

(** Either the instruction is executed, or the page at [addr] has been brought in. *)
Definition progress (v : Vm) (s s' : Flat) (addr : Z) (v' : Vm) : Prop :=
  private v v' /\ if in_memory v addr then sees v' s' else sees v' s /\ in_memory v' addr = true.

Lemma load_sees v s i size s' : sees v s -> decoded i -> width (opCode i) = Some (false, size) ->
  flat_exec i s = Some s' -> exists v', execute i v = Ok (tt, v') /\ progress v s s' (address i s) v'.
Proof.
  intros Hs Hi Hw. unfold flat_exec. rewrite Hw. destruct (existsb _ _) eqn:Hsrc; [done|].
  destruct (flat_bytes s (address i s) size) as [bs|] eqn:Hb; [|done]. intros [= <-].
  pose proof (width_size i _ _ Hw) as Hz. pose proof Hi as (_ & Hrt & _).
  destruct (flat_bytes_ok v s _ size bs Hs Hz Hb) as (Ha & _ & Hp & _).
  destruct (load_runs v s i Hs Hi size Hw Hsrc Ha) as [Hhit Hmiss].
  rewrite (execute_load v s i Hs size Hw). unfold progress. destruct (in_memory v (address i s)) eqn:Hin.
  - destruct (read_sees v s _ size bs Hs Hz Hb Hin) as (v1 & Hrd & Hs1 & P1 & Hregs & _).
    rewrite (bind_ok _ _ _ _ _ (Hhit _ _ Hrd)). cbv beta iota.
    destruct (finish_sees v1 s (rt i) (loaded (opCode i) (le_val bs)) (i32 (rv (vm_machine v) NextPCReg + 4)) _
      Hs1 Hrt (loaded_i32 _ _) (i32_range _) (or_introl eq_refl)) as (v2 & Hrun & Hs2 & P2).
    exists v2. split; [exact Hrun|]. split; [by apply (private_trans _ v1)|].
    rewrite <- (view_counters v s NextPCReg Hs) in Hs2 by done. exact Hs2.
  - destruct (fault_sees v s _ size Hs (address_i32 s i) Ha Hp Hin) as (v1 & Hs1 & P1 & Hin1 & Hrd & _).
    rewrite (bind_ok _ _ _ _ _ (Hmiss _ Hrd)). by exists v1.
Qed.

Lemma write_sees v s addr size x bs : sees v s -> size = 1 \/ size = 2 \/ size = 4 ->
  flat_bytes s addr size = Some bs -> in_memory v addr = true ->
  exists v', WriteMem addr size x v = Ok (true, v') /\ registers (vm_machine v') = registers (vm_machine v) /\
    sees v' (MkFlat (fregs s) (flat_store (fmem s) addr size x) (fdelay s)) /\ private v v'.
Proof.
  intros Hs Hz Hb Hin. destruct (flat_bytes_ok v s addr size bs Hs Hz Hb) as (Ha & _ & Hp & _).
  apply bool_decide_eq_true in Hin as [i Hi]. change PageSize with 128 in Hi.
  destruct (write_hit_full Random others v addr size x i (se_vm _ _ Hs) (wf_regs_ok _ (se_wf _ _ Hs)) Ha Hi)
    as (v' & Hrun & [U1 U2 U3 U4] & [Hreg _] & Hvb).
  exists v'. split; [exact Hrun|]. split; [done|]. split.
  - destruct Hs as [H1 H2 H3 H4 H5 H6 H7]. split; try done.
    + by apply (wf_same (vm_machine v)).
    + by rewrite (rv_same (vm_machine v)).
    + intros k Hk. unfold fr. cbn [fregs]. fold (fr s k). rewrite H5 by done. unfold view. by rewrite !(rv_same _ _ _ Hreg).
    + by rewrite (rv_same (vm_machine v)).
    + intros a b Ha0. cbn [fmem]. rewrite U3, Hvb by done. unfold flat_store, touches.
      destruct (Z.leb_spec (u32 addr) a), (Z.ltb_spec a (u32 addr + size)); cbn [andb];
        [rewrite decide_True by lia|rewrite decide_False by lia..]; intros Hm.
      * split; [done|]. apply U4. change PageSize with 128. by destruct (page_of_access addr size a Ha) as [-> _].
      * destruct (H7 a b Ha0 Hm). auto.
      * destruct (H7 a b Ha0 Hm). auto.
      * destruct (H7 a b Ha0 Hm). auto.
  - split; [done| |done]. intros t a Ht Ha0. rewrite Hvb by done. unfold touches. by rewrite decide_False by tauto.
Qed.

Lemma store_sees v s i size s' : sees v s -> decoded i -> width (opCode i) = Some (true, size) ->
  flat_exec i s = Some s' -> exists v', execute i v = Ok (tt, v') /\ progress v s s' (address i s) v'.
Proof.
  intros Hs Hi Hw. unfold flat_exec. rewrite Hw. destruct (existsb _ _) eqn:Hsrc; [done|].
  destruct (flat_bytes s (address i s) size) as [bs|] eqn:Hb; [|done]. intros [= <-].
  pose proof (width_size i _ _ Hw) as Hz. destruct (flat_bytes_ok v s _ size bs Hs Hz Hb) as (Ha & _ & Hp & _).
  pose proof (store_runs v s i Hs Hi size Hw Hsrc) as Hst.
  rewrite (execute_store v s i Hs size Hw). unfold progress. destruct (in_memory v (address i s)) eqn:Hin.
  - destruct (write_sees v s _ size (fr s (rt i)) bs Hs Hz Hb Hin) as (v1 & Hwr & Hregs & Hs1 & P1). rewrite Hwr in Hst.
    rewrite (bind_ok _ _ _ _ _ Hst). cbv beta iota.
    destruct (finish_sees v1 _ 0 0 (i32 (rv (vm_machine v) NextPCReg + 4)) [] Hs1 ltac:(lia) ltac:(done) (i32_range _)
      (or_intror (conj eq_refl eq_refl))) as (v2 & Hrun & Hs2 & P2).
    exists v2. split; [exact Hrun|]. split; [by apply (private_trans _ v1)|].
    rewrite <- (view_counters v s NextPCReg Hs) in Hs2 by done. exact Hs2.
  - destruct (fault_sees v s _ size Hs (address_i32 s i) Ha Hp Hin) as (v1 & Hs1 & P1 & Hin1 & _ & Hwr).
    rewrite Hwr in Hst. rewrite (bind_ok _ _ _ _ _ Hst). by exists v1.
Qed.

Lemma paged_step v s s' : sees v s -> flat_step s = Some s' ->
  exists v', OneInstruction v = Ok (tt, v') /\ private v v' /\
    match missing v s with None => sees v' s' | Some a => sees v' s /\ in_memory v' a = true end.
Proof.
  intros Hs. unfold flat_step, missing. destruct (flat_fetch s) as [i|] eqn:Hf; [|done]. cbn [mbind option_bind]. intros Hex.
  unfold flat_fetch in Hf. destruct (flat_bytes s (fr s PCReg) 4) as [bs|] eqn:Hb; [|done]. cbn [mbind option_bind] in Hf.
  destruct (Decode (u32 (i32 (le_val bs)))) as [i'|] eqn:Hdec; [|done]. injection Hf as ->.
  pose proof (decode_decoded _ _ (u32_range _) Hdec) as Hi.
  destruct (flat_bytes_ok v s _ 4 bs Hs ltac:(auto) Hb) as (Ha & _ & Hp & _).
  pose proof (view_counters v s PCReg Hs ltac:(done)) as Hpc.
  assert (Hi32 : is_i32 (fr s PCReg)) by (rewrite Hpc; apply rv_i32; [apply (se_wf _ _ Hs)|done]).
  unfold OneInstruction. rewrite (on_paged v s Hs) by done. rewrite <- Hpc.
  destruct (in_memory v (fr s PCReg)) eqn:Hin.
  - destruct (read_sees v s _ 4 bs Hs ltac:(auto) Hb Hin) as (v1 & Hrd & Hs1 & P1 & _ & _ & Hmem).
    rewrite (bind_ok _ _ _ _ _ Hrd). cbv beta iota. change (as_value 4 bs) with (i32 (le_val bs)).
    rewrite (bind_ok _ _ _ _ _ (lift_ok _ _ _ Hdec)).
    destruct (width (opCode i)) as [[w size]|] eqn:Hw; cbn [mbind option_bind].
    + assert (Hrun : exists v', execute i v1 = Ok (tt, v') /\ progress v1 s s' (address i s) v').
      { destruct w; [by apply (store_sees v1 s i size)|by apply (load_sees v1 s i size)]. }
      destruct Hrun as (v2 & Hrun & P2 & H2). exists v2. split; [exact Hrun|]. split; [by apply (private_trans _ v1)|].
      rewrite Hmem in H2. by destruct (in_memory v (address i s)).
    + assert (Hsrc : existsb (in_slot s) (sources i) = false).
      { unfold flat_exec in Hex. by destruct (existsb _ (sources i)). }
      destruct (register_sees v1 s i Hs1 Hi s' Hsrc Hw Hex) as (v2 & Hrun & Hs2 & P2).
      exists v2. split; [exact Hrun|]. split; [by apply (private_trans _ v1)|done].
  - destruct (fault_sees v s _ 4 Hs Hi32 Ha Hp Hin) as (v1 & Hs1 & P1 & Hin1 & Hrd & _).
    rewrite (bind_ok _ _ _ _ _ Hrd). by exists v1.
Qed.

(** The page faults among the first [n] instructions the simulator tries. *)
Fixpoint faults (n : nat) (v : Vm) (s : Flat) : nat :=
  match n with
  | O => O
  | S n =>
      match OneInstruction v with
      | Ok (_, v') =>
          match missing v s with
          | Some _ => S (faults n v' s)
          | None => match flat_step s with Some s' => faults n v' s' | None => O end
          end
      | Stop _ => O
      end
  end.

Lemma flat_run_prefix n k s sn : (k <= n)%nat -> flat_run n s = Some sn -> exists sk, flat_run k s = Some sk.
Proof.
  revert n s. induction k as [|k IH]; intros n s Hk Hn; [by exists s|]. destruct n as [|n]; [lia|]. cbn [flat_run] in *.
  destruct (flat_step s) as [s1|]; [|done]. by apply (IH n s1 ltac:(lia)).
Qed.

(** C19. Demand paging is invisible to a user program.  Where the flat machine, which
    has the program's whole memory, runs [n] instructions, [n] rounds of [Machine::Run]
    return without an error and reach the state the flat machine reaches after as many
    instructions as were not interrupted by a page fault: the same general registers,
    program counters and memory, once the load in progress is done.  No other thread's
    memory changes.  (The flat machine stops at an instruction that uses the register
    loaded by the instruction before it, at system calls and at errors.) *)
Theorem paging_invisible n v s sn : sees v s -> flat_run n s = Some sn ->
  exists v' s', rounds (mret tt) n v = Ok (tt, v') /\ (faults n v s <= n)%nat /\
    flat_run (n - faults n v s) s = Some s' /\ sees v' s' /\ private v v'.
Proof.
  revert v s sn. induction n as [|n IH]; intros v s sn Hs Hn.
  - by exists v, s.
  - pose proof Hn as Hn'. cbn [flat_run] in Hn'. destruct (flat_step s) as [s1|] eqn:Hstep; [|done].
    destruct (paged_step v s s1 Hs Hstep) as (v1 & Hrun & P1 & Hm). cbn [rounds faults]. rewrite Hrun, (bind_ok _ _ _ _ _ Hrun).
    erewrite bind_ok by done. destruct (missing v s).
    + destruct (flat_run_prefix (S n) n s sn ltac:(lia) Hn) as [sk Hk]. destruct Hm as [Hs1 _].
      destruct (IH v1 s sk Hs1 Hk) as (v2 & s2 & R & L & F & S2 & P2).
      exists v2, s2. split_and!; [exact R|lia|exact F|exact S2|by apply (private_trans _ v1)].
    + rewrite Hstep. destruct (IH v1 s1 sn Hm Hn') as (v2 & s2 & R & L & F & S2 & P2).
      exists v2, s2. split_and!; [exact R|lia| |exact S2|by apply (private_trans _ v1)].
      rewrite Nat.sub_succ_l by done. cbn [flat_run]. rewrite Hstep. exact F.
Qed.
End Access.

(** ** A program *)

(** The words of [lw $2,256($0); nop; addiu $2,$2,5; sw $2,260($0)], the word 42 at 256, on
    the disk of thread 7, which has no page in main memory yet. *)
Definition small_disk : list Z :=
  (le_bytes 4 0x8c020100 ++ le_bytes 4 0 ++ le_bytes 4 0x24420005 ++ le_bytes 4 0xac020104 ++ replicate 240 0)
  ++ le_bytes 4 42 ++ replicate 124 0.
Definition small_vm : Vm :=
  MkVm (set_registers (<[35%nat := 4]> (replicate 40 0)) (new_machine false 0 0)) {[0%nat := small_disk]} {[7 := 0%nat]} 7 UserMode 0.
Definition small_flat : Flat :=
  MkFlat (<[35%nat := 4]> (replicate 40 0)) (fun a => if (0 <=? a) && (a <? 384) then vbyte small_vm 7 a else None) 0.

Lemma small_sees : sees small_vm small_flat.
Proof.
  assert (Hok : vm_ok small_vm).
  { pose proof (new_machine_ok false 0 0 {[0%nat := small_disk]} {[7 := 0%nat]} 7 UserMode 0) as [Hok _]; [|by destruct Hok].
    intros t t' d. rewrite !lookup_singleton_Some. by intros [<- _] [<- _]. }
  split; try done.
  - split; [done| |done]. cbn [registers set_registers vm_machine small_vm].
    apply Forall_insert; [by apply Forall_replicate|done].
  - by left.
  - intros a b Ha. cbn [fmem small_flat vm_tid small_vm]. destruct (Z.leb_spec 0 a), (Z.ltb_spec a 384); cbn [andb]; try done.
    intros Hb. split; [exact Hb|]. change PageSize with 128. split; [unfold MaxPages; split; [apply Z.div_pos; lia|apply Z.div_lt_upper_bound; lia]|].
    exists 0%nat, small_disk. split; [done|]. split; [done|].
    change (Z.of_nat (length small_disk)) with 384. change PageSize with 128. assert (a / 128 < 3) by (apply Z.div_lt_upper_bound; lia). lia.
Qed.

Lemma paging_invisible_witness :
  sees small_vm small_flat /\
  exists v', @rounds Vm (vm_host demo_Random no_others) (mret tt) 6 small_vm = Ok (tt, v') /\ vbyte v' 7 260 = Some 47.
Proof.
  split; [exact small_sees|].
  assert (H6 : is_Some (flat_run 6 small_flat)).
  { assert (E : (match flat_run 6 small_flat with Some _ => true | None => false end) = true) by (vm_compute; reflexivity).
    destruct (flat_run 6 small_flat); [by eexists|done]. }
  destruct H6 as [sn H6].
  destruct (paging_invisible demo_Random demo_Random_nonneg no_others 6 small_vm small_flat sn small_sees H6)
    as (v' & s' & Hrun & _ & Hflat & Hs & Hp).
  exists v'. split; [exact Hrun|].
  assert (Hf : @faults demo_Random no_others 6 small_vm small_flat = 2%nat) by (vm_compute; reflexivity). rewrite Hf in Hflat.
  assert (Hb : (flat_run 4 small_flat ≫= fun s => fmem s 260) = Some 47) by (vm_compute; reflexivity).
  change (6 - 2)%nat with 4%nat in Hflat. rewrite Hflat in Hb.
  pose proof (proj1 (se_mem _ _ Hs 260 47 ltac:(lia) Hb)) as Hv. rewrite (pr_tid _ _ Hp) in Hv. exact Hv.
Defined.
