(* ===== verification/Interp.v ===== *)
(** * The stand-alone interpreter: [bin/execute.c], [bin/system.c], [bin/int.h], [bin/instr.h], [bin/encode.h]

    An interpreter of MIPS programs that is independent of the Nachos machine: its own
    decoding, no delayed loads, no paging.  It is checked against the same reference
    semantics of the register instructions as the Nachos simulator ([MipsAlu.v]).

    As in the simulator, signed additions, multiplications and left shifts wrap around;
    a shift by an amount that is not in 0 to 31, a division the host traps on and an
    access outside [mem] have no meaning. *)

From S2P Require Import Prelude NList Sectors Disk Kernel Machine Paging Mips MipsFacts MipsAlu.

(** ** Instruction formats: [instr.h] *)

Definition rd_of (i : Z) : Z := Z.land (Z.shiftr i 11) 0x1f.
Definition rt_of (i : Z) : Z := Z.land (Z.shiftr i 16) 0x1f.
Definition rs_of (i : Z) : Z := Z.land (Z.shiftr i 21) 0x1f.
Definition shamt_of (i : Z) : Z := Z.land (Z.shiftr i 6) 0x1f.
Definition immed_of (i : Z) : Z := if negb (Z.land i 0x8000 =? 0) then Z.lor i (- 0x8000) else Z.land i 0x7fff.

(** ** Opcodes: [encode.h] *)

(** [I_COP] stands for the twelve coprocessor opcodes, [I_NONE] for a code that is not
    defined. *)
Inductive opcode : Type :=
| I_SPECIAL | I_BCOND | I_J | I_JAL | I_BEQ | I_BNE | I_BLEZ | I_BGTZ
| I_ADDI | I_ADDIU | I_SLTI | I_SLTIU | I_ANDI | I_ORI | I_XORI | I_LUI | I_COP
| I_LB | I_LH | I_LWL | I_LW | I_LBU | I_LHU | I_LWR | I_SB | I_SH | I_SWL | I_SW | I_SWR
| I_SLL | I_SRL | I_SRA | I_SLLV | I_SRLV | I_SRAV | I_JR | I_JALR | I_SYSCALL | I_BREAK
| I_MFHI | I_MTHI | I_MFLO | I_MTLO | I_MULT | I_MULTU | I_DIV | I_DIVU
| I_ADD | I_ADDU | I_SUB | I_SUBU | I_AND | I_OR | I_XOR | I_NOR | I_SLT | I_SLTU
| I_BLTZ | I_BGEZ | I_BLTZAL | I_BGEZAL | I_NONE.

(** The normal opcodes 000 to 077 and the special ones. *)
Definition normal_opcodes : list opcode :=
  [I_SPECIAL; I_BCOND; I_J; I_JAL; I_BEQ; I_BNE; I_BLEZ; I_BGTZ;
   I_ADDI; I_ADDIU; I_SLTI; I_SLTIU; I_ANDI; I_ORI; I_XORI; I_LUI;
   I_COP; I_COP; I_COP; I_COP; I_NONE; I_NONE; I_NONE; I_NONE;
   I_NONE; I_NONE; I_NONE; I_NONE; I_NONE; I_NONE; I_NONE; I_NONE;
   I_LB; I_LH; I_LWL; I_LW; I_LBU; I_LHU; I_LWR; I_NONE;
   I_SB; I_SH; I_SWL; I_SW; I_NONE; I_NONE; I_SWR; I_NONE;
   I_COP; I_COP; I_COP; I_COP; I_NONE; I_NONE; I_NONE; I_NONE;
   I_COP; I_COP; I_COP; I_COP; I_NONE; I_NONE; I_NONE; I_NONE].
Definition special_opcodes : list opcode :=
  [I_SLL; I_NONE; I_SRL; I_SRA; I_SLLV; I_NONE; I_SRLV; I_SRAV;
   I_JR; I_JALR; I_NONE; I_NONE; I_SYSCALL; I_BREAK; I_NONE; I_NONE;
   I_MFHI; I_MTHI; I_MFLO; I_MTLO; I_NONE; I_NONE; I_NONE; I_NONE;
   I_MULT; I_MULTU; I_DIV; I_DIVU; I_NONE; I_NONE; I_NONE; I_NONE;
   I_ADD; I_ADDU; I_SUB; I_SUBU; I_AND; I_OR; I_XOR; I_NOR;
   I_NONE; I_NONE; I_SLT; I_SLTU; I_NONE; I_NONE; I_NONE; I_NONE;
   I_NONE; I_NONE; I_NONE; I_NONE; I_NONE; I_NONE; I_NONE; I_NONE;
   I_NONE; I_NONE; I_NONE; I_NONE; I_NONE; I_NONE; I_NONE; I_NONE].
Definition bcond_opcode (t : Z) : opcode :=
  if t =? 0 then I_BLTZ else if t =? 1 then I_BGEZ else if t =? 16 then I_BLTZAL else if t =? 17 then I_BGEZAL else I_NONE.

(** The tests of the nested [switch]es. *)
Definition nth_opcode (l : list opcode) (k : Z) : opcode := default I_NONE (l !! Z.to_nat k).
Definition opcode_of (instr : Z) : opcode :=
  match nth_opcode normal_opcodes (Z.land (Z.shiftr instr 26) 0x3f) with
  | I_SPECIAL => nth_opcode special_opcodes (Z.land instr 0x3f)
  | I_BCOND => bcond_opcode (rt_of instr)
  | op => op
  end.

(** ** The state *)

Definition MEMSIZE : Z := Z.shiftl 1 24.
Definition memoffset : Z := 0x10000000.

(** [Reg], [HI], [LO] and [mem], and the variables [pc] and [npc] of [runprogram]. *)
Record State : Type := MkState { Reg : list Z; HI : Z; LO : Z; pc : Z; npc : Z; mem : list Z }.

(** Whether the program goes on, or has ended with a status. *)
Inductive Status : Type := Running | Exited (code : Z).

Definition set_Reg (l : list Z) (s : State) : State := MkState l (HI s) (LO s) (pc s) (npc s) (mem s).
Definition set_HI (v : Z) (s : State) : State := MkState (Reg s) v (LO s) (pc s) (npc s) (mem s).
Definition set_LO (v : Z) (s : State) : State := MkState (Reg s) (HI s) v (pc s) (npc s) (mem s).
Definition set_pcs (p n : Z) (s : State) : State := MkState (Reg s) (HI s) (LO s) p n (mem s).
Definition set_npc (n : Z) (s : State) : State := MkState (Reg s) (HI s) (LO s) (pc s) n (mem s).
Definition set_mem (l : list Z) (s : State) : State := MkState (Reg s) (HI s) (LO s) (pc s) (npc s) l.

Definition R (k : Z) : M State Z := l ← gets Reg; lift (aget l k).
Definition set_R (k v : Z) : M State unit := l ← gets Reg; l ← lift (aset l k v); modify (set_Reg l).

(** [int.h]: the [n] bytes at an address, and the macros on them. *)
Definition bytes_at (addr n : Z) : M State (list Z) := l ← gets mem; lift (slice (addr - memoffset) n l).
Definition put_at (addr : Z) (bs : list Z) : M State unit :=
  l ← gets mem; l ← lift (splice (addr - memoffset) bs l); modify (set_mem l).
Definition fetch (addr : Z) : M State Z := bs ← bytes_at addr 4; mret (i32 (le_val bs)).
Definition ifetch (addr : Z) : M State Z := fetch addr.
Definition usfetch (addr : Z) : M State Z := bs ← bytes_at addr 2; mret (le_val bs).
Definition sfetch (addr : Z) : M State Z := v ← usfetch addr; mret ((v + 2 ^ 15) mod 2 ^ 16 - 2 ^ 15).
Definition ucfetch (addr : Z) : M State Z := bs ← bytes_at addr 1; mret (le_val bs).
Definition cfetch (addr : Z) : M State Z := v ← ucfetch addr; mret ((v + 2 ^ 7) mod 2 ^ 8 - 2 ^ 7).
Definition store (addr i : Z) : M State unit := put_at addr (le_bytes 4 i).
Definition sstore (addr i : Z) : M State unit := put_at addr (le_bytes 2 i).
Definition cstore (addr i : Z) : M State unit := put_at addr (le_bytes 1 i).

(** ** System calls: [system.c] *)

(** What the host does for [read], [write], [open], [lseek], [ioctl], [fstat] and
    [getpagesize]: the call, its arguments, the memory they refer to and the result.  A
    user address that [u_to_int_addr] has translated is given as an index of [mem]; the
    arguments of [fstat] are passed as they are. *)
Inductive call : Type := CRead | CWrite | COpen | CLseek | CIoctl | CFstat | CGetpagesize.

Section Interp.
Context (host : call -> Z -> Z -> Z -> M (list Z) Z).

Definition on_mem {A} (p : M (list Z) A) : M State A := zoom (Lens mem set_mem) p.

Definition u_to_int_addr (ptr : Z) : Z := ptr - memoffset.
Definition u_to_int_fd (fd : Z) : Z := fd.

(** [system_trap], by the numbers the comments give for the calls. *)
Definition system_trap : M State Status :=
  syscallno ← R 2;
  o0 ← R 4; o1 ← R 5; o2 ← R 6;
  let result v := _ ← set_R 1 v; mret Running in
  let ask c a0 a1 a2 := v ← on_mem (host c a0 a1 a2); result v in
  if syscallno =? 1 then mret (Exited 0)
  else if syscallno =? 3 then ask CRead (u_to_int_fd o0) (u_to_int_addr o1) o2
  else if syscallno =? 4 then ask CWrite (u_to_int_fd o0) (u_to_int_addr o1) o2
  else if syscallno =? 5 then ask COpen (u_to_int_addr o0) o1 o2
  else if syscallno =? 6 then result 0
  else if syscallno =? 17 then result (i32 ((Z.quot o0 8192 + 1) * 8192))
  else if syscallno =? 19 then ask CLseek (u_to_int_fd o0) o1 o2
  else if syscallno =? 54 then
    let size := Z.land (Z.shiftr o1 16) 0x7f in
    let ioctl_group := Z.land (Z.shiftr o1 8) 0xff in
    let o1 := if (ioctl_group =? 116) && (size =? 8)
              then Z.lor (Z.land o1 (Z.lnot (Z.shiftl 0x7f 16))) (Z.shiftl 6 16) else o1 in
    _ ← ask CIoctl (u_to_int_fd o0) o1 (u_to_int_addr o2);
    result 0
  else if syscallno =? 62 then ask CFstat o1 o2 0
  else if syscallno =? 64 then ask CGetpagesize 0 0 0
  else mret (Exited 2).
Definition system_break : M State Status := system_trap.

(** ** Instructions: [execute.c] *)

(** [x << n] and the like, for a shift count that is a variable. *)
Definition shift_count (n : Z) : M State Z := lift (if (0 <=? n) && (n <? 32) then Ok n else Stop Undefined).

(** The shifts, logic and arithmetic of [I_SPECIAL], into [rd]. *)
Definition alu (op : opcode) (instr : Z) : M State unit :=
  a ← R (rs_of instr); b ← R (rt_of instr);
  let to v := set_R (rd_of instr) v in
  match op with
  | I_SLL => to (i32 (Z.shiftl b (shamt_of instr)))
  | I_SRL => to (i32 (Z.shiftr (u32 b) (shamt_of instr)))
  | I_SRA => to (Z.shiftr b (shamt_of instr))
  | I_SLLV => n ← shift_count a; to (i32 (Z.shiftl b n))
  | I_SRLV => n ← shift_count a; to (i32 (Z.shiftr (u32 b) n))
  | I_SRAV => n ← shift_count a; to (Z.shiftr b n)
  | I_ADD | I_ADDU => to (i32 (a + b))
  | I_SUB | I_SUBU => to (i32 (a - b))
  | I_AND => to (Z.land a b)
  | I_OR => to (Z.lor a b)
  | I_XOR => to (Z.lxor a b)
  | I_NOR => to (Z.lnot (Z.lor a b))
  | I_SLT => to (if a <? b then 1 else 0)
  | I_SLTU => to (if u32 a <? u32 b then 1 else 0)
  | _ => halt Undefined
  end.

(** The moves, multiplications and divisions. *)
Definition high_word (t1 t2 : Z) : Z :=
  let t1l := Z.land t1 0xffff in
  let t1h := Z.land (Z.shiftr t1 16) 0xffff in
  let t2l := Z.land t2 0xffff in
  let t2h := Z.land (Z.shiftr t2 16) 0xffff in
  i32 (i32 (t1h * t2h) + Z.shiftr (i32 (t1h * t2l)) 16 + Z.shiftr (i32 (t2h * t1l)) 16).
Definition hilo (op : opcode) (instr : Z) : M State unit :=
  a ← R (rs_of instr); b ← R (rt_of instr);
  match op with
  | I_MFHI => v ← gets HI; set_R (rd_of instr) v
  | I_MTHI => modify (set_HI a)
  | I_MFLO => v ← gets LO; set_R (rd_of instr) v
  | I_MTLO => modify (set_LO a)
  | I_MULT =>
      let neg := xorb (a <? 0) (b <? 0) in
      let t1 := if a <? 0 then i32 (- a) else a in
      let t2 := if b <? 0 then i32 (- b) else b in
      let lo := i32 (t1 * t2) in
      let hi := high_word t1 t2 in
      if neg then
        let lo := i32 (Z.lnot lo + 1) in
        _ ← modify (set_LO lo);
        modify (set_HI (if lo =? 0 then i32 (Z.lnot hi + 1) else Z.lnot hi))
      else _ ← modify (set_LO lo); modify (set_HI hi)
  | I_MULTU => _ ← modify (set_LO (i32 (a * b))); modify (set_HI (high_word a b))
  | I_DIV =>
      if b =? 0 then halt Undefined
      else q ← lift (int (Z.quot a b)); _ ← modify (set_LO q); modify (set_HI (Z.rem a b))
  | I_DIVU =>
      if u32 b =? 0 then halt Undefined
      else _ ← modify (set_LO (i32 (u32 a / u32 b))); modify (set_HI (i32 (u32 a mod u32 b)))
  | _ => halt Undefined
  end.

(** Branches and jumps, with the address of the instruction. *)
Definition branch (op : opcode) (instr xpc : Z) : M State unit :=
  let take := modify (set_npc (i32 (xpc + 4 + Z.shiftl (immed_of instr) 2))) in
  let link := set_R 31 (i32 (xpc + 8)) in
  let test (c : bool) := if c then take else mret tt in
  let a := R (rs_of instr) in
  match op with
  | I_BLTZ => a ← a; test (a <? 0)
  | I_BGEZ => a ← a; test (0 <=? a)
  | I_BLTZAL => _ ← link; a ← a; test (a <? 0)
  | I_BGEZAL => _ ← link; a ← a; test (0 <=? a)
  | I_BEQ => a ← a; b ← R (rt_of instr); test (a =? b)
  | I_BNE => a ← a; b ← R (rt_of instr); test (negb (a =? b))
  | I_BLEZ => a ← a; test (a <=? 0)
  | I_BGTZ => a ← a; test (0 <? a)
  | _ => halt Undefined
  end.
Definition jump (op : opcode) (instr xpc : Z) : M State unit :=
  let there := modify (set_npc (i32 (Z.lor (Z.land (u32 xpc) 0xf0000000) (Z.shiftl (Z.land instr 0x03ffffff) 2)))) in
  match op with
  | I_J => there
  | I_JAL => _ ← set_R 31 (i32 (xpc + 8)); there
  | I_JR => a ← R (rs_of instr); modify (set_npc a)
  | I_JALR => a ← R (rs_of instr); _ ← modify (set_npc a); set_R (rd_of instr) (i32 (xpc + 8))
  | _ => halt Undefined
  end.

(** The immediate instructions, into [rt]. *)
Definition immediate (op : opcode) (instr : Z) : M State unit :=
  a ← R (rs_of instr);
  let x := immed_of instr in
  let to v := set_R (rt_of instr) v in
  match op with
  | I_ADDI | I_ADDIU => to (i32 (a + x))
  | I_SLTI => to (if a <? x then 1 else 0)
  | I_SLTIU => to (if u32 a <? u32 x then 1 else 0)
  | I_ANDI => to (Z.land a x)
  | I_ORI => to (Z.lor a x)
  | I_XORI => to (Z.lxor a x)
  | I_LUI => to (i32 (Z.shiftl instr 16))
  | _ => halt Undefined
  end.

(** Loads and stores.  The masks of [I_LWL] and [I_LWR] are shifts of the [int] -1. *)
Definition load (op : opcode) (instr : Z) : M State unit :=
  a ← R (rs_of instr);
  let i := i32 (a + immed_of instr) in
  let word := fetch (Z.land (u32 i) 0xfffffffc) in
  let o := Z.land i 3 in
  let o' := Z.land (i32 (- i)) 3 in
  let into (p : M State Z) := v ← p; set_R (rt_of instr) v in
  match op with
  | I_LB => into (cfetch i)
  | I_LH => into (sfetch i)
  | I_LW => into (fetch i)
  | I_LBU => into (ucfetch i)
  | I_LHU => into (usfetch i)
  | I_LWL =>
      r ← R (rt_of instr);
      let r := Z.land r (Z.shiftr (-1) (8 * o')) in
      into (w ← word; mret (i32 (Z.lor r (Z.shiftl w (8 * o)))))
  | I_LWR =>
      r ← R (rt_of instr);
      let r := Z.land r (i32 (Z.shiftl (-1) (8 * o))) in
      let r := if o =? 0 then 0 else r in
      into (w ← word; mret (Z.lor r (Z.shiftr w (8 * o'))))
  | _ => halt Undefined
  end.
Definition save (op : opcode) (instr : Z) : M State unit :=
  a ← R (rs_of instr); b ← R (rt_of instr);
  let i := i32 (a + immed_of instr) in
  match op with
  | I_SB => cstore i b
  | I_SH => sstore i b
  | I_SW => store i b
  | _ => halt Undefined
  end.

(** The [switch]: [u()] and the coprocessor instructions leave with status 2. *)
Definition dispatch (op : opcode) (instr xpc : Z) : M State Status :=
  let on p := _ ← p; mret Running in
  match op with
  | I_SLL | I_SRL | I_SRA | I_SLLV | I_SRLV | I_SRAV | I_ADD | I_ADDU | I_SUB | I_SUBU | I_AND | I_OR | I_XOR | I_NOR
  | I_SLT | I_SLTU => on (alu op instr)
  | I_MFHI | I_MTHI | I_MFLO | I_MTLO | I_MULT | I_MULTU | I_DIV | I_DIVU => on (hilo op instr)
  | I_JR | I_JALR | I_J | I_JAL => on (jump op instr xpc)
  | I_SYSCALL => system_trap
  | I_BREAK => system_break
  | I_BLTZ | I_BGEZ | I_BLTZAL | I_BGEZAL | I_BEQ | I_BNE | I_BLEZ | I_BGTZ => on (branch op instr xpc)
  | I_ADDI | I_ADDIU | I_SLTI | I_SLTIU | I_ANDI | I_ORI | I_XORI | I_LUI => on (immediate op instr)
  | I_LB | I_LH | I_LWL | I_LW | I_LBU | I_LHU | I_LWR => on (load op instr)
  | I_SB | I_SH | I_SW => on (save op instr)
  | I_SWL | I_SWR | I_COP | I_NONE | I_SPECIAL | I_BCOND => mret (Exited 2)
  end.

(** A round of the loop of [runprogram]. *)
Definition round : M State Status :=
  xpc ← gets pc;
  _ ← modify (fun s => set_pcs (npc s) (i32 (npc s + 4)) s);
  instr ← ifetch xpc;
  _ ← set_R 0 0;
  if instr =? 0 then mret Running else dispatch (opcode_of instr) instr xpc.

(** The loop, for at most [fuel] rounds: the exit status. *)
Fixpoint rounds (fuel : nat) : M State Z :=
  match fuel with
  | O => halt OutOfFuel
  | S fuel => st ← round; match st with Exited code => mret code | Running => rounds fuel end
  end.

(** The arguments of the program, as bytes with their terminating 0, on its stack. *)
Fixpoint put_args (argv : list (list Z)) (aci ai : Z) : M State unit :=
  match argv with
  | [] => mret tt
  | a :: argv =>
      _ ← put_at ai (a ++ [0]);
      _ ← store aci ai;
      put_args argv (aci + 4) (ai + Z.of_nat (length a) + 1)
  end.
Definition runprogram (fuel : nat) (startpc : Z) (argv : list (list Z)) : M State Z :=
  _ ← modify (set_pcs startpc (i32 (startpc + 4)));
  let i := MEMSIZE - 1024 + memoffset in
  _ ← set_R 29 i;
  _ ← store i (Z.of_nat (length argv));
  _ ← put_args argv (i + 4) (i + 36);
  rounds fuel.
End Interp.

(** [ilog2]. *)
Definition ilog2_step (mask w : Z) (p : Z * Z) : Z * Z :=
  let '(i, l) := p in let j := Z.land i mask in if j =? 0 then (i, l) else (j, l + w).
Definition ilog2 (i : Z) : Z :=
  if i =? 0 then 0
  else snd (ilog2_step 0xaaaaaaaa 1 (ilog2_step 0xcccccccc 2 (ilog2_step 0xf0f0f0f0 4
             (ilog2_step 0xff00ff00 8 (ilog2_step 0xffff0000 16 (u32 i, 1)))))).

(** ** Decoding *)

(** The instruction of the simulator that an opcode stands for. *)
Definition same_op (op : opcode) (o : OpCode) : bool :=
  match op, o with
  | I_SPECIAL, SPECIAL | I_BCOND, BCOND | I_J, OP_J | I_JAL, OP_JAL | I_BEQ, OP_BEQ | I_BNE, OP_BNE | I_BLEZ, OP_BLEZ
  | I_BGTZ, OP_BGTZ | I_ADDI, OP_ADDI | I_ADDIU, OP_ADDIU | I_SLTI, OP_SLTI | I_SLTIU, OP_SLTIU | I_ANDI, OP_ANDI
  | I_ORI, OP_ORI | I_XORI, OP_XORI | I_LUI, OP_LUI | I_LB, OP_LB | I_LH, OP_LH | I_LWL, OP_LWL | I_LW, OP_LW
  | I_LBU, OP_LBU | I_LHU, OP_LHU | I_LWR, OP_LWR | I_SB, OP_SB | I_SH, OP_SH | I_SWL, OP_SWL | I_SW, OP_SW | I_SWR, OP_SWR
  | I_SLL, OP_SLL | I_SRL, OP_SRL | I_SRA, OP_SRA | I_SLLV, OP_SLLV | I_SRLV, OP_SRLV | I_SRAV, OP_SRAV | I_JR, OP_JR
  | I_JALR, OP_JALR | I_SYSCALL, OP_SYSCALL | I_MFHI, OP_MFHI | I_MTHI, OP_MTHI | I_MFLO, OP_MFLO | I_MTLO, OP_MTLO
  | I_MULT, OP_MULT | I_MULTU, OP_MULTU | I_DIV, OP_DIV | I_DIVU, OP_DIVU | I_ADD, OP_ADD | I_ADDU, OP_ADDU | I_SUB, OP_SUB
  | I_SUBU, OP_SUBU | I_AND, OP_AND | I_OR, OP_OR | I_XOR, OP_XOR | I_NOR, OP_NOR | I_SLT, OP_SLT | I_SLTU, OP_SLTU
  | I_BLTZ, OP_BLTZ | I_BGEZ, OP_BGEZ | I_BLTZAL, OP_BLTZAL | I_BGEZAL, OP_BGEZAL
  | (I_COP | I_NONE | I_BREAK), (OP_UNIMP | OP_RES) => true
  | _, _ => false
  end.

Lemma tables_agree l l' k op : Forall2 (fun a b => same_op a b = true) l l' -> l' !! k = Some op ->
  exists a, l !! k = Some a /\ same_op a op = true.
Proof. intros H Hk. destruct (Forall2_lookup_r _ _ _ _ _ H Hk) as (a & Ha & Hs). by exists a. Qed.
Lemma normal_agree : Forall2 (fun a b => same_op a b = true) normal_opcodes (fst <$> opTable).
Proof. repeat constructor. Qed.
Lemma special_agree : Forall2 (fun a b => same_op a b = true) special_opcodes specialTable.
Proof. repeat constructor. Qed.

(** A field of the word is the same for the [int] and the [unsigned]. *)
Lemma field_u32 x k n : 0 <= k -> 0 <= n -> k + n <= 32 -> (x / 2 ^ k) mod 2 ^ n = (u32 x / 2 ^ k) mod 2 ^ n.
Proof.
  intros Hk Hn Hs. rewrite <- !field by lia. apply Z.bits_inj'. intros j Hj. rewrite !Z.land_spec.
  destruct (Z.lt_ge_cases j n) as [Hlt|Hge]; [|by rewrite Z.ones_spec_high, !andb_false_r by lia].
  f_equal. rewrite !Z.shiftr_spec by lia. symmetry. apply u32_testbit. lia.
Qed.

Lemma immed_value x : immed_of x = if x mod 65536 <? 32768 then x mod 65536 else x mod 65536 - 65536.
Proof.
  assert (Hbit : Z.land x 0x8000 = if x mod 65536 <? 32768 then 0 else 32768).
  { assert (Z.land x 0x8000 = Z.land (x mod 65536) 0x8000) as ->.
    { change 65536 with (2 ^ 16). rewrite <- Z.land_ones, <- Z.land_assoc by lia. done. }
    pose proof (Z.mod_pos_bound x 65536 ltac:(lia)) as Hr. rewrite (land_top_bit 15) by lia. change (2 ^ 15) with 32768.
    destruct (Z.ltb_spec (x mod 65536) 32768); Z.to_euclidean_division_equations; lia. }
  unfold immed_of. rewrite Hbit. destruct (Z.ltb_spec (x mod 65536) 32768) as [Hlt|Hge]; cbn [Z.eqb negb].
  - change 0x7fff with (Z.ones 15). rewrite Z.land_ones by lia. change (2 ^ 15) with 32768.
    Z.to_euclidean_division_equations; lia.
  - change (- 0x8000) with (Z.lnot (Z.ones 15)).
    rewrite <- (Z.lnot_involutive (Z.lor _ _)), Z.lnot_lor, Z.lnot_involutive, Z.land_ones by lia.
    unfold Z.lnot, Z.pred. change (2 ^ 15) with 32768. Z.to_euclidean_division_equations; lia.
Qed.

(** The part of the word beside the registers that an instruction uses. *)
Definition operand (op : opcode) (x : Z) : Z :=
  match op with
  | I_J | I_JAL => Z.land x 0x03ffffff
  | I_ADDI | I_ADDIU | I_SLTI | I_SLTIU | I_ANDI | I_ORI | I_XORI | I_LUI | I_BEQ | I_BNE | I_BLEZ | I_BGTZ
  | I_BLTZ | I_BGEZ | I_BLTZAL | I_BGEZAL | I_LB | I_LH | I_LWL | I_LW | I_LBU | I_LHU | I_LWR
  | I_SB | I_SH | I_SWL | I_SW | I_SWR | I_COP => immed_of x
  | _ => shamt_of x
  end.
Definition table_format (op : OpCode) : Format := match op with SPECIAL => RFMT | OP_J | OP_JAL => JFMT | _ => IFMT end.
Lemma table_formats : Forall (fun p => snd p = table_format (fst p)) opTable.
Proof. repeat constructor. Qed.
Definition normal_op (op : opcode) : bool :=
  match op with
  | I_SPECIAL | I_BCOND | I_J | I_JAL | I_BEQ | I_BNE | I_BLEZ | I_BGTZ | I_ADDI | I_ADDIU | I_SLTI | I_SLTIU | I_ANDI | I_ORI
  | I_XORI | I_LUI | I_COP | I_LB | I_LH | I_LWL | I_LW | I_LBU | I_LHU | I_LWR | I_SB | I_SH | I_SWL | I_SW | I_SWR | I_NONE => true
  | _ => false
  end.
Lemma normal_plain : Forall (fun op => normal_op op = true) normal_opcodes.
Proof. repeat constructor. Qed.
Lemma special_plain : Forall (fun op => (forall x, operand op x = shamt_of x) \/ op = I_NONE) special_opcodes.
Proof. repeat (constructor; [first [by left | by right]|]). constructor. Qed.

Lemma fields_u32 x :
  (x / 2 ^ 26) mod 64 = (u32 x / 2 ^ 26) mod 64 /\ (x / 2 ^ 21) mod 32 = (u32 x / 2 ^ 21) mod 32 /\
  (x / 2 ^ 16) mod 32 = (u32 x / 2 ^ 16) mod 32 /\ (x / 2 ^ 11) mod 32 = (u32 x / 2 ^ 11) mod 32 /\
  (x / 2 ^ 6) mod 32 = (u32 x / 2 ^ 6) mod 32 /\ x mod 65536 = u32 x mod 65536 /\ x mod 2 ^ 26 = u32 x mod 2 ^ 26 /\
  x mod 64 = u32 x mod 64.
Proof.
  pose proof (field_u32 x 0 16 ltac:(lia) ltac:(lia) ltac:(lia)) as E16.
  pose proof (field_u32 x 0 26 ltac:(lia) ltac:(lia) ltac:(lia)) as E26.
  pose proof (field_u32 x 0 6 ltac:(lia) ltac:(lia) ltac:(lia)) as E6. rewrite Z.pow_0_r, !Z.div_1_r in E16, E26, E6.
  split_and!; [apply (field_u32 x 26 6)|apply (field_u32 x 21 5)|apply (field_u32 x 16 5)|apply (field_u32 x 11 5)
    |apply (field_u32 x 6 5)|exact E16|exact E26|exact E6]; lia.
Qed.

(** Both decoders agree. *)
Lemma interp_decode x i : Decode (u32 x) = Ok i ->
  rs i = rs_of x /\ rt i = rt_of x /\ rd i = rd_of x /\ same_op (opcode_of x) (opCode i) = true /\
  (opcode_of x = I_NONE \/ extra i = operand (opcode_of x) x).
Proof.
  intros Hdec. pose proof (u32_range x) as Hv. destruct (fields x) as (F1 & F2 & F3 & F4 & F5 & F6 & F7 & F8).
  destruct (fields_u32 x) as (G4 & G1 & G2 & G3 & G5 & G6 & G7 & G8). destruct (word_fields (u32 x) Hv) as (_ & _ & _ & Hk).
  destruct (lookup_lt_is_Some_2 opTable (Z.to_nat (u32 x / 2 ^ 26))) as [[o f] Htab]; [simpl; lia|].
  pose proof (decode_fields (u32 x) o f Hv Htab) as Hd. cbv zeta in Hd.
  pose proof (proj1 (Forall_lookup _ _) table_formats _ _ Htab) as Hf. cbn [fst snd] in Hf. subst f.
  destruct (tables_agree _ _ (Z.to_nat (u32 x / 2 ^ 26)) o normal_agree) as (op & Hop & Hsame); [by rewrite list_lookup_fmap, Htab|].
  assert (Htop : nth_opcode normal_opcodes (Z.land (Z.shiftr x 26) 0x3f) = op).
  { unfold nth_opcode. rewrite F4, G4, Z.mod_small by lia. by rewrite Hop. }
  unfold opcode_of. rewrite Htop. rewrite <- G6, <- immed_value, <- G1, <- G2, <- G3, <- G5, <- G7, <- G8 in Hd.
  unfold operand, rs_of, rt_of, rd_of, shamt_of. rewrite F1, F2, F3, F5, F7, F8.
  pose proof (proj1 (Forall_lookup _ _) normal_plain _ _ Hop) as Hn.
  destruct o, op; try discriminate Hsame; try discriminate Hn; cbn [table_format] in Hd;
    try (rewrite Hdec in Hd; injection Hd as ->; cbn [rs rt rd opCode extra]; by auto 7).
  - destruct Hd as (o & Ho & Hd). rewrite Hdec in Hd. injection Hd as ->. cbn [rs rt rd opCode extra].
    destruct (tables_agree _ _ _ _ special_agree Ho) as (op & Hop' & Hs). unfold nth_opcode. rewrite Hop'. cbn [default].
    split_and!; try done. pose proof (proj1 (Forall_lookup _ _) special_plain _ _ Hop') as Hp.
    destruct Hp as [Hp|]; [right|by left]. pose proof (Hp x) as Hx. unfold operand, shamt_of in Hx. by rewrite F5, F7 in Hx.
  - rewrite Hdec in Hd. injection Hd as ->. cbn [rs rt rd opCode extra]. split_and!; try done; unfold bcond_opcode; repeat case_match; auto.
Qed.

(** ** The registers as the reference has them *)

(** The types of the variables. *)
Record state_ok (s : State) : Prop := {
  st_len : length (Reg s) = 32%nat;
  st_regs : Forall is_i32 (Reg s);
  st_words : is_i32 (HI s) /\ is_i32 (LO s) /\ is_i32 (pc s) /\ is_i32 (npc s);
  st_mem : Forall is_byte (mem s)
}.

(** After the fetch: register 0 is 0 and the program counters have moved on. *)
Definition fetched (s : State) : State :=
  MkState (<[0%nat := 0]> (Reg s)) (HI s) (LO s) (npc s) (i32 (npc s + 4)) (mem s).
(** The state before the instruction, as a machine with no load in progress. *)
Definition view (s : State) : Machine :=
  set_registers (<[0%nat := 0]> (Reg s) ++ [HI s; LO s; pc s; npc s; 0; 0; 0; 0]) (new_machine false 0 0).

(** The effect of an instruction of the reference. *)
Definition write_one (s : State) (w : Z * Z) : State :=
  if fst w <? 32 then set_Reg (<[Z.to_nat (fst w) := snd w]> (Reg s)) s
  else if fst w =? HiReg then set_HI (snd w) s else set_LO (snd w) s.
Definition with_effect (e : Effect) (s : State) : State := set_npc (pc_after e) (foldl write_one s (writes e)).

Section View.
Context (s : State) (Hs : state_ok s).

Lemma view_wf : regs_wf (view s).
Proof.
  destruct Hs as [Hl Hr (Hh & Ho & Hp & Hn) _]. split; cbn [registers view set_registers].
  - rewrite length_app, length_insert, Hl. done.
  - apply Forall_app. split; [by apply Forall_insert|]. rewrite !Forall_cons, Forall_nil. by split_and!.
  - unfold rv. cbn [registers view set_registers]. rewrite lookup_total_app_r by (rewrite length_insert, Hl; vm_compute; lia).
    rewrite length_insert, Hl. vm_compute. split; [discriminate|reflexivity].
Qed.
Lemma view_reg k : 0 <= k < 32 -> rv (view s) k = <[0%nat := 0]> (Reg s) !!! Z.to_nat k.
Proof.
  intros Hk. unfold rv. cbn [registers view set_registers]. apply lookup_total_app_l. rewrite length_insert, (st_len s Hs). lia.
Qed.
Lemma view_special : rv (view s) HiReg = HI s /\ rv (view s) LoReg = LO s /\ rv (view s) PCReg = pc s /\ rv (view s) NextPCReg = npc s.
Proof.
  unfold rv. cbn [registers view set_registers].
  split_and!; rewrite lookup_total_app_r by (rewrite length_insert, (st_len s Hs); vm_compute; lia);
    by rewrite length_insert, (st_len s Hs).
Qed.
Lemma R_fetched k : 0 <= k < 32 -> R k (fetched s) = Ok (rv (view s) k, fetched s).
Proof.
  intros Hk. rewrite view_reg by done. unfold R. erewrite bind_ok by reflexivity. apply lift_ok, aget_Some. split; [lia|].
  apply list_lookup_lookup_total_lt. cbn [Reg fetched]. rewrite length_insert, (st_len s Hs). lia.
Qed.
Lemma R_bind {B} k (f : Z -> M State B) : 0 <= k < 32 -> (R k ≫= f) (fetched s) = f (rv (view s) k) (fetched s).
Proof. intros. by rewrite (bind_ok _ _ _ _ _ (R_fetched k H)). Qed.
Lemma set_R_ok k v st : length (Reg st) = 32%nat -> 0 <= k < 32 -> set_R k v st = Ok (tt, write_one st (k, v)).
Proof.
  intros Hl Hk. unfold set_R. erewrite bind_ok by reflexivity. rewrite (bind_ok _ _ _ _ _ (lift_ok _ _ _ (aset_ok (Reg st) k v ltac:(lia)))).
  unfold write_one. cbn [fst snd]. by rewrite (proj2 (Z.ltb_lt _ _)) by lia.
Qed.
Lemma fetched_len : length (Reg (fetched s)) = 32%nat.
Proof. cbn [Reg fetched]. by rewrite length_insert, (st_len s Hs). Qed.

(** An instruction that falls through. *)
Lemma falls w : set_npc (i32 (npc s + 4)) (write_one (fetched s) w) = write_one (fetched s) w.
Proof. unfold write_one, fetched, set_npc, set_Reg, set_HI, set_LO. by repeat case_match. Qed.
Lemma rd_range x : 0 <= rd_of x < 32 /\ 0 <= rs_of x < 32 /\ 0 <= rt_of x < 32 /\ 0 <= shamt_of x < 32.
Proof.
  destruct (fields x) as (F1 & F2 & F3 & _ & F5 & _). unfold rd_of, rs_of, rt_of, shamt_of. rewrite F1, F2, F3, F5.
  split_and!; try apply Z.mod_pos_bound; lia.
Qed.
Lemma immed_range x : - 2 ^ 15 <= immed_of x < 2 ^ 15.
Proof. rewrite immed_value. pose proof (Z.mod_pos_bound x 65536 ltac:(lia)). case_match eqn:E; rewrite ?Z.ltb_lt, ?Z.ltb_ge in E; lia. Qed.
End View.

(** ** The instructions against the reference *)

(** What the interpreter computes for a register instruction, in the terms of the
    reference; [None] is an operation that C does not define: a shift by a count that is
    not 0 to 31, a division by zero or of [-2^31] by -1.  Additions and subtractions wrap
    and never trap, the logical immediates extend the sign, branches and links take the
    address of the instruction for that of its delay slot, and the high word of a product
    is [high_word]. *)
Definition product (a b : Z) : Z * Z :=
  let t1 := if a <? 0 then i32 (- a) else a in
  let t2 := if b <? 0 then i32 (- b) else b in
  let lo := i32 (t1 * t2) in
  let hi := high_word t1 t2 in
  if xorb (a <? 0) (b <? 0) then
    let lo := i32 (Z.lnot lo + 1) in (lo, if lo =? 0 then i32 (Z.lnot hi + 1) else Z.lnot hi)
  else (lo, hi).

Definition interpreted (i : Instruction) (m : Machine) : option Effect :=
  let a := rv m (rs i) in
  let b := rv m (rt i) in
  let x := extra i in
  let here := rv m PCReg in
  let seq := i32 (rv m NextPCReg + 4) in
  let to r v := Some (MkEffect [(r, v)] seq) in
  let shifted v := if (0 <=? a) && (a <? 32) then to (rd i) v else None in
  let lohi p := Some (MkEffect [(LoReg, fst p); (HiReg, snd p)] seq) in
  let target := i32 (here + 4 + 4 * x) in
  let branch (c : bool) := Some (MkEffect [] (if c then target else seq)) in
  let linked := i32 (here + 8) in
  let link c := Some (MkEffect [(R31, linked)] (if c (if rs i =? R31 then linked else a) : bool then target else seq)) in
  let region := i32 (u32 here / 2 ^ 28 * 2 ^ 28 + 4 * x) in
  let flag (c : bool) := if c then 1 else 0 in
  match opCode i with
  | OP_ADD | OP_ADDU => to (rd i) (i32 (a + b))
  | OP_ADDI | OP_ADDIU => to (rt i) (i32 (a + x))
  | OP_SUB | OP_SUBU => to (rd i) (i32 (a - b))
  | OP_AND => to (rd i) (Z.land a b)
  | OP_ANDI => to (rt i) (Z.land a x)
  | OP_OR => to (rd i) (Z.lor a b)
  | OP_ORI => to (rt i) (Z.lor a x)
  | OP_XOR => to (rd i) (Z.lxor a b)
  | OP_XORI => to (rt i) (Z.lxor a x)
  | OP_NOR => to (rd i) (Z.lnot (Z.lor a b))
  | OP_LUI => to (rt i) (i32 (x mod 2 ^ 16 * 2 ^ 16))
  | OP_SLL => to (rd i) (i32 (b * 2 ^ x))
  | OP_SLLV => shifted (i32 (b * 2 ^ a))
  | OP_SRA => to (rd i) (b / 2 ^ x)
  | OP_SRAV => shifted (b / 2 ^ a)
  | OP_SRL => to (rd i) (i32 (u32 b / 2 ^ x))
  | OP_SRLV => shifted (i32 (u32 b / 2 ^ a))
  | OP_SLT => to (rd i) (flag (a <? b))
  | OP_SLTI => to (rt i) (flag (a <? x))
  | OP_SLTU => to (rd i) (flag (u32 a <? u32 b))
  | OP_SLTIU => to (rt i) (flag (u32 a <? u32 x))
  | OP_MFHI => to (rd i) (rv m HiReg)
  | OP_MFLO => to (rd i) (rv m LoReg)
  | OP_MTHI => to HiReg a
  | OP_MTLO => to LoReg a
  | OP_MULT => lohi (product a b)
  | OP_MULTU => lohi (i32 (a * b), high_word a b)
  | OP_DIV => if (b =? 0) || negb (fits (Z.quot a b)) then None else lohi (Z.quot a b, Z.rem a b)
  | OP_DIVU => if u32 b =? 0 then None else lohi (i32 (u32 a / u32 b), i32 (u32 a mod u32 b))
  | OP_BEQ => branch (a =? b)
  | OP_BNE => branch (negb (a =? b))
  | OP_BGEZ => branch (0 <=? a)
  | OP_BGTZ => branch (0 <? a)
  | OP_BLEZ => branch (a <=? 0)
  | OP_BLTZ => branch (a <? 0)
  | OP_BGEZAL => link (fun a => 0 <=? a)
  | OP_BLTZAL => link (fun a => a <? 0)
  | OP_J => Some (MkEffect [] region)
  | OP_JAL => Some (MkEffect [(R31, linked)] region)
  | OP_JR => Some (MkEffect [] a)
  | OP_JALR => Some (MkEffect [(rd i, linked)] a)
  | _ => None
  end.

(** Where that is what the manual says: not for the two multiplications; for the logical
    immediates when the immediate is not negative; for the variable shifts by 0 to 31; for
    the divisions the host can do; for the branches and jumps that are not in a delay
    slot, and jumps that stay in their region of 256 MB. *)
Definition agrees (i : Instruction) (m : Machine) : Prop :=
  let in_order := rv m NextPCReg = i32 (rv m PCReg + 4) in
  match opCode i with
  | OP_MULT | OP_MULTU => False
  | OP_ANDI | OP_ORI | OP_XORI => 0 <= extra i
  | OP_SLLV | OP_SRLV | OP_SRAV => 0 <= rv m (rs i) < 32
  | OP_DIV => rv m (rt i) <> 0 /\ ~ (rv m (rs i) = - 2 ^ 31 /\ rv m (rt i) = -1)
  | OP_DIVU => rv m (rt i) <> 0
  | OP_BEQ | OP_BNE | OP_BGEZ | OP_BGTZ | OP_BLEZ | OP_BLTZ | OP_JALR => in_order
  | OP_BGEZAL | OP_BLTZAL => in_order /\ rs i <> R31
  | OP_J | OP_JAL => in_order /\ u32 (rv m PCReg + 4) / 2 ^ 28 = u32 (rv m PCReg) / 2 ^ 28
  | _ => True
  end.

Lemma i32_diff a b k : a = b + k * 2 ^ 32 -> i32 a = i32 b.
Proof. intros ->. unfold i32. replace (b + k * 2 ^ 32 + 2 ^ 31) with (b + 2 ^ 31 + k * 2 ^ 32) by lia. by rewrite Z.mod_add by lia. Qed.
Lemma i32_add_l a b : i32 (i32 a + b) = i32 (a + b).
Proof.
  apply (i32_diff _ _ (- ((a + 2 ^ 31) / 2 ^ 32))). unfold i32. pose proof (Z.div_mod (a + 2 ^ 31) (2 ^ 32) ltac:(lia)). lia.
Qed.

Section Instructions.
Context (s : State) (Hs : state_ok s) (x : Z) (i : Instruction) (Hdec : Decode (u32 x) = Ok i).

(** The end of an instruction with a given effect. *)
Definition done_with (r : option Effect) : res (unit * State) :=
  match r with Some e => Ok (tt, with_effect e (fetched s)) | None => Stop Undefined end.

Lemma decoded_facts : rs i = rs_of x /\ rt i = rt_of x /\ rd i = rd_of x /\ 0 <= rs i < 32 /\ 0 <= rt i < 32 /\ 0 <= rd i < 32 /\
  is_i32 (rv (view s) (rs i)) /\ is_i32 (rv (view s) (rt i)).
Proof.
  destruct (interp_decode x i Hdec) as (-> & -> & -> & _). destruct (rd_range x) as (? & ? & ? & _).
  pose proof (view_wf s Hs). split_and!; try lia; apply rv_i32; auto; lia.
Qed.

(** The registers an instruction reads. *)
Ltac reads := destruct decoded_facts as (E1 & E2 & E3 & H1 & H2 & H3 & Ia & Ib);
  rewrite <- ?E1, <- ?E2, <- ?E3; repeat (rewrite (R_bind s Hs) by lia); cbv beta zeta.
(** A write of a register at the end. *)
Ltac writes := rewrite set_R_ok by (lia || apply (fetched_len s Hs)); unfold with_effect; cbn [pc_after writes foldl];
  rewrite ?(proj2 (proj2 (proj2 (view_special s Hs)))), ?falls.

Lemma alu_ok op : opcode_of x = op ->
  match op with
  | I_SLL | I_SRL | I_SRA | I_SLLV | I_SRLV | I_SRAV | I_ADD | I_ADDU | I_SUB | I_SUBU | I_AND | I_OR | I_XOR | I_NOR | I_SLT | I_SLTU => True
  | _ => False
  end -> alu op x (fetched s) = done_with (interpreted i (view s)).
Proof.
  intros Hop Hk. destruct (interp_decode x i Hdec) as (_ & _ & _ & Hsame & Hext). rewrite Hop in Hsame, Hext.
  destruct Hext as [Hn|Hext]; [by rewrite Hn in Hk|]. destruct (rd_range x) as (_ & _ & _ & Hsh).
  unfold alu. reads. unfold interpreted, shift_count, done_with. cbv zeta.
  destruct op; try done; destruct (opCode i); try discriminate Hsame; cbn [operand] in Hext; try rewrite Hext;
    try (destruct (Z.leb_spec 0 (rv (view s) (rs i))), (Z.ltb_spec (rv (view s) (rs i)) 32); cbn [andb]; try reflexivity;
         erewrite bind_ok by (apply lift_ok; reflexivity)); writes;
    rewrite ?Z.shiftl_mul_pow2, ?Z.shiftr_div_pow2 by lia; done.
Qed.

Lemma immediate_ok op : opcode_of x = op ->
  match op with I_ADDI | I_ADDIU | I_SLTI | I_SLTIU | I_ANDI | I_ORI | I_XORI | I_LUI => True | _ => False end ->
  immediate op x (fetched s) = done_with (interpreted i (view s)).
Proof.
  intros Hop Hk. destruct (interp_decode x i Hdec) as (_ & _ & _ & Hsame & Hext). rewrite Hop in Hsame, Hext.
  destruct Hext as [Hn|Hext]; [by rewrite Hn in Hk|].
  assert (Hlui : i32 (Z.shiftl x 16) = i32 (immed_of x mod 2 ^ 16 * 2 ^ 16)).
  { rewrite Z.shiftl_mul_pow2, immed_value by lia. change (2 ^ 16) with 65536.
    rewrite low_of_sign by (apply Z.mod_pos_bound; lia). apply (i32_diff _ _ (x / 65536)).
    pose proof (Z.div_mod x 65536 ltac:(lia)). lia. }
  unfold immediate. reads. unfold interpreted, done_with. cbv zeta.
  destruct op; try done; destruct (opCode i); try discriminate Hsame; cbn [operand] in Hext; rewrite Hext; writes;
    by rewrite ?Hlui.
Qed.

Lemma hilo_ok op : opcode_of x = op ->
  match op with I_MFHI | I_MTHI | I_MFLO | I_MTLO | I_MULT | I_MULTU | I_DIV | I_DIVU => True | _ => False end ->
  hilo op x (fetched s) = done_with (interpreted i (view s)).
Proof.
  intros Hop Hk. destruct (interp_decode x i Hdec) as (_ & _ & _ & Hsame & _). rewrite Hop in Hsame.
  unfold hilo. reads. unfold interpreted, product, done_with. cbv zeta. destruct (view_special s Hs) as (Vh & Vl & Vp & Vn).
  destruct op; try done; destruct (opCode i); try discriminate Hsame.
  - erewrite bind_ok by reflexivity. writes. by rewrite Vh.
  - unfold with_effect. cbn. by rewrite Vn.
  - erewrite bind_ok by reflexivity. writes. by rewrite Vl.
  - unfold with_effect. cbn. by rewrite Vn.
  - destruct (xorb _ _); unfold with_effect; cbn; by rewrite Vn.
  - unfold with_effect. cbn. by rewrite Vn.
  - destruct (Z.eqb_spec (rv (view s) (rt i)) 0); [done|]. cbn [orb]. unfold int. fold (fits (Z.quot (rv (view s) (rs i)) (rv (view s) (rt i)))).
    destruct (fits _); [|done]. unfold with_effect. cbn. by rewrite Vn.
  - destruct (Z.eqb_spec (u32 (rv (view s) (rt i))) 0); [done|]. unfold with_effect. cbn. by rewrite Vn.
Qed.

(** The target of a branch. *)
Lemma taken_ok (c : bool) y st : npc st = i32 (npc s + 4) ->
  (if c then modify (set_npc (i32 (pc s + 4 + Z.shiftl y 2))) else mret tt) st =
  Ok (tt, set_npc (if c then i32 (pc s + 4 + 4 * y) else i32 (npc s + 4)) st).
Proof.
  intros Hn. destruct c; [|rewrite <- Hn; by destruct st]. rewrite Z.shiftl_mul_pow2 by lia.
  replace (y * 2 ^ 2) with (4 * y) by lia. done.
Qed.

(** A register after the link. *)
Lemma R_linked k v : 0 <= k < 32 ->
  R k (write_one (fetched s) (31, v)) = Ok (if k =? 31 then v else rv (view s) k, write_one (fetched s) (31, v)).
Proof.
  intros Hk. rewrite (view_reg s Hs) by done. unfold R. erewrite bind_ok by reflexivity. apply lift_ok, aget_Some. split; [lia|].
  cbn [write_one fst snd Reg set_Reg Z.ltb Z.compare Pos.compare Pos.compare_cont]. pose proof (fetched_len s Hs) as Hl. cbn [Reg fetched] in *.
  destruct (Z.eqb_spec k 31) as [->|N].
  - apply list_lookup_insert_eq. change (Z.to_nat 31) with 31%nat. lia.
  - rewrite list_lookup_insert_ne by lia. apply list_lookup_lookup_total_lt. lia.
Qed.

Lemma branch_ok op : opcode_of x = op ->
  match op with I_BLTZ | I_BGEZ | I_BLTZAL | I_BGEZAL | I_BEQ | I_BNE | I_BLEZ | I_BGTZ => True | _ => False end ->
  branch op x (pc s) (fetched s) = done_with (interpreted i (view s)).
Proof.
  intros Hop Hk. destruct (interp_decode x i Hdec) as (_ & _ & _ & Hsame & Hext). rewrite Hop in Hsame, Hext.
  destruct Hext as [Hn|Hext]; [by rewrite Hn in Hk|]. destruct (view_special s Hs) as (Vh & Vl & Vp & Vn).
  unfold branch, interpreted, done_with. cbv zeta. rewrite Vp, Vn.
  destruct op; try done; destruct (opCode i); try discriminate Hsame; cbn [operand] in Hext; rewrite Hext.
  all: try (reads; by apply taken_ok).
  all: destruct decoded_facts as (E1 & E2 & E3 & H1 & H2 & H3 & Ia & Ib).
  all: erewrite bind_ok by (apply set_R_ok; [apply (fetched_len s Hs)|lia]); rewrite <- E1.
  all: erewrite bind_ok by (apply R_linked; lia); rewrite taken_ok by done.
  all: reflexivity.
Qed.

Lemma jump_ok op : opcode_of x = op -> match op with I_J | I_JAL | I_JR | I_JALR => True | _ => False end ->
  jump op x (pc s) (fetched s) = done_with (interpreted i (view s)).
Proof.
  intros Hop Hk. destruct (interp_decode x i Hdec) as (_ & _ & _ & Hsame & Hext). rewrite Hop in Hsame, Hext.
  destruct Hext as [Hn|Hext]; [by rewrite Hn in Hk|]. destruct (view_special s Hs) as (Vh & Vl & Vp & Vn).
  destruct (fields x) as (_ & _ & _ & _ & _ & _ & F7 & _). pose proof (Z.mod_pos_bound x (2 ^ 26) ltac:(lia)) as H26.
  assert (Ht : i32 (Z.lor (Z.land (u32 (pc s)) 0xf0000000) (Z.shiftl (Z.land x 0x03ffffff) 2)) =
    i32 (u32 (pc s) / 2 ^ 28 * 2 ^ 28 + 4 * Z.land x 0x03ffffff)).
  { rewrite F7. rewrite <- jump_target by lia. do 2 f_equal. unfold IndexToAddr.
    rewrite u32_i32, u32_id; [done|]. rewrite Z.shiftl_mul_pow2 by lia. unfold is_u32. lia. }
  unfold jump, interpreted, done_with. cbv zeta. rewrite Vp.
  destruct op; try done; destruct (opCode i); try discriminate Hsame; cbn [operand] in Hext; rewrite ?Hext, ?Ht.
  - reflexivity.
  - erewrite bind_ok by (apply set_R_ok; [apply (fetched_len s Hs)|lia]). reflexivity.
  - by reads.
  - reads. erewrite bind_ok by reflexivity. rewrite set_R_ok by (apply (fetched_len s Hs) || lia). unfold with_effect.
    cbn [pc_after writes foldl]. unfold write_one. cbn [fst snd]. by rewrite (proj2 (Z.ltb_lt (rd i) 32)) by lia.
Qed.

(** ** A round *)

Lemma fetch_same st : mem st = mem s -> ifetch (pc s) s = Ok (x, s) -> ifetch (pc s) st = Ok (x, st).
Proof.
  unfold ifetch, fetch, bytes_at. intros Hm H. apply bind_inv in H as (bs & s1 & H & Hr). apply bind_inv in H as (l & s2 & Hl & Hb).
  cbn in Hl. injection Hl as <- <-. unfold lift in Hb. destruct (slice _ _ _) eqn:Hsl; [|done]. injection Hb as <- <-. cbn in Hr. injection Hr as <-.
  erewrite bind_ok; [reflexivity|]. erewrite bind_ok by reflexivity. rewrite Hm. apply lift_ok. exact Hsl.
Qed.

Lemma round_fetch host : ifetch (pc s) s = Ok (x, s) ->
  round host s = (if x =? 0 then mret Running else dispatch host (opcode_of x) x (pc s)) (fetched s).
Proof.
  intros Hf. unfold round. erewrite bind_ok by reflexivity. erewrite bind_ok by reflexivity.
  rewrite (bind_ok _ _ _ _ _ (fetch_same (set_pcs (npc s) (i32 (npc s + 4)) s) eq_refl Hf)).
  erewrite bind_ok by (apply set_R_ok; [exact (st_len s Hs)|lia]). done.
Qed.

Lemma round_ok host : ifetch (pc s) s = Ok (x, s) -> register_op (opCode i) = true ->
  round host s =
  match interpreted i (view s) with Some e => Ok (Running, with_effect e (fetched s)) | None => Stop Undefined end.
Proof.
  intros Hf Hreg. rewrite round_fetch by done. destruct (Z.eqb_spec x 0) as [->|Hne].
  { vm_compute in Hdec. injection Hdec as <-. unfold interpreted. cbn [opCode rd rt rs extra].
    destruct (view_special s Hs) as (_ & _ & _ & Vn). unfold with_effect. cbn [pc_after writes foldl]. rewrite Vn, falls.
    rewrite (view_reg s Hs) by lia. unfold write_one. cbn [fst snd Z.ltb Z.compare]. munfold. do 3 f_equal. unfold fetched, set_Reg.
    cbn [Reg HI LO pc npc mem]. change (Z.to_nat 0) with 0%nat. rewrite list_lookup_total_insert_eq by (rewrite (st_len s Hs); lia).
    by rewrite list_insert_insert_eq. }
  assert (Hon : forall p : M State unit, p (fetched s) = done_with (interpreted i (view s)) ->
    (_ ← p; mret Running : M State Status) (fetched s) =
    match interpreted i (view s) with Some e => Ok (Running, with_effect e (fetched s)) | None => Stop Undefined end).
  { intros p Hp. munfold. rewrite Hp. by destruct (interpreted i (view s)). }
  destruct (interp_decode x i Hdec) as (_ & _ & _ & Hsame & _).
  destruct (opcode_of x) eqn:Ho; destruct (opCode i); try discriminate Hsame; try discriminate Hreg; unfold dispatch; apply Hon.
  all: first [apply alu_ok; done | apply hilo_ok; done | apply branch_ok; done | apply jump_ok; done | apply immediate_ok; done].
Qed.
End Instructions.

(** Where the interpreter agrees with the manual. *)
Lemma interpreted_manual i m e : regs_wf m -> decoded i -> agrees i m -> manual i m = Some e -> interpreted i m = Some e.
Proof.
  intros Hm (Hrs & Hrt & Hrd & Hx) Hok. pose proof (rv_i32 m (rs i) Hm ltac:(lia)) as Ia. pose proof (rv_i32 m (rt i) Hm ltac:(lia)) as Ib.
  assert (Hbr : rv m NextPCReg = i32 (rv m PCReg + 4) ->
    i32 (rv m PCReg + 4 + 4 * extra i) = i32 (rv m NextPCReg + 4 * extra i) /\ i32 (rv m PCReg + 8) = i32 (rv m NextPCReg + 4)).
  { intros ->. rewrite !i32_add_l. split; f_equal; lia. }
  unfold manual, interpreted, agrees in *. cbv zeta. destruct (opCode i); try done;
    try (destruct (fits _) eqn:Hf; [|done]; intros [= <-]; by rewrite i32_id by (by apply fits_spec));
    try (destruct (Hbr Hok) as [Ht Hl]; rewrite ?Ht, ?Hl; done);
    try (rewrite (proj2 (Z.leb_le _ _)), (proj2 (Z.ltb_lt _ _)) by lia; rewrite (Z.mod_small (rv m (rs i))) by lia; done);
    try (rewrite (Z.mod_small (extra i)) by lia; done).
  all: try (destruct Hok as [Ho Hne]; destruct (Hbr Ho) as [Ht Hl]; rewrite ?(proj2 (Z.eqb_neq (rs i) R31)), ?Ht, ?Hl by done; done).
  all: try (destruct Hok as [Ho Hr]; destruct (Hbr Ho) as [Ht Hl]; rewrite Ho, u32_i32, Hr, ?Hl, ?Ho; done).
  - destruct Hok as [Hz Hov]. destruct (i32_quot _ _ Ia Ib Hov Hz) as [Hq _]. apply fits_spec in Hq.
    by rewrite (proj2 (Z.eqb_neq (rv m (rt i)) 0)), Hq by done.
  - assert (Hz : u32 (rv m (rt i)) <> 0).
    { intros Hz. apply Hok. rewrite <- (i32_id _ Ib), <- i32_u32, Hz. done. }
    by rewrite (proj2 (Z.eqb_neq (u32 (rv m (rt i))) 0)) by done.
Qed.

(** ** [ilog2] *)

(** Every set bit of [i] is at most [p] and agrees with it above bit [k]; [p] is set. *)
Definition top_bit (k i p : Z) : Prop :=
  Z.testbit i p = true /\ forall q, 0 <= q -> Z.testbit i q = true -> q <= p /\ q / 2 ^ k = p / 2 ^ k.

Lemma masks q : 0 <= q < 32 ->
  Z.testbit 0xffff0000 q = Z.testbit q 4 /\ Z.testbit 0xff00ff00 q = Z.testbit q 3 /\ Z.testbit 0xf0f0f0f0 q = Z.testbit q 2 /\
  Z.testbit 0xcccccccc q = Z.testbit q 1 /\ Z.testbit 0xaaaaaaaa q = Z.testbit q 0.
Proof.
  intros Hq. assert (Hall : Forall (fun q => Z.testbit 0xffff0000 q = Z.testbit q 4 /\ Z.testbit 0xff00ff00 q = Z.testbit q 3 /\
    Z.testbit 0xf0f0f0f0 q = Z.testbit q 2 /\ Z.testbit 0xcccccccc q = Z.testbit q 1 /\ Z.testbit 0xaaaaaaaa q = Z.testbit q 0) (seqZ 0 32)).
  { vm_compute. repeat (constructor; [by split_and!|]). constructor. }
  rewrite Forall_forall in Hall. apply Hall, elem_of_seqZ. lia.
Qed.

Lemma quotient_bit q k : 0 <= k -> q / 2 ^ k = 2 * (q / 2 ^ (k + 1)) + (if Z.testbit q k then 1 else 0).
Proof.
  intros Hk. rewrite Z.testbit_odd, Z.shiftr_div_pow2 by done. rewrite Z.pow_add_r, <- Z.div_div by lia. change (2 ^ 1) with 2.
  pose proof (Zmod_odd (q / 2 ^ k)) as Ho. pose proof (Z.div_mod (q / 2 ^ k) 2 ltac:(lia)). destruct (Z.odd _); lia.
Qed.

(** A step looks at bit [k] of [p]. *)
Lemma ilog2_step_ok mask k i p : 0 <= k -> 0 <= p < 32 -> (forall q, 0 <= q < 32 -> Z.testbit mask q = Z.testbit q k) ->
  top_bit (k + 1) i p ->
  exists i', (forall l, ilog2_step mask (2 ^ k) (i, l) = (i', l + if Z.testbit p k then 2 ^ k else 0)) /\ top_bit k i' p.
Proof.
  intros Hk Hp Hmask [Ht Hall]. unfold ilog2_step. destruct (Z.testbit p k) eqn:Hb.
  - assert (Hj : Z.testbit (Z.land i mask) p = true) by (by rewrite Z.land_spec, Ht, Hmask, Hb).
    rewrite (proj2 (Z.eqb_neq _ _)) by (intros E; by rewrite E, Z.testbit_0_l in Hj).
    exists (Z.land i mask). split; [done|]. split; [done|]. intros q Hq Hqb. rewrite Z.land_spec, andb_true_iff in Hqb.
    destruct Hqb as [Hqi Hqm]. destruct (Hall q Hq Hqi) as [Hle Heq]. split; [done|].
    rewrite (quotient_bit q k), (quotient_bit p k), Heq, Hb by done. by rewrite <- Hmask, Hqm by lia.
  - assert (Hlow : forall q, 0 <= q -> Z.testbit i q = true -> Z.testbit q k = false /\ q <= p /\ q / 2 ^ k = p / 2 ^ k).
    { intros q Hq Hqi. destruct (Hall q Hq Hqi) as [Hle Heq].
      assert (q / 2 ^ k <= p / 2 ^ k) by (apply Z.div_le_mono; [apply Z.pow_pos_nonneg|]; lia).
      rewrite (quotient_bit q k), (quotient_bit p k), Heq, Hb in * by done. destruct (Z.testbit q k); [lia|done]. }
    assert (Hz : Z.land i mask = 0).
    { apply Z.bits_inj'. intros q Hq. rewrite Z.land_spec, Z.testbit_0_l. destruct (Z.testbit i q) eqn:Hqi; [|done].
      destruct (Hlow q Hq Hqi) as (Hf & Hle & _). by rewrite Hmask, Hf by lia. }
    rewrite Hz. exists i. split; [intros l; cbn; by rewrite Z.add_0_r|]. split; [done|]. intros q Hq Hqi. by apply Hlow.
Qed.

Definition bits_sum (p : Z) : Z :=
  1 + (if Z.testbit p 4 then 16 else 0) + (if Z.testbit p 3 then 8 else 0) + (if Z.testbit p 2 then 4 else 0)
    + (if Z.testbit p 1 then 2 else 0) + (if Z.testbit p 0 then 1 else 0).
Lemma bits_value p : 0 <= p < 32 -> bits_sum p = 1 + p.
Proof.
  intros Hp. assert (Hall : forallb (fun p => bits_sum p =? 1 + p) (seqZ 0 32) = true) by (vm_compute; reflexivity).
  rewrite forallb_forall in Hall. apply Z.eqb_eq, Hall, list_elem_of_In, elem_of_seqZ. lia.
Qed.

(** ** Departures from the manual *)

(** The high word of a product is computed without the carries from the lower parts. *)
Lemma high_word_drops_carries : high_word 0x1ffff 0x1ffff = 1 /\ 0x1ffff * 0x1ffff / 2 ^ 32 = 3.
Proof. vm_compute. by split. Qed.
(** [I_LWL] does not clear the bytes it loads, since the mask is a shift of -1 to the right. *)
Lemma lwl_mask k : 0 <= k -> Z.shiftr (-1) k = -1.
Proof.
  intros Hk. rewrite Z.shiftr_div_pow2 by done. symmetry. apply (Z.div_unique_pos _ _ _ (2 ^ k - 1)); [|lia].
  pose proof (Z.pow_pos_nonneg 2 k). lia.
Qed.

(** ** Properties *)

(** C24. The interpreter against the MIPS manual, by the same reference as the Nachos
    simulator.  For every word that decodes to a register instruction a round of
    [runprogram] has exactly the effect [interpreted] gives: it writes those registers,
    moves the program counters and leaves the memory as it is, or is undefined in C.  That
    effect is the manual's, where the manual does not let the instruction trap, if it is
    not a multiplication, not a logical immediate with a negative operand, not a shift by
    32 or more, not a division by zero or of [-2^31] by -1, not a link that tests register
    31, not a branch or jump in a delay slot, and not a jump out of its region of 256 MB.
    An addition or subtraction that the manual lets trap wraps around instead. *)
Theorem interpreter_matches_manual host (s : State) (x : Z) (i : Instruction) :
  state_ok s -> ifetch (pc s) s = Ok (x, s) -> Decode (u32 x) = Ok i -> register_op (opCode i) = true ->
  round host s =
    match interpreted i (view s) with
    | Some e => Ok (Running, with_effect e (fetched s))
    | None => Stop Undefined
    end /\
  (forall e, agrees i (view s) -> manual i (view s) = Some e -> interpreted i (view s) = Some e).
Proof.
  intros Hs Hf Hdec Hop. split; [by apply (round_ok s Hs x i)|]. intros e Hok.
  apply interpreted_manual; [by apply view_wf|exact (decode_decoded _ _ (u32_range x) Hdec)|done].
Qed.

(** [ilog2] of an [int], taken as unsigned, is the number of its significant bits:
    0 for 0, else one more than the position of the highest bit that is set. *)
Lemma ilog2_correct (i : Z) : is_i32 i -> ilog2 i = if i =? 0 then 0 else 1 + Z.log2 (u32 i).
Proof.
  intros Hi. unfold ilog2. destruct (Z.eqb_spec i 0) as [|Hne]; [done|]. pose proof (u32_range i) as Hr. unfold is_u32 in Hr.
  assert (Hnz : u32 i <> 0) by (intros E; apply Hne; by rewrite <- (i32_id i Hi), <- i32_u32, E).
  set (p := Z.log2 (u32 i)). assert (Hp : 0 <= p < 32).
  { split; [apply Z.log2_nonneg|]. apply Z.log2_lt_pow2; lia. }
  assert (H5 : top_bit 5 (u32 i) p).
  { split; [apply Z.bit_log2; lia|]. intros q Hq Hb. assert (Hle : q <= p).
    { apply Z.nlt_ge. intros Hlt. by rewrite Z.bits_above_log2 in Hb by lia. }
    split; [done|]. rewrite !Z.div_small by lia. done. }
  destruct (ilog2_step_ok _ 4 _ p ltac:(lia) Hp (fun q Hq => proj1 (masks q Hq)) H5) as (i4 & E4 & H4).
  destruct (ilog2_step_ok _ 3 _ p ltac:(lia) Hp (fun q Hq => proj1 (proj2 (masks q Hq))) H4) as (i3 & E3 & H3).
  destruct (ilog2_step_ok _ 2 _ p ltac:(lia) Hp (fun q Hq => proj1 (proj2 (proj2 (masks q Hq)))) H3) as (i2 & E2 & H2).
  destruct (ilog2_step_ok _ 1 _ p ltac:(lia) Hp (fun q Hq => proj1 (proj2 (proj2 (proj2 (masks q Hq))))) H2) as (i1 & E1 & H1).
  destruct (ilog2_step_ok _ 0 _ p ltac:(lia) Hp (fun q Hq => proj2 (proj2 (proj2 (proj2 (masks q Hq))))) H1) as (i0 & E0 & _).
  change (2 ^ 4) with 16 in *. change (2 ^ 3) with 8 in *. change (2 ^ 2) with 4 in *. change (2 ^ 1) with 2 in *. change (2 ^ 0) with 1 in *.
  rewrite E4, E3, E2, E1, E0. cbn [snd]. by apply bits_value.
Qed.

(** ** Witnesses *)

Definition no_host : call -> Z -> Z -> Z -> M (list Z) Z := fun _ _ _ _ => halt Undefined.

(** 5 in register 1 and 1 in register 2, and a word to execute. *)
Definition demo_state (word : Z) : State :=
  MkState (<[1%nat := 5]> (<[2%nat := 1]> (replicate 32 0))) 0 0 memoffset (memoffset + 4) (le_bytes 4 word).
Lemma demo_state_ok word : state_ok (demo_state word).
Proof.
  split; cbn [demo_state Reg HI LO pc npc mem]; [done| |by split_and!|apply le_bytes_byte].
  repeat apply Forall_insert; [|done..]. by apply Forall_replicate.
Qed.

(** [addu $3, $1, $2]. *)
Lemma interpreter_matches_manual_witness :
  exists s', round no_host (demo_state 0x00221821) = Ok (Running, s') /\ Reg s' !! 3%nat = Some 6 /\ npc s' = memoffset + 8.
Proof.
  set (i := MkInstr 0x00221821 OP_ADDU 1 2 3 0).
  destruct (interpreter_matches_manual no_host (demo_state 0x00221821) 0x00221821 i
    (demo_state_ok _) ltac:(vm_compute; reflexivity) ltac:(vm_compute; reflexivity) eq_refl) as [Hrun Hman].
  rewrite (Hman (MkEffect [(3, 6)] (memoffset + 8)) I ltac:(vm_compute; reflexivity)) in Hrun.
  eexists. split; [exact Hrun|]. split; vm_compute; reflexivity.
Defined.
