(* ===== verification/Disasm.v ===== *)
(** * The disassembler: [bin/d.c], [bin/opstrings.c], [bin/disasm.c]

    The text [dump_ascii] prints for an instruction, which the interpreter prints when it
    traces and [disasm] for every word of a program.  What is shown is that the text
    says what the instruction does: apart from five instructions whose operands are
    printed wrong or not at all, two instructions with the same text do the same in the
    interpreter of [Interp.v]. *)

From S2P Require Import Prelude Machine Paging Mips MipsFacts MipsAlu Interp.
From Stdlib Require Import Ascii.

#[local] Open Scope Z_scope.

(** ** Text *)

(** Characters; [lit s] is a literal of the source. *)
Definition text : Type := list ascii.
Definition lit (s : string) : text := String.list_ascii_of_string s.
Definition tab : ascii := "009"%char.
Definition newline : ascii := "010"%char.

(** [printf]'s [%08x] and [%x] of an [int], which it takes as unsigned. *)
Definition digit (d : Z) : ascii := nth (Z.to_nat d) (lit "0123456789abcdef") "?"%char.
Definition hex8 (v : Z) : text := (fun k => digit (Z.land (Z.shiftr (u32 v) (4 * k)) 15)) <$> [7; 6; 5; 4; 3; 2; 1; 0].
Fixpoint strip (t : text) : text :=
  match t with
  | c :: (_ :: _) as t' => if Ascii.eqb c "0"%char then strip t' else t
  | _ => t
  end.
Definition hex (v : Z) : text := strip (hex8 v).

(** ** Names: [opstrings.c], [regstrings] of [d.c] *)

Definition normalops : list string :=
  ["special"; "bcond"; "j"; "jal"; "beq"; "bne"; "blez"; "bgtz";
   "addi"; "addiu"; "slti"; "sltiu"; "andi"; "ori"; "xori"; "lui";
   "cop0"; "cop1"; "cop2"; "cop3"; "024"; "025"; "026"; "027";
   "030"; "031"; "032"; "033"; "034"; "035"; "036"; "037";
   "lb"; "lh"; "lwl"; "lw"; "lbu"; "lhu"; "lwr"; "047";
   "sb"; "sh"; "swl"; "sw"; "054"; "055"; "swr"; "057";
   "lwc0"; "lwc1"; "lwc2"; "lwc3"; "064"; "065"; "066"; "067";
   "swc0"; "swc1"; "swc2"; "swc3"; "074"; "075"; "076"; "077"]%string.
Definition specialops : list string :=
  ["sll"; "001"; "srl"; "sra"; "sllv"; "005"; "srlv"; "srav";
   "jr"; "jalr"; "012"; "013"; "syscall"; "break"; "016"; "017";
   "mfhi"; "mthi"; "mflo"; "mtlo"; "024"; "025"; "026"; "027";
   "mult"; "multu"; "div"; "divu"; "034"; "035"; "036"; "037";
   "add"; "addu"; "sub"; "subu"; "and"; "or"; "xor"; "nor";
   "050"; "051"; "slt"; "sltu"; "054"; "055"; "056"; "057";
   "060"; "061"; "062"; "063"; "064"; "065"; "066"; "067";
   "070"; "071"; "072"; "073"; "074"; "075"; "076"; "077"]%string.
Definition regstrings : list string :=
  ["0"; "r1"; "r2"; "r3"; "r4"; "r5"; "r6"; "r7"; "r8"; "r9";
   "r10"; "r11"; "r12"; "r13"; "r14"; "r15"; "r16"; "r17"; "r18"; "r19";
   "r20"; "r21"; "r22"; "r23"; "r24"; "r25"; "r26"; "r27"; "gp"; "sp";
   "r30"; "r31"]%string.

(** An element of an array of strings. *)
Definition name_at (l : list string) (i : Z) : text := lit (default String.EmptyString (l !! Z.to_nat i)).
Definition R (i : Z) : text := name_at regstrings i.

(** [off26], [top4] and [off16] of [instr.h], on [int]s. *)
Definition off26 (i : Z) : Z := Z.shiftl (Z.land i (Z.shiftl 1 26 - 1)) 2.
Definition top4 (i : Z) : Z := Z.land i (Z.lnot (Z.shiftl 1 28 - 1)).
Definition off16 (i : Z) : Z := i32 (Z.shiftl (immed_of i) 2).

(** ** [dump_ascii] *)

Definition comma (a b : text) : text := a ++ ","%char :: b.

(** The operands of the special instructions. *)
Definition special_operands (op : opcode) (i : Z) : text :=
  match op with
  | I_SLL | I_SRL | I_SRA => comma (R (rd_of i)) (comma (R (rt_of i)) (lit "0x" ++ hex (shamt_of i)))
  | I_SLLV | I_SRLV | I_SRAV => comma (R (rd_of i)) (comma (R (rt_of i)) (R (rs_of i)))
  | I_JR | I_JALR | I_MFLO | I_MTLO => R (rs_of i)
  | I_SYSCALL | I_BREAK => []
  | I_MFHI | I_MTHI => R (rd_of i)
  | I_MULT | I_MULTU | I_DIV | I_DIVU => comma (R (rs_of i)) (R (rt_of i))
  | I_ADD | I_ADDU | I_SUB | I_SUBU | I_AND | I_OR | I_XOR | I_NOR | I_SLT | I_SLTU =>
      comma (R (rd_of i)) (comma (R (rs_of i)) (R (rt_of i)))
  | _ => []
  end.

(** The names and operands of the conditional branches of [I_BCOND]. *)
Definition bcond_name (op : opcode) : string :=
  match op with I_BLTZ => "bltz" | I_BGEZ => "bgez" | I_BLTZAL => "bltzal" | I_BGEZAL => "bgezal" | _ => "BCOND" end%string.
Definition target16 (i pc : Z) : text := hex8 (off16 i + pc + 4).

(** The operands of the other instructions; [code] tells the coprocessor loads and stores
    from the other coprocessor instructions. *)
Definition normal_operands (op : opcode) (code i pc : Z) : text :=
  let offset_rs := comma (R (rt_of i)) (lit "0x" ++ hex (immed_of i) ++ "("%char :: R (rs_of i) ++ [")"%char]) in
  match op with
  | I_J | I_JAL => hex8 (Z.lor (top4 pc) (off26 i))
  | I_BEQ | I_BNE => comma (R (rt_of i)) (comma (R (rs_of i)) (target16 i pc))
  | I_ADDI | I_ADDIU | I_SLTI | I_SLTIU | I_ANDI | I_ORI | I_XORI =>
      comma (R (rt_of i)) (comma (R (rs_of i)) (lit "0x" ++ hex (immed_of i)))
  | I_LUI => comma (R (rt_of i)) (lit "0x" ++ hex (immed_of i))
  | I_COP => if code <? 48 then [] else offset_rs
  | I_LB | I_LH | I_LWL | I_LW | I_LBU | I_LHU | I_LWR | I_SB | I_SH | I_SWL | I_SW | I_SWR => offset_rs
  | _ => []
  end.

(** The line without the address and the word. *)
Definition instruction_text (i pc : Z) : text :=
  let code := Z.shiftr (u32 i) 26 in
  if i =? 0 then lit "nop"
  else if code =? 0 then
    let f := Z.land i 0x3f in
    name_at specialops f ++ tab :: special_operands (nth_opcode special_opcodes f) i
  else if code =? 1 then
    lit (bcond_name (bcond_opcode (rt_of i))) ++ tab :: comma (R (rs_of i)) (target16 i pc)
  else name_at normalops code ++ tab :: normal_operands (nth_opcode normal_opcodes code) code i pc.
Definition dump_ascii (longdis : bool) (i pc : Z) : text :=
  (if longdis then hex8 pc ++ lit ": " ++ hex8 i ++ lit "  " else []) ++ tab :: instruction_text i pc.

(** ** [dis1], [disasm]: the text section, [size] bytes from the start of the memory on *)

Definition dis1 (pc : Z) : M State text :=
  i ← fetch pc; mret (dump_ascii true i pc ++ [newline]).
Fixpoint disasm_loop (n : nat) (pc : Z) : M State text :=
  match n with
  | O => mret []
  | S n => line ← dis1 pc; rest ← disasm_loop n (pc + 4); mret (line ++ rest)
  end.
Definition disasm (size : Z) : M State text := disasm_loop (Z.to_nat (divRoundUp size 4)) memoffset.

(** What the interpreter does with the word it has fetched ([round]). *)
Definition behave (host : call -> Z -> Z -> Z -> M (list Z) Z) (i xpc : Z) : M State Status :=
  if i =? 0 then mret Running else dispatch host (opcode_of i) i xpc.

(** ** Reading the text back *)

(** A separator splits a text in one way. *)
Lemma app_sep_inj (x : ascii) (a a' b b' : text) : x ∉ a -> x ∉ a' -> a ++ x :: b = a' ++ x :: b' -> a = a' /\ b = b'.
Proof.
  revert a'. induction a as [|c a IH]; intros [|c' a'] Ha Ha' H; cbn in H.
  - by injection H as ->.
  - injection H as <- _. by destruct Ha'; left.
  - injection H as -> _. by destruct Ha; left.
  - injection H as -> H. apply not_elem_of_cons in Ha as [_ Ha], Ha' as [_ Ha']. by destruct (IH _ Ha Ha' H) as [-> ->].
Qed.
Lemma comma_inj a a' b b' : ","%char ∉ a -> ","%char ∉ a' -> comma a b = comma a' b' -> a = a' /\ b = b'.
Proof. apply app_sep_inj. Qed.

(** A property of all numbers below [n] that can be checked. *)
Lemma below (n : Z) (P : Z -> bool) : forallb P (seqZ 0 n) = true -> forall k, 0 <= k < n -> P k = true.
Proof. rewrite forallb_forall. intros H k Hk. apply H, list_elem_of_In, elem_of_seqZ. lia. Qed.

Lemma digit_inj d e : 0 <= d < 16 -> 0 <= e < 16 -> digit d = digit e -> d = e.
Proof.
  intros Hd He H. assert (Hc : forallb (fun d => forallb (fun e => implb (Ascii.eqb (digit d) (digit e)) (d =? e)) (seqZ 0 16)) (seqZ 0 16) = true)
    by (vm_compute; reflexivity).
  pose proof (below 16 _ (below 16 _ Hc d Hd) e He) as Hb. rewrite H, Ascii.eqb_refl in Hb. by apply Z.eqb_eq.
Qed.
Lemma digit_plain d : 0 <= d < 16 -> digit d <> "("%char /\ digit d <> ","%char.
Proof.
  intros Hd. assert (Hc : forallb (fun d => negb (Ascii.eqb (digit d) "("%char || Ascii.eqb (digit d) ","%char)) (seqZ 0 16) = true)
    by (vm_compute; reflexivity).
  pose proof (below 16 _ Hc d Hd) as Hb. apply negb_true_iff, orb_false_iff in Hb as [H1 H2].
  split; intros E; [rewrite E in H1|rewrite E in H2]; discriminate.
Qed.

Definition nibble (u k : Z) : Z := Z.land (Z.shiftr u (4 * k)) 15.
Lemma nibble_range u k : 0 <= nibble u k < 16.
Proof. unfold nibble. change 15 with (Z.ones 4). rewrite Z.land_ones by lia. apply Z.mod_pos_bound. lia. Qed.
Lemma nibbles_inj (n : nat) u v : 0 <= u < 16 ^ Z.of_nat n -> 0 <= v < 16 ^ Z.of_nat n ->
  (forall k, 0 <= k < Z.of_nat n -> u / 16 ^ k mod 16 = v / 16 ^ k mod 16) -> u = v.
Proof.
  revert u v. induction n as [|n IH]; intros u v Hu Hv H; [change (16 ^ Z.of_nat 0) with 1 in *; lia|].
  rewrite Nat2Z.inj_succ, Z.pow_succ_r in Hu, Hv by lia. pose proof (H 0 ltac:(lia)) as H0. rewrite Z.pow_0_r, !Z.div_1_r in H0.
  assert (u / 16 = v / 16).
  { apply IH; [split; [apply Z.div_pos|apply Z.div_lt_upper_bound]; lia..|]. intros k Hk. specialize (H (k + 1) ltac:(lia)).
    by rewrite Z.pow_add_r, (Z.mul_comm (16 ^ k)), <- !Z.div_div in H by lia. }
  pose proof (Z.div_mod u 16 ltac:(lia)). pose proof (Z.div_mod v 16 ltac:(lia)). lia.
Qed.
Lemma hex8_inj v w : hex8 v = hex8 w -> u32 v = u32 w.
Proof.
  intros H. apply (nibbles_inj 8); [apply u32_range..|]. intros k Hk.
  assert (Hn : nibble (u32 v) k = nibble (u32 w) k).
  { injection H as H7 H6 H5 H4 H3 H2 H1 H0.
    assert (k = 0 \/ k = 1 \/ k = 2 \/ k = 3 \/ k = 4 \/ k = 5 \/ k = 6 \/ k = 7) as Hcases by lia.
    destruct Hcases as [->|[->|[->|[->|[->|[->|[->| ->]]]]]]]; apply digit_inj; try apply nibble_range; assumption. }
  unfold nibble in Hn. change 15 with (Z.ones 4) in Hn. rewrite !Z.land_ones, !Z.shiftr_div_pow2, Z.pow_mul_r in Hn by lia. exact Hn.
Qed.

Lemma strip_zeros t : t = replicate (length t - length (strip t)) "0"%char ++ strip t /\ (length (strip t) <= length t)%nat.
Proof.
  induction t as [|c t IH]; [done|]. destruct t as [|c' t]; [done|].
  change (strip (c :: c' :: t)) with (if Ascii.eqb c "0"%char then strip (c' :: t) else c :: c' :: t).
  destruct (Ascii.eqb_spec c "0"%char) as [->|]; [|rewrite Nat.sub_diag; done]. destruct IH as [IH Hle].
  set (t' := c' :: t) in *. change (length ("0"%char :: t')) with (S (length t')). rewrite Nat.sub_succ_l by done.
  cbn [replicate app]. rewrite <- IH. split; [done|lia].
Qed.
Lemma hex_inj v w : hex v = hex w -> u32 v = u32 w.
Proof.
  intros H. apply hex8_inj. unfold hex in H. rewrite (proj1 (strip_zeros (hex8 v))), (proj1 (strip_zeros (hex8 w))). by rewrite H.
Qed.
Lemma hex_plain v : ("("%char ∉ hex v) /\ (","%char ∉ hex v).
Proof.
  assert (H : forall c, (forall d, 0 <= d < 16 -> digit d <> c) -> c ∉ hex v).
  { intros c Hc Hin. assert (Hin' : c ∈ hex8 v).
    { rewrite (proj1 (strip_zeros (hex8 v))). apply elem_of_app. by right. }
    unfold hex8 in Hin'. apply list_elem_of_fmap in Hin' as (k & -> & _). by apply (Hc (nibble (u32 v) k) (nibble_range _ _)). }
  split; apply H; intros d Hd; by apply digit_plain.
Qed.

Lemma reg_inj a b : 0 <= a < 32 -> 0 <= b < 32 -> R a = R b -> a = b.
Proof.
  intros Ha Hb H. assert (Hc : forallb (fun a => forallb (fun b => implb (bool_decide (R a = R b)) (a =? b)) (seqZ 0 32)) (seqZ 0 32) = true)
    by (vm_compute; reflexivity).
  pose proof (below 32 _ (below 32 _ Hc a Ha) b Hb) as Hi. cbn beta in Hi. rewrite bool_decide_true in Hi by done. by apply Z.eqb_eq.
Qed.
Lemma reg_plain a : 0 <= a < 32 -> ","%char ∉ R a.
Proof.
  intros Ha. assert (Hc : forallb (fun a => bool_decide (","%char ∉ R a)) (seqZ 0 32) = true) by (vm_compute; reflexivity).
  exact (bool_decide_eq_true_1 _ (below 32 _ Hc a Ha)).
Qed.

(** ** Names *)

#[export] Instance opcode_eq_dec : EqDecision opcode.
Proof. solve_decision. Defined.

(** The names an opcode can be printed with. *)
Definition names : list (text * opcode) :=
  zip (lit <$> drop 2 normalops) (drop 2 normal_opcodes) ++ zip (lit <$> specialops) special_opcodes ++
  ((fun op => (lit (bcond_name op), op)) <$> [I_BLTZ; I_BGEZ; I_BLTZAL; I_BGEZAL; I_NONE]).

Lemma names_plain name op : (name, op) ∈ names -> tab ∉ name.
Proof.
  assert (Hc : forallb (fun p => bool_decide (tab ∉ p.1)) names = true) by (vm_compute; reflexivity).
  rewrite forallb_forall in Hc. intros H%list_elem_of_In. exact (bool_decide_eq_true_1 _ (Hc _ H)).
Qed.
Lemma names_differ name op op' : (name, op) ∈ names -> (name, op') ∈ names -> op = op'.
Proof.
  assert (Hc : forallb (fun p => forallb (fun q => implb (bool_decide (p.1 = q.1)) (bool_decide (p.2 = q.2))) names) names = true)
    by (vm_compute; reflexivity).
  rewrite forallb_forall in Hc. intros H%list_elem_of_In H'%list_elem_of_In. specialize (Hc _ H). cbn beta in Hc.
  rewrite forallb_forall in Hc. specialize (Hc _ H'). cbn [fst snd] in Hc. rewrite bool_decide_true in Hc by done.
  exact (bool_decide_eq_true_1 _ Hc).
Qed.
Lemma names_zip (l : list string) (ops : list opcode) (P : text * opcode -> bool) k :
  length ops = length l -> forallb P (zip (lit <$> l) ops) = true -> (k < length l)%nat ->
  P (lit (default String.EmptyString (l !! k)), default I_NONE (ops !! k)) = true.
Proof.
  intros Hl Hc Hk. rewrite forallb_forall in Hc. apply Hc, list_elem_of_In.
  destruct (lookup_lt_is_Some_2 l k Hk) as [x Hx]. destruct (lookup_lt_is_Some_2 ops k ltac:(lia)) as [y Hy].
  rewrite Hx, Hy. cbn [default]. apply list_elem_of_lookup. exists k. apply lookup_zip_Some. split; [by rewrite list_lookup_fmap, Hx|done].
Qed.
Definition named (p : text * opcode) : bool := bool_decide (p ∈ names).
Lemma special_named f : 0 <= f < 64 -> (name_at specialops f, nth_opcode special_opcodes f) ∈ names.
Proof.
  intros Hf. eapply bool_decide_eq_true_1, (names_zip specialops special_opcodes named); [done|vm_compute; reflexivity|].
  change (length specialops) with 64%nat. lia.
Qed.
Lemma normal_named k : 2 <= k < 64 -> (name_at normalops k, nth_opcode normal_opcodes k) ∈ names.
Proof.
  intros Hk. unfold name_at, nth_opcode. replace (Z.to_nat k) with (2 + (Z.to_nat k - 2))%nat by lia. rewrite <- !lookup_drop.
  eapply bool_decide_eq_true_1, (names_zip (drop 2 normalops) (drop 2 normal_opcodes) named); [done|vm_compute; reflexivity|].
  change (length (drop 2 normalops)) with 62%nat. lia.
Qed.
Lemma bcond_named t : (lit (bcond_name (bcond_opcode t)), bcond_opcode t) ∈ names.
Proof.
  assert (Hin : forall op, op ∈ [I_BLTZ; I_BGEZ; I_BLTZAL; I_BGEZAL; I_NONE] -> (lit (bcond_name op), op) ∈ names).
  { intros op Hop. unfold names. rewrite !elem_of_app, !list_elem_of_fmap. right. right. by exists op. }
  apply Hin. unfold bcond_opcode. rewrite !elem_of_cons. repeat case_match; tauto.
Qed.

(** The operands printed for an instruction that the interpreter executes. *)
Definition operands_of (op : opcode) (i pc : Z) : text :=
  match op with
  | I_BLTZ | I_BGEZ | I_BLTZAL | I_BGEZAL => comma (R (rs_of i)) (target16 i pc)
  | I_SLL | I_SRL | I_SRA | I_SLLV | I_SRLV | I_SRAV | I_JR | I_JALR | I_SYSCALL | I_BREAK | I_MFHI | I_MTHI | I_MFLO | I_MTLO
  | I_MULT | I_MULTU | I_DIV | I_DIVU | I_ADD | I_ADDU | I_SUB | I_SUBU | I_AND | I_OR | I_XOR | I_NOR | I_SLT | I_SLTU => special_operands op i
  | _ => normal_operands op 0 i pc
  end.
(** The opcodes that end the interpreter. *)
Definition refused (op : opcode) : bool :=
  match op with I_SWL | I_SWR | I_COP | I_NONE | I_SPECIAL | I_BCOND => true | _ => false end.

Lemma special_ops : Forall (fun op => forall i pc, refused op = false -> special_operands op i = operands_of op i pc) special_opcodes.
Proof. repeat (constructor; [intros i pc H; first [reflexivity|discriminate H]|]). constructor. Qed.
Lemma normal_ops : Forall (fun op => forall code i pc, refused op = false -> normal_operands op code i pc = operands_of op i pc) (drop 2 normal_opcodes).
Proof. repeat (constructor; [intros code i pc H; first [reflexivity|discriminate H]|]). constructor. Qed.

Lemma code_range i : 0 <= Z.shiftr (u32 i) 26 < 64.
Proof.
  pose proof (u32_range i) as Hr. unfold is_u32 in Hr. rewrite Z.shiftr_div_pow2 by lia.
  split; [apply Z.div_pos; lia|apply Z.div_lt_upper_bound; lia].
Qed.
Lemma code_of i : Z.land (Z.shiftr i 26) 0x3f = Z.shiftr (u32 i) 26.
Proof.
  destruct (fields_u32 i) as (H & _). pose proof (code_range i) as Hr. change 0x3f with (Z.ones 6).
  rewrite Z.land_ones, Z.shiftr_div_pow2 by lia. change (2 ^ 6) with 64. rewrite H. rewrite Z.shiftr_div_pow2 in * by lia.
  by rewrite Z.mod_small.
Qed.

(** A line is a name and, for an instruction the interpreter knows, its operands. *)
Lemma text_split i pc : i <> 0 ->
  exists name rest, (name, opcode_of i) ∈ names /\ instruction_text i pc = name ++ tab :: rest /\
    (refused (opcode_of i) = false -> rest = operands_of (opcode_of i) i pc).
Proof.
  intros Hi. unfold instruction_text, opcode_of. rewrite code_of, (proj2 (Z.eqb_neq i 0) Hi). pose proof (code_range i) as Hr.
  set (code := Z.shiftr (u32 i) 26) in *. destruct (Z.eqb_spec code 0) as [->|Hc0]; [|destruct (Z.eqb_spec code 1) as [->|Hc1]].
  - change (nth_opcode normal_opcodes 0) with I_SPECIAL. cbv iota beta. eexists _, _. split; [apply special_named|split; [done|]].
    { change 0x3f with (Z.ones 6). rewrite Z.land_ones by lia. apply Z.mod_pos_bound. lia. }
    intros Hn. unfold nth_opcode in *. destruct (special_opcodes !! Z.to_nat (Z.land i 63)) as [op|] eqn:E; [|discriminate Hn].
    pose proof special_ops as H. rewrite Forall_lookup in H. cbn [default] in *. by apply (H _ _ E).
  - change (nth_opcode normal_opcodes 1) with I_BCOND. cbv iota beta. eexists _, _. split; [apply bcond_named|split; [done|]].
    intros Hn. unfold bcond_opcode in *. repeat case_match; done.
  - assert (Hop : forall op, nth_opcode normal_opcodes code = op -> op <> I_SPECIAL /\ op <> I_BCOND).
    { intros op <-. assert (Hck : forallb (fun k => bool_decide (2 <= k -> nth_opcode normal_opcodes k <> I_SPECIAL /\ nth_opcode normal_opcodes k <> I_BCOND)) (seqZ 0 64) = true)
        by (vm_compute; reflexivity).
      apply (bool_decide_eq_true_1 _ (below 64 _ Hck code Hr)). lia. }
    specialize (Hop _ eq_refl) as [Hs Hb].
    assert (Heq : match nth_opcode normal_opcodes code with
      | I_SPECIAL => nth_opcode special_opcodes (Z.land i 0x3f) | I_BCOND => bcond_opcode (rt_of i) | op => op end = nth_opcode normal_opcodes code)
      by (destruct (nth_opcode normal_opcodes code); done).
    rewrite Heq. eexists _, _. split; [apply normal_named; lia|split; [done|]]. intros Hn. pose proof normal_ops as H.
    rewrite Forall_lookup in H. unfold nth_opcode in *. destruct (normal_opcodes !! Z.to_nat code) as [op|] eqn:E; [|discriminate Hn].
    cbn [default] in *. apply (H (Z.to_nat code - 2)%nat op); [|done]. rewrite lookup_drop. by replace (2 + (Z.to_nat code - 2))%nat with (Z.to_nat code) by lia.
Qed.

(** ** Operands *)

Lemma field_range i k : 0 <= Z.land (Z.shiftr i k) 0x1f < 32.
Proof. change 0x1f with (Z.ones 5). rewrite Z.land_ones by lia. apply Z.mod_pos_bound. lia. Qed.
Lemma immed_bounds i : -32768 <= immed_of i < 32768.
Proof. rewrite immed_value. pose proof (Z.mod_pos_bound i 65536 ltac:(lia)). destruct (Z.ltb_spec (i mod 65536) 32768); lia. Qed.

Section Operands.
Context (i j : Z).

Lemma reg_field k : R (Z.land (Z.shiftr i k) 0x1f) = R (Z.land (Z.shiftr j k) 0x1f) -> Z.land (Z.shiftr i k) 0x1f = Z.land (Z.shiftr j k) 0x1f.
Proof. apply reg_inj; apply field_range. Qed.
Lemma reg_comma k b b' : comma (R (Z.land (Z.shiftr i k) 0x1f)) b = comma (R (Z.land (Z.shiftr j k) 0x1f)) b' ->
  Z.land (Z.shiftr i k) 0x1f = Z.land (Z.shiftr j k) 0x1f /\ b = b'.
Proof. intros [H ->]%comma_inj; [|apply reg_plain, field_range..]. split; [by apply reg_field|done]. Qed.
Lemma u32_small v w : -32768 <= v < 32768 -> -32768 <= w < 32768 -> u32 v = u32 w -> v = w.
Proof. intros Hv Hw H. unfold u32 in H. change (2 ^ 32) with 4294967296 in H. Z.to_euclidean_division_equations; lia. Qed.
Lemma hex_immed : lit "0x" ++ hex (immed_of i) = lit "0x" ++ hex (immed_of j) -> immed_of i = immed_of j.
Proof. intros H%(app_inv_head _). apply u32_small; [apply immed_bounds..|by apply hex_inj]. Qed.
Lemma hex_shamt : lit "0x" ++ hex (shamt_of i) = lit "0x" ++ hex (shamt_of j) -> shamt_of i = shamt_of j.
Proof.
  intros H%(app_inv_head _). pose proof (field_range i 6). pose proof (field_range j 6).
  apply u32_small; [unfold shamt_of; lia..|by apply hex_inj].
Qed.
Lemma target_immed pc : target16 i pc = target16 j pc -> immed_of i = immed_of j.
Proof.
  intros H. unfold target16 in H. apply hex8_inj in H. pose proof (immed_bounds i). pose proof (immed_bounds j). unfold off16 in H.
  rewrite !Z.shiftl_mul_pow2 in H by lia. change (2 ^ 2) with 4 in H. rewrite !i32_id in H by (unfold is_i32; lia).
  unfold u32 in H. change (2 ^ 32) with 4294967296 in H. Z.to_euclidean_division_equations; lia.
Qed.
Lemma offset_rs_inj b b' :
  lit "0x" ++ hex (immed_of i) ++ "("%char :: R (rs_of i) ++ b = lit "0x" ++ hex (immed_of j) ++ "("%char :: R (rs_of j) ++ b' ->
  b = [")"%char] -> b' = [")"%char] -> immed_of i = immed_of j /\ rs_of i = rs_of j.
Proof.
  intros H%(app_inv_head _) -> ->. apply app_sep_inj in H as [H1 H2]; [|apply hex_plain..]. apply app_inv_tail in H2.
  split; [apply u32_small; [apply immed_bounds..|by apply hex_inj]|by apply reg_field].
Qed.
Lemma target26_inj pc : hex8 (Z.lor (top4 pc) (off26 i)) = hex8 (Z.lor (top4 pc) (off26 j)) ->
  Z.land i 0x03ffffff = Z.land j 0x03ffffff.
Proof.
  assert (H28 : forall k, Z.lor (top4 pc) (off26 k) mod 2 ^ 28 = Z.shiftl (Z.land k 0x03ffffff) 2).
  { intros k. unfold top4, off26. change (Z.shiftl 1 26 - 1) with (Z.ones 26). change 0x03ffffff with (Z.ones 26).
    change (Z.shiftl 1 28 - 1) with (Z.ones 28). rewrite (Z.land_ones k), Z.shiftl_mul_pow2 by lia.
    pose proof (Z.mod_pos_bound k (2 ^ 26) ltac:(lia)). rewrite <- (Z.land_ones (Z.lor _ _)), Z.land_lor_distr_l by lia.
    rewrite <- Z.land_assoc, (Z.land_comm (Z.lnot _)), Z.land_lnot_diag, Z.land_0_r, Z.lor_0_l.
    rewrite Z.land_ones by lia. apply Z.mod_small. change (2 ^ 28) with (2 ^ 26 * 2 ^ 2). lia. }
  intros H. apply hex8_inj in H. pose proof (H28 i) as Hi. pose proof (H28 j) as Hj. rewrite !Z.shiftl_mul_pow2 in Hi, Hj by lia.
  assert (Hm : forall x, u32 x mod 2 ^ 28 = x mod 2 ^ 28).
  { intros x. unfold u32. change (2 ^ 32) with (2 ^ 28 * 16). rewrite Z.rem_mul_r by lia.
    rewrite Z.mul_comm, Z.mod_add by lia. by rewrite Z.mod_mod by lia. }
  rewrite <- Hm, H, Hm in Hi. lia.
Qed.
End Operands.

(** ** Behaviour *)

(** The instructions whose operands are printed wrong ([I_MFLO]: [rs] for [rd], [I_MTHI]:
    [rd] for [rs]) or not printed ([I_JALR]: [rd]; [I_BLEZ], [I_BGTZ]: all). *)
Definition misprinted (op : opcode) : bool :=
  match op with I_MFLO | I_MTHI | I_JALR | I_BLEZ | I_BGTZ => true | _ => false end.

Lemma read_reg k s : length (Reg s) = 32%nat -> 0 <= k < 32 -> exists v, Interp.R k s = Ok (v, s).
Proof.
  intros Hs Hk. destruct (aget_in_range (Reg s) k) as [v Hv]; [rewrite Hs; lia|]. exists v.
  unfold Interp.R. erewrite bind_ok by reflexivity. unfold lift. by rewrite Hv.
Qed.
Lemma bind_same {S A B} (m m' : M S A) (f : A -> M S B) s : m s = m' s -> (m ≫= f) s = (m' ≫= f) s.
Proof. intros H. unfold mbind, M_bind. by rewrite H. Qed.
Lemma lui_same i j : immed_of i = immed_of j -> i32 (Z.shiftl i 16) = i32 (Z.shiftl j 16).
Proof.
  rewrite !immed_value. intros H. assert (Hm : i mod 65536 = j mod 65536).
  { pose proof (Z.mod_pos_bound i 65536 ltac:(lia)). pose proof (Z.mod_pos_bound j 65536 ltac:(lia)).
    destruct (Z.ltb_spec (i mod 65536) 32768), (Z.ltb_spec (j mod 65536) 32768); lia. }
  rewrite !Z.shiftl_mul_pow2 by lia. change (2 ^ 16) with 65536. unfold i32. f_equal.
  rewrite (Z.div_mod i 65536), (Z.div_mod j 65536), Hm by lia.
  replace ((65536 * (i / 65536) + j mod 65536) * 65536 + 2 ^ 31) with (j mod 65536 * 65536 + 2 ^ 31 + i / 65536 * 2 ^ 32) by lia.
  replace ((65536 * (j / 65536) + j mod 65536) * 65536 + 2 ^ 31) with (j mod 65536 * 65536 + 2 ^ 31 + j / 65536 * 2 ^ 32) by lia.
  by rewrite !Z.mod_add by lia.
Qed.

Section Behaviour.
Context (i j : Z).
Lemma rd_comma b b' : comma (R (rd_of i)) b = comma (R (rd_of j)) b' -> rd_of i = rd_of j /\ b = b'.
Proof. apply reg_comma. Qed.
Lemma rt_comma b b' : comma (R (rt_of i)) b = comma (R (rt_of j)) b' -> rt_of i = rt_of j /\ b = b'.
Proof. apply reg_comma. Qed.
Lemma rs_comma b b' : comma (R (rs_of i)) b = comma (R (rs_of j)) b' -> rs_of i = rs_of j /\ b = b'.
Proof. apply reg_comma. Qed.

Context (s : State) (Hs : length (Reg s) = 32%nat).

(** The values of [rs] and [rt], read by both instructions. *)
Lemma read_both : exists a b a' b', Interp.R (rs_of i) s = Ok (a, s) /\ Interp.R (rt_of i) s = Ok (b, s) /\
  Interp.R (rs_of j) s = Ok (a', s) /\ Interp.R (rt_of j) s = Ok (b', s) /\
  (rs_of i = rs_of j -> a = a') /\ (rt_of i = rt_of j -> b = b').
Proof.
  destruct (read_reg (rs_of i) s Hs (field_range i 21)) as [a Ha], (read_reg (rt_of i) s Hs (field_range i 16)) as [b Hb].
  destruct (read_reg (rs_of j) s Hs (field_range j 21)) as [a' Ha'], (read_reg (rt_of j) s Hs (field_range j 16)) as [b' Hb'].
  exists a, b, a', b'. split_and!; try done; intros E; congruence.
Qed.

Lemma alu_same op pc : operands_of op i pc = operands_of op j pc ->
  match op with
  | I_SLL | I_SRL | I_SRA | I_SLLV | I_SRLV | I_SRAV | I_ADD | I_ADDU | I_SUB | I_SUBU | I_AND | I_OR | I_XOR | I_NOR
  | I_SLT | I_SLTU => alu op i s = alu op j s
  | _ => True
  end.
Proof.
  intros H. destruct read_both as (a & b & a' & b' & Ha & Hb & Ha' & Hb' & Ea & Eb).
  destruct op; try exact I; cbn [operands_of special_operands] in H; apply rd_comma in H as [Ed H];
    first [apply rt_comma in H as [Et H] | apply rs_comma in H as [Es H]];
    first [apply hex_shamt in H | apply (reg_field i j 21) in H; change (rs_of i = rs_of j) in H
          | apply (reg_field i j 16) in H; change (rt_of i = rt_of j) in H];
    unfold alu; rewrite (bind_ok _ _ _ _ _ Ha), (bind_ok _ _ _ _ _ Hb), (bind_ok _ _ _ _ _ Ha'), (bind_ok _ _ _ _ _ Hb');
    cbv beta zeta; rewrite ?Ed, ?Ea, ?Eb, ?H by assumption; reflexivity.
Qed.
Lemma hilo_same op pc : operands_of op i pc = operands_of op j pc -> misprinted op = false ->
  match op with
  | I_MFHI | I_MTHI | I_MFLO | I_MTLO | I_MULT | I_MULTU | I_DIV | I_DIVU => hilo op i s = hilo op j s
  | _ => True
  end.
Proof.
  intros H Hm. destruct read_both as (a & b & a' & b' & Ha & Hb & Ha' & Hb' & Ea & Eb).
  destruct op; try exact I; try discriminate Hm; cbn [operands_of special_operands] in H;
    unfold hilo; rewrite (bind_ok _ _ _ _ _ Ha), (bind_ok _ _ _ _ _ Hb), (bind_ok _ _ _ _ _ Ha'), (bind_ok _ _ _ _ _ Hb');
    first
    [ apply rs_comma in H as [Es H]; apply (reg_field i j 16) in H; change (rt_of i = rt_of j) in H; rewrite Ea, Eb by assumption; reflexivity
    | apply (reg_field i j 21) in H; change (rs_of i = rs_of j) in H; rewrite Ea by assumption; reflexivity
    | apply (reg_field i j 11) in H; change (rd_of i = rd_of j) in H; rewrite H; reflexivity ].
Qed.
Lemma branch_same op pc xpc : operands_of op i pc = operands_of op j pc -> misprinted op = false ->
  match op with
  | I_BLTZ | I_BGEZ | I_BLTZAL | I_BGEZAL | I_BEQ | I_BNE | I_BLEZ | I_BGTZ => branch op i xpc s = branch op j xpc s
  | I_JR | I_JALR | I_J | I_JAL => jump op i xpc s = jump op j xpc s
  | _ => True
  end.
Proof.
  intros H Hm. destruct op; try exact I; try discriminate Hm; cbn [operands_of special_operands normal_operands] in H;
    first
    [ apply rt_comma in H as [Et H]; apply rs_comma in H as [Es H]; apply target_immed in H; unfold branch; rewrite Et, Es, H; reflexivity
    | apply rs_comma in H as [Es H]; apply target_immed in H; unfold branch; rewrite Es, H; reflexivity
    | apply target26_inj in H; unfold jump; rewrite H; reflexivity
    | apply (reg_field i j 21) in H; change (rs_of i = rs_of j) in H; unfold jump; rewrite H; reflexivity ].
Qed.
Lemma memory_same op pc : operands_of op i pc = operands_of op j pc ->
  match op with
  | I_ADDI | I_ADDIU | I_SLTI | I_SLTIU | I_ANDI | I_ORI | I_XORI | I_LUI => immediate op i s = immediate op j s
  | I_LB | I_LH | I_LWL | I_LW | I_LBU | I_LHU | I_LWR => load op i s = load op j s
  | I_SB | I_SH | I_SW => save op i s = save op j s
  | _ => True
  end.
Proof.
  intros H. destruct read_both as (a & b & a' & b' & Ha & Hb & Ha' & Hb' & Ea & Eb).
  destruct op; try exact I; cbn [operands_of normal_operands] in H; apply rt_comma in H as [Et H];
    first
    [ apply rs_comma in H as [Es H]; apply hex_immed in H; unfold immediate; rewrite Et, Es, H; reflexivity
    | apply offset_rs_inj in H as [Ei Es]; [|reflexivity|reflexivity]; unfold load, save; rewrite Et, Es, Ei; reflexivity
    | apply hex_immed in H; unfold immediate; rewrite (bind_ok _ _ _ _ _ Ha), (bind_ok _ _ _ _ _ Ha'), Et; cbv beta zeta;
      rewrite (lui_same _ _ H); reflexivity ].
Qed.

Lemma dispatch_same host op pc xpc : misprinted op = false -> (refused op = false -> operands_of op i pc = operands_of op j pc) ->
  dispatch host op i xpc s = dispatch host op j xpc s.
Proof.
  intros Hm H. destruct (refused op) eqn:Hr; [destruct op; done|]. specialize (H eq_refl).
  pose proof (alu_same op pc H) as Halu. pose proof (hilo_same op pc H Hm) as Hhilo.
  pose proof (branch_same op pc xpc H Hm) as Hbr. pose proof (memory_same op pc H) as Hmem.
  destruct op; try discriminate Hr; try discriminate Hm; unfold dispatch; cbv zeta; try reflexivity; apply bind_same; assumption.
Qed.
End Behaviour.

(** Two words of each of the five that print the same. *)
Definition misprint (op : opcode) : Z * Z :=
  match op with
  | I_MFLO => (0x00001812, 0x00002012)
  | I_MTHI => (0x00200011, 0x00400011)
  | I_JALR => (0x00201809, 0x00202009)
  | I_BLEZ => (0x18400001, 0x18400002)
  | I_BGTZ => (0x1c200001, 0x1c200002)
  | _ => (0, 0)
  end.
Definition three_regs : State :=
  MkState (<[1%nat := 5]> (<[2%nat := -1]> (replicate 32 0))) 0 7 0 4 [].

(** ** The listing *)

Lemma disasm_loop_run n pc s ws : length ws = n ->
  (forall k w, ws !! k = Some w -> fetch (pc + 4 * Z.of_nat k) s = Ok (w, s)) ->
  disasm_loop n pc s = Ok (concat (imap (fun k w => dump_ascii true w (pc + 4 * Z.of_nat k) ++ [newline]) ws), s).
Proof.
  revert pc ws. induction n as [|n IH]; intros pc [|w ws] Hn H; try discriminate Hn; [done|]. cbn [disasm_loop].
  pose proof (H 0%nat w eq_refl) as Hw. rewrite Z.mul_0_r, Z.add_0_r in Hw. unfold dis1.
  erewrite bind_ok by (erewrite bind_ok by exact Hw; reflexivity).
  rewrite (bind_ok _ _ _ _ _ (IH (pc + 4) ws ltac:(by injection Hn) ltac:(intros k v Hk; specialize (H (S k) v Hk);
    by replace (pc + 4 + 4 * Z.of_nat k) with (pc + 4 * Z.of_nat (S k)) by lia))).
  cbn [imap concat]. rewrite Z.mul_0_r, Z.add_0_r. unfold mret, M_ret. do 2 f_equal. f_equal. f_equal.
  apply imap_ext. intros k v Hk. cbn. by replace (pc + 4 + 4 * Z.of_nat k) with (pc + 4 * Z.of_nat (S k)) by lia.
Qed.

(** ** Properties *)

(** C26. The disassembler says what an instruction does: two instructions it prints the
    same way, apart from the address and the word itself, do the same in the interpreter,
    whatever the state, unless they are one of [mflo], [mthi], [jalr], [blez] and [bgtz];
    and for each of these five there are two that print the same and do not do the same. *)
Theorem disassembly_determines :
  (forall host i j pc xpc s, misprinted (opcode_of i) = false -> instruction_text i pc = instruction_text j pc ->
     length (Reg s) = 32%nat -> behave host i xpc s = behave host j xpc s) /\
  (forall op, misprinted op = true -> exists i j, opcode_of i = op /\ opcode_of j = op /\
     (forall pc, instruction_text i pc = instruction_text j pc) /\
     forall host, behave host i 0 three_regs <> behave host j 0 three_regs).
Proof.
  split.
  - intros host i j pc xpc s Hm H Hs. unfold behave.
    assert (Hnop : forall k, k <> 0 -> instruction_text k pc <> lit "nop").
    { intros k Hk E. destruct (text_split k pc Hk) as (name & rest & _ & Ht & _). rewrite Ht in E.
      assert (Hno : bool_decide (tab ∈ lit "nop") = false) by (vm_compute; reflexivity). apply bool_decide_eq_false_1 in Hno.
      apply Hno. rewrite <- E, elem_of_app. right. left. }
    destruct (Z.eqb_spec i 0) as [->|Hi], (Z.eqb_spec j 0) as [->|Hj]; [reflexivity|destruct (Hnop j Hj); by rewrite <- H|destruct (Hnop i Hi); by rewrite H|].
    destruct (text_split i pc Hi) as (n & r & Hn & Hti & Hri), (text_split j pc Hj) as (n' & r' & Hn' & Htj & Hrj).
    rewrite Hti, Htj in H. apply app_sep_inj in H as [-> ->]; [|by eapply names_plain..].
    pose proof (names_differ _ _ _ Hn Hn') as Ho. rewrite <- Ho in *. apply (dispatch_same i j s Hs host _ pc); [done|].
    intros Hr. by rewrite <- (Hri Hr), <- (Hrj Hr).
  - intros op Hop. exists (fst (misprint op)), (snd (misprint op)). destruct op; try discriminate Hop; cbn [misprint fst snd];
      (split; [reflexivity|split; [reflexivity|split; [intros pc; reflexivity|intros host Hb; vm_compute in Hb; discriminate Hb]]]).
Qed.

(** ** Witnesses *)

(** [addu r3,r1,r2] with two values of the unused bits. *)
Lemma disassembly_determines_witness :
  instruction_text 0x00221821 0 = instruction_text 0x00221fe1 0 /\
  behave no_host 0x00221821 0 three_regs = behave no_host 0x00221fe1 0 three_regs.
Proof.
  assert (H : instruction_text 0x00221821 0 = instruction_text 0x00221fe1 0) by (vm_compute; reflexivity).
  split; [exact H|]. exact (proj1 disassembly_determines no_host 0x00221821 0x00221fe1 0 0 three_regs eq_refl H eq_refl).
Defined.
