(* ===== verification/Debugger.v ===== *)
(** * The debugger of user programs: [Machine::Debugger] of [machine/machine.cc]

    With [-s] the loop of [Machine::Run] stops behind every instruction, prints the state
    of the interrupts and of the machine and reads a command.  The loop is modelled with
    the debugger in it, over any kernel; what is shown is that the debugger does not
    disturb the program. *)

From Stdlib Require Import Ascii.
From S2P Require Import Prelude Disk Kernel Machine Mips Disasm.

#[local] Open Scope Z_scope.

(** ** The C library *)

(** [printf]'s [%d] of an [int]. *)
Fixpoint decimal (fuel : nat) (n : Z) : text :=
  match fuel with
  | O => []
  | S fuel => (if n <? 10 then [] else decimal fuel (n / 10)) ++ [digit (n mod 10)]
  end.
Definition dec (v : Z) : text := if v <? 0 then "-"%char :: decimal 10 (- v) else decimal 10 v.

(** [fgets]: at most [n] - 1 characters, up to the end of the line; [None] at the end of
    the input, when it leaves the buffer as it is. *)
Fixpoint get_line (n : nat) (l : text) : text * text :=
  match n, l with
  | S n, c :: l => if Ascii.eqb c newline then ([c], l) else let '(line, rest) := get_line n l in (c :: line, rest)
  | _, _ => ([], l)
  end.
Definition fgets (n : nat) (l : text) : option (text * text) := match l with [] => None | _ => Some (get_line (n - 1) l) end.

(** [sscanf(buf, "%d", &num)]: [None] when it does not assign; a number that is no [int]
    is undefined. *)
Definition is_space (c : ascii) : bool := let n := Ascii.nat_of_ascii c in ((9 <=? n)%nat && (n <=? 13)%nat) || (n =? 32)%nat.
Definition digit_value (c : ascii) : option Z :=
  let n := Ascii.nat_of_ascii c in if (48 <=? n)%nat && (n <=? 57)%nat then Some (Z.of_nat n - 48) else None.
Fixpoint skip_space (l : text) : text := match l with c :: l' => if is_space c then skip_space l' else l | [] => [] end.
Fixpoint number (acc : option Z) (l : text) : option Z :=
  match l with
  | c :: l => match digit_value c with Some v => number (Some (10 * default 0 acc + v)) l | None => acc end
  | [] => acc
  end.
Definition sscanf_d (buf : text) : res (option Z) :=
  let v := match skip_space buf with
           | c :: l =>
               if Ascii.eqb c "-"%char then Z.opp <$> number None l
               else if Ascii.eqb c "+"%char then number None l else number None (c :: l)
           | [] => None
           end in
  match v with
  | Some v => if (- 2 ^ 31 <=? v) && (v <? 2 ^ 31) then Ok (Some v) else Stop Undefined
  | None => Ok None
  end.

(** ** What it prints *)

(** [Machine::DumpState]. *)
Definition register_text (m : Machine) (i : Z) : text :=
  let r := registers m !!! Z.to_nat i in
  let tail := lit "0x" ++ hex r ++ (if i mod 4 =? 3 then [newline] else []) in
  if i =? StackReg then tab :: lit "SP(" ++ dec i ++ lit "):" ++ tab :: tail
  else if i =? RetAddrReg then tab :: lit "RA(" ++ dec i ++ lit "):" ++ tab :: tail
  else tab :: dec i ++ lit ":" ++ tab :: tail.
Definition named (m : Machine) (name : string) (i : Z) (last : bool) : text :=
  tab :: lit name ++ lit ":" ++ tab :: lit "0x" ++ hex (registers m !!! Z.to_nat i) ++ (if last then [newline] else []).
Definition DumpState (m : Machine) : text :=
  lit "Machine registers:" ++ [newline] ++ (seqZ 0 NumGPRegs ≫= register_text m) ++
  named m "Hi" HiReg false ++ named m "Lo" LoReg true ++
  named m "PC" PCReg false ++ named m "NextPC" NextPCReg false ++ named m "PrevPC" PrevPCReg true ++
  named m "Load" LoadReg false ++ named m "LoadV" LoadValueReg true ++ [newline].

Definition help : text :=
  lit "Machine commands:" ++ [newline] ++
  lit "    <return>  execute one instruction" ++ [newline] ++
  lit "    <number>  run until the given timer tick" ++ [newline] ++
  lit "    c         run until completion" ++ [newline] ++
  lit "    ?         print help message" ++ [newline].

(** [PrintPending] and [Interrupt::DumpState]. *)
Definition intTypeName (t : IntType) : string :=
  match t with
  | TimerInt => "timer" | DiskInt => "disk" | ConsoleWriteInt => "console write" | ConsoleReadInt => "console read"
  | NetworkSendInt => "network send" | NetworkRecvInt => "network recv"
  end%string.
Definition intLevelName (l : IntStatus) : string := match l with IntOff => "off" | IntOn => "on" end%string.
Definition PrintPending (p : PendingInterrupt) : text :=
  lit "Interrupt handler " ++ lit (intTypeName (type p)) ++ lit ", scheduled at " ++ dec (when p) ++ [newline].
Definition interrupt_DumpState (k : Kernel) : text :=
  lit "Time: " ++ dec (totalTicks (stats k)) ++ lit ", interrupts " ++ lit (intLevelName (level (interrupt k))) ++ [newline] ++
  lit "Pending interrupts:" ++ [newline] ++
  (pending (interrupt k) ≫= fun p => PrintPending (snd p)) ++
  lit "End of pending interrupts" ++ [newline].

(** ** The debugger *)

(** [singleStep] and [runUntilTime], which the constructor does not set, with the
    terminal. *)
Record Debug : Type := MkDebug { singleStep : bool; runUntilTime : Z; stdin : text; stdout : text }.

Section Debugger.
Context {W : Type} `{Host W} (OneTick : M W unit).
(** Of the kernel: [stats->totalTicks] and the text of [interrupt->DumpState()]. *)
Context (now : W -> Z) (interrupts : W -> text).

Definition Debugger (w : W) (d : Debug) : res Debug :=
  let out := stdout d ++ interrupts w ++ DumpState (lget machine w) ++ dec (now w) ++ lit "> " in
  match fgets 80 (stdin d) with
  | None => Stop Undefined
  | Some (buf, rest) =>
      match sscanf_d buf with
      | Stop why => Stop why
      | Ok (Some num) => Ok (MkDebug (singleStep d) num rest out)
      | Ok None =>
          match buf with
          | c :: _ =>
              if Ascii.eqb c "c"%char then Ok (MkDebug false 0 rest out)
              else if Ascii.eqb c "?"%char then Ok (MkDebug (singleStep d) 0 rest (out ++ help))
              else Ok (MkDebug (singleStep d) 0 rest out)
          | [] => Ok (MkDebug (singleStep d) 0 rest out)
          end
      end
  end.

(** [n] rounds of the loop of [Machine::Run]. *)
Fixpoint debug_rounds (n : nat) : M (W * Debug) unit := fun s =>
  match n with
  | O => Ok (tt, s)
  | S n =>
      match (_ ← OneInstruction; OneTick) (fst s) with
      | Ok (_, w) =>
          if singleStep (snd s) && (runUntilTime (snd s) <=? now w) then
            match Debugger w (snd s) with Ok d => debug_rounds n (w, d) | Stop why => Stop why end
          else debug_rounds n (w, snd s)
      | Stop why => Stop why
      end
  end.

(** ** Facts *)

Lemma rounds_step n w : rounds OneTick (S n) w = match (_ ← OneInstruction; OneTick) w with Ok (_, w) => rounds OneTick n w | Stop why => Stop why end.
Proof. cbn [rounds]. munfold. destruct (OneInstruction w) as [[[] w1]|]; [|done]. by destruct (OneTick w1) as [[[] w2]|]. Qed.

(** The debugger does not disturb the program: with whatever commands, the rounds lead
    where they lead without it. *)
Lemma debugger_transparent n w d w' d' : debug_rounds n (w, d) = Ok (tt, (w', d')) -> rounds OneTick n w = Ok (tt, w').
Proof.
  revert w d. induction n as [|n IH]; intros w d; [by intros [= -> _]|]. rewrite rounds_step. cbn [debug_rounds fst snd].
  destruct ((_ ← OneInstruction; OneTick) w) as [[[] w1]|]; [|done].
  destruct (_ && _); [|apply IH]. destruct (Debugger w1 d); [apply IH|done].
Qed.

(** It adds one way to stop: a command that is not there, or is no [int]. *)
Lemma debugger_stops n w d why : debug_rounds n (w, d) = Stop why -> rounds OneTick n w = Stop why \/ why = Undefined.
Proof.
  revert w d. induction n as [|n IH]; intros w d; [done|]. rewrite rounds_step. cbn [debug_rounds fst snd].
  destruct ((_ ← OneInstruction; OneTick) w) as [[[] w1]|]; [|intros [= ->]; by left].
  destruct (_ && _); [|apply IH]. destruct (Debugger w1 d) as [d1|why1] eqn:E; [apply IH|]. intros [= ->]. right.
  unfold Debugger in E. destruct (fgets 80 (stdin d)) as [[buf rest]|]; [|congruence].
  assert (Hs : forall b y, sscanf_d b = Stop y -> y = Undefined).
  { intros b y. unfold sscanf_d. destruct (match skip_space b with [] => None | _ :: _ => _ end); [destruct (_ && _); congruence|done]. }
  destruct (sscanf_d buf) as [[num|]|y] eqn:Ey; [done| |injection E as <-; by apply (Hs buf)].
  destruct buf as [|c buf]; [done|]. by destruct (Ascii.eqb c _); [|destruct (Ascii.eqb c _)].
Qed.

(** Where it reads no command it is as if it were not there: single stepping is off, or
    the time it was told has not come in any of the rounds. *)
Definition quiet_until (d : Debug) (w : W) : Prop := singleStep d = false \/ now w < runUntilTime d.
Lemma debugger_quiet n w d :
  (forall i w', (0 < i <= n)%nat -> rounds OneTick i w = Ok (tt, w') -> quiet_until d w') ->
  debug_rounds n (w, d) = match rounds OneTick n w with Ok (_, w') => Ok (tt, (w', d)) | Stop why => Stop why end.
Proof.
  revert w. induction n as [|n IH]; intros w Hq; [done|]. rewrite rounds_step. cbn [debug_rounds fst snd].
  destruct ((_ ← OneInstruction; OneTick) w) as [[[] w1]|] eqn:E; [|done].
  assert (Hnext : forall i, rounds OneTick (S i) w = rounds OneTick i w1) by (intros i; rewrite rounds_step; by rewrite E).
  assert (Hb : singleStep d && (runUntilTime d <=? now w1) = false).
  { destruct (Hq 1%nat w1 ltac:(lia)) as [->|Hlt]; [by rewrite Hnext|done|]. apply andb_false_iff. right. apply Z.leb_gt. lia. }
  rewrite Hb. apply IH. intros i w' Hi Hr. apply (Hq (S i)); [lia|]. by rewrite Hnext.
Qed.
End Debugger.

(** ** Commands *)

Lemma digit_value_digit d : 0 <= d < 10 -> digit_value (digit d) = Some d.
Proof.
  intros Hd. assert (d = 0 \/ d = 1 \/ d = 2 \/ d = 3 \/ d = 4 \/ d = 5 \/ d = 6 \/ d = 7 \/ d = 8 \/ d = 9) as Hc by lia.
  by destruct_or! Hc; subst d.
Qed.
Lemma decimal_number f n r : (0 < f)%nat -> 0 <= n < 10 ^ Z.of_nat f -> number None (decimal f n ++ r) = number (Some n) r.
Proof.
  revert n r. induction f as [|f IH]; intros n r Hf Hn; [lia|]. rewrite Nat2Z.inj_succ, Z.pow_succ_r in Hn by lia. cbn [decimal].
  pose proof (Z.mod_pos_bound n 10 ltac:(lia)) as Hm. pose proof (Z.div_mod n 10 ltac:(lia)) as Hdm. destruct (Z.ltb_spec n 10) as [Hlt|Hge].
  - cbn [app number]. rewrite digit_value_digit by lia. cbn [default from_option]. rewrite Z.mod_small by lia. done.
  - rewrite <- app_assoc. assert (Hq : 0 < n / 10 < 10 ^ Z.of_nat f) by (split; [apply Z.div_str_pos; lia|apply Z.div_lt_upper_bound; lia]).
    rewrite IH; [|destruct f; [cbn in Hq; lia|lia]|lia]. cbn [app number]. rewrite digit_value_digit by lia. cbn [default from_option id].
    by replace (10 * (n / 10) + n mod 10) with n by lia.
Qed.

(** A digit is not a space, a sign or the end of a line. *)
Definition plain (c : ascii) : bool := negb (is_space c) && negb (Ascii.eqb c newline) && negb (Ascii.eqb c "-"%char) && negb (Ascii.eqb c "+"%char).
Lemma decimal_plain f n : 0 <= n -> Forall (fun c => plain c = true) (decimal f n).
Proof.
  revert n. induction f as [|f IH]; intros n Hn; cbn [decimal]; [constructor|]. apply Forall_app. split.
  - destruct (n <? 10); [constructor|]. apply IH. apply Z.div_pos; lia.
  - constructor; [|constructor]. pose proof (Z.mod_pos_bound n 10 ltac:(lia)) as Hm. revert Hm. generalize (n mod 10). intros d Hd.
    assert (d = 0 \/ d = 1 \/ d = 2 \/ d = 3 \/ d = 4 \/ d = 5 \/ d = 6 \/ d = 7 \/ d = 8 \/ d = 9) as Hc by lia. by destruct_or! Hc; subst d.
Qed.
Lemma length_decimal f n : (length (decimal f n) <= f)%nat.
Proof. revert n. induction f as [|f IH]; intros n; cbn [decimal]; [done|]. rewrite length_app. destruct (n <? 10); [cbn; lia|]. specialize (IH (n / 10)). cbn. lia. Qed.
Lemma decimal_nonempty f n : (0 < f)%nat -> decimal f n <> [].
Proof. destruct f; [lia|]. intros _. cbn [decimal]. by destruct (if n <? 10 then _ else _). Qed.

Lemma get_line_ok n l rest : Forall (fun c => Ascii.eqb c newline = false) l -> (length l < n)%nat ->
  get_line n (l ++ newline :: rest) = (l ++ [newline], rest).
Proof.
  intros Hl. revert n. induction Hl as [|c l Hc _ IH]; intros [|n] Hn; cbn [length] in *; try lia; cbn [app get_line]; [done|].
  rewrite Hc, IH by lia. done.
Qed.

(** [%d] reads what [%d] prints. *)
Lemma sscanf_dec t : is_i32 t -> sscanf_d (dec t ++ [newline]) = Ok (Some t).
Proof.
  intros Ht. unfold is_i32 in Ht. assert (Hr : (- 2 ^ 31 <=? t) && (t <? 2 ^ 31) = true) by (apply andb_true_iff; lia).
  assert (Hend : forall z, number (Some z) [newline] = Some z) by done. unfold sscanf_d, dec. destruct (Z.ltb_spec t 0) as [Hneg|Hpos].
  - change (skip_space (("-"%char :: decimal 10 (- t)) ++ [newline])) with ("-"%char :: (decimal 10 (- t) ++ [newline])). cbv beta iota zeta.
    change (Ascii.eqb "-" "-") with true. cbv iota. rewrite decimal_number, Hend by (cbn; lia). cbn [fmap option_fmap option_map].
    rewrite Z.opp_involutive, Hr. done.
  - pose proof (decimal_plain 10 t ltac:(lia)) as Hp. pose proof (decimal_number 10 t [newline] ltac:(lia) ltac:(cbn; lia)) as Hnum.
    pose proof (decimal_nonempty 10 t ltac:(lia)) as Hne. destruct (decimal 10 t) as [|c l]; [done|]. inversion_clear Hp as [|? ? Hc _].
    unfold plain in Hc. rewrite !andb_true_iff, !negb_true_iff in Hc. destruct Hc as [[[H1 H2] H3] H4]. cbn [app] in *. cbn [skip_space].
    rewrite H1, H3, H4, Hnum, Hend, Hr. done.
Qed.

Lemma dec_line t rest : is_i32 t -> get_line 79 (dec t ++ newline :: rest) = (dec t ++ [newline], rest) /\ dec t <> [].
Proof.
  intros Ht. assert (Hall : forall z, 0 <= z -> Forall (fun c => Ascii.eqb c newline = false) (decimal 10 z)).
  { intros z Hz. eapply Forall_impl; [by apply decimal_plain|]. intros c Hc. unfold plain in Hc. rewrite !andb_true_iff, !negb_true_iff in Hc. tauto. }
  pose proof (length_decimal 10 t) as L1. pose proof (length_decimal 10 (- t)) as L2. unfold dec. destruct (Z.ltb_spec t 0).
  - split; [|done]. apply get_line_ok; [constructor; [done|apply Hall; lia]|cbn [length]; lia].
  - split; [apply get_line_ok; [apply Hall; lia|lia]|by apply decimal_nonempty; lia].
Qed.

(** The command [c] ends single stepping, an empty line runs one instruction, a number
    is the time to run until; at the end of the input the buffer is not set. *)
Lemma debugger_commands {W : Type} `{Host W} (now : W -> Z) interrupts w d rest :
  let out := stdout d ++ interrupts w ++ DumpState (lget machine w) ++ dec (now w) ++ lit "> " in
  (stdin d = "c"%char :: newline :: rest -> Debugger now interrupts w d = Ok (MkDebug false 0 rest out)) /\
  (stdin d = newline :: rest -> Debugger now interrupts w d = Ok (MkDebug (singleStep d) 0 rest out)) /\
  (forall t, is_i32 t -> stdin d = dec t ++ newline :: rest -> Debugger now interrupts w d = Ok (MkDebug (singleStep d) t rest out)) /\
  (stdin d = [] -> Debugger now interrupts w d = Stop Undefined).
Proof.
  intros out. unfold Debugger. split_and!; [intros ->; done|intros ->; done| |intros ->; done].
  intros t Ht ->. destruct (dec_line t rest Ht) as [Hline Hne]. unfold fgets.
  destruct (dec t ++ newline :: rest) as [|c l] eqn:E; [by destruct (dec t)|]. change (80 - 1)%nat with 79%nat. rewrite Hline.
  by rewrite (sscanf_dec t Ht).
Qed.
