(* ===== verification/Listing.v ===== *)
(** * The lister of object files: [bin/out.c]

    [out] prints the sections of a COFF file word by word, the code disassembled, with the
    relocation of each word in a column of its own.  The headers of the host that give
    the layout of the file are not in the repository; the model starts from what [main]
    has read.  What is shown is that a section is listed line by line, and that the
    relocations are lined up. *)

From Stdlib Require Import Ascii.
From S2P Require Import Prelude Machine Paging Mips MipsFacts MipsAlu Interp Disasm Debugger.

#[local] Open Scope Z_scope.

(** ** What [main] has read *)

(** [struct reloc], and a section: its header's name, size and address, with [struct data]. *)
Record reloc : Type := MkReloc { r_vaddr : Z; r_symndx : Z; r_type : Z; r_extern : bool }.
Record section : Type := MkSection { s_name : text; s_size : Z; s_vaddr : Z; data : list Z; relocs : list reloc }.

Definition MAXSYMS : Z := 300.

(** [SYMR]: the value, the type, the storage class and the place of the name of a symbol.
    The symbols that were read, at most [MAXSYMS], and [sspace]; the others are zero. *)
Record SYMR : Type := MkSym { value : Z; st : Z; sc : Z; iss : Z }.
Record symbol_table : Type := MkSymtab { symbols : list SYMR; sspace : text }.
Definition no_symbol : SYMR := MkSym 0 0 0 0.
(** The string at a position. *)
Fixpoint c_string (l : text) : text :=
  match l with c :: l => if Ascii.eqb c Ascii.zero then [] else c :: c_string l | [] => [] end.
Definition string_at (t : symbol_table) (i : Z) : text := c_string (drop (Z.to_nat i) (sspace t)).
Definition symbol_name (t : symbol_table) (i : Z) : text := string_at t (iss (default no_symbol (symbols t !! Z.to_nat i))).

Definition section_name : list string :=
  ["(null)"; ".text"; ".rdata"; ".data"; ".sdata"; ".sbss"; ".bss"; ".init"; ".lit8"; ".lit4"]%string.
Definition symbol_type : list string :=
  ["Nil"; "Global"; "Static"; "Param"; "Local"; "Label"; "Proc"; "Block"; "End"; "Member"; "Type"; "File"; "Register"; "Forward";
   "StaticProc"; "Constant"]%string.
Definition storage_class : list string :=
  ["Nil"; "Text"; "Data"; "Bss"; "Register"; "Abs"; "Undefined"; "CdbLocal"; "Bits"; "CdbSystem"; "RegImage"; "Info"; "UserStruct";
   "SData"; "SBss"; "RData"; "Var"; "Common"; "SCommon"; "VarRegister"; "Variant"; "SUndefined"; "Init"]%string.
Definition reloc_type : list string := ["abs"; "16"; "32"; "26"; "hi16"; "lo16"; "gpdata"; "gplit"]%string.

(** ** Output by columns *)

Record Out : Type := MkOut { column : Z; outfile : text }.

(** The loop of [myprintf] over the characters. *)
Fixpoint advance (c : Z) (t : text) : Z :=
  match t with
  | [] => c
  | x :: t =>
      advance (if Ascii.eqb x newline then 1 else if Ascii.eqb x tab then Z.land (c + 7) (Z.lnot 7) + 1 else c + 1) t
  end.
(** [myprintf] of a text that fits its buffer of 100 characters. *)
Definition myprintf (t : text) : M Out unit := fun o =>
  if (length t <? 100)%nat then Ok (tt, MkOut (advance (column o) t) (outfile o ++ t)) else Stop Undefined.
(** Several calls, each of which prints a few characters. *)
Definition emit (t : text) : M Out unit := modify (fun o => MkOut (advance (column o) t) (outfile o ++ t)).

Fixpoint mytab_loop (fuel : nat) (n : Z) : M Out unit := fun o =>
  if column o <? n then
    match fuel with O => Stop OutOfFuel | S fuel => mytab_loop fuel n (MkOut (column o + 1) (outfile o ++ [" "%char])) end
  else Ok (tt, o).
Definition mytab (n : Z) : M Out bool := _ ← mytab_loop (Z.to_nat n) n; gets (fun o => column o =? n).

(** ** [print_reloc], [print_section] *)

Definition name_of (l : list string) (i : Z) : M Out text := s ← lift (aget l i); mret (lit s).
Fixpoint print_reloc (st : symbol_table) (vaddr : Z) (l : list reloc) : M Out unit :=
  match l with
  | [] => myprintf [newline]
  | rp :: l =>
      if vaddr =? r_vaddr rp then
        _ ← mytab 57;
        _ ← (if r_extern rp then
               if MAXSYMS <=? r_symndx rp then myprintf (lit "sym $" ++ dec (r_symndx rp))
               else myprintf ("034"%char :: symbol_name st (r_symndx rp) ++ ["034"%char])
             else n ← name_of section_name (r_symndx rp); myprintf n);
        n ← name_of reloc_type (r_type rp);
        _ ← myprintf (" "%char :: n);
        myprintf [newline]
      else print_reloc st vaddr l
  end.

(** The characters of a word, first byte first. *)
Definition printable (b : Z) : ascii := if (32 <=? b) && (b <? 127) then Ascii.ascii_of_nat (Z.to_nat b) else "."%char.
Definition data_text (pc word : Z) : text :=
  hex8 pc ++ lit ": " ++ hex8 word ++ lit "  " ++ (printable <$> le_bytes 4 word) ++ tab :: dec word.
Definition is_text (s : section) : bool := bool_decide (take 5 (s_name s) = lit ".text").
Definition word_text (s : section) (pc word : Z) : text := if is_text s then dump_ascii true word pc else data_text pc word.
Fixpoint print_words (st : symbol_table) (s : section) (pc : Z) (l : list Z) : M Out unit :=
  match l with
  | [] => mret tt
  | word :: l => _ ← emit (word_text s pc word); _ ← print_reloc st pc (relocs s); print_words st s (pc + 4) l
  end.
Definition header_text (s : section) : text :=
  lit "Section: " ++ s_name s ++ tab :: dec (s_size s) ++ "/"%char :: dec (Z.of_nat (length (relocs s))) ++ [newline].
Definition print_section (st : symbol_table) (s : section) : M Out unit :=
  _ ← myprintf (header_text s); print_words st s (s_vaddr s) (data s).

(** The loops at the end of [main]: the sections, then the symbols; [scUndefined] is the
    class 6. *)
Definition scUndefined : Z := 6.
Fixpoint print_sections (st : symbol_table) (l : list section) : M Out unit :=
  match l with [] => mret tt | s :: l => _ ← print_section st s; print_sections st l end.
Fixpoint print_symbols (t : symbol_table) (l : list SYMR) : M Out unit :=
  match l with
  | [] => mret tt
  | sym :: l =>
      _ ← (if sc sym =? scUndefined then myprintf (tab :: lit " ") else myprintf (hex8 (value sym) ++ lit " "));
      n ← name_of symbol_type (st sym); _ ← myprintf n;
      _ ← mytab 25;
      n ← name_of storage_class (sc sym); _ ← myprintf n;
      _ ← mytab 41;
      _ ← myprintf (string_at t (iss sym) ++ [newline]);
      print_symbols t l
  end.
(** The heading is printed with [printf] itself, which does not count columns. *)
Definition heading : text :=
  lit "External Symbols:" ++ [newline] ++ lit "Value" ++ tab :: lit " Type" ++ tab :: tab :: lit "Storage Class" ++ tab :: lit "Name" ++ [newline].
Definition print_file (t : symbol_table) (l : list section) : M Out unit :=
  _ ← print_sections t l;
  _ ← modify (fun o => MkOut (column o) (outfile o ++ heading));
  print_symbols t (symbols t).

(** ** The listing *)

(** The text of a relocation, the first one for an address, and a line: the word's text
    and, from column 57 on, its relocation. *)
Definition reloc_target (st : symbol_table) (rp : reloc) : text :=
  if r_extern rp then
    if MAXSYMS <=? r_symndx rp then lit "sym $" ++ dec (r_symndx rp) else "034"%char :: symbol_name st (r_symndx rp) ++ ["034"%char]
  else name_at section_name (r_symndx rp).
Definition reloc_text (st : symbol_table) (rp : reloc) : text := reloc_target st rp ++ " "%char :: name_at reloc_type (r_type rp).
Definition reloc_at (pc : Z) (l : list reloc) : option reloc := head (filter (fun rp => r_vaddr rp = pc) l).
Definition line (st : symbol_table) (s : section) (pc word : Z) : text :=
  let t := word_text s pc word in
  t ++ match reloc_at pc (relocs s) with
       | Some rp => replicate (Z.to_nat (57 - advance 1 t)) " "%char ++ reloc_text st rp
       | None => []
       end ++ [newline].
Fixpoint lines (st : symbol_table) (s : section) (pc : Z) (l : list Z) : text :=
  match l with [] => [] | word :: l => line st s pc word ++ lines st s (pc + 4) l end.

Definition pad_to (n : Z) (t : text) : text := t ++ replicate (Z.to_nat (n - advance 1 t)) " "%char.
Definition symbol_line (t : symbol_table) (sym : SYMR) : text :=
  let value := if sc sym =? scUndefined then tab :: lit " " else hex8 (value sym) ++ lit " " in
  pad_to 41 (pad_to 25 (value ++ name_at symbol_type (st sym)) ++ name_at storage_class (sc sym)) ++ string_at t (iss sym) ++ [newline].

(** A symbol that can be printed. *)
Record symbol_ok (t : symbol_table) (sym : SYMR) : Prop := {
  so_type : 0 <= st sym < 16;
  so_class : 0 <= sc sym < 23;
  so_name : (length (string_at t (iss sym)) < 99)%nat
}.

(** A relocation that can be printed: its names exist and fit [myprintf]'s buffer. *)
Record reloc_ok (st : symbol_table) (rp : reloc) : Prop := {
  ro_type : 0 <= r_type rp < 8;
  ro_section : r_extern rp = false -> 0 <= r_symndx rp < 10;
  ro_fits : (length (reloc_target st rp) < 100)%nat
}.

Lemma advance_app c a b : advance c (a ++ b) = advance (advance c a) b.
Proof. revert c. induction a as [|x a IH]; intros c; [done|]. cbn [app advance]. apply IH. Qed.
Lemma advance_line c t : advance c (t ++ [newline]) = 1.
Proof. by rewrite advance_app. Qed.
Lemma advance_spaces c n : advance c (replicate n " "%char) = c + Z.of_nat n.
Proof. revert c. induction n as [|n IH]; intros c; cbn [replicate advance]; [lia|]. rewrite IH. cbn. lia. Qed.

Lemma myprintf_ok t o : (length t < 100)%nat -> myprintf t o = Ok (tt, MkOut (advance (column o) t) (outfile o ++ t)).
Proof. intros Ht. unfold myprintf. by rewrite (proj2 (Nat.ltb_lt _ _) Ht). Qed.

(** [mytab] pads with blanks, and tells whether the column could be reached. *)
Lemma mytab_loop_ok fuel n o : n - column o <= Z.of_nat fuel ->
  mytab_loop fuel n o = Ok (tt, MkOut (Z.max (column o) n) (outfile o ++ replicate (Z.to_nat (n - column o)) " "%char)).
Proof.
  revert o. induction fuel as [|fuel IH]; intros [c t] Hf; cbn [mytab_loop column outfile] in *; destruct (Z.ltb_spec c n) as [Hlt|Hge]; try lia.
  - rewrite Z.max_l by lia. replace (Z.to_nat (n - c)) with 0%nat by lia. by rewrite app_nil_r.
  - rewrite IH by (cbn [column]; lia). cbn [column outfile]. rewrite !Z.max_r by lia.
    replace (Z.to_nat (n - c)) with (S (Z.to_nat (n - (c + 1)))) by lia. by rewrite <- app_assoc.
  - rewrite Z.max_l by lia. replace (Z.to_nat (n - c)) with 0%nat by lia. by rewrite app_nil_r.
Qed.
Lemma mytab_ok n o : 0 <= column o -> mytab n o =
  Ok (column o <=? n, MkOut (Z.max (column o) n) (outfile o ++ replicate (Z.to_nat (n - column o)) " "%char)).
Proof.
  intros Hc. unfold mytab. rewrite (bind_ok _ _ _ _ _ (mytab_loop_ok (Z.to_nat n) n o ltac:(lia))). unfold gets. cbn [column].
  do 2 f_equal. apply eq_bool_prop_intro. rewrite !Is_true_true. lia.
Qed.

Lemma advance_pos c t : 1 <= c -> 1 <= advance c t.
Proof.
  revert c. induction t as [|x t IH]; intros c Hc; [done|]. cbn [advance]. apply IH. destruct (Ascii.eqb x newline); [lia|].
  destruct (Ascii.eqb x tab); [|lia]. assert (H7 : 0 <= c + 7) by lia.
  pose proof (proj2 (Z.land_nonneg (c + 7) (Z.lnot 7)) (or_introl H7)) as Hl. revert Hl. generalize (Z.land (c + 7) (Z.lnot 7)). lia.
Qed.

Lemma name_of_ok l i o : 0 <= i < Z.of_nat (length l) -> name_of l i o = Ok (name_at l i, o).
Proof.
  intros Hi. destruct (lookup_lt_is_Some_2 l (Z.to_nat i) ltac:(lia)) as [x Hx]. unfold name_of.
  rewrite (bind_ok _ _ _ _ _ (lift_ok _ _ _ (proj2 (aget_Some l i x) (conj (proj1 Hi) Hx)))). unfold name_at. by rewrite Hx.
Qed.
Lemma names_short l i : forallb (fun x => length (lit x) <? 99)%nat l = true -> (length (name_at l i) < 99)%nat.
Proof.
  intros Hall. unfold name_at. destruct (l !! Z.to_nat i) as [x|] eqn:E; [|cbn; lia]. cbn [default from_option id].
  rewrite forallb_forall in Hall. apply Nat.ltb_lt, Hall, list_elem_of_In. by eapply list_elem_of_lookup_2.
Qed.

Lemma print_target_ok st rp o : reloc_ok st rp ->
  (if r_extern rp then
     if MAXSYMS <=? r_symndx rp then myprintf (lit "sym $" ++ dec (r_symndx rp))
     else myprintf ("034"%char :: symbol_name st (r_symndx rp) ++ ["034"%char])
   else n ← name_of section_name (r_symndx rp); myprintf n) o =
  Ok (tt, MkOut (advance (column o) (reloc_target st rp)) (outfile o ++ reloc_target st rp)).
Proof.
  intros [H1 H2 H3]. unfold reloc_target in *. destruct (r_extern rp); [by destruct (MAXSYMS <=? r_symndx rp); apply myprintf_ok|].
  rewrite (bind_ok _ _ _ _ _ (name_of_ok section_name (r_symndx rp) o (H2 eq_refl))). by apply myprintf_ok.
Qed.

Lemma print_reloc_ok st pc l o : Forall (reloc_ok st) l -> 1 <= column o ->
  print_reloc st pc l o = Ok (tt, MkOut 1 (outfile o ++
    match reloc_at pc l with Some rp => replicate (Z.to_nat (57 - column o)) " "%char ++ reloc_text st rp | None => [] end ++ [newline])).
Proof.
  intros Hl Ho. induction Hl as [|rp l Hrp _ IH]; [done|]. cbn [print_reloc]. unfold reloc_at. rewrite filter_cons.
  destruct (Z.eqb_spec pc (r_vaddr rp)) as [->|Hne]; [|by rewrite decide_False]. rewrite decide_True by done. cbn [head].
  rewrite (bind_ok _ _ _ _ _ (mytab_ok 57 o ltac:(lia))). rewrite (bind_ok _ _ _ _ _ (print_target_ok st rp _ Hrp)). cbn [column outfile].
  rewrite (bind_ok _ _ _ _ _ (name_of_ok reloc_type (r_type rp) _ (ro_type _ _ Hrp))).
  assert (Ht : (length (" "%char :: name_at reloc_type (r_type rp)) < 100)%nat) by (pose proof (names_short reloc_type (r_type rp) eq_refl); cbn [length]; lia).
  rewrite (bind_ok _ _ _ _ _ (myprintf_ok _ _ Ht)). cbn [column outfile].
  rewrite myprintf_ok by (cbn; lia). cbn [column outfile]. do 2 f_equal.
  unfold reloc_text. f_equal. by rewrite <- !app_assoc.
Qed.

Lemma print_words_ok st s pc l o : Forall (reloc_ok st) (relocs s) -> column o = 1 ->
  print_words st s pc l o = Ok (tt, MkOut 1 (outfile o ++ lines st s pc l)).
Proof.
  intros Hr. revert pc o. induction l as [|word l IH]; intros pc [c t] Hc; cbn [column] in Hc; subst c; cbn [print_words lines].
  { unfold mret, M_ret. by rewrite app_nil_r. }
  erewrite bind_ok by reflexivity. cbn [column outfile].
  rewrite (bind_ok _ _ _ _ _ (print_reloc_ok st pc (relocs s) (MkOut (advance 1 (word_text s pc word)) (t ++ word_text s pc word)) Hr (advance_pos 1 _ (Z.le_refl 1)))). cbn [column outfile].
  rewrite IH by done. cbn [outfile]. do 3 f_equal. unfold line. by rewrite <- !app_assoc.
Qed.

(** A section is listed line by line: its header, then for each of its words one line
    with the word's text and, from column 57 on, its first relocation; when it is done
    the next section starts in column 1. *)
Lemma section_listed st s o :
  column o = 1 -> (length (header_text s) < 100)%nat -> Forall (reloc_ok st) (relocs s) ->
  print_section st s o = Ok (tt, MkOut 1 (outfile o ++ header_text s ++ lines st s (s_vaddr s) (data s))).
Proof.
  intros Hc Hh Hr. unfold print_section. rewrite (bind_ok _ _ _ _ _ (myprintf_ok _ o Hh)).
  rewrite print_words_ok; [|done|]; cbn [outfile column].
  - by rewrite <- app_assoc.
  - unfold header_text. rewrite !app_comm_cons, !app_assoc. apply advance_line.
Qed.

(** [mytab] after a text. *)
Lemma mytab_pad n t f : 1 <= advance 1 t -> mytab n (MkOut (advance 1 t) (f ++ t)) =
  Ok (advance 1 t <=? n, MkOut (advance 1 (pad_to n t)) (f ++ pad_to n t)).
Proof.
  intros Ht. rewrite mytab_ok by (cbn [column]; lia). cbn [column outfile]. unfold pad_to. rewrite advance_app, advance_spaces, <- app_assoc.
  do 2 f_equal. f_equal. lia.
Qed.
Lemma myprintf_after t u f : (length t < 100)%nat -> myprintf t (MkOut (advance 1 u) (f ++ u)) = Ok (tt, MkOut (advance 1 (u ++ t)) (f ++ u ++ t)).
Proof. intros Ht. rewrite myprintf_ok by done. cbn [column outfile]. by rewrite advance_app, <- app_assoc. Qed.

Lemma print_symbols_ok t l o : Forall (symbol_ok t) l -> column o = 1 ->
  print_symbols t l o = Ok (tt, MkOut 1 (outfile o ++ (l ≫= symbol_line t))).
Proof.
  intros Hl. revert o. induction Hl as [|sym l [H1 H2 H3] _ IH]; intros [c f] Hc; cbn [column] in Hc; subst c; cbn [print_symbols].
  { unfold mret, M_ret. cbn [outfile mbind list_bind]. by rewrite app_nil_r. }
  set (value := if sc sym =? scUndefined then tab :: lit " " else hex8 (value sym) ++ lit " ").
  assert (Hv : (if sc sym =? scUndefined then myprintf (tab :: lit " ") else myprintf (hex8 (Listing.value sym) ++ lit " ")) (MkOut 1 f) =
    Ok (tt, MkOut (advance 1 value) (f ++ value))) by (unfold value; destruct (sc sym =? scUndefined); apply myprintf_ok; [cbn; lia|rewrite length_app; unfold hex8; rewrite length_fmap; cbn; lia]).
  rewrite (bind_ok _ _ _ _ _ Hv), (bind_ok _ _ _ _ _ (name_of_ok symbol_type (st sym) _ H1)).
  rewrite (bind_ok _ _ _ _ _ (myprintf_after _ _ _ (Nat.lt_lt_succ_r _ _ (names_short symbol_type (st sym) eq_refl)))).
  rewrite (bind_ok _ _ _ _ _ (mytab_pad 25 _ _ (advance_pos 1 _ (Z.le_refl 1)))).
  rewrite (bind_ok _ _ _ _ _ (name_of_ok storage_class (sc sym) _ H2)).
  rewrite (bind_ok _ _ _ _ _ (myprintf_after _ _ _ (Nat.lt_lt_succ_r _ _ (names_short storage_class (sc sym) eq_refl)))).
  rewrite (bind_ok _ _ _ _ _ (mytab_pad 41 _ _ (advance_pos 1 _ (Z.le_refl 1)))).
  assert (Hn : (length (string_at t (iss sym) ++ [newline]) < 100)%nat) by (rewrite length_app; cbn [length]; lia).
  rewrite (bind_ok _ _ _ _ _ (myprintf_after _ _ _ Hn)). rewrite app_assoc, advance_line, IH by done. cbn [outfile].
  rewrite bind_cons. do 2 f_equal. f_equal. unfold symbol_line. fold value. by rewrite <- !app_assoc.
Qed.

(** The whole file: the listings of its sections one after the other, the heading, and
    a line for each symbol with its type from column 10, its class from column 25 and its
    name from column 41 on. *)
Lemma file_listed t l :
  Forall (fun s => (length (header_text s) < 100)%nat /\ Forall (reloc_ok t) (relocs s)) l -> Forall (symbol_ok t) (symbols t) ->
  print_file t l (MkOut 1 []) =
    Ok (tt, MkOut 1 ((l ≫= fun s => header_text s ++ lines t s (s_vaddr s) (data s)) ++ heading ++ (symbols t ≫= symbol_line t))).
Proof.
  intros Hl Hs. unfold print_file.
  assert (Hrun : forall o, column o = 1 -> print_sections t l o =
    Ok (tt, MkOut 1 (outfile o ++ (l ≫= fun s => header_text s ++ lines t s (s_vaddr s) (data s))))).
  { clear Hs. induction Hl as [|s l [Hh Hr] _ IH]; intros [c f] Hc; cbn [column] in Hc; subst c; cbn [print_sections].
    - unfold mret, M_ret. cbn [outfile mbind list_bind]. by rewrite app_nil_r.
    - rewrite (bind_ok _ _ _ _ _ (section_listed t s (MkOut 1 f) eq_refl Hh Hr)), IH by done. cbn [outfile]. by rewrite bind_cons, <- !app_assoc. }
  rewrite (bind_ok _ _ _ _ _ (Hrun (MkOut 1 []) eq_refl)). erewrite bind_ok by reflexivity. cbn [outfile column app].
  rewrite print_symbols_ok by done. cbn [outfile]. by rewrite <- app_assoc.
Qed.
