(* ===== verification/SynchDisk.v ===== *)
(** * [filesys/synchdisk.cc] on the kernel: the disk the file system uses

    [SynchDisk] turns the disk, which reports completion by an interrupt, into one
    whose requests return when they are done.  Here the calls run on the model of
    the kernel, through the lock, the disk, the semaphore the caller sleeps on, the
    idle loop and the interrupt, and are proved to implement the interface
    [SectorDisk] the file system is verified against. *)

From S2P Require Import Prelude NList Sectors Disk Kernel.

(** [SynchDisk::SynchDisk]: semaphore 0 and lock 0, whose semaphore is 1, are the
    disk's; no timer is started. *)
Definition disk_config : Config := MkConfig false false 0 0.

(** Run the kernel on a state given field by field: unfold the code, look up the
    thread and the two semaphores. *)
Ltac unfold_kernel := lazy beta iota zeta delta
  [step gets thread put_thread modify exec call push with_thread mbind mret M_bind M_ret get
   set_tstatus set_stack set_frames set_buf set_level set_pending set_inHandler set_yieldOnReturn set_status
   set_totalTicks set_idleTicks set_systemTicks set_numDiskReads set_numDiskWrites set_threads set_currentThread
   set_threadToBeDestroyed set_readyList set_sems set_locks set_interrupt set_stats set_disk
   Kernel.tid priority tstatus stack frames buf value queue initial downs ups woken sema holdingThread level
   pending inHandler yieldOnReturn status totalTicks idleTicks systemTicks userTicks numDiskReads numDiskWrites
   threads nextThread currentThread threadToBeDestroyed ThreadIDOccupied thread_poiners readyList lastSwitchTime
   sems locks conds interrupt stats disk draws disk_config disk_sem disk_lock randomYield roundingSlice
   Acquire lock P SetLevelOff ChangeLevel PLoop sem put_sem SetLevel ASSERT halt OneTick CheckAllDue check_due
   CheckIfDue put_pending Lists.sorted_remove SetHolder put_holder Lists.append Sleep SleepLoop FindNextToRun
   Lists.remove Idle set_machine_status Lists.sorted_insert fire run_handler handler V_in_handler V_body ReadyToRun
   option_list Run CheckOverflow AfterRun STACK_FENCEPOST Release V disk_read disk_write Schedule zoom lget lset ReadRequest WriteRequest
   app length negb andb orb when type Lists.is_empty snd fst Z.eqb Pos.eqb].

Ltac kernel_step := repeat first
  [ rewrite lookup_insert_eq | rewrite insert_insert_eq | progress unfold_kernel
  | rewrite bool_decide_true by done | rewrite bool_decide_false by done
  | match goal with
    | |- context [(?x :: ?l) !! 0%nat] => change ((x :: l) !! 0%nat) with (Some x)
    | |- context [(?x :: ?y :: ?l) !! 1%nat] => change ((x :: y :: l) !! 1%nat) with (Some y)
    | |- context [<[0%nat := ?z]> (?x :: ?l)] => change (<[0%nat := z]> (x :: l)) with (z :: l)
    | |- context [<[1%nat := ?z]> (?x :: ?y :: ?l)] => change (<[1%nat := z]> (x :: y :: l)) with (x :: z :: l)
    | H : ?b = true |- context [?b] => rewrite H
    | H : ?b = false |- context [?b] => rewrite H
    end ].

Section Calls.
Context (Random : nat -> Z).

(** Run the kernel until thread [t] is running with [depth] frames on its stack. *)
Fixpoint run_until (n : nat) (t depth : nat) : M Kernel unit := fun k =>
  match threads k !! t with
  | Some T =>
      if bool_decide (currentThread k = t) && bool_decide (length (frames T) = depth) then Ok (tt, k)
      else match n with
           | O => Stop OutOfFuel
           | S n => match step Random disk_config k with Ok (_, k) => run_until n t depth k | Stop w => Stop w end
           end
  | None => Stop Undefined
  end.

(** The current thread makes a call and the kernel runs until it has returned. *)
Definition call_and_wait (o : op) : M Kernel unit :=
  t ← gets currentThread;
  T ← thread t;
  _ ← push [FOp o];
  run_until 32 t (length (frames T)).

(** [SynchDisk::ReadSector], [SynchDisk::WriteSector]. *)
Definition synch_read (s : Z) : M Kernel (list Z) :=
  _ ← call_and_wait (OpReadSector s);
  t ← gets currentThread;
  T ← thread t;
  mret (buf T).
Definition synch_write (s : Z) (data : list Z) : M Kernel unit := call_and_wait (OpWriteSector s data).

(** ** The kernel during a request *)

Section States.
Context (t : nat) (id pr : Z) (stk : option Z) (m : gmap nat Thread) (nt : nat).
Context (occ : list bool) (ptrs : list (option nat)) (lst : Z).
Context (ss : list Semaphore) (ls : list Lock) (cs : list (list (Z * nat))) (dn : nat).

(** Thread [t] runs, no other thread is ready; [s0] and [s1] are the semaphores of
    the disk and of its lock. *)
Definition busy (fs : list frame) (b : list Z) (st : ThreadStatus) (lv : IntStatus)
    (pend : list (Z * PendingInterrupt)) (rl : list (Z * nat)) (s0 s1 : Semaphore) (h : option nat)
    (tk : Statistics) (d : Disk) : Kernel :=
  MkKernel (<[t := MkThread id pr st stk fs b]> m) nt t None occ ptrs rl lst (s0 :: s1 :: ss) (MkLock 1 h :: ls) cs
    (MkInterrupt lv pend false false SystemMode) tk d dn.

#[local] Abbreviation step := (step Random disk_config).

(** One tick of system time, and idle time up to [w]. *)
Definition ticked (tk : Statistics) : Statistics :=
  set_totalTicks (totalTicks tk + SystemTick) (set_systemTicks (systemTicks tk + SystemTick) tk).
Definition waited (w : Z) (tk : Statistics) : Statistics :=
  set_totalTicks w (set_idleTicks (idleTicks tk + (w - totalTicks tk)) tk).

Section Steps.
Context (fs : list frame) (b : list Z) (s0 s1 : Semaphore) (h : option nat) (tk : Statistics) (d : Disk).

Lemma step_acquire :
  step (busy (FOp (OpAcquire 0) :: fs) b RUNNING IntOn [] [] s0 s1 h tk d) =
  Ok (tt, busy (FPLoop 1 :: FSetLevel IntOn :: FSetHolder 0 :: fs) b RUNNING IntOff [] [] s0 s1 h tk d).
Proof. unfold busy. kernel_step. reflexivity. Qed.

Lemma step_lock_free i n u w :
  step (busy (FPLoop 1 :: fs) b RUNNING IntOff [] [] s0 (MkSem 1 [] i n u w) h tk d) =
  Ok (tt, busy fs b RUNNING IntOff [] [] s0 (MkSem 0 [] i (n + 1) u (filter (fun x => x <> t) w)) h tk d).
Proof. unfold busy. kernel_step. reflexivity. Qed.

Lemma step_enable :
  step (busy (FSetLevel IntOn :: fs) b RUNNING IntOff [] [] s0 s1 h tk d) =
  Ok (tt, busy fs b RUNNING IntOn [] [] s0 s1 h (ticked tk) d).
Proof. unfold busy. kernel_step. reflexivity. Qed.

Lemma step_holder :
  step (busy (FSetHolder 0 :: fs) b RUNNING IntOn [] [] s0 s1 h tk d) =
  Ok (tt, busy fs b RUNNING IntOn [] [] s0 s1 (Some t) tk d).
Proof. unfold busy. kernel_step. reflexivity. Qed.

Lemma step_read_request s :
  active d = false -> (0 <=? s) = true -> (s <? NumSectors) = true ->
  (0 <? ComputeLatency (totalTicks tk) d s false) = true ->
  let w := totalTicks tk + ComputeLatency (totalTicks tk) d s false in
  step (busy (FReadRequest s :: fs) b RUNNING IntOn [] [] s0 s1 h tk d) =
  Ok (tt, busy fs (sector (backing d) s) RUNNING IntOn [(w, MkPend DiskDone w DiskInt)] [] s0 s1 h
            (set_numDiskReads (numDiskReads tk + 1) tk)
            (UpdateLast (totalTicks tk) s (MkDisk (backing d) true (lastSector d) (bufferInit d)))).
Proof. intros Ha Hs Hs' Hl w. destruct tk as [n1 n2 n3 n4 n5 n6]. cbn [totalTicks] in *. unfold busy. kernel_step. reflexivity. Qed.

Lemma step_write_request s data :
  active d = false -> (0 <=? s) = true -> (s <? NumSectors) = true ->
  (0 <? ComputeLatency (totalTicks tk) d s true) = true ->
  let w := totalTicks tk + ComputeLatency (totalTicks tk) d s true in
  step (busy (FWriteRequest s data :: fs) b RUNNING IntOn [] [] s0 s1 h tk d) =
  Ok (tt, busy fs b RUNNING IntOn [(w, MkPend DiskDone w DiskInt)] [] s0 s1 h
            (set_numDiskWrites (numDiskWrites tk + 1) tk)
            (UpdateLast (totalTicks tk) s (MkDisk (update s data (backing d)) true (lastSector d) (bufferInit d)))).
Proof. intros Ha Hs Hs' Hl w. destruct tk as [n1 n2 n3 n4 n5 n6]. cbn [totalTicks] in *. unfold busy. kernel_step. reflexivity. Qed.

(** A request outside the disk. *)
Lemma step_bad_read s : (0 <=? s) && (s <? NumSectors) = false ->
  step (busy (FReadRequest s :: fs) b RUNNING IntOn [] [] s0 s1 h tk d) = Stop AssertFailed.
Proof.
  intros Hs. destruct (active d) eqn:Ha; [unfold busy; kernel_step; reflexivity|].
  destruct (0 <=? s) eqn:E1; [|unfold busy; kernel_step; reflexivity]. cbn [andb] in Hs. unfold busy. kernel_step. reflexivity.
Qed.
Lemma step_bad_write s data : (0 <=? s) && (s <? NumSectors) = false ->
  step (busy (FWriteRequest s data :: fs) b RUNNING IntOn [] [] s0 s1 h tk d) = Stop AssertFailed.
Proof.
  intros Hs. destruct (active d) eqn:Ha; [unfold busy; kernel_step; reflexivity|].
  destruct (0 <=? s) eqn:E1; [|unfold busy; kernel_step; reflexivity]. cbn [andb] in Hs. unfold busy. kernel_step. reflexivity.
Qed.

Section Waiting.
Context (w : Z).
#[local] Abbreviation due := [(w, MkPend DiskDone w DiskInt)].

Lemma step_wait :
  step (busy (FOp (OpP 0) :: fs) b RUNNING IntOn due [] s0 s1 h tk d) =
  Ok (tt, busy (FPLoop 0 :: FSetLevel IntOn :: fs) b RUNNING IntOff due [] s0 s1 h tk d).
Proof. unfold busy. kernel_step. reflexivity. Qed.

Lemma step_sleep i n u wk :
  step (busy (FPLoop 0 :: fs) b RUNNING IntOff due [] (MkSem 0 [] i n u wk) s1 h tk d) =
  Ok (tt, busy (FSleepLoop :: FPLoop 0 :: fs) b BLOCKED IntOff due []
            (MkSem 0 [(0, t)] i n u (filter (fun x => x <> t) wk)) s1 h tk d).
Proof. unfold busy. kernel_step. reflexivity. Qed.

(** The idle loop advances the clock to the interrupt, which wakes the thread. *)
Lemma step_idle i n u wk : (totalTicks tk <? w) = true ->
  step (busy (FSleepLoop :: fs) b BLOCKED IntOff due [] (MkSem 0 [(0, t)] i n u wk) s1 h tk d) =
  Ok (tt, busy (FSleepLoop :: fs) b READY IntOff [] [(pr, t)] (MkSem 1 [] i n (u + 1) (wk ++ [t])) s1 h (waited w tk)
            (HandleInterrupt d)).
Proof. intros Hw. destruct tk as [n1 n2 n3 n4 n5 n6]. cbn [totalTicks] in *. unfold busy. kernel_step. reflexivity. Qed.
End Waiting.

Lemma step_dispatch : (stk = None \/ stk = Some STACK_FENCEPOST) ->
  step (busy (FSleepLoop :: fs) b READY IntOff [] [(pr, t)] s0 s1 h tk d) =
  Ok (tt, busy (FAfterRun :: fs) b RUNNING IntOff [] [] s0 s1 h tk d).
Proof. intros [Hs|Hs]; unfold busy; rewrite Hs; kernel_step; reflexivity. Qed.

Lemma step_resume :
  step (busy (FAfterRun :: fs) b RUNNING IntOff [] [] s0 s1 h tk d) = Ok (tt, busy fs b RUNNING IntOff [] [] s0 s1 h tk d).
Proof. unfold busy. kernel_step. reflexivity. Qed.

Lemma step_done i n u wk :
  step (busy (FPLoop 0 :: fs) b RUNNING IntOff [] [] (MkSem 1 [] i n u wk) s1 h tk d) =
  Ok (tt, busy fs b RUNNING IntOff [] [] (MkSem 0 [] i (n + 1) u (filter (fun x => x <> t) wk)) s1 h tk d).
Proof. unfold busy. kernel_step. reflexivity. Qed.

Lemma step_release i n u wk :
  step (busy (FOp (OpRelease 0) :: fs) b RUNNING IntOn [] [] s0 (MkSem 0 [] i n u wk) h tk d) =
  Ok (tt, busy (FSetLevel IntOn :: fs) b RUNNING IntOff [] [] s0 (MkSem 1 [] i n (u + 1) (wk ++ [])) None tk d).
Proof. unfold busy. kernel_step. reflexivity. Qed.
End Steps.

(** ** A whole request *)

Section Runs.
Context (fs : list frame).

Lemma until_step n f fr b st lv pend rl s0 s1 h tk d k' :
  length (f :: fr) <> length fs -> step (busy (f :: fr) b st lv pend rl s0 s1 h tk d) = Ok (tt, k') ->
  run_until (S n) t (length fs) (busy (f :: fr) b st lv pend rl s0 s1 h tk d) = run_until n t (length fs) k'.
Proof.
  intros Hne Hs. cbn [run_until]. unfold busy at 1. cbn [threads]. rewrite lookup_insert_eq. cbn [frames].
  rewrite (bool_decide_false _ Hne), andb_false_r. by rewrite Hs.
Qed.

Lemma until_stop n f fr b st lv pend rl s0 s1 h tk d w :
  length (f :: fr) <> length fs -> step (busy (f :: fr) b st lv pend rl s0 s1 h tk d) = Stop w ->
  run_until (S n) t (length fs) (busy (f :: fr) b st lv pend rl s0 s1 h tk d) = Stop w.
Proof.
  intros Hne Hs. cbn [run_until]. unfold busy at 1. cbn [threads]. rewrite lookup_insert_eq. cbn [frames].
  rewrite (bool_decide_false _ Hne), andb_false_r. by rewrite Hs.
Qed.

Lemma until_done n b st lv pend rl s0 s1 h tk d :
  run_until n t (length fs) (busy fs b st lv pend rl s0 s1 h tk d) = Ok (tt, busy fs b st lv pend rl s0 s1 h tk d).
Proof.
  destruct n; cbn [run_until]; unfold busy at 1; cbn [threads]; rewrite lookup_insert_eq; cbn [frames];
    by rewrite !bool_decide_true by done.
Qed.

Ltac next H := erewrite until_step; [|cbn [length]; lia|apply H; try done].

(** From the request being made to the call's return. *)
Lemma wait_for_disk n b w i0 n0 u0 w0 i1 n1 u1 w1 h tk d :
  stk = None \/ stk = Some STACK_FENCEPOST -> (totalTicks tk <? w) = true ->
  exists n0' w0' u1' w1',
  run_until (9 + n) t (length fs)
    (busy (FOp (OpP 0) :: FOp (OpRelease 0) :: fs) b RUNNING IntOn [(w, MkPend DiskDone w DiskInt)] []
       (MkSem 0 [] i0 n0 u0 w0) (MkSem 0 [] i1 n1 u1 w1) h tk d) =
  Ok (tt, busy fs b RUNNING IntOn [] [] (MkSem 0 [] i0 n0' (u0 + 1) w0') (MkSem 1 [] i1 n1 u1' w1') None
            (ticked (ticked (waited w tk))) (HandleInterrupt d)).
Proof.
  intros Hstk Hw. do 4 eexists. cbn [Nat.add].
  next step_wait. next step_sleep. next step_idle. next step_dispatch. next step_resume. next step_done.
  next step_enable. next step_release. next step_enable. rewrite until_done. reflexivity.
Qed.

(** The call and the lock. *)
Lemma take_lock n o req b s0 i1 n1 u1 w1 h tk d :
  match o with
  | OpReadSector s => req = FReadRequest s
  | OpWriteSector s data => req = FWriteRequest s data
  | _ => False
  end ->
  run_until (5 + n) t (length fs)
    (busy (FOp o :: fs) b RUNNING IntOn [] [] s0 (MkSem 1 [] i1 n1 u1 w1) h tk d) =
  run_until n t (length fs)
    (busy (req :: FOp (OpP 0) :: FOp (OpRelease 0) :: fs) b RUNNING IntOn [] [] s0
       (MkSem 0 [] i1 (n1 + 1) u1 (filter (fun x => x <> t) w1)) (Some t) (ticked tk) d).
Proof.
  intros Hcall. cbn [Nat.add].
  assert (Hs : step (busy (FOp o :: fs) b RUNNING IntOn [] [] s0 (MkSem 1 [] i1 n1 u1 w1) h tk d) =
    Ok (tt, busy (FOp (OpAcquire 0) :: req :: FOp (OpP 0) :: FOp (OpRelease 0) :: fs) b RUNNING IntOn [] [] s0
              (MkSem 1 [] i1 n1 u1 w1) h tk d)).
  { destruct o; try done; rewrite Hcall; unfold busy; kernel_step; reflexivity. }
  erewrite until_step; [|cbn [length]; lia|exact Hs]. next step_acquire. next step_lock_free. next step_enable.
  next step_holder. reflexivity.
Qed.
End Runs.
End States.

(** ** The interface *)

(** A kernel in which the current thread can use the disk: it runs with interrupts
    enabled, no other thread is ready, no interrupt is pending, and the lock and
    the disk are free. *)
Record quiet (k : Kernel) : Prop := {
  q_thread : exists T, threads k !! currentThread k = Some T /\ tstatus T = RUNNING /\
    (stack T = None \/ stack T = Some STACK_FENCEPOST);
  q_ready : readyList k = [];
  q_destroy : threadToBeDestroyed k = None;
  q_interrupt : interrupt k = MkInterrupt IntOn [] false false SystemMode;
  q_sems : exists s0 s1 ss, sems k = s0 :: s1 :: ss /\ value s0 = 0 /\ queue s0 = [] /\ value s1 = 1 /\ queue s1 = [];
  q_lock : exists L ls, locks k = L :: ls /\ sema L = 1%nat;
  q_time : 0 <= totalTicks (stats k);
  q_idle : active (disk k) = false;
  q_head : is_sector (lastSector (disk k));
  q_image : image_ok (backing (disk k))
}.

Lemma quiet_busy k : quiet k ->
  exists t id pr stk m nt occ ptrs lst ss ls cs dn fs b i0 n0 u0 w0 i1 n1 u1 w1 h tk d,
  k = busy t id pr stk m nt occ ptrs lst ss ls cs dn fs b RUNNING IntOn [] []
        (MkSem 0 [] i0 n0 u0 w0) (MkSem 1 [] i1 n1 u1 w1) h tk d /\
  (stk = None \/ stk = Some STACK_FENCEPOST) /\ 0 <= totalTicks tk /\ active d = false /\
  is_sector (lastSector d) /\ image_ok (backing d).
Proof.
  intros [[[id pr st stk fs b] (HT & Hst & Hstk)] Hr Hdd Hi ([v0 q0 i0 n0 u0 w0] & [v1 q1 i1 n1 u1 w1] & ss & Hss & E1 & E2 & E3 & E4)
    ([sm h] & ls & Hls & E5) Hn Ha Hh Him].
  destruct k as [ths nt cur des occ ptrs rl lst sms lks cs int tk d dn].
  cbn [threads currentThread readyList threadToBeDestroyed interrupt sems locks stats disk tstatus stack value queue sema] in *.
  subst. exists cur, id, pr, stk, ths, nt, occ, ptrs, lst, ss, ls, cs, dn, fs, b, i0, n0, u0, w0, i1, n1, u1, w1, h, tk, d.
  split; [|done]. unfold busy. by rewrite (insert_id ths cur).
Qed.

Lemma busy_quiet t id pr stk m nt occ ptrs lst ss ls cs dn fs b i0 n0 u0 w0 i1 n1 u1 w1 h tk d :
  (stk = None \/ stk = Some STACK_FENCEPOST) -> 0 <= totalTicks tk -> active d = false ->
  is_sector (lastSector d) -> image_ok (backing d) ->
  quiet (busy t id pr stk m nt occ ptrs lst ss ls cs dn fs b RUNNING IntOn [] []
        (MkSem 0 [] i0 n0 u0 w0) (MkSem 1 [] i1 n1 u1 w1) h tk d).
Proof.
  intros. split; cbn; try done.
  - eexists. by rewrite lookup_insert_eq.
  - by eexists _, _, _.
  - by eexists _, _.
Qed.

Lemma update_last now s d :
  backing (UpdateLast now s d) = backing d /\ active (UpdateLast now s d) = active d /\ lastSector (UpdateLast now s d) = s.
Proof. unfold UpdateLast. by destruct (TimeToSeek now d s). Qed.

Lemma sector_test s : is_sector s <-> (0 <=? s) && (s <? NumSectors) = true.
Proof. unfold is_sector. rewrite andb_true_iff, Z.leb_le, Z.ltb_lt. done. Qed.

(** The call is on the stack. *)
Lemma call_busy o t id pr stk m nt occ ptrs lst ss ls cs dn fs b st lv pend rl s0 s1 h tk d :
  call_and_wait o (busy t id pr stk m nt occ ptrs lst ss ls cs dn fs b st lv pend rl s0 s1 h tk d) =
  run_until 32 t (length fs) (busy t id pr stk m nt occ ptrs lst ss ls cs dn (FOp o :: fs) b st lv pend rl s0 s1 h tk d).
Proof.
  unfold call_and_wait, busy. kernel_step. reflexivity.
Qed.

Lemma request_ends k o (data : list Z) (writing : bool) s :
  quiet k -> is_sector s -> (writing = true -> sector_ok data) ->
  o = (if writing then OpWriteSector s data else OpReadSector s) ->
  exists k', call_and_wait o k = Ok (tt, k') /\ quiet k' /\
    backing (disk k') = (if writing then update s data (backing (disk k)) else backing (disk k)) /\
    (writing = false -> exists T, threads k' !! currentThread k' = Some T /\ buf T = sector (backing (disk k)) s).
Proof.
  intros Hq Hs Hdata Ho. destruct (quiet_busy k Hq) as (t & id & pr & stk & m & nt & occ & ptrs & lst & ss & ls & cs & dn & fs & b
    & i0 & n0 & u0 & w0 & i1 & n1 & u1 & w1 & h & tk & d & -> & Hstk & Hn & Ha & Hh & Him).
  pose proof (proj1 (sector_test s) Hs) as Hin. apply andb_true_iff in Hin as [Hs1 Hs2].
  assert (Hn' : 0 <= totalTicks (ticked tk)) by (cbn; unfold SystemTick; lia).
  rewrite call_busy. change 32%nat with (5 + 27)%nat.
  set (lat := ComputeLatency (totalTicks (ticked tk)) d s writing).
  assert (Hlat : 500 <= lat) by (by apply latency_bounds). assert (Hpos : (0 <? lat) = true) by (apply Z.ltb_lt; lia).
  set (d0 := MkDisk (if writing then update s data (backing d) else backing d) true (lastSector d) (bufferInit d)).
  destruct (update_last (totalTicks (ticked tk)) s d0) as (U1 & U2 & U3).
  assert (Him' : image_ok (backing d0)).
  { subst d0. destruct writing; [|done]. apply update_ok; [done|by apply Hdata]. }
  destruct writing; subst o.
  - erewrite take_lock by reflexivity. change 27%nat with (S (9 + 17))%nat.
    erewrite until_step; [|cbn [length]; lia|by apply step_write_request].
    destruct (wait_for_disk t id pr stk m nt occ ptrs lst ss ls cs dn fs 17 b (totalTicks (ticked tk) + lat) i0 n0 u0 w0 i1 (n1 + 1) u1
      (filter (fun x => x <> t) w1) (Some t) (set_numDiskWrites (numDiskWrites (ticked tk) + 1) (ticked tk))
      (UpdateLast (totalTicks (ticked tk)) s d0) Hstk) as (n0' & w0' & u1' & w1' & Hrun); [apply Z.ltb_lt; cbn in *; lia|].
    eexists. split; [exact Hrun|]. split; [|split; [exact U1|done]].
    apply busy_quiet; [done|cbn in *; unfold SystemTick in *; lia|done|unfold HandleInterrupt; cbn [lastSector]; by rewrite U3
      |unfold HandleInterrupt; cbn [backing]; by rewrite U1].
  - erewrite take_lock by reflexivity. change 27%nat with (S (9 + 17))%nat.
    erewrite until_step; [|cbn [length]; lia|by apply step_read_request].
    destruct (wait_for_disk t id pr stk m nt occ ptrs lst ss ls cs dn fs 17 (sector (backing d) s) (totalTicks (ticked tk) + lat) i0 n0 u0 w0 i1 (n1 + 1) u1
      (filter (fun x => x <> t) w1) (Some t) (set_numDiskReads (numDiskReads (ticked tk) + 1) (ticked tk))
      (UpdateLast (totalTicks (ticked tk)) s d0) Hstk) as (n0' & w0' & u1' & w1' & Hrun); [apply Z.ltb_lt; cbn in *; lia|].
    eexists. split; [exact Hrun|]. split; [|split; [exact U1|]].
    + apply busy_quiet; [done|cbn in *; unfold SystemTick in *; lia|done|unfold HandleInterrupt; cbn [lastSector]; by rewrite U3
      |unfold HandleInterrupt; cbn [backing]; by rewrite U1].
    + intros _. eexists. split; [apply lookup_insert_eq|done].
Qed.

Lemma request_outside k o s :
  quiet k -> ~ is_sector s -> (o = OpReadSector s \/ exists data, o = OpWriteSector s data) ->
  call_and_wait o k = Stop AssertFailed.
Proof.
  intros Hq Hs Ho. destruct (quiet_busy k Hq) as (t & id & pr & stk & m & nt & occ & ptrs & lst & ss & ls & cs & dn & fs & b
    & i0 & n0 & u0 & w0 & i1 & n1 & u1 & w1 & h & tk & d & -> & Hstk & Hn & Ha & Hh & Him).
  assert (Hbad : (0 <=? s) && (s <? NumSectors) = false).
  { apply not_true_iff_false. by rewrite <- sector_test. }
  rewrite call_busy. change 32%nat with (5 + 27)%nat. destruct Ho as [->|[data ->]].
  - erewrite take_lock by reflexivity. apply until_stop; [cbn [length]; lia|by apply step_bad_read].
  - erewrite take_lock by reflexivity. apply until_stop; [cbn [length]; lia|by apply step_bad_write].
Qed.
End Calls.

(** [SynchDisk] as the disk of the file system. *)
Definition synch_disk (Random : nat -> Z) : SectorDisk Kernel := {|
  ReadSector := synch_read Random;
  WriteSector := synch_write Random
|}.

Lemma synch_read_ok Random k s : quiet k -> is_sector s ->
  exists k', synch_read Random s k = Ok (sector (backing (disk k)) s, k') /\ quiet k' /\ backing (disk k') = backing (disk k).
Proof.
  intros Hq Hs. destruct (request_ends Random k (OpReadSector s) [] false s Hq Hs ltac:(done) eq_refl)
    as (k' & Hrun & Hq' & Hb & Hbuf).
  destruct (Hbuf eq_refl) as (T & HT & HB). exists k'. split; [|done].
  unfold synch_read. rewrite (bind_ok _ _ _ _ _ Hrun). unfold gets. erewrite bind_ok by reflexivity.
  erewrite bind_ok; [|unfold thread; by rewrite HT]. by rewrite HB.
Qed.

Lemma synch_write_ok Random k s data : quiet k -> is_sector s -> sector_ok data ->
  exists k', synch_write Random s data k = Ok (tt, k') /\ quiet k' /\ backing (disk k') = update s data (backing (disk k)).
Proof.
  intros Hq Hs Hd. destruct (request_ends Random k (OpWriteSector s data) data true s Hq Hs ltac:(done) eq_refl)
    as (k' & Hrun & Hq' & Hb & _). by exists k'.
Qed.

Lemma synch_read_outside Random k s : quiet k -> ~ is_sector s -> synch_read Random s k = Stop AssertFailed.
Proof.
  intros Hq Hs. unfold synch_read. apply bind_stop. apply (request_outside Random k _ s Hq Hs). by left.
Qed.

Lemma synch_write_outside Random k s data : quiet k -> ~ is_sector s -> synch_write Random s data k = Stop AssertFailed.
Proof. intros Hq Hs. apply (request_outside Random k _ s Hq Hs). right. by eexists. Qed.

Definition synch_disk_laws (Random : nat -> Z) : @SectorDiskLaws Kernel (synch_disk Random).
Proof.
  refine (@Build_SectorDiskLaws Kernel (synch_disk Random) (fun k => backing (disk k)) quiet _ _ _ _ _).
  - intros k Hq. apply (q_image k Hq).
  - apply synch_read_ok.
  - apply synch_write_ok.
  - apply synch_read_outside.
  - apply synch_write_outside.
Defined.

(** The kernel [Initialize] makes, once the main thread has enabled interrupts, is
    such a kernel. *)
Lemma start_quiet Random img body : image_ok img ->
  exists k k', Initialize Random disk_config [0; 1] [MkLock 1 None] 0 img body = Ok k /\
    step Random disk_config k = Ok (tt, k') /\ quiet k'.
Proof.
  intros Him.
  exists (busy 0 0 255 None ∅ 1 (<[0%nat := true]> (replicate 128 false)) (<[0%nat := Some 0%nat]> (replicate 128 None)) 0
    [] [] [] 0 (thread_root body) [] RUNNING IntOff [] [] (MkSem 0 [] 0 0 0 []) (MkSem 1 [] 1 0 0 []) None
    (MkStats 0 0 0 0 0 0) (new_disk img)).
  eexists. split; [reflexivity|]. split; [unfold thread_root, busy; kernel_step; reflexivity|].
  apply (busy_quiet 0 0 255 None ∅ 1 (<[0%nat := true]> (replicate 128 false)) (<[0%nat := Some 0%nat]> (replicate 128 None)) 0
    [] [] [] 0 ((FOp <$> body) ++ [FFinish]) [] 0 0 0 [] 1 0 0 [] None (MkStats 10 0 10 0 0 0) (new_disk img)); by left || done.
Qed.

(** C14. [SynchDisk::ReadSector] and [SynchDisk::WriteSector] implement the disk
    interface the file system is verified against: on a kernel whose disk is free
    the call takes the lock, starts the request, sleeps, is woken by the disk's
    interrupt from the idle loop and returns, within a bounded number of steps; the
    sector read is the sector of the disk, a write replaces that sector alone, and
    the kernel is left ready for the next request.  A sector number outside the
    disk fails the assertion of [Disk]. *)
Theorem synch_disk_correct Random k s data :
  quiet k -> sector_ok data ->
  if decide (is_sector s) then
    (exists k', synch_read Random s k = Ok (sector (backing (disk k)) s, k') /\ quiet k' /\
       backing (disk k') = backing (disk k)) /\
    (exists k', synch_write Random s data k = Ok (tt, k') /\ quiet k' /\
       backing (disk k') = update s data (backing (disk k)))
  else synch_read Random s k = Stop AssertFailed /\ synch_write Random s data k = Stop AssertFailed.
Proof.
  intros Hq Hd. destruct (decide (is_sector s)).
  - split; [by apply synch_read_ok|by apply synch_write_ok].
  - split; [by apply synch_read_outside|by apply synch_write_outside].
Qed.

Lemma synch_disk_correct_witness :
  exists k k', quiet k /\ synch_write (fun _ => 0) 7 (replicate 128 5) k = Ok (tt, k') /\ sector (backing (disk k')) 7 = replicate 128 5.
Proof.
  assert (Hs : forall x, is_byte x -> sector_ok (replicate 128 x)).
  { intros x Hx. split; [apply length_replicate|by apply Forall_replicate]. }
  assert (Him : image_ok (replicate 1024 (replicate 128 0))).
  { split; [apply length_replicate|]. apply Forall_replicate, Hs. done. }
  destruct (start_quiet (fun _ => 0) _ [] Him) as (k0 & k & _ & _ & Hq).
  pose proof (synch_disk_correct (fun _ => 0) k 7 (replicate 128 5) Hq (Hs 5 ltac:(done))) as H.
  rewrite decide_True in H by done. destruct H as [_ (k' & Hrun & _ & Hb)].
  exists k, k'. split; [exact Hq|]. split; [exact Hrun|]. rewrite Hb. apply sector_update_eq; [apply (q_image k Hq)|done].
Defined.
