(* ===== verification/Host.v ===== *)
(** * The host's files: [machine/sysdep.cc], and what Nachos builds on them

    [sysdep.cc] calls UNIX.  UNIX itself is not part of the repository: it is the
    interface [Posix] of its calls, with [PosixLaws], what POSIX says about them for
    regular files of one process on a 32-bit host with room: offsets stay below 2^31.  On it stand the file behind the
    simulated disk ([Disk::Disk] and the transfers of [machine/disk.cc]) and the file
    system stub ([FILESYS_STUB] of [filesys/filesys.h] and [filesys/openfile.h]). *)

From S2P Require Import Prelude Sectors.
From S2P Require Disk.

(** ** UNIX *)

(** Regular files: the names, the bytes of each file, and the open descriptors with
    their offsets. *)
Record Unix : Type := MkUnix { u_dir : gmap string Z; u_data : gmap Z (list Z); u_fds : gmap Z (Z * Z) }.
Definition set_dir (x : gmap string Z) (u : Unix) : Unix := MkUnix x (u_data u) (u_fds u).
Definition set_data (x : gmap Z (list Z)) (u : Unix) : Unix := MkUnix (u_dir u) x (u_fds u).
Definition set_fds (x : gmap Z (Z * Z)) (u : Unix) : Unix := MkUnix (u_dir u) (u_data u) x.

(** [bs] written at [off]: a gap reads as zeros, and a write of no bytes does nothing. *)
Definition overwrite (off : nat) (bs buf : list Z) : list Z :=
  match bs with
  | [] => buf
  | _ => take off (buf ++ replicate (off - length buf) 0) ++ bs ++ drop (off + length bs) buf
  end.
Lemma length_overwrite off bs buf : bs <> [] -> length (overwrite off bs buf) = Nat.max (length buf) (off + length bs).
Proof.
  intros Hb. destruct bs as [|b bs]; [done|]. unfold overwrite.
  rewrite !length_app, length_take, length_drop, length_app, length_replicate. cbn [length]. lia.
Qed.

Definition SEEK_SET : Z := 0.
Definition SEEK_CUR : Z := 1.
Definition SEEK_END : Z := 2.

(** An [off_t] of the 32-bit host is below this, and so is the size of a file. *)
Definition MaxOffset : Z := 2 ^ 31.

(** The calls: [open] with [O_RDWR], [open] with [O_RDWR|O_CREAT|O_TRUNC], and the rest;
    [read] gives what it returns and the bytes it puts in the buffer. *)
Class Posix (H : Type) : Type := {
  open_rdwr : string -> H -> Z * H;
  open_trunc : string -> H -> Z * H;
  read : Z -> Z -> H -> Z * list Z * H;
  write : Z -> list Z -> H -> Z * H;
  lseek : Z -> Z -> Z -> H -> Z * H;
  close : Z -> H -> Z * H;
  unlink : string -> H -> Z * H
}.

Class PosixLaws (H : Type) `{Posix H} : Type := {
  view : H -> Unix;
  host_ok : H -> Prop;
  (** The names are of files, and so are the descriptors, which are not negative. *)
  dir_files : forall h n i, host_ok h -> u_dir (view h) !! n = Some i -> is_Some (u_data (view h) !! i);
  fds_files : forall h fd i o, host_ok h -> u_fds (view h) !! fd = Some (i, o) -> is_Some (u_data (view h) !! i) /\ 0 <= fd /\ 0 <= o;
  open_missing : forall h n, host_ok h -> u_dir (view h) !! n = None -> open_rdwr n h = (-1, h);
  open_existing : forall h n i, host_ok h -> u_dir (view h) !! n = Some i ->
    exists fd h', open_rdwr n h = (fd, h') /\ host_ok h' /\ 0 <= fd /\ u_fds (view h) !! fd = None /\
      view h' = set_fds (<[fd := (i, 0)]> (u_fds (view h))) (view h);
  open_truncates : forall h n i, host_ok h -> u_dir (view h) !! n = Some i ->
    exists fd h', open_trunc n h = (fd, h') /\ host_ok h' /\ 0 <= fd /\ u_fds (view h) !! fd = None /\
      view h' = MkUnix (u_dir (view h)) (<[i := []]> (u_data (view h))) (<[fd := (i, 0)]> (u_fds (view h)));
  open_creates : forall h n, host_ok h -> u_dir (view h) !! n = None ->
    exists fd i h', open_trunc n h = (fd, h') /\ host_ok h' /\ 0 <= fd /\ u_fds (view h) !! fd = None /\
      u_data (view h) !! i = None /\
      view h' = MkUnix (<[n := i]> (u_dir (view h))) (<[i := []]> (u_data (view h))) (<[fd := (i, 0)]> (u_fds (view h)));
  read_file : forall h fd n i o d, host_ok h -> u_fds (view h) !! fd = Some (i, o) -> u_data (view h) !! i = Some d -> 0 <= n ->
    let r := take (Z.to_nat n) (drop (Z.to_nat o) d) in
    exists h', read fd n h = (Z.of_nat (length r), r, h') /\ host_ok h' /\
      view h' = set_fds (<[fd := (i, o + Z.of_nat (length r))]> (u_fds (view h))) (view h);
  write_file : forall h fd bs i o d, host_ok h -> u_fds (view h) !! fd = Some (i, o) -> u_data (view h) !! i = Some d ->
    o + Z.of_nat (length bs) < MaxOffset ->
    exists h', write fd bs h = (Z.of_nat (length bs), h') /\ host_ok h' /\
      view h' = MkUnix (u_dir (view h)) (<[i := overwrite (Z.to_nat o) bs d]> (u_data (view h)))
        (<[fd := (i, o + Z.of_nat (length bs))]> (u_fds (view h)));
  lseek_file : forall h fd off wh i o d, host_ok h -> u_fds (view h) !! fd = Some (i, o) -> u_data (view h) !! i = Some d ->
    (wh = SEEK_SET \/ wh = SEEK_CUR \/ wh = SEEK_END) ->
    let o' := (if wh =? SEEK_SET then 0 else if wh =? SEEK_CUR then o else Z.of_nat (length d)) + off in
    0 <= o' < MaxOffset ->
    exists h', lseek fd off wh h = (o', h') /\ host_ok h' /\ view h' = set_fds (<[fd := (i, o')]> (u_fds (view h))) (view h);
  close_file : forall h fd, host_ok h -> is_Some (u_fds (view h) !! fd) ->
    exists h', close fd h = (0, h') /\ host_ok h' /\ view h' = set_fds (delete fd (u_fds (view h))) (view h);
  unlink_file : forall h n, host_ok h -> is_Some (u_dir (view h) !! n) ->
    exists h', unlink n h = (0, h') /\ host_ok h' /\ view h' = set_dir (delete n (u_dir (view h))) (view h);
  unlink_missing : forall h n, host_ok h -> u_dir (view h) !! n = None -> unlink n h = (-1, h)
}.

(** ** [sysdep.cc] *)

Section Sysdep.
Context {H : Type} `{!Posix H}.

(** A call of UNIX. *)
Definition sys {A : Type} (f : H -> A * H) : M H A := fun h => Ok (f h).

Definition OpenForWrite (name : string) : M H Z := sys (open_trunc name).
Definition OpenForReadWrite (name : string) (crashOnError : bool) : M H Z :=
  fd ← sys (open_rdwr name);
  _ ← ASSERT (negb crashOnError || (0 <=? fd));
  mret fd.
Definition Read (fd nBytes : Z) : M H (list Z) :=
  '(retVal, buffer) ← sys (read fd nBytes);
  _ ← ASSERT (retVal =? nBytes);
  mret buffer.
Definition ReadPartial (fd nBytes : Z) : M H (Z * list Z) := sys (read fd nBytes).
Definition WriteFile (fd : Z) (buffer : list Z) : M H unit :=
  retVal ← sys (write fd buffer);
  ASSERT (retVal =? Z.of_nat (length buffer)).
Definition Lseek (fd offset whence : Z) : M H unit :=
  retVal ← sys (lseek fd offset whence);
  ASSERT (0 <=? i32 retVal).
Definition Tell (fd : Z) : M H Z := retVal ← sys (lseek fd 0 SEEK_CUR); mret (i32 retVal).
Definition Close (fd : Z) : M H unit :=
  retVal ← sys (close fd);
  ASSERT (0 <=? retVal).
(** The [int] of [unlink] as a [bool]: true when it failed. *)
Definition Unlink (name : string) : M H bool :=
  retVal ← sys (unlink name);
  mret (negb (retVal =? 0)).
End Sysdep.

(** ** What the wrappers do *)

(** An open file with its offset and its bytes, and the state after both have changed. *)
Definition opened (u : Unix) (fd i o : Z) (d : list Z) : Prop := u_fds u !! fd = Some (i, o) /\ u_data u !! i = Some d.
Definition put (u : Unix) (fd i o : Z) (d : list Z) : Unix :=
  MkUnix (u_dir u) (<[i := d]> (u_data u)) (<[fd := (i, o)]> (u_fds u)).

Lemma opened_put u fd i o d : opened (put u fd i o d) fd i o d.
Proof. split; apply lookup_insert_eq. Qed.
Lemma put_put u fd i o d o' d' : put (put u fd i o d) fd i o' d' = put u fd i o' d'.
Proof. unfold put. cbn. by rewrite !insert_insert_eq. Qed.
Lemma put_offset u fd i o d o' : opened u fd i o d -> set_fds (<[fd := (i, o')]> (u_fds u)) u = put u fd i o' d.
Proof. intros [_ Hd]. unfold put, set_fds. by rewrite (insert_id (u_data u) i d). Qed.
Lemma put_close u fd i o d : u_fds u !! fd = None -> set_fds (delete fd (u_fds (put u fd i o d))) (put u fd i o d) =
  set_data (<[i := d]> (u_data u)) u.
Proof. intros Hfd. unfold put, set_fds, set_data. cbn. by rewrite delete_insert_id. Qed.

Section Wrappers.
Context {H : Type} `{!Posix H} `{!PosixLaws H}.

Lemma read_partial_ok (h : H) fd i o d n :
  host_ok h -> opened (view h) fd i o d -> 0 <= n ->
  let r := take (Z.to_nat n) (drop (Z.to_nat o) d) in
  exists h', ReadPartial fd n h = Ok ((Z.of_nat (length r), r), h') /\ host_ok h' /\
    view h' = put (view h) fd i (o + Z.of_nat (length r)) d.
Proof.
  intros Hh Ho Hn r. destruct Ho as [Hfd Hd]. destruct (read_file h fd n i o d Hh Hfd Hd Hn) as (h' & Hr & Hh' & Hv). fold r in Hr, Hv.
  exists h'. unfold ReadPartial, sys. rewrite Hr. split; [done|]. split; [done|]. rewrite Hv. by apply (put_offset _ _ _ o).
Qed.

Lemma fd_read_ok (h : H) fd i o d n :
  host_ok h -> opened (view h) fd i o d -> 0 <= n -> o + n <= Z.of_nat (length d) ->
  exists h', Read fd n h = Ok (take (Z.to_nat n) (drop (Z.to_nat o) d), h') /\ host_ok h' /\
    view h' = put (view h) fd i (o + n) d.
Proof.
  intros Hh Ho Hn Hfit. pose proof Ho as [Hfd _]. destruct (fds_files _ _ _ _ Hh Hfd) as (_ & _ & Hpos).
  destruct (read_partial_ok h fd i o d n Hh Ho Hn) as (h' & Hr & Hh' & Hv).
  rewrite length_take, length_drop, Nat.min_l in Hr, Hv by lia. rewrite Z2Nat.id in Hr, Hv by lia.
  exists h'. split; [|done]. unfold Read. change (sys (read fd n)) with (ReadPartial (H := H) fd n).
  rewrite (bind_ok _ _ _ _ _ Hr). cbv beta iota. by rewrite Z.eqb_refl.
Qed.

Lemma fd_write_ok (h : H) fd i o d bs :
  host_ok h -> opened (view h) fd i o d -> o + Z.of_nat (length bs) < MaxOffset ->
  exists h', WriteFile fd bs h = Ok (tt, h') /\ host_ok h' /\
    view h' = put (view h) fd i (o + Z.of_nat (length bs)) (overwrite (Z.to_nat o) bs d).
Proof.
  intros Hh [Hfd Hd] Hmax. destruct (write_file h fd bs i o d Hh Hfd Hd Hmax) as (h' & Hw & Hh' & Hv). exists h'.
  unfold WriteFile, sys. munfold. rewrite Hw, Z.eqb_refl. done.
Qed.

Lemma seek_ok (h : H) fd i o d off :
  host_ok h -> opened (view h) fd i o d -> 0 <= off < MaxOffset ->
  exists h', Lseek fd off SEEK_SET h = Ok (tt, h') /\ host_ok h' /\ view h' = put (view h) fd i off d.
Proof.
  intros Hh Ho Hoff. pose proof Ho as [Hfd Hd].
  destruct (lseek_file h fd off SEEK_SET i o d Hh Hfd Hd) as (h' & Hl & Hh' & Hv); [by left|done|].
  cbn [Z.eqb SEEK_SET] in Hl, Hv. change (0 + off) with off in Hl, Hv. exists h'. unfold Lseek, sys. munfold. rewrite Hl.
  rewrite i32_id, (proj2 (Z.leb_le 0 off)) by (unfold is_i32, MaxOffset in *; lia). split; [done|]. split; [done|]. rewrite Hv. by apply (put_offset _ _ _ o).
Qed.

Lemma close_ok (h : H) fd i o d :
  host_ok h -> opened (view h) fd i o d ->
  exists h', Close fd h = Ok (tt, h') /\ host_ok h' /\ view h' = set_fds (delete fd (u_fds (view h))) (view h).
Proof.
  intros Hh [Hfd _]. destruct (close_file h fd Hh ltac:(eauto)) as (h' & Hc & Hh' & Hv). exists h'.
  unfold Close, sys. munfold. by rewrite Hc.
Qed.
End Wrappers.

(** ** A host

    The smallest UNIX of this kind, which numbers descriptors and files by counters. *)
Module PlainHost.

Record Plain : Type := MkPlain { unix : Unix; next_fd : Z; next_file : Z }.

Definition with_fd (h : Plain) (fd : Z) (k : Z -> Z -> list Z -> Z * Plain) : Z * Plain :=
  match u_fds (unix h) !! fd with
  | Some (i, o) => match u_data (unix h) !! i with Some d => k i o d | None => (-1, h) end
  | None => (-1, h)
  end.
Definition put_fd (h : Plain) (fd i o : Z) (d : list Z) : Plain := MkPlain (put (unix h) fd i o d) (next_fd h) (next_file h).
Definition open_at (h : Plain) (n : string) (i : Z) (d : list Z) (next : Z) : Z * Plain :=
  let u := unix h in
  (next_fd h, MkPlain (MkUnix (<[n := i]> (u_dir u)) (<[i := d]> (u_data u)) (<[next_fd h := (i, 0)]> (u_fds u))) (next_fd h + 1) next).

#[export] Instance plain_host : Posix Plain := {
  open_rdwr n h :=
    match u_dir (unix h) !! n with
    | Some i => match u_data (unix h) !! i with Some d => open_at h n i d (next_file h) | None => (-1, h) end
    | None => (-1, h)
    end;
  open_trunc n h :=
    match u_dir (unix h) !! n with
    | Some i => open_at h n i [] (next_file h)
    | None => open_at h n (next_file h) [] (next_file h + 1)
    end;
  read fd n h :=
    match u_fds (unix h) !! fd with
    | Some (i, o) =>
        match u_data (unix h) !! i with
        | Some d => let r := take (Z.to_nat n) (drop (Z.to_nat o) d) in (Z.of_nat (length r), r, put_fd h fd i (o + Z.of_nat (length r)) d)
        | None => (-1, [], h)
        end
    | None => (-1, [], h)
    end;
  write fd bs h := with_fd h fd (fun i o d => (Z.of_nat (length bs), put_fd h fd i (o + Z.of_nat (length bs)) (overwrite (Z.to_nat o) bs d)));
  lseek fd off wh h := with_fd h fd (fun i o d =>
    let o' := (if wh =? SEEK_SET then 0 else if wh =? SEEK_CUR then o else Z.of_nat (length d)) + off in
    if 0 <=? o' then (o', put_fd h fd i o' d) else (-1, h));
  close fd h :=
    match u_fds (unix h) !! fd with
    | Some _ => (0, MkPlain (set_fds (delete fd (u_fds (unix h))) (unix h)) (next_fd h) (next_file h))
    | None => (-1, h)
    end;
  unlink n h :=
    match u_dir (unix h) !! n with
    | Some _ => (0, MkPlain (set_dir (delete n (u_dir (unix h))) (unix h)) (next_fd h) (next_file h))
    | None => (-1, h)
    end
}.

Record plain_ok (h : Plain) : Prop := {
  po_dir : forall n i, u_dir (unix h) !! n = Some i -> is_Some (u_data (unix h) !! i);
  po_fds : forall fd i o, u_fds (unix h) !! fd = Some (i, o) -> is_Some (u_data (unix h) !! i) /\ 0 <= fd < next_fd h /\ 0 <= o;
  po_data : forall i, is_Some (u_data (unix h) !! i) -> i < next_file h;
  po_next : 0 <= next_fd h
}.

Lemma fresh_fd h : plain_ok h -> u_fds (unix h) !! next_fd h = None.
Proof. intros Hh. destruct (u_fds (unix h) !! next_fd h) as [[i o]|] eqn:E; [|done]. destruct (po_fds _ Hh _ _ _ E). lia. Qed.
Lemma fresh_file h : plain_ok h -> u_data (unix h) !! next_file h = None.
Proof. intros Hh. destruct (u_data (unix h) !! next_file h) eqn:E; [|done]. pose proof (po_data _ Hh (next_file h) ltac:(eauto)). lia. Qed.

Lemma put_fd_ok h fd i o d d' o' : plain_ok h -> opened (unix h) fd i o d -> 0 <= o' -> plain_ok (put_fd h fd i o' d').
Proof.
  intros Hh [Hfd Hd] Ho'. destruct (po_fds _ Hh _ _ _ Hfd) as (_ & Hfr & _). constructor; cbn.
  - intros n j Hj. apply lookup_insert_is_Some'. right. by eapply po_dir.
  - intros fd' j p Hj. rewrite lookup_insert_is_Some'. apply lookup_insert_Some in Hj as [[<- [= <- <-]]|[_ Hj]]; [by auto|].
    destruct (po_fds _ Hh _ _ _ Hj) as (? & ? & ?). auto.
  - intros j. rewrite lookup_insert_is_Some'. intros [<-|Hj]; apply (po_data _ Hh); eauto.
  - apply Hh.
Qed.
Lemma open_at_ok h n i d next : plain_ok h -> i < next -> next_file h <= next -> plain_ok (open_at h n i d next).2.
Proof.
  intros Hh Hi Hn. pose proof (po_next _ Hh). constructor; cbn.
  - intros n' j Hj. rewrite lookup_insert_is_Some'. apply lookup_insert_Some in Hj as [[<- <-]|[_ Hj]]; [by left|right; by eapply po_dir].
  - intros fd' j p Hj. rewrite lookup_insert_is_Some'. apply lookup_insert_Some in Hj as [[<- [= <- <-]]|[_ Hj]]; [split; [auto|lia]|].
    destruct (po_fds _ Hh _ _ _ Hj) as (? & ? & ?). split; [auto|lia].
  - intros j. rewrite lookup_insert_is_Some'. intros [<-|Hj]; [lia|]. pose proof (po_data _ Hh j Hj). lia.
  - lia.
Qed.

#[export, refine] Instance plain_host_laws : PosixLaws Plain := { view := unix; host_ok := plain_ok }.
Proof.
  - intros h n i Hh. by apply po_dir.
  - intros h fd i o Hh Hfd. destruct (po_fds _ Hh _ _ _ Hfd) as (? & ? & ?). split_and!; [done|lia|done].
  - intros h n Hh Hn. cbn. by rewrite Hn.
  - intros h n i Hh Hn. destruct (po_dir _ Hh _ _ Hn) as [d Hd]. cbn. rewrite Hn, Hd. eexists _, _. split; [reflexivity|].
    pose proof (po_data _ Hh i ltac:(eauto)). split_and!; [apply open_at_ok; [done|lia|lia]|apply Hh|by apply fresh_fd|].
    cbn. unfold set_fds. by rewrite (insert_id (u_dir (unix h)) n i), (insert_id (u_data (unix h)) i d).
  - intros h n i Hh Hn. cbn. rewrite Hn. eexists _, _. split; [reflexivity|]. destruct (po_dir _ Hh _ _ Hn) as [d Hd].
    pose proof (po_data _ Hh i ltac:(eauto)). split_and!; [apply open_at_ok; [done|lia|lia]|apply Hh|by apply fresh_fd|].
    cbn. by rewrite (insert_id (u_dir (unix h)) n i).
  - intros h n Hh Hn. cbn. rewrite Hn. eexists _, _, _. split; [reflexivity|].
    split_and!; [apply open_at_ok; [done|lia|lia]|apply Hh|by apply fresh_fd|by apply fresh_file|done].
  - intros h fd n i o d Hh Hfd Hd Hn r. destruct (po_fds _ Hh _ _ _ Hfd) as (_ & _ & Ho). cbn. rewrite Hfd, Hd. fold r.
    eexists. split; [reflexivity|]. split; [apply (put_fd_ok h fd i o d); [done|done|lia]|]. symmetry. by apply (put_offset _ _ _ o).
  - intros h fd bs i o d Hh Hfd Hd _. destruct (po_fds _ Hh _ _ _ Hfd) as (_ & _ & Ho). cbn. unfold with_fd. rewrite Hfd, Hd.
    eexists. split; [reflexivity|]. split; [apply (put_fd_ok h fd i o d); [done|done|lia]|done].
  - intros h fd off wh i o d Hh Hfd Hd _ o' [Ho' _]. cbn. unfold with_fd. rewrite Hfd, Hd. fold o'. rewrite (proj2 (Z.leb_le 0 o') Ho').
    eexists. split; [reflexivity|]. split; [by apply (put_fd_ok h fd i o d)|]. symmetry. by apply (put_offset _ _ _ o).
  - intros h fd Hh [x Hfd]. cbn. rewrite Hfd. eexists. split; [reflexivity|]. split; [|done]. destruct Hh. constructor; cbn; try done.
    intros fd' i o Hl. apply lookup_delete_Some in Hl as [_ Hl]. eauto.
  - intros h n Hh [x Hn]. cbn. rewrite Hn. eexists. split; [reflexivity|]. split; [|done]. destruct Hh. constructor; cbn; try done.
    intros n' i Hl. apply lookup_delete_Some in Hl as [_ Hl]. eauto.
  - intros h n Hh Hn. cbn. by rewrite Hn.
Defined.

(** A host with no files. *)
Definition empty_host : Plain := MkPlain (MkUnix ∅ ∅ ∅) 3 0.
Lemma empty_host_ok : plain_ok empty_host.
Proof. constructor; cbn; [by intros ? ?|by intros ? ? ?|by intros ? [? ?]|lia]. Qed.
End PlainHost.
