(* ===== verification/HostDisk.v ===== *)
(** * The file behind the disk: [Disk::Disk] and the transfers of [machine/disk.cc]

    The simulated disk keeps its sectors in a UNIX file, behind a magic number.  The
    model of [Disk], whose sectors are an image in memory, is an abstraction of it:
    every request on the file refines the request on the image.  The file outlives the
    program, so any number of runs on the same file is one run on one disk. *)

From S2P Require Import Prelude Sectors Disk Host.

Definition MagicNumber : Z := 0x456789ab.
Definition MagicSize : Z := 4.
Definition DiskSize : Z := MagicSize + NumSectors * SectorSize.

Section HostDisk.
Context {H : Type} `{!Posix H}.

(** [class Disk] with its file; [mech] is the rest of its state, without an image. *)
Record HostDisk : Type := MkHostDisk { host : H; fileno : Z; mech : Disk }.
Definition host_lens : lens HostDisk H := Lens host (fun h d => MkHostDisk h (fileno d) (mech d)).
Definition set_mech (m : Disk) (d : HostDisk) : HostDisk := MkHostDisk (host d) (fileno d) m.

(** [Disk::Disk] up to the fields it sets: the descriptor of the file. *)
Definition open_disk (name : string) : M H Z :=
  fileno ← OpenForReadWrite name false;
  if 0 <=? fileno then
    magicNum ← Read fileno MagicSize;
    _ ← ASSERT (i32 (le_val magicNum) =? MagicNumber);
    mret fileno
  else
    fileno ← OpenForWrite name;
    _ ← WriteFile fileno (le_bytes 4 MagicNumber);
    _ ← Lseek fileno (DiskSize - 4) SEEK_SET;
    _ ← WriteFile fileno (le_bytes 4 0);
    mret fileno.
Definition new_host_disk (name : string) (h : H) : res HostDisk :=
  match open_disk name h with
  | Ok (fd, h) => Ok (MkHostDisk h fd (new_disk []))
  | Stop w => Stop w
  end.

(** [Disk::~Disk]. *)
Definition delete_disk (d : HostDisk) : res H :=
  match Close (fileno d) (host d) with Ok (_, h) => Ok h | Stop w => Stop w end.

(** [Disk::ReadRequest] and [Disk::WriteRequest] up to [Schedule], which is called with
    the ticks. *)
Definition host_read (now sectorNumber : Z) : M HostDisk (list Z * Z) :=
  d ← get;
  let ticks := ComputeLatency now (mech d) sectorNumber false in
  _ ← ASSERT (negb (active (mech d)));
  _ ← ASSERT ((0 <=? sectorNumber) && (sectorNumber <? NumSectors));
  _ ← zoom host_lens (Lseek (fileno d) (SectorSize * sectorNumber + MagicSize) SEEK_SET);
  data ← zoom host_lens (Read (fileno d) SectorSize);
  let m := mech d in
  _ ← modify (set_mech (UpdateLast now sectorNumber (MkDisk (backing m) true (lastSector m) (bufferInit m))));
  mret (data, ticks).
Definition host_write (now sectorNumber : Z) (data : list Z) : M HostDisk Z :=
  d ← get;
  let ticks := ComputeLatency now (mech d) sectorNumber true in
  _ ← ASSERT (negb (active (mech d)));
  _ ← ASSERT ((0 <=? sectorNumber) && (sectorNumber <? NumSectors));
  _ ← zoom host_lens (Lseek (fileno d) (SectorSize * sectorNumber + MagicSize) SEEK_SET);
  _ ← zoom host_lens (WriteFile (fileno d) data);
  let m := mech d in
  _ ← modify (set_mech (UpdateLast now sectorNumber (MkDisk (backing m) true (lastSector m) (bufferInit m))));
  mret ticks.

(** [Disk::HandleInterrupt] before it calls the handler. *)
Definition host_interrupt (d : HostDisk) : HostDisk := set_mech (HandleInterrupt (mech d)) d.
End HostDisk.
Arguments HostDisk H : clear implicits.

(** ** Sectors in a row of bytes *)

Section Chunks.
Context (n : nat).
Implicit Types img : list (list Z).

Lemma length_chunks img : Forall (fun bs => length bs = n) img -> length (concat img) = (length img * n)%nat.
Proof. induction 1 as [|bs img Hbs _ IH]; [done|]. cbn. rewrite length_app, IH. lia. Qed.

Lemma chunks_split img s bs : img !! s = Some bs -> Forall (fun bs => length bs = n) img ->
  concat img = concat (take s img) ++ bs ++ concat (drop (S s) img) /\ length (concat (take s img)) = (s * n)%nat /\ length bs = n.
Proof.
  intros Hs Hall. split_and!.
  - rewrite <- (take_drop_middle img s bs Hs) at 1. by rewrite concat_app.
  - rewrite length_chunks by (by apply Forall_take). apply lookup_lt_Some in Hs. rewrite length_take. f_equal. lia.
  - by eapply (Forall_lookup_1 (fun bs => length bs = n) img).
Qed.

Lemma read_chunk img s bs : img !! s = Some bs -> Forall (fun bs => length bs = n) img -> take n (drop (s * n) (concat img)) = bs.
Proof.
  intros Hs Hall. destruct (chunks_split img s bs Hs Hall) as (-> & Hl & Hbs). rewrite drop_app_length' by done.
  by apply take_app_length'.
Qed.

Lemma write_chunk img s bs bs' : img !! s = Some bs -> Forall (fun bs => length bs = n) img -> length bs' = n ->
  ins (s * n) bs' (concat img) = concat (<[s := bs']> img).
Proof.
  intros Hs Hall Hbs'. destruct (chunks_split img s bs Hs Hall) as (Heq & Hl & Hbs). pose proof (lookup_lt_Some _ _ _ Hs) as Hlt.
  rewrite insert_take_drop by done. rewrite concat_app. cbn [concat]. unfold ins. rewrite Heq.
  rewrite take_app_length' by done. f_equal. f_equal.
  rewrite (app_assoc _ bs), drop_app_length'; [done|]. rewrite length_app. lia.
Qed.
End Chunks.

(** The bytes of the file of a disk. *)
Definition disk_bytes (img : image) : list Z := le_bytes 4 MagicNumber ++ concat img.

Lemma image_chunks img : image_ok img -> Forall (fun bs => length bs = 128%nat) img.
Proof. intros [_ Hs]. eapply Forall_impl; [exact Hs|]. by intros bs [Hl _]. Qed.
Lemma length_disk_bytes img : image_ok img -> length (disk_bytes img) = (4 + 1024 * 128)%nat.
Proof.
  intros Him. unfold disk_bytes. rewrite length_app, length_le_bytes, (length_chunks 128) by (by apply image_chunks).
  destruct Him as [-> _]. done.
Qed.

Lemma overwrite_ins off bs buf : (off + length bs <= length buf)%nat -> overwrite off bs buf = ins off bs buf.
Proof.
  intros Hl. unfold overwrite, ins. destruct bs as [|b bs]; [cbn; by rewrite Nat.add_0_r, take_drop|].
  replace (off - length buf)%nat with 0%nat by lia. cbn [replicate]. by rewrite app_nil_r.
Qed.

Lemma disk_bytes_read img s : image_ok img -> is_sector s ->
  take 128 (drop (Z.to_nat (SectorSize * s + MagicSize)) (disk_bytes img)) = sector img s.
Proof.
  intros Him Hs. unfold is_sector in Hs. change NumSectors with 1024 in Hs. change SectorSize with 128. change MagicSize with 4.
  destruct (lookup_lt_is_Some_2 img (Z.to_nat s)) as [bs Hbs]; [rewrite (proj1 Him); change (Z.to_nat NumSectors) with 1024%nat; lia|].
  replace (Z.to_nat (128 * s + 4)) with (4 + Z.to_nat s * 128)%nat by lia. unfold disk_bytes, sector. rewrite Hbs.
  rewrite <- drop_drop, drop_app_length' by (by rewrite length_le_bytes). by apply read_chunk; [|apply image_chunks].
Qed.

Lemma disk_bytes_write img s bs : image_ok img -> is_sector s -> length bs = 128%nat ->
  overwrite (Z.to_nat (SectorSize * s + MagicSize)) bs (disk_bytes img) = disk_bytes (update s bs img).
Proof.
  intros Him Hs Hbs. pose proof (length_disk_bytes img Him) as Hlen. unfold is_sector in Hs. change NumSectors with 1024 in Hs.
  change SectorSize with 128. change MagicSize with 4. rewrite overwrite_ins by lia.
  destruct (lookup_lt_is_Some_2 img (Z.to_nat s)) as [old Hold]; [rewrite (proj1 Him); change (Z.to_nat NumSectors) with 1024%nat; lia|].
  replace (Z.to_nat (128 * s + 4)) with (4 + Z.to_nat s * 128)%nat by lia. unfold disk_bytes, update.
  rewrite <- (write_chunk 128 img (Z.to_nat s) old bs) by (done || by apply image_chunks). unfold ins.
  rewrite take_app_add', <- app_assoc by (by rewrite length_le_bytes). do 3 f_equal.
Qed.

(** ** Requests on the file refine requests on the image *)

Section Refinement.
Context {H : Type} `{!Posix H} `{!PosixLaws H}.

(** The disk [d] in the file [i] of the host, on the files [u] that were there before it
    was opened. *)
Definition no_image (d : Disk) : Disk := MkDisk [] (active d) (lastSector d) (bufferInit d).
Record on_file (u : Unix) (i : Z) (hd : HostDisk H) (d : Disk) : Prop := {
  of_ok : host_ok (host hd);
  of_view : exists o, view (host hd) = put u (fileno hd) i o (disk_bytes (backing d));
  of_fd : u_fds u !! fileno hd = None;
  of_image : image_ok (backing d);
  of_mech : mech hd = no_image d
}.

Lemma seek_sector u i hd d s : on_file u i hd d -> is_sector s ->
  let off := SectorSize * s + MagicSize in
  exists h', Lseek (fileno hd) off SEEK_SET (host hd) = Ok (tt, h') /\ host_ok h' /\
    view h' = put u (fileno hd) i off (disk_bytes (backing d)).
Proof.
  intros [Hok (o & Hv) Hfd Him _] Hs off. assert (Hoff : 0 <= off < MaxOffset).
  { unfold off, is_sector, MaxOffset in *. change NumSectors with 1024 in *. change SectorSize with 128. change MagicSize with 4. lia. }
  destruct (seek_ok (host hd) (fileno hd) i o (disk_bytes (backing d)) off Hok) as (h' & Hr & Hok' & Hv'); [|done|].
  - rewrite Hv. apply opened_put.
  - exists h'. rewrite Hv, put_put in Hv'. done.
Qed.

Definition matches {A : Type} (u : Unix) (i : Z) (r : res (A * HostDisk H)) (spec : res (A * Disk)) : Prop :=
  match spec with
  | Ok (a, d') => exists hd', r = Ok (a, hd') /\ on_file u i hd' d'
  | Stop w => r = Stop w
  end.

Lemma read_matches u i hd d now s : on_file u i hd d -> matches u i (host_read now s hd) (ReadRequest now s d).
Proof.
  intros Hd. pose proof Hd as [Hok _ Hfd Him Hm]. unfold host_read, ReadRequest, get, ASSERT. munfold. rewrite Hm. cbn [active no_image].
  destruct (negb (active d)); [|done]. destruct ((0 <=? s) && (s <? NumSectors)) eqn:Hr; [|done].
  assert (Hs : is_sector s) by (unfold is_sector; zbool; lia).
  destruct (seek_sector u i hd d s Hd Hs) as (h1 & Hl & Hok1 & Hv1). unfold zoom, host_lens. cbn [lget lset]. rewrite Hl. cbn [host].
  destruct (fd_read_ok h1 (fileno hd) i (SectorSize * s + MagicSize) (disk_bytes (backing d)) SectorSize Hok1) as (h2 & Hrd & Hok2 & Hv2).
  { rewrite Hv1. apply opened_put. }
  { done. }
  { rewrite (length_disk_bytes _ Him). unfold is_sector in Hs. change NumSectors with 1024 in Hs. change SectorSize with 128. change MagicSize with 4. lia. }
  rewrite Hrd. change (Z.to_nat SectorSize) with 128%nat. rewrite (disk_bytes_read _ _ Him Hs).
  eexists. split; [reflexivity|]. rewrite Hv1, put_put in Hv2. by constructor; [|eexists| | |].
Qed.

Lemma write_matches u i hd d now s bs : on_file u i hd d -> sector_ok bs -> matches u i (host_write now s bs hd) (WriteRequest now s bs d).
Proof.
  intros Hd Hbs. pose proof Hd as [Hok _ Hfd Him Hm]. unfold host_write, WriteRequest, get, ASSERT. munfold. rewrite Hm. cbn [active no_image].
  destruct (negb (active d)); [|done]. destruct ((0 <=? s) && (s <? NumSectors)) eqn:Hr; [|done].
  assert (Hs : is_sector s) by (unfold is_sector; zbool; lia).
  destruct (seek_sector u i hd d s Hd Hs) as (h1 & Hl & Hok1 & Hv1). unfold zoom, host_lens. cbn [lget lset]. rewrite Hl. cbn [host].
  destruct (fd_write_ok h1 (fileno hd) i (SectorSize * s + MagicSize) (disk_bytes (backing d)) bs Hok1) as (h2 & Hw & Hok2 & Hv2).
  { rewrite Hv1. apply opened_put. }
  { rewrite (proj1 Hbs). unfold is_sector, MaxOffset in *. change NumSectors with 1024 in *. change SectorSize with 128. change MagicSize with 4. lia. }
  rewrite Hw. eexists. split; [reflexivity|]. rewrite Hv1, put_put, (disk_bytes_write _ _ _ Him Hs (proj1 Hbs)) in Hv2.
  constructor; [done|by eexists|done|by apply update_ok|done].
Qed.

Lemma interrupt_matches u i hd d : on_file u i hd d -> on_file u i (host_interrupt hd) (HandleInterrupt d).
Proof. intros [Hok Hv Hfd Him Hm]. constructor; try done. cbn. by rewrite Hm. Qed.
End Refinement.

(** ** Runs *)

(** A request and its completion, at a time. *)
Inductive Request : Type := RRead (now s : Z) | RWrite (now s : Z) (bs : list Z).
Definition request_ok (r : Request) : Prop :=
  match r with RRead _ s => is_sector s | RWrite _ s bs => is_sector s /\ sector_ok bs end.

(** What a sequence of requests reads, and the image it leaves. *)
Fixpoint on_image (rs : list Request) (img : image) : list (list Z) * image :=
  match rs with
  | [] => ([], img)
  | RRead _ s :: rs => let '(out, img') := on_image rs img in (sector img s :: out, img')
  | RWrite _ s bs :: rs => on_image rs (update s bs img)
  end.

Section Sessions.
Context {H : Type} `{!Posix H}.

Definition perform (r : Request) : M (HostDisk H) (list (list Z)) :=
  match r with
  | RRead now s => '(data, _) ← host_read now s; _ ← modify host_interrupt; mret [data]
  | RWrite now s bs => _ ← host_write now s bs; _ ← modify host_interrupt; mret []
  end.
Fixpoint requests (rs : list Request) : M (HostDisk H) (list (list Z)) :=
  match rs with
  | [] => mret []
  | r :: rs => out ← perform r; outs ← requests rs; mret (out ++ outs)
  end.

(** A run of Nachos on the disk [name]: it opens the disk, makes its requests, and
    closes it. *)
Definition session (name : string) (rs : list Request) : M H (list (list Z)) := fun h =>
  match new_host_disk name h with
  | Ok hd =>
      match requests rs hd with
      | Ok (out, hd) => match delete_disk hd with Ok h => Ok (out, h) | Stop w => Stop w end
      | Stop w => Stop w
      end
  | Stop w => Stop w
  end.
Fixpoint sessions (name : string) (runs : list (list Request)) : M H (list (list Z)) :=
  match runs with
  | [] => mret []
  | rs :: runs => out ← session name rs; outs ← sessions name runs; mret (out ++ outs)
  end.
End Sessions.

Lemma on_image_app rs rs' img :
  on_image (rs ++ rs') img =
    ((on_image rs img).1 ++ (on_image rs' (on_image rs img).2).1, (on_image rs' (on_image rs img).2).2).
Proof.
  revert img. induction rs as [|[now s|now s bs] rs IH]; intros img; cbn [app on_image].
  - apply surjective_pairing.
  - rewrite IH. by destruct (on_image rs img).
  - apply IH.
Qed.

(** A new disk: the gap that [Lseek] leaves reads as zeros. *)
Definition zero_image : image := replicate (Z.to_nat NumSectors) (replicate (Z.to_nat SectorSize) 0).
Lemma zero_image_ok : image_ok zero_image.
Proof.
  split; [apply length_replicate|]. apply Forall_replicate. split; [apply length_replicate|].
  apply Forall_replicate. unfold is_byte. lia.
Qed.
Lemma concat_zeros n k : concat (replicate n (replicate k 0)) = replicate (n * k) 0.
Proof. induction n as [|n IH]; [done|]. cbn [replicate concat Nat.mul]. by rewrite IH, replicate_add. Qed.

Lemma overwrite_past off bs buf : bs <> [] -> (length buf <= off)%nat -> overwrite off bs buf = buf ++ replicate (off - length buf) 0 ++ bs.
Proof.
  intros Hb Hl. destruct bs as [|b bs]; [done|]. unfold overwrite. rewrite take_ge by (rewrite length_app, length_replicate; lia).
  rewrite drop_ge, app_nil_r, <- app_assoc by lia. done.
Qed.

Lemma zero_disk_bytes : overwrite (Z.to_nat (DiskSize - 4)) (le_bytes 4 0) (le_bytes 4 MagicNumber) = disk_bytes zero_image.
Proof.
  rewrite overwrite_past by (done || rewrite length_le_bytes; unfold DiskSize, MagicSize, NumSectors, SectorsPerTrack, NumTracks, SectorSize; lia).
  unfold disk_bytes, zero_image. rewrite length_le_bytes, concat_zeros. apply (f_equal (app _)). change (le_bytes 4 0) with (replicate 4 0).
  rewrite <- replicate_add. apply (f_equal (fun n => replicate n 0)). unfold DiskSize, MagicSize, NumSectors, SectorsPerTrack, NumTracks, SectorSize. lia.
Qed.

(** ** Opening and closing *)

(** The file [name] is a disk with contents [img], or is not there, where [img] is what
    a new disk holds. *)
Definition disk_named (u : Unix) (name : string) (i : Z) (img : image) : Prop :=
  u_dir u !! name = Some i /\ u_data u !! i = Some (disk_bytes img) /\ image_ok img.
Definition has_disk (u : Unix) (name : string) (img : image) : Prop :=
  (u_dir u !! name = None /\ img = zero_image) \/ exists i, disk_named u name i img.

(** Everything but the disk is as it was. *)
Record others_kept (name : string) (u u' : Unix) : Prop := {
  ok_fds : u_fds u' = u_fds u;
  ok_dir : forall n, n <> name -> u_dir u' !! n = u_dir u !! n;
  ok_data : forall j, is_Some (u_data u !! j) -> u_dir u !! name <> Some j -> u_data u' !! j = u_data u !! j;
  ok_name : forall j, is_Some (u_data u !! j) -> u_dir u !! name <> Some j -> u_dir u' !! name <> Some j
}.
Lemma others_kept_refl name u : others_kept name u u.
Proof. done. Qed.
Lemma others_kept_trans name u u' u'' : others_kept name u u' -> others_kept name u' u'' -> others_kept name u u''.
Proof.
  intros [F D A N] [F' D' A' N']. assert (Hs : forall j, is_Some (u_data u !! j) -> u_dir u !! name <> Some j -> is_Some (u_data u' !! j))
    by (intros j Hj Hne; by rewrite A).
  split; [congruence| | |].
  - intros n Hn. by rewrite D', D.
  - intros j Hj Hne. rewrite A', A; auto.
  - intros j Hj Hne. apply N'; auto.
Qed.

Section Persistence.
Context {H : Type} `{!Posix H} `{!PosixLaws H}.

Lemma open_disk_existing (h : H) name i img : host_ok h -> disk_named (view h) name i img ->
  exists hd, new_host_disk name h = Ok hd /\ on_file (view h) i hd (new_disk img).
Proof.
  intros Hh (Hn & Hd & Him). destruct (open_existing h name i Hh Hn) as (fd & h1 & Hop & Hh1 & Hpos & Hfd & Hv1).
  assert (Ho1 : opened (view h1) fd i 0 (disk_bytes img)) by (rewrite Hv1; split; [apply lookup_insert_eq|done]).
  destruct (fd_read_ok h1 fd i 0 (disk_bytes img) MagicSize Hh1 Ho1) as (h2 & Hr & Hh2 & Hv2).
  { done. }
  { rewrite (length_disk_bytes _ Him). change MagicSize with 4. lia. }
  exists (MkHostDisk h2 fd (new_disk [])). split.
  - unfold new_host_disk, open_disk, OpenForReadWrite, sys, ASSERT. munfold. rewrite Hop. cbn [negb orb].
    rewrite (proj2 (Z.leb_le 0 fd) Hpos), Hr. unfold disk_bytes.
    change (Z.to_nat 0) with 0%nat. rewrite drop_0, take_app_length' by done. reflexivity.
  - constructor; try done. exists (0 + MagicSize). cbn [host fileno backing new_disk].
    rewrite Hv2, Hv1. unfold put. cbn. by rewrite insert_insert_eq.
Qed.

Lemma open_disk_new (h : H) name : host_ok h -> u_dir (view h) !! name = None ->
  exists i hd, new_host_disk name h = Ok hd /\ u_data (view h) !! i = None /\
    on_file (MkUnix (<[name := i]> (u_dir (view h))) (<[i := []]> (u_data (view h))) (u_fds (view h))) i hd (new_disk zero_image).
Proof.
  intros Hh Hn. destruct (open_creates h name Hh Hn) as (fd & i & h1 & Hop & Hh1 & Hpos & Hfd & Hi & Hv1).
  set (u := MkUnix (<[name := i]> (u_dir (view h))) (<[i := []]> (u_data (view h))) (u_fds (view h))).
  assert (Hv1' : view h1 = put u fd i 0 []) by (rewrite Hv1; unfold put; cbn; by rewrite insert_insert_eq).
  destruct (fd_write_ok h1 fd i 0 [] (le_bytes 4 MagicNumber) Hh1) as (h2 & Hw2 & Hh2 & Hv2); [rewrite Hv1'; apply opened_put|done|].
  rewrite Hv1', put_put in Hv2. change (overwrite (Z.to_nat 0) (le_bytes 4 MagicNumber) []) with (le_bytes 4 MagicNumber) in Hv2.
  destruct (seek_ok h2 fd i (0 + Z.of_nat (length (le_bytes 4 MagicNumber))) (le_bytes 4 MagicNumber) (DiskSize - 4) Hh2)
    as (h3 & Hl3 & Hh3 & Hv3); [rewrite Hv2; apply opened_put|done|]. rewrite Hv2, put_put in Hv3.
  destruct (fd_write_ok h3 fd i (DiskSize - 4) (le_bytes 4 MagicNumber) (le_bytes 4 0) Hh3) as (h4 & Hw4 & Hh4 & Hv4);
    [rewrite Hv3; apply opened_put|done|]. rewrite Hv3, put_put, zero_disk_bytes in Hv4.
  exists i, (MkHostDisk h4 fd (new_disk [])). split; [|split; [done|]].
  - unfold new_host_disk, open_disk, OpenForReadWrite, OpenForWrite, sys, ASSERT. munfold. rewrite (open_missing h name Hh Hn).
    cbn [negb orb]. change (0 <=? -1) with false. cbv beta iota. rewrite Hop, Hw2, Hl3, Hw4. done.
  - constructor; [done|by eexists|done|apply zero_image_ok|done].
Qed.

Lemma close_disk u i hd d : on_file u i hd d ->
  exists h' : H, delete_disk hd = Ok h' /\ host_ok h' /\ view h' = set_data (<[i := disk_bytes (backing d)]> (u_data u)) u.
Proof.
  intros [Hok (o & Hv) Hfd _ _]. destruct (close_ok (host hd) (fileno hd) i o (disk_bytes (backing d)) Hok) as (h' & Hc & Hh' & Hv').
  - rewrite Hv. apply opened_put.
  - exists h'. unfold delete_disk. rewrite Hc. split; [done|]. split; [done|]. rewrite Hv', Hv. by apply put_close.
Qed.

(** A file that is not a disk is refused. *)
Lemma open_disk_refuses (h : H) name i d : host_ok h -> u_dir (view h) !! name = Some i -> u_data (view h) !! i = Some d ->
  Forall is_byte d -> take 4 d <> le_bytes 4 MagicNumber -> new_host_disk name h = Stop AssertFailed.
Proof.
  intros Hh Hn Hd Hb Hne. destruct (open_existing h name i Hh Hn) as (fd & h1 & Hop & Hh1 & Hpos & Hfd & Hv1).
  assert (Ho1 : opened (view h1) fd i 0 d) by (rewrite Hv1; split; [apply lookup_insert_eq|done]).
  destruct (read_partial_ok h1 fd i 0 d MagicSize Hh1 Ho1 ltac:(done)) as (h2 & Hr & _). unfold ReadPartial in Hr.
  change (Z.to_nat 0) with 0%nat in Hr. rewrite drop_0 in Hr. change (Z.to_nat MagicSize) with 4%nat in Hr.
  unfold new_host_disk, open_disk, OpenForReadWrite, Read. unfold sys in Hr |- *. munfold. rewrite Hop. cbn [negb orb ASSERT].
  unfold mret, M_ret. rewrite (proj2 (Z.leb_le 0 fd) Hpos). injection Hr as ->. unfold ASSERT. munfold.
  destruct (Z.eqb_spec (Z.of_nat (length (take 4 d))) MagicSize) as [Hl|]; [|done].
  destruct (Z.eqb_spec (i32 (le_val (take 4 d))) MagicNumber) as [Hm|]; [|done]. exfalso. apply Hne.
  assert (Hb4 : Forall is_byte (take 4 d)) by (by apply Forall_take). change MagicSize with 4 in Hl.
  rewrite <- (le_bytes_val (take 4 d) Hb4) at 1. replace (length (take 4 d)) with 4%nat by lia. f_equal.
  pose proof (le_val_range (take 4 d) Hb4) as Hv. replace (length (take 4 d)) with 4%nat in Hv by lia.
  unfold i32 in Hm. change MagicNumber with 1164413355 in *. Z.to_euclidean_division_equations. lia.
Qed.

Lemma requests_match u i rs (hd : HostDisk H) d : on_file u i hd d -> active d = false -> Forall request_ok rs ->
  exists hd' d', requests rs hd = Ok ((on_image rs (backing d)).1, hd') /\ on_file u i hd' d' /\ backing d' = (on_image rs (backing d)).2.
Proof.
  intros Hd Ha Hrs. revert hd d Hd Ha. induction Hrs as [|r rs Hr _ IH]; intros hd d Hd Ha; [by exists hd, d|].
  cbn [requests on_image]. destruct r as [now s|now s bs]; cbn [perform]; unfold request_ok in Hr.
  - pose proof (read_matches u i hd d now s Hd) as Hm. unfold ReadRequest, get, ASSERT in Hm. munfold. rewrite Ha in Hm.
    assert (Hin : (0 <=? s) && (s <? NumSectors) = true) by (unfold is_sector in Hr; rewrite andb_true_iff, Z.leb_le, Z.ltb_lt; lia).
    rewrite Hin in Hm. destruct Hm as (hd1 & -> & Hd1). apply interrupt_matches in Hd1. cbn [modify].
    destruct (IH _ _ Hd1 eq_refl) as (hd' & d' & Hrun & Hd' & Hb). rewrite Hrun. exists hd', d'. cbn in Hb |- *.
    by destruct (on_image rs (backing d)).
  - destruct Hr as [Hs Hbs]. pose proof (write_matches u i hd d now s bs Hd Hbs) as Hm. unfold WriteRequest, get, ASSERT in Hm. munfold. rewrite Ha in Hm.
    assert (Hin : (0 <=? s) && (s <? NumSectors) = true) by (unfold is_sector in Hs; rewrite andb_true_iff, Z.leb_le, Z.ltb_lt; lia).
    rewrite Hin in Hm. destruct Hm as (hd1 & -> & Hd1). apply interrupt_matches in Hd1. cbn [modify].
    destruct (IH _ _ Hd1 eq_refl) as (hd' & d' & Hrun & Hd' & Hb). rewrite Hrun. by exists hd', d'.
Qed.

(** A run once the disk is open. *)
Lemma run_and_close (h : H) u i hd name img rs :
  new_host_disk name h = Ok hd -> on_file u i hd (new_disk img) -> u_dir u !! name = Some i -> Forall request_ok rs ->
  exists h', session name rs h = Ok ((on_image rs img).1, h') /\ host_ok h' /\ has_disk (view h') name (on_image rs img).2 /\
    view h' = set_data (<[i := disk_bytes (on_image rs img).2]> (u_data u)) u.
Proof.
  intros Hnew Hon Hn Hrs. destruct (requests_match u i rs hd _ Hon eq_refl Hrs) as (hd' & d' & Hrun & Hon' & Hb).
  destruct (close_disk _ _ _ _ Hon') as (h' & Hdel & Hh' & Hv). pose proof (of_image _ _ _ _ Hon') as Him. rewrite Hb in Hv, Him.
  exists h'. unfold session. rewrite Hnew, Hrun, Hdel. split_and!; [done|done| |done].
  right. exists i. rewrite Hv. split_and!; [done|apply lookup_insert_eq|done].
Qed.

Lemma session_ok (h : H) name img rs : host_ok h -> has_disk (view h) name img -> Forall request_ok rs ->
  exists h', session name rs h = Ok ((on_image rs img).1, h') /\ host_ok h' /\ has_disk (view h') name (on_image rs img).2 /\
    others_kept name (view h) (view h').
Proof.
  intros Hh [[Hn ->]|(i & Hd)] Hrs.
  - destruct (open_disk_new h name Hh Hn) as (i & hd & Hnew & Hi & Hon).
    destruct (run_and_close h _ i hd name zero_image rs Hnew Hon) as (h' & Hrun & Hh' & Hd' & Hv); [apply lookup_insert_eq|done|].
    exists h'. split_and!; [done..|]. rewrite Hv. split; cbn.
    + done.
    + intros n Hne. by rewrite lookup_insert_ne.
    + intros j [x Hj] _. rewrite !lookup_insert_ne by (intros ->; congruence). done.
    + intros j [x Hj] _. rewrite lookup_insert_eq. intros [= ->]. congruence.
  - pose proof Hd as (Hn & _ & _). destruct (open_disk_existing h name i img Hh Hd) as (hd & Hnew & Hon).
    destruct (run_and_close h _ i hd name img rs Hnew Hon Hn Hrs) as (h' & Hrun & Hh' & Hd' & Hv).
    exists h'. split_and!; [done..|]. rewrite Hv. split; [done|done| |done]. cbn. intros j _ Hne. rewrite lookup_insert_ne; [done|]. intros ->. by apply Hne.
Qed.

(** C15. The disk outlives the program: any number of runs of Nachos on the same UNIX
    file, each opening it, making its requests and closing it, read exactly what the
    same requests read from one disk in one run, starting from zeros where the file
    was not there; the file then holds the sectors as that disk does, behind its magic
    number; no assertion fails, and no other file of the host changes. *)
Theorem disk_persists (h : H) name img runs :
  host_ok h -> has_disk (view h) name img -> Forall (Forall request_ok) runs ->
  exists h', sessions name runs h = Ok ((on_image (concat runs) img).1, h') /\ host_ok h' /\
    has_disk (view h') name (on_image (concat runs) img).2 /\ others_kept name (view h) (view h').
Proof.
  intros Hh Hd Hruns. revert h img Hh Hd. induction Hruns as [|rs runs Hrs _ IH]; intros h img Hh Hd; cbn [sessions concat].
  { exists h. by split_and!; [..|apply others_kept_refl]. }
  destruct (session_ok h name img rs Hh Hd Hrs) as (h1 & Hs & Hh1 & Hd1 & Ho1).
  destruct (IH h1 _ Hh1 Hd1) as (h' & Hss & Hh' & Hd' & Ho'). exists h'. rewrite on_image_app, (bind_ok _ _ _ _ _ Hs), (bind_ok _ _ _ _ _ Hss).
  split_and!; [done|done|done|]. by eapply others_kept_trans.
Qed.
End Persistence.

(** ** Witness: a host without files *)

Import PlainHost.

Definition demo_runs : list (list Request) :=
  [[RWrite 0 5 (replicate 128 7); RRead 600 6]; [RRead 0 5; RWrite 900 1023 (replicate 128 9)]; [RRead 0 1023; RRead 700 5]].

Lemma disk_persists_witness :
  exists h', sessions "DISK" demo_runs empty_host =
    Ok ([replicate 128 0; replicate 128 7; replicate 128 9; replicate 128 7], h').
Proof.
  destruct (disk_persists empty_host "DISK" zero_image demo_runs) as (h' & Hrun & _).
  - exact empty_host_ok.
  - left. split; reflexivity.
  - repeat constructor; unfold is_sector; try (change NumSectors with 1024; lia); by apply Forall_replicate.
  - exists h'. rewrite Hrun. vm_compute. reflexivity.
Defined.
