(* ===== verification/StubFs.v ===== *)
(** * The file system stub: [FILESYS_STUB] of [filesys/filesys.h] and [filesys/openfile.h]

    Until the file system is there, Nachos uses the host's files in its place.  The stub
    implements what a file system promises its clients: names with byte sequences behind
    them, read and written at a position.  Unlike the real one its files grow, and
    [Create] empties a file that exists. *)

From S2P Require Import Prelude Host.

(** ** The stub *)

(** [class OpenFile]. *)
Record OpenFile : Type := MkOpenFile { file : Z; currentOffset : Z }.

Section Stub.
Context {H : Type} `{!Posix H}.

(** [class OpenFile]; the bytes read come with their number, which is -1 where [read]
    fails. *)
Definition ReadAt (f : OpenFile) (numBytes position : Z) : M H (Z * list Z) :=
  _ ← Lseek (file f) position SEEK_SET;
  ReadPartial (file f) numBytes.
Definition WriteAt (f : OpenFile) (from : list Z) (position : Z) : M H Z :=
  _ ← Lseek (file f) position SEEK_SET;
  _ ← WriteFile (file f) from;
  mret (Z.of_nat (length from)).
Definition Read (f : OpenFile) (numBytes : Z) : M H (OpenFile * (Z * list Z)) :=
  '(numRead, into) ← ReadAt f numBytes (currentOffset f);
  off ← lift (int (currentOffset f + numRead));
  mret (MkOpenFile (file f) off, (numRead, into)).
Definition Write (f : OpenFile) (from : list Z) : M H (OpenFile * Z) :=
  numWritten ← WriteAt f from (currentOffset f);
  off ← lift (int (currentOffset f + numWritten));
  mret (MkOpenFile (file f) off, numWritten).
Definition Length (f : OpenFile) : M H Z :=
  _ ← Lseek (file f) 0 SEEK_END;
  Tell (file f).
Definition delete_file (f : OpenFile) : M H unit := Close (file f).

(** [class FileSystem]. *)
Definition Create (name : string) (initialSize : Z) : M H bool :=
  fileDescriptor ← OpenForWrite name;
  if fileDescriptor =? -1 then mret false else _ ← Close fileDescriptor; mret true.
Definition Open (name : string) : M H (option OpenFile) :=
  fileDescriptor ← OpenForReadWrite name false;
  if fileDescriptor =? -1 then mret None else mret (Some (MkOpenFile fileDescriptor 0)).
Definition Remove (name : string) : M H bool := failed ← Unlink name; mret (negb failed).

(** ** Programs that use it *)

(** The calls on an open file, what they give, and a program that opens a file, makes
    calls and deletes the [OpenFile]. *)
Inductive FileCall : Type :=
| CRead (n : Z) | CWrite (bs : list Z) | CReadAt (n pos : Z) | CWriteAt (bs : list Z) (pos : Z) | CLength.
Definition file_call (c : FileCall) (f : OpenFile) : M H (OpenFile * (Z * list Z)) :=
  match c with
  | CRead n => Read f n
  | CWrite bs => '(f, n) ← Write f bs; mret (f, (n, []))
  | CReadAt n pos => r ← ReadAt f n pos; mret (f, r)
  | CWriteAt bs pos => n ← WriteAt f bs pos; mret (f, (n, []))
  | CLength => n ← Length f; mret (f, (n, []))
  end.
Fixpoint file_calls (cs : list FileCall) (f : OpenFile) : M H (OpenFile * list (Z * list Z)) :=
  match cs with
  | [] => mret (f, [])
  | c :: cs => '(f, r) ← file_call c f; '(f, rs) ← file_calls cs f; mret (f, r :: rs)
  end.

Inductive FsCall : Type := FCreate (n : string) (size : Z) | FUse (n : string) (cs : list FileCall) | FRemove (n : string).
Inductive FsResult : Type := RBool (b : bool) | RMissing | RUsed (rs : list (Z * list Z)).
Definition fs_call (c : FsCall) : M H FsResult :=
  match c with
  | FCreate n size => b ← Create n size; mret (RBool b)
  | FUse n cs =>
      f ← Open n;
      match f with
      | None => mret RMissing
      | Some f => '(f, rs) ← file_calls cs f; _ ← delete_file f; mret (RUsed rs)
      end
  | FRemove n => b ← Remove n; mret (RBool b)
  end.
Fixpoint fs_calls (cs : list FsCall) : M H (list FsResult) :=
  match cs with [] => mret [] | c :: cs => r ← fs_call c; rs ← fs_calls cs; mret (r :: rs) end.
End Stub.

(** ** What they should do *)

(** A file is a position and its bytes. *)
Definition spec_call (c : FileCall) (p : Z) (d : list Z) : Z * list Z * (Z * list Z) :=
  let at_pos n pos := take (Z.to_nat n) (drop (Z.to_nat pos) d) in
  match c with
  | CRead n => let r := at_pos n p in (p + Z.of_nat (length r), d, (Z.of_nat (length r), r))
  | CWrite bs => (p + Z.of_nat (length bs), overwrite (Z.to_nat p) bs d, (Z.of_nat (length bs), []))
  | CReadAt n pos => let r := at_pos n pos in (p, d, (Z.of_nat (length r), r))
  | CWriteAt bs pos => (p, overwrite (Z.to_nat pos) bs d, (Z.of_nat (length bs), []))
  | CLength => (p, d, (Z.of_nat (length d), []))
  end.
Fixpoint spec_calls (cs : list FileCall) (p : Z) (d : list Z) : list Z * list (Z * list Z) :=
  match cs with
  | [] => (d, [])
  | c :: cs => let '(p, d, r) := spec_call c p d in let '(d, rs) := spec_calls cs p d in (d, r :: rs)
  end.

(** A file system is a map from names to bytes. *)
Definition spec_fs (c : FsCall) (F : gmap string (list Z)) : gmap string (list Z) * FsResult :=
  match c with
  | FCreate n _ => (<[n := []]> F, RBool true)
  | FUse n cs =>
      match F !! n with
      | Some d => let '(d, rs) := spec_calls cs 0 d in (<[n := d]> F, RUsed rs)
      | None => (F, RMissing)
      end
  | FRemove n => (delete n F, RBool (bool_decide (is_Some (F !! n))))
  end.
Fixpoint spec_fss (cs : list FsCall) (F : gmap string (list Z)) : gmap string (list Z) * list FsResult :=
  match cs with
  | [] => (F, [])
  | c :: cs => let '(F, r) := spec_fs c F in let '(F, rs) := spec_fss cs F in (F, r :: rs)
  end.

(** Arguments in range: counts and positions are [int]s that are not negative, and no
    access goes past what an [int] can count. *)
Definition moves (c : FileCall) : Z :=
  match c with CRead n => n | CWrite bs => Z.of_nat (length bs) | _ => 0 end.
Definition call_ok (c : FileCall) : Prop :=
  match c with
  | CRead n => 0 <= n
  | CReadAt n pos => 0 <= n < MaxOffset /\ 0 <= pos < MaxOffset
  | CWriteAt bs pos => 0 <= pos /\ pos + Z.of_nat (length bs) < MaxOffset
  | _ => True
  end.
Definition total_moves (cs : list FileCall) : Z := foldr (fun c a => moves c + a) 0 cs.
Definition fs_call_ok (c : FsCall) : Prop :=
  match c with FUse _ cs => Forall call_ok cs /\ total_moves cs < MaxOffset | _ => True end.

(** ** The stub refines it *)

Section Refinement.
Context {H : Type} `{!Posix H} `{!PosixLaws H}.

Section OneFile.
Context (u : Unix) (fd i : Z).

Lemma read_at_ok (h : H) o d p n pos : host_ok h -> view h = put u fd i o d -> 0 <= n -> 0 <= pos < MaxOffset ->
  let r := take (Z.to_nat n) (drop (Z.to_nat pos) d) in
  exists h' o', ReadAt (MkOpenFile fd p) n pos h = Ok ((Z.of_nat (length r), r), h') /\ host_ok h' /\ view h' = put u fd i o' d.
Proof.
  intros Hh Hv Hn Hpos r. destruct (seek_ok h fd i o d pos Hh) as (h1 & Hs & Hh1 & Hv1); [rewrite Hv; apply opened_put|done|].
  rewrite Hv, put_put in Hv1. destruct (read_partial_ok h1 fd i pos d n Hh1) as (h2 & Hr & Hh2 & Hv2); [rewrite Hv1; apply opened_put|done|].
  rewrite Hv1, put_put in Hv2. exists h2, (pos + Z.of_nat (length r)). unfold ReadAt. cbn [file]. by rewrite (bind_ok _ _ _ _ _ Hs).
Qed.

Lemma write_at_ok (h : H) o d p bs pos : host_ok h -> view h = put u fd i o d -> 0 <= pos -> pos + Z.of_nat (length bs) < MaxOffset ->
  exists h' o', WriteAt (MkOpenFile fd p) bs pos h = Ok (Z.of_nat (length bs), h') /\ host_ok h' /\
    view h' = put u fd i o' (overwrite (Z.to_nat pos) bs d).
Proof.
  intros Hh Hv Hpos Hmax. destruct (seek_ok h fd i o d pos Hh) as (h1 & Hs & Hh1 & Hv1); [rewrite Hv; apply opened_put|lia|].
  rewrite Hv, put_put in Hv1. destruct (fd_write_ok h1 fd i pos d bs Hh1) as (h2 & Hw & Hh2 & Hv2); [rewrite Hv1; apply opened_put|done|].
  rewrite Hv1, put_put in Hv2. exists h2, (pos + Z.of_nat (length bs)). unfold WriteAt. cbn [file].
  by rewrite (bind_ok _ _ _ _ _ Hs), (bind_ok _ _ _ _ _ Hw).
Qed.

Lemma length_ok (h : H) o d p : host_ok h -> view h = put u fd i o d -> Z.of_nat (length d) < MaxOffset ->
  exists h' o', Length (MkOpenFile fd p) h = Ok (Z.of_nat (length d), h') /\ host_ok h' /\ view h' = put u fd i o' d.
Proof.
  intros Hh Hv Hmax. destruct (opened_put u fd i o d) as [Hfd Hd]. rewrite <- Hv in Hfd, Hd.
  destruct (lseek_file h fd 0 SEEK_END i o d Hh Hfd Hd) as (h1 & Hs & Hh1 & Hv1); [by auto|cbn; lia|].
  cbn [Z.eqb SEEK_END SEEK_SET SEEK_CUR Pos.eqb] in Hs, Hv1. rewrite Z.add_0_r in Hs, Hv1. rewrite (put_offset _ _ _ o d) in Hv1 by done.
  rewrite Hv, put_put in Hv1. destruct (opened_put u fd i (Z.of_nat (length d)) d) as [Hfd1 Hd1]. rewrite <- Hv1 in Hfd1, Hd1.
  destruct (lseek_file h1 fd 0 SEEK_CUR i _ d Hh1 Hfd1 Hd1) as (h2 & Ht & Hh2 & Hv2); [by auto|cbn; lia|].
  cbn [Z.eqb SEEK_SET SEEK_CUR Pos.eqb] in Ht, Hv2. rewrite Z.add_0_r in Ht, Hv2. rewrite (put_offset _ _ _ (Z.of_nat (length d)) d) in Hv2 by done.
  rewrite Hv1, put_put in Hv2. exists h2, (Z.of_nat (length d)). split; [|done].
  unfold Length, Lseek, Tell, sys, ASSERT. munfold. cbn [file].
  rewrite Hs, i32_id, (proj2 (Z.leb_le 0 (Z.of_nat (length d)))), Ht, i32_id by (unfold is_i32, MaxOffset in *; lia). done.
Qed.

Lemma overwrite_fits pos (bs d : list Z) : 0 <= pos -> pos + Z.of_nat (length bs) < MaxOffset -> Z.of_nat (length d) < MaxOffset ->
  Z.of_nat (length (overwrite (Z.to_nat pos) bs d)) < MaxOffset.
Proof. intros H1 H2 H3. destruct bs as [|b bs]; [done|]. rewrite length_overwrite by done. lia. Qed.

Lemma file_call_ok (h : H) c o d p : host_ok h -> view h = put u fd i o d -> call_ok c -> 0 <= p -> p + moves c < MaxOffset -> Z.of_nat (length d) < MaxOffset ->
  let '(p', d', r) := spec_call c p d in
  0 <= p' <= p + moves c /\ Z.of_nat (length d') < MaxOffset /\
  exists h' o', file_call c (MkOpenFile fd p) h = Ok ((MkOpenFile fd p', r), h') /\ host_ok h' /\ view h' = put u fd i o' d'.
Proof.
  intros Hh Hv Hc Hp Hmax Hlen. destruct c as [n|bs|n pos|bs pos|]; cbn [spec_call moves file_call call_ok] in *.
  - destruct (read_at_ok h o d p n p Hh Hv Hc ltac:(lia)) as (h' & o' & Hr & Hh' & Hv').
    assert (Hl : (length (take (Z.to_nat n) (drop (Z.to_nat p) d)) <= Z.to_nat n)%nat) by apply firstn_le_length. split; [lia|]. split; [done|].
    exists h', o'. split; [|done]. unfold Read. cbn [currentOffset file]. rewrite (bind_ok _ _ _ _ _ Hr). cbv beta iota.
    erewrite bind_ok; [reflexivity|]. apply lift_ok, int_ok. unfold is_i32, MaxOffset in *. lia.
  - destruct (write_at_ok h o d p bs p Hh Hv Hp Hmax) as (h' & o' & Hw & Hh' & Hv'). split; [lia|].
    split; [apply overwrite_fits; lia|]. exists h', o'.
    assert (Hw' : Write (MkOpenFile fd p) bs h = Ok ((MkOpenFile fd (p + Z.of_nat (length bs)), Z.of_nat (length bs)), h')).
    { unfold Write. cbn [currentOffset file]. rewrite (bind_ok _ _ _ _ _ Hw).
      erewrite bind_ok; [reflexivity|]. apply lift_ok, int_ok. unfold is_i32, MaxOffset in *. lia. }
    by rewrite (bind_ok _ _ _ _ _ Hw').
  - destruct (read_at_ok h o d p n pos Hh Hv) as (h' & o' & Hr & Hh' & Hv'); [lia..|]. split; [lia|]. split; [done|]. exists h', o'.
    by rewrite (bind_ok _ _ _ _ _ Hr).
  - destruct Hc as [Hc1 Hc2]. destruct (write_at_ok h o d p bs pos Hh Hv Hc1 Hc2) as (h' & o' & Hw & Hh' & Hv'). split; [lia|].
    split; [by apply overwrite_fits|]. exists h', o'. by rewrite (bind_ok _ _ _ _ _ Hw).
  - destruct (length_ok h o d p Hh Hv Hlen) as (h' & o' & Hl & Hh' & Hv'). split; [lia|]. split; [done|]. exists h', o'.
    by rewrite (bind_ok _ _ _ _ _ Hl).
Qed.

Lemma file_calls_ok (h : H) cs o d p : host_ok h -> view h = put u fd i o d -> Forall call_ok cs -> 0 <= p -> p + total_moves cs < MaxOffset ->
  Z.of_nat (length d) < MaxOffset ->
  let '(d', rs) := spec_calls cs p d in
  Z.of_nat (length d') < MaxOffset /\
  exists h' o' p', file_calls cs (MkOpenFile fd p) h = Ok ((MkOpenFile fd p', rs), h') /\ host_ok h' /\ view h' = put u fd i o' d'.
Proof.
  intros Hh Hv Hcs. revert h o d p Hh Hv. induction Hcs as [|c cs Hc Hcs IH]; intros h o d p Hh Hv Hp Hmax Hlen; cbn [spec_calls file_calls].
  { split; [done|]. by exists h, o, p. }
  cbn [total_moves foldr] in Hmax. fold (total_moves cs) in Hmax. assert (Hpos : 0 <= total_moves cs).
  { clear -Hcs. induction Hcs as [|c cs Hc _ IH]; [done|]. cbn. fold (total_moves cs). destruct c; cbn in *; lia. }
  pose proof (file_call_ok h c o d p Hh Hv Hc Hp ltac:(lia) Hlen) as Hone. destruct (spec_call c p d) as [[p1 d1] r].
  destruct Hone as (Hp1 & Hlen1 & h1 & o1 & Hrun & Hh1 & Hv1). specialize (IH h1 o1 d1 p1 Hh1 Hv1 ltac:(lia) ltac:(lia) Hlen1).
  destruct (spec_calls cs p1 d1) as [d' rs]. destruct IH as (Hlen' & h' & o' & p' & Hruns & Hh' & Hv'). split; [done|]. exists h', o', p'.
  rewrite (bind_ok _ _ _ _ _ Hrun). cbv beta iota. by rewrite (bind_ok _ _ _ _ _ Hruns).
Qed.
End OneFile.

(** The files of the host by their names, no two of which share a file, each of a size an
    [int] can hold. *)
Record files_of (u : Unix) (F : gmap string (list Z)) : Prop := {
  fo_size : forall n d, F !! n = Some d -> Z.of_nat (length d) < MaxOffset;
  fo_look : forall n, F !! n = (u_dir u !! n ≫= fun i => u_data u !! i);
  fo_inj : forall n n' i, u_dir u !! n = Some i -> u_dir u !! n' = Some i -> n = n'
}.

Lemma files_of_data u F n i d :
  files_of u F -> u_dir u !! n = Some i -> Z.of_nat (length d) < MaxOffset -> files_of (set_data (<[i := d]> (u_data u)) u) (<[n := d]> F).
Proof.
  intros [Z L I] Hn Hd. split; [|intros n'; cbn|exact I].
  { intros n' d' [[_ <-]|[_ ?]]%lookup_insert_Some; [done|by eapply Z]. }
   destruct (decide (n' = n)) as [->|Hne].
  - by rewrite Hn, lookup_insert_eq; cbn; rewrite lookup_insert_eq.
  - rewrite lookup_insert_ne, L by done. destruct (u_dir u !! n') as [j|] eqn:Hj; [|done]. cbn.
    rewrite lookup_insert_ne; [done|]. intros ->. apply Hne. by eapply I.
Qed.
Lemma files_of_new u F n i d :
  files_of u F -> u_dir u !! n = None -> u_data u !! i = None -> Z.of_nat (length d) < MaxOffset -> (forall n' j, u_dir u !! n' = Some j -> is_Some (u_data u !! j)) ->
  files_of (MkUnix (<[n := i]> (u_dir u)) (<[i := d]> (u_data u)) (u_fds u)) (<[n := d]> F).
Proof.
  intros [Z L I] Hn Hi Hd Hdata. assert (Hnot : forall n', u_dir u !! n' <> Some i).
  { intros n' Hj. destruct (Hdata n' i Hj). congruence. }
  split; cbn.
  - intros n' d' [[_ <-]|[_ ?]]%lookup_insert_Some; [done|by eapply Z].
  - intros n'. destruct (decide (n' = n)) as [->|Hne]; [by rewrite !lookup_insert_eq; cbn; rewrite lookup_insert_eq|].
    rewrite !lookup_insert_ne, L by done. destruct (u_dir u !! n') as [j|] eqn:Hj; [|done]. cbn.
    rewrite lookup_insert_ne; [done|]. intros ->. by apply (Hnot n').
  - intros n1 n2 j H1 H2. apply lookup_insert_Some in H1 as [[<- <-]|[? H1]], H2 as [[<- ?]|[? H2]]; try done.
    + by destruct (Hnot n2).
    + subst. by destruct (Hnot n1).
    + by eapply I.
Qed.
Lemma files_of_delete u F n : files_of u F -> files_of (set_dir (delete n (u_dir u)) u) (delete n F).
Proof.
  intros [Z L I]. split; cbn.
  - intros n' d' [_ ?]%lookup_delete_Some. by eapply Z.
  - intros n'. destruct (decide (n' = n)) as [->|Hne]; [by rewrite !lookup_delete_eq|]. by rewrite !lookup_delete_ne, L by done.
  - intros n1 n2 j [_ H1]%lookup_delete_Some [_ H2]%lookup_delete_Some. by eapply I.
Qed.

Lemma close_new (h : H) u fd i o d : host_ok h -> view h = put u fd i o d -> u_fds u !! fd = None ->
  exists h', Close fd h = Ok (tt, h') /\ host_ok h' /\ view h' = set_data (<[i := d]> (u_data u)) u.
Proof.
  intros Hh Hv Hfd. destruct (close_ok h fd i o d Hh) as (h' & Hc & Hh' & Hv'); [rewrite Hv; apply opened_put|].
  exists h'. rewrite Hv', Hv. by rewrite put_close.
Qed.

(** A call of the stub does what it should to the files, and leaves no file open. *)
Definition refines (h : H) (c : FsCall) (F : gmap string (list Z)) : Prop :=
  let '(F', r) := spec_fs c F in
  exists h', fs_call c h = Ok (r, h') /\ host_ok h' /\ files_of (view h') F' /\ u_fds (view h') = u_fds (view h).

Lemma create_refines (h : H) n size F : host_ok h -> files_of (view h) F -> refines h (FCreate n size) F.
Proof.
  intros Hh HF. unfold refines, fs_call, Create, OpenForWrite. cbn [spec_fs].
  destruct (u_dir (view h) !! n) as [i|] eqn:Hn.
  - destruct (open_truncates h n i Hh Hn) as (fd & h1 & Hop & Hh1 & Hpos & Hfd & Hv1).
    destruct (close_new h1 (view h) fd i 0 [] Hh1 Hv1 Hfd) as (h' & Hc & Hh' & Hv'). exists h'. rewrite Hv'.
    split_and!; [|done|by apply files_of_data|done]. unfold sys. munfold. rewrite Hop.
    rewrite (proj2 (Z.eqb_neq fd (-1))) by lia. by rewrite Hc.
  - destruct (open_creates h n Hh Hn) as (fd & i & h1 & Hop & Hh1 & Hpos & Hfd & Hi & Hv1).
    set (u := MkUnix (<[n := i]> (u_dir (view h))) (u_data (view h)) (u_fds (view h))).
    destruct (close_new h1 u fd i 0 [] Hh1 Hv1 Hfd) as (h' & Hc & Hh' & Hv'). exists h'. rewrite Hv'.
    split_and!; [|done| |done].
    + unfold sys. munfold. rewrite Hop, (proj2 (Z.eqb_neq fd (-1))) by lia. by rewrite Hc.
    + apply (files_of_new (view h) F n i []); [done|done|done|done|]. intros n' j. by apply dir_files.
Qed.

Lemma use_refines (h : H) n cs F : host_ok h -> files_of (view h) F -> fs_call_ok (FUse n cs) -> refines h (FUse n cs) F.
Proof.
  intros Hh HF [Hcs Hmax]. unfold refines, fs_call, Open, OpenForReadWrite, sys, ASSERT. cbn [spec_fs].
  pose proof (fo_look _ _ HF n) as HFn. destruct (u_dir (view h) !! n) as [i|] eqn:Hn; cbn in HFn.
  - destruct (dir_files h n i Hh Hn) as [d Hd]. rewrite Hd in HFn. rewrite HFn.
    destruct (open_existing h n i Hh Hn) as (fd & h1 & Hop & Hh1 & Hpos & Hfd & Hv1).
    assert (Hv1' : view h1 = put (view h) fd i 0 d) by (rewrite Hv1; unfold put, set_fds; by rewrite (insert_id (u_data (view h)) i d)).
    pose proof (file_calls_ok (view h) fd i h1 cs 0 d 0 Hh1 Hv1' Hcs ltac:(lia) ltac:(lia) (fo_size _ _ HF n d HFn)) as Hrun.
    destruct (spec_calls cs 0 d) as [d' rs]. destruct Hrun as (Hlen & h2 & o & p & Hrun & Hh2 & Hv2).
    destruct (close_new h2 (view h) fd i o d' Hh2 Hv2 Hfd) as (h' & Hc & Hh' & Hv'). exists h'. rewrite Hv'.
    split_and!; [|done|by apply files_of_data|done]. munfold. rewrite Hop. cbn [negb orb].
    rewrite (proj2 (Z.eqb_neq fd (-1))) by lia. rewrite Hrun. unfold delete_file. cbn [file]. by rewrite Hc.
  - rewrite HFn. exists h. munfold. by rewrite (open_missing h n Hh Hn).
Qed.

Lemma stub_remove_refines (h : H) n F : host_ok h -> files_of (view h) F -> refines h (FRemove n) F.
Proof.
  intros Hh HF. unfold refines, fs_call, Remove, Unlink, sys. cbn [spec_fs].
  pose proof (fo_look _ _ HF n) as HFn. destruct (u_dir (view h) !! n) as [i|] eqn:Hn; cbn in HFn.
  - destruct (dir_files h n i Hh Hn) as [d Hd]. rewrite Hd in HFn. destruct (unlink_file h n Hh ltac:(eauto)) as (h' & Hu & Hh' & Hv').
    exists h'. rewrite Hv'. split_and!; [|done|by apply files_of_delete|done]. munfold. rewrite Hu, HFn. by rewrite bool_decide_true.
  - exists h. rewrite delete_id by done. split_and!; [|done..]. munfold. rewrite (unlink_missing h n Hh Hn), HFn.
    by rewrite bool_decide_false by (by intros [? ?]).
Qed.

(** C28. The stub is a file system: every program that creates files, opens them, reads
    and writes them at a position or in sequence, asks for their length and removes them
    gets from it the results that a map from names to byte sequences gives, and leaves
    the host's files as that map says; no assertion fails, and every descriptor that was
    opened is closed.  This is for files smaller than 2^31 bytes and accesses that stay
    below 2^31, so that the offsets [Lseek] and [Tell] convert to [int] are not negative,
    on a host that does what POSIX says, where a write of no bytes changes nothing. *)
Theorem stub_refines_files (h : H) cs F : host_ok h -> files_of (view h) F -> Forall fs_call_ok cs ->
  let '(F', rs) := spec_fss cs F in
  exists h', fs_calls cs h = Ok (rs, h') /\ host_ok h' /\ files_of (view h') F' /\ u_fds (view h') = u_fds (view h).
Proof.
  intros Hh HF Hcs. revert h F Hh HF. induction Hcs as [|c cs Hc _ IH]; intros h F Hh HF; cbn [spec_fss fs_calls]; [by exists h|].
  assert (Hone : refines h c F) by (destruct c; auto using create_refines, use_refines, stub_remove_refines).
  unfold refines in Hone. destruct (spec_fs c F) as [F1 r]. destruct Hone as (h1 & Hrun & Hh1 & HF1 & Hfd1).
  specialize (IH h1 F1 Hh1 HF1). destruct (spec_fss cs F1) as [F' rs]. destruct IH as (h' & Hruns & Hh' & HF' & Hfd').
  exists h'. rewrite (bind_ok _ _ _ _ _ Hrun), (bind_ok _ _ _ _ _ Hruns). split_and!; [done|done|done|congruence].
Qed.
End Refinement.

(** ** Witness: a host without files *)

Import PlainHost.

Definition demo_calls : list FsCall :=
  [FCreate "a" 0; FUse "a" [CWrite [1; 2; 3]; CWriteAt [9] 5; CLength; CReadAt 4 2; CRead 10]; FUse "b" []; FUse "a" [CRead 2; CRead 9];
   FCreate "a" 0; FUse "a" [CLength]; FRemove "a"; FRemove "a"].

Lemma stub_refines_files_witness :
  exists h', fs_calls demo_calls empty_host =
    Ok ([RBool true; RUsed [(3, []); (1, []); (6, []); (4, [3; 0; 0; 9]); (3, [0; 0; 9])]; RMissing;
         RUsed [(2, [1; 2]); (4, [3; 0; 0; 9])]; RBool true; RUsed [(0, [])]; RBool true; RBool false], h').
Proof.
  pose proof (stub_refines_files empty_host demo_calls ∅) as Hrun.
  destruct Hrun as (h' & Hrun & _).
  - exact empty_host_ok.
  - split; [by intros n d ?|reflexivity|]. intros n n' i H1. discriminate H1.
  - repeat constructor; cbn; lia.
  - exists h'. exact Hrun.
Defined.
