(* ===== verification/KernelTests.v ===== *)
(** * The first tests of [threads/threadtest.cc], on the kernel

    [ThreadTest1] (two threads that yield to each other), [ThreadTest2] (five threads and
    their states), [ThreadTest3] (more threads than there are ids), [ThreadTest4]
    (priorities) and [ThreadTest5] (time slices) take no input: their runs are computed,
    for every [Random()], which nothing draws from. *)

From S2P Require Import Prelude Sectors Disk Kernel.
From S2P Require SynchDisk.

(** The default of [Thread::Thread]. *)
Definition default_priority : Z := 255.

(** [SimpleThread]: each round prints a line and yields. *)
Definition SimpleThread : list op := replicate 5 OpYield.

(** [ThreadTest1], run by the main thread. *)
Definition ThreadTest1 : list op := OpFork default_priority SimpleThread :: SimpleThread.

(** The rounds of [ThreadTest3]: the ids it prints. *)
Fixpoint ThreadTest3 (n : nat) : M Kernel (list Z) :=
  match n with
  | O => mret []
  | S n => t ← new_thread default_priority; T ← thread t; ids ← ThreadTest3 n; mret (tid T :: ids)
  end.

Section Run.
Context (Random : nat -> Z) (cfg : Config).

(** The calls of [Yield] that the thread's own code makes in [n] steps, by the thread's
    id, and how the run ends. *)
Definition yielding (k : Kernel) : list Z :=
  match threads k !! currentThread k with
  | Some T => match frames T with FOp OpYield :: _ => [tid T] | _ => [] end
  | None => []
  end.
Fixpoint yields (n : nat) (k : Kernel) : list Z * option stop :=
  match n with
  | O => ([], None)
  | S n =>
      let here := yielding k in
      match step Random cfg k with
      | Ok (_, k') => let '(l, w) := yields n k' in (here ++ l, w)
      | Stop w => (here, Some w)
      end
  end.

(** The lines of [SimpleThread] printed before these calls: the thread, and how often it
    has looped. *)
Fixpoint loop_lines (seen : Z -> Z) (l : list Z) : list (Z * Z) :=
  match l with
  | [] => []
  | t :: l => (t, seen t) :: loop_lines (fun u => if u =? t then seen u + 1 else seen u) l
  end.
End Run.

Definition started (Random : nat -> Z) (img : image) (body : list op) : res Kernel :=
  Initialize Random SynchDisk.disk_config [0; 1] [MkLock 1 None] 0 img body.

(** What a test prints, with [n] steps for its run. *)
Definition test_output (Random : nat -> Z) (img : image) (n : nat) (body : list op) : res (list (Z * Z) * option stop) :=
  match started Random img body with
  | Ok k => let '(l, w) := yields Random SynchDisk.disk_config n k in Ok (loop_lines (fun _ => 0) l, w)
  | Stop w => Stop w
  end.

(** [ThreadTest1]: the threads alternate, each loops five times, and the machine halts
    when both have finished. *)
Lemma thread_test1_alternates Random img :
  test_output Random img 200 ThreadTest1 =
    Ok ([(0, 0); (1, 0); (0, 1); (1, 1); (0, 2); (1, 2); (0, 3); (1, 3); (0, 4); (1, 4)], Some Halted).
Proof. vm_compute. reflexivity. Qed.

(** [ThreadTest3]: the 127 ids that the main thread's leaves are given out in order, and
    the next thread fails the assertion of the constructor. *)
Definition thread_test3 (Random : nat -> Z) (img : image) (n : nat) : res (list Z) :=
  match started Random img [] with
  | Ok k => match ThreadTest3 n k with Ok (ids, _) => Ok ids | Stop w => Stop w end
  | Stop w => Stop w
  end.
Lemma thread_test3_limit Random img :
  thread_test3 Random img 127 = Ok (seqZ 1 127) /\ thread_test3 Random img 130 = Stop AssertFailed.
Proof. split; vm_compute; reflexivity. Qed.

(** ** Tests whose main thread makes its threads first and forks them later *)

(** [PrintFlag] and [SimpleThread2], which after its rounds makes a thread of priority 1;
    [SimpleThread3]: four rounds of five ticks, and [Finish], which is what [ThreadRoot]
    goes on with. *)
Definition PrintFlag : list op := [].
Definition SimpleThread2 : list op := replicate 5 OpYield ++ [OpFork 1 PrintFlag].
Definition SimpleThread3 : list op := replicate 20 OpOneTick.

(** [GetThreadStatus]: the ids, the states and the priorities it prints. *)
Definition GetThreadStatus (k : Kernel) : list (Z * ThreadStatus * Z) :=
  omap (fun p => match p with
                 | Some t => (fun T => (tid T, tstatus T, priority T)) <$> threads k !! t
                 | None => None
                 end) (thread_poiners k).

Section Tests.
Context (Random : nat -> Z) (cfg : Config).

(** The kernel runs until the main thread is back in the test, which is to return to
    [ThreadRoot]. *)
Definition in_main (k : Kernel) : bool :=
  bool_decide (currentThread k = 0%nat) &&
  match threads k !! 0%nat with Some T => match frames T with [FFinish] => true | _ => false end | None => false end.
Fixpoint settle (fuel : nat) : M Kernel unit := fun k =>
  if in_main k then Ok (tt, k)
  else match fuel with O => Stop OutOfFuel | S fuel => match step Random cfg k with Ok (_, k) => settle fuel k | Stop w => Stop w end end.
Definition call (m : M Kernel unit) : M Kernel unit := _ ← m; settle 100.

Fixpoint ThreadTest2 (n : nat) : M Kernel (list (Z * ThreadStatus * Z)) :=
  match n with
  | O => gets GetThreadStatus
  | S n => t ← new_thread default_priority; _ ← call (Fork t SimpleThread2); ThreadTest2 n
  end.
Definition ThreadTest4 : M Kernel unit :=
  _ ← SetPriority 0;
  t1 ← new_thread 12; t2 ← new_thread 24; t3 ← new_thread 36;
  _ ← call (Fork t3 SimpleThread2); _ ← call (Fork t2 SimpleThread2); call (Fork t1 SimpleThread2).
Definition ThreadTest5 : M Kernel unit :=
  _ ← SetPriority 0;
  t1 ← new_thread 12; t2 ← new_thread 12; t3 ← new_thread 24; t4 ← new_thread 24;
  _ ← call (Fork t4 SimpleThread3); _ ← call (Fork t3 SimpleThread3); _ ← call (Fork t2 SimpleThread3); call (Fork t1 SimpleThread3).

(** What a thread is about to do, when it is what the tests print: the thread's id and
    whether it is a round ([Yield] or [OneTick]) or the fork at the end. *)
Inductive event : Type := Round (t : Z) | Forks (t : Z).
Definition doing (k : Kernel) : list event :=
  match threads k !! currentThread k with
  | Some T =>
      match frames T with
      | FOp OpYield :: _ | FOp OpOneTick :: _ => [Round (tid T)]
      | FOp (OpFork _ _) :: _ => [Forks (tid T)]
      | _ => []
      end
  | None => []
  end.
Fixpoint events (n : nat) (k : Kernel) : list event * option stop :=
  match n with
  | O => ([], None)
  | S n =>
      let here := doing k in
      match step Random cfg k with
      | Ok (_, k') => let '(l, w) := events n k' in (here ++ l, w)
      | Stop w => (here, Some w)
      end
  end.
(** A test is run by the main thread, which then finishes. *)
Definition test_events {A} (img : image) (n : nat) (test : M Kernel A) : res (A * (list event * option stop)) :=
  match Initialize Random cfg [0; 1] [MkLock 1 None] 0 img [] with
  | Ok k => match (_ ← settle 100; test) k with Ok (x, k) => Ok (x, events n k) | Stop w => Stop w end
  | Stop w => Stop w
  end.
End Tests.

(** [ThreadTest]: the tests that a [testnum] runs, one after the other; the cases 4, 7
    and 8 have no [break]. *)
Definition ThreadTest (testnum : Z) : list Z :=
  if testnum =? 1 then [1] else if testnum =? 2 then [2] else if testnum =? 3 then [3]
  else if testnum =? 4 then [4; 5] else if testnum =? 5 then [5] else if testnum =? 6 then [6]
  else if testnum =? 7 then [7; 8; 9] else if testnum =? 8 then [8; 9] else if testnum =? 9 then [9] else [].

(** [ThreadTest2]: the main thread finds its five threads ready; they take turns, each
    makes its five rounds and forks, and the machine halts. *)
Lemma thread_test2_turns Random img :
  test_events Random SynchDisk.disk_config img 1000 (ThreadTest2 Random SynchDisk.disk_config 5) =
    Ok ((0, RUNNING, 255) :: ((fun t => (t, READY, 255)) <$> seqZ 1 5),
        (concat (replicate 5 (Round <$> seqZ 1 5)) ++ (Forks <$> seqZ 1 5), Some Halted)).
Proof. vm_compute. reflexivity. Qed.

(** [ThreadTest4]: the thread of the lowest priority runs last, but the other two take
    turns: [Yield] chooses the next thread among the others. *)
Lemma thread_test4_order Random img :
  test_events Random SynchDisk.disk_config img 1000 (ThreadTest4 Random SynchDisk.disk_config) =
    Ok (tt, (concat (replicate 5 [Round 1; Round 2]) ++ [Forks 1; Forks 2] ++ replicate 5 (Round 3) ++ [Forks 3], Some Halted)).
Proof. vm_compute. reflexivity. Qed.

(** [ThreadTest5], with the timer of the time slices: the two threads of the higher
    priority share the processor, then the two others, though one of the first is put
    off by a slice of a thread of lower priority when it is the only one left. *)
Definition slice_config : Config := MkConfig false true 0 0.
Definition slices (l : list (nat * Z)) : list event := l ≫= fun p => replicate (fst p) (Round (snd p)).
Lemma thread_test5_slices Random img :
  test_events Random slice_config img 3000 (ThreadTest5 Random slice_config) =
    Ok (tt, (slices [(4%nat, 2); (9%nat, 1); (9%nat, 2); (9%nat, 1); (7%nat, 2); (1%nat, 1); (9%nat, 4); (1%nat, 1);
                     (7%nat, 3); (9%nat, 4); (9%nat, 3); (2%nat, 4); (4%nat, 3)], Some Halted)).
Proof. vm_compute. reflexivity. Qed.
