(* ===== verification/Boot.v ===== *)
(** * The file system on the kernel

    The file-system theorems are proved against the interface [SectorDisk]; the
    kernel's [SynchDisk] implements it.  Put together: a system that is started on
    any disk can format it, create files and use them, every sector access going
    through the lock, the semaphore and the interrupt of the kernel. *)

From S2P Require Import Prelude BitMap Sectors FileHdr OpenFile Directory FileSys.
From S2P Require Disk Kernel SynchDisk.

Section Boot.
Context (Random : nat -> Z).
#[local] Instance kernel_disk : SectorDisk Kernel.Kernel := SynchDisk.synch_disk Random.
#[local] Instance kernel_disk_laws : SectorDiskLaws Kernel.Kernel := SynchDisk.synch_disk_laws Random.

(** [Initialize], up to the main thread's first call. *)
Definition start (img : image) (body : list Kernel.op) : res Kernel.Kernel :=
  match Kernel.Initialize Random SynchDisk.disk_config [0; 1] [Kernel.MkLock 1 None] 0 img body with
  | Ok k => match Kernel.step Random SynchDisk.disk_config k with Ok (_, k) => Ok k | Stop w => Stop w end
  | Stop w => Stop w
  end.

Lemma start_ready img body : image_ok img -> exists k, start img body = Ok k /\ disk_ok k.
Proof.
  intros Him. destruct (SynchDisk.start_quiet Random img body Him) as (k & k' & H1 & H2 & H3).
  exists k'. unfold start. by rewrite H1, H2.
Qed.

(** A file of [size] bytes is created on a formatted disk, written and read. *)
Definition session (env : Env) (n size : Z) (junk : nat -> Z) (data : list Z) : M Kernel.Kernel (Z * (Z * list Z)) :=
  fs ← new_file_system env true;
  ok ← Create env fs n size;
  f ← Open env fs n;
  match f with
  | None => halt Undefined
  | Some f =>
      w ← WriteAt junk f data (Z.of_nat (length data)) 0;
      r ← ReadAt f (Z.of_nat (length data)) 0;
      mret (w, r)
  end.

(** C2. The whole system: a kernel started on any disk formats it, creates a file
    under a new name, opens it, writes to it and reads back what it wrote, with
    every sector going through [SynchDisk], the simulated disk and its interrupts;
    no assertion fails, and the kernel is then ready for the next request.  The file fits
    the disk and is not of exactly [NumDirect] sectors, which [Allocate] gets wrong. *)
Theorem boot_format_write_read env img body n s size junk data :
  image_ok img -> env_ok env -> mem env n = Some s -> is_u32 n -> 0 <= size < 2 ^ 31 ->
  let ns := divRoundUp size SectorSize in
  ns <> NumDirect -> 1 + ns + extra_hdrs ns <= 1014 -> Z.of_nat (length data) <= size ->
  Forall is_byte data -> (forall i, is_byte (junk i)) ->
  exists k k', start img body = Ok k /\
    session env n size junk data k = Ok ((Z.of_nat (length data), (Z.of_nat (length data), data)), k') /\
    SynchDisk.quiet k'.
Proof.
  intros Him Henv Hn Hn32 Hsize ns Hns Hroom Hlen Hdata Hjunk. destruct (start_ready img body Him) as (k & Hk & Hq).
  destruct (format_ok env k (mem env) Henv Hq) as (fs & k1 & table & fm & ms & ds & ps & ext & Hfmt & Hinv & Hall & Hmap & Hfree & _).
  destruct (create_ok env fs k1 table fm ms ds ps ext n size s Henv Hinv Hn Hn32)
    as (k2 & table' & fm' & ext' & x & Hcreate & Hinv' & Hmap' & Hbytes & _); try done.
  { by rewrite Hmap, lookup_empty. }
  { destruct table as [|e table]; [discriminate (fi_len _ _ _ _ _ _ _ _ _ Hinv)|].
    exists e. split; [left|]. by apply Forall_cons in Hall as [He _]. }
  { rewrite Hfree. done. }
  destruct (open_spec env fs k2 table' fm' ms ds ps ext' n s Henv Hinv' Hn) as (k3 & Hopen & Hq3 & Hc3).
  rewrite Hmap', lookup_insert_eq in Hopen. cbn [fmap option_fmap option_map] in Hopen.
  assert (Hfile : file_at (contents k2) ext' x).
  { pose proof (fi_files _ _ _ _ _ _ _ _ _ Hinv') as Hf. rewrite Forall_forall in Hf. apply Hf.
    eapply dir_map_files. by rewrite Hmap', lookup_insert_eq. }
  destruct Hfile as [_ Hrep]. set (f := MkOpen (hdr_at (contents k2) x) 0 x) in *.
  assert (Hrep3 : file_rep (contents k3) (hdr f) (ext' x).1 (ext' x).2) by (by rewrite Hc3).
  assert (Hnb : numBytes (hdr f) = size) by done.
  destruct (write_at_spec junk f data (Z.of_nat (length data)) 0 k3 _ _ Hq3 Hrep3 Hdata Hjunk) as (k4 & Hw & Hq4 & Hrep4 & Hb4 & _); [lia..|].
  rewrite Hnb in *. rewrite Z.sub_0_r, Z.min_l, Nat2Z.id, firstn_all in Hw, Hb4 by done.
  destruct (read_at_spec f (Z.of_nat (length data)) 0 k4 _ _ Hq4 Hrep4) as (k5 & Hr & Hq5 & _); [lia..|].
  rewrite Hb4 in Hr. unfold ins in Hr. change (Z.to_nat 0) with 0%nat in Hr.
  rewrite take_0, drop_0 in Hr. cbn [app] in Hr. rewrite Nat2Z.id, take_app_length in Hr.
  exists k, k5. split; [done|]. split; [|exact Hq5]. unfold session.
  rewrite (bind_ok _ _ _ _ _ Hfmt), (bind_ok _ _ _ _ _ Hcreate), (bind_ok _ _ _ _ _ Hopen).
  rewrite (bind_ok _ _ _ _ _ Hw), (bind_ok _ _ _ _ _ Hr). done.
Qed.
End Boot.

Lemma boot_format_write_read_witness :
  exists k k', start (fun _ => 0) blank_disk [] = Ok k /\
    session (fun _ => 0) env0 1000 100 (fun _ => 0) [104; 105] k = Ok ((2, (2, [104; 105])), k').
Proof.
  destruct (boot_format_write_read (fun _ => 0) env0 blank_disk [] 1000 "a"%string 100 (fun _ => 0) [104; 105])
    as (k & k' & H1 & H2 & _).
  - apply blank_disk_ready.
  - apply env0_ok.
  - reflexivity.
  - unfold is_u32. lia.
  - lia.
  - vm_compute. discriminate.
  - vm_compute. discriminate.
  - simpl. lia.
  - repeat constructor; unfold is_byte; lia.
  - intros i. unfold is_byte. lia.
  - exists k, k'. exact (conj H1 H2).
Defined.
