(* ===== verification/AddrSpace.v ===== *)
(** * User programs in memory: [userprog/addrspace.cc], [bin/noff.h]

    An address space is made from an executable in NOFF format, read byte by byte
    from the file system to the virtual disk paging works on.  The theorem puts the
    file system and paging together: what a program reads at an address of its code
    or data is the byte the executable holds there. *)

From S2P Require Import Prelude BitMap Sectors FileHdr OpenFile Directory FileSys.
From S2P Require Import Disk Kernel Machine Paging.

(** ** The object format *)

(** [noff.h]. *)
Definition NOFFMAGIC : Z := 0xbadfad.
Record Segment : Type := MkSeg { virtualAddr : Z; inFileAddr : Z; size : Z }.
Record NoffHeader : Type := MkNoff { noffMagic : Z; code : Segment; initData : Segment; uninitData : Segment }.

(** The header as the 40 bytes [ReadAt] copies over it. *)
Definition int_at (bs : list Z) (i : nat) : Z := i32 (le_val (take 4 (drop (4 * i) bs))).
Definition noff_of_bytes (bs : list Z) : NoffHeader :=
  MkNoff (int_at bs 0) (MkSeg (int_at bs 1) (int_at bs 2) (int_at bs 3))
    (MkSeg (int_at bs 4) (int_at bs 5) (int_at bs 6)) (MkSeg (int_at bs 7) (int_at bs 8) (int_at bs 9)).

(** [SwapHeader], on [int]s converted to [unsigned] and back. *)
Definition swap_int (x : Z) : Z := i32 (WordToHost (u32 x)).
Definition swap_segment (s : Segment) : Segment :=
  MkSeg (swap_int (virtualAddr s)) (swap_int (inFileAddr s)) (swap_int (size s)).
Definition SwapHeader (h : NoffHeader) : NoffHeader :=
  MkNoff (swap_int (noffMagic h)) (swap_segment (code h)) (swap_segment (initData h)) (swap_segment (uninitData h)).

(** ** Address spaces *)

Definition UserStackSize : Z := 1024.

(** [class AddrSpace]: [vdisk] is the address of the array [disk] points to.  The
    constructor from an executable leaves [pageTable] as it is in memory. *)
Record AddrSpace : Type := MkSpace {
  vdisk : nat; space_table : option (list TranslationEntry); numPages : Z
}.

Section AddrSpace.
Context {D : Type} `{!SectorDisk D}.

(** The loops that copy a segment, byte [i] on, [n] bytes to go; [pos] is
    [code_pos] or [data_pos]. *)
Fixpoint copy_segment (f : OpenFile) (va : Z) (n : nat) (i pos : Z) (disk : list Z) : M D (list Z) :=
  match n with
  | O => mret disk
  | S n =>
      let vpn := Z.quot (va + i) PageSize in
      let offset := Z.rem (va + i) PageSize in
      let physicalAddress := vpn * PageSize + offset in
      '(_, bs) ← ReadAt f 1 pos;
      disk ← lift (splice physicalAddress bs disk);
      copy_segment f va n (i + 1) (pos + 1) disk
  end.
Definition load_segment (f : OpenFile) (s : Segment) (disk : list Z) : M D (list Z) :=
  if 0 <? size s then copy_segment f (virtualAddr s) (Z.to_nat (size s)) 0 (inFileAddr s) disk else mret disk.

(** The part of [AddrSpace::AddrSpace(OpenFile *executable)] that reads the executable: the
    number of pages and the contents of [disk].  [junk] and [fresh] are what the
    header and the new array hold before they are written. *)
Definition load_program (junk : list Z) (fresh : nat -> Z) (executable : OpenFile) : M D (Z * list Z) :=
  '(_, bs) ← ReadAt executable 40 0;
  let noffH := noff_of_bytes (bs ++ drop (length bs) junk) in
  let noffH := if negb (noffMagic noffH =? NOFFMAGIC) && (i32 (WordToHost (u32 (noffMagic noffH))) =? NOFFMAGIC)
               then SwapHeader noffH else noffH in
  _ ← ASSERT (noffMagic noffH =? NOFFMAGIC);
  total ← lift (int (size (code noffH) + size (initData noffH)));
  total ← lift (int (total + size (uninitData noffH)));
  total ← lift (int (total + UserStackSize));
  let numPages := divRoundUp (u32 total) PageSize in
  let bytes := u32 (numPages * PageSize) in
  let disk := fresh <$> seq 0 (Z.to_nat bytes) in
  disk ← load_segment executable (code noffH) disk;
  disk ← load_segment executable (initData noffH) disk;
  mret (numPages, disk).

(** [AddrSpace::AddrSpace(OpenFile *executable)]; the array it allocates is at a new address,
    [table] is what [pageTable] holds. *)
Definition new_space (junk : list Z) (fresh_byte : nat -> Z) (table : option (list TranslationEntry))
    (executable : OpenFile) : M (D * Vm) AddrSpace :=
  '(n, bs) ← zoom lfst (load_program junk fresh_byte executable);
  v ← zoom lsnd get;
  let p := fresh (dom (disks v)) in
  _ ← zoom lsnd (modify (set_disks (<[p := bs]> (disks v))));
  mret (MkSpace p table n).
End AddrSpace.

(** [AddrSpace::AddrSpace()] followed by [AddrSpaceCopy(src)]: the array is shared. *)
Definition AddrSpaceCopy (src : AddrSpace) : AddrSpace := MkSpace (vdisk src) None (numPages src).

(** [AddrSpace::~AddrSpace].  No constructor allocates a page table: a [pageTable]
    that is not [NULL] is what the memory held, and deleting it is undefined, as
    is freeing the array a second time. *)
Definition delete_space (s : AddrSpace) : M Vm unit := fun v =>
  match space_table s with
  | Some _ => Stop Undefined
  | None =>
      match disks v !! vdisk s with
      | Some _ => Ok (tt, set_disks (delete (vdisk s) (disks v)) v)
      | None => Stop Undefined
      end
  end.

(** [AddrSpace::InitRegisters]. *)
Definition InitRegisters (s : AddrSpace) : M Machine unit :=
  _ ← mfor (Z.to_nat NumTotalRegs) 0 (fun i => WriteRegister i 0);
  _ ← WriteRegister PCReg 0;
  _ ← WriteRegister NextPCReg 4;
  WriteRegister StackReg (i32 (u32 (numPages s * PageSize) - 16)).

(** [AddrSpace::RestoreState]; [AddrSpace::SaveState] does nothing. *)
Definition RestoreState (s : AddrSpace) : M Machine unit :=
  modify (fun m => set_pageTableSize (numPages s) (set_pageTable (space_table s) m)).
Definition SaveState (s : AddrSpace) : M Machine unit := mret tt.

(** [currentThread->space = space]. *)
Definition set_space (s : AddrSpace) : M Vm unit :=
  modify (fun v => MkVm (vm_machine v) (disks v) (<[vm_tid v := vdisk s]> (disk_of v)) (vm_tid v) (vm_mode v) (vm_draws v)).

(** [Thread::SaveUserState], [Thread::RestoreUserState]. *)
Fixpoint save_from (n : nat) (i : Z) (saved : list Z) : M Machine (list Z) :=
  match n with
  | O => mret saved
  | S n => x ← ReadRegister i; saved ← lift (aset saved i x); save_from n (i + 1) saved
  end.
Definition SaveUserState (userRegisters : list Z) : M Machine (list Z) :=
  save_from (Z.to_nat NumTotalRegs) 0 userRegisters.
Definition RestoreUserState (userRegisters : list Z) : M Machine unit :=
  mfor (Z.to_nat NumTotalRegs) 0 (fun i => x ← lift (aget userRegisters i); WriteRegister i x).

(** [StartProcess] of [progtest.cc] up to [machine->Run()]: [false] when the file
    cannot be opened and it returns. *)
Definition StartProcess {D : Type} `{!SectorDisk D} (env : Env) (fs : FileSystem) (junk : list Z) (fresh_byte : nat -> Z)
    (table : option (list TranslationEntry)) (filename : Z) : M (D * Vm) bool :=
  executable ← zoom lfst (Open env fs filename);
  match executable with
  | None => mret false
  | Some executable =>
      space ← new_space junk fresh_byte table executable;
      _ ← zoom lsnd (set_space space);
      _ ← zoom lsnd (zoom vm (InitRegisters space));
      _ ← zoom lsnd (zoom vm (RestoreState space));
      mret true
  end.

(** ** Loading *)

Section Loading.
Context {D : Type} `{!SectorDisk D} `{!SectorDiskLaws D}.

(** The bytes of a segment, in the file. *)
Definition segment_bytes (B : list Z) (s : Segment) : list Z :=
  take (Z.to_nat (size s)) (drop (Z.to_nat (inFileAddr s)) B).

(** A segment is inside the file and inside an address space of [n] bytes. *)
Definition segment_ok (B : list Z) (n : Z) (s : Segment) : Prop :=
  0 <= size s /\ (0 < size s -> 0 <= virtualAddr s /\ virtualAddr s + size s <= n /\
    0 <= inFileAddr s /\ inFileAddr s + size s <= Z.of_nat (length B)).

Section File.
Context (f : OpenFile) (secs hsecs : list Z).

Lemma copy_segment_spec va n i pos disk (d : D) :
  disk_ok d -> file_rep (contents d) (hdr f) secs hsecs ->
  let B := file_bytes (contents d) (hdr f) secs in
  0 <= va -> 0 <= i -> 0 <= pos -> va + i + Z.of_nat n <= Z.of_nat (length disk) ->
  pos + Z.of_nat n <= Z.of_nat (length B) ->
  exists d', copy_segment f va n i pos disk d =
    Ok (ins (Z.to_nat (va + i)) (take n (drop (Z.to_nat pos) B)) disk, d') /\ now_holds d' (contents d).
Proof.
  intros Hd Hrep B Hva. revert i pos disk d Hd Hrep B.
  induction n as [|n IH]; intros i pos disk d Hd Hrep B Hi Hpos Hdisk HB.
  { exists d. rewrite take_0, ins_nil. by repeat split. }
  pose proof (rep_size _ _ _ _ Hrep) as Hsz.
  pose proof (length_file_bytes (contents d) _ _ _ ltac:(auto with nachos) Hrep) as HlB. fold B in HlB.
  destruct (read_at_spec f 1 pos d secs hsecs Hd Hrep Hpos ltac:(lia)) as (d1 & Hrun & Hd1 & Hc1).
  destruct (lookup_lt_is_Some_2 B (Z.to_nat pos)) as [b Hb]; [lia|].
  assert (Hone : take (Z.to_nat 1) (drop (Z.to_nat pos) B) = [b]).
  { change (Z.to_nat 1) with 1%nat. rewrite (drop_S B b) by done. done. }
  cbn [copy_segment]. fold B in Hrun. rewrite Hone in Hrun. rewrite (bind_ok _ _ _ _ _ Hrun).
  assert (Hpa : Z.quot (va + i) PageSize * PageSize + Z.rem (va + i) PageSize = va + i).
  { pose proof (Z.quot_rem' (va + i) PageSize). lia. }
  rewrite Hpa. erewrite bind_ok by (apply lift_ok, splice_ok; simpl; lia).
  destruct (IH (i + 1) (pos + 1) (ins (Z.to_nat (va + i)) [b] disk) d1 Hd1) as (d2 & Hrun2 & Hd2 & Hc2);
    rewrite ?Hc1; try lia; [done|rewrite length_ins by (simpl; lia); lia|fold B; lia|].
  exists d2. rewrite Hrun2. split; [|by rewrite <- Hc1]. f_equal. f_equal. rewrite Hc1. fold B.
  rewrite (drop_S B b (Z.to_nat pos) Hb). cbn [take]. replace (Z.to_nat (pos + 1)) with (S (Z.to_nat pos)) by lia.
  replace (Z.to_nat (va + (i + 1))) with (Z.to_nat (va + i) + length [b])%nat by (simpl; lia).
  rewrite ins_ins; [done|cbn [length]; rewrite length_take, length_drop; lia].
Qed.

Lemma load_segment_spec s disk (d : D) :
  disk_ok d -> file_rep (contents d) (hdr f) secs hsecs ->
  let B := file_bytes (contents d) (hdr f) secs in
  segment_ok B (Z.of_nat (length disk)) s ->
  exists d', load_segment f s disk d =
    Ok (if 0 <? size s then ins (Z.to_nat (virtualAddr s)) (segment_bytes B s) disk else disk, d') /\ now_holds d' (contents d).
Proof.
  intros Hd Hrep B [Hs0 Hs]. unfold load_segment. destruct (Z.ltb_spec 0 (size s)) as [Hpos|].
  - destruct (Hs Hpos) as (? & ? & ? & ?).
    destruct (copy_segment_spec (virtualAddr s) (Z.to_nat (size s)) 0 (inFileAddr s) disk d) as (d' & Hrun & Hn); try done; try lia.
    + fold B. lia.
    + exists d'. rewrite Hrun, Z.add_0_r. done.
  - exists d. by repeat split.
Qed.

(** The executable, its header and the size of the space it needs. *)
Record executable_ok (B : list Z) (h : NoffHeader) (n : Z) : Prop := {
  xo_header : (40 <= length B)%nat /\ h = noff_of_bytes (take 40 B);
  xo_magic : noffMagic h = NOFFMAGIC;
  xo_sizes : 0 <= size (code h) /\ 0 <= size (initData h) /\ 0 <= size (uninitData h);
  xo_pages : n = divRoundUp (size (code h) + size (initData h) + size (uninitData h) + UserStackSize) PageSize;
  xo_fits : size (code h) + size (initData h) + size (uninitData h) + UserStackSize < 2 ^ 31;
  xo_code : segment_ok B (n * PageSize) (code h);
  xo_data : segment_ok B (n * PageSize) (initData h)
}.

(** [a] is in the range of a segment. *)
Definition in_segment (s : Segment) (a : Z) : Prop := virtualAddr s <= a < virtualAddr s + size s.
#[global] Instance in_segment_dec s a : Decision (in_segment s a).
Proof. unfold in_segment. apply _. Defined.

(** The byte of the program at address [a]: initialised data, else code. *)
Definition program_byte (B : list Z) (h : NoffHeader) (a : Z) : option Z :=
  if decide (in_segment (initData h) a) then B !! Z.to_nat (inFileAddr (initData h) + (a - virtualAddr (initData h)))
  else if decide (in_segment (code h) a) then B !! Z.to_nat (inFileAddr (code h) + (a - virtualAddr (code h)))
  else None.

(** A loaded segment. *)
Lemma loaded_lookup B s disk a :
  segment_ok B (Z.of_nat (length disk)) s -> 0 <= a ->
  (if 0 <? size s then ins (Z.to_nat (virtualAddr s)) (segment_bytes B s) disk else disk) !! Z.to_nat a =
  if decide (in_segment s a) then B !! Z.to_nat (inFileAddr s + (a - virtualAddr s)) else disk !! Z.to_nat a.
Proof.
  intros [Hs0 Hs] Ha. unfold in_segment. destruct (Z.ltb_spec 0 (size s)) as [Hpos|Hzero].
  - destruct (Hs Hpos) as (H1 & H2 & H3 & H4). unfold segment_bytes.
    assert (Hl : length (take (Z.to_nat (size s)) (drop (Z.to_nat (inFileAddr s)) B)) = Z.to_nat (size s)).
    { rewrite length_take, length_drop. lia. }
    rewrite lookup_ins by lia. rewrite Hl. destruct (decide (in_segment s a)) as [Hin|Hout]; unfold in_segment in *.
    + rewrite decide_True, decide_True by lia. rewrite lookup_take_lt, lookup_drop by lia. f_equal. lia.
    + rewrite decide_False, decide_False by lia. done.
  - rewrite decide_False by lia. done.
Qed.

Lemma loaded_length B s (disk : list Z) :
  segment_ok B (Z.of_nat (length disk)) s ->
  length (if 0 <? size s then ins (Z.to_nat (virtualAddr s)) (segment_bytes B s) disk else disk) = length disk.
Proof.
  intros [Hs0 Hs]. destruct (Z.ltb_spec 0 (size s)) as [Hpos|]; [|done]. destruct (Hs Hpos) as (? & ? & ? & ?).
  apply length_ins. unfold segment_bytes. rewrite length_take. lia.
Qed.

Lemma noff_prefix l x : length l = 40%nat -> noff_of_bytes (l ++ x) = noff_of_bytes l.
Proof.
  intros Hl. assert (Hi : forall i, (i < 10)%nat -> int_at (l ++ x) i = int_at l i).
  { intros i Hi. unfold int_at. rewrite drop_app_le by lia. rewrite take_app_le; [done|]. rewrite length_drop. lia. }
  unfold noff_of_bytes. rewrite !Hi by lia. done.
Qed.

Lemma load_program_spec junk fresh_byte (d : D) h n :
  disk_ok d -> file_rep (contents d) (hdr f) secs hsecs ->
  let B := file_bytes (contents d) (hdr f) secs in
  executable_ok B h n ->
  exists d' disk, load_program junk fresh_byte f d = Ok ((n, disk), d') /\ now_holds d' (contents d) /\
    Z.of_nat (length disk) = n * PageSize /\
    (forall a, 0 <= a -> is_Some (program_byte B h a) -> disk !! Z.to_nat a = program_byte B h a).
Proof.
  intros Hd Hrep B [[HB Hh] Hmagic (Hs1 & Hs2 & Hs3) Hn Hfit Hcode Hdata].
  unfold UserStackSize in *. change PageSize with 128 in *.
  destruct (read_at_spec f 40 0 d secs hsecs Hd Hrep ltac:(lia) ltac:(lia)) as (d1 & Hrun & Hd1 & Hc1).
  change (Z.to_nat 0) with 0%nat in Hrun. rewrite drop_0 in Hrun. fold B in Hrun. change (Z.to_nat 40) with 40%nat in Hrun.
  unfold load_program. rewrite (bind_ok _ _ _ _ _ Hrun).
  rewrite noff_prefix by (rewrite length_take; lia). rewrite <- Hh, Hmagic. cbn [negb andb Z.eqb Pos.eqb].
  change (NOFFMAGIC =? NOFFMAGIC) with true. cbn [negb andb]. rewrite Hmagic. change (NOFFMAGIC =? NOFFMAGIC) with true.
  erewrite (bind_ok (ASSERT true)) by reflexivity.
  erewrite bind_ok by (apply lift_ok, int_ok; unfold is_i32; lia).
  erewrite bind_ok by (apply lift_ok, int_ok; unfold is_i32; lia).
  erewrite bind_ok by (apply lift_ok, int_ok; unfold is_i32, UserStackSize; lia). unfold UserStackSize. change PageSize with 128.
  rewrite (u32_id (_ + 1024)) by (unfold is_u32; lia). rewrite <- Hn. pose proof (divRoundUp_spec (size (code h) + size (initData h) + size (uninitData h) + 1024) 128 ltac:(lia) ltac:(lia)) as Hr.
  rewrite <- Hn in Hr. rewrite u32_id by (unfold is_u32; lia).
  set (disk0 := fresh_byte <$> seq 0 (Z.to_nat (n * 128))).
  assert (Hl0 : Z.of_nat (length disk0) = n * 128) by (unfold disk0; rewrite length_fmap, length_seq; lia).
  destruct (load_segment_spec (code h) disk0 d1 Hd1) as (d2 & Hrun2 & Hd2 & Hc2); rewrite ?Hc1; [done|by rewrite Hl0|].
  rewrite Hc1 in Hrun2. fold B in Hrun2. rewrite (bind_ok _ _ _ _ _ Hrun2).
  set (disk1 := if 0 <? size (code h) then _ else disk0).
  assert (Hl1 : length disk1 = length disk0) by (apply loaded_length; by rewrite Hl0).
  destruct (load_segment_spec (initData h) disk1 d2 Hd2) as (d3 & Hrun3 & Hd3 & Hc3);
    rewrite ?Hc2, ?Hc1; [done|by rewrite Hl1, Hl0|].
  rewrite Hc2, Hc1 in Hrun3. fold B in Hrun3. rewrite (bind_ok _ _ _ _ _ Hrun3).
  eexists d3, _. split; [reflexivity|]. split; [by split; [|rewrite Hc3, Hc2]|].
  split; [rewrite loaded_length; [by rewrite Hl1|by rewrite Hl1, Hl0]|].
  intros a Ha Hp. rewrite loaded_lookup by (rewrite ?Hl1, ?Hl0; done). unfold program_byte in *.
  destruct (decide (in_segment (initData h) a)); [done|].
  unfold disk1. rewrite loaded_lookup by (rewrite ?Hl0; done).
  destruct (decide (in_segment (code h) a)); [done|]. by destruct Hp.
Qed.
End File.
End Loading.

(** ** Registers *)

Lemma write_register_ok m i x : length (registers m) = 40%nat -> 0 <= i < 40 ->
  WriteRegister i x m = Ok (tt, set_registers (<[Z.to_nat i := x]> (registers m)) m).
Proof.
  intros Hl Hi. unfold WriteRegister. change NumTotalRegs with 40.
  rewrite (proj2 (Z.leb_le 0 i)), (proj2 (Z.ltb_lt i 40)) by lia. cbn [andb].
  erewrite (bind_ok (ASSERT true)) by reflexivity. by apply set_reg_ok.
Qed.

Lemma read_register_ok m i x : registers m !! Z.to_nat i = Some x -> 0 <= i < 40 -> ReadRegister i m = Ok (x, m).
Proof.
  intros Hx Hi. unfold ReadRegister. change NumTotalRegs with 40.
  rewrite (proj2 (Z.leb_le 0 i)), (proj2 (Z.ltb_lt i 40)) by lia. cbn [andb].
  erewrite (bind_ok (ASSERT true)) by reflexivity. apply reg_ok; [lia|done].
Qed.

(** A loop that writes registers [i] on from [src]. *)
Lemma write_registers src (body : Z -> M Machine unit) n i m :
  (forall j m, 0 <= j < 40 -> length (registers m) = 40%nat ->
     body j m = Ok (tt, set_registers (<[Z.to_nat j := src !!! Z.to_nat j]> (registers m)) m)) ->
  length (registers m) = 40%nat -> length src = 40%nat -> 0 <= i -> i + Z.of_nat n = 40 ->
  mfor n i body m = Ok (tt, set_registers (take (Z.to_nat i) (registers m) ++ drop (Z.to_nat i) src) m).
Proof.
  intros Hbody. revert i m. induction n as [|n IH]; intros i m Hl Hsrc Hi Hn; cbn [mfor].
  - assert (i = 40) as -> by lia. rewrite take_ge, drop_ge, app_nil_r by (simpl; lia). by destruct m.
  - rewrite (bind_ok _ _ _ _ _ (Hbody i m ltac:(lia) Hl)).
    rewrite IH; [|cbn [registers set_registers]; rewrite ?length_insert; lia..].
    f_equal. f_equal. cbn [registers set_registers]. unfold set_registers. cbn [mainMemory memoryBitmap rt_page_table tlb tlbTimes pageTable pageTableSize].
    f_equal. replace (Z.to_nat (i + 1)) with (S (Z.to_nat i)) by lia.
    assert (Hlk : src !! Z.to_nat i = Some (src !!! Z.to_nat i)) by (apply list_lookup_lookup_total_lt; lia).
    rewrite (drop_S _ _ _ Hlk). erewrite take_S_r by (apply list_lookup_insert_eq; lia).
    rewrite take_insert_ge by lia. by rewrite <- app_assoc.
Qed.

(** A context switch of a user program: what [SaveUserState] saves is what
    [RestoreUserState] brings back, whatever ran in between. *)
Lemma save_user_state us m : length (registers m) = 40%nat -> length us = 40%nat ->
  SaveUserState us m = Ok (registers m, m).
Proof.
  intros Hl Hus. unfold SaveUserState. change (Z.to_nat NumTotalRegs) with 40%nat.
  assert (Hgen : forall n i us, length us = 40%nat -> 0 <= i -> i + Z.of_nat n = 40 ->
    save_from n i us m = Ok (take (Z.to_nat i) us ++ drop (Z.to_nat i) (registers m), m)).
  { clear us Hus. induction n as [|n IH]; intros i us Hus Hi Hn; cbn [save_from].
    - assert (i = 40) as -> by lia. rewrite take_ge, drop_ge, app_nil_r by (simpl; lia). done.
    - assert (Hlk : registers m !! Z.to_nat i = Some (registers m !!! Z.to_nat i)) by (apply list_lookup_lookup_total_lt; lia).
      rewrite (bind_ok _ _ _ _ _ (read_register_ok m i _ Hlk ltac:(lia))).
      erewrite bind_ok by (apply lift_ok, aset_ok; lia). rewrite IH; [|rewrite ?length_insert; lia..].
      f_equal. f_equal. replace (Z.to_nat (i + 1)) with (S (Z.to_nat i)) by lia.
      rewrite (drop_S _ _ _ Hlk). erewrite take_S_r by (apply list_lookup_insert_eq; lia).
      rewrite take_insert_ge by lia. by rewrite <- app_assoc. }
  by rewrite Hgen by lia.
Qed.

Lemma restore_user_state us m : length (registers m) = 40%nat -> length us = 40%nat ->
  RestoreUserState us m = Ok (tt, set_registers us m).
Proof.
  intros Hl Hus. unfold RestoreUserState. rewrite (write_registers us); try done.
  intros j m' Hj Hm'. erewrite bind_ok; [by apply write_register_ok|].
  apply lift_ok, aget_Some. split; [lia|]. apply list_lookup_lookup_total_lt. lia.
Qed.

(** The registers a program starts with. *)
Definition start_registers (n : Z) : list Z :=
  <[29%nat := i32 (u32 (n * PageSize) - 16)]> (<[35%nat := 4]> (replicate 40 0)).

Lemma init_registers s m : length (registers m) = 40%nat ->
  InitRegisters s m = Ok (tt, set_registers (start_registers (numPages s)) m).
Proof.
  intros Hl. unfold InitRegisters.
  erewrite bind_ok by (apply (write_registers (replicate 40 0)); try done;
    intros j m' Hj Hm'; rewrite lookup_total_replicate_2 by lia; by apply write_register_ok).
  change (Z.to_nat 0) with 0%nat. rewrite take_0, drop_0. cbn [app].
  erewrite bind_ok by (by apply write_register_ok). erewrite bind_ok by (by apply write_register_ok).
  rewrite write_register_ok by done. done.
Qed.

(** ** Starting a program *)

(** The current thread is given a new virtual disk. *)
Section Attach.
Context (v : Vm) (Hv : vm_ok v) (p : nat) (bs : list Z) (m : Machine).
Context (Hp : disks v !! p = None) (Hlive : forall t d, disk_of v !! t = Some d -> is_Some (disks v !! d)).
Context (Hfresh : forall i e, rt_page_table (vm_machine v) !! i = Some e -> valid e = true -> tid e <> vm_tid v).
Context (Htbl : rt_page_table m = rt_page_table (vm_machine v)) (Hmem : mainMemory m = mainMemory (vm_machine v)).

Definition attached : Vm :=
  MkVm m (<[p := bs]> (disks v)) (<[vm_tid v := p]> (disk_of v)) (vm_tid v) (vm_mode v) (vm_draws v).

Lemma attached_disk t a : t <> vm_tid v -> disk_byte attached t a = disk_byte v t a.
Proof.
  intros Hne. unfold disk_byte, attached. cbn [disk_of disks]. rewrite lookup_insert_ne by done.
  destruct (disk_of v !! t) as [d|] eqn:Hd; [|done]. simpl. rewrite lookup_insert_ne; [done|].
  intros ->. destruct (Hlive t d Hd). congruence.
Qed.

Lemma attached_page t vpn : t <> vm_tid v -> has_page v t vpn -> has_page attached t vpn.
Proof.
  intros Hne [Hr (d & l & Hd & Hl & Hlen)]. split; [done|]. exists d, l. unfold attached. cbn [disk_of disks].
  rewrite lookup_insert_ne by done. split; [done|]. split; [|done]. rewrite lookup_insert_ne; [done|]. intros ->. congruence.
Qed.

Lemma attached_mem i o : mem_byte attached i o = mem_byte v i o.
Proof. unfold mem_byte, attached. cbn [vm_machine]. by rewrite Hmem. Qed.

Lemma attached_ok : vm_ok attached.
Proof.
  destruct Hv as [H1 H2 H3 H4 H5 H6 H7]. split; change (vm_machine attached) with m; rewrite ?Htbl, ?Hmem; try done.
  - intros i e He Hval. apply attached_page; [by apply (Hfresh i)|by apply (H4 i)].
  - intros i e o He Hval Hd Ho. rewrite attached_mem, attached_disk by (by apply (Hfresh i)). by apply (H6 i).
  - intros t t' d. cbn [attached disk_of].
    assert (Hold : forall u, disk_of v !! u <> Some p) by (intros u Hu; destruct (Hlive u p Hu); congruence).
    destruct (decide (t = vm_tid v)) as [->|], (decide (t' = vm_tid v)) as [->|]; try done;
      rewrite ?lookup_insert_eq, ?lookup_insert_ne by done.
    + intros [= <-] Ht'. by destruct (Hold t').
    + intros Ht [= <-]. by destruct (Hold t).
    + apply H7.
Qed.

Lemma attached_mapping t vpn : mapping attached t vpn = mapping v t vpn.
Proof. unfold mapping, attached. cbn [vm_machine]. by rewrite Htbl. Qed.

Lemma attached_byte t a : vbyte attached t a = if decide (t = vm_tid v) then bs !! Z.to_nat a else vbyte v t a.
Proof.
  unfold vbyte. rewrite attached_mapping. destruct (decide (t = vm_tid v)) as [->|Hne].
  - destruct (mapping v (vm_tid v) (a / PageSize)) as [i|] eqn:Hmap.
    + unfold mapping in Hmap. apply first_Some in Hmap as (_ & e & He & Hm & _). apply (entry_maps v Hv _ _ _ _ He) in Hm as (Hval & _ & Ht).
      by destruct (Hfresh _ _ He Hval).
    + unfold disk_byte, attached. cbn [disk_of disks]. rewrite lookup_insert_eq. simpl. by rewrite lookup_insert_eq.
  - destruct (mapping v t (a / PageSize)); [apply attached_mem|by apply attached_disk].
Qed.
End Attach.

Section Start.
Context {D : Type} `{!SectorDisk D} `{!SectorDiskLaws D}.

(** The kernel is ready to start a program on its current thread: the paging
    invariant holds, every virtual disk exists, and no page in main memory belongs
    to the thread. *)
Record can_start (v : Vm) : Prop := {
  cs_vm : vm_ok v;
  cs_regs : length (registers (vm_machine v)) = 40%nat;
  cs_live : forall t d, disk_of v !! t = Some d -> is_Some (disks v !! d);
  cs_fresh : forall i e, rt_page_table (vm_machine v) !! i = Some e -> valid e = true -> tid e <> vm_tid v
}.

Lemma zoom_pair_fst {A} (p : M D A) (d : D) (v : Vm) a d' : p d = Ok (a, d') -> zoom lfst p (d, v) = Ok (a, (d', v)).
Proof. intros H. unfold zoom. cbn. by rewrite H. Qed.
Lemma zoom_pair_snd {A} (p : M Vm A) (d : D) (v : Vm) a v' : p v = Ok (a, v') -> zoom lsnd p (d, v) = Ok (a, (d, v')).
Proof. intros H. unfold zoom. cbn. by rewrite H. Qed.
Lemma zoom_machine {A} (p : M Machine A) v a m : p (vm_machine v) = Ok (a, m) -> zoom vm p v = Ok (a, set_vm_machine m v).
Proof. intros H. unfold zoom. cbn. by rewrite H. Qed.

(** [StartProcess] of an executable in the file system: the program is loaded
    and its thread is ready to run it.  Every byte of the code and initialised data
    segments is in the thread's memory, under paging, exactly as it is in the file;
    the program counter is 0, the stack pointer 16 bytes below the end of the
    space, which holds the segments and the stack; the paging invariant holds, no
    other thread's memory changes, and neither do the files. *)
Lemma start_process_ok env fs (d : D) (v : Vm) table fm ms ds ps ext n s x h np junk fresh_byte pt :
  env_ok env -> fs_inv (mem env) fs d table fm ms ds ps ext -> mem env n = Some s ->
  dir_map (mem env) table !! s = Some x ->
  executable_ok (contents_at (contents d) ext x) h np -> can_start v ->
  exists d' v', StartProcess env fs junk fresh_byte pt n (d, v) = Ok (true, (d', v')) /\
    contents d' = contents d /\ vm_ok v' /\ vm_tid v' = vm_tid v /\
    registers (vm_machine v') = start_registers np /\
    (forall a, 0 <= a -> is_Some (program_byte (contents_at (contents d) ext x) h a) ->
       vbyte v' (vm_tid v) a = program_byte (contents_at (contents d) ext x) h a) /\
    (forall vpn, 0 <= vpn < np -> has_page v' (vm_tid v) vpn) /\
    (forall t a, t <> vm_tid v -> vbyte v' t a = vbyte v t a).
Proof.
  intros Henv Hinv Hn Hx Hexe [Hv Hregs Hlive Hfresh].
  destruct (open_spec env fs d table fm ms ds ps ext n s Henv Hinv Hn) as (d1 & Hopen & Hd1 & Hc1).
  rewrite Hx in Hopen. cbn [fmap option_fmap option_map] in Hopen.
  assert (Hfile : file_at (contents d) ext x).
  { pose proof (fi_files _ _ _ _ _ _ _ _ _ Hinv) as Hf. rewrite Forall_forall in Hf. apply Hf. by eapply dir_map_files. }
  destruct Hfile as [_ Hrep]. set (f := MkOpen (hdr_at (contents d) x) 0 x) in *.
  assert (Hrep1 : file_rep (contents d1) (hdr f) (ext x).1 (ext x).2) by (by rewrite Hc1).
  destruct (load_program_spec f (ext x).1 (ext x).2 junk fresh_byte d1 h np Hd1 Hrep1) as (d2 & disk & Hload & [Hd2 Hc2] & Hlen & Hbyte);
    [by rewrite Hc1|]. rewrite Hc1 in Hbyte, Hc2. change (file_bytes (contents d) (hdr f) (ext x).1) with (contents_at (contents d) ext x) in Hbyte.
  set (p := fresh (dom (disks v))).
  assert (Hp : disks v !! p = None) by (apply not_elem_of_dom, is_fresh).
  set (m := set_pageTableSize np (set_pageTable pt (set_registers (start_registers np) (vm_machine v)))).
  exists d2, (attached v p disk m). split_and!.
  - unfold StartProcess. rewrite (bind_ok _ _ _ _ _ (zoom_pair_fst _ _ _ _ _ Hopen)). unfold new_space.
    rewrite (bind_ok _ _ (d1, v) (MkSpace p pt np) (d2, set_disks (<[p := disk]> (disks v)) v)).
    2:{ rewrite (bind_ok _ _ _ _ _ (zoom_pair_fst _ _ _ _ _ Hload)). reflexivity. }
    erewrite bind_ok by (apply zoom_pair_snd; reflexivity).
    erewrite bind_ok by (apply zoom_pair_snd, zoom_machine, init_registers; exact Hregs).
    erewrite bind_ok by (apply zoom_pair_snd, zoom_machine; reflexivity). reflexivity.
  - done.
  - by apply attached_ok.
  - done.
  - done.
  - intros a Ha Hs. rewrite attached_byte, decide_True by done. by apply Hbyte.
  - intros vpn Hvpn. split.
    + pose proof (xo_pages _ _ _ Hexe) as E. pose proof (xo_fits _ _ _ Hexe). pose proof (xo_sizes _ _ _ Hexe).
      unfold UserStackSize in *. change PageSize with 128 in *. unfold MaxPages.
      pose proof (divRoundUp_spec (size (code h) + size (initData h) + size (uninitData h) + 1024) 128). lia.
    + exists p, disk. cbn [attached disk_of disks]. rewrite !lookup_insert_eq. split; [done|]. split; [done|].
      rewrite Hlen. change PageSize with 128. nia.
  - intros t a Ht. by rewrite attached_byte, decide_False by done.
Qed.
End Start.

(** ** A machine that can start a program *)

Lemma demo_can_start : can_start demo_vm.
Proof.
  split; [apply demo_vm_ok|reflexivity| |].
  - intros t p. cbn. rewrite lookup_singleton_Some. intros [_ <-]. by eexists.
  - intros i e He Hval. exfalso. cbn in He. rewrite list_lookup_fmap in He. destruct (seq 0 _ !! i); [|done]. by injection He as <-.
Qed.
