(* ===== verification/FsTest.v ===== *)
(** * The file system's tests: [filesys/fstest.cc]

    [Copy] brings a UNIX file to the file system, [Print] shows a file, both in pieces
    of ten bytes; [PerformanceTest] writes and reads a large file; [PipeTest] sends a
    line through the pipe.  They are the file system's clients: what holds of them
    follows from what it promises. *)

From S2P Require Import Prelude BitMap Sectors FileHdr OpenFile Directory FileSys FileIO.

Definition TransferSize : Z := 10.
Definition Contents : list Z := [49; 50; 51; 52; 53; 54; 55; 56; 57; 48].
Definition ContentSize : Z := Z.of_nat (length Contents).
Definition FileSize : Z := ContentSize * 5000.

(** How [Copy], [FileWrite] and [FileRead] end, by the message they print. *)
Inductive CopyResult : Type := Copied | NoInput | NoOutput.
Inductive PerfResult : Type := PerfDone | CannotCreate | CannotOpen | CannotTransfer.

Section FsTest.
Context {D : Type} `{!SectorDisk D}.

(** [E i] is what the [i]th call of the file system meets: the clock, the memory it
    allocates. *)
Context (E : nat -> Env) (fs : FileSystem).

(** The loop of [Copy]: [rest] is what is left to read of the UNIX file. *)
Fixpoint copy_loop (fuel i : nat) (openFile : OpenFile) (rest : list Z) : M D OpenFile :=
  match fuel with
  | O => halt OutOfFuel
  | S fuel =>
      let buffer := take (Z.to_nat TransferSize) rest in
      let amountRead := Z.of_nat (length buffer) in
      if 0 <? amountRead then
        '(openFile, _) ← Write (new_buf (E i) 0) (time_now (E i)) openFile buffer amountRead;
        copy_loop fuel (S i) openFile (drop (Z.to_nat TransferSize) rest)
      else mret openFile
  end.

(** [Copy]: [from] is the contents of the UNIX file, [None] when it cannot be opened;
    [to] the address of the name. *)
Definition Copy (from : option (list Z)) (to : Z) : M D CopyResult :=
  match from with
  | None => mret NoInput
  | Some data =>
      ok ← Create (E 0) fs to (Z.of_nat (length data));
      if negb ok then mret NoOutput
      else
        openFile ← Open (E 1) fs to;
        match openFile with
        | None => halt AssertFailed
        | Some openFile => _ ← copy_loop (S (length data)) 2 openFile data; mret Copied
        end
  end.

(** The loop of [Print], after the characters [printed]. *)
Fixpoint print_loop (fuel i : nat) (openFile : OpenFile) (printed : list Z) : M D (list Z) :=
  match fuel with
  | O => halt OutOfFuel
  | S fuel =>
      '(openFile, (amountRead, buffer)) ← Read (time_now (E i)) openFile TransferSize;
      if 0 <? amountRead then print_loop fuel (S i) openFile (printed ++ take (Z.to_nat amountRead) buffer)
      else mret printed
  end.

(** [Print]: the characters printed, [None] when the file cannot be opened. *)
Definition Print (name : Z) : M D (option (list Z)) :=
  openFile ← Open (E 0) fs name;
  match openFile with
  | None => mret None
  | Some openFile => printed ← print_loop (S (Z.to_nat (Length openFile))) 1 openFile []; mret (Some printed)
  end.

(** The loop of [FileWrite], [n] rounds to go. *)
Fixpoint write_rounds (n i : nat) (openFile : OpenFile) : M D PerfResult :=
  match n with
  | O => mret PerfDone
  | S n =>
      '(openFile, numBytes) ← Write (new_buf (E i) 0) (time_now (E i)) openFile Contents ContentSize;
      if numBytes <? 10 then mret CannotTransfer else write_rounds n (S i) openFile
  end.
Definition FileWrite (FileName : Z) : M D PerfResult :=
  ok ← Create (E 0) fs FileName FileSize;
  if negb ok then mret CannotCreate
  else
    openFile ← Open (E 1) fs FileName;
    match openFile with
    | None => mret CannotOpen
    | Some openFile => write_rounds (Z.to_nat (Z.quot FileSize ContentSize)) 2 openFile
    end.

(** The loop of [FileRead]; [strncmp] of ten characters, none of which is 0 in
    [Contents]. *)
Fixpoint read_rounds (n i : nat) (openFile : OpenFile) : M D PerfResult :=
  match n with
  | O => mret PerfDone
  | S n =>
      '(openFile, (numBytes, buffer)) ← Read (time_now (E i)) openFile ContentSize;
      if (numBytes <? 10) || negb (bool_decide (buffer = Contents)) then mret CannotTransfer
      else read_rounds n (S i) openFile
  end.
Definition FileRead (first : nat) (FileName : Z) : M D PerfResult :=
  openFile ← Open (E first) fs FileName;
  match openFile with
  | None => mret CannotOpen
  | Some openFile => read_rounds (Z.to_nat (Z.quot FileSize ContentSize)) (S first) openFile
  end.

(** [PerformanceTest], up to the statistics and the dump it prints: how its two parts
    end. *)
Definition PerformanceTest (FileName : Z) : M D (PerfResult * PerfResult) :=
  w ← FileWrite FileName;
  r ← FileRead (Z.to_nat 5002) FileName;
  mret (w, r).

(** [PipeTest] and then [getDataFromPipe]: the characters that the second thread prints,
    of the ten bytes it reads those before the first 0; [input] is the word that is
    typed. *)
Fixpoint until_zero (bs : list Z) : list Z :=
  match bs with [] => [] | b :: bs => if b =? 0 then [] else b :: until_zero bs end.
Definition PipeTest (input : list Z) : M D (list Z) :=
  _ ← WritePipe (new_buf (E 0) 0) (time_now (E 0)) input (Z.of_nat (length input));
  '(_, output_data) ← ReadPipe (time_now (E 1)) 10;
  mret (until_zero output_data).
End FsTest.

(** ** Transfers in pieces *)

Section Facts.
Context {D : Type} `{!SectorDisk D} `{!SectorDiskLaws D}.
Context (E : nat -> Env) (m : strings) (HE : forall i, env_ok (E i)) (Hm : forall i, mem (E i) = m).
Context (fs : FileSystem) (table : list DirectoryEntry) (fm : BitMap) (ms ds ps : list Z) (ext : layout) (x : Z).
Context (Hx : x ∈ files table).

(** The file [x], open as [f] at position [p], has the contents [C]; the other files are
    as on the image [img0]. *)
Record open_at (img0 : image) (f : OpenFile) (d : D) (p : Z) (C : list Z) : Prop := {
  oa_inv : fs_inv m fs d table fm ms ds ps ext;
  oa_open : opened (contents d) f x;
  oa_pos : seekPosition f = p;
  oa_contents : contents_at (contents d) ext x = C;
  oa_others : Forall (fun y => y <> x -> contents_at (contents d) ext y = contents_at img0 ext y) (files table)
}.

Lemma oa_length img0 f d p C : open_at img0 f d p C -> Length f = Z.of_nat (length C) /\ Length f < 2 ^ 31 /\ 0 <= p.
Proof.
  intros [I O <- <- _]. destruct (opened_ok _ _ _ _ _ _ _ _ _ _ _ I Hx O) as [[Hd Hrep _ _ Hp] Hb].
  rewrite <- Hb. rewrite (length_file_bytes (contents d) _ _ _ ltac:(auto with nachos) Hrep). unfold Length, FileLength.
  pose proof (rep_size _ _ _ _ Hrep). lia.
Qed.

Lemma write_next img0 f d p C i c :
  open_at img0 f d p C -> Forall is_byte c -> p + Z.of_nat (length c) <= Z.of_nat (length C) ->
  exists f' d', Write (new_buf (E i) 0) (time_now (E i)) f c (Z.of_nat (length c)) d = Ok ((f', Z.of_nat (length c)), d') /\
    open_at img0 f' d' (p + Z.of_nat (length c)) (ins (Z.to_nat p) c C).
Proof.
  intros Ho Hc Hfit. destruct (oa_length _ _ _ _ _ Ho) as (Hl & Hmax & Hp). destruct Ho as [I O Hpos HC Hoth].
  destruct (write_file m fs d table fm ms ds ps ext f x (new_buf (E i) 0) (time_now (E i)) c (Z.of_nat (length c)) I Hx O)
    as (f' & d' & Hrun & I' & O' & Hpos' & HC' & Hoth' & _); [apply HE|lia|done|apply (eo_buf _ (HE i))|lia|].
  rewrite Z.min_l, Nat2Z.id, firstn_all in * by lia. exists f', d'. split; [done|]. split; [done|done|lia| |].
  - by rewrite HC', Hpos, HC.
  - rewrite Forall_forall in Hoth, Hoth'. apply Forall_forall. intros y Hy Hne. by rewrite (Hoth' y Hy Hne), (Hoth y Hy Hne).
Qed.

Lemma read_next img0 f d p C i n :
  open_at img0 f d p C -> 0 <= n -> p + n < 2 ^ 31 ->
  let r := take (Z.to_nat n) (drop (Z.to_nat p) C) in
  exists f' d', Read (time_now (E i)) f n d = Ok ((f', (Z.of_nat (length r), r)), d') /\
    open_at img0 f' d' (p + Z.of_nat (length r)) C.
Proof.
  intros [I O Hpos HC Hoth] Hn Hmax r.
  destruct (read_file m fs d table fm ms ds ps ext f x (time_now (E i)) n I Hx O) as (f' & d' & Hrun & I' & O' & Hpos' & Hall & _);
    [apply HE|lia|]. rewrite Hpos, HC in *. fold r in Hrun, Hpos'. exists f', d'. split; [done|].
  rewrite Forall_forall in Hall, Hoth. split; [done|done|done|by rewrite (Hall x Hx)|].
  apply Forall_forall. intros y Hy Hne. rewrite (Hall y Hy). by apply Hoth.
Qed.

Lemma copy_loop_ok img0 fuel i f d p C rest :
  open_at img0 f d p C -> Forall is_byte rest -> p + Z.of_nat (length rest) <= Z.of_nat (length C) ->
  (length rest < fuel)%nat ->
  exists f' d', copy_loop E fuel i f rest d = Ok (f', d') /\
    open_at img0 f' d' (p + Z.of_nat (length rest)) (ins (Z.to_nat p) rest C).
Proof.
  revert i f d p C rest. induction fuel as [|fuel IH]; intros i f d p C rest Ho Hb Hfit Hfuel; [lia|]. cbn [copy_loop].
  change (Z.to_nat TransferSize) with 10%nat. destruct (oa_length _ _ _ _ _ Ho) as (_ & _ & Hp).
  assert (Hlt : length (take 10 rest) = (10 `min` length rest)%nat) by apply length_take.
  destruct (Z.ltb_spec 0 (Z.of_nat (length (take 10 rest)))) as [Hpos|Hnil].
  - destruct (write_next img0 f d p C i (take 10 rest) Ho) as (f1 & d1 & Hrun & Ho1); [by apply Forall_take|lia|].
    rewrite (bind_ok _ _ _ _ _ Hrun). cbv beta iota.
    destruct (IH (S i) f1 d1 _ _ (drop 10 rest) Ho1) as (f' & d' & Hrun' & Ho').
    + by apply Forall_drop.
    + rewrite length_ins, length_drop by lia. lia.
    + rewrite length_drop. lia.
    + exists f', d'. split; [done|]. rewrite length_drop in Ho'.
      replace (Z.to_nat (p + Z.of_nat (length (take 10 rest)))) with (Z.to_nat p + length (take 10 rest))%nat in Ho' by lia.
      rewrite ins_ins, take_drop in Ho' by (rewrite ?length_drop; lia).
      replace (p + Z.of_nat (length rest)) with (p + Z.of_nat (length (take 10 rest)) + Z.of_nat (length rest - 10)) by lia. done.
  - assert (rest = []) as -> by (destruct rest; [done|cbn in Hnil; lia]). exists f, d. split; [done|].
    rewrite ins_nil. cbn [length]. by rewrite Z.add_0_r.
Qed.

Lemma print_loop_ok img0 fuel i f d p C printed :
  open_at img0 f d p C -> p + TransferSize < 2 ^ 31 -> Z.of_nat (length C) + TransferSize < 2 ^ 31 ->
  (length C - Z.to_nat p < fuel)%nat ->
  exists d', print_loop E fuel i f printed d = Ok (printed ++ drop (Z.to_nat p) C, d') /\
    exists f' p', open_at img0 f' d' p' C.
Proof.
  revert i f d p printed. induction fuel as [|fuel IH]; intros i f d p printed Ho Hmax HC Hfuel; [lia|]. cbn [print_loop].
  destruct (oa_length _ _ _ _ _ Ho) as (_ & _ & Hp). unfold TransferSize in *.
  destruct (read_next img0 f d p C i 10 Ho) as (f1 & d1 & Hrun & Ho1); [lia|lia|]. change (Z.to_nat 10) with 10%nat in *.
  rewrite (bind_ok _ _ _ _ _ Hrun). cbv beta iota. set (r := take 10 (drop (Z.to_nat p) C)) in *.
  assert (Hlr : length r = (10 `min` (length C - Z.to_nat p))%nat) by (unfold r; by rewrite length_take, length_drop).
  destruct (Z.ltb_spec 0 (Z.of_nat (length r))) as [Hpos|Hnil].
  - rewrite Nat2Z.id, firstn_all.
    destruct (IH (S i) f1 d1 _ (printed ++ r) Ho1) as (d' & Hrun' & Hend); [lia|lia|lia|]. exists d'. split; [|done].
    rewrite Hrun', <- app_assoc. do 3 f_equal. rewrite <- (take_drop 10 (drop (Z.to_nat p) C)). fold r. f_equal.
    rewrite drop_drop. destruct (decide (length r = 10)%nat) as [E10|Hshort].
    + f_equal. lia.
    + rewrite !drop_ge by lia. done.
  - exists d1. split; [|by eexists _, _]. rewrite drop_ge, app_nil_r by lia. done.
Qed.
End Facts.

(** ** Properties *)

Section Tests.
Context {D : Type} `{!SectorDisk D} `{!SectorDiskLaws D}.
Context (m : strings) (fs : FileSystem) (ms ds ps : list Z).

(** A new file of a given size, opened. *)
Lemma create_open (E : nat -> Env) (d : D) table fm ext n size s :
  (forall i, env_ok (E i)) -> (forall i, mem (E i) = m) ->
  fs_inv m fs d table fm ms ds ps ext -> m n = Some s -> is_u32 n -> dir_map m table !! s = None ->
  (exists e, e ∈ table /\ in_use e = false) -> 0 <= size < 2 ^ 31 ->
  let ns := divRoundUp size SectorSize in
  ns <> NumDirect -> 1 + ns + extra_hdrs ns <= Z.of_nat (length (clear_bits fm)) ->
  exists d1 d2 table' fm' ext' x f C, Create (E 0%nat) fs n size d = Ok (true, d1) /\ Open (E 1%nat) fs n d1 = Ok (Some f, d2) /\
    dir_map m table' = <[s := x]> (dir_map m table) /\ Z.of_nat (length C) = size /\
    open_at m fs table' fm' ms ds ps ext' x (contents d2) f d2 0 C /\ x ∈ files table' /\
    (forall s' y, dir_map m table !! s' = Some y ->
       contents_at (contents d2) ext' y = contents_at (contents d) ext y /\ y ∈ files table' /\ y <> x) /\
    Z.of_nat (length (clear_bits fm')) = Z.of_nat (length (clear_bits fm)) - (1 + ns + extra_hdrs ns).
Proof.
  intros HE Hm Hinv Hn H32 Hnone Hroom Hsize ns Hns Hfree.
  destruct (create_ok (E 0%nat) fs d table fm ms ds ps ext n size s) as (d1 & table' & fm' & ext' & x & Hc & Hinv1 & Hmap & Hsz & Hleft & Hkeep);
    rewrite ?Hm in *; try done.
  assert (Hx : dir_map m table' !! s = Some x) by (by rewrite Hmap, lookup_insert_eq).
  destruct (open_spec (E 1%nat) fs d1 table' fm' ms ds ps ext' n s) as (d2 & Ho & Hd2); rewrite ?Hm in *; try done.
  rewrite Hx in Ho. pose proof (dir_map_files _ _ _ _ Hx) as Hxf. pose proof (fs_inv_same _ _ _ _ _ _ _ _ _ _ Hinv1 Hd2) as Hinv2.
  pose proof (open_opened _ _ _ _ _ _ _ _ _ x Hinv2 Hxf) as Hop. destruct Hd2 as [Hd2 Hc2]. rewrite Hc2 in Hop.
  set (f := MkOpen (hdr_at (contents d1) x) 0 x) in *.
  assert (Hoa : open_at m fs table' fm' ms ds ps ext' x (contents d2) f d2 0 (contents_at (contents d2) ext' x)).
  { split; [done|by rewrite Hc2|done|done|]. by apply Forall_true. }
  exists d1, d2, table', fm', ext', x, f, (contents_at (contents d2) ext' x). split_and!; try done.
  - destruct (oa_length _ _ _ _ _ _ _ _ _ Hxf _ _ _ _ _ Hoa) as (Hl & _). rewrite <- Hl. exact Hsz.
  - intros s' y Hy. rewrite Forall_forall in Hkeep. rewrite Hc2.
    assert (Hss : s' <> s) by (intros ->; congruence).
    assert (Hy' : dir_map m table' !! s' = Some y) by (by rewrite Hmap, lookup_insert_ne).
    split; [apply Hkeep; by eapply dir_map_files|]. split; [by eapply dir_map_files|].
    intros ->. apply Hss. by eapply (dir_map_inj m fs d1 table').
Qed.

Lemma until_zero_app a b : Forall (fun x => x <> 0) a -> until_zero (a ++ b) = a ++ until_zero b.
Proof. induction 1 as [|y l Hy Hl IH]; [done|]. cbn [app until_zero]. by rewrite (proj2 (Z.eqb_neq _ _)), IH. Qed.
Lemma ins_full {A} (a C : list A) : length C = length a -> ins 0 a C = a.
Proof. intros H. unfold ins. rewrite drop_ge, app_nil_r by lia. done. Qed.

Lemma copy_ok (E : nat -> Env) (d : D) table fm ext n s data :
  (forall i, env_ok (E i)) -> (forall i, mem (E i) = m) ->
  fs_inv m fs d table fm ms ds ps ext -> m n = Some s -> is_u32 n -> dir_map m table !! s = None ->
  (exists e, e ∈ table /\ in_use e = false) -> Forall is_byte data -> Z.of_nat (length data) < 2 ^ 31 ->
  let ns := divRoundUp (Z.of_nat (length data)) SectorSize in
  ns <> NumDirect -> 1 + ns + extra_hdrs ns <= Z.of_nat (length (clear_bits fm)) ->
  exists d' table' fm' ext' x, Copy E fs (Some data) n d = Ok (Copied, d') /\
    fs_inv m fs d' table' fm' ms ds ps ext' /\ dir_map m table' = <[s := x]> (dir_map m table) /\
    contents_at (contents d') ext' x = data /\
    (forall s' y, dir_map m table !! s' = Some y -> contents_at (contents d') ext' y = contents_at (contents d) ext y) /\
    Z.of_nat (length (clear_bits fm')) = Z.of_nat (length (clear_bits fm)) - (1 + ns + extra_hdrs ns).
Proof.
  intros HE Hm Hinv Hn H32 Hnone Hroom Hb Hlen ns Hns Hfree.
  destruct (create_open E d table fm ext n (Z.of_nat (length data)) s)
    as (d1 & d2 & table' & fm' & ext' & x & f & C & Hc & Ho & Hmap & HC & Hoa & Hxf & Hkeep & Hleft); try done; [lia|].
  destruct (copy_loop_ok E m HE fs table' fm' ms ds ps ext' x Hxf (contents d2) (S (length data)) 2 f d2 0 C data Hoa Hb)
    as (f' & d' & Hrun & Hoa'); [lia|lia|].
  exists d', table', fm', ext', x. unfold Copy. rewrite (bind_ok _ _ _ _ _ Hc). cbn [negb].
  rewrite (bind_ok _ _ _ _ _ Ho), (bind_ok _ _ _ _ _ Hrun). split; [done|]. split; [apply Hoa'|]. split; [done|]. split_and!.
  - rewrite (oa_contents _ _ _ _ _ _ _ _ _ _ _ _ _ _ Hoa'). apply ins_full. lia.
  - intros s' y Hy. destruct (Hkeep s' y Hy) as (Hsame & Hyf & Hne). rewrite <- Hsame.
    pose proof (oa_others _ _ _ _ _ _ _ _ _ _ _ _ _ _ Hoa') as Hoth. rewrite Forall_forall in Hoth. by apply Hoth.
  - exact Hleft.
Qed.

Lemma print_ok (E : nat -> Env) (d : D) table fm ext n s x :
  (forall i, env_ok (E i)) -> (forall i, mem (E i) = m) ->
  fs_inv m fs d table fm ms ds ps ext -> m n = Some s -> dir_map m table !! s = Some x ->
  Z.of_nat (length (contents_at (contents d) ext x)) + TransferSize < 2 ^ 31 ->
  exists d', Print E fs n d = Ok (Some (contents_at (contents d) ext x), d') /\ fs_inv m fs d' table fm ms ds ps ext /\
    Forall (fun y => contents_at (contents d') ext y = contents_at (contents d) ext y) (files table).
Proof.
  intros HE Hm Hinv Hn Hx Hlen. pose proof (dir_map_files _ _ _ _ Hx) as Hxf.
  destruct (open_spec (E 0%nat) fs d table fm ms ds ps ext n s) as (d1 & Ho & Hd1); rewrite ?Hm in *; try done.
  rewrite Hx in Ho. pose proof (fs_inv_same _ _ _ _ _ _ _ _ _ _ Hinv Hd1) as Hinv1.
  pose proof (open_opened _ _ _ _ _ _ _ _ _ x Hinv1 Hxf) as Hop. destruct Hd1 as [Hd1 Hc1]. rewrite Hc1 in Hop.
  set (f := MkOpen (hdr_at (contents d) x) 0 x) in *.
  assert (Hoa : open_at m fs table fm ms ds ps ext x (contents d1) f d1 0 (contents_at (contents d) ext x)).
  { split; [done|by rewrite Hc1|done|by rewrite Hc1|]. by apply Forall_true. }
  destruct (oa_length _ _ _ _ _ _ _ _ _ Hxf _ _ _ _ _ Hoa) as (Hl & _).
  destruct (print_loop_ok E m HE fs table fm ms ds ps ext x Hxf (contents d1) (S (Z.to_nat (Length f))) 1 f d1 0 _ [] Hoa)
    as (d' & Hrun & f' & p' & Hoa'); [unfold TransferSize; lia|done|lia|].
  exists d'. unfold Print. rewrite (bind_ok _ _ _ _ _ Ho). cbn [fmap option_fmap option_map]. rewrite (bind_ok _ _ _ _ _ Hrun).
  destruct Hoa' as [Hinv' _ _ HC' Hoth]. split; [done|]. split; [done|]. rewrite Hc1 in Hoth.
  eapply Forall_impl; [exact Hoth|]. intros y Hy. destruct (decide (y = x)) as [->|]; [done|by apply Hy].
Qed.

Section Rounds.
Context (E : nat -> Env) (HE : forall i, env_ok (E i)) (Hm : forall i, mem (E i) = m).
Context (table : list DirectoryEntry) (fm : BitMap) (ext : layout) (x : Z) (Hx : x ∈ files table).

(** The contents after [n] rounds. *)
Definition repeated (n : nat) : list Z := concat (replicate n Contents).
Lemma repeated_length n : length (repeated n) = (10 * n)%nat.
Proof. unfold repeated. induction n as [|n IH]; [done|]. cbn [replicate concat]. rewrite length_app, IH. cbn [length Contents]. lia. Qed.
Lemma repeated_app n k : repeated (n + k) = repeated n ++ repeated k.
Proof. unfold repeated. by rewrite replicate_add, concat_app. Qed.

Lemma write_rounds_ok img0 n i f d p C :
  open_at m fs table fm ms ds ps ext x img0 f d p C -> p + 10 * Z.of_nat n <= Z.of_nat (length C) ->
  exists d' f', write_rounds E n i f d = Ok (PerfDone, d') /\
    open_at m fs table fm ms ds ps ext x img0 f' d' (p + 10 * Z.of_nat n) (ins (Z.to_nat p) (repeated n) C).
Proof.
  revert i f d p C. induction n as [|n IH]; intros i f d p C Ho Hfit; cbn [write_rounds].
  - exists d, f. split; [done|]. unfold repeated. cbn [replicate concat]. rewrite ins_nil. by rewrite Z.add_0_r.
  - destruct (oa_length _ _ _ _ _ _ _ _ _ Hx _ _ _ _ _ Ho) as (_ & _ & Hp).
    destruct (write_next E m HE fs table fm ms ds ps ext x Hx img0 f d p C i Contents Ho) as (f1 & d1 & Hrun & Ho1).
    { repeat constructor; unfold is_byte; lia. }
    { cbn [length Contents]. lia. }
    change (Z.of_nat (length Contents)) with ContentSize in Hrun. rewrite (bind_ok _ _ _ _ _ Hrun). cbn.
    change (Z.of_nat (length Contents)) with 10 in Ho1.
    destruct (IH (S i) f1 d1 _ _ Ho1) as (d' & f' & Hrun' & Ho').
    { rewrite length_ins by (cbn [length Contents]; lia). lia. }
    exists d', f'. split; [done|]. replace (Z.to_nat (p + 10)) with (Z.to_nat p + length Contents)%nat in Ho' by (cbn [length Contents]; lia).
    rewrite ins_ins in Ho' by (rewrite repeated_length; cbn [length Contents]; lia).
    change (Contents ++ repeated n) with (repeated (S n)) in Ho'. replace (p + 10 * Z.of_nat (S n)) with (p + 10 + 10 * Z.of_nat n) by lia. done.
Qed.

Lemma read_rounds_ok img0 n k i f d :
  open_at m fs table fm ms ds ps ext x img0 f d (10 * Z.of_nat k) (repeated (k + n)) -> 10 * Z.of_nat (k + n) + 10 < 2 ^ 31 ->
  exists d', read_rounds E n i f d = Ok (PerfDone, d').
Proof.
  revert k i f d. induction n as [|n IH]; intros k i f d Ho Hmax; cbn [read_rounds]; [by exists d|].
  destruct (read_next E m HE fs table fm ms ds ps ext x Hx img0 f d (10 * Z.of_nat k) (repeated (k + S n)) i ContentSize Ho)
    as (f1 & d1 & Hrun & Ho1); [done|change ContentSize with 10; lia|].
  assert (Hr : take (Z.to_nat ContentSize) (drop (Z.to_nat (10 * Z.of_nat k)) (repeated (k + S n))) = Contents).
  { rewrite repeated_app, drop_app_length' by (rewrite repeated_length; lia). done. }
  rewrite Hr in *. rewrite (bind_ok _ _ _ _ _ Hrun). cbv beta iota. rewrite bool_decide_true by done. cbn [length Contents].
  change (Z.of_nat 10 <? 10) with false. cbn [negb orb]. change (Z.of_nat (length Contents)) with 10 in Ho1.
  apply (IH (S k) (S i) f1 d1); [|lia]. replace (10 * Z.of_nat (S k)) with (10 * Z.of_nat k + 10) by lia.
  by replace (S k + n)%nat with (k + S n)%nat by lia.
Qed.
End Rounds.

(** [PerformanceTest] passes on a disk with room for its file of 50000 bytes (391
    data sectors and their headers): both parts run through all 5000 rounds, every
    [Write] transfers ten bytes and every [Read] returns the ten that were written. *)
Lemma performance_test_passes (E : nat -> Env) (d : D) table fm ext n s :
  (forall i, env_ok (E i)) -> (forall i, mem (E i) = m) ->
  fs_inv m fs d table fm ms ds ps ext -> m n = Some s -> is_u32 n -> dir_map m table !! s = None ->
  (exists e, e ∈ table /\ in_use e = false) -> 1 + 391 + extra_hdrs 391 <= Z.of_nat (length (clear_bits fm)) ->
  exists d', PerformanceTest E fs n d = Ok ((PerfDone, PerfDone), d').
Proof.
  intros HE Hm Hinv Hn H32 Hnone Hroom Hfree. unfold PerformanceTest. generalize (Z.to_nat 5002). intros K. unfold FileWrite, FileRead.
  assert (HN : 10 * Z.of_nat (Z.to_nat (Z.quot FileSize ContentSize)) = 50000) by (vm_compute; reflexivity).
  revert HN. generalize (Z.to_nat (Z.quot FileSize ContentSize)). intros N HN.
  destruct (create_open E d table fm ext n FileSize s)
    as (d1 & d2 & table' & fm' & ext' & x & f & C & Hc & Ho & Hmap & HC & Hoa & Hxf & _); try done.
  change FileSize with 50000 in HC.
  destruct (write_rounds_ok E HE table' fm' ext' x Hxf (contents d2) N 2 f d2 0 C Hoa) as (d3 & f3 & Hw & Hoa3); [lia|].
  rewrite ins_full in Hoa3 by (rewrite repeated_length; lia).
  assert (Hx : dir_map m table' !! s = Some x) by (by rewrite Hmap, lookup_insert_eq).
  destruct (open_spec (E K) fs d3 table' fm' ms ds ps ext' n s) as (d4 & Ho4 & Hd4); rewrite ?Hm; try done; [apply Hoa3|].
  rewrite Hm, Hx in Ho4. destruct Hoa3 as [Hinv3 _ _ HC3 _].
  pose proof (fs_inv_same _ _ _ _ _ _ _ _ _ _ Hinv3 Hd4) as Hinv4. destruct Hd4 as [Hd4 Hc4].
  destruct (read_rounds_ok E HE table' fm' ext' x Hxf (contents d4) N 0 (S K) (MkOpen (hdr_at (contents d3) x) 0 x) d4) as (d5 & Hr).
  { split; [done| |done|by rewrite Hc4|by apply Forall_true]. rewrite <- Hc4. by eapply open_opened. }
  { cbn [Nat.add]. lia. }
  exists d5. erewrite (bind_ok _ _ d).
  - erewrite bind_ok; [reflexivity|]. rewrite (bind_ok _ _ _ _ _ Ho4). exact Hr.
  - rewrite (bind_ok _ _ _ _ _ Hc). cbn [negb]. rewrite (bind_ok _ _ _ _ _ Ho). exact Hw.
Qed.

(** [PipeTest] on the pipe of a formatted file system: a word of ten characters
    comes out as it was typed; a shorter one comes out with what the pipe's file held
    behind it, up to ten characters or the first 0. *)
Lemma pipe_test_output (E : nat -> Env) (d : D) table fm ext input :
  (forall i, env_ok (E i)) -> fs_inv m fs d table fm ms ds ps ext ->
  numBytes (hdr_at (contents d) PipeSector) = PipeFileSize -> Forall is_byte input -> Forall (fun b => b <> 0) input ->
  (length input <= 10)%nat ->
  let P := file_bytes (contents d) (hdr_at (contents d) PipeSector) ps in
  exists d', PipeTest E input d = Ok (input ++ until_zero (take (10 - length input) (drop (length input) P)), d').
Proof.
  intros HE Hinv Hsz Hb Hnz Hlen P.
  destruct (pipe_io m fs d table fm ms ds ps ext (new_buf (E 0%nat) 0) (time_now (E 0%nat)) (time_now (E 1%nat)) input 10)
    as (d1 & d2 & Hw & Hr); try done; try apply HE; [change PipeFileSize with 500; lia|].
  exists d2. unfold PipeTest. rewrite (bind_ok _ _ _ _ _ Hw), (bind_ok _ _ _ _ _ Hr). cbv beta iota. munfold. do 3 f_equal.
  change (Z.to_nat 10) with 10%nat. rewrite take_app, (take_ge input) by done. by apply until_zero_app.
Qed.
End Tests.

(** ** Witnesses: a formatted disk *)

Import PlainDisk.

(** What the tests need of a formatted disk. *)
Lemma formatted : exists fs (d : image) table fm ms ds ps ext,
  new_file_system env0 true blank_disk = Ok (fs, d) /\ fs_inv (mem env0) fs d table fm ms ds ps ext /\
  dir_map (mem env0) table !! "a"%string = None /\ (exists e, e ∈ table /\ in_use e = false) /\
  length (clear_bits fm) = 1014%nat /\ numBytes (hdr_at (contents d) PipeSector) = PipeFileSize.
Proof.
  destruct (format_ok env0 blank_disk (mem env0) env0_ok blank_disk_ready)
    as (fs & d & table & fm & ms & ds & ps & ext & Hrun & Hinv & Hall & Hmap & Hfree & Hpipe).
  exists fs, d, table, fm, ms, ds, ps, ext. split; [exact Hrun|]. split; [exact Hinv|].
  split; [rewrite Hmap; apply lookup_empty|]. split; [|split; [exact Hfree|exact Hpipe]].
  - destruct table as [|e table]; [discriminate (fi_len _ _ _ _ _ _ _ _ _ Hinv)|].
    exists e. split; [left|]. apply Forall_cons in Hall as [He _]. exact He.
Qed.

