(* ===== verification/CommandLine.v ===== *)
(** * The command line: [main] of [threads/main.cc], [Initialize] of [threads/system.cc],
    the debugging flags of [threads/utility.cc] and the choice of a thread test

    The command line is read twice: [Initialize] takes the flags the objects are made
    with from it, then [main] makes the calls it names.  Each pass skips the words that
    belong to the other.  What [main] calls is a family of interfaces, one for each
    assignment; the file system's is implemented by the model of [filesys/]. *)

From Stdlib Require Import Ascii.
From S2P Require Import Prelude BitMap Sectors FileHdr OpenFile Directory FileSys FileIO FsTest.
From S2P Require Disk Kernel SynchDisk Boot.

(** A word of the command line: [argv[i]], as a pointer and the string it points to. *)
Record Arg : Type := MkArg { ptr : Z; text : string }.

(** The symbols the [DEFINES] of a directory's [Makefile] define. *)
Record Build : Type := MkBuild { THREADS : bool; USER_PROGRAM : bool; FILESYS_NEEDED : bool; FILESYS : bool; NETWORK : bool }.

(** ** The C library *)

Definition is_space (c : ascii) : bool := let n := Ascii.nat_of_ascii c in ((9 <=? n)%nat && (n <=? 13)%nat) || (n =? 32)%nat.
Definition digit (c : ascii) : option Z :=
  let n := Ascii.nat_of_ascii c in if (48 <=? n)%nat && (n <=? 57)%nat then Some (Z.of_nat n - 48) else None.
Fixpoint digits (acc : Z) (s : string) : Z :=
  match s with
  | String c s => match digit c with Some v => digits (10 * acc + v) s | None => acc end
  | EmptyString => acc
  end.
Fixpoint skip_space (s : string) : string :=
  match s with String c s' => if is_space c then skip_space s' else s | EmptyString => s end.
(** [atoi]; a number that is no [int] is undefined. *)
Definition atoi (s : string) : res Z :=
  let v := match skip_space s with
           | String "-"%char s => - digits 0 s
           | String "+"%char s => digits 0 s
           | s => digits 0 s
           end in
  if (- 2 ^ 31 <=? v) && (v <? 2 ^ 31) then Ok v else Stop Undefined.

Fixpoint strchr (s : string) (c : ascii) : bool :=
  match s with String c' s => bool_decide (c' = c) || strchr s c | EmptyString => bool_decide (c = Ascii.zero) end.

(** [DebugInit] and [DebugIsEnabled] of [threads/utility.cc]: [enableFlags] is [None]
    before the first. *)
Definition DebugInit (flagList : string) : option string := Some flagList.
Definition DebugIsEnabled (enableFlags : option string) (flag : ascii) : bool :=
  match enableFlags with Some fl => strchr fl flag || strchr fl "+"%char | None => false end.

(** ** The loop over the words

    [for (argc--, argv++; argc > 0; argc -= argCount, argv += argCount)]: [arg] is the
    body, which gives [argCount]. *)
Section Loop.
Context {S : Type}.
Fixpoint args_loop (fuel : nat) (arg : list Arg -> M S nat) (argv : list Arg) : M S unit :=
  match argv, fuel with
  | [], _ => mret tt
  | _, O => halt OutOfFuel
  | _, Datatypes.S fuel => argCount ← arg argv; args_loop fuel arg (drop argCount argv)
  end.
Definition each_arg (arg : list Arg -> M S nat) (argv : list Arg) : M S unit := args_loop (length argv) arg argv.

(** [strcmp] of [*argv] and [argv + i]. *)
Definition argv_is (argv : list Arg) (w : string) : bool :=
  match argv with a :: _ => bool_decide (text a = w) | [] => false end.
Definition arg_at (i : nat) (argv : list Arg) : M S Arg :=
  match argv !! i with Some a => mret a | None => halt Undefined end.
Definition argc_over (n : nat) (argv : list Arg) : M S unit := ASSERT (n <? length argv)%nat.
End Loop.

(** ** [Initialize]: the flags *)

(** The local variables of [Initialize]; [seed] is that of the last [RandomInit], [rely]
    the text given to [atof], [None] for 1. *)
Record Flags : Type := MkFlags {
  debugArgs : string; seed : option Z; randomYield : bool; roundingSlice : bool;
  debugUserProg : bool; format : bool; rely : option string; netname : Z
}.
Definition flags0 : Flags := MkFlags String.EmptyString None false false false false None 0.

Definition set_debugArgs v (f : Flags) := MkFlags v (seed f) (randomYield f) (roundingSlice f) (debugUserProg f) (format f) (rely f) (netname f).
Definition RandomInit v (f : Flags) := MkFlags (debugArgs f) (Some v) true (roundingSlice f) (debugUserProg f) (format f) (rely f) (netname f).
Definition set_roundingSlice (f : Flags) := MkFlags (debugArgs f) (seed f) (randomYield f) true (debugUserProg f) (format f) (rely f) (netname f).
Definition set_debugUserProg (f : Flags) := MkFlags (debugArgs f) (seed f) (randomYield f) (roundingSlice f) true (format f) (rely f) (netname f).
Definition set_format (f : Flags) := MkFlags (debugArgs f) (seed f) (randomYield f) (roundingSlice f) (debugUserProg f) true (rely f) (netname f).
Definition set_rely v (f : Flags) := MkFlags (debugArgs f) (seed f) (randomYield f) (roundingSlice f) (debugUserProg f) (format f) (Some v) (netname f).
Definition set_netname v (f : Flags) := MkFlags (debugArgs f) (seed f) (randomYield f) (roundingSlice f) (debugUserProg f) (format f) (rely f) v.

Section Initialize.
Context (b : Build).

(** The body of the loop of [Initialize]. *)
Definition init_arg (argv : list Arg) : M Flags nat :=
  argCount ←
    (if argv_is argv "-d" then
       if (length argv =? 1)%nat then _ ← modify (set_debugArgs "+"); mret 1%nat
       else a ← arg_at 1 argv; _ ← modify (set_debugArgs (text a)); mret 2%nat
     else if argv_is argv "-rs" then
       _ ← argc_over 1 argv; a ← arg_at 1 argv; v ← lift (atoi (text a)); _ ← modify (RandomInit v); mret 2%nat
     else mret 1%nat);
  argCount ← (if argv_is argv "-rd" then _ ← argc_over 1 argv; _ ← modify set_roundingSlice; mret 2%nat else mret argCount);
  _ ← (if USER_PROGRAM b && argv_is argv "-s" then modify set_debugUserProg else mret tt);
  _ ← (if FILESYS_NEEDED b && argv_is argv "-f" then modify set_format else mret tt);
  if NETWORK b then
    if argv_is argv "-l" then _ ← argc_over 1 argv; a ← arg_at 1 argv; _ ← modify (set_rely (text a)); mret 2%nat
    else if argv_is argv "-m" then
      _ ← argc_over 1 argv; a ← arg_at 1 argv; v ← lift (atoi (text a)); _ ← modify (set_netname v); mret 2%nat
    else mret argCount
  else mret argCount.

(** The flags [Initialize] makes its objects with; [argv] is without the command's name. *)
Definition init_flags (argv : list Arg) : res Flags :=
  match each_arg init_arg argv flags0 with Ok (_, f) => Ok f | Stop w => Stop w end.
End Initialize.

(** ** [main]: the calls *)

Class BaseCalls (S : Type) : Type := { print_copyright : M S unit; Finish : M S unit }.
Class ThreadCalls (S : Type) : Type := { print_complied : M S unit; ThreadTest : Z -> M S unit }.
Class UserCalls (S : Type) : Type :=
  { StartProcess : Arg -> M S unit; ConsoleTest : option (Arg * Arg) -> M S unit; Halt : M S unit }.
Class FileCalls (S : Type) : Type := {
  call_Copy : Arg -> Arg -> M S unit; call_Print : Arg -> M S unit; call_Remove : Arg -> M S unit;
  call_List : M S unit; call_PrintAll : M S unit; call_PerformanceTest : M S unit; call_PipeTest : M S unit
}.
Class NetCalls (S : Type) : Type := { Delay : Z -> M S unit; MailTest : Z -> M S unit }.

(** The choice of the test with [THREADS]: the body of its loop, on [testnum];
    [argv[0][1]] of an empty word is past its end. *)
Definition threads_arg (argv : list Arg) : M Z nat :=
  a ← arg_at 0 argv;
  match text a with
  | EmptyString => halt Undefined
  | String _ (String "q"%char _) =>
      x ← arg_at 1 argv; v ← lift (atoi (text x)); _ ← modify (fun _ => v); mret 2%nat
  | _ => _ ← modify (fun _ => 1); mret 1%nat
  end.
(** [testnum] is 1 at first. *)
Definition chosen_test (argv : list Arg) : res Z :=
  match each_arg threads_arg argv 1 with Ok (_, testnum) => Ok testnum | Stop w => Stop w end.

Section Main.
Context {S : Type} `{!BaseCalls S, !ThreadCalls S, !UserCalls S, !FileCalls S, !NetCalls S} (b : Build).

(** The body of the loop of [main], by its three parts. *)
Definition user_arg (argv : list Arg) : M S nat :=
  if argv_is argv "-x" then _ ← argc_over 1 argv; a ← arg_at 1 argv; _ ← StartProcess a; mret 2%nat
  else if argv_is argv "-c" then
    argCount ←
      (if (length argv =? 1)%nat then _ ← ConsoleTest None; mret 1%nat
       else _ ← argc_over 2 argv; i ← arg_at 1 argv; o ← arg_at 2 argv; _ ← ConsoleTest (Some (i, o)); mret 3%nat);
    _ ← Halt; mret argCount
  else mret 1%nat.
Definition file_arg (argCount : nat) (argv : list Arg) : M S nat :=
  if argv_is argv "-cp" then
    _ ← argc_over 2 argv; u ← arg_at 1 argv; n ← arg_at 2 argv; _ ← call_Copy u n; mret 3%nat
  else if argv_is argv "-p" then _ ← argc_over 1 argv; n ← arg_at 1 argv; _ ← call_Print n; mret 2%nat
  else if argv_is argv "-r" then _ ← argc_over 1 argv; n ← arg_at 1 argv; _ ← call_Remove n; mret 2%nat
  else if argv_is argv "-l" then _ ← call_List; mret argCount
  else if argv_is argv "-D" then _ ← call_PrintAll; mret argCount
  else if argv_is argv "-t" then _ ← call_PerformanceTest; mret argCount
  else if argv_is argv "-pt" then _ ← call_PipeTest; mret argCount
  else mret argCount.
Definition net_arg (argCount : nat) (argv : list Arg) : M S nat :=
  if argv_is argv "-o" then
    _ ← argc_over 1 argv; _ ← Delay 2; a ← arg_at 1 argv; v ← lift (atoi (text a)); _ ← MailTest v; mret 2%nat
  else mret argCount.
Definition main_arg (argv : list Arg) : M S nat :=
  _ ← (if argv_is argv "-z" then print_copyright else mret tt);
  argCount ← (if USER_PROGRAM b then user_arg argv else mret 1%nat);
  argCount ← (if FILESYS b then file_arg argCount argv else mret argCount);
  if NETWORK b then net_arg argCount argv else mret argCount.

(** [main] after [Initialize]; [argv] is without the command's name.  With [THREADS]
    the first loop leaves no words to the second. *)
Definition main (argv : list Arg) : M S unit :=
  argv ← (if THREADS b then
            _ ← print_complied;
            testnum ← lift (chosen_test argv);
            _ ← ThreadTest testnum;
            mret []
          else mret argv);
  _ ← each_arg main_arg argv;
  Finish.
End Main.

(** ** What the loop computes *)

(** What every normal return of a computation satisfies. *)
Definition returns {S A : Type} (P : A -> Prop) (m : M S A) : Prop := forall s a s', m s = Ok (a, s') -> P a.

Lemma returns_ret {S A} (P : A -> Prop) (a : A) : P a -> returns P (mret a : M S A).
Proof. intros H s x s' [= <- <-]. exact H. Qed.
Lemma returns_bind {S A B} (Q : A -> Prop) (P : B -> Prop) (m : M S A) (k : A -> M S B) :
  returns Q m -> (forall a, Q a -> returns P (k a)) -> returns P (m ≫= k).
Proof.
  intros Hm Hk s x s'. munfold. destruct (m s) as [[a s1]|w] eqn:E; [|discriminate]. intros H. eapply Hk; [|exact H]. by eapply Hm.
Qed.
Lemma returns_any {S A} (m : M S A) : returns (fun _ => True) m.
Proof. done. Qed.

(** Every branch of a body advances by a word at least. *)
Ltac advances :=
  repeat first
    [ apply returns_ret; lia
    | assumption
    | match goal with |- returns _ (if ?c then _ else _) => destruct c end
    | match goal with |- returns ?P (_ ≫= _) =>
        first [ eapply (returns_bind (fun n : nat => (1 <= n)%nat)); [|intros ? ?]
              | apply (returns_bind _ _ _ _ (returns_any _)); intros ? _ ] end ].

Section LoopFacts.
Context {S : Type} (arg : list Arg -> M S nat) (Hadv : forall argv, returns (fun n => (1 <= n)%nat) (arg argv)).

Lemma args_loop_enough fuel argv s : (length argv <= fuel)%nat -> args_loop fuel arg argv s = each_arg arg argv s.
Proof.
  unfold each_arg. remember (length argv) as n eqn:Hn. revert fuel argv Hn s.
  induction n as [n IH] using lt_wf_ind. intros fuel argv -> s Hle. destruct argv as [|a argv]; [by destruct fuel|].
  destruct fuel as [|fuel]; [cbn [length] in Hle; lia|]. cbn [length args_loop]. munfold.
  destruct (arg (a :: argv) s) as [[n s']|w] eqn:E; [|done]. apply Hadv in E.
  destruct n as [|n]; [lia|]. cbn [drop]. pose proof (length_drop argv n) as Hl. cbn [length] in *.
  rewrite (IH (length (drop n argv)) ltac:(lia) fuel _ eq_refl) by lia.
  symmetry. apply (IH (length (drop n argv)) ltac:(lia) (length argv) _ eq_refl). lia.
Qed.

Lemma each_arg_cons a argv s :
  each_arg arg (a :: argv) s = (n ← arg (a :: argv); each_arg arg (drop n (a :: argv))) s.
Proof.
  unfold each_arg at 1. cbn [length args_loop]. munfold. destruct (arg (a :: argv) s) as [[n s']|w] eqn:E; [|done].
  apply Hadv in E. destruct n as [|n]; [lia|]. cbn [drop]. apply args_loop_enough. rewrite length_drop. lia.
Qed.

(** The loop always ends: it never runs out of fuel of its own. *)
Lemma each_arg_skip a argv s s' : arg (a :: argv) s = Ok (1%nat, s') -> each_arg arg (a :: argv) s = each_arg arg argv s'.
Proof. intros H. rewrite each_arg_cons. munfold. by rewrite H. Qed.
End LoopFacts.

Lemma init_arg_advances b argv : returns (fun n => (1 <= n)%nat) (init_arg b argv).
Proof. unfold init_arg. advances. Qed.
Lemma threads_arg_advances argv : returns (fun n => (1 <= n)%nat) (threads_arg argv).
Proof. unfold threads_arg. advances. repeat case_match; advances. by intros ? ? ?. Qed.

(** ** Command lines as options *)

(** An option with its operands, as the two passes read them.  That is the usage of
    [main.cc], but for four options: [-rd] and [-q] are not documented there, [-rd]
    takes a word that it ignores, and [Initialize] reads the network's reliability, [-n]
    in the usage, from [-l]. *)
Inductive Opt : Type :=
| Odebug (a : Arg) | Orandom (a : Arg) | Oslice (a : Arg) | Osingle | Oformat | Orely (a : Arg) | Omachine (a : Arg)
| Ocopyright | Orun (f : Arg) | Oconsole (i o : Arg) | Ocp (u n : Arg) | Oprint (n : Arg) | Oremove (n : Arg)
| Olist | Odump | Operf | Opipe | Omail (a : Arg) | Otest (a : Arg).

Definition keyword (o : Opt) : string :=
  match o with
  | Odebug _ => "-d" | Orandom _ => "-rs" | Oslice _ => "-rd" | Osingle => "-s" | Oformat => "-f" | Orely _ => "-l"
  | Omachine _ => "-m" | Ocopyright => "-z" | Orun _ => "-x" | Oconsole _ _ => "-c" | Ocp _ _ => "-cp" | Oprint _ => "-p"
  | Oremove _ => "-r" | Olist => "-l" | Odump => "-D" | Operf => "-t" | Opipe => "-pt" | Omail _ => "-o" | Otest _ => "-q"
  end.
Definition operands (o : Opt) : list Arg :=
  match o with
  | Odebug a | Orandom a | Oslice a | Orely a | Omachine a | Orun a | Oprint a | Oremove a | Omail a | Otest a => [a]
  | Oconsole a a' | Ocp a a' => [a; a']
  | _ => []
  end.
Definition words (po : Z * Opt) : list Arg := MkArg po.1 (keyword po.2) :: operands po.2.

(** What an option means: to the flags, and as a call. *)
Definition flag_of (b : Build) (o : Opt) (f : Flags) : Flags :=
  match o with
  | Odebug a => set_debugArgs (text a) f
  | Orandom a => match atoi (text a) with Ok v => RandomInit v f | Stop _ => f end
  | Oslice _ => set_roundingSlice f
  | Osingle => if USER_PROGRAM b then set_debugUserProg f else f
  | Oformat => if FILESYS_NEEDED b then set_format f else f
  | Orely a => if NETWORK b then set_rely (text a) f else f
  | Omachine a => if NETWORK b then match atoi (text a) with Ok v => set_netname v f | Stop _ => f end else f
  | _ => f
  end.

Section Meaning.
Context {S : Type} `{!BaseCalls S, !ThreadCalls S, !UserCalls S, !FileCalls S, !NetCalls S} (b : Build).
Definition call_of (o : Opt) : M S unit :=
  match o with
  | Ocopyright => print_copyright
  | Orun f => if USER_PROGRAM b then StartProcess f else mret tt
  | Oconsole i o => if USER_PROGRAM b then _ ← ConsoleTest (Some (i, o)); Halt else mret tt
  | Ocp u n => if FILESYS b then call_Copy u n else mret tt
  | Oprint n => if FILESYS b then call_Print n else mret tt
  | Oremove n => if FILESYS b then call_Remove n else mret tt
  | Olist | Orely _ => if FILESYS b then call_List else mret tt
  | Odump => if FILESYS b then call_PrintAll else mret tt
  | Operf => if FILESYS b then call_PerformanceTest else mret tt
  | Opipe => if FILESYS b then call_PipeTest else mret tt
  | Omail a => if NETWORK b then _ ← Delay 2; v ← lift (atoi (text a)); MailTest v else mret tt
  | _ => mret tt
  end.
Fixpoint calls_of (os : list (Z * Opt)) : M S unit :=
  match os with [] => mret tt | po :: os => _ ← call_of po.2; calls_of os end.

Lemma main_arg_advances argv : returns (fun n => (1 <= n)%nat) (main_arg b argv : M S nat).
Proof. unfold main_arg, user_arg, file_arg, net_arg. advances. Qed.
End Meaning.

(** A word that neither pass takes for an option, and one that the loop on [testnum]
    does not take for [-q]. *)
Definition keywords : list string :=
  ["-d"; "-rs"; "-rd"; "-s"; "-f"; "-l"; "-m"; "-z"; "-x"; "-c"; "-cp"; "-p"; "-r"; "-D"; "-t"; "-pt"; "-o"].
Definition plain (a : Arg) : bool := bool_decide (text a ∉ keywords).
Definition not_q (a : Arg) : bool :=
  match text a with EmptyString => false | String _ (String c _) => negb (Ascii.eqb c "q") | _ => true end.
Definition number (a : Arg) : bool := match atoi (text a) with Ok _ => true | Stop _ => false end.
(** With the network, [-l] has an operand: it is [Orely], which [main] takes for the
    listing of the directory too. *)
Definition opt_ok (b : Build) (po : Z * Opt) : bool :=
  forallb plain (operands po.2) && (negb (THREADS b) || forallb not_q (operands po.2)) &&
  match po.2 with
  | Orandom a => number a
  | Omachine a | Omail a => negb (NETWORK b) || number a
  | Otest a => negb (THREADS b) || number a
  | Olist => negb (NETWORK b)
  | _ => true
  end.
Lemma opt_ok_plain b po : opt_ok b po = true -> forallb plain (operands po.2) = true.
Proof. intros [[H _]%andb_prop _]%andb_prop. exact H. Qed.

Lemma plain_not a l w : plain a = true -> w ∈ keywords -> argv_is (a :: l) w = false.
Proof. intros Ha%bool_decide_eq_true_1 Hw. apply bool_decide_eq_false_2. intros E. apply Ha. by rewrite E. Qed.

(** Both passes step over a plain word. *)
Ltac skip_plain Ha := rewrite !(plain_not _ _ _ Ha) by (unfold keywords; set_solver).
Lemma init_skips b a l f : plain a = true -> init_arg b (a :: l) f = Ok (1%nat, f).
Proof. intros Ha. unfold init_arg. skip_plain Ha. rewrite !andb_false_r. by destruct (NETWORK b). Qed.
Lemma main_skips {S} `{!BaseCalls S, !ThreadCalls S, !UserCalls S, !FileCalls S, !NetCalls S} b a l (s : S) :
  plain a = true -> main_arg b (a :: l) s = Ok (1%nat, s).
Proof.
  intros Ha. unfold main_arg, user_arg, file_arg, net_arg. skip_plain Ha.
  by destruct (USER_PROGRAM b), (FILESYS b), (NETWORK b).
Qed.

Lemma argv_kw p w l w' : argv_is (MkArg p w :: l) w' = String.eqb w w'.
Proof. unfold argv_is. cbn [text]. destruct (String.eqb_spec w w'); by apply bool_decide_eq_true_2 || apply bool_decide_eq_false_2. Qed.

(** At an option, the body is the branch of its keyword. *)
Ltac at_option :=
  rewrite ?argv_kw;
  cbn [String.eqb Ascii.eqb Bool.eqb andb orb negb length Nat.eqb Nat.ltb Nat.leb lookup list_lookup drop
       THREADS USER_PROGRAM FILESYS_NEEDED FILESYS NETWORK];
  rewrite ?andb_true_r, ?andb_false_r.

Section Options.
Context {S : Type} (arg : list Arg -> M S nat) (Hadv : forall argv, returns (fun n => (1 <= n)%nat) (arg argv))
  (Hskip : forall a l s, plain a = true -> arg (a :: l) s = Ok (1%nat, s)).

Lemma skip_operands ops rest s : forallb plain ops = true -> each_arg arg (ops ++ rest) s = each_arg arg rest s.
Proof.
  induction ops as [|a ops IH]; [done|]. cbn [forallb app]. intros [Ha Hops]%andb_prop.
  rewrite (each_arg_skip arg Hadv a _ s s) by (by apply Hskip). by apply IH.
Qed.

(** An option that the body answers with [call], taking its operands or leaving them to
    be stepped over. *)
Lemma take_option p o rest s (call : M S unit) n :
  forallb plain (operands o) = true -> (n = 1 \/ n = length (words (p, o)))%nat ->
  arg (words (p, o) ++ rest) s = (_ ← call; mret n : M S nat) s ->
  each_arg arg (words (p, o) ++ rest) s = (_ ← call; each_arg arg rest) s.
Proof.
  unfold words. cbn [fst snd app]. intros Hp Hn Harg. rewrite (each_arg_cons arg Hadv). munfold. rewrite Harg.
  destruct (call s) as [[[] s']|w]; [|done]. destruct Hn as [->| ->].
  - cbn [drop]. by apply skip_operands.
  - cbn [length drop]. by rewrite drop_app_length.
Qed.
End Options.

Section Passes.
Context (b : Build).
Definition init_count (o : Opt) : nat :=
  match o with
  | Odebug _ | Orandom _ | Oslice _ => 2
  | Orely _ | Omachine _ => if NETWORK b then 2 else 1
  | _ => 1
  end.
Definition main_count (o : Opt) : nat :=
  match o with
  | Orun _ => if USER_PROGRAM b then 2 else 1
  | Oconsole _ _ => if USER_PROGRAM b then 3 else 1
  | Ocp _ _ => if FILESYS b then 3 else 1
  | Oprint _ | Oremove _ => if FILESYS b then 2 else 1
  | Omail _ => if NETWORK b then 2 else 1
  | _ => 1
  end.

Lemma init_at p o rest f :
  opt_ok b (p, o) = true -> init_arg b (words (p, o) ++ rest) f = (_ ← modify (flag_of b o); mret (init_count o)) f.
Proof.
  unfold opt_ok, words, number. cbn [fst snd]. intros [_ Hok]%andb_prop.
  destruct o; cbn [operands keyword app flag_of init_count] in *; unfold init_arg, argc_over, arg_at, ASSERT; at_option;
    unfold lift, modify; munfold; repeat (case_match; simplify_eq/=; try done).
Qed.
Lemma main_at {S} `{!BaseCalls S, !ThreadCalls S, !UserCalls S, !FileCalls S, !NetCalls S} p o rest (s : S) :
  opt_ok b (p, o) = true -> main_arg b (words (p, o) ++ rest) s = (_ ← call_of b o; mret (main_count o)) s.
Proof.
  unfold opt_ok, words, number. cbn [fst snd]. intros [_ Hok]%andb_prop.
  destruct o; cbn [operands keyword app call_of main_count] in *;
    unfold main_arg, user_arg, file_arg, net_arg, argc_over, arg_at, ASSERT; at_option;
    unfold lift; munfold; repeat (case_match; simplify_eq/=; try done).
Qed.

(** [-d] and [-c] may end the line without their operands. *)
Inductive Last : Type := Ldebug | Lconsole.
Definition last_words (l : option (Z * Last)) : list Arg :=
  match l with
  | None => []
  | Some (p, Ldebug) => [MkArg p "-d"]
  | Some (p, Lconsole) => [MkArg p "-c"]
  end.
Definition last_flag (l : option (Z * Last)) (f : Flags) : Flags :=
  match l with Some (_, Ldebug) => set_debugArgs "+" f | _ => f end.
Definition last_call {S} `{!UserCalls S} (l : option (Z * Last)) : M S unit :=
  match l with
  | Some (_, Lconsole) => if USER_PROGRAM b then _ ← ConsoleTest None; Halt else mret tt
  | _ => mret tt
  end.
Definition line (os : list (Z * Opt)) (l : option (Z * Last)) : list Arg := (os ≫= words) ++ last_words l.

Lemma init_count_words p o : (init_count o = 1 \/ init_count o = length (words (p, o)))%nat.
Proof. destruct o; cbn; try case_match; auto. Qed.
Lemma main_count_words p o : (main_count o = 1 \/ main_count o = length (words (p, o)))%nat.
Proof. destruct o; cbn; try case_match; auto. Qed.

Lemma init_options os rest f : forallb (opt_ok b) os = true ->
  each_arg (init_arg b) ((os ≫= words) ++ rest) f = each_arg (init_arg b) rest (fold_left (fun f po => flag_of b po.2 f) os f).
Proof.
  revert f. induction os as [|[p o] os IH]; intros f; [done|].
  cbn [forallb fold_left]. intros [Ho Hos]%andb_prop. cbn [mbind list_bind]. rewrite <- app_assoc.
  rewrite (take_option _ (init_arg_advances b) (init_skips b) p o _ f (modify (flag_of b o)) (init_count o)).
  - munfold. cbn [modify]. by rewrite IH.
  - by apply (opt_ok_plain b (p, o)).
  - apply init_count_words.
  - by apply init_at.
Qed.
Lemma init_line os l f : forallb (opt_ok b) os = true ->
  each_arg (init_arg b) (line os l) f = Ok (tt, last_flag l (fold_left (fun f po => flag_of b po.2 f) os f)).
Proof. intros Hok. unfold line. rewrite init_options by done. by destruct l as [[p []]|], b as [[] [] [] [] []]. Qed.

Section MainPass.
Context {S : Type} `{!BaseCalls S, !ThreadCalls S, !UserCalls S, !FileCalls S, !NetCalls S}.
Lemma main_options os rest (s : S) : forallb (opt_ok b) os = true ->
  each_arg (main_arg b) ((os ≫= words) ++ rest) s = (_ ← calls_of b os; each_arg (main_arg b) rest) s.
Proof.
  revert s. induction os as [|[p o] os IH]; intros s; [done|].
  cbn [forallb calls_of]. intros [Ho Hos]%andb_prop. cbn [mbind list_bind]. rewrite <- app_assoc.
  rewrite (take_option _ (main_arg_advances b) (main_skips b) p o _ s (call_of b o) (main_count o)).
  - munfold. cbn [snd]. destruct (call_of b o s) as [[[] s']|w]; [by apply IH|done].
  - by apply (opt_ok_plain b (p, o)).
  - apply main_count_words.
  - by apply main_at.
Qed.
Lemma main_line os l (s : S) : forallb (opt_ok b) os = true ->
  each_arg (main_arg b) (line os l) s = (_ ← calls_of b os; last_call l) s.
Proof.
  intros Hok. unfold line. rewrite main_options by done. munfold. destruct (calls_of b os s) as [[[] s0]|w]; [|done].
  destruct l as [[p []]|]; [by destruct b as [[] [] [] [] []]| |reflexivity].
  unfold last_call, each_arg. cbn [app mbind list_bind last_words length args_loop calls_of]. unfold main_arg, user_arg, file_arg, net_arg. at_option.
  munfold. destruct (USER_PROGRAM b), (FILESYS b), (NETWORK b); try done;
    (destruct (ConsoleTest None s0) as [[[] s1]|]; [|done]; by destruct (Halt s1) as [[[] s2]|]).
Qed.
End MainPass.

(** *** The choice of a thread test *)

(** The choice a line makes: any word but [-q] resets it. *)
Definition test_of (o : Opt) (testnum : Z) : Z :=
  match o with Otest a => match atoi (text a) with Ok v => v | Stop _ => testnum end | _ => 1 end.
Definition test_line (os : list (Z * Opt)) (l : option (Z * Last)) : Z :=
  match l with None => fold_left (fun t po => test_of po.2 t) os 1 | Some _ => 1 end.

Lemma not_q_resets a ws t : not_q a = true -> each_arg threads_arg (a :: ws) t = each_arg threads_arg ws 1.
Proof.
  intros Ha. apply each_arg_skip; [apply threads_arg_advances|].
  unfold threads_arg, not_q in *. cbn [arg_at lookup list_lookup]. munfold.
  destruct (text a) as [|c [|c' w]]; [done|done|]. destruct c' as [[] [] [] [] [] [] [] []]; done.
Qed.
Lemma not_q_all ws rest t : forallb not_q ws = true -> ws <> [] -> each_arg threads_arg (ws ++ rest) t = each_arg threads_arg rest 1.
Proof.
  revert t. induction ws as [|a ws IH]; intros t; [done|]. cbn [forallb app]. intros [Ha Hws]%andb_prop _.
  rewrite not_q_resets by done. destruct ws; [done|]. by apply IH.
Qed.
Lemma test_options os rest t : THREADS b = true -> forallb (opt_ok b) os = true ->
  each_arg threads_arg ((os ≫= words) ++ rest) t = each_arg threads_arg rest (fold_left (fun t po => test_of po.2 t) os t).
Proof.
  intros Hb. revert t. induction os as [|[p o] os IH]; intros t; [done|].
  cbn [forallb fold_left]. intros [Ho Hos]%andb_prop. cbn [mbind list_bind]. rewrite <- app_assoc.
  unfold opt_ok in Ho. rewrite Hb in Ho. cbn [negb orb snd fst] in Ho. apply andb_prop in Ho as [[_ Hq]%andb_prop Hn].
  assert (Hkw : (exists a, o = Otest a) \/ forallb not_q (words (p, o)) = true /\ test_of o t = 1).
  { destruct o; [right..|left; by eexists]; (split; [exact Hq|done]). }
  destruct Hkw as [[a ->]|[Hws H1]].
  - unfold number in Hn. unfold words at 1. cbn [operands keyword fst snd app test_of].
    rewrite (each_arg_cons _ threads_arg_advances). munfold.
    assert (Hstep : forall ws, threads_arg (MkArg p "-q" :: a :: ws) t =
      Ok (2%nat, match atoi (text a) with Ok v => v | Stop _ => t end)).
    { intros ws. unfold threads_arg, arg_at. cbn [lookup list_lookup]. munfold. unfold lift. by destruct (atoi (text a)). }
    rewrite Hstep. cbn [drop]. by apply IH.
  - rewrite not_q_all by done. cbn [snd]. rewrite H1. by apply IH.
Qed.
Lemma chosen_line os l : THREADS b = true -> forallb (opt_ok b) os = true -> chosen_test (line os l) = Ok (test_line os l).
Proof.
  intros Hb Hok. unfold chosen_test, line. rewrite test_options by done. by destruct l as [[p []]|].
Qed.

(** *** Lines that end too early *)

(** The options that fail the assertion on the number of words: those of
    [Initialize], without a word behind them, and those of [main], with [n] words. *)
Definition init_incomplete (w : string) : bool :=
  bool_decide (w ∈ ["-rs"; "-rd"]) || NETWORK b && bool_decide (w ∈ ["-l"; "-m"]).
Definition main_incomplete (w : string) (n : nat) : bool :=
  USER_PROGRAM b && (String.eqb w "-x" && (n =? 0)%nat || String.eqb w "-c" && (n =? 1)%nat) ||
  FILESYS b && (String.eqb w "-cp" && (n <? 2)%nat || bool_decide (w ∈ ["-p"; "-r"]) && (n =? 0)%nat) ||
  NETWORK b && String.eqb w "-o" && (n =? 0)%nat.

Lemma init_stops p w f : init_incomplete w = true -> each_arg (init_arg b) [MkArg p w] f = Stop AssertFailed.
Proof.
  intros Hw. assert (Hin : w ∈ ["-rs"; "-rd"] \/ NETWORK b = true /\ w ∈ ["-l"; "-m"]).
  { unfold init_incomplete in Hw. apply orb_prop in Hw as [Hw|[Hb Hw]%andb_prop]; apply bool_decide_eq_true_1 in Hw; auto. }
  rewrite (each_arg_cons _ (init_arg_advances b)). apply bind_stop. unfold init_arg, argc_over, ASSERT.
  rewrite !elem_of_cons, elem_of_nil in Hin.
  destruct Hin as [[->|[->|[]]]|[Hb [->|[->|[]]]]]; at_option; try reflexivity; rewrite Hb; munfold;
    by destruct (USER_PROGRAM b), (FILESYS_NEEDED b).
Qed.
Lemma main_incomplete_inv (w : string) (ops : list Arg) : main_incomplete w (length ops) = true ->
  USER_PROGRAM b = true /\ (w = "-x" /\ ops = [] \/ w = "-c" /\ exists a, ops = [a]) \/
  FILESYS b = true /\ (w = "-cp" /\ (ops = [] \/ exists a, ops = [a]) \/ (w = "-p" \/ w = "-r") /\ ops = []) \/
  NETWORK b = true /\ w = "-o" /\ ops = [].
Proof.
  unfold main_incomplete. rewrite !orb_true_iff, !andb_true_iff, !orb_true_iff, !andb_true_iff, !String.eqb_eq, bool_decide_eq_true.
  rewrite !elem_of_cons, elem_of_nil, !Nat.eqb_eq, Nat.ltb_lt.
  destruct ops as [|a [|a' ops]]; cbn [length]; naive_solver lia.
Qed.
Lemma main_stops {S} `{!BaseCalls S, !ThreadCalls S, !UserCalls S, !FileCalls S, !NetCalls S} p w ops (s : S) :
  main_incomplete w (length ops) = true -> each_arg (main_arg b) (MkArg p w :: ops) s = Stop AssertFailed.
Proof.
  intros Hw%main_incomplete_inv. rewrite (each_arg_cons _ (main_arg_advances b)). apply bind_stop.
  unfold main_arg, user_arg, file_arg, net_arg, argc_over, ASSERT. rewrite !argv_kw.
  destruct Hw as [[Hb [[-> ->]|[-> [a ->]]]]|[[Hb [[-> [->|[a ->]]]|[[->| ->] ->]]]|[Hb [-> ->]]]];
    rewrite Hb; at_option; munfold; by destruct (USER_PROGRAM b), (FILESYS b).
Qed.
End Passes.

(** C29. The passes over the command line agree on it, in every build: for every line
    of options with the operands the code reads for them ([Opt]; with the network's build
    [-l] has its operand), in any order, whose operands are not themselves spelled like
    options, [Initialize] comes to the flags the options say (the last of a kind counts).
    Without [THREADS], [main] makes the calls the options say, in their order, each with
    its own operands, and then finishes; options of an assignment that is not built have
    no effect, and no assertion fails in reading the line.  With [THREADS] it runs the
    test that a [-q] at the end of the line names, and test 1 otherwise, and finishes.  A
    line that ends before the operands of an option of the build fails the assertion, in
    [Initialize] or, after the calls of the options before it, in [main]. *)
Theorem command_line_correct {S} `{!BaseCalls S, !ThreadCalls S, !UserCalls S, !FileCalls S, !NetCalls S} (b : Build)
    (os : list (Z * Opt)) :
  forallb (opt_ok b) os = true ->
  (forall l, init_flags b (line os l) = Ok (last_flag l (fold_left (fun f po => flag_of b po.2 f) os flags0)) /\
     forall s : S, main b (line os l) s =
       (if THREADS b then _ ← print_complied; _ ← ThreadTest (test_line os l); Finish
        else _ ← calls_of b os; _ ← last_call b l; Finish) s) /\
  (forall p w, init_incomplete b w = true -> init_flags b (line os None ++ [MkArg p w]) = Stop AssertFailed) /\
  (forall p w ops (s : S), THREADS b = false -> main_incomplete b w (length ops) = true ->
     main b (line os None ++ MkArg p w :: ops) s = (_ ← calls_of b os; halt AssertFailed) s).
Proof.
  intros Hok. split_and!; [intros l; split| |].
  - unfold init_flags. by rewrite init_line.
  - intros s. unfold main. munfold. destruct (THREADS b) eqn:Hb.
    + destruct (print_complied s) as [[[] s1]|w]; [|done]. rewrite (chosen_line b) by done. unfold lift.
      by destruct (ThreadTest (test_line os l) s1) as [[[] s2]|w].
    + rewrite (main_line b os l s Hok). munfold.
      destruct (calls_of b os s) as [[[] s']|w]; [|done]. by destruct (last_call b l s') as [[[] s'']|w].
  - intros p w Hw. unfold init_flags, line. cbn [last_words]. by rewrite app_nil_r, init_options, init_stops.
  - intros p w ops s Hb Hw. unfold main, line. rewrite Hb. cbn [last_words]. rewrite app_nil_r. munfold.
    rewrite main_options by done. munfold. destruct (calls_of b os s) as [[[] s']|]; [|done]. by rewrite main_stops.
Qed.

(** ** The calls of the file system's build *)

(** What the calls show on the screen. *)
Inductive Shown : Type :=
| Scopyright
| Scopy (r : CopyResult)
| Sprint (text : option (list Z))
| Slist (names : list string)
| Sdump (p : (list Z * list Z) * (list Z * list Z) * list Z * list (string * Z * (list Z * list Z)))
| Sperf (r : PerfResult * PerfResult)
| Spipe (output : list Z).

(** The disk, what has been shown, and how many calls there were. *)
Record Session (D : Type) : Type := MkSession { disk : D; shown : list Shown; ncalls : nat }.
Arguments MkSession {D} _ _ _.
Arguments disk {D} _.
Arguments shown {D} _.
Arguments ncalls {D} _.

Section FileBuild.
Context {D : Type} `{!SectorDisk D}.

(** [E c] is what the [c]th call of [main] meets; [unix] are the host's files, [typed] is
    the word given to [PipeTest], [TestFile] the address of [FileName] of [fstest.cc]. *)
Context (E : nat -> nat -> Env) (unix : string -> option (list Z)) (typed : list Z) (TestFile : Z).

Definition on_disk {A : Type} (m : nat -> M D A) (show : A -> list Shown) : M (Session D) unit := fun s =>
  match m (ncalls s) (disk s) with
  | Ok (a, d) => Ok (tt, MkSession d (shown s ++ show a) (S (ncalls s)))
  | Stop w => Stop w
  end.

Definition base_calls : BaseCalls (Session D) := {|
  print_copyright := modify (fun s => MkSession (disk s) (shown s ++ [Scopyright]) (ncalls s));
  Finish := mret tt
|}.
Definition file_calls (fs : FileSystem) : FileCalls (Session D) := {|
  call_Copy u n := on_disk (fun c => Copy (E c) fs (unix (text u)) (ptr n)) (fun r => [Scopy r]);
  call_Print n := on_disk (fun c => FsTest.Print (E c) fs (ptr n)) (fun r => [Sprint r]);
  call_Remove n := on_disk (fun c => Remove (Z.to_nat NumSectors) (E c 0%nat) fs (ptr n)) (fun _ => []);
  call_List := on_disk (fun c => List (E c 0%nat) fs) (fun r => [Slist r]);
  call_PrintAll := on_disk (fun c => FileSys.Print (E c 0%nat) fs) (fun r => [Sdump r]);
  call_PerformanceTest := on_disk (fun c => PerformanceTest (E c) fs TestFile) (fun r => [Sperf r]);
  call_PipeTest := on_disk (fun c => PipeTest (E c) typed) (fun r => [Spipe r])
|}.

(** A run of the program: what it shows.  The other calls are those of user programs
    and the network; the thread that [PipeTest] forks runs at once. *)
Context `{!ThreadCalls (Session D), !UserCalls (Session D), !NetCalls (Session D)}.
Definition run_main (b : Build) (fs : FileSystem) (argv : list Arg) : M D (list Shown) := fun d =>
  match @main _ base_calls _ _ (file_calls fs) _ b argv (MkSession d [] 0) with
  | Ok (_, s) => Ok (shown s, disk s)
  | Stop w => Stop w
  end.
Definition nachos (b : Build) (env : Env) (argv : list Arg) : M D (list Shown) :=
  flags ← lift (init_flags b argv);
  fs ← new_file_system env (format flags);
  run_main b fs argv.
End FileBuild.

(** ** Copying files to the disk *)

(** A file of the host, its name on the command line, the name it gets, and that name
    again in a later option. *)
Record Item : Type := MkItem { it_kw : Z; it_unix : Arg; it_name : Arg; it_again : Arg; it_data : list Z }.
Definition copy_opt (i : Item) : Z * Opt := (it_kw i, Ocp (it_unix i) (it_name i)).
Definition print_opt (i : Item) : Z * Opt := (it_kw i, Oprint (it_again i)).

(** The sectors a file takes. *)
Definition sectors_for (data : list Z) : Z :=
  let ns := divRoundUp (Z.of_nat (length data)) SectorSize in 1 + ns + extra_hdrs ns.

(** Its string and its bytes; [io_size] leaves out the files of exactly [NumDirect]
    sectors, for which [Allocate] uses a sector number that was never set. *)
Record item_ok (m : strings) (unix : string -> option (list Z)) (i : Item) : Prop := {
  io_unix : unix (text (it_unix i)) = Some (it_data i);
  io_name : m (ptr (it_name i)) = Some (text (it_name i));
  io_again : m (ptr (it_again i)) = Some (text (it_name i));
  io_ptr : is_u32 (ptr (it_name i));
  io_bytes : Forall is_byte (it_data i);
  io_size : divRoundUp (Z.of_nat (length (it_data i))) SectorSize <> NumDirect
}.

(** A directory with fewer names than entries has an entry that is free. *)
Lemma dir_has_room m table :
  dir_ok m table -> (size (dir_map m table) < length table)%nat -> exists e, e ∈ table /\ in_use e = false.
Proof.
  intros [Hval Hnd] Hlt. destruct (decide (Exists (fun e => in_use e = false) table)) as [Hex|Hall].
  { by apply Exists_exists in Hex as (e & He & Hu); exists e. }
  exfalso. apply not_Exists_Forall in Hall; [|intros e; by apply (decide _)].
  unfold dir_map in Hlt. rewrite map_size_list_to_map in Hlt by done.
  assert (Hlen : length (used m table) = length table); [|lia].
  clear Hnd Hlt. induction table as [|e table IH]; [done|].
  apply Forall_cons in Hval as [Hv Hval]. apply Forall_cons in Hall as [Hu Hall].
  destruct (in_use e) eqn:Ee; [|done]. destruct (Hv eq_refl) as [s Hs]. unfold used. cbn [omap list_omap].
  rewrite Ee, Hs. cbn. f_equal. by apply IH.
Qed.

Definition total (items : list Item) : Z := foldr (fun i a => sectors_for (it_data i) + a) 0 items.

Lemma sectors_for_bound data : 1 <= sectors_for data /\ Z.of_nat (length data) <= 128 * sectors_for data.
Proof.
  unfold sectors_for. set (l := Z.of_nat (length data)). change SectorSize with 128.
  pose proof (divRoundUp_spec l 128). assert (0 <= extra_hdrs (divRoundUp l 128)) by (unfold extra_hdrs; apply Z.div_pos; [lia|done]). lia.
Qed.

Lemma total_nonneg items : 0 <= total items.
Proof. induction items as [|i items IH]; cbn; [done|]. pose proof (sectors_for_bound (it_data i)). fold (total items). lia. Qed.

Section Copies.
Context {D : Type} `{!SectorDisk D} `{!SectorDiskLaws D} `{!ThreadCalls (Session D), !UserCalls (Session D), !NetCalls (Session D)}.
Context (E : nat -> nat -> Env) (m : strings) (HE : forall c i, env_ok (E c i)) (Hm : forall c i, mem (E c i) = m).
Context (unix : string -> option (list Z)) (typed : list Z) (TestFile : Z) (fs : FileSystem) (ms ds ps : list Z).
Context (b : Build) (Hb : FILESYS b = true).
#[local] Existing Instance base_calls.
#[local] Instance the_calls : FileCalls (Session D) := file_calls E unix typed TestFile fs.

(** A file of the directory with its contents. *)
Definition has_file (d : D) table ext (n : string) (data : list Z) : Prop :=
  exists x, dir_map m table !! n = Some x /\ contents_at (contents d) ext x = data.

Lemma copies_ok items s table fm ext :
  Forall (item_ok m unix) items -> NoDup ((fun i => text (it_name i)) <$> items) ->
  fs_inv m fs (disk s) table fm ms ds ps ext -> (size (dir_map m table) + length items <= Z.to_nat NumDirEntries)%nat ->
  Forall (fun i => dir_map m table !! text (it_name i) = None) items -> total items <= Z.of_nat (length (clear_bits fm)) ->
  total items <= 1014 ->
  exists s' table' fm' ext', calls_of b (copy_opt <$> items) s = Ok (tt, s') /\
    shown s' = shown s ++ ((fun _ => Scopy Copied) <$> items) /\ fs_inv m fs (disk s') table' fm' ms ds ps ext' /\
    Forall (fun i => has_file (disk s') table' ext' (text (it_name i)) (it_data i)) items /\
    (forall n data, has_file (disk s) table ext n data -> has_file (disk s') table' ext' n data).
Proof.
  intros Hok. revert s table fm ext. induction Hok as [|i items Hi _ IH]; intros s table fm ext Hnd Hinv Hsize Hnone Hroom Htot.
  { exists s, table, fm, ext. cbn. rewrite app_nil_r. by split_and!. }
  apply NoDup_cons in Hnd as [Hni Hnd]. apply Forall_cons in Hnone as [Hn Hnone]. cbn [total foldr] in Hroom, Htot. fold (total items) in *.
  pose proof (sectors_for_bound (it_data i)) as [Hs1 Hs2].
  pose proof (total_nonneg items).
  destruct (copy_ok m fs ms ds ps (E (ncalls s)) (disk s) table fm ext (ptr (it_name i)) (text (it_name i)) (it_data i))
    as (d' & table' & fm' & ext' & x & Hrun & Hinv' & Hmap & HC & Hkeep & Hleft); try done; try apply Hi.
  { apply (dir_has_room m); [by apply (fi_names _ _ _ _ _ _ _ _ _ Hinv)|]. rewrite (fi_len _ _ _ _ _ _ _ _ _ Hinv). cbn [length] in Hsize. lia. }
  { lia. }
  { fold (sectors_for (it_data i)). lia. }
  fold (sectors_for (it_data i)) in Hleft.
  destruct (IH (MkSession d' (shown s ++ [Scopy Copied]) (S (ncalls s))) table' fm' ext')
    as (s' & table2 & fm2 & ext2 & Hrun' & Hshown & Hinv2 & Hall & Hold); try done.
  { rewrite Hmap, map_size_insert_None by done. cbn [length] in Hsize. lia. }
  { rewrite Hmap. apply Forall_forall. intros j Hj. rewrite Forall_forall in Hnone.
    rewrite lookup_insert_ne; [by apply Hnone|]. intros Heq. apply Hni. rewrite Heq.
    by apply (list_elem_of_fmap_2 (fun i => text (it_name i))). }
  { lia. }
  { lia. }
  exists s', table2, fm2, ext2. split_and!.
  - cbn [fmap list_fmap calls_of snd copy_opt call_of]. rewrite Hb. cbn [call_Copy the_calls file_calls]. munfold.
    unfold on_disk. rewrite (io_unix _ _ _ Hi), Hrun. exact Hrun'.
  - rewrite Hshown. cbn. by rewrite <- app_assoc.
  - done.
  - apply Forall_cons. split; [|done]. apply Hold. exists x. by rewrite Hmap, lookup_insert_eq.
  - intros n data (y & Hy & Hdata). apply Hold. exists y. split; [|cbn [disk]; by rewrite (Hkeep n y Hy)].
    rewrite Hmap, lookup_insert_ne; [done|]. intros <-. congruence.
Qed.

Lemma prints_ok items s table fm ext :
  Forall (item_ok m unix) items -> Forall (fun i => sectors_for (it_data i) <= 1014) items ->
  fs_inv m fs (disk s) table fm ms ds ps ext ->
  Forall (fun i => has_file (disk s) table ext (text (it_name i)) (it_data i)) items ->
  exists s', calls_of b (print_opt <$> items) s = Ok (tt, s') /\ shown s' = shown s ++ ((fun i => Sprint (Some (it_data i))) <$> items) /\
    fs_inv m fs (disk s') table fm ms ds ps ext.
Proof.
  intros Hok. revert s. induction Hok as [|i items Hi _ IH]; intros s Hsz Hinv Hall.
  { exists s. cbn. by rewrite app_nil_r. }
  apply Forall_cons in Hsz as [Hs Hsz]. apply Forall_cons in Hall as [(x & Hx & HC) Hall].
  pose proof (sectors_for_bound (it_data i)) as [_ Hs2].
  destruct (print_ok m fs ms ds ps (E (ncalls s)) (disk s) table fm ext (ptr (it_again i)) (text (it_name i)) x)
    as (d' & Hrun & Hinv' & Hsame); try done; [apply Hi|rewrite HC; unfold TransferSize; lia|].
  destruct (IH (MkSession d' (shown s ++ [Sprint (Some (it_data i))]) (S (ncalls s)))) as (s' & Hrun' & Hshown & Hinv2); try done.
  { eapply Forall_impl; [exact Hall|]. intros j (y & Hy & HCy). exists y. split; [done|]. rewrite <- HCy. cbn [disk].
    rewrite Forall_forall in Hsame. apply Hsame. by eapply dir_map_files. }
  exists s'. split_and!; [|by rewrite Hshown; cbn; rewrite <- app_assoc|done].
  cbn [fmap list_fmap calls_of snd print_opt call_of]. rewrite Hb. cbn [call_Print the_calls file_calls]. munfold.
  unfold on_disk. rewrite Hrun, HC. exact Hrun'.
Qed.
End Copies.

Section CallsOf.
Context {S : Type} `{!BaseCalls S, !ThreadCalls S, !UserCalls S, !FileCalls S, !NetCalls S} (b : Build).
Lemma calls_of_app os1 os2 (s : S) : calls_of b (os1 ++ os2) s = (_ ← calls_of b os1; calls_of b os2) s.
Proof.
  revert s. induction os1 as [|po os1 IH]; intros s; [done|]. cbn [app calls_of]. munfold.
  destruct (call_of b po.2 s) as [[[] s']|w]; [apply IH|done].
Qed.
End CallsOf.

(** Options that only [main] reads leave the flags. *)
Lemma copy_flags b items f :
  fold_left (fun f po => flag_of b po.2 f) ((copy_opt <$> items) ++ (print_opt <$> items)) f = f.
Proof.
  rewrite fold_left_app. assert (H : forall g : Item -> Z * Opt, (forall i, flag_of b (g i).2 f = f) ->
    fold_left (fun f po => flag_of b po.2 f) (g <$> items) f = f).
  { intros g Hg. induction items as [|i items IH]; [done|]. cbn [fmap list_fmap fold_left]. by rewrite Hg. }
  by rewrite !H.
Qed.

(** The session: format the disk, copy every file and print every file. *)
Definition copy_line (p : Z) (items : list Item) : list Arg :=
  line ((p, Oformat) :: (copy_opt <$> items) ++ (print_opt <$> items)) None.
Definition item_plain (i : Item) : bool := plain (it_unix i) && plain (it_name i) && plain (it_again i).

Lemma copy_line_ok b p items :
  THREADS b = false -> forallb item_plain items = true ->
  forallb (opt_ok b) ((p, Oformat) :: (copy_opt <$> items) ++ (print_opt <$> items)) = true.
Proof.
  intros Hb H.
  assert (Hi : forall i, item_plain i = true -> opt_ok b (copy_opt i) = true /\ opt_ok b (print_opt i) = true).
  { intros i [[H1 H2]%andb_prop H3]%andb_prop. unfold opt_ok. rewrite Hb. cbn. by rewrite H1, H2, H3. }
  cbn [forallb]. rewrite forallb_app. unfold opt_ok at 1. rewrite Hb. cbn [snd operands forallb negb orb andb].
  induction items as [|i items IH]; [done|]. cbn [forallb fmap list_fmap] in *. apply andb_prop in H as [H1 H].
  destruct (Hi i H1) as [-> ->]. by apply IH.
Qed.

Section CopySession.
Context {D : Type} `{!SectorDisk D} `{!SectorDiskLaws D} `{!ThreadCalls (Session D), !UserCalls (Session D), !NetCalls (Session D)}.
Context (E : nat -> nat -> Env) (m : strings) (HE : forall c i, env_ok (E c i)) (Hm : forall c i, mem (E c i) = m).
Context (unix : string -> option (list Z)) (typed : list Z) (TestFile : Z).

Lemma copy_session b env p items (d : D) :
  THREADS b = false -> FILESYS b = true -> FILESYS_NEEDED b = true -> env_ok env -> disk_ok d ->
  Forall (item_ok m unix) items -> forallb item_plain items = true -> NoDup ((fun i => text (it_name i)) <$> items) ->
  (length items <= Z.to_nat NumDirEntries)%nat -> total items <= 1014 ->
  exists d', nachos E unix typed TestFile b env (copy_line p items) d =
      Ok (((fun _ => Scopy Copied) <$> items) ++ ((fun i => Sprint (Some (it_data i))) <$> items), d') /\ disk_ok d'.
Proof.
  intros Ht Hb Hfn Henv Hd Hok Hplain Hnd Hlen Htot.
  destruct (format_ok env d m Henv Hd) as (fs & d1 & table & fm & ms & ds & ps & ext & Hfmt & Hinv & _ & Hmap & Hfree & _).
  destruct (copies_ok E m HE Hm unix typed TestFile fs ms ds ps b Hb items (MkSession d1 [] 0) table fm ext)
    as (s2 & table2 & fm2 & ext2 & Hrun2 & Hshown2 & Hinv2 & Hall & _); try done.
  { rewrite Hmap, map_size_empty. lia. }
  { rewrite Hmap. apply Forall_forall. intros i _. apply lookup_empty. }
  { rewrite Hfree. done. }
  destruct (prints_ok E m HE Hm unix typed TestFile fs ms ds ps b Hb items s2 table2 fm2 ext2) as (s3 & Hrun3 & Hshown3 & Hinv3); try done.
  { clear -Htot. induction items as [|i items IH]; [done|]. cbn in Htot. fold (total items) in Htot.
    pose proof (total_nonneg items). pose proof (sectors_for_bound (it_data i)). apply Forall_cons. split; [lia|]. apply IH. lia. }
  unfold the_calls in Hrun2, Hrun3. exists (disk s3). split; [|apply (fi_disk _ _ _ _ _ _ _ _ _ Hinv3)].
  pose proof (copy_line_ok b p items Ht Hplain) as Hline. unfold nachos, copy_line, init_flags. rewrite init_line by done.
  cbn [fold_left snd flag_of last_flag]. rewrite copy_flags, Hfn. munfold. cbn [lift set_format format]. rewrite Hfmt.
  unfold run_main, main. rewrite Ht. munfold. rewrite main_line by done. munfold. cbn [calls_of snd call_of last_call]. munfold.
  rewrite calls_of_app. munfold. rewrite Hrun2, Hrun3. cbn. by rewrite Hshown3, Hshown2.
Qed.
End CopySession.

(** C18. The whole program, from the command line down to the disk: [nachos -f -cp u1 n1 ...
    -cp uk nk -p n1 ... -p nk], on a kernel started on any disk, formats the disk,
    copies every UNIX file and then shows exactly the bytes of each in turn, for any
    files that fit the disk and the directory together under different names and of
    which none takes exactly [NumDirect] sectors (3201 to 3328 bytes: [Allocate] then
    writes a header to an unset sector number); no assertion fails, and the kernel is
    then ready for the next request. *)
Theorem copy_and_print_session (Random : nat -> Z)
    `{!ThreadCalls (Session Kernel.Kernel), !UserCalls (Session Kernel.Kernel), !NetCalls (Session Kernel.Kernel)}
    img body (E : nat -> nat -> Env) (m : strings) unix typed TestFile b env p items :
  image_ok img -> THREADS b = false -> FILESYS b = true -> FILESYS_NEEDED b = true -> env_ok env ->
  (forall c i, env_ok (E c i)) -> (forall c i, mem (E c i) = m) ->
  Forall (item_ok m unix) items -> forallb item_plain items = true -> NoDup ((fun i => text (it_name i)) <$> items) ->
  (length items <= Z.to_nat NumDirEntries)%nat -> total items <= 1014 ->
  exists k k', Boot.start Random img body = Ok k /\
    nachos (SectorDisk0 := SynchDisk.synch_disk Random) E unix typed TestFile b env (copy_line p items) k =
      Ok (((fun _ => Scopy Copied) <$> items) ++ ((fun i => Sprint (Some (it_data i))) <$> items), k') /\
    SynchDisk.quiet k'.
Proof.
  intros Him Ht Hb Hfn Henv HE Hm Hok Hplain Hnd Hlen Htot. destruct (Boot.start_ready Random img body Him) as (k & Hk & Hq).
  destruct (copy_session (SectorDiskLaws0 := SynchDisk.synch_disk_laws Random) E m HE Hm unix typed TestFile b env p items k)
    as (k' & Hrun & Hq'); try done. by exists k, k'.
Qed.

(** ** Witnesses *)

Module Trace.
(** The calls as they are made. *)
Definition call (w : string) (ops : list Arg) : M (list (string * list string)) unit := modify (fun t => t ++ [(w, text <$> ops)]).
#[export] Instance trace_base : BaseCalls (list (string * list string)) :=
  {| print_copyright := call "copyright" []; Finish := call "Finish" [] |}.
#[export] Instance trace_threads : ThreadCalls (list (string * list string)) :=
  {| print_complied := call "Complied" []; ThreadTest n := if n =? 4 then call "ThreadTest4" [] else call "ThreadTest" [] |}.
#[export] Instance trace_user : UserCalls (list (string * list string)) := {|
  StartProcess f := call "StartProcess" [f];
  ConsoleTest io := call "ConsoleTest" (match io with Some (i, o) => [i; o] | None => [] end);
  Halt := halt Halted
|}.
#[export] Instance trace_file : FileCalls (list (string * list string)) := {|
  call_Copy u n := call "Copy" [u; n]; call_Print n := call "Print" [n]; call_Remove n := call "Remove" [n];
  call_List := call "List" []; call_PrintAll := call "PrintAll" [];
  call_PerformanceTest := call "PerformanceTest" []; call_PipeTest := call "PipeTest" []
|}.
#[export] Instance trace_net : NetCalls (list (string * list string)) :=
  {| Delay _ := call "Delay" []; MailTest _ := call "MailTest" [] |}.
End Trace.
Import Trace.

(** [nachos -d ft -f -cp halt h -x h -rs 7 -p h -d], as built in [filesys/]. *)
Definition filesys_build : Build := MkBuild false true true true false.
Definition demo_opts : list (Z * Opt) :=
  [(1, Odebug (MkArg 2 "ft")); (3, Oformat); (4, Ocp (MkArg 5 "halt") (MkArg 6 "h")); (7, Orun (MkArg 8 "h"));
   (9, Orandom (MkArg 10 "7")); (11, Oprint (MkArg 12 "h"))].

(** [nachos -rs 7 -q 4], as built in [threads/]. *)
Definition threads_build : Build := MkBuild true false false false false.
Definition threads_opts : list (Z * Opt) := [(1, Orandom (MkArg 2 "7")); (3, Otest (MkArg 4 "4"))].

Lemma command_line_correct_witness :
  init_flags filesys_build (line demo_opts (Some (13, Ldebug))) = Ok (MkFlags "+" (Some 7) true false false true None 0) /\
  main filesys_build (line demo_opts (Some (13, Ldebug))) [] =
    Ok (tt, [("Copy", ["halt"; "h"]); ("StartProcess", ["h"]); ("Print", ["h"]); ("Finish", [])]%string) /\
  main filesys_build (line demo_opts None ++ [MkArg 13 "-cp"; MkArg 14 "a"]) [] = Stop AssertFailed /\
  main threads_build (line threads_opts None) [] = Ok (tt, [("Complied", []); ("ThreadTest4", []); ("Finish", [])]%string).
Proof.
  destruct (command_line_correct (S := list (string * list string)) filesys_build demo_opts) as (H1 & _ & H3).
  { vm_compute. reflexivity. }
  destruct (command_line_correct (S := list (string * list string)) threads_build threads_opts) as (H4 & _ & _).
  { vm_compute. reflexivity. }
  destruct (H1 (Some (13, Ldebug))) as [Hf Hm]. split; [rewrite Hf; reflexivity|]. split; [rewrite Hm; reflexivity|].
  split; [rewrite H3; reflexivity|]. rewrite (proj2 (H4 None)). reflexivity.
Defined.

Definition demo_env : Env := MkEnv (new_words env0) (new_table env0) (new_hdr env0) (new_buf env0) (time_now env0)
  (fun p => if p =? 1000 then Some "a"%string else if p =? 2000 then Some "b"%string else None).
Definition demo_unix (s : string) : option (list Z) :=
  if String.eqb s "one" then Some [104; 105] else if String.eqb s "two" then Some (replicate 300 42) else None.
Definition demo_items : list Item :=
  [MkItem 1 (MkArg 2 "one") (MkArg 1000 "a") (MkArg 1000 "a") [104; 105];
   MkItem 3 (MkArg 4 "two") (MkArg 2000 "b") (MkArg 2000 "b") (replicate 300 42)].

Lemma demo_env_ok : env_ok demo_env.
Proof. by destruct env0_ok; constructor. Qed.

Lemma copy_and_print_session_witness :
  exists k k', Boot.start (fun _ => 0) blank_disk [] = Ok k /\
    nachos (SectorDisk0 := SynchDisk.synch_disk (fun _ => 0)) (ThreadCalls0 := Build_ThreadCalls _ (mret tt) (fun _ => mret tt)) (UserCalls0 := Build_UserCalls _ (fun _ => mret tt) (fun _ => mret tt) (mret tt))
      (NetCalls0 := Build_NetCalls _ (fun _ => mret tt) (fun _ => mret tt))
      (fun _ _ => demo_env) demo_unix [] 0 filesys_build demo_env (copy_line 9 demo_items) k =
    Ok ([Scopy Copied; Scopy Copied; Sprint (Some [104; 105]); Sprint (Some (replicate 300 42))], k').
Proof.
  destruct (copy_and_print_session (fun _ => 0) (ThreadCalls0 := Build_ThreadCalls _ (mret tt) (fun _ => mret tt)) (UserCalls0 := Build_UserCalls _ (fun _ => mret tt) (fun _ => mret tt) (mret tt))
      (NetCalls0 := Build_NetCalls _ (fun _ => mret tt) (fun _ => mret tt))
      blank_disk [] (fun _ _ => demo_env) (mem demo_env) demo_unix [] 0 filesys_build demo_env 9 demo_items) as (k & k' & H1 & H2 & _).
  - apply blank_disk_ready.
  - reflexivity.
  - reflexivity.
  - reflexivity.
  - exact demo_env_ok.
  - intros c i. exact demo_env_ok.
  - reflexivity.
  - repeat constructor; try reflexivity; try (unfold is_u32; cbn; lia); try (unfold is_byte; cbn; lia);
      try (by apply Forall_replicate); vm_compute; discriminate.
  - vm_compute. reflexivity.
  - apply (bool_decide_eq_true_1 _). vm_compute. reflexivity.
  - vm_compute. lia.
  - vm_compute. discriminate.
  - exists k, k'. split; [exact H1|exact H2].
Defined.
