(* ===== verification/Coff2Noff.v ===== *)
(** * The object file converter: [bin/coff2noff.c], [bin/coff.h]

    User programs are compiled and linked on the host into COFF files; [coff2noff]
    turns one into a NOFF file, which [Copy] brings to the Nachos disk and
    [StartProcess] loads.  The program is a function of the input file; the layout of
    the headers is that of the 32-bit little-endian host.  The last theorem puts the
    whole way together: what the loaded program has in memory is what the sections of
    the COFF file hold. *)

From S2P Require Import Prelude BitMap Sectors FileHdr OpenFile Directory FileSys FileIO.
From S2P Require Import Disk Kernel Machine Paging AddrSpace FsTest.

(** ** [coff.h] *)

Definition MIPSELMAGIC : Z := 0x0162.
Definition OMAGIC : Z := 0x107.

Record filehdr : Type := MkFilehdr {
  f_magic : Z; f_nscns : Z; f_timdat : Z; f_symptr : Z; f_nsyms : Z; f_opthdr : Z; f_flags : Z
}.
Record aouthdr : Type := MkAouthdr {
  magic : Z; vstamp : Z; tsize : Z; dsize : Z; bsize : Z; entry : Z; text_start : Z; data_start : Z; bss_start : Z;
  gprmask : Z; cprmask : list Z; gp_value : Z
}.
Record scnhdr : Type := MkScnhdr {
  s_name : list Z; s_paddr : Z; s_vaddr : Z; s_size : Z; s_scnptr : Z; s_relptr : Z; s_lnnoptr : Z;
  s_nreloc : Z; s_nlnno : Z; s_flags : Z
}.

(** The [long], [unsigned short] and [short] at an offset of a structure. *)
Definition long_at (bs : list Z) (o : nat) : Z := i32 (le_val (take 4 (drop o bs))).
Definition ushort_at (bs : list Z) (o : nat) : Z := le_val (take 2 (drop o bs)).
Definition short_at (bs : list Z) (o : nat) : Z := (ushort_at bs o + 2 ^ 15) mod 2 ^ 16 - 2 ^ 15.

(** The structures as [ReadStruct] fills them. *)
Definition filehdr_of_bytes (bs : list Z) : filehdr :=
  MkFilehdr (ushort_at bs 0) (ushort_at bs 2) (long_at bs 4) (long_at bs 8) (long_at bs 12) (ushort_at bs 16) (ushort_at bs 18).
Definition aouthdr_of_bytes (bs : list Z) : aouthdr :=
  MkAouthdr (short_at bs 0) (short_at bs 2) (long_at bs 4) (long_at bs 8) (long_at bs 12) (long_at bs 16) (long_at bs 20)
    (long_at bs 24) (long_at bs 28) (long_at bs 32) [long_at bs 36; long_at bs 40; long_at bs 44; long_at bs 48] (long_at bs 52).
Definition scnhdr_of_bytes (bs : list Z) : scnhdr :=
  MkScnhdr (take 8 bs) (long_at bs 8) (long_at bs 12) (long_at bs 16) (long_at bs 20) (long_at bs 24) (long_at bs 28)
    (ushort_at bs 32) (ushort_at bs 34) (long_at bs 36).
Fixpoint scnhdrs_of_bytes (n : nat) (bs : list Z) : list scnhdr :=
  match n with O => [] | S n => scnhdr_of_bytes (take 40 bs) :: scnhdrs_of_bytes n (drop 40 bs) end.

(** The ten [int]s of the NOFF header, as [Write] puts them out. *)
Definition segment_ints (s : Segment) : list Z := [virtualAddr s; inFileAddr s; size s].
Definition noff_bytes (h : NoffHeader) : list Z :=
  (noffMagic h :: segment_ints (code h) ++ segment_ints (initData h) ++ segment_ints (uninitData h)) ≫= le_bytes 4.

(** ** The host's files *)

(** The input and the position in it; the output, [None] when it could not be opened,
    and the position in it; whether the output has been unlinked. *)
Record Host : Type := MkHost {
  fdIn : list Z; posIn : Z; fdOut : option (list Z); posOut : Z; unlinked : bool
}.

(** The messages of the exits with status 1. *)
Inductive message : Type :=
| Usage | NoSuchFile | FileTooShort | NotMipsel | NotOmagic | BothData | BothBss | UnknownSegment | CannotWrite.

(** A run of the program: on with a result, left with a message, or with no meaning. *)
Inductive outcome (A : Type) : Type :=
| Done (a : A) (h : Host)
| Exit1 (m : message) (h : Host)
| Undef.
Arguments Done {A} a h.
Arguments Exit1 {A} m h.
Arguments Undef {A}.

Definition X (A : Type) : Type := Host -> outcome A.
#[export] Instance X_ret : MRet X := fun A a h => Done a h.
#[export] Instance X_bind : MBind X := fun A B f p h =>
  match p h with Done a h => f a h | Exit1 m h => Exit1 m h | Undef => Undef end.

(** [unlink(noffFileName); exit(1)] after the message. *)
Definition unlink_quit {A} (m : message) : X A := fun h => Exit1 m (MkHost (fdIn h) (posIn h) (fdOut h) (posOut h) true).
(** [int] arithmetic. *)
Definition xint (z : Z) : X Z := fun h => match int z with Ok z => Done z h | Stop _ => Undef end.

(** [lseek(fd, pos, 0)], whose result the program ignores: a negative position is
    refused. *)
Definition lseek_in (pos : Z) : X unit := fun h =>
  Done tt (if pos <? 0 then h else MkHost (fdIn h) pos (fdOut h) (posOut h) (unlinked h)).
Definition lseek_out (pos : Z) : X unit := fun h =>
  Done tt (if pos <? 0 then h else MkHost (fdIn h) (posIn h) (fdOut h) pos (unlinked h)).

(** [read]: the bytes it returns.  What it does with a count above [SSIZE_MAX], to
    which a negative [int] is converted, is up to the host. *)
Definition read (nBytes : Z) : X (list Z) := fun h =>
  if nBytes <? 0 then Undef
  else
    let bs := take (Z.to_nat nBytes) (drop (Z.to_nat (posIn h)) (fdIn h)) in
    Done bs (MkHost (fdIn h) (posIn h + Z.of_nat (length bs)) (fdOut h) (posOut h) (unlinked h)).

(** A file with zeros up to position [n]. *)
Definition pad (n : nat) (l : list Z) : list Z := l ++ replicate (n - length l) 0.

(** [write], on a host that takes files of [room] bytes: the count it returns, -1 for
    an output that is not open. *)
Definition write (room : Z) (buf : list Z) : X Z := fun h =>
  match fdOut h with
  | None => Done (-1) h
  | Some out =>
      let bs := take (Z.to_nat (room - posOut h)) buf in
      let n := Z.of_nat (length bs) in
      Done n (MkHost (fdIn h) (posIn h) (Some (ins (Z.to_nat (posOut h)) bs (pad (Z.to_nat (posOut h)) out)))
                (posOut h + n) (unlinked h))
  end.

(** ** [coff2noff.c] *)

(** [Read] and [Write]. *)
Definition Read (nBytes : Z) : X (list Z) :=
  bs ← read nBytes;
  if Z.of_nat (length bs) =? nBytes then mret bs else unlink_quit FileTooShort.
Definition Write (room : Z) (buf : list Z) : X unit :=
  n ← write room buf;
  if n =? Z.of_nat (length buf) then mret tt else unlink_quit CannotWrite.

(** [!strcmp(a, b)] for the array [a] and the literal [b], whose terminating 0 is
    within [a]. *)
Fixpoint streq (a b : list Z) : bool :=
  match a, b with
  | [], _ => false
  | x :: _, [] => x =? 0
  | x :: a, y :: b => (x =? y) && streq a b
  end.
Definition literal (s : string) : list Z := (fun c => Z.of_N (Ascii.N_of_ascii c)) <$> String.list_ascii_of_string s.

(** The tests of the names in the loop over the sections. *)
Inductive kind : Type := Text | Data | Bss | Unknown.
#[export] Instance kind_eq_dec : EqDecision kind.
Proof. solve_decision. Defined.
Definition section_kind (s : scnhdr) : kind :=
  if streq (s_name s) (literal ".text") then Text
  else if streq (s_name s) (literal ".data") || streq (s_name s) (literal ".rdata") then Data
  else if streq (s_name s) (literal ".bss") || streq (s_name s) (literal ".sbss") then Bss
  else Unknown.

Definition set_code (s : Segment) (h : NoffHeader) : NoffHeader := MkNoff (noffMagic h) s (initData h) (uninitData h).
Definition set_initData (s : Segment) (h : NoffHeader) : NoffHeader := MkNoff (noffMagic h) (code h) s (uninitData h).
Definition set_uninitData (s : Segment) (h : NoffHeader) : NoffHeader := MkNoff (noffMagic h) (code h) (initData h) s.

(** The bytes of a section, from the one file to the other. *)
Definition copy_section (room : Z) (s : scnhdr) : X unit :=
  _ ← lseek_in (s_scnptr s);
  buffer ← Read (s_size s);
  Write room buffer.

(** The body of the loop that copies the segments in, on [noffH] and [inNoffFile]. *)
Definition place_section (room : Z) (s : scnhdr) (noffH : NoffHeader) (inNoffFile : Z) : X (NoffHeader * Z) :=
  if s_size s =? 0 then mret (noffH, inNoffFile)
  else
    match section_kind s with
    | Text =>
        let noffH := set_code (MkSeg (s_paddr s) inNoffFile (s_size s)) noffH in
        _ ← copy_section room s;
        inNoffFile ← xint (inNoffFile + s_size s);
        mret (noffH, inNoffFile)
    | Data =>
        if negb (size (initData noffH) =? 0) then unlink_quit BothData
        else
          let noffH := set_initData (MkSeg (s_paddr s) inNoffFile (s_size s)) noffH in
          _ ← copy_section room s;
          inNoffFile ← xint (inNoffFile + s_size s);
          mret (noffH, inNoffFile)
    | Bss =>
        let u := uninitData noffH in
        if negb (size u =? 0) then
          e ← xint (virtualAddr u + size u);
          if s_paddr s =? e then unlink_quit BothBss
          else
            z ← xint (size u + s_size s);
            mret (set_uninitData (MkSeg (virtualAddr u) (inFileAddr u) z) noffH, inNoffFile)
        else mret (set_uninitData (MkSeg (s_paddr s) (inFileAddr u) (s_size s)) noffH, inNoffFile)
    | Unknown => unlink_quit UnknownSegment
    end.
Fixpoint place_sections (room : Z) (sections : list scnhdr) (noffH : NoffHeader) (inNoffFile : Z) : X NoffHeader :=
  match sections with
  | [] => mret noffH
  | s :: sections =>
      '(noffH, inNoffFile) ← place_section room s noffH inNoffFile;
      place_sections room sections noffH inNoffFile
  end.

(** The loop that brings the fields it uses to the host's byte order. *)
Definition scnhdr_to_host (s : scnhdr) : scnhdr :=
  MkScnhdr (s_name s) (swap_int (s_paddr s)) (s_vaddr s) (swap_int (s_size s)) (swap_int (s_scnptr s)) (s_relptr s)
    (s_lnnoptr s) (s_nreloc s) (s_nlnno s) (s_flags s).

(** [ShortToHost] is the identity on the little-endian host. *)
Definition ShortToHost (shortword : Z) : Z := shortword.

(** The fields of [noffH] that are set before the loop; [junk] is what it holds at
    first. *)
Definition init_noff (junk : NoffHeader) : NoffHeader :=
  let empty s := MkSeg (virtualAddr s) (inFileAddr s) 0 in
  MkNoff NOFFMAGIC (empty (code junk)) (empty (initData junk)) (empty (uninitData junk)).

(** [main] after the files are opened. *)
Definition convert (room : Z) (junk : NoffHeader) : X unit :=
  bs ← Read 20;
  let fileh := filehdr_of_bytes bs in
  if negb (ShortToHost (f_magic fileh) =? MIPSELMAGIC) then unlink_quit NotMipsel
  else
    bs ← Read 56;
    let systemh := aouthdr_of_bytes bs in
    if negb (ShortToHost (magic systemh) =? OMAGIC) then unlink_quit NotOmagic
    else
      let numsections := ShortToHost (f_nscns fileh) in
      bs ← Read (numsections * 40);
      let sections := scnhdr_to_host <$> scnhdrs_of_bytes (Z.to_nat numsections) bs in
      _ ← lseek_out 40;
      noffH ← place_sections room sections (init_noff junk) 40;
      _ ← lseek_out 0;
      Write room (noff_bytes noffH).

(** [main]: [input] is the contents of the file of the first argument, [None] when it
    cannot be opened; [output] whether there is a second one, and it can be created.
    The test after the second [open] is of [fdIn] again and never fails. *)
Definition main (room argc : Z) (input : option (list Z)) (output : bool) (junk : NoffHeader) : outcome unit :=
  let none := MkHost [] 0 None 0 false in
  if argc <? 2 then Exit1 Usage none
  else
    match input with
    | None => Exit1 NoSuchFile none
    | Some bs => convert room junk (MkHost bs 0 (if output then Some [] else None) 0 false)
    end.

(** ** What a COFF file describes *)

(** The fields of a NOFF header are [int]s. *)
Definition seg_i32 (g : Segment) : Prop := is_i32 (virtualAddr g) /\ is_i32 (inFileAddr g) /\ is_i32 (size g).
Definition noff_i32 (h : NoffHeader) : Prop :=
  is_i32 (noffMagic h) /\ seg_i32 (code h) /\ seg_i32 (initData h) /\ seg_i32 (uninitData h).

(** The sections of a kind that are not empty. *)
Definition of_kind (k : kind) (l : list scnhdr) : list scnhdr := filter (fun s => s_size s <> 0 /\ section_kind s = k) l.

(** The number of bytes that are copied. *)
Definition stored_size (s : scnhdr) : Z := match section_kind s with Text | Data => s_size s | _ => 0 end.
Definition stored (l : list scnhdr) : Z := foldr (fun s z => stored_size s + z) 0 l.

Definition total_size (l : list scnhdr) : Z := foldr (fun s z => s_size s + z) 0 l.

(** Sections of uninitialised data that the converter accepts: it refuses one that begins
    where those before it, taken as one from the address [a] of the first, end. *)
Fixpoint bss_from (a z : Z) (l : list scnhdr) : Prop :=
  match l with
  | [] => True
  | s :: l => is_i32 (a + z) /\ s_paddr s <> a + z /\ is_i32 (z + s_size s) /\ bss_from a (z + s_size s) l
  end.
Definition bss_ok (l : list scnhdr) : Prop :=
  match l with [] => True | s :: l => bss_from (s_paddr s) (s_size s) l end.

Lemma total_size_app l l' : total_size (l ++ l') = total_size l + total_size l'.
Proof. unfold total_size. induction l as [|s l IH]; [done|]. cbn [app foldr]. lia. Qed.
Lemma bss_from_app a z l l' : bss_from a z (l ++ l') <-> bss_from a z l /\ bss_from a (z + total_size l) l'.
Proof.
  revert z. induction l as [|s l IH]; intros z; cbn [app bss_from total_size foldr]; [by rewrite Z.add_0_r; naive_solver|].
  rewrite IH. unfold total_size. rewrite Z.add_assoc. naive_solver.
Qed.
Lemma bss_ok_app l l' : bss_ok (l ++ l') -> bss_ok l.
Proof. destruct l as [|s l]; [done|]. cbn [app bss_ok]. by intros [? _]%bss_from_app. Qed.

Section Convert.
Context (B : list Z).

Definition section_bytes (s : scnhdr) : list Z := take (Z.to_nat (s_size s)) (drop (Z.to_nat (s_scnptr s)) B).

(** A section the converter handles: empty, or of a known kind and, when it has bytes
    in the file, inside it. *)
Record section_ok (s : scnhdr) : Prop := {
  so_long : is_i32 (s_paddr s) /\ is_i32 (s_size s);
  so_size : 0 <= s_size s;
  so_kind : s_size s <> 0 -> section_kind s <> Unknown;
  so_file : s_size s <> 0 -> section_kind s <> Bss -> 0 <= s_scnptr s /\ s_scnptr s + s_size s <= Z.of_nat (length B)
}.

(** The object file has the sections [secs]: at most one of code and one of initialised
    data, and any number of uninitialised data that the converter does not refuse. *)
Record coff_ok (secs : list scnhdr) : Prop := {
  co_len : (76 + 40 * length secs <= length B)%nat;
  co_magic : ushort_at B 0 = MIPSELMAGIC;
  co_omagic : short_at B 20 = OMAGIC;
  co_number : ushort_at B 2 = Z.of_nat (length secs);
  co_secs : secs = scnhdrs_of_bytes (length secs) (drop 76 B);
  co_good : Forall section_ok secs;
  co_one : forall k, k <> Bss -> (length (of_kind k secs) <= 1)%nat;
  co_bss : bss_ok (of_kind Bss secs);
  co_size : 40 + stored secs < 2 ^ 31
}.

(** The segment [g] of the NOFF file [C] is the section of kind [k], or empty. *)
Definition segment_of (C : list Z) (secs : list scnhdr) (k : kind) (g : Segment) : Prop :=
  match of_kind k secs with
  | [] => size g = 0
  | [s] => virtualAddr g = s_paddr s /\ size g = s_size s /\ 40 <= inFileAddr g /\
           inFileAddr g + size g <= Z.of_nat (length C) /\ segment_bytes C g = section_bytes s
  | _ => False
  end.
(** The segment [g] begins at the first section of uninitialised data and has the size of
    all of them. *)
Definition uninit_of (secs : list scnhdr) (g : Segment) : Prop :=
  size g = total_size (of_kind Bss secs) /\ forall s, head (of_kind Bss secs) = Some s -> virtualAddr g = s_paddr s.

(** ** The loop *)

Lemma xbind_ok {A A'} (p : X A) (f : A -> X A') h a h' : p h = Done a h' -> (p ≫= f) h = f a h'.
Proof. intros H. unfold mbind, X_bind. by rewrite H. Qed.
Lemma xint_ok z h : is_i32 z -> xint z h = Done z h.
Proof. intros H. unfold xint. by rewrite int_ok. Qed.

Lemma stored_app l k : stored (l ++ k) = stored l + stored k.
Proof. unfold stored. induction l as [|s l IH]; [done|]. cbn [app foldr]. lia. Qed.
Lemma stored_nonneg l : Forall section_ok l -> 0 <= stored l.
Proof.
  induction 1 as [|s l Hs Hl IH]; [done|]. unfold stored in *. cbn [foldr]. unfold stored_size at 1. pose proof (so_size _ Hs). destruct (section_kind s); lia.
Qed.

Lemma of_kind_other k l s : s_size s = 0 \/ section_kind s <> k -> of_kind k (l ++ [s]) = of_kind k l.
Proof.
  intros H. unfold of_kind. rewrite filter_app. rewrite filter_cons_False by (intros [? ?]; naive_solver).
  rewrite filter_nil. apply app_nil_r.
Qed.
Lemma of_kind_new l s : s_size s <> 0 -> (length (of_kind (section_kind s) (l ++ [s])) <= 1)%nat ->
  of_kind (section_kind s) l = [] /\ of_kind (section_kind s) (l ++ [s]) = [s].
Proof.
  intros Hs. unfold of_kind. rewrite filter_app, filter_cons_True, filter_nil by done.
  destruct (filter _ l); [done|]. rewrite length_app. cbn. lia.
Qed.

Lemma segment_of_app C C' l k g : segment_of C l k g -> segment_of (C ++ C') l k g.
Proof.
  unfold segment_of, segment_bytes. destruct (of_kind k l) as [|s [|]] eqn:Hk; try done. intros (H1 & H2 & H3 & H4 & H5).
  rewrite length_app. split_and!; try done; [lia|]. rewrite <- H5.
  destruct (decide (size g < 0)) as [|]; [rewrite !(Z2Nat.nonpos (size g)) by lia; by rewrite !take_0|].
  rewrite drop_app_le by lia. rewrite take_app_le; [done|]. rewrite length_drop. lia.
Qed.

(** The state of the loop after the sections [l]. *)
Record placed (l : list scnhdr) (noffH : NoffHeader) (n : Z) (h : Host) (C : list Z) : Prop := {
  pl_in : fdIn h = B;
  pl_out : exists out, fdOut h = Some out /\ pad 40 out = C;
  pl_pos : posOut h = n;
  pl_stored : n = 40 + stored l;
  pl_len : Z.of_nat (length C) = n;
  pl_bytes : Forall is_byte B -> Forall is_byte C;
  pl_i32 : noff_i32 noffH;
  pl_magic : noffMagic noffH = NOFFMAGIC;
  pl_code : segment_of C l Text (code noffH);
  pl_data : segment_of C l Data (initData noffH);
  pl_bss : uninit_of l (uninitData noffH)
}.

Context (room : Z).

Lemma pad_length k (l : list Z) : length (pad k l) = (k `max` length l)%nat.
Proof. unfold pad. rewrite length_app, length_replicate. lia. Qed.
Lemma pad_id k (l : list Z) : (k <= length l)%nat -> pad k l = l.
Proof. intros H. unfold pad. replace (k - length l)%nat with 0%nat by lia. apply app_nil_r. Qed.

Lemma copy_section_ok s h n C out :
  fdIn h = B -> fdOut h = Some out -> pad 40 out = C -> posOut h = n -> Z.of_nat (length C) = n -> n + s_size s <= room ->
  0 <= s_size s -> 0 <= s_scnptr s -> s_scnptr s + s_size s <= Z.of_nat (length B) ->
  exists h', copy_section room s h = Done tt h' /\ fdIn h' = B /\ fdOut h' = Some (C ++ section_bytes s) /\
    posOut h' = n + s_size s /\ length (section_bytes s) = Z.to_nat (s_size s) /\ unlinked h' = unlinked h.
Proof.
  intros Hin Hout HC Hpos Hlen Hroom Hs Hptr Hfit.
  assert (Hl : length (section_bytes s) = Z.to_nat (s_size s)) by (unfold section_bytes; rewrite length_take, length_drop; lia).
  pose proof (pad_length 40 out) as Hpl. rewrite HC in Hpl.
  assert (Hpad : pad (Z.to_nat n) out = C) by (rewrite <- HC; unfold pad; do 2 f_equal; lia).
  unfold copy_section. erewrite xbind_ok by reflexivity. rewrite (proj2 (Z.ltb_ge _ _)) by lia.
  erewrite (xbind_ok (Read _)).
  2:{ unfold Read. erewrite xbind_ok by (unfold read; rewrite (proj2 (Z.ltb_ge _ _)) by lia; reflexivity).
      cbn [posIn fdIn]. rewrite Hin. fold (section_bytes s). rewrite Hl, Z2Nat.id, Z.eqb_refl by lia. reflexivity. }
  unfold Write. erewrite xbind_ok by (unfold write; cbn [fdOut posOut]; rewrite Hout; reflexivity).
  cbn [fdIn posIn posOut unlinked]. rewrite ?Hin, Hpos, Hpad. fold (section_bytes s).
  rewrite take_ge by lia. rewrite Z.eqb_refl. eexists. split; [reflexivity|]. cbn [fdIn fdOut posOut unlinked].
  split_and!; try done; [|lia]. f_equal. unfold ins. rewrite take_ge, drop_ge, app_nil_r by lia. done.
Qed.

(** A section whose bytes have been copied. *)
Lemma copied_segment l s C n :
  section_ok s -> s_size s <> 0 -> section_kind s <> Bss -> (length (of_kind (section_kind s) (l ++ [s])) <= 1)%nat ->
  Z.of_nat (length C) = n -> 40 <= n ->
  segment_of (C ++ section_bytes s) (l ++ [s]) (section_kind s) (MkSeg (s_paddr s) n (s_size s)).
Proof.
  intros Hs Hne Hnb Hone Hn H40. destruct (of_kind_new l s Hne Hone) as [_ Hnew]. destruct (so_file _ Hs Hne Hnb).
  assert (Hl : length (section_bytes s) = Z.to_nat (s_size s)) by (unfold section_bytes; rewrite length_take, length_drop; lia). unfold segment_of, segment_bytes. rewrite Hnew.
  cbn [virtualAddr inFileAddr size]. rewrite length_app. split_and!; try done; [lia|].
  rewrite drop_app_length' by lia. by rewrite take_ge by lia.
Qed.

Lemma segment_of_skip C l s k g : s_size s = 0 \/ section_kind s <> k -> segment_of C l k g -> segment_of C (l ++ [s]) k g.
Proof. intros H. unfold segment_of. by rewrite of_kind_other. Qed.
Lemma uninit_of_skip l s g : s_size s = 0 \/ section_kind s <> Bss -> uninit_of l g -> uninit_of (l ++ [s]) g.
Proof. intros H. unfold uninit_of. by rewrite of_kind_other. Qed.

(** The state after the bytes of a section were copied. *)
Lemma place_copied l s noffH n h C :
  placed l noffH n h C -> section_ok s -> s_size s <> 0 -> section_kind s <> Bss -> stored_size s = s_size s ->
  (length (of_kind (section_kind s) (l ++ [s])) <= 1)%nat -> 0 <= stored l -> 40 + stored l + s_size s <= room ->
  exists h', copy_section room s h = Done tt h' /\ unlinked h' = unlinked h /\ forall noffH',
    noff_i32 noffH' -> noffMagic noffH' = NOFFMAGIC -> segment_of (C ++ section_bytes s) (l ++ [s]) Text (code noffH') ->
    segment_of (C ++ section_bytes s) (l ++ [s]) Data (initData noffH') -> uninit_of (l ++ [s]) (uninitData noffH') ->
    placed (l ++ [s]) noffH' (n + s_size s) h' (C ++ section_bytes s).
Proof.
  intros [Hin (out & Hout & HC) Hpos Hst Hlen Hbytes _ _ _ _ _] [_ Hs _ Hfile] Hne Hnb Hss Hone H0 Hroom.
  destruct (Hfile Hne Hnb) as [Hptr Hfit].
  destruct (copy_section_ok s h n C out) as (h' & Hrun & Hin' & Hout' & Hpos' & Hl & Hu); try done; [lia|].
  exists h'. split; [done|]. split; [done|]. intros noffH' Hi Hm Hc Hd Hb. split; try done.
  - exists (C ++ section_bytes s). split; [done|]. apply pad_id. rewrite length_app. lia.
  - rewrite stored_app. cbn. lia.
  - rewrite length_app. lia.
  - intros HB. apply Forall_app. split; [by apply Hbytes|]. by apply Forall_take, Forall_drop.
Qed.

Lemma set_i32 s n noffH : section_ok s -> is_i32 n -> noff_i32 noffH ->
  let g := MkSeg (s_paddr s) n (s_size s) in
  noff_i32 (set_code g noffH) /\ noff_i32 (set_initData g noffH) /\ noff_i32 (set_uninitData g noffH).
Proof. intros [[? ?] _ _ _] ? (? & ? & ? & ?) g. by split_and!. Qed.

Lemma bss_positive l : Forall section_ok l -> of_kind Bss l <> [] -> 0 < total_size (of_kind Bss l).
Proof.
  intros Hl. assert (Hf : Forall (fun s => 0 < s_size s) (of_kind Bss l)).
  { apply Forall_forall. intros s [[Hne _] Hs]%list_elem_of_filter. rewrite Forall_forall in Hl. pose proof (so_size _ (Hl s Hs)). lia. }
  unfold total_size. induction Hf as [|s k Hs Hk IH]; [done|]. intros _. cbn [foldr]. destruct k; [cbn; lia|]. specialize (IH ltac:(done)). lia.
Qed.

(** A section of uninitialised data only changes the header. *)
Lemma place_bss l s noffH n h C :
  placed l noffH n h C -> section_ok s -> Forall section_ok l -> bss_ok (of_kind Bss (l ++ [s])) -> s_size s <> 0 -> section_kind s = Bss ->
  exists noffH', place_section room s noffH n h = Done (noffH', n) h /\ placed (l ++ [s]) noffH' n h C.
Proof.
  intros Hpl Hs Hl Hbss Hne Hk. pose proof (pl_bss _ _ _ _ _ Hpl) as [Hz Hv].
  assert (Hnew : of_kind Bss (l ++ [s]) = of_kind Bss l ++ [s]).
  { unfold of_kind. rewrite filter_app. by rewrite filter_cons_True, filter_nil. }
  assert (Hnext : forall g, is_i32 (size g) -> is_i32 (virtualAddr g) -> inFileAddr g = inFileAddr (uninitData noffH) ->
    uninit_of (l ++ [s]) g -> placed (l ++ [s]) (set_uninitData g noffH) n h C).
  { intros g Hg1 Hg2 Hg3 Hu. destruct Hpl as [? ? ? Hst ? ? (? & ? & ? & ? & ? & ?) ? ? ? ?].
    split; cbn [noffMagic code initData uninitData set_uninitData]; try done.
    - rewrite stored_app, Hst. cbn. unfold stored_size. rewrite Hk. lia.
    - do 3 (split; [done|]). split; [done|]. split; [|done]. cbn. by rewrite Hg3.
    - apply segment_of_skip; [right; congruence|done].
    - apply segment_of_skip; [right; congruence|done]. }
  unfold place_section. rewrite (proj2 (Z.eqb_neq (s_size s) 0) Hne), Hk. destruct (of_kind Bss l) as [|s0 l'] eqn:Hol.
  - rewrite Hz. cbn [total_size foldr Z.eqb negb]. eexists. split; [reflexivity|].
    apply Hnext; try done; [apply Hs..|]. split; rewrite Hnew; cbn; [lia|by intros ? [= <-]].
  - pose proof (bss_positive l Hl) as Hpos. rewrite Hol in Hpos. specialize (Hpos ltac:(done)).
    rewrite (proj2 (Z.eqb_neq (size (uninitData noffH)) 0)) by lia. cbn [negb].
    specialize (Hv s0 eq_refl). rewrite Hnew in Hbss. cbn [app bss_ok] in Hbss. apply bss_from_app in Hbss as [_ (H1 & H2 & H3 & _)].
    assert (Hsum : s_size s0 + total_size l' = size (uninitData noffH)) by (rewrite Hz; done). rewrite Hsum in *.
    rewrite Hv, (xbind_ok _ _ _ _ _ (xint_ok _ h H1)), (proj2 (Z.eqb_neq _ _) H2), (xbind_ok _ _ _ _ _ (xint_ok _ h H3)).
    eexists. split; [reflexivity|]. apply Hnext; try done.
    + cbn. rewrite <- Hv. by destruct Hpl as [_ _ _ _ _ _ (_ & _ & _ & Hu & _) _ _ _ _].
    + split; rewrite Hnew; [|by intros ? [= <-]]. cbn [size]. rewrite total_size_app, <- Hz. cbn. lia.
Qed.

Lemma place_section_ok l s noffH n h C :
  placed l noffH n h C -> section_ok s -> Forall section_ok l ->
  (forall k, k <> Bss -> (length (of_kind k (l ++ [s])) <= 1)%nat) -> bss_ok (of_kind Bss (l ++ [s])) -> 0 <= stored l ->
  40 + stored (l ++ [s]) < 2 ^ 31 -> 40 + stored (l ++ [s]) <= room ->
  exists noffH' n' h' C', place_section room s noffH n h = Done (noffH', n') h' /\ unlinked h' = unlinked h /\ placed (l ++ [s]) noffH' n' h' C'.
Proof.
  intros Hpl Hs Hl Hone Hbss H0 Hmax Hroom. rewrite stored_app in Hmax, Hroom. unfold stored at 2 in Hmax. unfold stored at 2 in Hroom.
  cbn [foldr] in Hmax, Hroom. unfold place_section.
  destruct (Z.eqb_spec (s_size s) 0) as [Hz|Hne].
  { exists noffH, n, h, C. split; [done|]. split; [done|]. destruct Hpl as [? ? ? Hst ? ? ? ? ? ? ?].
    split; try done; try (apply segment_of_skip || apply uninit_of_skip; [by left|done]).
    rewrite stored_app, Hst. cbn. unfold stored_size. destruct (section_kind s); lia. }
  pose proof (so_size _ Hs) as Hsz. specialize (Hone (section_kind s)). pose proof (pl_stored _ _ _ _ _ Hpl) as Hn.
  pose proof (pl_len _ _ _ _ _ Hpl) as HlC.
  destruct (section_kind s) eqn:Hk; try specialize (Hone ltac:(done)).
  - assert (Hss : stored_size s = s_size s) by (unfold stored_size; by rewrite Hk).
    destruct (place_copied l s noffH n h C) as (h' & Hrun & Hu & Hnext); rewrite ?Hk; try done; [lia|].
    rewrite (xbind_ok _ _ _ _ _ Hrun), (xbind_ok _ _ _ _ _ (xint_ok (n + s_size s) h' ltac:(unfold is_i32; lia))).
    eexists _, _, h', _. split; [reflexivity|]. split; [done|]. destruct Hpl. apply Hnext; cbn [noffMagic code initData uninitData set_code]; try done.
    + apply set_i32; try done. unfold is_i32. lia.
    + rewrite <- Hk. apply copied_segment; rewrite ?Hk; try done; lia.
    + apply segment_of_skip; [right; congruence|]. by apply segment_of_app.
    + apply uninit_of_skip; [right; congruence|done].
  - assert (Hss : stored_size s = s_size s) by (unfold stored_size; by rewrite Hk).
    pose proof (pl_data _ _ _ _ _ Hpl) as Hd. unfold segment_of in Hd. rewrite <- Hk in Hone, Hd.
    destruct (of_kind_new l s Hne Hone) as [Hnil _]. rewrite Hnil in Hd. rewrite Hd. cbn [Z.eqb negb].
    destruct (place_copied l s noffH n h C) as (h' & Hrun & Hu & Hnext); try done; [congruence|lia|].
    rewrite (xbind_ok _ _ _ _ _ Hrun), (xbind_ok _ _ _ _ _ (xint_ok (n + s_size s) h' ltac:(unfold is_i32; lia))).
    eexists _, _, h', _. split; [reflexivity|]. split; [done|]. destruct Hpl. apply Hnext; cbn [noffMagic code initData uninitData set_initData]; try done.
    + apply set_i32; try done. unfold is_i32. lia.
    + apply segment_of_skip; [right; congruence|]. by apply segment_of_app.
    + rewrite <- Hk. apply copied_segment; try done; [congruence|lia].
    + apply uninit_of_skip; [right; congruence|done].
  - destruct (place_bss l s noffH n h C Hpl Hs Hl Hbss Hne Hk) as (noffH' & Hrun & Hpl').
    unfold place_section in Hrun. rewrite (proj2 (Z.eqb_neq _ _) Hne), Hk in Hrun. by exists noffH', n, h, C.
  - by destruct (so_kind _ Hs Hne).
Qed.

Lemma place_sections_ok rest l noffH n h C :
  placed l noffH n h C -> Forall section_ok (l ++ rest) ->
  (forall k, k <> Bss -> (length (of_kind k (l ++ rest)) <= 1)%nat) -> bss_ok (of_kind Bss (l ++ rest)) ->
  40 + stored (l ++ rest) < 2 ^ 31 -> 40 + stored (l ++ rest) <= room ->
  exists noffH' n' h' C', place_sections room rest noffH n h = Done noffH' h' /\ unlinked h' = unlinked h /\ placed (l ++ rest) noffH' n' h' C'.
Proof.
  revert l noffH n h C. induction rest as [|s rest IH]; intros l noffH n h C Hpl Hok Hone Hbss Hmax Hroom.
  { exists noffH, n, h, C. rewrite app_nil_r. done. }
  replace (l ++ s :: rest) with ((l ++ [s]) ++ rest) in * by (by rewrite <- app_assoc).
  pose proof Hok as Hok'. rewrite !Forall_app in Hok'. destruct Hok' as [[Hl Hs] Hrest]. rewrite Forall_singleton in Hs.
  pose proof (stored_nonneg l Hl). pose proof (stored_nonneg rest Hrest). pose proof (stored_app (l ++ [s]) rest).
  destruct (place_section_ok l s noffH n h C) as (noffH1 & n1 & h1 & C1 & Hrun & Hu & Hpl1); try done; try lia.
  { intros k Hk. specialize (Hone k Hk). unfold of_kind in *. rewrite (filter_app _ (l ++ [s]) rest), length_app in Hone. lia. }
  { unfold of_kind in *. rewrite (filter_app _ (l ++ [s]) rest) in Hbss. by eapply bss_ok_app. }
  destruct (IH (l ++ [s]) noffH1 n1 h1 C1) as (noffH' & n' & h' & C' & Hrun' & Hu' & Hpl'); try done.
  exists noffH', n', h', C'. cbn [place_sections]. rewrite (xbind_ok _ _ _ _ _ Hrun). split; [done|]. split; [congruence|done].
Qed.

(** ** The headers *)

Lemma take_drop_take {A} (l : list A) o k n : (o + k <= n)%nat -> take k (drop o (take n l)) = take k (drop o l).
Proof. intros H. rewrite !take_drop_commute, take_take. do 2 f_equal. lia. Qed.
Lemma swap_int_id x : is_i32 x -> swap_int x = x.
Proof. intros H. unfold swap_int, WordToHost. rewrite i32_u32. by apply i32_id. Qed.
Lemma scnhdr_to_host_id bs : scnhdr_to_host (scnhdr_of_bytes bs) = scnhdr_of_bytes bs.
Proof. unfold scnhdr_to_host, scnhdr_of_bytes. cbn. rewrite !swap_int_id by apply i32_range. done. Qed.
Lemma scnhdrs_to_host_id n bs : scnhdr_to_host <$> scnhdrs_of_bytes n bs = scnhdrs_of_bytes n bs.
Proof. revert bs. induction n as [|n IH]; intros bs; [done|]. cbn [scnhdrs_of_bytes fmap list_fmap]. by rewrite scnhdr_to_host_id, IH. Qed.
Lemma scnhdrs_prefix n bs : scnhdrs_of_bytes n (take (40 * n) bs) = scnhdrs_of_bytes n bs.
Proof.
  revert bs. induction n as [|n IH]; intros bs; [done|]. cbn [scnhdrs_of_bytes]. f_equal.
  - rewrite take_take. do 2 f_equal. lia.
  - replace (40 * S n)%nat with (40 + 40 * n)%nat by lia. rewrite <- take_drop_commute. apply IH.
Qed.

Lemma noff_bytes_length h : length (noff_bytes h) = 40%nat.
Proof. reflexivity. Qed.

Lemma int_roundtrip x : is_i32 x -> i32 (le_val (le_bytes 4 x)) = x.
Proof.
  intros H. rewrite le_val_bytes. change (256 ^ Z.of_nat 4) with (2 ^ 32). fold (u32 x). rewrite i32_u32. by apply i32_id.
Qed.

(** What [Write] puts out, [AddrSpace] reads. *)
Lemma noff_roundtrip h : noff_i32 h -> noff_of_bytes (noff_bytes h) = h.
Proof.
  assert (Hi : forall l i x, (l : list Z) !! i = Some x -> is_i32 x -> int_at (l ≫= le_bytes 4) i = x).
  { intros l. induction l as [|y l IH]; intros [|i] x Hl Hx; try done.
    - injection Hl as ->. unfold int_at. cbn [mbind list_bind]. rewrite Nat.mul_0_r, drop_0, take_app_length' by (by rewrite length_le_bytes).
      by apply int_roundtrip.
    - rewrite <- (IH i x Hl Hx). unfold int_at. cbn [mbind list_bind]. do 3 f_equal.
      replace (4 * S i)%nat with (length (le_bytes 4 y) + 4 * i)%nat by (rewrite length_le_bytes; lia). rewrite drop_app_add. done. }
  intros (H0 & (H1 & H2 & H3) & (H4 & H5 & H6) & (H7 & H8 & H9)). unfold noff_of_bytes, noff_bytes.
  destruct h as [m [a b c] [d e f] [g i j]]. cbn [noffMagic code initData uninitData virtualAddr inFileAddr size] in *.
  f_equal; [|f_equal..]; by apply Hi.
Qed.

(** ** The whole run *)

Lemma Read_ok h n : 0 <= n -> posIn h + n <= Z.of_nat (length (fdIn h)) -> 0 <= posIn h ->
  Read n h = Done (take (Z.to_nat n) (drop (Z.to_nat (posIn h)) (fdIn h)))
    (MkHost (fdIn h) (posIn h + n) (fdOut h) (posOut h) (unlinked h)).
Proof.
  intros H0 Hn Hp. unfold Read. erewrite xbind_ok by (unfold read; rewrite (proj2 (Z.ltb_ge _ _)) by lia; reflexivity).
  rewrite length_take, length_drop. replace (Z.of_nat _) with n by lia. by rewrite Z.eqb_refl.
Qed.

(** Writing the header leaves the segments as they are. *)
Lemma segment_of_header C hd l k g : length hd = 40%nat -> (40 <= length C)%nat ->
  segment_of C l k g -> segment_of (hd ++ drop 40 C) l k g.
Proof.
  intros Hh HC. unfold segment_of, segment_bytes. destruct (of_kind k l) as [|s [|]]; try done. intros (H1 & H2 & H3 & H4 & H5).
  split_and!; try done; [rewrite length_app, length_drop; lia|]. rewrite <- H5. f_equal.
  rewrite drop_app_ge by lia. rewrite drop_drop. f_equal. lia.
Qed.

(** The NOFF file [out] holds the program of the COFF file. *)
Record noff_for (secs : list scnhdr) (out : list Z) (h : NoffHeader) : Prop := {
  nf_len : Z.of_nat (length out) = 40 + stored secs;
  nf_header : noff_of_bytes (take 40 out) = h;
  nf_magic : noffMagic h = NOFFMAGIC;
  nf_code : segment_of out secs Text (code h);
  nf_data : segment_of out secs Data (initData h);
  nf_bss : uninit_of secs (uninitData h);
  nf_bytes : Forall is_byte B -> Forall is_byte out
}.

(** The headers are read. *)
Lemma convert_headers secs junk : coff_ok secs ->
  convert room junk (MkHost B 0 (Some []) 0 false) =
  (noffH ← place_sections room secs (init_noff junk) 40; _ ← lseek_out 0; Write room (noff_bytes noffH))
    (MkHost B (76 + Z.of_nat (length secs) * 40) (Some []) 40 false).
Proof.
  intros [Hlen Hmagic Homagic Hnum Hsecs _ _ _ _].
  unfold convert. rewrite (xbind_ok _ _ _ _ _ (Read_ok (MkHost B 0 (Some []) 0 false) 20 ltac:(lia) ltac:(cbn [fdIn posIn]; lia) ltac:(done))).
  cbn [fdIn posIn fdOut posOut unlinked Z.add Z.to_nat]. rewrite drop_0. change (Pos.to_nat 20) with 20%nat.
  unfold filehdr_of_bytes. cbn [f_magic f_nscns]. unfold ShortToHost, ushort_at. rewrite !take_drop_take by lia.
  fold (ushort_at B 0). fold (ushort_at B 2). rewrite Hmagic, Hnum. change (MIPSELMAGIC =? MIPSELMAGIC) with true. cbn [negb].
  rewrite (xbind_ok _ _ _ _ _ (Read_ok (MkHost B 20 (Some []) 0 false) 56 ltac:(lia) ltac:(cbn [fdIn posIn]; lia) ltac:(done))).
  cbn [fdIn posIn fdOut posOut unlinked]. change (Z.to_nat 56) with 56%nat. change (Z.to_nat 20) with 20%nat.
  unfold aouthdr_of_bytes. cbn [magic]. unfold short_at, ushort_at at 1. rewrite take_drop_take, drop_drop by lia.
  fold (ushort_at B (20 + 0)). fold (short_at B (20 + 0)). change (20 + 0)%nat with 20%nat. rewrite Homagic.
  change (OMAGIC =? OMAGIC) with true. cbn [negb].
  rewrite (xbind_ok _ _ _ _ _ (Read_ok (MkHost B (20 + 56) (Some []) 0 false) (Z.of_nat (length secs) * 40) ltac:(lia) ltac:(cbn [fdIn posIn]; lia) ltac:(done))).
  cbn [fdIn posIn fdOut posOut unlinked]. rewrite Nat2Z.id. replace (Z.to_nat (Z.of_nat (length secs) * 40)) with (40 * length secs)%nat by lia.
  change (Z.to_nat (20 + 56)) with 76%nat. rewrite scnhdrs_prefix, scnhdrs_to_host_id, <- Hsecs.
  erewrite xbind_ok by reflexivity. reflexivity.
Qed.

(** The header is written over the first 40 bytes. *)
Lemma write_header noffH h out C : fdOut h = Some out -> pad 40 out = C -> 40 <= room ->
  exists h', (_ ← lseek_out 0; Write room (noff_bytes noffH)) h = Done tt h' /\
    fdOut h' = Some (noff_bytes noffH ++ drop 40 C) /\ unlinked h' = unlinked h.
Proof.
  intros Hout HC Hroom. erewrite xbind_ok by reflexivity. cbn [Z.ltb Z.compare].
  unfold Write. erewrite xbind_ok by (unfold write; cbn [fdOut posOut]; rewrite Hout; reflexivity).
  cbn [fdIn posIn fdOut posOut unlinked]. change (Z.to_nat 0) with 0%nat. rewrite take_ge by (rewrite noff_bytes_length; lia).
  rewrite Z.eqb_refl. eexists. split; [reflexivity|]. split; [|done]. cbn [fdOut]. f_equal. unfold ins.
  rewrite take_0, pad_id by lia. cbn [app]. f_equal. rewrite noff_bytes_length, <- HC. unfold pad, Nat.add.
  destruct (decide (length out < 40)%nat).
  - rewrite (drop_ge out) by lia. rewrite drop_ge; [done|]. rewrite length_app, length_replicate. lia.
  - replace (40 - length out)%nat with 0%nat by lia. by rewrite app_nil_r.
Qed.

Lemma convert_ok secs junk :
  coff_ok secs -> noff_i32 junk -> 40 + stored secs <= room ->
  exists h' out noffH, convert room junk (MkHost B 0 (Some []) 0 false) = Done tt h' /\
    fdOut h' = Some out /\ unlinked h' = false /\ noff_for secs out noffH.
Proof.
  intros Hok Hjunk Hroom. rewrite (convert_headers secs junk Hok). destruct Hok as [_ _ _ _ _ Hgood Hone Hbss Hsize].
  pose proof (stored_nonneg secs Hgood) as H0. set (h := MkHost _ _ _ _ _).
  destruct (place_sections_ok secs [] (init_noff junk) 40 h (replicate 40 0)) as (noffH & n' & h1 & C & Hrun & Hu & Hpl); try done.
  { destruct Hjunk as (_ & (? & ? & ?) & (? & ? & ?) & (? & ? & ?)).
    split; try done; [by exists []|intros _; by apply Forall_replicate]. }
  cbn [app] in Hpl. destruct Hpl as [Hin (out & Hout & HC) Hpos Hst HlC Hbytes Hi Hm Hc Hd Hb].
  rewrite (xbind_ok _ _ _ _ _ Hrun). destruct (write_header noffH h1 out C) as (h' & Hw & Hout' & Hu'); try done; [lia|].
  exists h', (noff_bytes noffH ++ drop 40 C), noffH. split; [done|]. split; [done|]. split; [by rewrite Hu', Hu|].
  pose proof (noff_bytes_length noffH) as Hhl. split; try done; try (apply segment_of_header; [done|lia|done]).
  - rewrite length_app, length_drop, Hhl. lia.
  - rewrite take_app_length' by done. by apply noff_roundtrip.
  - intros HB. apply Forall_app. split; [|by apply Forall_drop, Hbytes]. unfold noff_bytes. apply Forall_bind.
    apply Forall_forall. intros x _. apply le_bytes_byte.
Qed.
End Convert.

(** ** The converted program *)

Section Program.
Context (B : list Z) (secs : list scnhdr).

Definition kind_size (k : kind) : Z := total_size (of_kind k secs).

(** The program is linked into a space of [np] pages that holds its sections and the
    stack. *)
Record linked_ok (np : Z) : Prop := {
  lk_pages : np = divRoundUp (kind_size Text + kind_size Data + kind_size Bss + UserStackSize) PageSize;
  lk_fits : kind_size Text + kind_size Data + kind_size Bss + UserStackSize < 2 ^ 31;
  lk_addr : Forall (fun s => 0 <= s_paddr s /\ s_paddr s + s_size s <= np * PageSize) (of_kind Text secs ++ of_kind Data secs)
}.

Lemma segment_of_size C k g : segment_of B C secs k g -> size g = kind_size k.
Proof. unfold segment_of, kind_size. destruct (of_kind k secs) as [|s [|]]; try done. intros (_ & -> & _). cbn. lia. Qed.
Lemma uninit_of_size g : uninit_of secs g -> size g = kind_size Bss.
Proof. by intros [H _]. Qed.
Lemma kind_size_nonneg k : Forall (section_ok B) secs -> 0 <= kind_size k.
Proof.
  intros H. unfold kind_size, total_size. assert (Hf : Forall (section_ok B) (of_kind k secs)).
  { apply Forall_forall. intros s [_ Hs]%list_elem_of_filter. rewrite Forall_forall in H. by apply H. }
  induction Hf as [|s l Hs Hl IH]; [done|]. cbn [foldr]. pose proof (so_size _ _ Hs). lia.
Qed.

Lemma segment_of_ok C k g np : segment_of B C secs k g -> 0 <= size g ->
  Forall (fun s => 0 <= s_paddr s /\ s_paddr s + s_size s <= np * PageSize) (of_kind k secs) ->
  segment_ok C (np * PageSize) g.
Proof.
  unfold segment_of, segment_ok. destruct (of_kind k secs) as [|s [|]]; try done; [intros; lia|].
  intros (Ha & Hs & H40 & Hend & _) H0 Hf. apply Forall_singleton in Hf as [? ?]. lia.
Qed.

Lemma noff_executable out h np :
  Forall (section_ok B) secs -> noff_for B secs out h -> linked_ok np -> executable_ok out h np.
Proof.
  intros Hok [Hlen Hh Hm Hc Hd Hb _] [Hnp Hfit Haddr]. apply Forall_app in Haddr as [Ht Hdt].
  pose proof (stored_nonneg B secs Hok). pose proof (kind_size_nonneg Text Hok). pose proof (kind_size_nonneg Data Hok).
  pose proof (kind_size_nonneg Bss Hok). pose proof (segment_of_size _ _ _ Hc) as Ec. pose proof (segment_of_size _ _ _ Hd) as Ed.
  pose proof (uninit_of_size _ Hb) as Eb. split; rewrite ?Ec, ?Ed, ?Eb; try done.
  - split; [lia|done].
  - apply (segment_of_ok out Text); try done. lia.
  - apply (segment_of_ok out Data); try done. lia.
Qed.

(** The segment holds the bytes of the section. *)
Lemma segment_of_lookup C k g s i : segment_of B C secs k g -> s ∈ of_kind k secs -> 0 <= i < s_size s -> 0 <= s_scnptr s ->
  virtualAddr g = s_paddr s /\ size g = s_size s /\ C !! Z.to_nat (inFileAddr g + i) = B !! Z.to_nat (s_scnptr s + i).
Proof.
  unfold segment_of. destruct (of_kind k secs) as [|s' [|]]; try done; [by intros _ ?%elem_of_nil|].
  intros (Ha & Hs & H40 & Hend & Hb) ->%list_elem_of_singleton Hi Hp. split; [done|]. split; [done|].
  unfold segment_bytes, section_bytes in Hb. rewrite Hs in Hb.
  assert (Hl : forall (l : list Z) a, 0 <= a -> l !! Z.to_nat (a + i) = take (Z.to_nat (s_size s')) (drop (Z.to_nat a) l) !! Z.to_nat i).
  { intros l a H. rewrite lookup_take_lt, lookup_drop by lia. f_equal. lia. }
  rewrite !Hl, Hb by lia. done.
Qed.

(** The address of byte [i] of the section [s] is in no section of initialised data. *)
Definition not_data (a : Z) : Prop := Forall (fun s => ~ s_paddr s <= a < s_paddr s + s_size s) (of_kind Data secs).

Lemma program_byte_data out h s i :
  noff_for B secs out h -> s ∈ of_kind Data secs -> 0 <= i < s_size s -> 0 <= s_scnptr s ->
  program_byte out h (s_paddr s + i) = B !! Z.to_nat (s_scnptr s + i).
Proof.
  intros Hn Hs Hi Hp. destruct (segment_of_lookup _ _ _ s i (nf_data _ _ _ _ Hn) Hs Hi Hp) as (Ha & Hz & Hl).
  unfold program_byte. rewrite decide_True by (unfold in_segment; lia). rewrite <- Hl. f_equal. lia.
Qed.
Lemma program_byte_text out h s i :
  noff_for B secs out h -> s ∈ of_kind Text secs -> 0 <= i < s_size s -> 0 <= s_scnptr s -> not_data (s_paddr s + i) ->
  program_byte out h (s_paddr s + i) = B !! Z.to_nat (s_scnptr s + i).
Proof.
  intros Hn Hs Hi Hp Hnd. destruct (segment_of_lookup _ _ _ s i (nf_code _ _ _ _ Hn) Hs Hi Hp) as (Ha & Hz & Hl).
  unfold program_byte. rewrite decide_False.
  - rewrite decide_True by (unfold in_segment; lia). rewrite <- Hl. f_equal. lia.
  - intros Hin. unfold in_segment in Hin. pose proof (nf_data _ _ _ _ Hn) as Hd. unfold segment_of in Hd. unfold not_data in Hnd.
    destruct (of_kind Data secs) as [|s' [|]]; [lia| |done]. rewrite Forall_singleton in Hnd. destruct Hd as (E1 & E2 & _).
    apply Hnd. lia.
Qed.

Lemma section_in_file k s : Forall (section_ok B) secs -> s ∈ of_kind k secs -> k <> Bss ->
  0 <= s_scnptr s /\ s_scnptr s + s_size s <= Z.of_nat (length B).
Proof.
  intros Hok ((Hne & Hk) & Hs)%list_elem_of_filter Hb. rewrite Forall_forall in Hok. apply (so_file _ _ (Hok s Hs) Hne). congruence.
Qed.
End Program.

(** ** Properties *)

(** C20. [coff2noff] on an object file with at most one section of code and one of
    initialised data, and any of uninitialised data that it does not refuse, that has room
    for its output: it ends with status 0 and leaves a NOFF file whose header gives, for
    code and initialised data, the address and the size of the section (0 when there is
    none), and whose segments hold exactly the bytes of these sections; the file has no
    other bytes.  Its segment of uninitialised data begins at the first such section and
    has the size of all of them together: that is the section's own extent when there is
    one, and covers none behind it when there are several, since only sections that are
    not contiguous are accepted ([coff2noff.c] meant to accept the contiguous ones). *)
Theorem coff2noff_correct (B : list Z) (room argc : Z) (secs : list scnhdr) (junk : NoffHeader) :
  coff_ok B secs -> 2 <= argc -> noff_i32 junk -> 40 + stored secs <= room ->
  exists h out noffH, main room argc (Some B) true junk = Done tt h /\ fdOut h = Some out /\ unlinked h = false /\
    Z.of_nat (length out) = 40 + stored secs /\ noff_of_bytes (take 40 out) = noffH /\ noffMagic noffH = NOFFMAGIC /\
    segment_of B out secs Text (code noffH) /\ segment_of B out secs Data (initData noffH) /\ uninit_of secs (uninitData noffH).
Proof.
  intros Hok Hargc Hjunk Hroom. destruct (convert_ok B room secs junk Hok Hjunk Hroom) as (h & out & noffH & Hrun & Hout & Hu & [? ? ? ? ? ? _]).
  exists h, out, noffH. unfold main. rewrite (proj2 (Z.ltb_ge _ _)) by lia. by split_and!.
Qed.

(** C3. From the compiler to memory: an object file with at most one section of code and
    one of initialised data, converted by [coff2noff], brought to the file system by
    [Copy] (the NOFF file not of exactly [NumDirect] sectors) and started by
    [StartProcess].  Each step succeeds; when the program starts, the byte of its memory
    at every address of a section of initialised data, and of a section of code where no
    data was linked over it, is the byte the object file holds there (nothing is said of
    uninitialised data); the program counter is 0 and the stack pointer 16 bytes below the
    end of the space, all of whose pages the thread has; the other threads' memory and the
    other files are unchanged. *)
Theorem compiled_program_loads {D : Type} `{!SectorDisk D} `{!SectorDiskLaws D}
    (B : list Z) (room np : Z) (secs : list scnhdr) (junk : NoffHeader) (E : nat -> Env) (env : Env)
    (fs : FileSystem) (d : D) (v : Vm) table fm ms ds ps ext (n : Z) (s : string) (hjunk : list Z) (fresh_byte : nat -> Z) pt :
  coff_ok B secs -> Forall is_byte B -> linked_ok secs np -> noff_i32 junk -> 40 + stored secs <= room ->
  (forall i, env_ok (E i)) -> (forall i, mem (E i) = mem env) -> env_ok env ->
  fs_inv (mem env) fs d table fm ms ds ps ext -> mem env n = Some s -> is_u32 n -> dir_map (mem env) table !! s = None ->
  (exists e, e ∈ table /\ in_use e = false) ->
  (let ns := divRoundUp (40 + stored secs) SectorSize in
   ns <> NumDirect /\ 1 + ns + extra_hdrs ns <= Z.of_nat (length (clear_bits fm))) -> can_start v ->
  exists h out d' d'' v', main room 3 (Some B) true junk = Done tt h /\ fdOut h = Some out /\
    Copy E fs (Some out) n d = Ok (Copied, d') /\
    StartProcess env fs hjunk fresh_byte pt n (d', v) = Ok (true, (d'', v')) /\ vm_ok v' /\
    registers (vm_machine v') = start_registers np /\
    (forall s i, s ∈ of_kind Data secs -> 0 <= i < s_size s ->
       vbyte v' (vm_tid v) (s_paddr s + i) = B !! Z.to_nat (s_scnptr s + i)) /\
    (forall s i, s ∈ of_kind Text secs -> 0 <= i < s_size s -> not_data secs (s_paddr s + i) ->
       vbyte v' (vm_tid v) (s_paddr s + i) = B !! Z.to_nat (s_scnptr s + i)) /\
    (forall vpn, 0 <= vpn < np -> has_page v' (vm_tid v) vpn) /\
    (forall t a, t <> vm_tid v -> vbyte v' t a = vbyte v t a) /\
    exists ext', forall s' y, dir_map (mem env) table !! s' = Some y ->
      contents_at (contents d'') ext' y = contents_at (contents d) ext y.
Proof.
  intros Hok HB Hlk Hjunk Hroom HE Hm Henv Hinv Hn H32 Hnone Hfree [Hns Hspace] Hcan.
  destruct (convert_ok B room secs junk Hok Hjunk Hroom) as (h & out & noffH & Hrun & Hout & _ & Hnf).
  pose proof (nf_len _ _ _ _ Hnf) as Hlen. pose proof (co_size _ _ Hok) as Hsize.
  destruct (copy_ok (mem env) fs ms ds ps E d table fm ext n s out) as (d' & table' & fm' & ext' & x & Hc & Hinv' & Hmap & HC & Hkeep & _);
    rewrite ?Hlen; try done. { by apply (nf_bytes _ _ _ _ Hnf). }
  assert (Hx : dir_map (mem env) table' !! s = Some x) by (by rewrite Hmap, lookup_insert_eq).
  pose proof (noff_executable B secs out noffH np (co_good _ _ Hok) Hnf Hlk) as Hexe.
  destruct (start_process_ok env fs d' v table' fm' ms ds ps ext' n s x noffH np hjunk fresh_byte pt) as
    (d'' & v' & Hstart & Hsame & Hvm & _ & Hregs & Hbyte & Hpages & Hothers); try done; [by rewrite HC|]. rewrite HC in Hbyte.
  assert (Hsec : forall k s' i, k <> Bss -> s' ∈ of_kind k secs -> s' ∈ of_kind Text secs ++ of_kind Data secs -> 0 <= i < s_size s' ->
    program_byte out noffH (s_paddr s' + i) = B !! Z.to_nat (s_scnptr s' + i) ->
    vbyte v' (vm_tid v) (s_paddr s' + i) = B !! Z.to_nat (s_scnptr s' + i)).
  { intros k s' i Hk Hs' Hin Hi Hpb. destruct (section_in_file B secs k s' (co_good _ _ Hok) Hs' Hk).
    pose proof (lk_addr _ _ Hlk) as Ha. rewrite Forall_forall in Ha. destruct (Ha s' Hin) as [Ha0 _]. rewrite <- Hpb. apply Hbyte; [lia|].
    rewrite Hpb. apply lookup_lt_is_Some_2. lia. }
  exists h, out, d', d'', v'. split_and!; try done; [| |exists ext'; by rewrite Hsame].
  - intros s' i Hs' Hi. apply (Hsec Data); try done; [set_solver|]. apply (program_byte_data B secs); try done.
    by apply (section_in_file B secs Data s'); [apply Hok|..].
  - intros s' i Hs' Hi Hnd. apply (Hsec Text); try done; [set_solver|]. apply (program_byte_text B secs); try done.
    by apply (section_in_file B secs Text s'); [apply Hok|..].
Qed.

(** ** Failures *)

(** A part of the program that, started with its output in place, leaves it so, or
    exits with the output unlinked; it opens no output. *)
Definition tidy {A} (p : X A) : Prop := forall h, unlinked h = false ->
  match p h with Done _ h' => unlinked h' = false /\ (fdOut h = None -> fdOut h' = None) | Exit1 _ h' => unlinked h' = true | Undef => True end.

Lemma tidy_bind {A A'} (p : X A) (f : A -> X A') : tidy p -> (forall a, tidy (f a)) -> tidy (p ≫= f).
Proof.
  intros Hp Hf h Hh. specialize (Hp h Hh). unfold mbind, X_bind. destruct (p h) as [a h'|m h'|]; [|done|done].
  destruct Hp as [Hu Hn]. specialize (Hf a h' Hu). destruct (f a h'); naive_solver.
Qed.
Lemma tidy_ret {A} (a : A) : tidy (mret a).
Proof. by intros h Hh. Qed.
Lemma tidy_quit {A} m : tidy (unlink_quit (A := A) m).
Proof. by intros h Hh. Qed.
Lemma tidy_int z : tidy (xint z).
Proof. intros h Hh. unfold xint. by destruct (int z). Qed.
Lemma tidy_seek pos : tidy (lseek_in pos) /\ tidy (lseek_out pos).
Proof. split; intros h Hh; unfold lseek_in, lseek_out; by destruct (pos <? 0). Qed.
Lemma tidy_Read n : tidy (Read n).
Proof.
  apply tidy_bind; [|intros bs; destruct (_ =? _); [apply tidy_ret|apply tidy_quit]].
  intros h Hh. unfold read. by destruct (n <? 0).
Qed.
Lemma tidy_Write room buf : tidy (Write room buf).
Proof.
  apply tidy_bind; [|intros n; destruct (_ =? _); [apply tidy_ret|apply tidy_quit]].
  intros h Hh. unfold write. by destruct (fdOut h) eqn:Ho.
Qed.
Create HintDb tidy.
#[local] Hint Resolve tidy_bind tidy_ret tidy_quit tidy_int tidy_Read tidy_Write : tidy.
#[local] Hint Extern 1 (tidy (lseek_in _)) => apply tidy_seek : tidy.
#[local] Hint Extern 1 (tidy (lseek_out _)) => apply tidy_seek : tidy.

Lemma tidy_copy room s : tidy (copy_section room s).
Proof. unfold copy_section. auto with tidy. Qed.
#[local] Hint Resolve tidy_copy : tidy.

Lemma tidy_place room secs noffH n : tidy (place_sections room secs noffH n).
Proof.
  revert noffH n. induction secs as [|s secs IH]; intros noffH n; cbn [place_sections]; [auto with tidy|].
  apply tidy_bind; [|by intros [? ?]]. unfold place_section. repeat case_match; auto with tidy.
  apply tidy_bind; [auto with tidy|]. intros z. case_match; auto with tidy.
Qed.
#[local] Hint Resolve tidy_place : tidy.

Lemma tidy_convert room junk : tidy (convert room junk).
Proof.
  unfold convert. apply tidy_bind; [auto with tidy|]. intros bs. case_match; [auto with tidy|].
  apply tidy_bind; [auto with tidy|]. intros bs'. case_match; auto 7 with tidy.
Qed.

(** A part of the program that cannot end without an output. *)
Definition needs_output {A} (p : X A) : Prop := forall h, unlinked h = false -> fdOut h = None ->
  match p h with Done _ _ => False | _ => True end.
Lemma needs_bind {A A'} (p : X A) (f : A -> X A') : tidy p -> (forall a, needs_output (f a)) -> needs_output (p ≫= f).
Proof.
  intros Hp Hf h Hh Ho. specialize (Hp h Hh). unfold mbind, X_bind. destruct (p h) as [a h'|m h'|]; [|done|done].
  destruct Hp as [Hu Hn]. exact (Hf a h' Hu (Hn Ho)).
Qed.
Lemma needs_quit {A} m : needs_output (unlink_quit (A := A) m).
Proof. by intros h. Qed.
Lemma needs_write room buf : needs_output (Write room buf).
Proof.
  intros h Hh Ho. unfold Write. erewrite xbind_ok by (unfold write; rewrite Ho; reflexivity).
  rewrite (proj2 (Z.eqb_neq _ _)) by lia. done.
Qed.
#[local] Hint Resolve needs_bind needs_quit needs_write : tidy.

Lemma needs_convert room junk : needs_output (convert room junk).
Proof.
  unfold convert. apply needs_bind; [auto with tidy|]. intros bs. case_match; [auto with tidy|].
  apply needs_bind; [auto with tidy|]. intros bs'. case_match; auto 7 with tidy.
Qed.

(** [coff2noff] never leaves a partial file behind: whatever the files and the room
    on the host, a run that is left with a message has either not opened its output yet
    or unlinked it; a run that ends with status 0 has its output in place. *)
Lemma coff2noff_never_partial (room argc : Z) (input : option (list Z)) (output : bool) (junk : NoffHeader) :
  match main room argc input output junk with
  | Done _ h => unlinked h = false /\ output = true
  | Exit1 m h => m = Usage \/ m = NoSuchFile \/ unlinked h = true
  | Undef => True
  end.
Proof.
  unfold main. destruct (argc <? 2); [by left|]. destruct input as [bs|]; [|by right; left].
  set (h := MkHost bs 0 _ 0 false). pose proof (tidy_convert room junk h eq_refl) as Ht. pose proof (needs_convert room junk h eq_refl) as Hn.
  destruct (convert room junk h) as [a h'|m h'|]; [|by right; right|done]. destruct Ht as [Hu _]. split; [done|].
  destruct output; [done|]. by destruct (Hn eq_refl).
Qed.

(** ** An object file *)

Definition demo_scnhdr (name : string) (paddr len scnptr : Z) : list Z :=
  pad 8 (literal name) ++ ([paddr; paddr; len; scnptr; 0; 0; 0; 0] ≫= le_bytes 4).
Definition demo_code : list Z := [1; 2; 3; 4; 5; 6; 7; 8].
Definition demo_data : list Z := [9; 10; 11; 12].
Definition demo_coff : list Z :=
  le_bytes 2 MIPSELMAGIC ++ le_bytes 2 4 ++ replicate 16 0 ++ le_bytes 2 OMAGIC ++ replicate 54 0 ++
  demo_scnhdr ".text" 0 8 236 ++ demo_scnhdr ".data" 8 4 244 ++ demo_scnhdr ".sbss" 12 4 0 ++ demo_scnhdr ".bss" 20 12 0 ++
  demo_code ++ demo_data.
Definition demo_sections : list scnhdr := scnhdrs_of_bytes 4 (drop 76 demo_coff).
Definition demo_junk : NoffHeader := MkNoff 5 (MkSeg 6 7 8) (MkSeg 9 10 11) (MkSeg 12 13 14).

Lemma demo_coff_ok : coff_ok demo_coff demo_sections.
Proof.
  assert (Hl : Z.of_nat (length demo_coff) = 248) by (vm_compute; reflexivity).
  assert (Hk : forall k, k <> Bss -> (length (of_kind k demo_sections) <= 1)%nat) by (intros [] ?; try done; vm_compute; repeat constructor).
  split; try (vm_compute; reflexivity); try exact Hk.
  - assert (length demo_sections = 4%nat) as -> by (vm_compute; reflexivity). lia.
  - unfold demo_sections. vm_compute scnhdrs_of_bytes.
    repeat (apply Forall_cons; split; [split; rewrite ?Hl; cbn [s_size s_paddr s_scnptr]; unfold is_i32; (lia || (intros _; vm_compute; discriminate))|]).
    constructor.
  - vm_compute. split_and!; discriminate || reflexivity || exact I.
Qed.
Lemma demo_linked : linked_ok demo_sections 9.
Proof.
  split; try (vm_compute; reflexivity).
  assert (of_kind Text demo_sections ++ of_kind Data demo_sections = take 2 demo_sections) as -> by (vm_compute; reflexivity).
  unfold demo_sections. vm_compute scnhdrs_of_bytes. change (9 * PageSize) with 1152. repeat constructor; cbn; lia.
Qed.

Lemma coff2noff_correct_witness : exists h out, main 100000 3 (Some demo_coff) true demo_junk = Done tt h /\
  fdOut h = Some out /\ length out = 52%nat.
Proof.
  destruct (coff2noff_correct demo_coff 100000 3 demo_sections demo_junk demo_coff_ok) as (h & out & noffH & Hrun & Hout & _ & Hlen & _).
  - lia.
  - repeat split; vm_compute; discriminate || reflexivity.
  - vm_compute. discriminate.
  - exists h, out. split; [exact Hrun|]. split; [exact Hout|]. apply Nat2Z.inj. rewrite Hlen. vm_compute. reflexivity.
Defined.

Import PlainDisk.

Lemma compiled_program_loads_witness :
  exists fs d h out d' d'' v', new_file_system env0 true blank_disk = Ok (fs, d) /\
    main 100000 3 (Some demo_coff) true demo_junk = Done tt h /\ fdOut h = Some out /\
    Copy (fun _ => env0) fs (Some out) 1000 d = Ok (Copied, d') /\
    StartProcess env0 fs (replicate 40 0) (fun _ => 0) None 1000 (d', demo_vm) = Ok (true, (d'', v')) /\ vbyte v' 7 10 = Some 11.
Proof.
  destruct formatted as (fs & d & table & fm & ms & ds & ps & ext & Hrun & Hinv & Hnone & Hroom & Hfree & _).
  destruct (compiled_program_loads demo_coff 100000 9 demo_sections demo_junk (fun _ => env0) env0 fs d demo_vm table fm ms ds ps ext
    1000 "a"%string (replicate 40 0) (fun _ => 0) None demo_coff_ok) as (h & out & d' & d'' & v' & Hm & Hout & Hc & Hs & _ & _ & Hdata & _).
  - vm_compute. repeat (constructor; [split; [discriminate|reflexivity]|]). constructor.
  - exact demo_linked.
  - repeat split; vm_compute; discriminate || reflexivity.
  - vm_compute. discriminate.
  - intros i. exact env0_ok.
  - reflexivity.
  - exact env0_ok.
  - exact Hinv.
  - reflexivity.
  - unfold is_u32. lia.
  - exact Hnone.
  - exact Hroom.
  - rewrite Hfree. split; vm_compute; discriminate.
  - exact demo_can_start.
  - exists fs, d, h, out, d', d'', v'. split; [exact Hrun|]. split; [exact Hm|]. split; [exact Hout|]. split; [exact Hc|].
    split; [exact Hs|]. change (vm_tid demo_vm) with 7 in Hdata.
    set (s := scnhdr_of_bytes (demo_scnhdr ".data" 8 4 244)).
    assert (Hs1 : s ∈ of_kind Data demo_sections) by (apply list_elem_of_lookup; exists 0%nat; vm_compute; reflexivity).
    change 10 with (s_paddr s + 2). rewrite (Hdata s 2 Hs1) by (split; [discriminate|reflexivity]). vm_compute. reflexivity.
Defined.
