(* ===== verification/Coff2Flat.v ===== *)
(** * The other converter: [bin/coff2flat.c]

    [coff2flat] turns a COFF file into a flat file: an image of the program's memory.  The
    headers it includes are the host's; the layout is that of [bin/coff.h], and the files
    are those of [Coff2Noff].  What is shown is that the image is right when the sections
    follow each other from address 0 on, and that it is wrong when they do not: the code
    never moves in the output. *)

From S2P Require Import Prelude BitMap Sectors FileHdr OpenFile Directory FileSys FileIO.
From S2P Require Import Disk Kernel Machine Paging AddrSpace FsTest Coff2Noff.

Definition StackSize : Z := 1024.

(** [exit(1)] after the message; the output is left as it is. *)
Definition quit {A} (m : message) : X A := fun h => Exit1 m h.
Definition flat_Read (nBytes : Z) : X (list Z) :=
  bs ← read nBytes;
  if Z.of_nat (length bs) =? nBytes then mret bs else quit FileTooShort.
Definition flat_Write (room : Z) (buf : list Z) : X unit :=
  n ← write room buf;
  if n =? Z.of_nat (length buf) then mret tt else quit CannotWrite.

(** A section that is copied. *)
Definition copied (s : scnhdr) : bool := negb (streq (s_name s) (literal ".bss")) && negb (streq (s_name s) (literal ".sbss")).

(** The loop that copies the segments in, on [top]. *)
Fixpoint copy_segments (room : Z) (sections : list scnhdr) (top : Z) : X Z :=
  match sections with
  | [] => mret top
  | s :: sections =>
      e ← xint (s_paddr s + s_size s);
      let top := if e >? top then e else top in
      _ ← (if copied s then _ ← lseek_in (s_scnptr s); buffer ← flat_Read (s_size s); flat_Write room buffer else mret tt);
      copy_segments room sections top
  end.

(** [main] after the files are opened. *)
Definition flatten (room : Z) : X unit :=
  bs ← flat_Read 20;
  let fileh := filehdr_of_bytes bs in
  if negb (f_magic fileh =? MIPSELMAGIC) then quit NotMipsel
  else
    bs ← flat_Read 56;
    let systemh := aouthdr_of_bytes bs in
    if negb (magic systemh =? OMAGIC) then quit NotOmagic
    else
      bs ← flat_Read (f_nscns fileh * 40);
      let sections := scnhdrs_of_bytes (Z.to_nat (f_nscns fileh)) bs in
      top ← copy_segments room sections 0;
      p ← xint (top + StackSize);
      _ ← lseek_out (p - 4);
      flat_Write room (le_bytes 4 0).

(** [main]; as in [coff2noff], the output file is not checked. *)
Definition flat_main (room argc : Z) (input : option (list Z)) (output : bool) : outcome unit :=
  let none := MkHost [] 0 None 0 false in
  if argc <? 2 then Exit1 Usage none
  else
    match input with
    | None => Exit1 NoSuchFile none
    | Some bs => flatten room (MkHost bs 0 (if output then Some [] else None) 0 false)
    end.

(** ** The flat file *)

Section Flat.
Context (B : list Z) (room : Z).

(** A section that can be copied. *)
Record flat_ok (s : scnhdr) : Prop := {
  fo_range : 0 <= s_paddr s /\ 0 <= s_size s /\ s_paddr s + s_size s < 2 ^ 31;
  fo_file : copied s = true -> 0 <= s_scnptr s /\ s_scnptr s + s_size s <= Z.of_nat (length B)
}.
Definition flat_top (secs : list scnhdr) (top : Z) : Z := foldl (fun top s => Z.max top (s_paddr s + s_size s)) top secs.
Definition flat_bytes (secs : list scnhdr) : list Z := secs ≫= fun s => if copied s then section_bytes B s else [].

(** The object file has the sections [secs]. *)
Record flat_input (secs : list scnhdr) : Prop := {
  fi_len : (76 + 40 * length secs <= length B)%nat;
  fi_magic : ushort_at B 0 = MIPSELMAGIC;
  fi_omagic : short_at B 20 = OMAGIC;
  fi_number : ushort_at B 2 = Z.of_nat (length secs);
  fi_secs : secs = scnhdrs_of_bytes (length secs) (drop 76 B);
  fi_good : Forall flat_ok secs
}.

Lemma section_length s : flat_ok s -> copied s = true -> length (section_bytes B s) = Z.to_nat (s_size s).
Proof. intros [H1 H2] Hc. destruct (H2 Hc). unfold section_bytes. rewrite length_take, length_drop. lia. Qed.

Lemma flat_Read_ok h n : 0 <= n -> posIn h + n <= Z.of_nat (length (fdIn h)) -> 0 <= posIn h ->
  flat_Read n h = Done (take (Z.to_nat n) (drop (Z.to_nat (posIn h)) (fdIn h)))
    (MkHost (fdIn h) (posIn h + n) (fdOut h) (posOut h) (unlinked h)).
Proof.
  intros H0 Hn Hp. unfold flat_Read. erewrite xbind_ok by (unfold read; rewrite (proj2 (Z.ltb_ge _ _)) by lia; reflexivity).
  rewrite length_take, length_drop. replace (Z.of_nat _) with n by lia. by rewrite Z.eqb_refl.
Qed.
(** A write at or behind the end of the output. *)
Lemma flat_Write_ok h out buf : fdOut h = Some out -> Z.of_nat (length out) <= posOut h -> posOut h + Z.of_nat (length buf) <= room ->
  flat_Write room buf h = Done tt (MkHost (fdIn h) (posIn h) (Some (pad (Z.to_nat (posOut h)) out ++ buf))
    (posOut h + Z.of_nat (length buf)) (unlinked h)).
Proof.
  intros Hout Hpos Hroom. unfold flat_Write. erewrite xbind_ok by (unfold write; rewrite Hout; reflexivity).
  rewrite take_ge by lia. rewrite Z.eqb_refl. unfold mret, X_ret. do 2 f_equal. f_equal. unfold ins.
  pose proof (pad_length (Z.to_nat (posOut h)) out). rewrite take_ge, drop_ge, app_nil_r by lia. done.
Qed.

Lemma copy_segments_ok secs top h C : Forall flat_ok secs -> fdIn h = B -> fdOut h = Some C -> posOut h = Z.of_nat (length C) ->
  Z.of_nat (length C) + Z.of_nat (length (flat_bytes secs)) <= room ->
  exists h', copy_segments room secs top h = Done (flat_top secs top) h' /\ fdIn h' = B /\ fdOut h' = Some (C ++ flat_bytes secs) /\
    posOut h' = Z.of_nat (length (C ++ flat_bytes secs)) /\ unlinked h' = unlinked h.
Proof.
  intros Hs. revert top h C. induction Hs as [|s secs Hs _ IH]; intros top h C Hin Hout Hpos Hroom.
  { exists h. unfold flat_bytes. cbn [mbind list_bind]. rewrite app_nil_r. done. }
  pose proof Hs as [(Hp & Hz & Hmax) Hfile]. cbn [copy_segments]. rewrite (xbind_ok _ _ _ _ _ (xint_ok (s_paddr s + s_size s) h ltac:(unfold is_i32; lia))).
  replace (if s_paddr s + s_size s >? top then s_paddr s + s_size s else top) with (Z.max top (s_paddr s + s_size s))
    by (rewrite Z.gtb_ltb; destruct (Z.ltb_spec top (s_paddr s + s_size s)); lia).
  unfold flat_bytes in Hroom |- *. rewrite bind_cons in Hroom |- *. fold (flat_bytes secs) in Hroom |- *. rewrite length_app in Hroom.
  destruct (copied s) eqn:Hc.
  - destruct (Hfile eq_refl) as [H0 Hfit]. pose proof (section_length s Hs Hc) as Hl.
    assert (Hrun : (_ ← lseek_in (s_scnptr s); buffer ← flat_Read (s_size s); flat_Write room buffer) h =
      Done tt (MkHost B (s_scnptr s + s_size s) (Some (C ++ section_bytes B s)) (posOut h + s_size s) (unlinked h))).
    { erewrite xbind_ok by reflexivity. rewrite (proj2 (Z.ltb_ge _ _)) by lia.
      rewrite (xbind_ok _ _ _ _ _ (flat_Read_ok (MkHost (fdIn h) (s_scnptr s) (fdOut h) (posOut h) (unlinked h)) (s_size s) Hz ltac:(cbn [posIn fdIn]; rewrite Hin; lia) H0)). cbn [posIn fdIn fdOut posOut unlinked].
      rewrite Hin. fold (section_bytes B s). rewrite (flat_Write_ok _ C); cbn [posOut fdOut fdIn posIn unlinked]; [|done|lia|lia].
      rewrite pad_id by lia. do 2 f_equal. lia. }
    rewrite (xbind_ok _ _ _ _ _ Hrun).
    destruct (IH (Z.max top (s_paddr s + s_size s)) (MkHost B (s_scnptr s + s_size s) (Some (C ++ section_bytes B s)) (posOut h + s_size s) (unlinked h))
      (C ++ section_bytes B s)) as (h' & Hr & H1 & H2 & H3 & H4); cbn [fdIn fdOut posOut unlinked]; try done; [rewrite length_app; lia|rewrite length_app; lia|].
    exists h'. rewrite <- app_assoc in H2, H3. done.
  - erewrite xbind_ok by reflexivity. cbn [app]. apply IH; try done.
Qed.

Lemma flat_top_ge secs top : top <= flat_top secs top /\ Forall (fun s => s_paddr s + s_size s <= flat_top secs top) secs.
Proof.
  unfold flat_top. revert top. induction secs as [|s secs IH]; intros top; cbn [foldl]; [by split|]. destruct (IH (Z.max top (s_paddr s + s_size s))) as [H1 H2].
  split; [lia|]. constructor; [lia|done].
Qed.

(** The headers are read. *)
Lemma flatten_headers secs : flat_input secs ->
  flatten room (MkHost B 0 (Some []) 0 false) =
  (top ← copy_segments room secs 0; p ← xint (top + StackSize); _ ← lseek_out (p - 4); flat_Write room (le_bytes 4 0))
    (MkHost B (76 + Z.of_nat (length secs) * 40) (Some []) 0 false).
Proof.
  intros [Hlen Hmagic Homagic Hnum Hsecs _].
  unfold flatten. rewrite (xbind_ok _ _ _ _ _ (flat_Read_ok (MkHost B 0 (Some []) 0 false) 20 ltac:(lia) ltac:(cbn [fdIn posIn]; lia) ltac:(done))).
  cbn [fdIn posIn fdOut posOut unlinked Z.add Z.to_nat]. rewrite drop_0. change (Pos.to_nat 20) with 20%nat.
  unfold filehdr_of_bytes. cbn [f_magic f_nscns]. unfold ushort_at. rewrite !take_drop_take by lia.
  fold (ushort_at B 0). fold (ushort_at B 2). rewrite Hmagic, Hnum. change (MIPSELMAGIC =? MIPSELMAGIC) with true. cbn [negb].
  rewrite (xbind_ok _ _ _ _ _ (flat_Read_ok (MkHost B 20 (Some []) 0 false) 56 ltac:(lia) ltac:(cbn [fdIn posIn]; lia) ltac:(done))).
  cbn [fdIn posIn fdOut posOut unlinked]. change (Z.to_nat 56) with 56%nat. change (Z.to_nat 20) with 20%nat.
  unfold aouthdr_of_bytes. cbn [magic]. unfold short_at, ushort_at at 1. rewrite take_drop_take, drop_drop by lia.
  fold (ushort_at B (20 + 0)). fold (short_at B (20 + 0)). change (20 + 0)%nat with 20%nat. rewrite Homagic.
  change (OMAGIC =? OMAGIC) with true. cbn [negb].
  rewrite (xbind_ok _ _ _ _ _ (flat_Read_ok (MkHost B (20 + 56) (Some []) 0 false) (Z.of_nat (length secs) * 40) ltac:(lia) ltac:(cbn [fdIn posIn]; lia) ltac:(done))).
  cbn [fdIn posIn fdOut posOut unlinked]. rewrite Nat2Z.id. replace (Z.to_nat (Z.of_nat (length secs) * 40)) with (40 * length secs)%nat by lia.
  change (Z.to_nat (20 + 56)) with 76%nat. by rewrite scnhdrs_prefix, <- Hsecs.
Qed.

(** The flat file: the bytes of the copied sections one after the other, and zeros up to
    the end of the stack above the highest address of a section. *)
Lemma flatten_layout secs :
  flat_input secs -> let top := flat_top secs 0 in
  Z.of_nat (length (flat_bytes secs)) <= top + StackSize - 4 -> top + StackSize < 2 ^ 31 -> top + StackSize <= room ->
  exists h, flatten room (MkHost B 0 (Some []) 0 false) = Done tt h /\ unlinked h = false /\
    fdOut h = Some (pad (Z.to_nat (top + StackSize)) (flat_bytes secs)).
Proof.
  intros Hin top Hfit Hmax Hroom. rewrite (flatten_headers secs Hin). unfold StackSize in *.
  destruct (copy_segments_ok secs 0 (MkHost B (76 + Z.of_nat (length secs) * 40) (Some []) 0 false) [] (fi_good _ Hin))
    as (h & Hrun & H1 & H2 & H3 & H4); try done; [cbn [length]; lia|]. cbn [app] in H2, H3.
  pose proof (proj1 (flat_top_ge secs 0)) as Htop. fold top in Htop.
  rewrite (xbind_ok _ _ _ _ _ Hrun). fold top. rewrite (xbind_ok _ _ _ _ _ (xint_ok (top + 1024) h ltac:(unfold is_i32; lia))).
  erewrite xbind_ok by reflexivity. rewrite (proj2 (Z.ltb_ge _ _)) by lia.
  rewrite (flat_Write_ok _ (flat_bytes secs)); cbn [fdOut posOut fdIn posIn unlinked]; [|done|lia|rewrite length_le_bytes; lia].
  eexists. split; [reflexivity|]. split; [done|]. cbn [fdOut]. f_equal. unfold pad. rewrite <- app_assoc. f_equal.
  change (le_bytes 4 0) with (replicate 4 0). rewrite <- replicate_add. f_equal. lia.
Qed.

(** The copied sections follow each other from [a] on. *)
Fixpoint contiguous (a : Z) (secs : list scnhdr) : Prop :=
  match secs with
  | [] => True
  | s :: secs => if copied s then s_paddr s = a /\ contiguous (a + s_size s) secs else contiguous a secs
  end.

Lemma flat_bytes_at secs a s : Forall flat_ok secs -> contiguous a secs -> s ∈ secs -> copied s = true ->
  a <= s_paddr s /\ take (Z.to_nat (s_size s)) (drop (Z.to_nat (s_paddr s - a)) (flat_bytes secs)) = section_bytes B s /\
  s_paddr s - a + s_size s <= Z.of_nat (length (flat_bytes secs)).
Proof.
  intros Hok. revert a. induction Hok as [|t secs Ht Hok IH]; intros a Hc Hin Hs; [by apply elem_of_nil in Hin|].
  unfold flat_bytes. rewrite bind_cons. fold (flat_bytes secs). cbn [contiguous] in Hc. pose proof Ht as [(Hp & Hz & _) _]. apply elem_of_cons in Hin as [->|Hin].
  - rewrite Hs in Hc |- *. destruct Hc as [<- _]. pose proof (section_length t Ht Hs) as Hl. rewrite Z.sub_diag, drop_0. cbn [Z.to_nat].
    split; [done|]. rewrite length_app. split; [rewrite take_app_length' by lia; done|lia].
  - destruct (copied t) eqn:Et; [|exact (IH a Hc Hin Hs)]. destruct Hc as [Ha Hc]. pose proof (section_length t Ht Et) as Hl.
    destruct (IH _ Hc Hin Hs) as (H1 & H2 & H3). split; [lia|]. rewrite length_app. split; [|lia].
    rewrite drop_app_ge by lia. rewrite <- H2. do 2 f_equal. lia.
Qed.

(** When the copied sections follow each other from address 0 on, each has its bytes at its
    address. *)
Lemma flatten_correct secs : flat_input secs -> contiguous 0 secs -> let top := flat_top secs 0 in
  top + StackSize < 2 ^ 31 -> top + StackSize <= room -> Z.of_nat (length (flat_bytes secs)) <= top ->
  exists h out, flatten room (MkHost B 0 (Some []) 0 false) = Done tt h /\ fdOut h = Some out /\
    Z.of_nat (length out) = top + StackSize /\
    (forall s, s ∈ secs -> copied s = true -> take (Z.to_nat (s_size s)) (drop (Z.to_nat (s_paddr s)) out) = section_bytes B s) /\
    (forall i, Z.of_nat (length (flat_bytes secs)) <= Z.of_nat i < top + StackSize -> out !! i = Some 0).
Proof.
  intros Hin Hc top Hmax Hroom Hfit. unfold StackSize in *. destruct (flatten_layout secs Hin) as (h & Hrun & _ & Hout); [unfold StackSize; fold top; lia..|].
  fold top in Hout. unfold StackSize in Hout. exists h, (pad (Z.to_nat (top + 1024)) (flat_bytes secs)). split; [done|]. split; [done|].
  pose proof (pad_length (Z.to_nat (top + 1024)) (flat_bytes secs)) as Hl. split; [lia|]. split.
  - intros s Hs Hcs. destruct (flat_bytes_at secs 0 s (fi_good _ Hin) Hc Hs Hcs) as (H0 & H1 & H2). rewrite Z.sub_0_r in H1, H2. unfold pad.
    pose proof (fi_good _ Hin) as Hg. rewrite Forall_forall in Hg. destruct (fo_range _ (Hg s Hs)) as (Hp & Hz & _).
    rewrite drop_app_le by lia. rewrite take_app_le by (rewrite length_drop; lia). exact H1.
  - intros i Hi. unfold pad. rewrite lookup_app_r by lia. apply lookup_replicate. split; [done|]. lia.
Qed.
End Flat.

(** The sections are not put at their addresses: with the code at 0 and the data at 16, the
    data come right behind the code. *)
Definition gap_coff : list Z :=
  le_bytes 2 MIPSELMAGIC ++ le_bytes 2 2 ++ replicate 16 0 ++ le_bytes 2 OMAGIC ++ replicate 54 0 ++
  demo_scnhdr ".text" 0 8 156 ++ demo_scnhdr ".data" 16 4 164 ++ demo_code ++ demo_data.
Lemma flatten_ignores_addresses :
  match flat_main 4096 3 (Some gap_coff) true with
  | Done _ h => fdOut h = Some (demo_code ++ demo_data ++ replicate 1032 0)
  | _ => False
  end.
Proof. vm_compute. reflexivity. Qed.
