(* ===== verification/Syscalls.v ===== *)
(** * System calls: [userprog/exception.cc]

    The entry point of the kernel from user programs: page faults, and the system
    calls, which copy names and data between a program's memory and the file
    system, and act on threads.  The thread operations are an interface. *)

From S2P Require Import Prelude BitMap Sectors FileHdr OpenFile Directory FileSys.
From S2P Require Import Disk Kernel Machine Paging AddrSpace.

(** ** State *)

(** [syscall.h]. *)
Definition SC_Halt : Z := 0.
Definition SC_Exit : Z := 1.
Definition SC_Exec : Z := 2.
Definition SC_Join : Z := 3.
Definition SC_Create : Z := 4.
Definition SC_Open : Z := 5.
Definition SC_Read : Z := 6.
Definition SC_Write : Z := 7.
Definition SC_Close : Z := 8.
Definition SC_Fork : Z := 9.
Definition SC_Yield : Z := 10.

(** What a new user thread runs: [fork_func] on an [Info], or [exec_func]. *)
Inductive UserStart : Type :=
| ForkFunc (info_space : option AddrSpace) (info_pc : Z)
| ExecFunc (address : Z).

(** The kernel as system calls see it: the file system's disk, the machine, the
    open files and the character strings on the heap, by address, the address
    spaces of the threads, the console's input and output. *)
Record Sys (D : Type) : Type := MkSys {
  sys_disk : D;
  sys_vm : Vm;
  open_files : gmap Z OpenFile;
  names : strings;
  next_address : Z;
  spaces : gmap Z AddrSpace;
  stdin : list Z;
  stdout : list Z
}.
Arguments MkSys {D}.
Arguments sys_disk {D}. Arguments sys_vm {D}. Arguments open_files {D}. Arguments names {D}.
Arguments next_address {D}. Arguments spaces {D}. Arguments stdin {D}. Arguments stdout {D}.

Definition set_sys_disk {D} (x : D) (s : Sys D) : Sys D :=
  MkSys x (sys_vm s) (open_files s) (names s) (next_address s) (spaces s) (stdin s) (stdout s).
Definition set_sys_vm {D} (x : Vm) (s : Sys D) : Sys D :=
  MkSys (sys_disk s) x (open_files s) (names s) (next_address s) (spaces s) (stdin s) (stdout s).
Definition set_open_files {D} (x : gmap Z OpenFile) (s : Sys D) : Sys D :=
  MkSys (sys_disk s) (sys_vm s) x (names s) (next_address s) (spaces s) (stdin s) (stdout s).
Definition set_names {D} (x : strings) (s : Sys D) : Sys D :=
  MkSys (sys_disk s) (sys_vm s) (open_files s) x (next_address s) (spaces s) (stdin s) (stdout s).
Definition set_next_address {D} (x : Z) (s : Sys D) : Sys D :=
  MkSys (sys_disk s) (sys_vm s) (open_files s) (names s) x (spaces s) (stdin s) (stdout s).
Definition set_spaces {D} (x : gmap Z AddrSpace) (s : Sys D) : Sys D :=
  MkSys (sys_disk s) (sys_vm s) (open_files s) (names s) (next_address s) x (stdin s) (stdout s).
Definition set_stdin {D} (x : list Z) (s : Sys D) : Sys D :=
  MkSys (sys_disk s) (sys_vm s) (open_files s) (names s) (next_address s) (spaces s) x (stdout s).
Definition set_stdout {D} (x : list Z) (s : Sys D) : Sys D :=
  MkSys (sys_disk s) (sys_vm s) (open_files s) (names s) (next_address s) (spaces s) (stdin s) x.

Definition disk_lens {D} : lens (Sys D) D := Lens sys_disk set_sys_disk.
Definition vm_lens {D} : lens (Sys D) Vm := Lens sys_vm set_sys_vm.
Definition loader_lens {D} : lens (Sys D) (D * Vm) :=
  Lens (fun s => (sys_disk s, sys_vm s)) (fun p s => set_sys_vm p.2 (set_sys_disk p.1 s)).
Definition machine_lens {D} : lens (Sys D) Machine :=
  Lens (fun s => vm_machine (sys_vm s)) (fun m s => set_sys_vm (set_vm_machine m (sys_vm s)) s).

(** The operations on threads: [currentThread->Finish()], which does not return,
    [currentThread->Yield()], [ThreadIDOccupied[id]], and a new thread forked on a
    user start routine, whose id it is. *)
Class ThreadOps (W : Type) : Type := {
  thread_finish : M W unit;
  thread_yield : M W unit;
  id_occupied : Z -> M W bool;
  fork_user : UserStart -> M W Z
}.

Section Syscalls.
Context {D : Type} `{!SectorDisk D} `{!ThreadOps (Sys D)}.
Context (Random : nat -> Z) (env : Env) (fs : FileSystem).
#[local] Abbreviation W := (Sys D).

(** ** Exceptions inside the kernel

    The branches of [ExceptionHandler] other than system calls, which are those the
    accesses to user memory made by the system calls can take. *)
Definition trap (which : ExceptionType) : M W unit :=
  _ ← zoom machine_lens (ReadRegister 2);
  if bool_decide (which = PageFaultException) then
    t ← zoom machine_lens (gets tlb);
    match t with
    | Some t =>
        address ← zoom machine_lens (ReadRegister BadVAddrReg);
        pt ← zoom machine_lens (gets pageTable);
        match pt with
        | Some pt => t ← lift (tlbReplace address t pt); zoom machine_lens (modify (set_tlb (Some t)))
        | None => halt Undefined
        end
    | None => zoom vm_lens (page_fault Random)
    end
  else halt AssertFailed.

#[local] Instance kernel_host : Host W := {|
  machine := machine_lens;
  current_tid := fun s => vm_tid (sys_vm s);
  setStatus := fun st s => set_sys_vm (set_vm_mode st (sys_vm s)) s;
  ExceptionHandler := trap
|}.

Definition arg (r : Z) : M W Z := zoom machine_lens (ReadRegister r).
Definition advance : M W unit := zoom machine_lens AdvancePC.

(** ** Copying *)

(** [machine->ReadMem(address, 1, &value)], its result ignored: [value] keeps what
    it holds when the access fails. *)
Definition read_char (address value : Z) : M W Z :=
  v ← ReadMem address 1; mret (default value v).

(** [while (value != 0) { ReadMem(address++, 1, &value); len++; }]. *)
Fixpoint name_length (fuel : nat) (address value len : Z) : M W (Z * Z) :=
  match fuel with
  | O => halt OutOfFuel
  | S fuel =>
      if value =? 0 then mret (value, len)
      else value ← read_char address value; name_length fuel (i32 (address + 1)) value (i32 (len + 1))
  end.

(** [for (i ...) { ReadMem(address + i, 1, &value); data[i] = (char) value; }],
    [n] bytes to go. *)
Fixpoint copy_in (n : nat) (address value : Z) : M W (list Z) :=
  match n with
  | O => mret []
  | S n =>
      value ← read_char address value;
      data ← copy_in n (i32 (address + 1)) value;
      mret (value mod 256 :: data)
  end.

(** [for (i ...) WriteMem(address + i, 1, int(data[i]))]. *)
Fixpoint copy_out (address : Z) (data : list Z) : M W unit :=
  match data with
  | [] => mret tt
  | b :: data => _ ← WriteMem address 1 (i8 b); copy_out (i32 (address + 1)) data
  end.

(** The characters of a C string in a buffer. *)
Fixpoint c_string (data : list Z) : string :=
  match data with
  | [] => EmptyString
  | b :: data => if b =? 0 then EmptyString else String (Ascii.ascii_of_nat (Z.to_nat b)) (c_string data)
  end.

(** The name at [r4], copied to a new array: its address.  The array has to hold a
    terminator for [fileName] to be a string. *)
Definition get_name (fuel : nat) : M W Z :=
  address ← arg 4;
  '(value, len) ← name_length fuel address 1 0;
  let address := i32 (i32 (address + len) - len) in
  data ← copy_in (Z.to_nat len) address value;
  if bool_decide (0 ∈ data) then
    p ← gets next_address;
    m ← gets names;
    _ ← modify (set_names (fun q => if q =? p then Some (c_string data) else m q));
    _ ← modify (set_next_address (p + len));
    mret p
  else halt Undefined.

(** The file-system calls, which compare names through the heap. *)
Definition env_of (s : W) : Env :=
  MkEnv (new_words env) (new_table env) (new_hdr env) (new_buf env) (time_now env) (names s).
Definition on_files {A} (f : Env -> M D A) : M W A := e ← gets env_of; zoom disk_lens (f e).

(** An [OpenFile] by its address. *)
Definition file_at_address (fd : Z) : M W OpenFile := s ← gets open_files; match s !! fd with Some f => mret f | None => halt Undefined end.
Definition put_file (fd : Z) (f : OpenFile) : M W unit := modify (fun s => set_open_files (<[fd := f]> (open_files s)) s).

(** ** The calls *)

Definition sc_Create (fuel : nat) : M W unit :=
  fileName ← get_name fuel;
  _ ← on_files (fun e => Create e fs fileName 100);
  advance.

Definition sc_Open (fuel : nat) : M W unit :=
  fileName ← get_name fuel;
  openfile ← on_files (fun e => Open e fs fileName);
  r ← match openfile with
      | Some f => p ← gets next_address; _ ← put_file p f; _ ← modify (set_next_address (p + 12)); mret p
      | None => mret 0
      end;
  _ ← zoom machine_lens (WriteRegister 2 (i32 r));
  advance.

(** [junk] is what the uninitialised [value] holds. *)
Definition sc_Write (junk : Z) : M W unit :=
  address ← arg 4;
  len ← arg 5;
  fd ← arg 6;
  if len <? 0 then halt Undefined
  else
    data ← copy_in (Z.to_nat len) address junk;
    _ ← (if negb (fd =? 1) then
           f ← file_at_address fd;
           '(f, _) ← on_files (fun e => OpenFile.Write (new_buf e 0) (time_now e) f data len);
           put_file fd f
         else modify (fun s => set_stdout (stdout s ++ data) s));
    advance.

(** [getchar], 255 at the end of the input. *)
Fixpoint getchars (n : nat) (input : list Z) : list Z * list Z :=
  match n with
  | O => ([], input)
  | S n =>
      let '(b, input) := match input with [] => (255, []) | b :: input => (b, input) end in
      let '(data, input) := getchars n input in
      (b :: data, input)
  end.

Definition sc_Read : M W unit :=
  address ← arg 4;
  len ← arg 5;
  fd ← arg 6;
  if len <? 0 then halt Undefined
  else
    data ← (if negb (fd =? 0) then
              f ← file_at_address fd;
              '(f, (_, data)) ← on_files (fun e => OpenFile.Read (time_now e) f len);
              _ ← put_file fd f;
              mret data
            else
              input ← gets stdin;
              let '(data, input) := getchars (Z.to_nat len) input in
              _ ← modify (set_stdin input);
              mret data);
    _ ← copy_out address data;
    _ ← zoom machine_lens (WriteRegister 2 (Z.of_nat (length data)));
    advance.

(** [delete openfile], where deleting [NULL] does nothing. *)
Definition sc_Close : M W unit :=
  fd ← arg 4;
  _ ← (if fd =? 0 then mret tt
       else _ ← file_at_address fd; modify (fun s => set_open_files (delete fd (open_files s)) s));
  advance.

Definition sc_Exit : M W unit := _ ← arg 4; _ ← advance; thread_finish.

Definition sc_Fork : M W unit :=
  addr ← arg 4;
  t ← gets (fun s => vm_tid (sys_vm s));
  sp ← gets spaces;
  _ ← fork_user (ForkFunc (sp !! t) addr);
  advance.

Definition sc_Yield : M W unit := _ ← advance; thread_yield.

Definition sc_Exec : M W unit :=
  address ← arg 4;
  id ← fork_user (ExecFunc address);
  _ ← zoom machine_lens (WriteRegister 2 id);
  advance.

(** [while (ThreadIDOccupied[threadId]) currentThread->Yield();]. *)
Fixpoint join_loop (fuel : nat) (threadId : Z) : M W unit :=
  match fuel with
  | O => halt OutOfFuel
  | S fuel => b ← id_occupied threadId; if (b : bool) then _ ← thread_yield; join_loop fuel threadId else mret tt
  end.
Definition sc_Join (fuel : nat) : M W unit :=
  threadId ← arg 4;
  _ ← join_loop fuel threadId;
  advance.

(** [ExceptionHandler]; [fuel] bounds the loops over a name and over [Yield]. *)
Definition ExceptionHandler (fuel : nat) (junk : Z) (which : ExceptionType) : M W unit :=
  type ← arg 2;
  if bool_decide (which = SyscallException) then
    if type =? SC_Halt then halt Halted
    else if type =? SC_Exit then sc_Exit
    else if type =? SC_Join then sc_Join fuel
    else if type =? SC_Fork then sc_Fork
    else if type =? SC_Yield then sc_Yield
    else if type =? SC_Create then sc_Create fuel
    else if type =? SC_Open then sc_Open fuel
    else if type =? SC_Write then sc_Write junk
    else if type =? SC_Read then sc_Read
    else if type =? SC_Close then sc_Close
    else if type =? SC_Exec then sc_Exec
    else halt AssertFailed
  else trap which.

(** ** New user threads *)

(** [currentThread->space = space]. *)
Definition attach (space : AddrSpace) : M W unit :=
  _ ← zoom vm_lens (set_space space);
  t ← gets (fun s => vm_tid (sys_vm s));
  modify (fun s => set_spaces (<[t := space]> (spaces s)) s).

(** [fork_func], up to [machine->Run()]. *)
Definition fork_func (info_space : option AddrSpace) (info_pc : Z) : M W unit :=
  match info_space with
  | None => halt AssertFailed
  | Some src =>
      let space := AddrSpaceCopy src in
      _ ← attach space;
      _ ← zoom machine_lens (InitRegisters space);
      _ ← zoom machine_lens (RestoreState space);
      _ ← zoom machine_lens (WriteRegister PCReg info_pc);
      zoom machine_lens (WriteRegister NextPCReg (i32 (info_pc + 4)))
  end.

(** [exec_func], up to [machine->Run()]: [false] when it returns.  [fileName] is the
    address the user program passed, used as a pointer in the kernel: the store to
    [fileName[5]] is defined only inside an array of the kernel. *)
Definition exec_func (noff_junk : list Z) (fresh_byte : nat -> Z) (table : option (list TranslationEntry))
    (fileName : Z) : M W bool :=
  m ← gets names;
  match m fileName with
  | Some str =>
      if (5 <=? String.length str)%nat then
        _ ← modify (set_names (fun q => if q =? fileName then Some (String.substring 0 5 str) else m q));
        executable ← on_files (fun e => Open e fs fileName);
        match executable with
        | None => mret false
        | Some executable =>
            space ← zoom loader_lens (new_space noff_junk fresh_byte table executable);
            _ ← attach space;
            _ ← zoom machine_lens (InitRegisters space);
            _ ← zoom machine_lens (RestoreState space);
            mret true
        end
      else halt Undefined
  | None => halt Undefined
  end.

(** ** Accesses to user memory *)

(** They are those of the machine under paging. *)
Section Lift.
Context (others : ExceptionType -> M Vm unit).
#[local] Abbreviation vmh := (vm_host Random others).

Lemma read_mem_lift addr size s x v' :
  @ReadMem Vm vmh addr size (sys_vm s) = Ok (Some x, v') -> ReadMem addr size s = Ok (Some x, set_sys_vm v' s).
Proof.
  unfold ReadMem, on_machine. cbn [current_tid machine kernel_host vm_host]. unfold gets. munfold. unfold zoom.
  cbn [machine_lens vm lget lset].
  destruct (Translate _ addr size false (vm_machine (sys_vm s))) as [[[e|pa] m]|]; try done.
  - match goal with |- context [RaiseException e addr ?x] => destruct (RaiseException e addr x) as [[]|]; done end.
  - cbn [vm_machine set_vm_machine sys_vm set_sys_vm]. destruct (fetch pa size m) as [[y m']|]; [|done].
    intros [= <- <-]. done.
Qed.

Lemma set_reg_frame i x m u m' : set_reg i x m = Ok (u, m') ->
  length (registers m') = length (registers m) /\ tlb m' = tlb m.
Proof.
  unfold set_reg. intros (rs & m1 & H1 & (rs' & m2 & H2 & H3)%bind_inv)%bind_inv. injection H1 as <- <-.
  unfold lift in H2. destruct (aset (registers m) i x) as [l|] eqn:Ha; [|done]. injection H2 as <- <-.
  injection H3 as _ <-. cbn. split; [|done]. unfold aset in Ha. destruct (_ && _); [|done]. injection Ha as <-. apply length_insert.
Qed.
Lemma reg_frame i m x m' : reg i m = Ok (x, m') -> m' = m.
Proof.
  unfold reg. intros (rs & m1 & H1 & H2)%bind_inv. injection H1 as <- <-. unfold lift in H2.
  destruct (aget _ _); [|done]. by injection H2 as _ <-.
Qed.

Lemma delayed_load_frame n y m u m' : DelayedLoad n y m = Ok (u, m') ->
  length (registers m') = length (registers m) /\ tlb m' = tlb m.
Proof.
  unfold DelayedLoad. intros (r & m1 & ->%reg_frame & H)%bind_inv. apply bind_inv in H as (v & m2 & ->%reg_frame & H).
  apply bind_inv in H as (u1 & m3 & [E1 F1]%set_reg_frame & H). apply bind_inv in H as (u2 & m4 & [E2 F2]%set_reg_frame & H).
  apply bind_inv in H as (u3 & m5 & [E3 F3]%set_reg_frame & [E4 F4]%set_reg_frame). split; congruence.
Qed.

Lemma page_fault_lift addr s v' :
  length (registers (vm_machine (sys_vm s))) = 40%nat -> tlb (vm_machine (sys_vm s)) = None ->
  @RaiseException Vm vmh PageFaultException addr (sys_vm s) = Ok (tt, v') ->
  RaiseException PageFaultException addr s = Ok (tt, set_sys_vm v' s).
Proof.
  intros Hl Ht H. unfold RaiseException, on_machine in *. cbn [machine setStatus kernel_host vm_host] in *.
  apply bind_inv in H as ([] & v1 & H1 & H). unfold zoom in H1. cbn [vm lget lset] in H1.
  destruct (set_reg BadVAddrReg addr (vm_machine (sys_vm s))) as [[[] m1]|] eqn:E1; [|done]. injection H1 as <-.
  destruct (set_reg_frame _ _ _ _ _ E1) as [L1 T1].
  apply bind_inv in H as ([] & v2 & H2 & H). unfold zoom in H2. cbn [vm lget lset vm_machine set_vm_machine] in H2.
  destruct (DelayedLoad 0 0 m1) as [[[] m2]|] eqn:E2; [|done]. injection H2 as <-.
  destruct (delayed_load_frame _ _ _ _ _ E2) as [L2 T2].
  apply bind_inv in H as ([] & v3 & H3 & H). injection H3 as <-.
  apply bind_inv in H as ([] & v4 & H4 & H). injection H as <-.
  cbn [Machine.ExceptionHandler kernel_host vm_host] in *. rewrite bool_decide_true in H4 by done.
  rewrite (bind_ok _ _ s tt (set_sys_vm (set_vm_machine m1 (sys_vm s)) s)) by (unfold zoom; cbn; by rewrite E1).
  erewrite bind_ok by (unfold zoom; cbn; by rewrite E2). erewrite bind_ok by reflexivity.
  rewrite (bind_ok _ _ _ tt (set_sys_vm v4 s)); [reflexivity|]. unfold trap.
  destruct (lookup_lt_is_Some_2 (registers m2) 2) as [r2 Hr2]; [lia|].
  erewrite bind_ok; [|apply zoom_ok, (read_register_ok _ 2 r2); [exact Hr2|lia]].
  rewrite bool_decide_true by done. cbn [lset machine_lens].
  rewrite (bind_ok _ _ _ (tlb m2) (set_sys_vm (set_vm_mode SystemMode (set_vm_machine m2 (set_vm_machine m1 (sys_vm s)))) s))
    by reflexivity.
  rewrite T2, T1, Ht. exact (zoom_ok vm_lens _ (set_sys_vm _ s) _ _ H4).
Qed.

(** A first touch of a page: the access fails, and the page is there. *)
Lemma read_miss addr s :
  vm_ok (sys_vm s) -> regs_ok (vm_machine (sys_vm s)) -> tlb (vm_machine (sys_vm s)) = None ->
  has_page (sys_vm s) (vm_tid (sys_vm s)) (u32 addr / 128) -> mapping (sys_vm s) (vm_tid (sys_vm s)) (u32 addr / 128) = None ->
  (forall n, 0 <= Random n) ->
  exists v', ReadMem addr 1 s = Ok (None, set_sys_vm v' s) /\ undisturbed (sys_vm s) v' /\
    (exists i, mapping v' (vm_tid (sys_vm s)) (u32 addr / 128) = Some i) /\
    (forall t a, 0 <= a -> vbyte v' t a = vbyte (sys_vm s) t a).
Proof.
  intros Hv Hr Ht Hp Hm Hrand. assert (Ha : aligned addr 1) by (split; [by left|apply Z.divide_1_l]).
  destruct (access_miss Random Hrand others (sys_vm s) addr 1 false Hv Hr Ha Hp Hm) as (v1 & v2 & Htr & Hex & Hun & Hmap & Hvb).
  pose proof (translate_miss (sys_vm s) addr 1 false Ha Hm) as E.
  rewrite (zoom_ok vm _ (sys_vm s) _ _ E) in Htr. injection Htr as <-.
  exists v2. split; [|done]. unfold ReadMem, on_machine. cbn [current_tid machine kernel_host]. erewrite bind_ok by reflexivity.
  rewrite (bind_ok _ _ _ _ _ (zoom_ok machine_lens _ s _ _ E)). cbn [lset machine_lens].
  rewrite (bind_ok _ _ _ tt (set_sys_vm v2 s)); [reflexivity|].
  eapply (page_fault_lift addr (set_sys_vm _ s)); [apply Hr|exact Ht|exact Hex].
Qed.
End Lift.

(** The bytes [data] at [a] in the current thread's memory, on pages that are in
    main memory. *)
Definition resident (v : Vm) (a : Z) (data : list Z) : Prop :=
  0 <= a /\ a + Z.of_nat (length data) < 2 ^ 31 /\
  forall k b, data !! k = Some b ->
    0 <= b < 256 /\ (exists i, mapping v (vm_tid v) ((a + Z.of_nat k) / 128) = Some i) /\
    vbyte v (vm_tid v) (a + Z.of_nat k) = Some b.

(** What a load leaves of the machine. *)
Record looked_at (v v' : Vm) : Prop := {
  la_ok : vm_ok v';
  la_machine : v' = set_vm_machine (vm_machine v') v;
  la_regs : registers (vm_machine v') = registers (vm_machine v);
  la_maps : forall t p, mapping v' t p = mapping v t p;
  la_bytes : forall t a, vbyte v' t a = vbyte v t a
}.

Lemma looked_at_refl v : vm_ok v -> looked_at v v.
Proof. intros H. split; try done. by destruct v. Qed.
Lemma looked_at_trans v1 v2 v3 : looked_at v1 v2 -> looked_at v2 v3 -> looked_at v1 v3.
Proof.
  intros [A1 A2 A3 A4 A5] [B1 B2 B3 B4 B5]. split; [done| |congruence| |].
  - rewrite B2. cbn. rewrite A2. done.
  - intros t p. by rewrite B4, A4.
  - intros t a. by rewrite B5, A5.
Qed.
Lemma looked_at_tid v v' : looked_at v v' -> vm_tid v' = vm_tid v.
Proof. intros H. by rewrite (la_machine _ _ H). Qed.

Lemma resident_cons v a b data : resident v a (b :: data) -> resident v (a + 1) data.
Proof.
  intros (H1 & H2 & H3). cbn [length] in H2. split; [lia|]. split; [lia|]. intros k c Hk.
  replace (a + 1 + Z.of_nat k) with (a + Z.of_nat (S k)) by lia. by apply H3.
Qed.
Lemma resident_looked_at v v' a data : looked_at v v' -> resident v a data -> resident v' a data.
Proof.
  intros Hl (H1 & H2 & H3). split; [done|]. split; [done|]. intros k b Hk. rewrite (looked_at_tid _ _ Hl).
  destruct (H3 k b Hk) as (Hb & (i & Hi) & Hv). split; [done|]. rewrite (la_bytes _ _ Hl). split; [|done].
  exists i. by rewrite (la_maps _ _ Hl).
Qed.

Lemma i8_mod b : 0 <= b < 256 -> i8 b mod 256 = b.
Proof. intros H. unfold i8. destruct (b <? 128) eqn:E; Z.to_euclidean_division_equations; lia. Qed.

(** Reading one byte of a page that is in main memory. *)
Lemma read_char_resident s a b data junk :
  vm_ok (sys_vm s) -> regs_ok (vm_machine (sys_vm s)) -> resident (sys_vm s) a (b :: data) ->
  exists v', read_char a junk s = Ok (i8 b, set_sys_vm v' s) /\ looked_at (sys_vm s) v' /\
    regs_ok (vm_machine v') /\ resident v' (a + 1) data.
Proof.
  intros Hv Hr Hres. pose proof Hres as (H1 & H2 & H3). cbn [length] in H2.
  destruct (H3 0%nat b eq_refl) as (Hb & (i & Hi) & Hvb).
  replace (a + Z.of_nat 0) with a in * by lia. assert (Hu : u32 a = a) by (apply u32_id; unfold is_u32; lia).
  assert (Ha : aligned a 1) by (split; [by left|apply Z.divide_1_l]).
  destruct (read_hit_full Random (fun _ => halt AssertFailed) (sys_vm s) a 1 i Hv Hr Ha ltac:(by rewrite Hu))
    as (bs & m & Hlen & Hrun & Hbs & Hun & Hvbs & Hregs & _ & Hmaps).
  specialize (Hrun (sys_vm s) eq_refl eq_refl). exists (set_vm_machine m (sys_vm s)).
  specialize (Hbs a ltac:(lia)). rewrite Hu, Z.sub_diag, Hvb in Hbs. destruct bs as [|b' [|]]; [done| |cbn in Hlen; lia].
  cbn in Hbs. injection Hbs as <-.
  assert (Hl : looked_at (sys_vm s) (set_vm_machine m (sys_vm s))) by (split; try done; apply Hun).
  split_and!; [|done|apply Hun|eapply resident_looked_at, resident_cons; done].
  unfold read_char. erewrite bind_ok by (eapply read_mem_lift, Hrun). unfold as_value. cbn. by rewrite Z.add_0_r.
Qed.

Lemma copy_in_resident data s a junk :
  vm_ok (sys_vm s) -> regs_ok (vm_machine (sys_vm s)) -> resident (sys_vm s) a data ->
  exists v', copy_in (length data) a junk s = Ok (data, set_sys_vm v' s) /\ looked_at (sys_vm s) v'.
Proof.
  revert s a junk. induction data as [|b data IH]; intros s a junk Hv Hr Hres; cbn [length copy_in].
  { exists (sys_vm s). split; [by destruct s|by apply looked_at_refl]. }
  pose proof Hres as (H1 & H2 & H3). cbn [length] in H2. destruct (H3 0%nat b eq_refl) as (Hb & _ & _).
  destruct (read_char_resident s a b data junk Hv Hr Hres) as (v1 & Hrun & Hl & Hr1 & Hres1).
  rewrite (bind_ok _ _ _ _ _ Hrun). rewrite i32_id by (unfold is_i32; lia).
  destruct (IH (set_sys_vm v1 s) (a + 1) (i8 b) (la_ok _ _ Hl) Hr1 Hres1) as (v2 & Hrun2 & Hl2).
  exists v2. erewrite bind_ok by exact Hrun2. rewrite i8_mod by done. split; [done|].
  by apply (looked_at_trans _ v1).
Qed.

(** The PC registers after a system call. *)
Definition advanced (rs : list Z) : list Z :=
  <[35%nat := i32 (rs !!! 35%nat + 4)]> (<[34%nat := i32 (rs !!! 34%nat + 4)]> (<[36%nat := rs !!! 34%nat]> rs)).

Lemma advance_ok s : length (registers (vm_machine (sys_vm s))) = 40%nat ->
  advance s = Ok (tt, set_sys_vm (set_vm_machine (set_registers (advanced (registers (vm_machine (sys_vm s))))
    (vm_machine (sys_vm s))) (sys_vm s)) s).
Proof.
  intros Hl. unfold advance. set (m := vm_machine (sys_vm s)) in *. set (rs := registers m) in *.
  assert (Hg : forall k, (k < 40)%nat -> rs !! k = Some (rs !!! k)) by (intros; apply list_lookup_lookup_total_lt; lia).
  rewrite (zoom_ok machine_lens AdvancePC s tt (set_registers (advanced rs) m)); [done|].
  change (lget machine_lens s) with m. unfold AdvancePC.
  rewrite (bind_ok _ _ _ _ _ (reg_ok m PCReg (rs !!! 34%nat) ltac:(done) (Hg 34%nat ltac:(lia)))).
  erewrite bind_ok by (apply write_register_ok; [done|done]).
  erewrite bind_ok; [|apply (reg_ok _ _ (rs !!! 34%nat)); [done|]; cbn; rewrite list_lookup_insert_ne by done; apply Hg; lia].
  erewrite bind_ok by (apply write_register_ok; [cbn; by rewrite length_insert|done]).
  erewrite bind_ok; [|apply (reg_ok _ _ (rs !!! 35%nat)); [done|]; cbn; rewrite !list_lookup_insert_ne by done; apply Hg; lia].
  rewrite write_register_ok; [done|cbn; by rewrite !length_insert|done].
Qed.

Lemma arg_ok r x s : registers (vm_machine (sys_vm s)) !! Z.to_nat r = Some x -> 0 <= r < 40 -> arg r s = Ok (x, s).
Proof.
  intros H1 H2. unfold arg. rewrite (zoom_ok machine_lens _ s _ _ (read_register_ok _ _ _ H1 H2)). by destruct s as [? []].
Qed.

(** A buffer of [n] bytes at [a] of the current thread's memory, on pages that are
    in main memory. *)
Definition resident_buffer (v : Vm) (a n : Z) : Prop :=
  0 <= a /\ a + n < 2 ^ 31 /\ forall k, 0 <= k < n -> exists i, mapping v (vm_tid v) ((a + k) / 128) = Some i.

(** The machine after [data] is stored at [a]. *)
Record stored_at (a : Z) (data : list Z) (v v' : Vm) : Prop := {
  st_ok : vm_ok v';
  st_regs_ok : regs_ok (vm_machine v');
  st_regs : registers (vm_machine v') = registers (vm_machine v);
  st_tid : vm_tid v' = vm_tid v;
  st_maps : forall t p, mapping v' t p = mapping v t p;
  st_bytes : forall t x, 0 <= x -> vbyte v' t x =
    if decide (t = vm_tid v /\ a <= x < a + Z.of_nat (length data)) then data !! Z.to_nat (x - a) else vbyte v t x
}.

Lemma write_mem_lift addr size x s v' :
  @WriteMem Vm (vm_host Random (fun _ => halt AssertFailed)) addr size x (sys_vm s) = Ok (true, v') ->
  WriteMem addr size x s = Ok (true, set_sys_vm v' s).
Proof.
  unfold WriteMem, on_machine. cbn [current_tid machine kernel_host vm_host]. unfold gets. munfold. unfold zoom.
  cbn [machine_lens vm lget lset].
  destruct (Translate _ addr size true (vm_machine (sys_vm s))) as [[[e|pa] m]|]; try done.
  - match goal with |- context [RaiseException e addr ?x] => destruct (RaiseException e addr x) as [[]|]; done end.
  - cbn [vm_machine set_vm_machine sys_vm set_sys_vm]. destruct (store pa size x m) as [[y m']|]; [|done].
    intros [= <-]. done.
Qed.

Lemma copy_out_resident data s a :
  vm_ok (sys_vm s) -> regs_ok (vm_machine (sys_vm s)) ->
  resident_buffer (sys_vm s) a (Z.of_nat (length data)) -> Forall is_byte data ->
  exists v', copy_out a data s = Ok (tt, set_sys_vm v' s) /\ stored_at a data (sys_vm s) v'.
Proof.
  revert s a. induction data as [|b data IH]; intros s a Hv Hr (H1 & H2 & H3) Hb; cbn [copy_out length] in *.
  { exists (sys_vm s). split; [by destruct s|]. split; try done. intros t x Hx. rewrite decide_False; [done|]. cbn. lia. }
  apply Forall_cons in Hb as [Hb0 Hb]. destruct (H3 0 ltac:(lia)) as [i Hi]. rewrite Z.add_0_r in Hi.
  assert (Hu : u32 a = a) by (apply u32_id; unfold is_u32; lia).
  destruct (write_hit_full Random (fun _ => halt AssertFailed) (sys_vm s) a 1 (i8 b) i Hv Hr
    ltac:(split; [by left|apply Z.divide_1_l]) ltac:(by rewrite Hu)) as (v1 & Hrun & [U1 U2 U3 _] & [Hregs Hmaps] & Hvb).
  erewrite bind_ok by (apply write_mem_lift, Hrun). rewrite i32_id by (unfold is_i32; lia).
  destruct (IH (set_sys_vm v1 s) (a + 1) U1 U2) as (v2 & Hrun2 & [A1 A2 A3 A4 A5 A6]); [|done|].
  { split; [lia|]. split; [lia|]. intros k Hk. cbn [sys_vm set_sys_vm]. rewrite Hmaps, U3.
    replace (a + 1 + k) with (a + (k + 1)) by lia. apply H3. lia. }
  cbn [sys_vm set_sys_vm] in *. exists v2. rewrite Hrun2. split; [done|].
  split; [done|done|congruence|congruence| |].
  - intros t p. by rewrite A5, Hmaps.
  - intros t x Hx. rewrite A6, Hvb, U3 by done. unfold touches. rewrite Hu. cbn [length].
    change (le_bytes (Z.to_nat 1) (i8 b)) with [i8 b mod 256]. unfold is_byte in Hb0. rewrite i8_mod by lia.
    destruct (decide (t = vm_tid (sys_vm s))) as [->|Ht].
    + destruct (decide (x = a)) as [->|Hxa].
      { rewrite decide_False by lia. rewrite !decide_True by lia. by rewrite Z.sub_diag. }
      destruct (decide (a + 1 <= x < a + 1 + Z.of_nat (length data))).
      * rewrite !decide_True by lia. replace (Z.to_nat (x - a)) with (S (Z.to_nat (x - (a + 1)))) by lia. done.
      * rewrite !decide_False by lia. done.
    + rewrite !decide_False by tauto. done.
Qed.

(** The length of a resident name, terminator included. *)
Lemma name_length_resident name s fuel a value len :
  vm_ok (sys_vm s) -> regs_ok (vm_machine (sys_vm s)) -> resident (sys_vm s) a (name ++ [0]) ->
  Forall (fun b => b <> 0) name -> value <> 0 -> (length name + 2 <= fuel)%nat ->
  0 <= len -> len + Z.of_nat (length name) + 1 < 2 ^ 31 ->
  exists v', name_length fuel a value len s = Ok ((0, len + Z.of_nat (length name) + 1), set_sys_vm v' s) /\
    looked_at (sys_vm s) v' /\ regs_ok (vm_machine v').
Proof.
  revert s fuel a value len. induction name as [|b name IH]; intros s fuel a value len Hv Hr Hres Hnz Hval Hfuel Hl1 Hl2;
    cbn [length] in Hfuel, Hl2 |- *; (destruct fuel as [|fuel]; [lia|]); cbn [name_length]; cbn [app] in Hres;
    rewrite (proj2 (Z.eqb_neq _ _)) by done;
    destruct (read_char_resident s a _ _ value Hv Hr Hres) as (v1 & Hrun & Hl & Hr1 & Hres1);
    rewrite (bind_ok _ _ _ _ _ Hrun); pose proof Hres as (Ha1 & Ha2 & Hres0); cbn [length] in Ha2;
    rewrite ?length_app in Ha2; cbn [length] in Ha2; rewrite !i32_id by (unfold is_i32; lia).
  - exists v1. destruct fuel as [|fuel]; [lia|]. change (i8 0) with 0. replace (len + Z.of_nat 0 + 1) with (len + 1) by lia. by split.
  - apply Forall_cons in Hnz as [Hb Hnz]. destruct (Hres0 0%nat b eq_refl) as (Hbr & _ & _).
    assert (Hb8 : i8 b <> 0) by (unfold i8; destruct (b <? 128) eqn:E; lia).
    destruct (IH (set_sys_vm v1 s) fuel (a + 1) (i8 b) (len + 1) (la_ok _ _ Hl) Hr1 Hres1 Hnz Hb8)
      as (v2 & Hrun2 & Hl2' & Hr2); [lia..|].
    exists v2. rewrite Hrun2. split; [|split; [by apply (looked_at_trans _ v1)|done]].
    do 3 f_equal. lia.
Qed.

(** The heap with a further string. *)
Definition with_name (name : list Z) (v : Vm) (s : W) : W :=
  let p := next_address s in
  set_next_address (p + Z.of_nat (length name) + 1)
    (set_names (fun q => if q =? p then Some (c_string (name ++ [0])) else names s q) (set_sys_vm v s)).

Lemma get_name_resident name s fuel a :
  vm_ok (sys_vm s) -> regs_ok (vm_machine (sys_vm s)) -> resident (sys_vm s) a (name ++ [0]) ->
  Forall (fun b => b <> 0) name -> (length name + 2 <= fuel)%nat ->
  registers (vm_machine (sys_vm s)) !! 4%nat = Some a ->
  exists v', get_name fuel s = Ok (next_address s, with_name name v' s) /\ looked_at (sys_vm s) v'.
Proof.
  intros Hv Hr Hres Hnz Hfuel Ha. pose proof Hres as (H1 & H2 & _). rewrite length_app in H2. cbn [length] in H2.
  unfold get_name. rewrite (bind_ok _ _ _ _ _ (arg_ok 4 a s Ha ltac:(lia))).
  destruct (name_length_resident name s fuel a 1 0 Hv Hr Hres Hnz) as (v1 & Hrun & Hl & Hr1); [done|lia..|].
  rewrite (bind_ok _ _ _ _ _ Hrun). cbv beta iota. rewrite Z.add_0_l. rewrite !i32_id by (rewrite ?i32_id; unfold is_i32; lia).
  replace (a + (Z.of_nat (length name) + 1) - (Z.of_nat (length name) + 1)) with a by lia.
  replace (Z.to_nat (Z.of_nat (length name) + 1)) with (length (name ++ [0])) by (rewrite length_app; cbn; lia).
  destruct (copy_in_resident (name ++ [0]) (set_sys_vm v1 s) a 0 (la_ok _ _ Hl) Hr1 (resident_looked_at _ _ _ _ Hl Hres))
    as (v2 & Hrun2 & Hl2).
  rewrite (bind_ok _ _ _ _ _ Hrun2). rewrite bool_decide_true by (apply elem_of_app; right; by left).
  exists v2. split; [|by apply (looked_at_trans _ v1)]. munfold. unfold with_name, gets, modify. cbn. by rewrite Z.add_assoc.
Qed.

(** A system call about to be made: its number and first argument, in a machine
    whose accesses work. *)
Record calling (s : W) (number a1 : Z) : Prop := {
  ca_ok : vm_ok (sys_vm s);
  ca_regs : regs_ok (vm_machine (sys_vm s));
  ca_number : registers (vm_machine (sys_vm s)) !! 2%nat = Some number;
  ca_a1 : registers (vm_machine (sys_vm s)) !! 4%nat = Some a1
}.

(** The machine as a call leaves it: past the instruction. *)
Definition past (v : Vm) : Vm :=
  set_vm_machine (set_registers (advanced (registers (vm_machine v))) (vm_machine v)) v.
Definition returning (v : Vm) (r : Z) : Vm :=
  set_vm_machine (set_registers (<[2%nat := r]> (registers (vm_machine v))) (vm_machine v)) v.

Lemma looked_at_length (s : W) v : length (registers (vm_machine (sys_vm s))) = 40%nat -> looked_at (sys_vm s) v ->
  length (registers (vm_machine v)) = 40%nat.
Proof. intros H Hl. by rewrite (la_regs _ _ Hl). Qed.

Lemma on_files_ok {A} (f : Env -> M D A) s a d : f (env_of s) (sys_disk s) = Ok (a, d) -> on_files f s = Ok (a, set_sys_disk d s).
Proof. intros H. unfold on_files. erewrite bind_ok by reflexivity. by apply (zoom_ok disk_lens). Qed.
Lemma on_files_stop {A} (f : Env -> M D A) s w : f (env_of s) (sys_disk s) = Stop w -> on_files f s = Stop w.
Proof. intros H. unfold on_files. erewrite bind_ok by reflexivity. by apply (zoom_stop disk_lens). Qed.

Lemma handler_call fuel junk s number a1 : calling s number a1 ->
  ExceptionHandler fuel junk SyscallException s =
    (if number =? SC_Halt then halt Halted
     else if number =? SC_Exit then sc_Exit
     else if number =? SC_Join then sc_Join fuel
     else if number =? SC_Fork then sc_Fork
     else if number =? SC_Yield then sc_Yield
     else if number =? SC_Create then sc_Create fuel
     else if number =? SC_Open then sc_Open fuel
     else if number =? SC_Write then sc_Write junk
     else if number =? SC_Read then sc_Read
     else if number =? SC_Close then sc_Close
     else if number =? SC_Exec then sc_Exec
     else halt AssertFailed) s.
Proof.
  intros Hc. unfold ExceptionHandler. rewrite (bind_ok _ _ _ _ _ (arg_ok 2 number s (ca_number _ _ _ Hc) ltac:(lia))).
  by rewrite bool_decide_true.
Qed.

(** ** Properties *)

(** [SC_Create] and [SC_Open] on a resident name. *)
Lemma create_call_run fuel junk s name a :
  resident (sys_vm s) a (name ++ [0]) -> Forall (fun b => b <> 0) name -> (length name + 2 <= fuel)%nat ->
  calling s SC_Create a -> exists v, looked_at (sys_vm s) v /\
    let s1 := with_name name v s in
    ExceptionHandler fuel junk SyscallException s =
      match Create (env_of s1) fs (next_address s) 100 (sys_disk s) with
      | Ok (_, d) => Ok (tt, set_sys_vm (past v) (set_sys_disk d s1))
      | Stop w => Stop w
      end.
Proof.
  intros Hres Hnz Hfuel Hc. pose proof (ca_regs _ _ _ Hc) as [Hlen _].
  destruct (get_name_resident name s fuel a (ca_ok _ _ _ Hc) (ca_regs _ _ _ Hc) Hres Hnz Hfuel (ca_a1 _ _ _ Hc)) as (v & Hname & Hl).
  exists v. split; [done|]. cbv zeta. rewrite (handler_call _ _ _ _ _ Hc).
  transitivity (sc_Create fuel s); [reflexivity|]. unfold sc_Create. rewrite (bind_ok _ _ _ _ _ Hname).
  destruct (Create _ fs (next_address s) 100 (sys_disk s)) as [[b d]|w] eqn:E.
  - erewrite bind_ok by (apply on_files_ok; exact E). apply advance_ok. exact (looked_at_length _ _ Hlen Hl).
  - apply bind_stop, on_files_stop. exact E.
Qed.
Lemma open_call_run fuel junk s name a :
  resident (sys_vm s) a (name ++ [0]) -> Forall (fun b => b <> 0) name -> (length name + 2 <= fuel)%nat ->
  calling s SC_Open a -> exists v, looked_at (sys_vm s) v /\
    let s1 := with_name name v s in
    ExceptionHandler fuel junk SyscallException s =
      match Open (env_of s1) fs (next_address s) (sys_disk s) with
      | Ok (None, d) => Ok (tt, set_sys_vm (past (returning v 0)) (set_sys_disk d s1))
      | Ok (Some f, d) =>
          let p := next_address s1 in
          Ok (tt, set_sys_vm (past (returning v (i32 p)))
                    (set_next_address (p + 12) (set_open_files (<[p := f]> (open_files s)) (set_sys_disk d s1))))
      | Stop w => Stop w
      end.
Proof.
  intros Hres Hnz Hfuel Hc. pose proof (ca_regs _ _ _ Hc) as [Hlen _].
  destruct (get_name_resident name s fuel a (ca_ok _ _ _ Hc) (ca_regs _ _ _ Hc) Hres Hnz Hfuel (ca_a1 _ _ _ Hc)) as (v & Hname & Hl).
  exists v. split; [done|]. cbv zeta. rewrite (handler_call _ _ _ _ _ Hc). pose proof (looked_at_length _ _ Hlen Hl) as Hlen'.
  transitivity (sc_Open fuel s); [reflexivity|]. unfold sc_Open. rewrite (bind_ok _ _ _ _ _ Hname).
  destruct (Open _ fs (next_address s) (sys_disk s)) as [[[f|] d]|w] eqn:E;
    [| |apply bind_stop, on_files_stop; exact E];
    (erewrite bind_ok by (apply on_files_ok; exact E)); cbv beta iota; (erewrite bind_ok by reflexivity);
    (erewrite bind_ok by (apply (zoom_ok machine_lens), write_register_ok; [exact Hlen'|lia]));
    (rewrite advance_ok by (cbn; by rewrite length_insert)); done.
Qed.

(** [SC_Write] after its copy from user memory. *)
Lemma write_call_copies fuel junk s a data fd :
  calling s SC_Write a -> resident (sys_vm s) a data ->
  registers (vm_machine (sys_vm s)) !! 5%nat = Some (Z.of_nat (length data)) ->
  registers (vm_machine (sys_vm s)) !! 6%nat = Some fd ->
  exists v, looked_at (sys_vm s) v /\ length (registers (vm_machine v)) = 40%nat /\
    ExceptionHandler fuel junk SyscallException s =
      (_ ← (if negb (fd =? 1) then
           f ← file_at_address fd;
           '(f, _) ← on_files (fun e => OpenFile.Write (new_buf e 0) (time_now e) f data (Z.of_nat (length data)));
           put_file fd f
         else modify (fun s => set_stdout (stdout s ++ data) s));
       advance) (set_sys_vm v s).
Proof.
  intros Hc Hres Hlen Hfd. pose proof (ca_regs _ _ _ Hc) as [Hl40 _].
  destruct (copy_in_resident data s a junk (ca_ok _ _ _ Hc) (ca_regs _ _ _ Hc) Hres) as (v & Hcopy & Hl).
  exists v. split; [done|]. split; [exact (looked_at_length _ _ Hl40 Hl)|]. rewrite (handler_call _ _ _ _ _ Hc).
  transitivity (sc_Write junk s); [reflexivity|].
  unfold sc_Write. rewrite (bind_ok _ _ _ _ _ (arg_ok 4 a s (ca_a1 _ _ _ Hc) ltac:(lia))).
  rewrite (bind_ok _ _ _ _ _ (arg_ok 5 _ s Hlen ltac:(lia))), (bind_ok _ _ _ _ _ (arg_ok 6 _ s Hfd ltac:(lia))).
  rewrite (proj2 (Z.ltb_ge _ _)) by lia. by rewrite Nat2Z.id, (bind_ok _ _ _ _ _ Hcopy).
Qed.
Lemma file_at_address_ok fd f s : open_files s !! fd = Some f -> file_at_address fd s = Ok (f, s).
Proof. intros H. unfold file_at_address. munfold. unfold gets. cbn. by rewrite H. Qed.

(** ... to a file. *)
Lemma write_call_file fuel junk s a data fd f f' n d :
  calling s SC_Write a -> resident (sys_vm s) a data ->
  registers (vm_machine (sys_vm s)) !! 5%nat = Some (Z.of_nat (length data)) ->
  registers (vm_machine (sys_vm s)) !! 6%nat = Some fd -> fd <> 1 -> open_files s !! fd = Some f ->
  OpenFile.Write (new_buf env 0) (time_now env) f data (Z.of_nat (length data)) (sys_disk s) = Ok ((f', n), d) ->
  exists v, looked_at (sys_vm s) v /\ ExceptionHandler fuel junk SyscallException s =
    Ok (tt, set_sys_vm (past v) (set_open_files (<[fd := f']> (open_files s)) (set_sys_disk d s))).
Proof.
  intros Hc Hres Hlen Hfd Hne Hf Hrun. destruct (write_call_copies fuel junk s a data fd Hc Hres Hlen Hfd) as (v & Hl & Hl40 & ->).
  exists v. split; [done|]. rewrite (proj2 (Z.eqb_neq _ _)) by done. cbn [negb].
  rewrite (bind_ok _ _ _ tt (set_open_files (<[fd := f']> (open_files s)) (set_sys_disk d (set_sys_vm v s)))).
  { by rewrite advance_ok by exact Hl40. }
  rewrite (bind_ok _ _ _ f (set_sys_vm v s)) by (by apply file_at_address_ok).
  erewrite bind_ok by (apply on_files_ok; exact Hrun). done.
Qed.

(** [SC_Write] of a buffer whose pages are in main memory: exactly the user's
    bytes go to the console when the descriptor is 1, else to [OpenFile::Write] on the
    file at that address; the user's memory is as it was, and the program continues
    after the call. *)
Lemma write_call_passes_user_bytes fuel junk s a data fd :
  calling s SC_Write a -> resident (sys_vm s) a data ->
  registers (vm_machine (sys_vm s)) !! 5%nat = Some (Z.of_nat (length data)) ->
  registers (vm_machine (sys_vm s)) !! 6%nat = Some fd ->
  exists v, looked_at (sys_vm s) v /\
    ExceptionHandler fuel junk SyscallException s =
      if fd =? 1 then Ok (tt, set_sys_vm (past v) (set_stdout (stdout s ++ data) s))
      else match open_files s !! fd with
           | None => Stop Undefined
           | Some f =>
               match OpenFile.Write (new_buf env 0) (time_now env) f data (Z.of_nat (length data)) (sys_disk s) with
               | Ok ((f', _), d) =>
                   Ok (tt, set_sys_vm (past v) (set_open_files (<[fd := f']> (open_files s)) (set_sys_disk d s)))
               | Stop w => Stop w
               end
           end.
Proof.
  intros Hc Hres Hlen Hfd. destruct (open_files s !! fd) as [f|] eqn:Hf.
  2:{ destruct (write_call_copies fuel junk s a data fd Hc Hres Hlen Hfd) as (v & Hl & Hl40 & ->). exists v. split; [done|].
      destruct (fd =? 1); cbn [negb].
      - erewrite bind_ok by reflexivity. by rewrite advance_ok by exact Hl40.
      - apply bind_stop, bind_stop. unfold file_at_address. munfold. unfold gets. cbn. by rewrite Hf. }
  destruct (OpenFile.Write (new_buf env 0) (time_now env) f data (Z.of_nat (length data)) (sys_disk s)) as [[[f' n] d]|w] eqn:E.
  - destruct (Z.eqb_spec fd 1) as [->|Hne]; [|by eapply write_call_file].
    destruct (write_call_copies fuel junk s a data 1 Hc Hres Hlen Hfd) as (v & Hl & Hl40 & ->). exists v. split; [done|].
    cbn [negb Z.eqb Pos.eqb]. erewrite bind_ok by reflexivity. by rewrite advance_ok by exact Hl40.
  - destruct (write_call_copies fuel junk s a data fd Hc Hres Hlen Hfd) as (v & Hl & Hl40 & ->). exists v. split; [done|].
    destruct (fd =? 1); cbn [negb].
    + erewrite bind_ok by reflexivity. by rewrite advance_ok by exact Hl40.
    + apply bind_stop. rewrite (bind_ok _ _ _ f (set_sys_vm v s)) by (by apply file_at_address_ok).
      apply bind_stop, on_files_stop. exact E.
Qed.

Lemma getchars_spec n input data rest : getchars n input = (data, rest) ->
  length data = n /\ data = take n (input ++ replicate n 255) /\ rest = drop n input.
Proof.
  revert input data rest. induction n as [|n IH]; intros input data rest H; cbn [getchars] in H.
  { injection H as <- <-. by rewrite take_0. }
  destruct input as [|b input].
  - destruct (getchars n []) as [d r] eqn:E. injection H as <- <-. destruct (IH _ _ _ E) as (A & B & C). cbn.
    split; [lia|]. cbn [app] in B. rewrite take_replicate, Nat.min_id in B |- *. by rewrite B, C, drop_nil.
  - destruct (getchars n input) as [d r] eqn:E. injection H as <- <-. destruct (IH _ _ _ E) as (A & B & C). cbn.
    split; [lia|]. split; [|done]. f_equal. rewrite B. destruct (decide (n <= length input)%nat).
    + by rewrite !take_app_le by done.
    + change (255 :: replicate n 255) with (replicate (S n) 255). rewrite !take_app_ge, !take_replicate by lia.
      f_equal. f_equal. lia.
Qed.

(** [SC_Read] once it has its bytes. *)
Lemma read_call_stores fuel junk s a len fd data s1 :
  calling s SC_Read a -> 0 <= len -> resident_buffer (sys_vm s) a len ->
  registers (vm_machine (sys_vm s)) !! 5%nat = Some len ->
  registers (vm_machine (sys_vm s)) !! 6%nat = Some fd ->
  (if negb (fd =? 0) then
     f ← file_at_address fd;
     '(f, (_, data)) ← on_files (fun e => OpenFile.Read (time_now e) f len);
     _ ← put_file fd f;
     mret data
   else
     input ← gets stdin;
     let '(data, input) := getchars (Z.to_nat len) input in
     _ ← modify (set_stdin input);
     mret data) s = Ok (data, s1) ->
  sys_vm s1 = sys_vm s -> Z.of_nat (length data) <= len -> Forall is_byte data ->
  exists v, stored_at a data (sys_vm s) v /\
    ExceptionHandler fuel junk SyscallException s =
      Ok (tt, set_sys_vm (past (returning v (Z.of_nat (length data)))) s1).
Proof.
  intros Hc Hpos Hbuf Hlen Hfd Hget Hvm Hle Hbytes. pose proof (ca_regs _ _ _ Hc) as [Hl40 _].
  destruct (copy_out_resident data s1 a) as (v & Hout & Hst); rewrite ?Hvm; [apply Hc|apply Hc| |done|].
  { destruct Hbuf as (B1 & B2 & B3). split; [lia|]. split; [lia|]. intros k Hk. apply B3. lia. }
  rewrite Hvm in Hst. exists v. split; [done|]. rewrite (handler_call _ _ _ _ _ Hc).
  transitivity (sc_Read s); [reflexivity|]. unfold sc_Read.
  rewrite (bind_ok _ _ _ _ _ (arg_ok 4 a s (ca_a1 _ _ _ Hc) ltac:(lia))).
  rewrite (bind_ok _ _ _ _ _ (arg_ok 5 _ s Hlen ltac:(lia))), (bind_ok _ _ _ _ _ (arg_ok 6 _ s Hfd ltac:(lia))).
  rewrite (proj2 (Z.ltb_ge _ _)) by lia. rewrite (bind_ok _ _ _ _ _ Hget), (bind_ok _ _ _ _ _ Hout).
  assert (Hl : length (registers (vm_machine v)) = 40%nat) by (by rewrite (st_regs _ _ _ _ Hst)).
  erewrite bind_ok by (apply (zoom_ok machine_lens), write_register_ok; [exact Hl|lia]).
  rewrite advance_ok by (cbn; by rewrite length_insert). done.
Qed.

(** ... from a file. *)
Lemma read_call_file fuel junk s a len fd f f' n data d :
  calling s SC_Read a -> 0 <= len -> resident_buffer (sys_vm s) a len ->
  registers (vm_machine (sys_vm s)) !! 5%nat = Some len ->
  registers (vm_machine (sys_vm s)) !! 6%nat = Some fd -> fd <> 0 -> open_files s !! fd = Some f ->
  OpenFile.Read (time_now env) f len (sys_disk s) = Ok ((f', (n, data)), d) ->
  Z.of_nat (length data) <= len -> Forall is_byte data ->
  exists v, stored_at a data (sys_vm s) v /\
    ExceptionHandler fuel junk SyscallException s =
      Ok (tt, set_sys_vm (past (returning v (Z.of_nat (length data))))
                (set_open_files (<[fd := f']> (open_files s)) (set_sys_disk d s))).
Proof.
  intros Hc Hpos Hbuf Hlen Hfd Hne Hf Hrd Hle Hb. eapply read_call_stores; try done.
  rewrite (proj2 (Z.eqb_neq _ _)) by done. cbn [negb].
  rewrite (bind_ok _ _ _ f s) by (by apply file_at_address_ok). erewrite bind_ok by (apply on_files_ok; exact Hrd). done.
Qed.

(** [SC_Read] into a buffer whose pages are in main memory: the bytes that
    [OpenFile::Read] returns, or for descriptor 0 the next characters of the console
    (255 after its end), are what the user's buffer then holds; nothing else of any
    thread's memory changes; [r2] is their number, and the program continues after
    the call. *)
Lemma read_call_fills_user_buffer fuel junk s a len fd data s1 :
  calling s SC_Read a -> 0 <= len -> resident_buffer (sys_vm s) a len ->
  registers (vm_machine (sys_vm s)) !! 5%nat = Some len ->
  registers (vm_machine (sys_vm s)) !! 6%nat = Some fd ->
  (fd = 0 /\ data = take (Z.to_nat len) (stdin s ++ replicate (Z.to_nat len) 255) /\
     s1 = set_stdin (drop (Z.to_nat len) (stdin s)) s \/
   fd <> 0 /\ exists f f' n d, open_files s !! fd = Some f /\
     OpenFile.Read (time_now env) f len (sys_disk s) = Ok ((f', (n, data)), d) /\
     Z.of_nat (length data) <= len /\ s1 = set_open_files (<[fd := f']> (open_files s)) (set_sys_disk d s)) ->
  Forall is_byte data ->
  exists v, stored_at a data (sys_vm s) v /\
    ExceptionHandler fuel junk SyscallException s =
      Ok (tt, set_sys_vm (past (returning v (Z.of_nat (length data)))) s1).
Proof.
  intros Hc Hpos Hbuf Hlen Hfd [(-> & Hd & ->)|(Hne & f & f' & n & d & Hf & Hrd & Hle & ->)] Hbytes; [|by eapply read_call_file].
  eapply read_call_stores; try done.
  - cbn [negb Z.eqb]. erewrite bind_ok by reflexivity. destruct (getchars (Z.to_nat len) (stdin s)) as [d r] eqn:E.
    destruct (getchars_spec _ _ _ _ E) as (E1 & E2 & ->). subst d. rewrite <- Hd in *. done.
  - rewrite Hd, length_take, length_app, length_replicate. lia.
Qed.

(** The system calls ignore that an access to user memory failed: a write of
    one byte whose page has to be brought in prints what an uninitialised variable
    holds instead of the user's byte, which the fault has made available, and
    reports nothing. *)
Lemma faulting_write_loses_byte fuel junk s a b :
  (forall n, 0 <= Random n) -> calling s SC_Write a ->
  registers (vm_machine (sys_vm s)) !! 5%nat = Some 1 ->
  registers (vm_machine (sys_vm s)) !! 6%nat = Some 1 ->
  tlb (vm_machine (sys_vm s)) = None ->
  has_page (sys_vm s) (vm_tid (sys_vm s)) (u32 a / 128) ->
  mapping (sys_vm s) (vm_tid (sys_vm s)) (u32 a / 128) = None ->
  vbyte (sys_vm s) (vm_tid (sys_vm s)) (u32 a) = Some b ->
  exists s', ExceptionHandler fuel junk SyscallException s = Ok (tt, s') /\
    stdout s' = stdout s ++ [junk mod 256] /\ vbyte (sys_vm s') (vm_tid (sys_vm s')) (u32 a) = Some b /\
    is_Some (mapping (sys_vm s') (vm_tid (sys_vm s')) (u32 a / 128)).
Proof.
  intros Hrand Hc H5 H6 Ht Hp Hm Hb.
  destruct (read_miss (fun _ => halt AssertFailed) a s (ca_ok _ _ _ Hc) (ca_regs _ _ _ Hc) Ht Hp Hm Hrand)
    as (v & Hread & [U1 [U2 _] U3 _] & [i Hi] & Hvb).
  rewrite (handler_call _ _ _ _ _ Hc).
  assert (Hcopy : copy_in (Z.to_nat 1) a junk s = Ok ([junk mod 256], set_sys_vm v s)).
  { change (Z.to_nat 1) with 1%nat. cbn [copy_in]. unfold read_char.
    erewrite bind_ok; [|rewrite (bind_ok _ _ _ _ _ Hread); reflexivity]. done. }
  exists (set_sys_vm (past v) (set_stdout (stdout s ++ [junk mod 256]) s)). split.
  - transitivity (sc_Write junk s); [reflexivity|]. unfold sc_Write.
    rewrite (bind_ok _ _ _ _ _ (arg_ok 4 a s (ca_a1 _ _ _ Hc) ltac:(lia))).
    rewrite (bind_ok _ _ _ _ _ (arg_ok 5 _ s H5 ltac:(lia))), (bind_ok _ _ _ _ _ (arg_ok 6 _ s H6 ltac:(lia))).
    rewrite (proj2 (Z.ltb_ge _ _)) by lia. rewrite (bind_ok _ _ _ _ _ Hcopy). erewrite bind_ok by reflexivity.
    rewrite advance_ok by exact U2. done.
  - split; [done|]. cbn [sys_vm set_sys_vm]. change (vm_tid (past v)) with (vm_tid v). rewrite U3.
    split; [|exists i; exact Hi]. change (vbyte v (vm_tid (sys_vm s)) (u32 a) = Some b).
    pose proof (u32_range a) as Hu. unfold is_u32 in Hu. rewrite Hvb by lia. done.
Qed.
End Syscalls.

(** The registers of a call. *)
Definition with_args (n a1 a2 a3 : Z) (v : Vm) : Vm :=
  set_vm_machine (set_registers (<[2%nat := n]> (<[4%nat := a1]> (<[5%nat := a2]> (<[6%nat := a3]>
    (registers (vm_machine v)))))) (vm_machine v)) v.

Lemma calling_with_args {D} (s : Sys D) v n a1 a2 a3 : sys_vm s = with_args n a1 a2 a3 v -> vm_ok v -> regs_ok (vm_machine v) ->
  calling s n a1 /\
  registers (vm_machine (with_args n a1 a2 a3 v)) !! 5%nat = Some a2 /\
  registers (vm_machine (with_args n a1 a2 a3 v)) !! 6%nat = Some a3.
Proof.
  intros Hs Hv [Hl (r & Hr & Hrange)].
  assert (Hsplit : forall k, (registers (vm_machine (with_args n a1 a2 a3 v))) !! k =
    (<[2%nat := n]> (<[4%nat := a1]> (<[5%nat := a2]> (<[6%nat := a3]> (registers (vm_machine v)))))) !! k) by done.
  split; [split; rewrite Hs; [by destruct Hv| | |]|split].
  - split; [by cbn; rewrite !length_insert|]. exists r. rewrite Hsplit, !list_lookup_insert_ne by done. done.
  - rewrite Hsplit. apply list_lookup_insert_eq. rewrite !length_insert. lia.
  - rewrite Hsplit, list_lookup_insert_ne by done. apply list_lookup_insert_eq. rewrite !length_insert. lia.
  - rewrite Hsplit, !list_lookup_insert_ne by done. apply list_lookup_insert_eq. rewrite !length_insert. lia.
  - rewrite Hsplit, !list_lookup_insert_ne by done. apply list_lookup_insert_eq. lia.
Qed.

(** ** Witnesses

    One thread, 7, with a page of memory that holds a name and a word.  The threads are
    an instance of the interface with no second thread, to run single calls on: a thread
    that is forked never runs, and the end of the only one stops the machine.  The
    kernel's own threads are in [Kernel.v]. *)

Import PlainDisk.

#[local] Instance one_thread : ThreadOps (Sys image) := {|
  thread_finish := halt Halted;
  thread_yield := mret tt;
  id_occupied := fun _ => mret false;
  fork_user := fun _ => mret 1
|}.

Definition call_image : list Z := [97; 0; 104; 105] ++ replicate 252 0.
Definition call_start : Vm :=
  MkVm (new_machine false 0 0) {[0%nat := call_image]} {[7 := 0%nat]} 7 UserMode 0.
Definition call_paged : Vm :=
  match ReverseTableReplace demo_Random 0 call_start with Ok (_, v) => v | Stop _ => call_start end.

Definition call_sys (d : image) (v : Vm) : Sys image := MkSys d v ∅ (mem env0) 2000 ∅ [111; 107] [33].

Lemma call_start_ok : vm_ok call_start /\ regs_ok (vm_machine call_start).
Proof. apply new_machine_ok. intros t t' d. rewrite !lookup_singleton_Some. intros [<- _] [<- _]. done. Qed.
Lemma call_page : has_page call_start 7 0.
Proof. split; [unfold MaxPages; lia|]. exists 0%nat, call_image. done. Qed.
Lemma call_paged_ok : vm_ok call_paged /\ regs_ok (vm_machine call_paged).
Proof.
  destruct (replace_ok demo_Random demo_Random_nonneg call_start 0 (proj1 call_start_ok) call_page
    ltac:(vm_compute; reflexivity)) as (v' & Hrun & Hok & _ & _ & _ & Hregs & _).
  unfold call_paged. rewrite Hrun. split; [exact Hok|]. unfold regs_ok. rewrite Hregs. apply call_start_ok.
Qed.

Lemma call_resident n a1 a2 a3 a data :
  bool_decide (0 <= a /\ a + Z.of_nat (length data) <= 128 /\ take (length data) (drop (Z.to_nat a) call_image) = data /\
    Forall (fun b => 0 <= b < 256) data) = true ->
  resident (with_args n a1 a2 a3 call_paged) a data.
Proof.
  intros (H1 & H2 & H3 & H4)%bool_decide_eq_true. split; [done|]. split; [lia|]. intros k b Hk.
  pose proof (lookup_lt_Some _ _ _ Hk) as Hlt. split; [by eapply (Forall_lookup_1 (fun b => 0 <= b < 256))|].
  assert (Hm : mapping call_paged 7 0 = Some 0) by (vm_compute; reflexivity).
  change (vm_tid (with_args n a1 a2 a3 call_paged)) with (vm_tid call_paged).
  change (vm_tid call_paged) with 7.
  rewrite (Z.div_small (a + Z.of_nat k) 128) by lia. split; [by exists 0|]. unfold vbyte. change PageSize with 128.
  rewrite Z.div_small by lia. change (mapping (with_args n a1 a2 a3 call_paged) 7 0) with (mapping call_paged 7 0).
  rewrite Hm. unfold mem_byte. change PageSize with 128. rewrite Z.mod_small, Z.mul_0_l, Z.add_0_l by lia.
  change (mainMemory (vm_machine call_paged) !! Z.to_nat (a + Z.of_nat k) = Some b).
  assert (Hmem : take 128 (mainMemory (vm_machine call_paged)) = take 128 call_image) by (vm_compute; reflexivity).
  rewrite <- (lookup_take_lt _ 128), Hmem, lookup_take_lt by lia. rewrite <- H3 in Hk.
  rewrite lookup_take_lt, lookup_drop in Hk by lia. rewrite <- Hk. f_equal. lia.
Qed.

(** No file-system call is made on it. *)
Definition idle_fs : FileSystem := MkFS (MkOpen zero_hdr 0 0) (MkOpen zero_hdr 0 1) (MkOpen zero_hdr 0 2).

