(* ===== verification/Stubs.v ===== *)
(** * System calls from user code: the stubs of [test/start.c]

    A user program calls the kernel through a stub of four instructions: it puts the
    number of the call in register 2, executes [syscall] and returns.  Run by the
    machine's own instructions, it enters [ExceptionHandler] with the number and the
    caller's arguments in their registers, and comes back to the caller with the
    kernel's result. *)

From S2P Require Import Prelude NList Sectors Disk Kernel Syscalls Machine Paging Mips MipsFacts MipsAlu MipsTrap.

(** ** [start.c] *)

Definition addiu (rt rs imm : Z) : Z := 9 * 2 ^ 26 + rs * 2 ^ 21 + rt * 2 ^ 16 + imm.
Definition addu (rd rs rt : Z) : Z := rs * 2 ^ 21 + rt * 2 ^ 16 + rd * 2 ^ 11 + 33.
Definition syscall : Z := 12.
Definition jal (address : Z) : Z := 3 * 2 ^ 26 + address / 4.
Definition jr (rs : Z) : Z := rs * 2 ^ 21 + 8.
Definition nop : Z := 0.

(** The stub of the call [number]; the assembler fills the delay slot of [j $31]. *)
Definition stub (number : Z) : list Z := [addiu 2 0 number; syscall; jr 31; nop].

(** The stubs in their order, which is that of the numbers. *)
Definition stubs : list Z :=
  [SC_Halt; SC_Exit; SC_Exec; SC_Join; SC_Create; SC_Open; SC_Read; SC_Write; SC_Close; SC_Fork; SC_Yield].
Definition stub_address (number : Z) : Z := 16 + 16 * number.

(** [__start], whose [move $4,$0] the assembler puts in the delay slot of the second
    [jal], the stubs and [__main]; [main] is the address of [main]. *)
Definition start_code (main : Z) : list Z :=
  [jal main; nop; jal (stub_address SC_Exit); addu 4 0 0] ++ (stubs ≫= stub) ++ [jr 31; nop; nop; nop].

(** ** The machine's part *)

Section Stub.
Context {W : Type} `{HostLaws W} (a n : Z) (Hn : 0 <= n <= 10) (Ha : 0 <= a < 2 ^ 31 - 32).

(** The stub's code is at [a]: it can be fetched, whatever the registers hold. *)
Context (Code : W -> Prop).
Context (code_fetch : forall w k x, Code w -> stub n !! k = Some x ->
  exists m', ReadMem (a + 4 * Z.of_nat k) 4 w = Ok (Some (i32 x), lset machine m' w) /\
    registers m' = registers (lget machine w) /\ Code (lset machine m' w)).
Context (code_regs : forall w rs, Code w -> regs_wf (set_registers rs (lget machine w)) ->
  Code (lset machine (set_registers rs (lget machine w)) w)).
Context (code_status : forall w st, Code w -> Code (setStatus st w)).
Context (status_machine : forall w st, lget machine (setStatus st w) = lget machine w).

#[local] Abbreviation R w k := (rv (lget machine w) k).

(** At the [k]th word of the stub, with no load in progress. *)
Record at_word (w : W) (k : nat) : Prop := {
  aw_code : Code w;
  aw_wf : regs_wf (lget machine w);
  aw_pc : R w PCReg = a + 4 * Z.of_nat k;
  aw_zero : R w 0 = 0;
  aw_load : R w LoadReg = 0
}.

Lemma stub_fetch w k x i : at_word w k -> stub n !! k = Some x -> Decode (u32 (i32 x)) = Ok i ->
  exists m', OneInstruction w = execute i (lset machine m' w) /\ registers m' = registers (lget machine w) /\ Code (lset machine m' w).
Proof.
  intros Hw Hx Hi. destruct (code_fetch w k x (aw_code _ _ Hw) Hx) as (m' & Hr & Hm & Hc). exists m'. split; [|done].
  unfold OneInstruction. rewrite on_reg by (done || apply Hw). rewrite (aw_pc _ _ Hw), (bind_ok _ _ _ _ _ Hr). cbv beta iota.
  by rewrite (bind_ok _ _ _ _ _ (lift_ok _ _ _ Hi)).
Qed.

(** An instruction of the stub that is not [syscall]. *)
Lemma stub_step w k x i e : at_word w k -> stub n !! k = Some x -> Decode (u32 (i32 x)) = Ok i ->
  decoded i -> permitted i (lget machine w) -> register_op (opCode i) = true -> simulated i (lget machine w) = Some e ->
  exists m' w', OneInstruction w = Ok (tt, w') /\ w' = lset machine (after m' e) w /\ registers m' = registers (lget machine w) /\
    Code w' /\ regs_wf (lget machine w').
Proof.
  intros Hw Hx Hi Hdec Hper Hop He. destruct (stub_fetch w k x i Hw Hx Hi) as (m' & Hrun & Hm & Hc).
  pose proof (wf_same _ m' Hm (aw_wf _ _ Hw)) as Hwf.
  assert (He' : simulated i m' = Some e).
  { rewrite <- He. unfold simulated, manual. by rewrite !(rv_same (lget machine w) m' _ Hm). }
  assert (Hper' : permitted i m').
  { revert Hper. unfold permitted. by rewrite !(rv_same (lget machine w) m' _ Hm). }
  rewrite execute_register in Hrun; rewrite ?machine_get_set; try done. rewrite machine_get_set, He', machine_set_set in Hrun.
  assert (Hwf' : regs_wf (after m' e)).
  { destruct (simulated_wf i m' e Hwf Hdec Hper' He') as [Hws Hpc]. 
    exact (proj2 (finish_ok (wrote m' (writes e)) 0 0 (pc_after e) (apply_writes_wf _ _ Hwf Hws) ltac:(lia) ltac:(done) Hpc)). }
  exists m', (lset machine (after m' e) w). rewrite machine_get_set. split_and!; try done.
  replace (lset machine (after m' e) w) with (lset machine (set_registers (registers (after m' e)) (lget machine (lset machine m' w))) (lset machine m' w)).
  - apply code_regs; [done|]. rewrite machine_get_set. exact Hwf'.
  - by rewrite machine_get_set, machine_set_set.
Qed.

(** Where an instruction of the stub leads, register by register: [j] is one it does
    not write. *)
Lemma after_regs m m' e j : regs_wf m -> rv m LoadReg = 0 -> registers m' = registers m -> Forall (fun w => 0 <= fst w < 34) (writes e) ->
  0 <= j < 40 ->
  rv (after m' e) j =
    if j =? NextPCReg then pc_after e else if j =? PCReg then rv m NextPCReg else if j =? PrevPCReg then rv m PCReg
    else if (j =? 0) || (j =? LoadReg) || (j =? LoadValueReg) then 0 else apply_writes (writes e) (registers m) !!! Z.to_nat j.
Proof.
  intros Hwf Hload Hm Hws Hj. unfold after, rv. cbn [registers set_registers]. rewrite Hm.
  assert (Hl : forall rs, length (apply_writes (writes e) rs) = length rs).
  { clear. unfold apply_writes. induction (writes e) as [|w ws IH]; intros rs; [done|]. cbn [foldl]. by rewrite IH, length_insert. }
  assert (Hk : forall k, (34 <= k)%nat -> forall rs, apply_writes (writes e) rs !!! k = rs !!! k).
  { clear -Hws. intros k Hk. unfold apply_writes. induction Hws as [|w ws Hw _ IH]; intros rs; [done|]. cbn [foldl].
    rewrite IH. apply list_lookup_total_insert_ne. lia. }
  rewrite retire_regs; [|by rewrite Hl, (rw_len _ Hwf)|rewrite Hk by lia; exact Hload|lia]. rewrite (Hk 35%nat), (Hk 34%nat) by lia.
  unfold NextPCReg, PCReg, PrevPCReg, LoadReg, LoadValueReg in *.
  repeat case_decide; repeat match goal with |- context [?x =? ?y] => destruct (Z.eqb_spec x y) end; cbn [orb]; try lia; done.
Qed.

(** One instruction of the stub: where it leads, and the program's registers. *)
Record moved (w w' : W) (e : Effect) : Prop := {
  mv_code : Code w';
  mv_wf : regs_wf (lget machine w');
  mv_pc : R w' PCReg = R w NextPCReg;
  mv_next : R w' NextPCReg = pc_after e;
  mv_zero : R w' 0 = 0;
  mv_load : R w' LoadReg = 0;
  mv_regs : forall j, 0 < j < 34 -> R w' j = apply_writes (writes e) (registers (lget machine w)) !!! Z.to_nat j
}.

Lemma stub_move w k x i e : at_word w k -> stub n !! k = Some x -> Decode (u32 (i32 x)) = Ok i ->
  decoded i -> permitted i (lget machine w) -> register_op (opCode i) = true -> simulated i (lget machine w) = Some e ->
  Forall (fun p => 0 <= fst p < 34) (writes e) ->
  exists w', OneInstruction w = Ok (tt, w') /\ moved w w' e.
Proof.
  intros Hw Hx Hi Hdec Hper Hop He Hws.
  destruct (stub_step w k x i e Hw Hx Hi Hdec Hper Hop He) as (m' & w' & Hrun & E & Hm & Hc & Hwf).
  exists w'. split; [exact Hrun|]. assert (Hget : lget machine w' = after m' e) by (by rewrite E, machine_get_set).
  pose proof (fun j => after_regs (lget machine w) m' e j (aw_wf _ _ Hw) (aw_load _ _ Hw) Hm Hws) as Hr.
  split; try done; rewrite ?Hget, ?Hr by done; try done.
  intros j Hj. rewrite ?Hget, Hr by lia. unfold NextPCReg, PCReg, PrevPCReg, LoadReg, LoadValueReg.
  repeat match goal with |- context [?x =? ?y] => destruct (Z.eqb_spec x y); [lia|] end. done.
Qed.

Lemma decode_addiu : Decode (u32 (i32 (addiu 2 0 n))) = Ok (MkInstr (addiu 2 0 n) OP_ADDIU 0 2 0 n).
Proof.
  assert (Hc : In n (seqZ 0 11)) by (apply list_elem_of_In, elem_of_seqZ; lia).
  repeat (destruct Hc as [<-|Hc]; [vm_compute; reflexivity|]). destruct Hc.
Qed.

(** [addiu $2,$0,number]. *)
Lemma stub_number w : at_word w 0 -> R w NextPCReg = a + 4 ->
  exists w', OneInstruction w = Ok (tt, w') /\ at_word w' 1 /\ R w' NextPCReg = a + 8 /\
    forall j, 0 < j < 34 -> R w' j = if j =? 2 then n else R w j.
Proof.
  intros Hw Hnext. destruct (stub_move w 0 (addiu 2 0 n) _ (MkEffect [(2, n)] (a + 8)) Hw eq_refl decode_addiu)
    as (w' & Hrun & Hmv); try done.
  { split_and!; cbn; lia. }
  { unfold simulated, manual. cbn [opCode rs rt rd extra]. rewrite (aw_zero _ _ Hw), Hnext, Z.add_0_l.
    rewrite (i32_id n), (i32_id (a + 4 + 4)) by (unfold is_i32; lia). by rewrite <- Z.add_assoc. }
  { by repeat constructor. }
  exists w'. split; [exact Hrun|]. destruct Hmv as [M1 M2 M3 M4 M5 M6 M7]. split_and!; [split; try done; by rewrite M3, Hnext|done|].
  intros j Hj. rewrite (M7 j Hj). cbn [writes apply_writes foldl fst snd]. destruct (Z.eqb_spec j 2) as [->|Hne].
  - apply list_lookup_total_insert_eq. rewrite (rw_len _ (aw_wf _ _ Hw)). lia.
  - apply list_lookup_total_insert_ne. lia.
Qed.

(** [j $31] and the instruction in its delay slot. *)
Lemma stub_return w : at_word w 2 -> R w NextPCReg = a + 12 ->
  exists w', rounds (mret tt) 2 w = Ok (tt, w') /\ Code w' /\ R w' PCReg = R w 31 /\ R w' NextPCReg = i32 (R w 31 + 4) /\
    forall j, 0 < j < 34 -> R w' j = R w j.
Proof.
  intros Hw Hnext. destruct (stub_move w 2 (jr 31) (MkInstr (jr 31) OP_JR 31 0 0 0) (MkEffect [] (R w 31)) Hw eq_refl eq_refl)
    as (w1 & Hrun & [M1 M2 M3 M4 M5 M6 M7]); try done.
  assert (H1 : at_word w1 3) by (split; try done; by rewrite M3, Hnext).
  destruct (stub_move w1 3 nop (MkInstr 0 OP_SLL 0 0 0 0) (MkEffect [(0, 0)] (i32 (R w 31 + 4))) H1 eq_refl eq_refl)
    as (w2 & Hrun2 & [N1 N2 N3 N4 N5 N6 N7]); try done.
  { unfold simulated, manual. cbn [opCode rs rt rd extra]. by rewrite M4, M5. }
  { by repeat constructor. }
  exists w2. split.
  - cbn [rounds]. rewrite (bind_ok _ _ _ _ _ Hrun). erewrite bind_ok by done. rewrite (bind_ok _ _ _ _ _ Hrun2). by erewrite bind_ok by done.
  - rewrite N3, N4, M4. split_and!; try done. intros j Hj. rewrite (N7 j Hj). cbn [writes apply_writes foldl fst snd].
    rewrite list_lookup_total_insert_ne by lia. exact (M7 j Hj).
Qed.

(** What the kernel finds: the program's registers, and no load in progress. *)
Record entered (w wh : W) : Prop := {
  en_code : Code wh;
  en_wf : regs_wf (lget machine wh);
  en_zero : R wh 0 = 0;
  en_load : R wh LoadReg = 0;
  en_pc : R wh PCReg = R w PCReg /\ R wh NextPCReg = R w NextPCReg;
  en_regs : forall j, 0 < j < 34 -> R wh j = R w j
}.

(** [syscall]: the kernel is entered. *)
Lemma stub_enter w : at_word w 1 ->
  exists m, entered w (setStatus SystemMode (lset machine m w)) /\
    OneInstruction w = (_ ← ExceptionHandler SyscallException; modify (setStatus UserMode)) (setStatus SystemMode (lset machine m w)).
Proof.
  intros Hw. destruct (stub_fetch w 1 syscall (MkInstr 12 OP_SYSCALL 0 0 0 0) Hw eq_refl eq_refl) as (m' & -> & Hm & Hc).
  pose proof (wf_same _ m' Hm (aw_wf _ _ Hw)) as Hwf. pose proof (fun k => rv_same _ m' k Hm) as Hs.
  assert (Hload : rv m' LoadReg = 0) by (rewrite Hs; apply Hw).
  destruct (trapped_ok m' 0 Hwf ltac:(done) Hload) as [Hwf2 Hregs]. exists (trapped m' 0). split.
  - split; rewrite ?status_machine, ?machine_get_set; rewrite ?Hregs by done; rewrite ?Hs; try done.
    + apply code_status.
      replace (lset machine (trapped m' 0) w)
        with (lset machine (set_registers (registers (trapped m' 0)) (lget machine (lset machine m' w))) (lset machine m' w))
        by (by rewrite machine_get_set, machine_set_set).
      apply code_regs; [done|]. by rewrite machine_get_set.
    + intros j Hj. rewrite Hregs by lia. unfold LoadReg, LoadValueReg.
      repeat match goal with |- context [?x =? ?y] => destruct (Z.eqb_spec x y); [lia|] end. apply Hs.
  - unfold execute. rewrite on_reg by (rewrite ?machine_get_set; done). cbn [opCode].
    rewrite raise_enters by (rewrite ?machine_get_set; done). by rewrite machine_get_set, machine_set_set.
Qed.

End Stub.

(** ** On the paged machine *)

Section OnVm.
Context (Random : nat -> Z) (others : ExceptionType -> M Vm unit).
#[local] Instance paged : Host Vm := vm_host Random others.
#[local] Instance paged_laws : HostLaws Vm := vm_host_laws Random others.

(** The stub of call [n] is in the running thread's memory, in the page frame [i], and
    memory is as in [v0]. *)
Record stub_loaded (v0 : Vm) (n i : Z) (v : Vm) : Prop := {
  sl_ok : vm_ok v;
  sl_regs : regs_wf (vm_machine v);
  sl_tid : vm_tid v = vm_tid v0;
  sl_page : mapping v (vm_tid v) (stub_address n / PageSize) = Some i;
  sl_same : forall t b, vbyte v t b = vbyte v0 t b;
  sl_code : forall k : nat, (k < 16)%nat -> vbyte v (vm_tid v) (stub_address n + Z.of_nat k) = (stub n ≫= le_bytes 4) !! k
}.

Lemma stub_in_page n k : 0 <= n <= 10 -> 0 <= k < 16 -> (stub_address n + k) / 128 = stub_address n / 128.
Proof. unfold stub_address. intros. Z.to_euclidean_division_equations. lia. Qed.

Lemma words_lookup (l : list Z) k x j : l !! k = Some x -> (j < 4)%nat -> (l ≫= le_bytes 4) !! (4 * k + j)%nat = le_bytes 4 x !! j.
Proof.
  revert k. induction l as [|y l IH]; intros [|k] Hx Hj; try done; rewrite bind_cons.
  - injection Hx as ->. apply lookup_app_l. rewrite length_le_bytes. lia.
  - rewrite lookup_app_r, length_le_bytes by (rewrite length_le_bytes; lia).
    replace (4 * S k + j - 4)%nat with (4 * k + j)%nat by lia. by apply IH.
Qed.

Lemma loaded_fetch v0 n i (Hn : 0 <= n <= 10) v k x : stub_loaded v0 n i v -> stub n !! k = Some x ->
  exists m', ReadMem (stub_address n + 4 * Z.of_nat k) 4 v = Ok (Some (i32 x), set_vm_machine m' v) /\
    registers m' = registers (vm_machine v) /\ stub_loaded v0 n i (set_vm_machine m' v).
Proof.
  intros [L1 L2 L3 L4 L5 L6] Hx. assert (Hk : (k < 4)%nat) by (apply lookup_lt_Some in Hx; exact Hx).
  set (ad := stub_address n + 4 * Z.of_nat k). assert (Hu : u32 ad = ad) by (apply u32_id; unfold is_u32, ad, stub_address; lia).
  destruct (read_hit_full Random others v ad 4 i L1) as (bs & m & Hlen & Hrun & Hb & [U1 _ _ _] & Hvb & Hr & _ & Hmap).
  { split; [apply (rw_len _ L2)|]. exists (rv (vm_machine v) LoadReg). split; [by apply (lookup_rv _ LoadReg)|apply (rw_load _ L2)]. }
  { split; [by do 2 right|]. rewrite Hu. exists (4 + 4 * n + Z.of_nat k). unfold ad, stub_address. lia. }
  { rewrite Hu. unfold ad. rewrite stub_in_page by lia. exact L4. }
  assert (E : bs = le_bytes 4 x).
  { apply list_eq_same_length with 4%nat; [by rewrite length_le_bytes|lia|]. intros j b b' Hj Hjb Hjb'. rewrite Hu in Hb.
    specialize (Hb (ad + Z.of_nat j) ltac:(lia)). replace (Z.to_nat (ad + Z.of_nat j - ad)) with j in Hb by lia.
    replace (ad + Z.of_nat j) with (stub_address n + Z.of_nat (4 * k + j)) in Hb by (unfold ad; lia).
    rewrite L6, (words_lookup (stub n) k x j Hx) in Hb by lia. congruence. }
  exists m. split_and!; [etransitivity; [exact (Hrun v eq_refl eq_refl)|]|done|split; try done].
  - do 3 f_equal. rewrite E. unfold as_value. cbn [Z.eqb Pos.eqb]. rewrite le_val_bytes. apply i32_u32.
  - cbn [vm_machine set_vm_machine]. exact (wf_same _ m Hr L2).
  - rewrite Hmap. exact L4.
  - intros t b. by rewrite Hvb.
  - intros j Hj. rewrite Hvb. by apply L6.
Qed.

Lemma loaded_regs v0 n i v rs : stub_loaded v0 n i v -> regs_wf (set_registers rs (vm_machine v)) ->
  stub_loaded v0 n i (set_vm_machine (set_registers rs (vm_machine v)) v).
Proof. intros [[] L2 L3 L4 L5 L6] Hwf. by split. Qed.

Lemma loaded_status v0 n i v st : stub_loaded v0 n i v -> stub_loaded v0 n i (set_vm_mode st v).
Proof. intros [[] L2 L3 L4 L5 L6]. by split. Qed.

(** The program is at the [k]th instruction of the stub, with no load in progress. *)
Definition at_stub (n k : Z) (v : Vm) : Prop :=
  rv (vm_machine v) PCReg = stub_address n + 4 * k /\ rv (vm_machine v) NextPCReg = stub_address n + 4 * (k + 1) /\
  rv (vm_machine v) 0 = 0 /\ rv (vm_machine v) LoadReg = 0.

(** C22. The stubs of [test/start.c]: with the stub of a system call in the calling
    thread's memory, its first two instructions, run by the machine, enter the
    exception handler with the number of the call in register 2, every other general
    register and all of memory as the caller left them, and the program counter at
    the [syscall] instruction; if the handler stops the machine, the machine stops
    there; if it returns having moved the program counter on, the stub returns to
    the address in register 31, and every general register and all of memory are
    what the handler left there. *)
Theorem stub_makes_call n i v :
  0 <= n <= 10 -> stub_loaded v n i v -> at_stub n 0 v ->
  exists vh, stub_loaded v n i vh /\ at_stub n 1 vh /\
    (forall j, 0 < j < 34 -> rv (vm_machine vh) j = if j =? 2 then n else rv (vm_machine v) j) /\
    (forall why, others SyscallException vh = Stop why -> rounds (mret tt) 2 v = Stop why) /\
    forall v2, others SyscallException vh = Ok (tt, v2) -> stub_loaded v2 n i v2 -> at_stub n 2 v2 ->
      exists v', rounds (mret tt) 4 v = Ok (tt, v') /\
        rv (vm_machine v') PCReg = rv (vm_machine v2) 31 /\ rv (vm_machine v') NextPCReg = i32 (rv (vm_machine v2) 31 + 4) /\
        (forall j, 0 < j < 34 -> rv (vm_machine v') j = rv (vm_machine v2) j) /\
        forall t b, vbyte v' t b = vbyte v2 t b.
Proof.
  intros Hn Hv (Hpc & Hnext & H0 & Hl). assert (Ha : 0 <= stub_address n < 2 ^ 31 - 32) by (unfold stub_address; lia).
  pose proof (fun v0 => loaded_fetch v0 n i Hn) as Hf. pose proof (fun v0 => loaded_regs v0 n i) as Hr.
  pose proof (fun v0 => loaded_status v0 n i) as Hs.
  destruct (stub_number _ n Hn Ha (stub_loaded v n i) (Hf v) (Hr v) v) as (v1 & Hrun & H1 & Hn1 & Hr1);
    [split; try done; apply Hv|done|].
  destruct (stub_enter _ n (stub_loaded v n i) (Hf v) (Hr v) (Hs v) (fun _ _ => eq_refl) v1 H1)
    as (m & [E1 E2 E3 E4 [E5 E6] E7] & Hrun1).
  exists (set_vm_mode SystemMode (set_vm_machine m v1)). set (vh := set_vm_mode SystemMode _) in *.
  split_and!; [done|split_and!; [exact (eq_trans E5 (aw_pc _ _ _ _ H1))|exact (eq_trans E6 Hn1)|done|done]| | |].
  - intros j Hj. exact (eq_trans (E7 j Hj) (Hr1 j Hj)).
  - intros why Hstop. cbn [rounds]. rewrite (bind_ok _ _ _ _ _ Hrun). erewrite bind_ok by done.
    apply bind_stop. rewrite Hrun1. by apply bind_stop.
  - intros v2 H2 Hv2 (P2 & N2 & Z2 & L2).
    destruct (stub_return _ n (stub_loaded v2 n i) (Hf v2) (Hr v2) (set_vm_mode UserMode v2)) as (v' & Hret & R1 & R2 & R3 & R4);
      [split; try done; [by apply Hs|apply Hv2]|done|].
    exists v'. split_and!; try done; [|apply R1].
    cbn [rounds]. rewrite (bind_ok _ _ _ _ _ Hrun). erewrite bind_ok by done.
    erewrite bind_ok; [|rewrite Hrun1; by erewrite bind_ok]. erewrite bind_ok by done. exact Hret.
Qed.
End OnVm.

(** ** A call

    A thread whose program is the code of [start.c] calls [Yield] from address 400, after
    the stub's page was brought in; the kernel moves the program counter on. *)
Definition yield_vm : Vm :=
  MkVm (set_registers (<[31%nat := 400]> (<[34%nat := 176]> (<[35%nat := 180]> (replicate 40 0)))) (new_machine false 0 0))
    {[0%nat := (start_code 208 ≫= le_bytes 4) ++ replicate 48 0]} {[7 := 0%nat]} 7 UserMode 0.
Definition return_from_call (v : Vm) : Vm :=
  set_vm_machine (set_registers (<[Z.to_nat PCReg := 184]> (<[Z.to_nat NextPCReg := 188]> (registers (vm_machine v)))) (vm_machine v)) v.
Definition skip_call : ExceptionType -> M Vm unit := fun _ => modify return_from_call.
Definition called_vm : Vm :=
  match @ReadMem Vm (vm_host demo_Random skip_call) 176 4 yield_vm with Ok (_, v) => v | Stop _ => yield_vm end.

Lemma called_vm_ok : vm_ok called_vm.
Proof.
  assert (Hp : forall t t' d, ({[7 := 0%nat]} : gmap Z nat) !! t = Some d -> ({[7 := 0%nat]} : gmap Z nat) !! t' = Some d -> t = t').
  { intros t t' d. rewrite !lookup_singleton_Some. intros [<- _] [<- _]. done. }
  destruct (new_machine_ok false 0 0 (disks yield_vm) (disk_of yield_vm) 7 UserMode 0 Hp) as [H1 H2].
  assert (Hok : vm_ok yield_vm) by (by destruct H1).
  destruct (access_miss demo_Random demo_Random_nonneg skip_call yield_vm 176 4 false Hok) as (v1 & v2 & Ht & Hrun & [Hu _ _ _] & _).
  - split; [done|]. exists 0. split; [done|lia].
  - split; [by do 2 right|]. by exists 44.
  - split; [done|]. eexists _, _. split_and!; [apply lookup_singleton_eq|apply lookup_singleton_eq|vm_compute; discriminate].
  - by vm_compute.
  - assert (E : @ReadMem Vm (vm_host demo_Random skip_call) 176 4 yield_vm = Ok (None, v2)).
    { unfold ReadMem. erewrite bind_ok by done. erewrite bind_ok; [|exact Ht]. cbv beta iota. by rewrite (bind_ok _ _ _ _ _ Hrun). }
    unfold called_vm. by rewrite E.
Qed.

Lemma called_vm_loaded : stub_loaded called_vm 10 0 called_vm.
Proof.
  split; [apply called_vm_ok| |done|by vm_compute|done|].
  - split; [by vm_compute| |by vm_compute]. apply (bool_decide_unpack _). by vm_compute.
  - intros k Hk. do 16 (destruct k as [|k]; [by vm_compute|]). lia.
Qed.

Lemma called_vm_returns v : stub_loaded called_vm 10 0 v -> at_stub 10 1 v ->
  stub_loaded (return_from_call v) 10 0 (return_from_call v) /\ at_stub 10 2 (return_from_call v) /\
  forall j, 0 < j < 34 -> rv (vm_machine (return_from_call v)) j = rv (vm_machine v) j.
Proof.
  intros Hv (_ & _ & H0 & Hl). pose proof (sl_regs _ _ _ _ Hv) as Hw.
  pose proof (regs_wf_set (vm_machine v) NextPCReg 188 Hw ltac:(done) ltac:(done) ltac:(done)) as H1.
  set (m1 := set_registers _ _) in H1. pose proof (regs_wf_set m1 PCReg 184 H1 ltac:(done) ltac:(done) ltac:(done)) as H2.
  change (set_registers _ m1) with (vm_machine (return_from_call v)) in H2.
  assert (Hr : forall j, 0 <= j < 40 -> j <> PCReg -> j <> NextPCReg -> rv (vm_machine (return_from_call v)) j = rv (vm_machine v) j).
  { intros j Hj N1 N2. unfold rv, return_from_call. cbn [registers set_registers vm_machine set_vm_machine].
    unfold PCReg, NextPCReg in *. by rewrite !list_lookup_total_insert_ne by lia. }
  split_and!; [|split_and!|].
  - destruct (loaded_regs called_vm 10 0 v _ Hv H2). by split.
  - exact (rv_insert_eq m1 PCReg 184 (rw_len _ H1) ltac:(done)).
  - etransitivity; [exact (rv_insert_ne m1 PCReg NextPCReg 184 ltac:(done) ltac:(done) ltac:(done))|].
    exact (rv_insert_eq (vm_machine v) NextPCReg 188 (rw_len _ Hw) ltac:(done)).
  - by rewrite Hr.
  - by rewrite Hr.
  - intros j Hj. apply Hr; unfold PCReg, NextPCReg; lia.
Qed.

Lemma stub_makes_call_witness :
  exists v, @rounds Vm (vm_host demo_Random skip_call) (mret tt) 4 called_vm = Ok (tt, v) /\
    rv (vm_machine v) PCReg = 400 /\ rv (vm_machine v) 2 = 10.
Proof.
  destruct (stub_makes_call demo_Random skip_call 10 0 called_vm ltac:(lia) called_vm_loaded ltac:(by vm_compute))
    as (vh & Hh & Hat & Hregs & _ & Hret).
  destruct (called_vm_returns vh Hh Hat) as (H1 & H2 & H3).
  destruct (Hret (return_from_call vh) eq_refl H1 H2) as (v & Hrun & P1 & _ & P3 & _).
  exists v. rewrite P1, P3, (H3 31), (H3 2), (Hregs 31), (Hregs 2) by lia. split; [exact Hrun|]. split; [|done]. vm_compute. reflexivity.
Defined.
