(* ===== verification/UserRun.v ===== *)
(** * User programs on the kernel

    [Machine::Run] with the system calls as its exception handler: the machine, its
    paging and [ExceptionHandler] put together, and a program that runs on them. *)

From S2P Require Import Prelude BitMap Sectors FileHdr OpenFile Directory FileSys.
From S2P Require Import Disk Kernel Machine Paging AddrSpace Mips Syscalls Stubs.

Section UserRun.
Context {D : Type} `{!SectorDisk D} `{!ThreadOps (Sys D)}.
Context (Random : nat -> Z) (env : Env) (fs : FileSystem) (fuel : nat) (junk : Z).

(** A running program's exceptions go to [ExceptionHandler]. *)
#[local] Instance user_host : Host (Sys D) := {|
  machine := machine_lens;
  current_tid := fun s => vm_tid (sys_vm s);
  setStatus := fun st s => set_sys_vm (set_vm_mode st (sys_vm s)) s;
  Machine.ExceptionHandler := Syscalls.ExceptionHandler Random env fs fuel junk
|}.

Definition run_user (n : nat) : M (Sys D) unit := Run (mret tt) n.
End UserRun.

Import PlainDisk.
#[local] Existing Instance one_thread.

(** ** A program

    It writes the two bytes at address 100 to the console and halts. *)
Definition hello_code : list Z :=
  [addiu 2 0 SC_Write; addiu 4 0 100; addiu 5 0 2; addiu 6 0 1; syscall; addiu 2 0 SC_Halt; syscall].
Definition hello_image : list Z :=
  (hello_code ≫= le_bytes 4) ++ replicate 72 0 ++ [104; 105] ++ replicate 154 0.
Definition hello_vm : Vm :=
  MkVm (set_registers (<[35%nat := 4]> (replicate 40 0)) (new_machine false 0 0))
    {[0%nat := hello_image]} {[7 := 0%nat]} 7 SystemMode 0.

(** The first fetch faults and brings the page in; the write prints the bytes; the
    last call halts the machine. *)
Example hello_prints_and_halts :
  (exists s, run_user demo_Random env0 idle_fs 0 0 7 (call_sys blank_disk hello_vm) = Ok (tt, s) /\
     Syscalls.stdout s = [33; 104; 105]) /\
  run_user demo_Random env0 idle_fs 0 0 8 (call_sys blank_disk hello_vm) = Stop Halted.
Proof. split; [eexists; split; vm_compute; reflexivity|vm_compute; reflexivity]. Qed.
