(* ===== verification/Programs.v ===== *)
(** * The programs of [test/]

    The programs [halt] and [sort] as they are
    compiled in the repository ([test/halt], [test/sort]): converted, copied to the disk,
    loaded and run on the machine, the kernel's calls and the file system. *)

From S2P Require Import Prelude BitMap Sectors FileHdr OpenFile Directory FileSys FsTest.
From S2P Require Import Disk Kernel Machine Paging AddrSpace Mips Syscalls Stubs UserRun Coff2Noff.

(** ** [halt.c] and [sort.c], compiled *)

Definition halt_text : list Z := start_code 0xd0 ++
  [0x27bdffe8; 0xafbf0014; 0xafbe0010; 0x0c000030; 0x03a0f021; 0x0c000004; 0; 0x03c0e821; 0x8fbf0014; 0x8fbe0010; 0x03e00008; 0x27bd0018].
Definition sort_text : list Z := start_code 0x100 ++
  [0x27bdffe8; 0xafbf0014; 0xafbe0010; 0x03a0f021; 0x3c040000; 0x0c000014; 0x24840150; 0x03c0e821; 0x8fbf0014; 0x8fbe0010; 0x03e00008; 0x27bd0018;
   0x27bdffe8; 0xafbf0014; 0xafbe0010; 0x0c000030; 0x03a0f021; 0x3c040000; 0x0c000014; 0x2484015c; 0x3c040000; 0x0c000028; 0x248400d0; 0x0c000008;
   0x00002021; 0x03c0e821; 0x8fbf0014; 0x8fbe0010; 0x03e00008; 0x27bd0018; 0; 0].
Definition chars (n : nat) (s : string) : list Z :=
  let bs := (fun c => Z.of_nat (Ascii.nat_of_ascii c)) <$> String.list_ascii_of_string s in bs ++ replicate (n - length bs) 0.
Definition sort_data : list Z := chars 12 "1.txt" ++ chars 12 "2.txt" ++ chars 24 "../test/ha".

(** The NOFF files: the header's words that the converter does not set are what was
    in its memory. *)
Definition halt_noff : list Z :=
  ([0xbadfad; 0; 0x28; 0x100; 0; 0xb7fea000; 0; 0xbfaa2ed0; 0x8048367; 0] ++ halt_text) ≫= le_bytes 4.
Definition sort_noff : list Z :=
  (([0xbadfad; 0; 0x28; 0x150; 0x150; 0x178; 0x30; 0x180; 0x8048367; 0x40] ++ sort_text) ≫= le_bytes 4) ++ sort_data.

(** ** The object files

    [test/halt.coff] and [test/sort.coff] up to their symbol tables, which the
    converter does not read. *)
Definition section_header (name : string) (addr len scnptr flags : Z) : list Z :=
  chars 8 name ++ ([addr; addr; len; scnptr; 0; 0; 0; flags] ≫= le_bytes 4).
Definition coff_header (nscns symptr nsyms flags : Z) : list Z :=
  le_bytes 2 MIPSELMAGIC ++ le_bytes 2 nscns ++ ([0; symptr; nsyms] ≫= le_bytes 4) ++ le_bytes 2 56 ++ le_bytes 2 flags.
(** The optional header; the converter only looks at its magic number. *)
Definition optional_header (tsize dsize bsize bss_start : Z) : list Z :=
  [0x020b0107; tsize; dsize; bsize; 0; 0; tsize; bss_start; 0xe0000014; 0; 0; 0; 0; 0] ≫= le_bytes 4.

Definition halt_coff : list Z :=
  coff_header 3 0x1d0 96 0x107 ++ optional_header 0x100 0 0 0x100 ++
  section_header ".text" 0 0x100 0xd0 0x20 ++ section_header ".data" 0x100 0 0x1d0 0x40 ++ section_header ".bss" 0x100 0 0 0x80 ++
  replicate 12 0 ++ (halt_text ≫= le_bytes 4).
Definition sort_coff : list Z :=
  coff_header 4 0x270 96 0x107 ++ optional_header 0x150 0x30 0x40 0x180 ++
  section_header ".text" 0 0x150 0xf0 0x20 ++ section_header ".data" 0x150 0x30 0x240 0x40 ++
  section_header ".sbss" 0x180 0x10 0 0x400 ++ section_header ".bss" 0x184 0x30 0 0x80 ++
  replicate 4 0 ++ (sort_text ≫= le_bytes 4) ++ sort_data.

(** What was in the converter's memory when the files of the repository were made. *)
Definition halt_junk : NoffHeader := MkNoff 0 (MkSeg 0 0 0) (MkSeg 0 (i32 0xb7fea000) 0) (MkSeg (i32 0xbfaa2ed0) 0x8048367 0).
Definition sort_junk : NoffHeader := MkNoff 0 (MkSeg 0 0 0) (MkSeg 0 0 0) (MkSeg 0 0x8048367 0).

(** The file that [coff2noff] writes. *)
Definition converted (coff : list Z) (junk : NoffHeader) : option (list Z) :=
  match Coff2Noff.main 10000 2 (Some coff) true junk with Done _ h => fdOut h | _ => None end.

Lemma halt_converted : converted halt_coff halt_junk = Some halt_noff.
Proof. vm_compute. reflexivity. Qed.
Lemma sort_converted : converted sort_coff sort_junk = Some sort_noff.
Proof. vm_compute. reflexivity. Qed.

Import PlainDisk.
#[local] Existing Instance one_thread.

Definition vm0 : Vm := MkVm (new_machine false 0 0) ∅ ∅ 7 SystemMode 0.

(** A NOFF file is copied to a formatted disk, started, and run for [n] instructions. *)
Definition run_program (Random : nat -> Z) (noff : list Z) (n : nat) : res (list string * list Z) :=
  match new_file_system env0 true blank_disk with
  | Ok (fs, d) =>
      match Copy (fun _ => env0) fs (Some noff) 1000 d with
      | Ok (_, d) =>
          match StartProcess env0 fs (replicate 40 0) (fun _ => 0) None 1000 (d, vm0) with
          | Ok (_, (d, v)) =>
              match run_user Random env0 fs 20 0 n (call_sys d v) with
              | Ok (_, s) => match FileSys.List (env_of env0 s) fs (sys_disk s) with Ok (l, _) => Ok (l, Syscalls.stdout s) | Stop w => Stop w end
              | Stop w => Stop w
              end
          | Stop w => Stop w
          end
      | Stop w => Stop w
      end
  | Stop w => Stop w
  end.

(** [halt]: the machine halts, whatever [Random()] is (no page is replaced). *)
Lemma halt_halts Random : run_program Random halt_noff 20 = Stop Halted.
Proof. vm_compute. reflexivity. Qed.

(** [sort], on a kernel whose only thread runs it ([one_thread]: the thread it forks
    never runs, and [Exit] stops the machine): it creates the file 2.txt, and exits. *)
Lemma sort_creates Random :
  run_program Random sort_noff 22 = Ok (["a"; "2.txt"]%string, [33]) /\ run_program Random sort_noff 40 = Stop Halted.
Proof. split; vm_compute; reflexivity. Qed.
