(* ===== verification/UserFiles.v ===== *)
(** * Files from user programs

    The calls [Create], [Open], [Write] and [Read] that a user program makes in a row,
    through user memory, the kernel's copies, the file system and the disk. *)

From S2P Require Import Prelude BitMap Sectors FileHdr OpenFile Directory FileSys FileIO.
From S2P Require Import Disk Kernel Machine Paging AddrSpace Syscalls.

Section UserFiles.
Context {D : Type} `{!SectorDisk D} `{!SectorDiskLaws D} `{!ThreadOps (Sys D)}.
Context (Random : nat -> Z) (env : Env) (fs : FileSystem) (fuel : nat) (junk : Z).
#[local] Abbreviation W := (Sys D).
#[local] Abbreviation handler := (ExceptionHandler Random env fs fuel junk SyscallException).

(** A call as the stubs of [test/start.s] make it: the number and the arguments in
    their registers, the [syscall] instruction, the result in [r2]. *)
Definition user_call (number a1 a2 a3 : Z) : M W Z :=
  _ ← zoom machine_lens (WriteRegister 6 a3);
  _ ← zoom machine_lens (WriteRegister 5 a2);
  _ ← zoom machine_lens (WriteRegister 4 a1);
  _ ← zoom machine_lens (WriteRegister 2 number);
  _ ← handler;
  zoom machine_lens (ReadRegister 2).

(** Create the file named at [name], open it, write the [len] bytes at [src], open it
    again and read to [dst]. *)
Definition file_session (name src len dst : Z) : M W Z :=
  _ ← user_call SC_Create name 0 0;
  fd ← user_call SC_Open name 0 0;
  _ ← user_call SC_Write src len fd;
  fd ← user_call SC_Open name 0 0;
  user_call SC_Read dst len fd.

(** ** What a call leaves of the user's machine *)

Record same_memory (v v' : Vm) : Prop := {
  sm_ok : vm_ok v';
  sm_regs : regs_ok (vm_machine v');
  sm_tid : vm_tid v' = vm_tid v;
  sm_maps : forall t p, mapping v' t p = mapping v t p;
  sm_bytes : forall t a, vbyte v' t a = vbyte v t a
}.

Lemma same_memory_trans v1 v2 v3 : same_memory v1 v2 -> same_memory v2 v3 -> same_memory v1 v3.
Proof.
  intros [A1 A2 A3 A4 A5] [B1 B2 B3 B4 B5]. split; [done|done|congruence| |].
  - intros t p. by rewrite B4, A4.
  - intros t a. by rewrite B5, A5.
Qed.
Lemma resident_same v v' a data : same_memory v v' -> resident v a data -> resident v' a data.
Proof.
  intros [A1 A2 A3 A4 A5] (H1 & H2 & H3). split; [done|]. split; [done|]. intros k b Hk. rewrite A3, A5.
  destruct (H3 k b Hk) as (Hb & (i & Hi) & Hv). split; [done|]. split; [|done]. exists i. by rewrite A4.
Qed.
Lemma buffer_same v v' a n : same_memory v v' -> resident_buffer v a n -> resident_buffer v' a n.
Proof.
  intros [A1 A2 A3 A4 A5] (H1 & H2 & H3). split; [done|]. split; [done|]. intros k Hk. rewrite A3.
  destruct (H3 k Hk) as [i Hi]. exists i. by rewrite A4.
Qed.

(** Only registers below [LoadReg] differ. *)
Lemma same_regs v rs : vm_ok v -> length rs = 40%nat -> (exists r, rs !! 37%nat = Some r /\ 0 <= r < 32) ->
  same_memory v (set_vm_machine (set_registers rs (vm_machine v)) v).
Proof. intros Hv Hl Hr. split; try done; [by destruct Hv]. Qed.

Lemma regs_insert (rs : list Z) k x : (exists r, rs !! 37%nat = Some r /\ 0 <= r < 32) -> k <> 37%nat ->
  exists r, <[k := x]> rs !! 37%nat = Some r /\ 0 <= r < 32.
Proof. intros (r & Hr & H) Hk. exists r. by rewrite list_lookup_insert_ne. Qed.

Lemma same_args v n a1 a2 a3 : vm_ok v -> regs_ok (vm_machine v) -> same_memory v (with_args n a1 a2 a3 v).
Proof.
  intros Hv [Hl Hr]. apply same_regs; [done|by rewrite !length_insert|]. by repeat apply regs_insert.
Qed.

(** The machine after a call that read user memory, with and without a result. *)
Lemma same_past v v' : regs_ok (vm_machine v) -> looked_at v v' -> same_memory v (past v').
Proof.
  intros [Hl Hr] [L1 L2 L3 L4 L5]. eapply same_memory_trans.
  - split; [exact L1| | |exact L4|exact L5]; [unfold regs_ok; by rewrite L3|by rewrite L2].
  - unfold past, advanced. rewrite L3. apply same_regs; [done|by rewrite !length_insert|]. by repeat apply regs_insert.
Qed.
Lemma same_returning v v' r : regs_ok (vm_machine v) -> looked_at v v' -> same_memory v (past (returning v' r)).
Proof.
  intros [Hl Hr] [L1 L2 L3 L4 L5]. eapply same_memory_trans.
  - split; [exact L1| | |exact L4|exact L5]; [unfold regs_ok; by rewrite L3|by rewrite L2].
  - eapply (same_memory_trans _ (returning v' r)).
    + unfold returning. rewrite L3. apply same_regs; [done|by rewrite !length_insert|]. by repeat apply regs_insert.
    + unfold past, advanced. cbn [returning vm_machine set_vm_machine registers set_registers]. rewrite L3. apply same_regs.
      * by destruct L1.
      * by rewrite !length_insert.
      * by repeat apply regs_insert.
Qed.

(** A call from the handler's run. *)
Lemma user_call_run number a1 a2 a3 (s s' : W) r : regs_ok (vm_machine (sys_vm s)) ->
  handler (set_sys_vm (with_args number a1 a2 a3 (sys_vm s)) s) = Ok (tt, s') ->
  registers (vm_machine (sys_vm s')) !! 2%nat = Some r -> user_call number a1 a2 a3 s = Ok (r, s').
Proof.
  intros [Hl _] Hrun Hr. unfold user_call.
  erewrite bind_ok by (apply (zoom_ok machine_lens), write_register_ok; [exact Hl|lia]).
  erewrite bind_ok by (apply (zoom_ok machine_lens), write_register_ok; [cbn; by rewrite length_insert|lia]).
  erewrite bind_ok by (apply (zoom_ok machine_lens), write_register_ok; [cbn; by rewrite !length_insert|lia]).
  erewrite bind_ok by (apply (zoom_ok machine_lens), write_register_ok; [cbn; by rewrite !length_insert|lia]).
  erewrite bind_ok; [|exact Hrun].
  rewrite (zoom_ok machine_lens _ s' _ _ (read_register_ok _ 2 r Hr ltac:(lia))). by destruct s' as [? []].
Qed.

(** ** The calls *)

(** Addresses from [next_address] on are not in use. *)
Definition heap_ok (s : W) : Prop := forall q, next_address s <= q -> names s q = None.

Section Calls.
Context (name : list Z) (a : Z) (Hnz : Forall (fun b => b <> 0) name) (Hfuel : (length name + 2 <= fuel)%nat).
Context (Henv : env_ok env) (ms ds ps : list Z).
#[local] Abbreviation str := (c_string (name ++ [0])).

Lemma env_of_ok (s : W) : env_ok (env_of env s).
Proof. split; apply Henv. Qed.

Lemma heap_with_name v (s : W) : heap_ok s -> heap_ok (with_name name v s) /\
  (forall q x, names s q = Some x -> names (with_name name v s) q = Some x) /\
  names (with_name name v s) (next_address s) = Some str.
Proof.
  intros Hh. split_and!.
  - intros q Hq. cbn in Hq |- *. rewrite (proj2 (Z.eqb_neq _ _)) by lia. apply Hh. lia.
  - intros q x Hq. cbn. destruct (Z.eqb_spec q (next_address s)) as [->|]; [|done]. rewrite Hh in Hq by lia. done.
  - cbn. by rewrite Z.eqb_refl.
Qed.

Lemma call_create (s : W) table fm ext :
  vm_ok (sys_vm s) -> regs_ok (vm_machine (sys_vm s)) -> resident (sys_vm s) a (name ++ [0]) ->
  heap_ok s -> is_u32 (next_address s) -> fs_inv (names s) fs (sys_disk s) table fm ms ds ps ext ->
  dir_map (names s) table !! str = None -> (exists e, e ∈ table /\ in_use e = false) ->
  2 <= Z.of_nat (length (clear_bits fm)) ->
  exists r s' table' fm' ext' x, user_call SC_Create a 0 0 s = Ok (r, s') /\ same_memory (sys_vm s) (sys_vm s') /\
    heap_ok s' /\ next_address s' = next_address s + Z.of_nat (length name) + 1 /\ open_files s' = open_files s /\
    fs_inv (names s') fs (sys_disk s') table' fm' ms ds ps ext' /\ dir_map (names s') table' !! str = Some x /\
    numBytes (hdr_at (contents (sys_disk s')) x) = 100.
Proof.
  intros Hv Hr Hres Hheap Hu Hinv Hnone Hroom Hfree. pose proof (same_args (sys_vm s) SC_Create a 0 0 Hv Hr) as Hsame.
  destruct (calling_with_args (set_sys_vm (with_args SC_Create a 0 0 (sys_vm s)) s) _ SC_Create a 0 0 eq_refl Hv Hr) as [Hc _].
  destruct (create_call_run Random env fs fuel junk (set_sys_vm (with_args SC_Create a 0 0 (sys_vm s)) s) name a (resident_same _ _ _ _ Hsame Hres) Hnz Hfuel Hc) as (v & Hl & Hrun).
  cbv zeta in Hrun. set (s1 := with_name name v _) in Hrun. destruct (heap_with_name v s Hheap) as (Hheap1 & Hmono & Hstr).
  change (heap_ok s1) in Hheap1. change (forall q x, names s q = Some x -> names s1 q = Some x) in Hmono.
  change (names s1 (next_address s) = Some str) in Hstr.
  destruct (fs_inv_names (names s) (names s1) _ _ _ _ _ _ _ _ Hinv Hmono) as [Hinv1 Hmap1].
  destruct (create_ok (env_of env s1) fs (sys_disk s) table fm ms ds ps ext (next_address s) 100 str
    (env_of_ok s1) Hinv1 Hstr Hu) as (d' & table' & fm' & ext' & x & Hok & Hinv' & Hmap' & Hsz & _);
    [by change (mem (env_of env s1)) with (names s1); rewrite Hmap1|done|lia|done|exact Hfree|].
  cbn [next_address sys_disk set_sys_vm] in Hrun. rewrite Hok in Hrun.
  pose proof (same_past _ v (sm_regs _ _ Hsame) Hl) as Hpast.
  destruct (lookup_lt_is_Some_2 (registers (vm_machine (past v))) 2) as [r Hr2]; [rewrite (proj1 (sm_regs _ _ Hpast)); lia|].
  eexists r, _, table', fm', ext', x. split; [by eapply user_call_run|]. cbn [sys_vm set_sys_vm].
  split; [by eapply same_memory_trans|]. split; [exact Hheap1|]. split; [done|]. split; [done|].
  split; [exact Hinv'|]. split; [|exact Hsz]. cbn [names set_sys_vm set_sys_disk].
  change (dir_map (names s1) table' !! str = Some x). change (mem (env_of env s1)) with (names s1) in Hmap'. by rewrite Hmap', lookup_insert_eq.
Qed.

Lemma call_open (s : W) table fm ext x :
  vm_ok (sys_vm s) -> regs_ok (vm_machine (sys_vm s)) -> resident (sys_vm s) a (name ++ [0]) ->
  heap_ok s -> 0 <= next_address s -> next_address s + Z.of_nat (length name) + 1 < 2 ^ 31 ->
  fs_inv (names s) fs (sys_disk s) table fm ms ds ps ext -> dir_map (names s) table !! str = Some x ->
  let fd := next_address s + Z.of_nat (length name) + 1 in
  exists s', user_call SC_Open a 0 0 s = Ok (fd, s') /\ same_memory (sys_vm s) (sys_vm s') /\
    heap_ok s' /\ next_address s' = fd + 12 /\
    open_files s' = <[fd := MkOpen (hdr_at (contents (sys_disk s)) x) 0 x]> (open_files s) /\
    fs_inv (names s') fs (sys_disk s') table fm ms ds ps ext /\ dir_map (names s') table = dir_map (names s) table /\
    contents (sys_disk s') = contents (sys_disk s).
Proof.
  intros Hv Hr Hres Hheap Hlo Hhi Hinv Hx fd. pose proof (same_args (sys_vm s) SC_Open a 0 0 Hv Hr) as Hsame.
  destruct (calling_with_args (set_sys_vm (with_args SC_Open a 0 0 (sys_vm s)) s) _ SC_Open a 0 0 eq_refl Hv Hr) as [Hc _].
  destruct (open_call_run Random env fs fuel junk (set_sys_vm (with_args SC_Open a 0 0 (sys_vm s)) s) name a (resident_same _ _ _ _ Hsame Hres) Hnz Hfuel Hc) as (v & Hl & Hrun).
  cbv zeta in Hrun. set (s1 := with_name name v _) in Hrun. destruct (heap_with_name v s Hheap) as (Hheap1 & Hmono & Hstr).
  change (heap_ok s1) in Hheap1. change (forall q x, names s q = Some x -> names s1 q = Some x) in Hmono.
  change (names s1 (next_address s) = Some str) in Hstr.
  destruct (fs_inv_names (names s) (names s1) _ _ _ _ _ _ _ _ Hinv Hmono) as [Hinv1 Hmap1].
  destruct (open_spec (env_of env s1) fs (sys_disk s) table fm ms ds ps ext (next_address s) str (env_of_ok s1) Hinv1 Hstr)
    as (d' & Hok & Hd').
  change (mem (env_of env s1)) with (names s1) in Hok. rewrite Hmap1, Hx in Hok. cbn [fmap option_fmap option_map] in Hok.
  cbn [next_address sys_disk set_sys_vm] in Hrun. rewrite Hok in Hrun. change (next_address s1) with fd in Hrun.
  rewrite i32_id in Hrun by (unfold is_i32; lia).
  pose proof (same_returning _ v fd (sm_regs _ _ Hsame) Hl) as Hpast.
  assert (H2 : registers (vm_machine (past (returning v fd))) !! 2%nat = Some fd).
  { unfold past, advanced, returning. cbn [vm_machine set_vm_machine registers set_registers].
    rewrite !list_lookup_insert_ne by done. apply list_lookup_insert_eq. rewrite (la_regs _ _ Hl).
    pose proof (proj1 (sm_regs _ _ Hsame)). cbn [sys_vm set_sys_vm]. lia. }
  eexists. split; [by eapply user_call_run|]. cbn [sys_vm set_sys_vm].
  split; [by eapply same_memory_trans|]. split; [intros q Hq; apply Hheap1; cbn in Hq |- *; lia|]. split; [done|]. split; [done|].
  split; [exact (fs_inv_same _ _ _ _ _ _ _ _ _ _ Hinv1 Hd')|]. split; [exact Hmap1|apply Hd'].
Qed.
End Calls.

Lemma resident_bytes v b data : resident v b data -> Forall is_byte data.
Proof. intros (_ & _ & H). apply Forall_lookup_2. intros k x Hk. unfold is_byte. by apply (H k x). Qed.

Section Transfers.
Context (Henv : env_ok env) (ms ds ps : list Z) (table : list DirectoryEntry) (fm : BitMap) (ext : layout).

Lemma call_write (s : W) data src fd f x :
  vm_ok (sys_vm s) -> regs_ok (vm_machine (sys_vm s)) -> resident (sys_vm s) src data ->
  fs_inv (names s) fs (sys_disk s) table fm ms ds ps ext -> x ∈ files table ->
  fd <> 1 -> open_files s !! fd = Some f -> opened (contents (sys_disk s)) f x ->
  seekPosition f + Z.of_nat (length data) <= Length f -> Length f < 2 ^ 31 ->
  exists r s', user_call SC_Write src (Z.of_nat (length data)) fd s = Ok (r, s') /\ same_memory (sys_vm s) (sys_vm s') /\
    names s' = names s /\ next_address s' = next_address s /\
    fs_inv (names s') fs (sys_disk s') table fm ms ds ps ext /\
    contents_at (contents (sys_disk s')) ext x =
      ins (Z.to_nat (seekPosition f)) data (contents_at (contents (sys_disk s)) ext x).
Proof.
  intros Hv Hr Hres Hinv Hx Hne Hf Hop Hlen Hmax. pose proof (same_args (sys_vm s) SC_Write src (Z.of_nat (length data)) fd Hv Hr) as Hsame.
  set (s0 := set_sys_vm (with_args SC_Write src (Z.of_nat (length data)) fd (sys_vm s)) s).
  destruct (calling_with_args s0 _ SC_Write src (Z.of_nat (length data)) fd eq_refl Hv Hr) as (Hc & H5 & H6).
  destruct (write_file (names s) fs (sys_disk s) table fm ms ds ps ext f x (new_buf env 0) (time_now env) data (Z.of_nat (length data))
    Hinv Hx Hop (eo_time _ Henv) ltac:(lia) (resident_bytes _ _ _ Hres) (eo_buf _ Henv 0) ltac:(lia))
    as (f' & d' & Hrun & Hinv' & _ & _ & Hcont & _).
  rewrite Z.min_l, Nat2Z.id, firstn_all in * by lia.
  destruct (write_call_file Random env fs fuel junk s0 src data fd f f' _ d' Hc (resident_same _ _ _ _ Hsame Hres) H5 H6 Hne Hf Hrun)
    as (v & Hl & Hh).
  pose proof (same_past _ v (sm_regs _ _ Hsame) Hl) as Hpast.
  destruct (lookup_lt_is_Some_2 (registers (vm_machine (past v))) 2) as [r Hr2]; [rewrite (proj1 (sm_regs _ _ Hpast)); lia|].
  eexists r, _. split; [by eapply user_call_run|]. split; [by eapply same_memory_trans|]. by split_and!.
Qed.

Lemma call_read (s : W) dst n fd f x :
  vm_ok (sys_vm s) -> regs_ok (vm_machine (sys_vm s)) -> 0 <= n -> resident_buffer (sys_vm s) dst n ->
  fs_inv (names s) fs (sys_disk s) table fm ms ds ps ext -> x ∈ files table ->
  fd <> 0 -> open_files s !! fd = Some f -> opened (contents (sys_disk s)) f x -> seekPosition f + n < 2 ^ 31 ->
  let data := take (Z.to_nat n) (drop (Z.to_nat (seekPosition f)) (contents_at (contents (sys_disk s)) ext x)) in
  exists s', user_call SC_Read dst n fd s = Ok (Z.of_nat (length data), s') /\
    (forall t p, 0 <= p -> vbyte (sys_vm s') t p =
      if decide (t = vm_tid (sys_vm s) /\ (dst <= p < dst + Z.of_nat (length data))%Z) then data !! Z.to_nat (p - dst)
      else vbyte (sys_vm s) t p) /\
    names s' = names s /\ fs_inv (names s') fs (sys_disk s') table fm ms ds ps ext /\
    contents_at (contents (sys_disk s')) ext x = contents_at (contents (sys_disk s)) ext x.
Proof.
  intros Hv Hr Hn Hbuf Hinv Hx Hne Hf Hop Hmax data. pose proof (same_args (sys_vm s) SC_Read dst n fd Hv Hr) as Hsame.
  set (s0 := set_sys_vm (with_args SC_Read dst n fd (sys_vm s)) s).
  destruct (calling_with_args s0 _ SC_Read dst n fd eq_refl Hv Hr) as (Hc & H5 & H6).
  destruct (read_file (names s) fs (sys_disk s) table fm ms ds ps ext f x (time_now env) n Hinv Hx Hop (eo_time _ Henv) Hmax)
    as (f' & d' & Hrun & Hinv' & _ & _ & Hcont & _). fold data in Hrun.
  assert (Hb : Forall is_byte data).
  { apply Forall_take, Forall_drop. destruct (opened_ok _ _ _ _ _ _ _ _ _ _ _ Hinv Hx Hop) as [Hok <-].
    destruct Hok as [Hd Hrep _ _ _]. apply Forall_take, file_data_byte; [auto with nachos|apply Hrep]. }
  destruct (read_call_file Random env fs fuel junk s0 dst n fd f f' _ data d' Hc Hn (buffer_same _ _ _ _ Hsame Hbuf) H5 H6 Hne Hf Hrun)
    as (v & [S1 S2 S3 S4 S5 S6] & Hh); [unfold data; rewrite length_take; lia|done|].
  eexists. split; [eapply user_call_run; [done|exact Hh|]|].
  - unfold past, advanced, returning. cbn [sys_vm set_sys_vm vm_machine set_vm_machine registers set_registers].
    rewrite !list_lookup_insert_ne by done. apply list_lookup_insert_eq. rewrite (proj1 S2). lia.
  - split; [|split; [done|split; [exact Hinv'|]]].
    + intros t p Hp. etransitivity; [exact (S6 t p Hp)|]. done.
    + rewrite Forall_forall in Hcont. by apply Hcont.
Qed.
End Transfers.

(** ** Property *)

(** C1. A user program that creates a file, opens it, writes up to 100 bytes of its
    memory to it, opens it again and reads as many bytes back, gets in its buffer
    exactly the bytes it wrote, and [Read] returns their number; no other byte of any
    program's memory changes.  Afterwards the disk's invariant holds and the directory
    has a file of that name that begins with those bytes.  This is for a name and
    buffers whose pages are in main memory, a new name, a free directory entry and two
    free sectors, and a heap below [2^31]. *)
Theorem user_file_roundtrip (s : W) name a src data dst table fm ms ds ps ext :
  env_ok env -> Forall (fun b => b <> 0) name -> (length name + 2 <= fuel)%nat ->
  vm_ok (sys_vm s) -> regs_ok (vm_machine (sys_vm s)) ->
  resident (sys_vm s) a (name ++ [0]) -> resident (sys_vm s) src data ->
  resident_buffer (sys_vm s) dst (Z.of_nat (length data)) -> Z.of_nat (length data) <= 100 ->
  heap_ok s -> 1 < next_address s -> next_address s + 3 * (Z.of_nat (length name) + 1) + 24 < 2 ^ 31 ->
  fs_inv (names s) fs (sys_disk s) table fm ms ds ps ext ->
  dir_map (names s) table !! c_string (name ++ [0]) = None -> (exists e, e ∈ table /\ in_use e = false) ->
  2 <= Z.of_nat (length (clear_bits fm)) ->
  exists s' table' fm' ext' x,
    file_session a src (Z.of_nat (length data)) dst s = Ok (Z.of_nat (length data), s') /\
    (forall t p, 0 <= p -> vbyte (sys_vm s') t p =
      if decide (t = vm_tid (sys_vm s) /\ (dst <= p < dst + Z.of_nat (length data))%Z) then data !! Z.to_nat (p - dst)
      else vbyte (sys_vm s) t p) /\
    fs_inv (names s') fs (sys_disk s') table' fm' ms ds ps ext' /\
    dir_map (names s') table' !! c_string (name ++ [0]) = Some x /\
    take (length data) (contents_at (contents (sys_disk s')) ext' x) = data.
Proof.
  intros Henv Hnz Hfuel Hv Hr Hname Hdata Hbuf Hlen Hheap Hlo Hhi Hinv Hnone Hroom Hfree. unfold file_session.
  destruct (call_create name a Hnz Hfuel Henv ms ds ps s table fm ext) as
    (r1 & s1 & table' & fm' & ext' & x & R1 & M1 & Hheap1 & Hn1 & _ & Hinv1 & Hx1 & Hsz1); try done; [unfold is_u32; lia|].
  rewrite (bind_ok _ _ _ _ _ R1). clear R1.
  destruct (call_open name a Hnz Hfuel Henv ms ds ps s1 table' fm' ext' x) as
    (s2 & R2 & M2 & Hheap2 & Hn2 & Ho2 & Hinv2 & Hx2 & Hc2); try apply M1; try done; [by eapply resident_same|lia|lia|].
  rewrite (bind_ok _ _ _ _ _ R2). clear R2. rewrite <- Hx2 in Hx1.
  pose proof (same_memory_trans _ _ _ M1 M2) as M12. assert (Hxf : x ∈ files table') by (by eapply dir_map_files).
  pose proof (open_opened _ _ _ _ _ _ _ _ _ x Hinv2 Hxf) as Hop2. rewrite Hc2 in Hop2.
  destruct (call_write Henv ms ds ps table' fm' ext' s2 data src (next_address s1 + Z.of_nat (length name) + 1) _ x (sm_ok _ _ M2) (sm_regs _ _ M2)
    (resident_same _ _ _ _ M12 Hdata) Hinv2 Hxf ltac:(lia) ltac:(rewrite Ho2; apply lookup_insert_eq) ltac:(by rewrite Hc2))
    as (r3 & s3 & R3 & M3 & Hm3 & Hn3 & Hinv3 & Hc3); [unfold Length, FileLength; cbn [hdr seekPosition]; lia..|].
  rewrite (bind_ok _ _ _ _ _ R3). clear R3. pose proof (same_memory_trans _ _ _ M12 M3) as M13.
  destruct (call_open name a Hnz Hfuel Henv ms ds ps s3 table' fm' ext' x) as
    (s4 & R4 & M4 & Hheap4 & Hn4 & Ho4 & Hinv4 & Hx4 & Hc4); try apply M3; try done;
    [by eapply resident_same|by unfold heap_ok; rewrite Hm3, Hn3|lia|lia|by rewrite Hm3|].
  rewrite (bind_ok _ _ _ _ _ R4). clear R4. pose proof (same_memory_trans _ _ _ M13 M4) as M14.
  destruct (call_read Henv ms ds ps table' fm' ext' s4 dst (Z.of_nat (length data)) (next_address s3 + Z.of_nat (length name) + 1) _ x (sm_ok _ _ M4) (sm_regs _ _ M4)
    ltac:(lia) (buffer_same _ _ _ _ M14 Hbuf) Hinv4 Hxf ltac:(lia) ltac:(rewrite Ho4; apply lookup_insert_eq)
    ltac:(rewrite <- Hc4; by apply (open_opened (names s4) fs _ table' fm' ms ds ps ext')))
    as (s5 & -> & Hb5 & Hm5 & Hinv5 & Hc5); [cbn [seekPosition]; lia|].
  assert (Hback : take (length data) (contents_at (contents (sys_disk s4)) ext' x) = data)
    by (rewrite Hc4, Hc3; apply (take_app_length data)).
  cbn [seekPosition] in *. change (Z.to_nat 0) with 0%nat in *. rewrite drop_0, Nat2Z.id, Hback in *.
  exists s5, table', fm', ext', x. split; [done|]. split; [|split; [done|]].
  - intros t p Hp. by rewrite (Hb5 t p Hp), (sm_tid _ _ M14), (sm_bytes _ _ M14).
  - split; [by rewrite Hm5, Hx4, Hm3|by rewrite Hc5].
Qed.
End UserFiles.

(** ** Witness *)

Import PlainDisk.
#[local] Existing Instance one_thread.

(** The program of [call_paged] on a formatted disk: the file is named "a" and holds "hi",
    which is read back 64 bytes into the page. *)
Lemma user_file_roundtrip_witness :
  exists fs d s', new_file_system env0 true blank_disk = Ok (fs, d) /\
    file_session demo_Random env0 fs 3 0 0 2 2 64 (call_sys d call_paged) = Ok (2, s') /\
    vbyte (sys_vm s') 7 64 = Some 104 /\ vbyte (sys_vm s') 7 65 = Some 105 /\ vbyte (sys_vm s') 7 2 = Some 104.
Proof.
  destruct (format_ok env0 blank_disk (mem env0) env0_ok blank_disk_ready)
    as (fs & d & table & fm & ms & ds & ps & ext & Hfmt & Hinv & Hall & Hmap & Hfree & _).
  destruct (user_file_roundtrip demo_Random env0 fs 3 0 (call_sys d call_paged) [97] 0 2 [104; 105] 64 table fm ms ds ps ext)
    as (s' & _ & _ & _ & _ & Hrun & Hb & _).
  - exact env0_ok.
  - repeat constructor; discriminate.
  - simpl. lia.
  - exact (proj1 call_paged_ok).
  - exact (proj2 call_paged_ok).
  - exact (call_resident 0 0 0 0 0 [97; 0] ltac:(vm_compute; reflexivity)).
  - exact (call_resident 0 0 0 0 2 [104; 105] ltac:(vm_compute; reflexivity)).
  - split; [lia|]. split; [simpl; lia|]. intros k Hk. cbn in Hk. exists 0. rewrite Z.div_small by lia. vm_compute. reflexivity.
  - simpl. lia.
  - intros q Hq. change (2000 <= q) in Hq. cbn. by rewrite (proj2 (Z.eqb_neq _ _)) by lia.
  - simpl. lia.
  - simpl. lia.
  - exact Hinv.
  - change (names (call_sys d call_paged)) with (mem env0). rewrite Hmap. apply lookup_empty.
  - destruct table as [|e table]; [discriminate (fi_len _ _ _ _ _ _ _ _ _ Hinv)|].
    exists e. split; [left|]. by apply Forall_cons in Hall as [He _].
  - rewrite Hfree. vm_compute. discriminate.
  - exists fs, d, s'. split; [exact Hfmt|]. split; [exact Hrun|]. rewrite !Hb by lia.
    split_and!; vm_compute; reflexivity.
Defined.
