(* ===== verification/Console.v ===== *)
(** * The console: [machine/console.cc], [ConsoleTest] of [userprog/progtest.cc]

    The terminal device, its two interrupts, and the thread that echoes what is
    typed.  Events are the typing of a character, the end of the input, an interrupt, and
    a step of the thread from one wait to the next; they interleave in any order.  A
    character is a [char], in [-128, 128): the character 255 is -1, which is also what
    [EOF] is there. *)

From S2P Require Import Prelude.

(** ** The device and the thread *)

(** [EOF] as the [char] that [incoming] holds. *)
Definition EOF : Z := -1.
Definition char_q : Z := 113.

Inductive ConsoleInt : Type := ConsoleReadPoll | ConsoleWriteDone.
#[export] Instance ConsoleInt_eq_dec : EqDecision ConsoleInt.
Proof. solve_decision. Defined.

(** Where [ConsoleTest] is: at [readAvail->P()], past it, at [writeDone->P()], past it,
    or returned. *)
Inductive pc : Type := EchoRead | EchoGet | EchoWrite (ch : Z) | EchoTest (ch : Z) | EchoDone.

#[export] Instance pc_eq_dec : EqDecision pc.
Proof. solve_decision. Defined.

(** [class Console], the files it reads and writes, the two semaphores of
    [progtest.cc]; [typed] is all that was typed so far, [ended] that the input has
    come to its end. *)
Record Console : Type := MkConsole {
  keyboard : list Z;
  display : list Z;
  putBusy : bool;
  incoming : Z;
  scheduled : list ConsoleInt;
  numConsoleCharsRead : Z;
  numConsoleCharsWritten : Z;
  readAvail : Z;
  writeDone : Z;
  echo : pc;
  typed : list Z;
  ended : bool
}.

(** [Console::Console], with the semaphores of [ConsoleTest]. *)
Definition new_console : Console := MkConsole [] [] false EOF [ConsoleReadPoll] 0 0 0 0 EchoRead [] false.

(** [Console::CheckCharAvail] with the handler [ReadAvail]; [PollFile] is true when there
    is a character and at the end of the input, where [Read] gets no byte and fails its
    assertion. *)
Definition CheckCharAvail (c : Console) : res Console :=
  let c := MkConsole (keyboard c) (display c) (putBusy c) (incoming c) (scheduled c ++ [ConsoleReadPoll]) (numConsoleCharsRead c)
             (numConsoleCharsWritten c) (readAvail c) (writeDone c) (echo c) (typed c) (ended c) in
  if negb (incoming c =? EOF) then Ok c
  else match keyboard c with
       | ch :: rest =>
           Ok (MkConsole rest (display c) (putBusy c) ch (scheduled c) (numConsoleCharsRead c + 1) (numConsoleCharsWritten c)
                 (readAvail c + 1) (writeDone c) (echo c) (typed c) (ended c))
       | [] => if ended c then Stop AssertFailed else Ok c
       end.

(** [Console::WriteDone] with the handler [WriteDone]. *)
Definition WriteDone (c : Console) : Console :=
  MkConsole (keyboard c) (display c) false (incoming c) (scheduled c) (numConsoleCharsRead c)
    (numConsoleCharsWritten c + 1) (readAvail c) (writeDone c + 1) (echo c) (typed c) (ended c).

(** [Console::GetChar], [Console::PutChar]. *)
Definition GetChar (c : Console) : Z * Console :=
  (incoming c, MkConsole (keyboard c) (display c) (putBusy c) EOF (scheduled c) (numConsoleCharsRead c)
                 (numConsoleCharsWritten c) (readAvail c) (writeDone c) (echo c) (typed c) (ended c)).
Definition PutChar (ch : Z) (c : Console) : res Console :=
  if putBusy c then Stop AssertFailed
  else Ok (MkConsole (keyboard c) (display c ++ [ch]) true (incoming c) (scheduled c ++ [ConsoleWriteDone])
             (numConsoleCharsRead c) (numConsoleCharsWritten c) (readAvail c) (writeDone c) (echo c) (typed c) (ended c)).

Definition set_echo (p : pc) (c : Console) : Console :=
  MkConsole (keyboard c) (display c) (putBusy c) (incoming c) (scheduled c) (numConsoleCharsRead c)
    (numConsoleCharsWritten c) (readAvail c) (writeDone c) p (typed c) (ended c).
Definition set_sems (r w : Z) (c : Console) : Console :=
  MkConsole (keyboard c) (display c) (putBusy c) (incoming c) (scheduled c) (numConsoleCharsRead c)
    (numConsoleCharsWritten c) r w (echo c) (typed c) (ended c).
Definition set_ints (l : list ConsoleInt) (c : Console) : Console :=
  MkConsole (keyboard c) (display c) (putBusy c) (incoming c) l (numConsoleCharsRead c)
    (numConsoleCharsWritten c) (readAvail c) (writeDone c) (echo c) (typed c) (ended c).

(** The loop of [ConsoleTest]: [None] when the thread waits or has returned. *)
Definition echo_step (c : Console) : res (option Console) :=
  match echo c with
  | EchoRead => if 0 <? readAvail c then Ok (Some (set_echo EchoGet (set_sems (readAvail c - 1) (writeDone c) c))) else Ok None
  | EchoGet =>
      let '(ch, c) := GetChar c in
      match PutChar ch c with Ok c => Ok (Some (set_echo (EchoWrite ch) c)) | Stop w => Stop w end
  | EchoWrite ch =>
      if 0 <? writeDone c then Ok (Some (set_echo (EchoTest ch) (set_sems (readAvail c) (writeDone c - 1) c))) else Ok None
  | EchoTest ch => Ok (Some (set_echo (if ch =? char_q then EchoDone else EchoRead) c))
  | EchoDone => Ok None
  end.

Inductive event : Type := EType (ch : Z) | EEnd | EInterrupt (i : nat) | EThread.

Definition type_char (ch : Z) (c : Console) : Console :=
  MkConsole (keyboard c ++ [ch]) (display c) (putBusy c) (incoming c) (scheduled c) (numConsoleCharsRead c)
    (numConsoleCharsWritten c) (readAvail c) (writeDone c) (echo c) (typed c ++ [ch]) (ended c).
Definition end_input (c : Console) : Console :=
  MkConsole (keyboard c) (display c) (putBusy c) (incoming c) (scheduled c) (numConsoleCharsRead c)
    (numConsoleCharsWritten c) (readAvail c) (writeDone c) (echo c) (typed c) true.

Definition do_event (e : event) (c : Console) : res (option Console) :=
  match e with
  | EType ch => Ok (if ended c then None else Some (type_char ch c))
  | EEnd => Ok (if ended c then None else Some (end_input c))
  | EInterrupt i =>
      match scheduled c !! i with
      | None => Ok None
      | Some h =>
          let c := set_ints (delete i (scheduled c)) c in
          match h with
          | ConsoleReadPoll => match CheckCharAvail c with Ok c => Ok (Some c) | Stop w => Stop w end
          | ConsoleWriteDone => Ok (Some (WriteDone c))
          end
      end
  | EThread => echo_step c
  end.

(** Every run: any characters, typed at any time, and an end of the input. *)
Inductive reachable : Console -> Prop :=
| reach_new : reachable new_console
| reach_event e c c' : reachable c -> do_event e c = Ok (Some c') -> reachable c'.

(** ** The invariant *)

Definition held (c : Console) : list Z := if incoming c =? EOF then [] else [incoming c].
Definition writes (l : list ConsoleInt) : Z := Z.of_nat (length (filter (fun i => i = ConsoleWriteDone) l)).

(** What is displayed, by the place of the thread. *)
Definition shown (p : pc) (d : list Z) : Prop :=
  match p with
  | EchoRead | EchoGet => Forall (fun ch => ch <> char_q) d
  | EchoWrite ch | EchoTest ch => exists d0, d = d0 ++ [ch] /\ Forall (fun ch => ch <> char_q) d0
  | EchoDone => exists d0, d = d0 ++ [char_q] /\ Forall (fun ch => ch <> char_q) d0
  end.
Definition writing (p : pc) : Z := match p with EchoWrite _ => 1 | _ => 0 end.

(** While the character 255 has not been typed, what was typed is displayed, held by the
    device or still to be read, and [readAvail] counts the character held. *)
Definition input_ok (c : Console) : Prop :=
  typed c = display c ++ held c ++ keyboard c /\
  readAvail c + (if decide (echo c = EchoGet) then 1 else 0) = Z.of_nat (length (held c)).

Record inv (c : Console) : Prop := {
  i_input : EOF ∉ typed c -> input_ok c;
  i_avail : 0 <= readAvail c;
  i_write : writes (scheduled c) + writeDone c = writing (echo c) /\ 0 <= writeDone c;
  i_busy : putBusy c = true -> 0 < writes (scheduled c);
  i_poll : ConsoleReadPoll ∈ scheduled c;
  i_shown : shown (echo c) (display c)
}.

Lemma writes_app l1 l2 : writes (l1 ++ l2) = writes l1 + writes l2.
Proof. unfold writes. rewrite filter_app, length_app. lia. Qed.
Lemma writes_delete (l : list ConsoleInt) i h : l !! i = Some h -> writes l = writes [h] + writes (delete i l).
Proof. intros H. unfold writes. rewrite (length_filter_delete _ l i h H), filter_cons. case_decide; cbn; lia. Qed.

Lemma console_inv_new : inv new_console.
Proof. split; cbn; try done. by left. Qed.

(** A poll fails only at the end of the input, with no character left. *)
Lemma poll_keeps c i : inv c -> scheduled c !! i = Some ConsoleReadPoll ->
  match CheckCharAvail (set_ints (delete i (scheduled c)) c) with
  | Ok c' => inv c'
  | Stop w => w = AssertFailed /\ ended c = true /\ keyboard c = [] /\ incoming c = EOF
  end.
Proof.
  intros [I1 I3 I4 I5 I6 I7] Hi. rewrite (writes_delete _ _ _ Hi) in I4, I5. change (writes [ConsoleReadPoll]) with 0 in I4, I5.
  assert (Hw : writes (delete i (scheduled c) ++ [ConsoleReadPoll]) = writes (delete i (scheduled c))).
  { rewrite writes_app. change (writes [ConsoleReadPoll]) with 0. lia. }
  assert (Hp : ConsoleReadPoll ∈ delete i (scheduled c) ++ [ConsoleReadPoll]) by set_solver.
  unfold CheckCharAvail. cbn [keyboard set_ints incoming ended]. destruct (Z.eqb_spec (incoming c) EOF) as [He|He]; cbn [negb].
  2:{ split; cbn; rewrite ?Hw; done. }
  destruct (keyboard c) as [|ch rest] eqn:Hk.
  { destruct (ended c); [done|]. split; cbn; rewrite ?Hw; try done.
    intros Hclean. destruct (I1 Hclean) as [Ho Hr]. split; cbn; [by rewrite <- Hk|done]. }
  split; cbn; rewrite ?Hw; try done; [|lia]. intros Hclean. destruct (I1 Hclean) as [Ho Hr].
  assert (Hh : held c = []) by (unfold held; by rewrite He). rewrite Hh, Hk in *. cbn [app length] in *.
  assert (Hch : ch <> EOF) by (intros ->; apply Hclean; rewrite Ho; set_solver).
  unfold input_ok, held; cbn. rewrite (proj2 (Z.eqb_neq ch EOF) Hch). cbn [app length]. split; [done|]. lia.
Qed.

Lemma write_done_keeps c i : inv c -> scheduled c !! i = Some ConsoleWriteDone ->
  inv (WriteDone (set_ints (delete i (scheduled c)) c)).
Proof.
  intros [I1 I3 I4 I5 I6 I7] Hi. rewrite (writes_delete _ _ _ Hi) in I4. change (writes [ConsoleWriteDone]) with 1 in I4.
  split; cbn; try done; [lia|]. by destruct (elem_of_delete_other _ _ _ _ Hi I6).
Qed.

Lemma type_keeps c ch : inv c -> inv (type_char ch c).
Proof.
  intros [I1 I3 I4 I5 I6 I7]. split; cbn; try done. intros Hclean. destruct I1 as [Ho Hr]; [set_solver|].
  split; cbn; [by rewrite Ho, <- !app_assoc|exact Hr].
Qed.

(** The thread never fails the assertion of [PutChar]. *)
Lemma thread_keeps c : inv c -> echo_step c = Ok None \/ exists c', echo_step c = Ok (Some c') /\ inv c'.
Proof.
  intros [I1 I3 I4 I5 I6 I7]. unfold echo_step. unfold input_ok in I1.
  destruct (echo c) as [| |ch|ch|] eqn:He; rewrite ?He in I1, I4, I7; cbn [writing shown] in *.
  - destruct (Z.ltb_spec 0 (readAvail c)); [right|by left]. eexists. split; [done|].
    split; cbn; try done; [|lia]. intros Hclean. destruct (I1 Hclean) as [Ho Hr]. rewrite decide_False in Hr by done. split; [done|].
    cbn [readAvail echo set_echo set_sems]. rewrite decide_True by done.
    change (held (set_echo EchoGet (set_sems (readAvail c - 1) (writeDone c) c))) with (held c). lia.
  - right. assert (Hb : putBusy c = false) by (destruct (putBusy c); [specialize (I5 eq_refl); lia|done]).
    unfold GetChar, PutChar. cbn [putBusy]. rewrite Hb. eexists. split; [done|].
    split; cbn; try done.
    + intros Hclean. destruct (I1 Hclean) as [Ho Hr]. rewrite decide_True in Hr by done.
      destruct (held c) as [|x [|]] eqn:Hh; cbn [length] in Hr; [lia| |unfold held in Hh; by destruct (_ =? _)].
      assert (Hx : incoming c = x) by (unfold held in Hh; destruct (incoming c =? EOF); [done|by injection Hh]).
      split; cbn; [by rewrite Ho, Hx, <- app_assoc|]. rewrite ?decide_False by done. lia.
    + rewrite writes_app. change (writes [ConsoleWriteDone]) with 1. lia.
    + intros _. rewrite writes_app. change (writes [ConsoleWriteDone]) with 1. unfold writes. lia.
    + set_solver.
    + by exists (display c).
  - destruct (Z.ltb_spec 0 (writeDone c)); [right|by left]. eexists. split; [done|].
    split; cbn; try done; try lia.
  - right. eexists. split; [done|]. destruct I7 as (d0 & Hd & Hq).
    assert (Hin : forall p, p <> EchoGet -> EOF ∉ typed c -> input_ok (set_echo p c)).
    { intros p Hp Hclean. destruct (I1 Hclean) as [Ho Hr]. split; cbn; [done|]. rewrite decide_False in * by done. exact Hr. }
    destruct (Z.eqb_spec ch char_q) as [->|Hne]; split; cbn; try done; try by apply Hin.
    + by exists d0.
    + rewrite Hd. apply Forall_app. split; [done|by constructor].
  - by left.
Qed.

(** An event happens, cannot, or is the poll that finds the input ended. *)
Lemma console_event_keeps e c : inv c ->
  match do_event e c with
  | Ok None => True
  | Ok (Some c') => inv c'
  | Stop w => w = AssertFailed /\ ended c = true /\ keyboard c = [] /\ incoming c = EOF
  end.
Proof.
  intros Hi. destruct e as [ch| |i|]; cbn [do_event].
  - destruct (ended c); [done|]. by apply type_keeps.
  - destruct (ended c); [done|]. by destruct Hi.
  - destruct (scheduled c !! i) as [[]|] eqn:Hs; [| |done].
    + pose proof (poll_keeps c i Hi Hs) as H. by destruct (CheckCharAvail _).
    + by apply write_done_keeps.
  - destruct (thread_keeps c Hi) as [-> | (c' & -> & Hi')]; done.
Qed.

Lemma console_reachable_inv c : reachable c -> inv c.
Proof.
  induction 1 as [|e c c' _ IH Hrun]; [apply console_inv_new|].
  pose proof (console_event_keeps e c IH) as H. by rewrite Hrun in H.
Qed.

(** ** Properties *)

(** C32. The echo of [ConsoleTest], under every interleaving of typing, the end of the
    input, interrupts and the thread.  [PutChar] is never called while the last
    character is being written, and no assertion fails but that of [Read], in a poll of
    an input that has ended and been read to its end.  The thread returns only after it
    has displayed a first q, and displays nothing after it.  While the character 255 has
    not been typed, what is displayed is the beginning of what was typed, in order and
    without loss, and as long as a typed character is not displayed and the thread has
    not returned, the thread can go on, or a pending interrupt brings a character in or
    ends a write.  (The character 255 is taken for an empty device.) *)
Theorem console_echoes_input c : reachable c ->
  (forall e w, do_event e c = Stop w ->
     w = AssertFailed /\ (exists i, e = EInterrupt i /\ scheduled c !! i = Some ConsoleReadPoll) /\
     ended c = true /\ keyboard c = [] /\ incoming c = EOF) /\
  (echo c = EchoDone -> exists d, display c = d ++ [char_q] /\ Forall (fun ch => ch <> char_q) d) /\
  (EOF ∉ typed c ->
     (exists rest, typed c = display c ++ rest) /\
     (echo c <> EchoDone -> typed c <> display c ->
        (exists c', echo_step c = Ok (Some c')) \/
        (exists i c', do_event (EInterrupt i) c = Ok (Some c') /\
           ((length (keyboard c') < length (keyboard c))%nat \/ writes (scheduled c') < writes (scheduled c))))).
Proof.
  intros Hi%console_reachable_inv. split_and!; [| |intros Hclean; split].
  - intros e w Hs. pose proof (console_event_keeps e c Hi) as H. rewrite Hs in H. split; [apply H|]. split; [|apply H].
    destruct e as [ch| |i|]; cbn [do_event] in Hs; [done|done| |].
    + exists i. split; [done|]. by destruct (scheduled c !! i) as [[]|].
    + destruct (thread_keeps c Hi) as [E|(c' & E & _)]; rewrite E in Hs; done.
  - intros He. pose proof (i_shown _ Hi) as H. by rewrite He in H.
  - exists (held c ++ keyboard c). by apply Hi.
  - intros Hnd Hneq. destruct Hi as [I1 I3 I4 I5 I6 I7]. destruct (I1 Hclean) as [Ho Hr]. unfold echo_step.
    destruct (echo c) as [| |ch|ch|] eqn:He; rewrite ?He in I4, I7; cbn [writing] in *; [| | |left; by eexists|done].
    + destruct (Z.ltb_spec 0 (readAvail c)); [left; by eexists|]. right.
      rewrite decide_False in Hr by done. assert (Hh : held c = []) by (apply nil_length_inv; lia).
      apply list_elem_of_lookup in I6 as [i Hs]. exists i. cbn [do_event]. rewrite Hs.
      unfold CheckCharAvail. cbn [keyboard set_ints incoming scheduled].
      rewrite Hh in Ho. cbn [app] in Ho. unfold held in Hh. destruct (incoming c =? EOF); [|done]. cbn [negb].
      destruct (keyboard c) as [|ch rest] eqn:Hk; [by rewrite app_nil_r in Ho|].
      eexists. split; [done|]. left. cbn [keyboard length]. lia.
    + left. assert (Hb : putBusy c = false) by (destruct (putBusy c); [specialize (I5 eq_refl); lia|done]).
      unfold GetChar, PutChar. cbn [putBusy]. rewrite Hb. by eexists.
    + destruct (Z.ltb_spec 0 (writeDone c)); [left; by eexists|]. right.
      assert (Hin : exists i, scheduled c !! i = Some ConsoleWriteDone).
      { assert (Hne : filter (fun i => i = ConsoleWriteDone) (scheduled c) <> []).
        { intros E. unfold writes in I4. rewrite E in I4. cbn in I4. lia. }
        destruct (filter _ (scheduled c)) as [|x l] eqn:E; [done|].
        assert (Hx : x ∈ filter (fun i => i = ConsoleWriteDone) (scheduled c)) by (rewrite E; left).
        apply list_elem_of_filter in Hx as [-> Hx]. by apply list_elem_of_lookup in Hx. }
      destruct Hin as [i Hs]. exists i. cbn [do_event]. rewrite Hs. eexists. split; [done|]. right.
      cbn. rewrite (writes_delete _ _ _ Hs). change (writes [ConsoleWriteDone]) with 1. lia.
Qed.

(** ** Witness *)

Definition play1 (e : event) (c : Console) : Console := match do_event e c with Ok (Some c') => c' | _ => c end.

(** An h was typed, read and is being written; the input has ended. *)
Definition echoing : Console :=
  play1 EEnd (play1 EThread (play1 EThread (play1 (EInterrupt 0) (play1 (EType 104) new_console)))).

Lemma echoing_reachable : reachable echoing.
Proof.
  assert (Hstep : forall e c, reachable c ->
    (if do_event e c is Ok (Some _) then true else false) = true -> reachable (play1 e c)).
  { intros e c Hc Hok. apply (reach_event e c); [done|]. unfold play1. by destruct (do_event e c) as [[c'|]|]. }
  unfold echoing. repeat (apply Hstep; [|vm_compute; reflexivity]). apply reach_new.
Qed.

Lemma console_echoes_input_witness :
  (exists rest, typed echoing = display echoing ++ rest) /\ display echoing = [104] /\
  forall e w, do_event e echoing = Stop w -> w = AssertFailed.
Proof.
  destruct (console_echoes_input echoing echoing_reachable) as (H1 & _ & H3).
  split; [|split; [reflexivity|intros e w H; exact (proj1 (H1 e w H))]].
  apply H3. apply (bool_decide_eq_true_1 _). vm_compute. reflexivity.
Defined.

(** The character 255 as a [char] is [EOF]: a poll that reads it leaves the device
    looking empty, the next one overwrites it, and the thread is told of two
    characters where it can get one. *)
Lemma char_255_is_lost ch : ch <> EOF ->
  let c := play1 (EInterrupt 0) (play1 (EInterrupt 0) (play1 (EType ch) (play1 (EType (-1)) new_console))) in
  typed c = [-1; ch] /\ keyboard c = [] /\ incoming c = ch /\ readAvail c = 2.
Proof. intros _. done. Qed.
