(* ===== verification/Interleave.v ===== *)
(** * Programs of threads that share locks

    Threads that lose the processor only at calls of the kernel: a program is a
    function that makes the next step of a thread, every order of steps is a run.
    Here are runs and their end, [Lock] of [threads/synch.cc] as its clients see it, and
    what they all keep: who is in a section holds its lock, who waits is in a queue.

    A thread at [Acquire] can go on when the semaphore of the lock is positive; that
    the kernel then has such a thread awake is what [KernelProps] shows of semaphores. *)

From S2P Require Import Prelude.

(** ** Runs *)

Section Runs.
Context {W : Type} (step : nat -> W -> option W).

(** [s] after [n] steps of the threads from [s0], in some order. *)
Inductive steps (s0 : W) : nat -> W -> Prop :=
| steps_none : steps s0 0 s0
| steps_more n t s s' : steps s0 n s -> step t s = Some s' -> steps s0 (S n) s'.

(** A run by a given schedule; threads that cannot go on are passed over. *)
Fixpoint by_schedule (ts : list nat) (s : W) : nat * W :=
  match ts with
  | [] => (0%nat, s)
  | t :: ts =>
      match step t s with
      | Some s => let '(n, s) := by_schedule ts s in (S n, s)
      | None => by_schedule ts s
      end
  end.

Lemma steps_trans s0 n s : steps s0 n s -> forall m s', steps s m s' -> steps s0 (m + n) s'.
Proof. intros H m s' H'. induction H' as [|m t s1 s' _ IH Hs]; [done|]. by eapply steps_more. Qed.
Lemma by_schedule_steps ts s n s' : by_schedule ts s = (n, s') -> steps s n s'.
Proof.
  revert s n s'. induction ts as [|t ts IH]; intros s n s' H; cbn in H; [injection H as <- <-; constructor|].
  destruct (step t s) as [s1|] eqn:Hs; [|by apply IH].
  destruct (by_schedule ts s1) as [m s2] eqn:E. injection H as <- <-.
  replace (S m) with (m + 1)%nat by lia. eapply steps_trans; [by eapply steps_more; [constructor|]|by apply IH].
Qed.

Context (inv : W -> Prop) (measure : W -> nat).
Context (Hinv : forall t s s', inv s -> step t s = Some s' -> inv s').

Lemma steps_inv s0 n s : inv s0 -> steps s0 n s -> inv s.
Proof. intros H0. induction 1; eauto. Qed.

Context (Hdec : forall t s s', inv s -> step t s = Some s' -> (measure s' < measure s)%nat).

(** Every run is at most as long as the measure of its first state. *)
Lemma steps_bound s0 n s : inv s0 -> steps s0 n s -> (n + measure s <= measure s0)%nat.
Proof.
  intros H0 H. induction H as [|n t s s' H IH Hs]; [lia|]. pose proof (Hdec t s s' (steps_inv _ _ _ H0 H) Hs). lia.
Qed.

(** A program in which some thread can go on until all is done gets there. *)
Lemma runs_finish (done : W -> Prop) s : (forall s, inv s -> done s \/ exists t s', step t s = Some s') ->
  inv s -> exists n s', steps s n s' /\ done s'.
Proof.
  intros Hgo. induction s as [s IH] using (induction_ltof1 _ measure). unfold ltof in IH. intros Hs.
  destruct (Hgo s Hs) as [Hd|(t & s1 & H1)]; [exists 0%nat, s; by split; [constructor|]|].
  destruct (IH s1 (Hdec _ _ _ Hs H1) (Hinv _ _ _ Hs H1)) as (n & s' & Hn & Hd). exists (n + 1)%nat, s'. split; [|done].
  eapply steps_trans; [|exact Hn]. eapply steps_more; [constructor|done].
Qed.
End Runs.

(** ** Counting threads by where they are *)

Definition b2n (b : bool) : nat := if b then 1 else 0.
Definition count_if {P : Type} (f : P -> bool) (l : list P) : nat := sum_list_with (fun p => b2n (f p)) l.
Arguments count_if {P} f l : simpl never.

(** [class Lock]: the value of its semaphore, and [holdingThread]. *)
Record Lk : Type := MkLk { lk_value : nat; lk_holder : option nat }.

(** [Lock::Lock], [Lock::Acquire] by thread [t] ([None]: it has to wait),
    [Lock::Release] by any thread. *)
Definition new_lk : Lk := MkLk 1 None.
Definition lk_acquire (t : nat) (k : Lk) : option Lk :=
  match lk_value k with O => None | S v => Some (MkLk v (Some t)) end.
Definition lk_release (k : Lk) : Lk := MkLk (S (lk_value k)) None.

Section Places.
Context {P : Type}.
Implicit Types (l : list P) (p q : P).

Lemma sum_insert (f : P -> nat) l t p q : l !! t = Some p ->
  (sum_list_with f (<[t := q]> l) + f p = sum_list_with f l + f q)%nat.
Proof.
  revert t. induction l as [|x l IH]; intros [|t] H; [done|done| |].
  - injection H as ->. cbn. lia.
  - specialize (IH t H). change (<[S t := q]> (x :: l)) with (x :: <[t := q]> l). cbn [sum_list_with]. lia.
Qed.
Lemma count_insert_if f l t p q : l !! t = Some p ->
  (count_if f (<[t := q]> l) + b2n (f p) = count_if f l + b2n (f q))%nat.
Proof. apply (sum_insert (fun p => b2n (f p))). Qed.
Lemma sum_at_least (f : P -> nat) l t p : l !! t = Some p -> (f p <= sum_list_with f l)%nat.
Proof.
  revert t. induction l as [|x l IH]; intros [|t] H; [done|done| |]; cbn [sum_list_with].
  - injection H as ->. lia.
  - specialize (IH t H). lia.
Qed.
Lemma count_at_least f l t p : l !! t = Some p -> f p = true -> (1 <= count_if f l)%nat.
Proof. intros H Hf. pose proof (sum_at_least (fun p => b2n (f p)) l t p H) as Hs. cbn in Hs. by rewrite Hf in Hs. Qed.
Lemma sum_some (f : P -> nat) l : (0 < sum_list_with f l)%nat -> exists t p, l !! t = Some p /\ (0 < f p)%nat.
Proof.
  induction l as [|x l IH]; cbn; [lia|]. intros H. destruct (decide (f x = 0%nat)) as [E|E].
  - destruct IH as (t & p & H1 & H2); [lia|]. by exists (S t), p.
  - exists 0%nat, x. split; [done|lia].
Qed.
Lemma count_some f l : (0 < count_if f l)%nat -> exists t p, l !! t = Some p /\ f p = true.
Proof. intros (t & p & H1 & H2)%sum_some. exists t, p. split; [done|]. destruct (f p); [done|cbn in H2; lia]. Qed.
Lemma count_none f l : (forall t p, l !! t = Some p -> f p = false) -> count_if f l = 0%nat.
Proof. intros H. destruct (decide (count_if f l = 0%nat)); [done|]. destruct (count_some f l) as (t & p & H1 & H2); [lia|]. by rewrite (H t p H1) in H2. Qed.
Lemma count_zero f l t p : count_if f l = 0%nat -> l !! t = Some p -> f p = false.
Proof. intros H Ht. destruct (f p) eqn:E; [|done]. pose proof (count_at_least f l t p Ht E). lia. Qed.
Lemma sum_zero (f : P -> nat) l : (forall t p, l !! t = Some p -> f p = 0%nat) -> sum_list_with f l = 0%nat.
Proof.
  intros H. destruct (decide (sum_list_with f l = 0%nat)); [done|].
  destruct (sum_some f l) as (t & p & H1 & H2); [lia|]. rewrite (H t p H1) in H2. lia.
Qed.
Lemma count_unique f l t p u q : (count_if f l <= 1)%nat -> l !! t = Some p -> f p = true -> l !! u = Some q -> f q = true -> u = t.
Proof.
  intros H Ht Hp Hu Hq. destruct (decide (u = t)) as [|Hne]; [done|]. revert t u H Ht Hu Hne.
  induction l as [|x l IH]; intros [|t] [|u] H Ht Hu Hne; try done; cbn in Ht, Hu; unfold count_if in H, IH; cbn [sum_list_with] in H.
  - injection Ht as ->. rewrite Hp in H. pose proof (count_at_least f l u q Hu Hq) as H1. unfold count_if in H1. cbn [b2n] in H. lia.
  - injection Hu as ->. rewrite Hq in H. pose proof (count_at_least f l t p Ht Hp) as H1. unfold count_if in H1. cbn [b2n] in H. lia.
  - f_equal. apply IH; [lia|done|done|congruence].
Qed.
Lemma count_fmap {Q : Type} (f : P -> bool) (g : Q -> P) (l : list Q) : count_if f (g <$> l) = count_if (fun x => f (g x)) l.
Proof. unfold count_if. induction l as [|x l IH]; cbn; [done|]. by rewrite IH. Qed.
Lemma count_ext f g l : (forall p, f p = g p) -> count_if f l = count_if g l.
Proof. intros H. unfold count_if. induction l as [|x l IH]; cbn; [done|]. by rewrite H, IH. Qed.
Lemma count_negb f l : (count_if f l + count_if (fun p => negb (f p)) l = length l)%nat.
Proof. unfold count_if. induction l as [|x l IH]; cbn; [done|]. destruct (f x); cbn; lia. Qed.
(** Some thread is at a place, or none is. *)
Lemma count_cases f l : (exists t p, l !! t = Some p /\ f p = true) \/ count_if f l = 0%nat.
Proof. destruct (decide (count_if f l = 0%nat)); [by right|]. left. apply count_some. lia. Qed.

Lemma count_disjoint f g h l : (forall p, b2n (f p) + b2n (g p) <= b2n (h p))%nat ->
  (count_if f l + count_if g l <= count_if h l)%nat.
Proof. intros H. unfold count_if. induction l as [|x l IH]; cbn; [lia|]. specialize (H x). lia. Qed.
Lemma count_split f g l : count_if f l = (count_if (fun p => f p && g p) l + count_if (fun p => f p && negb (g p)) l)%nat.
Proof. unfold count_if. induction l as [|x l IH]; cbn; [lia|]. destruct (f x), (g x); cbn; lia. Qed.

Lemma alter_at (f : P -> P) l u p : l !! u = Some p -> alter f u l = <[u := f p]> l.
Proof.
  intros Hu. apply list_eq. intros v. destruct (decide (v = u)) as [->|Hne].
  - rewrite list_lookup_alter_eq, Hu, list_lookup_insert_eq by (by eapply lookup_lt_Some). done.
  - by rewrite list_lookup_alter_ne, list_lookup_insert_ne by done.
Qed.
Lemma lookup_moved_to l t p q u r : l !! t = Some p -> <[t := q]> l !! u = Some r ->
  (u = t /\ r = q) \/ (u <> t /\ l !! u = Some r).
Proof.
  intros Ht Hu. destruct (decide (u = t)) as [->|Hne].
  - left. rewrite list_lookup_insert_eq in Hu by (by eapply lookup_lt_Some). by injection Hu as <-.
  - right. by rewrite list_lookup_insert_ne in Hu by done.
Qed.

(** ** Sections *)

(** The lock is free or exactly one thread is in the section it guards, its holder. *)
Record guarded (section : P -> bool) (k : Lk) (l : list P) : Prop := {
  gd_value : (lk_value k + count_if section l = 1)%nat;
  gd_holder : forall t p, l !! t = Some p -> section p = true -> lk_holder k = Some t
}.

Lemma guarded_new section l : (forall t p, l !! t = Some p -> section p = false) -> guarded section new_lk l.
Proof. intros H. split; [by rewrite count_none|]. intros t p Hp Hs. by rewrite (H t p Hp) in Hs. Qed.
Lemma guarded_move section k l t p q : guarded section k l -> l !! t = Some p -> section q = section p ->
  guarded section k (<[t := q]> l).
Proof.
  intros [H1 H2] Ht Hs. split.
  - pose proof (count_insert_if section l t p q Ht). rewrite Hs in *. lia.
  - intros u r [[-> ->]|[_ H]]%(lookup_moved_to _ _ _ _ _ _ Ht) Hr; [|by eapply H2]. rewrite Hs in Hr. by eapply H2.
Qed.
Lemma guarded_acquire section k k' l t p q : guarded section k l -> l !! t = Some p -> lk_acquire t k = Some k' ->
  section p = false -> section q = true -> guarded section k' (<[t := q]> l).
Proof.
  intros [H1 H2] Ht Ha Hp Hq. unfold lk_acquire in Ha. destruct (lk_value k) as [|v] eqn:Hv; [done|]. injection Ha as <-.
  assert (v = 0%nat /\ count_if section l = 0%nat) as [-> H0] by lia. split; cbn.
  - pose proof (count_insert_if section l t p q Ht). rewrite Hp, Hq in *. cbn in *. lia.
  - intros u r [[-> ->]|[_ H]]%(lookup_moved_to _ _ _ _ _ _ Ht) Hr; [done|].
    pose proof (count_at_least section l u r H Hr). lia.
Qed.
Lemma guarded_release section k l t p q : guarded section k l -> l !! t = Some p ->
  section p = true -> section q = false -> guarded section (lk_release k) (<[t := q]> l).
Proof.
  intros [H1 H2] Ht Hp Hq. pose proof (count_insert_if section l t p q Ht). pose proof (count_at_least section l t p Ht Hp).
  rewrite Hp, Hq in *. cbn in *. split; [cbn; lia|].
  intros u r H' Hr. pose proof (count_at_least section _ u r H' Hr). lia.
Qed.
(** What is only done in the section is done by its one thread. *)
Lemma guarded_count section k l t p f : guarded section k l -> l !! t = Some p -> section p = true ->
  (forall r, f r = true -> section r = true) -> count_if f l = b2n (f p).
Proof.
  intros [Hv _] Ht Hp Hf. pose proof (count_split section f l) as Hs.
  pose proof (count_disjoint f (fun _ => false) (fun r => section r && f r) l) as Hle.
  pose proof (count_disjoint (fun r => section r && f r) (fun _ => false) f l) as Hge.
  assert (count_if f l = count_if (fun r => section r && f r) l) as ->.
  { rewrite (count_none (fun _ => false)) in Hle, Hge by done. apply Nat.le_antisymm.
    - rewrite <- Hle; [lia|]. intros r. specialize (Hf r). destruct (f r), (section r); cbn; naive_solver lia.
    - rewrite <- Hge; [lia|]. intros r. destruct (f r), (section r); cbn; lia. }
  destruct (f p) eqn:E; cbn.
  - pose proof (count_at_least (fun r => section r && f r) l t p Ht ltac:(cbn beta; by rewrite Hp, E)). lia.
  - pose proof (count_at_least (fun r => section r && negb (f r)) l t p Ht ltac:(cbn beta; by rewrite Hp, E)). lia.
Qed.
(** The lock is free unless a thread is in the section. *)
Lemma guarded_free section k l t : guarded section k l -> (forall u p, l !! u = Some p -> section p = false) ->
  exists k', lk_acquire t k = Some k'.
Proof. intros [H _] Hn. rewrite count_none in H by done. unfold lk_acquire. destruct (lk_value k); [lia|]. eauto. Qed.

(** ** Queues of conditions *)

Record queued (waiting : P -> bool) (q : list nat) (l : list P) : Prop := {
  qu_nodup : NoDup q;
  qu_in : forall t, t ∈ q <-> exists p, l !! t = Some p /\ waiting p = true
}.

Lemma queued_new waiting l : (forall t p, l !! t = Some p -> waiting p = false) -> queued waiting [] l.
Proof.
  intros H. split; [constructor|]. intros t. split; [by intros ?%elem_of_nil|]. intros (p & Hp & Hw). by rewrite (H t p) in Hw.
Qed.
Lemma queued_move waiting qs l t p q : queued waiting qs l -> l !! t = Some p -> waiting p = false -> waiting q = false ->
  queued waiting qs (<[t := q]> l).
Proof.
  intros [H1 H2] Ht Hp Hq. split; [done|]. intros u. rewrite H2. split; intros (r & Hr & Hw).
  - exists r. rewrite list_lookup_insert_ne; [done|]. intros ->. congruence.
  - apply (lookup_moved_to _ _ _ _ _ _ Ht) in Hr as [[-> ->]|[_ Hr]]; [congruence|by exists r].
Qed.
Lemma queued_append waiting qs l t p q : queued waiting qs l -> l !! t = Some p -> waiting p = false -> waiting q = true ->
  queued waiting (qs ++ [t]) (<[t := q]> l).
Proof.
  intros [H1 H2] Ht Hp Hq. pose proof (lookup_lt_Some _ _ _ Ht) as Hlt. split.
  - apply NoDup_app. split; [done|]. split; [|apply NoDup_singleton]. intros u (r & Hr & Hw)%H2 ->%list_elem_of_singleton. congruence.
  - intros u. rewrite elem_of_app, list_elem_of_singleton, H2. split.
    + intros [(r & Hr & Hw)| ->]; [|exists q; by rewrite list_lookup_insert_eq].
      exists r. rewrite list_lookup_insert_ne; [done|]. intros ->. congruence.
    + intros (r & [[-> ->]|[Hne Hr]]%(lookup_moved_to _ _ _ _ _ _ Ht) & Hw); [by right|left; by exists r].
Qed.
Lemma queued_head waiting u qs l : queued waiting (u :: qs) l -> exists p, l !! u = Some p /\ waiting p = true.
Proof. intros [_ H]. apply H. by left. Qed.
Lemma queued_pop waiting u qs l q : queued waiting (u :: qs) l -> waiting q = false -> queued waiting qs (<[u := q]> l).
Proof.
  intros Hq Hw. destruct (queued_head _ _ _ _ Hq) as (p & Hp & _). destruct Hq as [[Hu H1]%NoDup_cons H2].
  split; [done|]. intros v. split.
  - intros Hv. destruct (proj1 (H2 v) ltac:(by right)) as (r & Hr & Hr'). exists r. rewrite list_lookup_insert_ne; [done|]. by intros ->.
  - intros (r & [[-> ->]|[Hne Hr]]%(lookup_moved_to _ _ _ _ _ _ Hp) & Hr'); [congruence|].
    pose proof (proj2 (H2 v) ltac:(by exists r)) as Hin. by apply elem_of_cons in Hin as [|].
Qed.
Lemma queued_nil waiting l t p : queued waiting [] l -> l !! t = Some p -> waiting p = false.
Proof.
  intros [_ H] Hp. destruct (waiting p) eqn:E; [|done]. pose proof (proj2 (H t) ltac:(by exists p)) as Hin. by apply elem_of_nil in Hin.
Qed.
End Places.
