(* ===== verification/SynchList.v ===== *)
(** * Synchronized lists: [threads/synchlist.cc]

    A list shared by threads, with a lock and a condition variable.  The threads
    are interleaved at the calls of the lock and the condition: between two of them
    a thread can lose the processor, and any other can go on.  A lock is taken when
    it is free; a signalled thread competes for the lock again, as
    [Condition::Wait] makes it. *)

From S2P Require Import Prelude NList Interleave.

Section SynchList.
Context {A : Type} (is_null : A -> bool).

(** ** The code *)

(** Where a thread is: outside, or before the call named. *)
Inductive pc : Type :=
| Out
| AppendAcquire (item : A) | AppendInsert (item : A) | AppendSignal | AppendRelease
| RemoveAcquire | RemoveTest | RemoveWaiting | RemoveTake | RemoveRelease (item : A)
| MapcarAcquire | MapcarApply | MapcarRelease (seen : list A).

(** [class SynchList]: the list, the holder of [lock], the queue of [listEmpty];
    the threads; what was appended, and what was removed, so far. *)
Record SynchList : Type := MkSL {
  items : list A;
  lock : option nat;
  listEmpty : list nat;
  pcs : list pc;
  appended : list A;
  removed : list A
}.

Definition set_pc (t : nat) (p : pc) (s : SynchList) : SynchList :=
  MkSL (items s) (lock s) (listEmpty s) (<[t := p]> (pcs s)) (appended s) (removed s).
Definition set_lock (l : option nat) (s : SynchList) : SynchList :=
  MkSL (items s) l (listEmpty s) (pcs s) (appended s) (removed s).
Definition set_listEmpty (q : list nat) (s : SynchList) : SynchList :=
  MkSL (items s) (lock s) q (pcs s) (appended s) (removed s).

(** [SynchList::SynchList], used by [n] threads. *)
Definition new_synch_list (n : nat) : SynchList := MkSL [] None [] (replicate n Out) [] [].

(** [lock->Acquire()] by [t], then [p]; [None] when it has to wait. *)
Definition acquire (t : nat) (p : pc) (s : SynchList) : option SynchList :=
  match lock s with None => Some (set_pc t p (set_lock (Some t) s)) | Some _ => None end.

(** [listEmpty->Signal(lock)]. *)
Definition signal (t : nat) (s : SynchList) : SynchList :=
  if bool_decide (lock s = Some t) then
    match listEmpty s with
    | [] => s
    | u :: q => set_pc u RemoveAcquire (set_listEmpty q s)
    end
  else s.

(** The next step of thread [t]: [Ok None] when it is blocked or in no call.  Items
    taken by [Remove] and seen by [Mapcar] are what [List] gives. *)
Definition sl_step (t : nat) (s : SynchList) : res (option SynchList) :=
  match pcs s !! t with
  | None | Some Out | Some RemoveWaiting => Ok None
  | Some (AppendAcquire item) => Ok (acquire t (AppendInsert item) s)
  | Some (AppendInsert item) =>
      Ok (Some (set_pc t AppendSignal
        (MkSL (items s ++ [item]) (lock s) (listEmpty s) (pcs s) (appended s ++ [item]) (removed s))))
  | Some AppendSignal => Ok (Some (set_pc t AppendRelease (signal t s)))
  | Some AppendRelease => Ok (Some (set_pc t Out (set_lock None s)))
  | Some RemoveAcquire => Ok (acquire t RemoveTest s)
  | Some RemoveTest =>
      match items s with
      | [] => Ok (Some (set_pc t RemoveWaiting (set_lock None (set_listEmpty (listEmpty s ++ [t]) s))))
      | _ => Ok (Some (set_pc t RemoveTake s))
      end
  | Some RemoveTake =>
      match items s with
      | [] => Stop AssertFailed
      | item :: rest =>
          if is_null item then Stop AssertFailed
          else Ok (Some (set_pc t (RemoveRelease item)
                 (MkSL rest (lock s) (listEmpty s) (pcs s) (appended s) (removed s ++ [item]))))
      end
  | Some (RemoveRelease item) => Ok (Some (set_pc t Out (set_lock None s)))
  | Some MapcarAcquire => Ok (acquire t MapcarApply s)
  | Some MapcarApply => Ok (Some (set_pc t (MapcarRelease (items s)) s))
  | Some (MapcarRelease seen) => Ok (Some (set_pc t Out (set_lock None s)))
  end.

(** The calls. *)
Definition Append (item : A) : pc := AppendAcquire item.
Definition Remove : pc := RemoveAcquire.
Definition Mapcar : pc := MapcarAcquire.

(** All interleavings of [n] threads that make calls, of which none appends a null
    pointer. *)
Inductive reachable (n : nat) : SynchList -> Prop :=
| reach_new : reachable n (new_synch_list n)
| reach_append t item s : reachable n s -> pcs s !! t = Some Out -> is_null item = false ->
    reachable n (set_pc t (Append item) s)
| reach_remove t s : reachable n s -> pcs s !! t = Some Out -> reachable n (set_pc t Remove s)
| reach_mapcar t s : reachable n s -> pcs s !! t = Some Out -> reachable n (set_pc t Mapcar s)
| reach_step t s s' : reachable n s -> sl_step t s = Ok (Some s') -> reachable n s'.

(** ** The invariant *)

(** The places where a thread holds the lock. *)
Definition in_section (p : pc) : bool :=
  match p with
  | AppendInsert _ | AppendSignal | AppendRelease | RemoveTest | RemoveTake | RemoveRelease _
  | MapcarApply | MapcarRelease _ => true
  | _ => false
  end.

(** The places from which a thread takes an item or wakes one that does. *)
Definition attends (p : pc) : bool :=
  match p with RemoveAcquire | RemoveTest | RemoveTake | AppendSignal => true | _ => false end.

Record inv (s : SynchList) : Prop := {
  i_section : forall t p, pcs s !! t = Some p -> (in_section p = true <-> lock s = Some t);
  i_holder : forall t, lock s = Some t -> is_Some (pcs s !! t);
  i_waiting : forall t, t ∈ listEmpty s <-> pcs s !! t = Some RemoveWaiting;
  i_nodup : NoDup (listEmpty s);
  i_take : forall t, pcs s !! t = Some RemoveTake -> items s <> [];
  i_wake : listEmpty s <> [] -> (length (items s) <= count_if attends (pcs s))%nat;
  i_fifo : appended s = removed s ++ items s;
  i_null : Forall (fun x => is_null x = false) (items s) /\
    forall t x, pcs s !! t = Some (AppendAcquire x) \/ pcs s !! t = Some (AppendInsert x) -> is_null x = false
}.

Lemma synch_inv_new n : inv (new_synch_list n).
Proof.
  assert (Hlk : forall t p, replicate n Out !! t = Some p -> p = Out) by (intros t p H; by apply lookup_replicate in H as [-> _]).
  split; cbn; try done.
  - intros t p ->%Hlk. done.
  - intros t. split; [by intros ?%elem_of_nil|]. by intros ?%Hlk.
  - apply NoDup_nil_2.
  - intros t ?%Hlk. done.
  - split; [done|]. by intros t x [?%Hlk|?%Hlk].
Qed.

Lemma waiting_moved s t p q : inv s -> pcs s !! t = Some p -> p <> RemoveWaiting -> q <> RemoveWaiting ->
  forall u, u ∈ listEmpty s <-> <[t := q]> (pcs s) !! u = Some RemoveWaiting.
Proof.
  intros Hi Ht Hp Hq u. rewrite (i_waiting _ Hi). split.
  - intros Hu. rewrite list_lookup_insert_ne; [done|]. intros ->. congruence.
  - intros [[_ ?]|[_ ?]]%(lookup_moved_to _ _ _ _ _ _ Ht); [congruence|done].
Qed.

Lemma holder_moved s t q u : inv s -> lock s = Some u -> is_Some (<[t := q]> (pcs s) !! u).
Proof.
  intros Hi Hu. destruct (i_holder _ Hi u Hu) as [r Hr]. apply lookup_lt_is_Some_2. rewrite length_insert.
  by eapply lookup_lt_Some.
Qed.
Lemma null_moved s t p q : inv s -> pcs s !! t = Some p ->
  (forall x, q = AppendAcquire x \/ q = AppendInsert x -> is_null x = false) ->
  forall u x, <[t := q]> (pcs s) !! u = Some (AppendAcquire x) \/ <[t := q]> (pcs s) !! u = Some (AppendInsert x) ->
    is_null x = false.
Proof.
  intros Hi Ht Hq u x H. pose proof (proj2 (i_null _ Hi) u x) as Hu.
  destruct H as [H|H]; apply (lookup_moved_to _ _ _ _ _ _ Ht) in H; naive_solver.
Qed.

(** The moves in which the thread neither takes nor gives up the lock, nor touches
    the items. *)
Lemma inv_move s t p q : inv s -> pcs s !! t = Some p ->
  in_section q = in_section p -> p <> RemoveWaiting -> q <> RemoveWaiting ->
  (q = RemoveTake -> items s <> []) ->
  (listEmpty s <> [] -> attends p = true -> attends q = true \/ (length (items s) < count_if attends (pcs s))%nat) ->
  (forall x, q = AppendAcquire x \/ q = AppendInsert x -> is_null x = false) -> inv (set_pc t q s).
Proof.
  intros Hi Ht Hsec Hp Hq Htake Hatt Hnull. split; cbn.
  - intros u r [[-> ->]|[_ H]]%(lookup_moved_to _ _ _ _ _ _ Ht); [|by apply (i_section _ Hi)].
    rewrite Hsec. by apply (i_section _ Hi).
  - intros. by apply holder_moved.
  - by eapply waiting_moved.
  - apply Hi.
  - intros u [[_ E]|[_ H]]%(lookup_moved_to _ _ _ _ _ _ Ht); [by apply Htake|by apply (i_take _ Hi u)].
  - intros Hw. pose proof (i_wake _ Hi Hw). pose proof (count_insert_if attends _ _ _ q Ht) as Hc.
    destruct (attends p); [destruct (Hatt Hw eq_refl) as [Hq'|]; [rewrite Hq' in Hc|]|]; try destruct (attends q); cbn in Hc; lia.
  - apply Hi.
  - split; [apply Hi|]. eapply null_moved; [done|done|naive_solver].
Qed.

(** Taking the lock. *)
Lemma inv_acquire s s' t p q : inv s -> pcs s !! t = Some p -> acquire t q s = Some s' ->
  in_section p = false -> in_section q = true -> p <> RemoveWaiting -> (attends p = true -> attends q = true) ->
  q <> RemoveTake -> (forall x, q = AppendInsert x -> is_null x = false) -> inv s'.
Proof.
  unfold acquire. intros Hi Ht H Hp Hq Hw Hatt Htake Hnull. destruct (lock s) as [u|] eqn:Hl; [done|]. injection H as <-.
  assert (Hqw : q <> RemoveWaiting) by (intros ->; done). split; cbn.
  - intros u r [[-> ->]|[Hne H]]%(lookup_moved_to _ _ _ _ _ _ Ht); [by rewrite Hq|].
    rewrite (i_section _ Hi u r H), Hl. split; [done|]. intros [= ->]. done.
  - intros u [= <-]. apply lookup_lt_is_Some_2. rewrite length_insert. by eapply lookup_lt_Some.
  - by eapply waiting_moved.
  - apply Hi.
  - intros u [[_ E]|[_ H]]%(lookup_moved_to _ _ _ _ _ _ Ht); [done|by apply (i_take _ Hi u)].
  - intros Hne. pose proof (i_wake _ Hi Hne). pose proof (count_insert_if attends _ _ _ q Ht) as Hc.
    destruct (attends p); [rewrite Hatt in Hc by done|]; destruct (attends q); cbn in Hc; lia.
  - apply Hi.
  - split; [apply Hi|]. eapply null_moved; [done|done|naive_solver].
Qed.

(** Giving up the lock at the end of a call. *)
Lemma inv_release s t p : inv s -> pcs s !! t = Some p -> in_section p = true -> attends p = false ->
  inv (set_pc t Out (set_lock None s)).
Proof.
  intros Hi Ht Hp Hatt. assert (Hw : p <> RemoveWaiting) by (intros ->; done).
  pose proof (proj1 (i_section _ Hi t p Ht) Hp) as Hl. split; cbn.
  - intros u r [[-> ->]|[Hne H]]%(lookup_moved_to _ _ _ _ _ _ Ht); [done|].
    rewrite (i_section _ Hi u r H), Hl. split; [|done]. intros [= ->]. done.
  - done.
  - by eapply waiting_moved.
  - apply Hi.
  - intros u [[_ E]|[_ H]]%(lookup_moved_to _ _ _ _ _ _ Ht); [done|by apply (i_take _ Hi u)].
  - intros Hne. pose proof (i_wake _ Hi Hne). pose proof (count_insert_if attends _ _ _ Out Ht) as Hc.
    rewrite Hatt in Hc. cbn in Hc. lia.
  - apply Hi.
  - split; [apply Hi|]. eapply null_moved; [done|done|naive_solver].
Qed.

(** Waking the first waiting thread. *)
Lemma inv_wake_one s u q : inv s -> listEmpty s = u :: q ->
  inv (set_pc u RemoveAcquire (set_listEmpty q s)) /\
  (length (items s) < count_if attends (<[u := RemoveAcquire]> (pcs s)))%nat.
Proof.
  intros Hi Hq. assert (Hu : pcs s !! u = Some RemoveWaiting) by (apply (i_waiting _ Hi); rewrite Hq; left).
  assert (Hne : listEmpty s <> []) by (by rewrite Hq). pose proof (i_wake _ Hi Hne) as Hwake.
  pose proof (count_insert_if attends _ _ _ RemoveAcquire Hu) as Hc. cbn in Hc.
  pose proof (i_nodup _ Hi) as Hnd. rewrite Hq in Hnd. apply NoDup_cons in Hnd as [Hnot Hnd].
  split; [|lia]. split; cbn.
  - intros v r [[-> ->]|[_ H]]%(lookup_moved_to _ _ _ _ _ _ Hu); [|by apply (i_section _ Hi)].
    pose proof (i_section _ Hi u _ Hu). cbn in *. done.
  - intros. by apply holder_moved.
  - intros v. destruct (decide (v = u)) as [->|Hne'].
    + rewrite list_lookup_insert_eq by (by eapply lookup_lt_Some). done.
    + rewrite list_lookup_insert_ne by done. rewrite <- (i_waiting _ Hi), Hq, elem_of_cons. naive_solver.
  - done.
  - intros v [[_ E]|[_ H]]%(lookup_moved_to _ _ _ _ _ _ Hu); [done|by apply (i_take _ Hi v)].
  - intros _. lia.
  - apply Hi.
  - split; [apply Hi|]. eapply null_moved; [done|done|naive_solver].
Qed.

(** [Append] of an item. *)
Lemma inv_insert s t x : inv s -> pcs s !! t = Some (AppendInsert x) ->
  inv (set_pc t AppendSignal (MkSL (items s ++ [x]) (lock s) (listEmpty s) (pcs s) (appended s ++ [x]) (removed s))).
Proof.
  intros Hi Ht. pose proof (proj2 (i_null _ Hi) t x (or_intror Ht)) as Hx.
  pose proof (count_insert_if attends _ _ _ AppendSignal Ht) as Hc. cbn in Hc. split; cbn.
  - intros u r [[-> ->]|[_ H]]%(lookup_moved_to _ _ _ _ _ _ Ht); [|by apply (i_section _ Hi)].
    by apply (i_section _ Hi t _ Ht).
  - intros. by apply holder_moved.
  - by eapply waiting_moved.
  - apply Hi.
  - intros u _. by destruct (items s).
  - intros Hne. pose proof (i_wake _ Hi Hne). rewrite length_app. cbn. lia.
  - by rewrite (i_fifo _ Hi), app_assoc.
  - split; [apply Forall_app; split; [apply Hi|by repeat constructor]|].
    eapply null_moved; [done|done|naive_solver].
Qed.

(** [Remove] of an item. *)
Lemma inv_take s t x rest : inv s -> pcs s !! t = Some RemoveTake -> items s = x :: rest ->
  inv (set_pc t (RemoveRelease x) (MkSL rest (lock s) (listEmpty s) (pcs s) (appended s) (removed s ++ [x]))).
Proof.
  intros Hi Ht Hit. pose proof (count_insert_if attends _ _ _ (RemoveRelease x) Ht) as Hc. cbn in Hc.
  pose proof (proj1 (i_section _ Hi t _ Ht) eq_refl) as Hl.
  assert (Hothers : forall u r, u <> t -> pcs s !! u = Some r -> in_section r = false).
  { intros u r Hne Hr. destruct (in_section r) eqn:E; [|done].
    pose proof (proj1 (i_section _ Hi u r Hr) E). congruence. }
  split; cbn.
  - intros u r [[-> ->]|[_ H]]%(lookup_moved_to _ _ _ _ _ _ Ht); [by rewrite Hl|by apply (i_section _ Hi)].
  - intros. by apply holder_moved.
  - by eapply waiting_moved.
  - apply Hi.
  - intros u [[_ E]|[Hne H]]%(lookup_moved_to _ _ _ _ _ _ Ht); [done|]. by specialize (Hothers u _ Hne H).
  - intros Hne. pose proof (i_wake _ Hi Hne) as Hw. rewrite Hit in Hw. cbn in Hw. lia.
  - rewrite (i_fifo _ Hi), Hit, <- app_assoc. done.
  - split; [pose proof (proj1 (i_null _ Hi)) as Hn; rewrite Hit in Hn; by apply Forall_cons in Hn as [_ Hn]|].
    eapply null_moved; [done|done|naive_solver].
Qed.

(** [Wait] on an empty list. *)
Lemma inv_wait s t : inv s -> pcs s !! t = Some RemoveTest -> items s = [] ->
  inv (set_pc t RemoveWaiting (set_lock None (set_listEmpty (listEmpty s ++ [t]) s))).
Proof.
  intros Hi Ht Hit. pose proof (proj1 (i_section _ Hi t _ Ht) eq_refl) as Hl. split; cbn.
  - intros u r [[-> ->]|[Hne H]]%(lookup_moved_to _ _ _ _ _ _ Ht); [done|].
    rewrite (i_section _ Hi u r H), Hl. split; [|done]. intros [= ->]. done.
  - done.
  - intros u. rewrite elem_of_app, list_elem_of_singleton, (i_waiting _ Hi). destruct (decide (u = t)) as [->|Hne].
    + rewrite list_lookup_insert_eq by (by eapply lookup_lt_Some). naive_solver.
    + rewrite list_lookup_insert_ne by done. naive_solver.
  - apply NoDup_app. split; [apply Hi|]. split; [|apply NoDup_singleton].
    intros u Hu ->%list_elem_of_singleton. apply (i_waiting _ Hi) in Hu. congruence.
  - intros u [[_ E]|[Hne H]]%(lookup_moved_to _ _ _ _ _ _ Ht); [done|by apply (i_take _ Hi u)].
  - intros _. rewrite Hit. cbn. lia.
  - apply Hi.
  - split; [apply Hi|]. eapply null_moved; [done|done|naive_solver].
Qed.

Lemma inv_step t s s' : inv s -> sl_step t s = Ok (Some s') -> inv s'.
Proof.
  intros Hi. unfold sl_step. destruct (pcs s !! t) as [p|] eqn:Ht; [|done].
  destruct p; intros H; try done; try (injection H as H).
  - eapply inv_acquire; [done|exact Ht|exact H|done..|]. intros x [= <-]. apply (proj2 (i_null _ Hi) t). by left.
  - subst s'. by apply inv_insert.
  - subst s'. unfold signal. pose proof (proj1 (i_section _ Hi t _ Ht) eq_refl) as Hl. rewrite bool_decide_true by done.
    destruct (listEmpty s) as [|u q] eqn:Hq.
    + eapply inv_move; [done|exact Ht|done..| |]; [by rewrite Hq|naive_solver].
    + destruct (inv_wake_one s u q Hi Hq) as [Hi' Hlt].
      assert (Hne : u <> t).
      { intros ->. assert (pcs s !! t = Some RemoveWaiting) by (apply (i_waiting _ Hi); rewrite Hq; left). congruence. }
      eapply inv_move; [done|cbn; rewrite list_lookup_insert_ne by done; exact Ht|done..| |]; [by right|naive_solver].
  - subst s'. by eapply inv_release.
  - by eapply inv_acquire.
  - destruct (items s) as [|x rest] eqn:Hit; injection H as <-.
    + by apply inv_wait.
    + eapply inv_move; [done|exact Ht|done..| | |]; [by rewrite Hit|by left|naive_solver].
  - destruct (items s) as [|x rest] eqn:Hit; [done|]. destruct (is_null x); [done|]. injection H as <-. by apply inv_take.
  - subst s'. by eapply inv_release.
  - by eapply inv_acquire.
  - subst s'. eapply inv_move; [done|exact Ht|done..|naive_solver].
  - subst s'. by eapply inv_release.
Qed.

Lemma synch_reachable_inv n s : reachable n s -> inv s.
Proof.
  induction 1 as [|t item s _ IH Hout Hnull|t s _ IH Hout|t s _ IH Hout|t s s' _ IH H].
  - apply synch_inv_new.
  - eapply inv_move; [done|exact Hout|done..|]. unfold Append. naive_solver.
  - eapply inv_move; [done|exact Hout|done..|]. unfold Remove. naive_solver.
  - eapply inv_move; [done|exact Hout|done..|]. unfold Mapcar. naive_solver.
  - by eapply inv_step.
Qed.

(** ** Properties *)

(** C6. A synchronized list under every interleaving of its threads: at most one
    thread is between [Acquire] and [Release]; the items leave in the order they
    were appended, none lost and none twice; [Remove] never meets the assertion
    that its item is not null; and no wakeup is lost: while an item is there and a
    thread waits for one, some thread can go on. *)
Theorem synch_list_correct n s : reachable n s ->
  (forall t u p q, pcs s !! t = Some p -> pcs s !! u = Some q -> in_section p = true -> in_section q = true -> t = u) /\
  appended s = removed s ++ items s /\
  (forall t w, sl_step t s <> Stop w) /\
  (items s <> [] -> listEmpty s <> [] -> exists t s', sl_step t s = Ok (Some s')).
Proof.
  intros Hi%synch_reachable_inv. split_and!; [| | |].
  - intros t u p q Ht Hu Hp Hq. apply (i_section _ Hi t p Ht) in Hp. apply (i_section _ Hi u q Hu) in Hq. congruence.
  - apply Hi.
  - intros t w. unfold sl_step. destruct (pcs s !! t) as [p|] eqn:Ht; [|done]. destruct p; try done; [by destruct (items s)|].
    pose proof (i_take _ Hi t Ht). destruct (items s) as [|x rest] eqn:Hit; [done|].
    pose proof (proj1 (i_null _ Hi)) as Hn. rewrite Hit in Hn. apply Forall_cons in Hn as [-> _]. done.
  - intros Hit Hw. destruct (lock s) as [t|] eqn:Hl.
    + destruct (i_holder _ Hi t Hl) as [p Hp]. pose proof (proj2 (i_section _ Hi t p Hp) Hl) as Hs. exists t.
      unfold sl_step. rewrite Hp. destruct p; try done; try (by eexists).
      * destruct (items s); by eexists.
      * destruct (items s) as [|x rest] eqn:E; [done|]. pose proof (proj1 (i_null _ Hi)) as Hn. rewrite E in Hn.
        apply Forall_cons in Hn as [-> _]. by eexists.
    + pose proof (i_wake _ Hi Hw) as Hc. destruct (items s) as [|x rest]; [done|]. cbn in Hc.
      destruct (count_some attends (pcs s)) as (t & p & Hp & Ha); [lia|]. exists t. unfold sl_step, acquire. rewrite Hp.
      pose proof (i_section _ Hi t p Hp) as Hs. rewrite Hl in *.
      destruct p; try done; [destruct Hs as [Hs _]; by specialize (Hs eq_refl)|by eexists|destruct Hs as [Hs _]; by specialize (Hs eq_refl)..].
Qed.
End SynchList.

(** Thread 0 waits in [Remove]; thread 1 has appended 5 and is about to signal. *)
Definition waiting_and_item : @SynchList Z := MkSL [5] (Some 1%nat) [0%nat] [RemoveWaiting; AppendSignal] [5] [].

Lemma waiting_and_item_reachable : reachable (Z.eqb 0) 2 waiting_and_item.
Proof.
  assert (H0 : reachable (Z.eqb 0) 2 (MkSL [] None [] [Out; Out] [] [])) by exact (reach_new (Z.eqb 0) 2).
  assert (H1 : reachable (Z.eqb 0) 2 (MkSL [] None [] [RemoveAcquire; Out] [] []))
    by exact (reach_remove _ _ 0 _ H0 eq_refl).
  assert (H2 : reachable (Z.eqb 0) 2 (MkSL [] (Some 0%nat) [] [RemoveTest; Out] [] []))
    by exact (reach_step _ _ 0 _ _ H1 eq_refl).
  assert (H3 : reachable (Z.eqb 0) 2 (MkSL [] None [0%nat] [RemoveWaiting; Out] [] []))
    by exact (reach_step _ _ 0 _ _ H2 eq_refl).
  assert (H4 : reachable (Z.eqb 0) 2 (MkSL [] None [0%nat] [RemoveWaiting; AppendAcquire 5] [] []))
    by exact (reach_append _ _ 1 5 _ H3 eq_refl eq_refl).
  assert (H5 : reachable (Z.eqb 0) 2 (MkSL [] (Some 1%nat) [0%nat] [RemoveWaiting; AppendInsert 5] [] []))
    by exact (reach_step _ _ 1 _ _ H4 eq_refl).
  exact (reach_step _ _ 1 _ _ H5 eq_refl).
Qed.

Lemma synch_list_correct_witness :
  exists t s', sl_step (Z.eqb 0) t waiting_and_item = Ok (Some s').
Proof.
  destruct (synch_list_correct (Z.eqb 0) 2 waiting_and_item waiting_and_item_reachable) as (_ & _ & _ & H).
  apply H; discriminate.
Defined.
