(* ===== verification/ThreadTests.v ===== *)
(** * Clients of the synchronization calls: [threads/threadtest.cc]

    Readers and writers ([read], [write]), the barrier ([barrierRun]) and the bounded
    buffer with condition variables ([produce_withCondition], [consume_withCondition]),
    each as the steps of its threads between calls of locks and conditions.  Each comes
    with its invariant, that a thread can go on until all have ended, and a bound on the
    number of steps. *)

From S2P Require Import Prelude Interleave.

(** Schedules that give four threads their turns. *)
Definition round_robin (n : nat) : list nat := concat (replicate n [0; 1; 2; 3]%nat).

(** ** Readers and writers *)

Module ReadersWriters.

(** Where a thread is in round [i]: before the call, or the statement, named. *)
Inductive pc : Type :=
| RAcquire (i : nat) | RCount (i : nat) | RLock (i : nat) | RRelease (i : nat) | RPrint (i : nat)
| RAcquire2 (i : nat) | RUncount (i : nat) | RUnlock (i : nat) | RRelease2 (i : nat) | RYield (i : nat)
| WAcquire (i : nat) | WWrite (i : nat) | WPrint (i : nat) | WRelease (i : nat) | WYield (i : nat)
| Done.

(** What is printed. *)
Inductive line : Type := ReadLine (t : nat) (v : Z) | WroteLine (t : nat) (v : Z).

(** The globals, the threads, and the output so far. *)
Record RW : Type := MkRW {
  content : Z;
  readerCount : Z;
  rcLock : Lk;
  writeLock : Lk;
  pcs : list pc;
  out : list line
}.

(** The next step of thread [t]; [None] when it has ended or has to wait for a lock. *)
Definition rw_step (t : nat) (s : RW) : option RW :=
  let 'MkRW c n rc wl ps o := s in
  let to p := <[t := p]> ps in
  match ps !! t with
  | None | Some Done => None
  | Some (RAcquire i) => rc ← lk_acquire t rc; Some (MkRW c n rc wl (to (RCount i)) o)
  | Some (RCount i) => Some (MkRW c (n + 1) rc wl (to (if n + 1 =? 1 then RLock i else RRelease i)) o)
  | Some (RLock i) => wl ← lk_acquire t wl; Some (MkRW c n rc wl (to (RRelease i)) o)
  | Some (RRelease i) => Some (MkRW c n (lk_release rc) wl (to (RPrint i)) o)
  | Some (RPrint i) => Some (MkRW c n rc wl (to (RAcquire2 i)) (o ++ [ReadLine t c]))
  | Some (RAcquire2 i) => rc ← lk_acquire t rc; Some (MkRW c n rc wl (to (RUncount i)) o)
  | Some (RUncount i) => Some (MkRW c (n - 1) rc wl (to (if n - 1 =? 0 then RUnlock i else RRelease2 i)) o)
  | Some (RUnlock i) => Some (MkRW c n rc (lk_release wl) (to (RRelease2 i)) o)
  | Some (RRelease2 i) => Some (MkRW c n (lk_release rc) wl (to (RYield i)) o)
  | Some (RYield i) => Some (MkRW c n rc wl (to (if (S i <? 5)%nat then RAcquire (S i) else Done)) o)
  | Some (WAcquire i) => wl ← lk_acquire t wl; Some (MkRW c n rc wl (to (WWrite i)) o)
  | Some (WWrite i) => Some (MkRW (c + 1) n rc wl (to (WPrint i)) o)
  | Some (WPrint i) => Some (MkRW c n rc wl (to (WRelease i)) (o ++ [WroteLine t c]))
  | Some (WRelease i) => Some (MkRW c n rc (lk_release wl) (to (WYield i)) o)
  | Some (WYield i) => Some (MkRW c n rc wl (to (if (S i <? 5)%nat then WAcquire (S i) else Done)) o)
  end.

(** [ThreadTest9] with any number of threads in any order, [true] for a reader. *)
Definition start (kinds : list bool) : RW :=
  MkRW 0 0 new_lk new_lk ((fun b : bool => if b then RAcquire 0 else WAcquire 0) <$> kinds) [].
Definition ThreadTest9 : RW := start [false; true; true; false].

(** ** The invariant *)

(** Threads that hold [rcLock]; that are counted in [readerCount]; that are at the
    acquisition, the release of [writeLock] for the readers; that hold it to write; that
    have written and not printed. *)
Definition in_rc (p : pc) : bool :=
  match p with RCount _ | RLock _ | RRelease _ | RUncount _ | RUnlock _ | RRelease2 _ => true | _ => false end.
Definition counted (p : pc) : bool :=
  match p with RLock _ | RRelease _ | RPrint _ | RAcquire2 _ | RUncount _ => true | _ => false end.
Definition locking (p : pc) : bool := match p with RLock _ => true | _ => false end.
Definition unlocking (p : pc) : bool := match p with RUnlock _ => true | _ => false end.
Definition writing (p : pc) : bool := match p with WWrite _ | WPrint _ | WRelease _ => true | _ => false end.
Definition unprinted (p : pc) : bool := match p with WPrint _ => true | _ => false end.
Definition reading (p : pc) : bool := match p with RPrint _ => true | _ => false end.

(** Writes a thread still makes. *)
Definition to_write (p : pc) : nat :=
  match p with WAcquire i | WWrite i => 5 - i | WPrint i | WRelease i | WYield i => 4 - i | _ => 0 end.

Definition round_ok (p : pc) : Prop :=
  match p with
  | RAcquire i | RCount i | RLock i | RRelease i | RPrint i | RAcquire2 i | RUncount i | RUnlock i | RRelease2 i
  | RYield i | WAcquire i | WWrite i | WPrint i | WRelease i | WYield i => (i < 5)%nat
  | Done => True
  end.

(** The output of a counter: each write makes it one more, each read shows it. *)
Fixpoint replay (c : Z) (o : list line) : option Z :=
  match o with
  | [] => Some c
  | ReadLine _ v :: o => if v =? c then replay c o else None
  | WroteLine _ v :: o => if v =? c + 1 then replay v o else None
  end.

Record rw_inv (writers : nat) (s : RW) : Prop := {
  ri_rc : guarded in_rc (rcLock s) (pcs s);
  ri_count : readerCount s = Z.of_nat (count_if counted (pcs s));
  ri_first : (0 < count_if locking (pcs s))%nat -> readerCount s = 1;
  ri_last : (0 < count_if unlocking (pcs s))%nat -> readerCount s = 0;
  ri_write : (lk_value (writeLock s) + count_if writing (pcs s) + count_if unlocking (pcs s)
               + b2n (0 <? readerCount s)%Z = 1 + count_if locking (pcs s))%nat;
  ri_out : replay 0 (out s) = Some (content s - Z.of_nat (count_if unprinted (pcs s)));
  ri_rounds : forall t p, pcs s !! t = Some p -> round_ok p;
  ri_total : content s + Z.of_nat (sum_list_with to_write (pcs s)) = 5 * Z.of_nat writers
}.

Lemma replay_app c o o' : replay c (o ++ o') = c ← replay c o; replay c o'.
Proof.
  revert c. induction o as [|[t v|t v] o IH]; intros c; cbn; [done| |].
  - by destruct (v =? c).
  - by destruct (v =? c + 1).
Qed.

(** The counts after thread [t] goes from [p] to [q]. *)
Ltac rw_counts Ht q :=
  pose proof (count_insert_if counted _ _ _ q Ht);
  pose proof (count_insert_if locking _ _ _ q Ht);
  pose proof (count_insert_if unlocking _ _ _ q Ht);
  pose proof (count_insert_if writing _ _ _ q Ht);
  pose proof (count_insert_if unprinted _ _ _ q Ht);
  pose proof (sum_insert to_write _ _ _ q Ht).

(** A thread that reads excludes the writers. *)
Lemma readers_exclude s w : rw_inv w s -> (0 < count_if reading (pcs s))%nat -> count_if writing (pcs s) = 0%nat.
Proof.
  intros [_ I2 I3 _ I5 _ _ _] Hr. pose proof (count_disjoint locking reading counted (pcs s)) as Hc.
  specialize (Hc ltac:(by intros []; cbn; lia)).
  destruct (Z.ltb_spec 0 (readerCount s)); cbn in I5; lia.
Qed.
Lemma one_writer s w : rw_inv w s -> (count_if writing (pcs s) <= 1)%nat /\ (count_if unprinted (pcs s) <= count_if writing (pcs s))%nat.
Proof.
  intros [I1 I2 I3 _ I5 _ _ _]. split.
  - pose proof (count_disjoint locking (fun _ => false) counted (pcs s) ltac:(by intros []; cbn; lia)).
    destruct (Z.ltb_spec 0 (readerCount s)); cbn in I5; [|lia].
    destruct (decide (count_if locking (pcs s) = 0%nat)); [lia|].
    pose proof (count_disjoint locking (fun _ => false) in_rc (pcs s) ltac:(by intros []; cbn; lia)).
    pose proof (gd_value _ _ _ I1). lia.
  - pose proof (count_disjoint unprinted (fun _ => false) writing (pcs s) ltac:(by intros []; cbn; lia)). lia.
Qed.

Lemma acquire_value t k k' : lk_acquire t k = Some k' -> lk_value k = S (lk_value k').
Proof. unfold lk_acquire. destruct (lk_value k); [done|]. by intros [= <-]. Qed.

(** A thread goes from where [Ht] says to [q]; what is left is the output. *)
Ltac rw_goes Ht q :=
  rw_counts Ht q; cbn [counted locking unlocking writing unprinted to_write b2n] in *;
  split; cbn [content readerCount rcLock writeLock pcs out lk_value lk_release];
  [ first [ eapply guarded_move; [eassumption|exact Ht|done]
          | eapply guarded_acquire; [eassumption|exact Ht|eassumption|done|done]
          | eapply guarded_release; [eassumption|exact Ht|done|done] ]
  | lia | intros; lia | intros; lia
  | repeat match goal with |- context [(0 <? ?x)%Z] => destruct (Z.ltb_spec 0 x)
           | H : context [(0 <? ?x)%Z] |- _ => destruct (Z.ltb_spec 0 x) end; cbn [b2n] in *; lia
  |
  | let u := fresh "u" in let r := fresh "r" in intros u r [[-> ->]|[_ ?]]%(lookup_moved_to _ _ _ _ _ _ Ht);
      [cbn; lia|by eauto]
  | lia ].

Lemma rw_keeps w t s s' : rw_inv w s -> rw_step t s = Some s' -> rw_inv w s'.
Proof.
  intros I H. pose proof (one_writer s w I) as [W1 W2]. pose proof (readers_exclude s w I) as R1.
  destruct I as [I1 I2 I3 I4 I5 I6 I7 I8]. destruct s as [c n rc wl ps o].
  cbn [content readerCount rcLock writeLock pcs out] in *.
  cbn [rw_step] in H. destruct (ps !! t) as [p|] eqn:Ht; [|done]. pose proof (I7 t p Ht) as Hi.
  destruct p; cbn in Hi; try done;
    try (destruct (lk_acquire t _) as [k'|] eqn:Ha; [pose proof (acquire_value _ _ _ Ha)|done]); cbn [mbind option_bind] in H;
    injection H as <-.
  - rw_goes Ht (RCount i). rewrite I6. f_equal. lia.
  - pose proof (guarded_count in_rc rc ps t _ locking I1 Ht eq_refl ltac:(by intros [])).
    pose proof (guarded_count in_rc rc ps t _ unlocking I1 Ht eq_refl ltac:(by intros [])).
    destruct (Z.eqb_spec (n + 1) 1); [rw_goes Ht (RLock i)|rw_goes Ht (RRelease i)]; rewrite I6; f_equal; lia.
  - rw_goes Ht (RRelease i). rewrite I6. f_equal. lia.
  - rw_goes Ht (RPrint i). rewrite I6. f_equal. lia.
  - pose proof (count_at_least reading ps t _ Ht eq_refl).
    rw_goes Ht (RAcquire2 i). rewrite replay_app, I6. cbn. rewrite (proj2 (Z.eqb_eq _ _)) by lia. f_equal. lia.
  - rw_goes Ht (RUncount i). rewrite I6. f_equal. lia.
  - pose proof (guarded_count in_rc rc ps t _ locking I1 Ht eq_refl ltac:(by intros [])).
    pose proof (guarded_count in_rc rc ps t _ unlocking I1 Ht eq_refl ltac:(by intros [])).
    pose proof (count_at_least counted ps t _ Ht eq_refl).
    destruct (Z.eqb_spec (n - 1) 0); [rw_goes Ht (RUnlock i)|rw_goes Ht (RRelease2 i)]; rewrite I6; f_equal; lia.
  - rw_goes Ht (RRelease2 i). rewrite I6. f_equal. lia.
  - rw_goes Ht (RYield i). rewrite I6. f_equal. lia.
  - destruct (Nat.ltb_spec (S i) 5); [rw_goes Ht (RAcquire (S i))|rw_goes Ht Done]; rewrite I6; f_equal; lia.
  - rw_goes Ht (WWrite i). rewrite I6. f_equal. lia.
  - rw_goes Ht (WPrint i). rewrite I6. f_equal. lia.
  - pose proof (count_at_least unprinted ps t _ Ht eq_refl).
    rw_goes Ht (WRelease i). rewrite replay_app, I6. cbn. rewrite (proj2 (Z.eqb_eq _ _)) by lia. f_equal. lia.
  - rw_goes Ht (WYield i). rewrite I6. f_equal. lia.
  - destruct (Nat.ltb_spec (S i) 5); [rw_goes Ht (WAcquire (S i))|rw_goes Ht Done]; rewrite I6; f_equal; lia.
Qed.

(** ** Its end *)

(** Steps left, at most. *)
Definition rank (p : pc) : nat :=
  match p with
  | RAcquire i => 12 * (4 - i) + 10 | RCount i => 12 * (4 - i) + 9 | RLock i => 12 * (4 - i) + 8
  | RRelease i => 12 * (4 - i) + 7 | RPrint i => 12 * (4 - i) + 6 | RAcquire2 i => 12 * (4 - i) + 5
  | RUncount i => 12 * (4 - i) + 4 | RUnlock i => 12 * (4 - i) + 3 | RRelease2 i => 12 * (4 - i) + 2
  | RYield i => 12 * (4 - i) + 1
  | WAcquire i => 12 * (4 - i) + 5 | WWrite i => 12 * (4 - i) + 4 | WPrint i => 12 * (4 - i) + 3
  | WRelease i => 12 * (4 - i) + 2 | WYield i => 12 * (4 - i) + 1
  | Done => 0
  end.
Definition left (s : RW) : nat := sum_list_with rank (pcs s).

Lemma rw_decreases w t s s' : rw_inv w s -> rw_step t s = Some s' -> (left s' < left s)%nat.
Proof.
  intros [_ _ _ _ _ _ I7 _] H. destruct s as [c n rc wl ps o]. cbn [pcs] in I7. unfold left. cbn [pcs].
  cbn [rw_step] in H. destruct (ps !! t) as [p|] eqn:Ht; [|done]. pose proof (I7 t p Ht) as Hi.
  destruct p; cbn in Hi; try done; try (destruct (lk_acquire t _) as [k'|] eqn:Ha; [|done]); cbn [mbind option_bind] in H;
    injection H as <-; cbn [pcs];
    match goal with |- context [<[t := ?q]> ps] => pose proof (sum_insert rank ps t _ q Ht) end; cbn [rank] in *;
    repeat match goal with |- context [if ?b then _ else _] => destruct b eqn:? end; cbn [rank] in *;
    rewrite ?Nat.ltb_lt, ?Nat.ltb_ge in *; lia.
Qed.

(** Places where a thread waits for nothing. *)
Definition unblocked (p : pc) : bool :=
  match p with RAcquire _ | RAcquire2 _ | RLock _ | WAcquire _ | Done => false | _ => true end.
Definition at_rc (p : pc) : bool := match p with RAcquire _ | RAcquire2 _ => true | _ => false end.
Definition at_write (p : pc) : bool := match p with WAcquire _ => true | _ => false end.

Lemma acquire_some t k : (0 < lk_value k)%nat -> exists k', lk_acquire t k = Some k'.
Proof. unfold lk_acquire. destruct (lk_value k); [lia|eauto]. Qed.

Lemma rw_goes_on w s : rw_inv w s -> Forall (fun p => p = Done) (pcs s) \/ exists t s', rw_step t s = Some s'.
Proof.
  intros [I1 I2 I3 I4 I5 _ _ _]. destruct s as [c n rc wl ps o]. cbn [readerCount rcLock writeLock pcs] in *. cbn [rw_step].
  destruct (count_cases unblocked ps) as [(t & p & Ht & Hp)|Hu].
  { right. exists t. rewrite Ht. destruct p; try done; eauto. }
  assert (Hz : forall f, (forall p, f p = true -> unblocked p = true) -> count_if f ps = 0%nat).
  { intros f Hf. apply count_none. intros t p Ht. pose proof (count_zero _ _ _ _ Hu Ht) as Hb.
    destruct (f p) eqn:E; [|done]. by rewrite (Hf p E) in Hb. }
  pose proof (Hz writing ltac:(by intros [])) as Z1. pose proof (Hz unlocking ltac:(by intros [])) as Z2.
  destruct (count_cases locking ps) as [(t & p & Ht & Hp)|Hl].
  { right. exists t. rewrite Ht. destruct p as [| |i| | | | | | | | | | | | |]; try done.
    pose proof (count_at_least _ _ _ _ Ht Hp). pose proof (I3 ltac:(lia)) as Hn. rewrite Hn in I5. cbn in I5.
    destruct (acquire_some t wl) as [k' ->]; [lia|]. cbn. eauto. }
  assert (Hrc : count_if in_rc ps = 0%nat).
  { apply count_none. intros t p Ht. pose proof (count_zero _ _ _ _ Hu Ht). pose proof (count_zero _ _ _ _ Hl Ht). by destruct p. }
  pose proof (gd_value _ _ _ I1) as Hv.
  destruct (count_cases at_rc ps) as [(t & p & Ht & Hp)|Ha].
  { right. exists t. rewrite Ht. destruct (acquire_some t rc) as [k' Hk]; [lia|]. destruct p; try done; rewrite Hk; cbn; eauto. }
  assert (Hc : count_if counted ps = 0%nat).
  { apply count_none. intros t p Ht. pose proof (count_zero _ _ _ _ Hu Ht). pose proof (count_zero _ _ _ _ Hl Ht).
    pose proof (count_zero _ _ _ _ Ha Ht). by destruct p. }
  destruct (count_cases at_write ps) as [(t & p & Ht & Hp)|Hw].
  { right. exists t. rewrite Ht. rewrite I2, Hc in I5. change (0 <? Z.of_nat 0) with false in I5. cbn [b2n] in I5. destruct (acquire_some t wl) as [k' Hk]; [lia|].
    destruct p; try done. rewrite Hk. cbn. eauto. }
  left. apply Forall_lookup_2. intros t p Ht. pose proof (count_zero _ _ _ _ Hu Ht). pose proof (count_zero _ _ _ _ Hl Ht).
  pose proof (count_zero _ _ _ _ Ha Ht). pose proof (count_zero _ _ _ _ Hw Ht). by destruct p.
Qed.

Lemma rw_starts kinds : rw_inv (count_if negb kinds) (start kinds).
Proof.
  assert (Hlk : forall t p, pcs (start kinds) !! t = Some p -> p = RAcquire 0 \/ p = WAcquire 0).
  { intros t p H. cbn in H. rewrite list_lookup_fmap in H. destruct (kinds !! t) as [[]|]; naive_solver. }
  assert (Hz : forall f, f (RAcquire 0) = false -> f (WAcquire 0) = false -> count_if f (pcs (start kinds)) = 0%nat).
  { intros f H1 H2. apply count_none. by intros t p [->| ->]%Hlk. }
  split.
  - apply guarded_new. by intros t p [->| ->]%Hlk.
  - by rewrite Hz.
  - rewrite Hz by done. lia.
  - rewrite Hz by done. lia.
  - by rewrite !Hz.
  - by rewrite Hz.
  - intros t p [->| ->]%Hlk; cbn; lia.
  - cbn [content start pcs]. rewrite Z.add_0_l. unfold count_if. clear. induction kinds as [|[] kinds IH]; cbn in *; lia.
Qed.

(** ** Property *)

(** C8. Readers and writers, in every run of any number of them: no thread writes
    while another reads or writes; the output is that of a counter, each write adding one
    and each read showing the last; a run ends after at most 58 steps for each thread, and
    when no thread can go on all have ended and the content is five for each writer (no
    deadlock); and from every state this end can be reached. *)
Theorem readers_writers_correct kinds n s : steps rw_step (start kinds) n s ->
  (forall t p u q, pcs s !! t = Some p -> writing p = true -> pcs s !! u = Some q -> reading q || writing q = true -> u = t) /\
  (count_if unprinted (pcs s) = 0%nat -> replay 0 (out s) = Some (content s)) /\
  (n <= 58 * length kinds)%nat /\
  ((forall t, rw_step t s = None) ->
     Forall (fun p => p = Done) (pcs s) /\ content s = 5 * Z.of_nat (count_if negb kinds)) /\
  exists m s', steps rw_step s m s' /\ Forall (fun p => p = Done) (pcs s').
Proof.
  intros H. set (w := count_if negb kinds). pose proof (rw_starts kinds) as H0. fold w in H0.
  pose proof (steps_inv rw_step (rw_inv w) (rw_keeps w) _ _ _ H0 H) as I. split_and!.
  - intros t p u q Ht Hp Hu Hq. pose proof (one_writer s w I) as [W1 _]. destruct (reading q) eqn:Hr.
    + pose proof (readers_exclude s w I (count_at_least _ _ _ _ Hu Hr)). pose proof (count_at_least _ _ _ _ Ht Hp). lia.
    + cbn in Hq. by apply (count_unique writing (pcs s) t p u q).
  - intros Hz. rewrite (ri_out _ _ I), Hz. f_equal. lia.
  - pose proof (steps_bound rw_step (rw_inv w) left (rw_keeps w) (rw_decreases w) _ _ _ H0 H) as Hb.
    enough (left (start kinds) <= 58 * length kinds)%nat by lia. clear. unfold left. cbn [start pcs].
    induction kinds as [|[] kinds IH]; cbn in *; lia.
  - intros Hs. destruct (rw_goes_on w s I) as [Hd|(t & s' & Ht)]; [|by rewrite Hs in Ht]. split; [done|].
    rewrite <- (ri_total _ _ I). rewrite sum_zero; [lia|]. intros t p Ht. by rewrite (proj1 (Forall_lookup _ _) Hd t p Ht).
  - destruct (runs_finish rw_step (rw_inv w) left (rw_keeps w) (rw_decreases w) _ s (rw_goes_on w) I) as (m & s' & Hm & Hd). eauto.
Qed.

(** [ThreadTest9] run round robin. *)
Lemma readers_writers_correct_witness :
  exists n s, by_schedule rw_step (round_robin 100) ThreadTest9 = (n, s) /\ steps rw_step ThreadTest9 n s /\
    content s = 10 /\ replay 0 (out s) = Some 10.
Proof.
  destruct (by_schedule rw_step (round_robin 100) ThreadTest9) as [n s] eqn:E.
  assert (Hs : s = (by_schedule rw_step (round_robin 100) ThreadTest9).2) by (by rewrite E).
  exists n, s. split; [done|]. pose proof (by_schedule_steps _ _ _ _ _ E) as H. split; [exact H|].
  destruct (readers_writers_correct _ n s H) as (_ & Hout & _). rewrite Hs in Hout |- *.
  split; [vm_compute; reflexivity|]. rewrite Hout by (vm_compute; reflexivity). vm_compute. reflexivity.
Defined.
End ReadersWriters.

(** ** The barrier *)

Module Barrier.

Definition barrierSize : Z := 4.

(** Where a thread is in [barrierRun]: before the call, or the statement, named. *)
Inductive pc : Type :=
| BAcquire | BArrive | BBroadcast | BWait | BWaiting | BReacquire | BRelease | BAfter | BTick | BDone.

#[export] Instance pc_eq_dec : EqDecision pc.
Proof. solve_decision. Defined.

Inductive line : Type := Reached (t : nat) (cnt : Z) | Continues (t : nat).

(** The globals (the queue is that of [barrierCondition]), the threads, the output. *)
Record Bar : Type := MkBar {
  barrierCnt : Z;
  conditionLock : Lk;
  waitingQueue : list nat;
  bpcs : list pc;
  bout : list line
}.

(** [scheduler->ReadyToRun] of the threads of the queue: each is then in [Acquire] of
    [Condition::Wait]. *)
Definition wake_all (q : list nat) (ps : list pc) : list pc := foldr (fun u ps => <[u := BReacquire]> ps) ps q.

(** The next step of thread [t]; [Condition::Wait] releases the lock and queues the
    thread with interrupts off, in one step. *)
Definition bar_step (t : nat) (s : Bar) : option Bar :=
  let 'MkBar c k q ps o := s in
  let to p := <[t := p]> ps in
  match ps !! t with
  | None | Some BWaiting | Some BDone => None
  | Some BAcquire => k ← lk_acquire t k; Some (MkBar c k q (to BArrive) o)
  | Some BArrive =>
      Some (MkBar (c + 1) k q (to (if c + 1 =? barrierSize then BBroadcast else BWait)) (o ++ [Reached t (c + 1)]))
  | Some BBroadcast =>
      if bool_decide (lk_holder k = Some t) then Some (MkBar c k [] (<[t := BRelease]> (wake_all q ps)) o)
      else Some (MkBar c k q (to BRelease) o)
  | Some BWait => Some (MkBar c (lk_release k) (q ++ [t]) (to BWaiting) o)
  | Some BReacquire => k ← lk_acquire t k; Some (MkBar c k q (to BRelease) o)
  | Some BRelease => Some (MkBar c (lk_release k) q (to BAfter) o)
  | Some BAfter => Some (MkBar c k q (to BTick) (o ++ [Continues t]))
  | Some BTick => Some (MkBar c k q (to BDone) o)
  end.

Definition ThreadTest8 : Bar := MkBar 0 new_lk [] (replicate 4 BAcquire) [].

(** ** The invariant *)

Definition in_section (p : pc) : bool := match p with BArrive | BBroadcast | BWait | BRelease => true | _ => false end.
Definition waits (p : pc) : bool := match p with BWaiting => true | _ => false end.
Definition arrived (p : pc) : bool := match p with BAcquire | BArrive => false | _ => true end.
Definition held_back (p : pc) : bool := match p with BWait | BWaiting => true | _ => false end.
Definition broadcasts (p : pc) : bool := match p with BBroadcast => true | _ => false end.
Definition passed (p : pc) : bool :=
  match p with BBroadcast | BReacquire | BRelease | BAfter | BTick | BDone => true | _ => false end.
Definition over (p : pc) : bool := match p with BTick | BDone => true | _ => false end.

(** The output: the arrivals with their count, then the threads that go on. *)
Definition arrivals (ts : list nat) : list line := imap (fun i t => Reached t (Z.of_nat i + 1)) ts.

Record bar_inv (s : Bar) : Prop := {
  bi_lock : guarded in_section (conditionLock s) (bpcs s);
  bi_queue : queued waits (waitingQueue s) (bpcs s);
  bi_threads : length (bpcs s) = 4%nat;
  bi_cnt : barrierCnt s = Z.of_nat (count_if arrived (bpcs s));
  bi_passed : (0 < count_if passed (bpcs s))%nat -> barrierCnt s = 4;
  bi_all : barrierCnt s = 4 -> (count_if held_back (bpcs s) = 0)%nat \/ (0 < count_if broadcasts (bpcs s))%nat;
  bi_out : exists ts cs, bout s = arrivals ts ++ (Continues <$> cs) /\ Z.of_nat (length ts) = barrierCnt s /\
    length cs = count_if over (bpcs s)
}.

Definition awake (p : pc) : pc := match p with BWaiting => BReacquire | _ => p end.

Lemma lookup_wake_all q ps i :
  wake_all q ps !! i = if decide (i ∈ q) then (fun _ => BReacquire) <$> ps !! i else ps !! i.
Proof.
  assert (Hl : forall q, length (wake_all q ps) = length ps) by (clear; intros q; induction q as [|u q IH]; cbn; [done|by rewrite length_insert]).
  induction q as [|u q IH]; [by rewrite decide_False by (apply not_elem_of_nil)|]. change (wake_all (u :: q) ps) with (<[u := BReacquire]> (wake_all q ps)).
  destruct (decide (i = u)) as [->|Hne].
  - rewrite decide_True by (by left). destruct (ps !! u) as [p|] eqn:E.
    + apply list_lookup_insert_eq. rewrite Hl. by eapply lookup_lt_Some.
    + apply lookup_ge_None_2. rewrite length_insert, Hl. by apply lookup_ge_None_1.
  - rewrite list_lookup_insert_ne, IH by done. destruct (decide (i ∈ q)).
    + by rewrite decide_True by (by right).
    + rewrite decide_False; [done|]. by intros [|]%elem_of_cons.
Qed.
Lemma wake_all_awake q ps : queued waits q ps -> wake_all q ps = awake <$> ps.
Proof.
  intros [_ Hq]. apply list_eq. intros i. rewrite lookup_wake_all, list_lookup_fmap. destruct (ps !! i) as [p|] eqn:Hp; [|by case_decide].
  cbn. case_decide as Hi.
  - apply Hq in Hi as (r & Hr & Hw). assert (r = p) as -> by congruence. by destruct p.
  - destruct p; try done. exfalso. apply Hi, Hq. by exists BWaiting.
Qed.

Lemma arrivals_app ts t : arrivals (ts ++ [t]) = arrivals ts ++ [Reached t (Z.of_nat (length ts) + 1)].
Proof. unfold arrivals. rewrite imap_app. cbn. by rewrite Nat.add_0_r. Qed.

(** The state after all threads of the queue are made ready, in the broadcast. *)
Lemma broadcast_keeps c k q ps o t : bar_inv (MkBar c k q ps o) -> ps !! t = Some BBroadcast ->
  bar_inv (MkBar c k [] (<[t := BRelease]> (awake <$> ps)) o).
Proof.
  intros [I1 I2 I3 I4 I5 I6 I7] Ht. cbn [barrierCnt conditionLock waitingQueue bpcs bout] in *.
  assert (Ht' : (awake <$> ps) !! t = Some BBroadcast) by (by rewrite list_lookup_fmap, Ht).
  assert (Hsame : forall f, (forall p, f (awake p) = f p) -> count_if f (awake <$> ps) = count_if f ps)
    by (intros f Hf; rewrite count_fmap; by apply count_ext).
  pose proof (guarded_count _ _ _ _ _ (fun p => in_section p && held_back p) I1 Ht eq_refl ltac:(by intros [])) as Hb. cbn in Hb.
  split; cbn [barrierCnt conditionLock waitingQueue bpcs bout].
  - eapply guarded_move; [|exact Ht'|done]. destruct I1 as [G1 G2]. split; [by rewrite Hsame by (by intros [])|].
    intros u p Hu Hp. rewrite list_lookup_fmap in Hu. destruct (ps !! u) as [r|] eqn:Hr; [|done]. injection Hu as <-.
    apply (G2 u r Hr). by destruct r.
  - eapply queued_move; [|exact Ht'|done|done]. apply queued_new. intros u p Hu. rewrite list_lookup_fmap in Hu.
    destruct (ps !! u) as [[]|]; naive_solver.
  - by rewrite length_insert, length_fmap.
  - pose proof (count_insert_if arrived _ t _ BRelease Ht') as H. rewrite Hsame in H by (by intros []). cbn in H. lia.
  - intros _. apply I5. pose proof (count_at_least passed _ _ _ Ht eq_refl). lia.
  - intros _. left. pose proof (count_insert_if held_back _ t _ BRelease Ht') as H. cbn in H.
    assert (count_if held_back (awake <$> ps) = 0%nat) by (rewrite count_fmap, <- Hb; apply count_ext; by intros []). lia.
  - destruct I7 as (ts & cs & H1 & H2 & H3). exists ts, cs. split_and!; [done|done|]. rewrite H3.
    pose proof (count_insert_if over _ t _ BRelease Ht') as H. rewrite Hsame in H by (by intros []). cbn in H. lia.
Qed.

(** A thread goes from where [Ht] says to [q]; what is left is the output. *)
Ltac bar_goes Ht q :=
  pose proof (count_insert_if arrived _ _ _ q Ht); pose proof (count_insert_if passed _ _ _ q Ht);
  pose proof (count_insert_if held_back _ _ _ q Ht); pose proof (count_insert_if broadcasts _ _ _ q Ht);
  pose proof (count_insert_if over _ _ _ q Ht); cbn [arrived passed held_back broadcasts over b2n] in *;
  split; cbn [barrierCnt conditionLock waitingQueue bpcs bout];
  [ first [ eapply guarded_move; [eassumption|exact Ht|done]
          | eapply guarded_acquire; [eassumption|exact Ht|eassumption|done|done]
          | eapply guarded_release; [eassumption|exact Ht|done|done] ]
  | first [ eapply queued_move; [eassumption|exact Ht|done|done] | eapply queued_append; [eassumption|exact Ht|done|done] ]
  | by rewrite length_insert | lia | intros; lia | intros; lia | ].

Lemma bar_keeps t s s' : bar_inv s -> bar_step t s = Some s' -> bar_inv s'.
Proof.
  intros I H. pose proof I as [I1 I2 I3 I4 I5 I6 (ts & cs & I7 & I8 & I9)]. destruct s as [c k q ps o].
  cbn [barrierCnt conditionLock waitingQueue bpcs bout] in *. cbn [bar_step] in H. destruct (ps !! t) as [p|] eqn:Ht; [|done].
  pose proof (count_disjoint over (fun _ => false) passed ps ltac:(by intros []; cbn; lia)) as Hov.
  pose proof (count_negb arrived ps) as Harr. rewrite I3 in Harr.
  destruct p; try done; try (destruct (lk_acquire t k) as [k'|] eqn:Ha; [|done]); cbn [mbind option_bind] in H;
    try (injection H as <-).
  - bar_goes Ht BArrive. exists ts, cs. split_and!; [done|done|lia].
  - pose proof (count_at_least (fun p => negb (arrived p)) ps t _ Ht eq_refl).
    assert (cs = []) as -> by (destruct cs; [done|cbn in I9; lia]). rewrite app_nil_r in I7. cbn in I9.
    pose proof (guarded_count _ _ _ _ _ broadcasts I1 Ht eq_refl ltac:(by intros [])) as Hb. cbn in Hb. unfold barrierSize.
    destruct (Z.eqb_spec (c + 1) 4); [bar_goes Ht BBroadcast|bar_goes Ht BWait];
      (exists (ts ++ [t]), []; rewrite arrivals_app, app_nil_r, I7, I8; split_and!; [done|rewrite length_app; cbn; lia|cbn; lia]).
  - rewrite (gd_holder _ _ _ I1 t _ Ht eq_refl), bool_decide_true in H by done. injection H as <-.
    rewrite (wake_all_awake q ps I2). by apply (broadcast_keeps c k q).
  - bar_goes Ht BWaiting. exists ts, cs. split_and!; [done|done|lia].
  - bar_goes Ht BRelease. exists ts, cs. split_and!; [done|done|lia].
  - bar_goes Ht BAfter. exists ts, cs. split_and!; [done|done|lia].
  - bar_goes Ht BTick. exists ts, (cs ++ [t]). rewrite I7, fmap_app, app_assoc. split_and!; [done|done|rewrite length_app; cbn; lia].
  - bar_goes Ht BDone. exists ts, cs. split_and!; [done|done|lia].
Qed.

(** ** Its end *)

Definition rank (p : pc) : nat :=
  match p with
  | BAcquire => 9 | BArrive => 8 | BBroadcast => 7 | BWait => 7 | BWaiting => 6 | BReacquire => 5 | BRelease => 4
  | BAfter => 3 | BTick => 2 | BDone => 0
  end.
Definition left (s : Bar) : nat := sum_list_with rank (bpcs s).

Lemma bar_decreases t s s' : bar_inv s -> bar_step t s = Some s' -> (left s' < left s)%nat.
Proof.
  intros [I1 I2 _ _ _ _ _] H. destruct s as [c k q ps o]. unfold left. cbn [conditionLock waitingQueue bpcs] in *.
  cbn [bar_step] in H. destruct (ps !! t) as [p|] eqn:Ht; [|done].
  destruct (decide (p = BBroadcast)) as [->|Hne].
  - rewrite (gd_holder _ _ _ I1 t _ Ht eq_refl), bool_decide_true in H by done. injection H as <-. cbn [bpcs].
    rewrite (wake_all_awake q ps I2). assert (Ht' : (awake <$> ps) !! t = Some BBroadcast) by (by rewrite list_lookup_fmap, Ht).
    pose proof (sum_insert rank _ t _ BRelease Ht') as Hs. cbn [rank] in Hs.
    enough (sum_list_with rank (awake <$> ps) <= sum_list_with rank ps)%nat by lia.
    clear. induction ps as [|[] ps IH]; cbn; lia.
  - destruct p; try done; try (destruct (lk_acquire t k) as [k'|] eqn:Ha; [|done]); cbn [mbind option_bind] in H;
      injection H as <-; cbn [bpcs];
      match goal with |- context [<[t := ?x]> ps] => pose proof (sum_insert rank ps t _ x Ht) end; cbn [rank] in *;
      repeat match goal with |- context [if ?b then _ else _] => destruct b eqn:? end; cbn [rank] in *; lia.
Qed.

Definition at_lock (p : pc) : bool := match p with BAcquire | BReacquire => true | _ => false end.
Definition unblocked (p : pc) : bool := negb (at_lock p) && negb (waits p) && match p with BDone => false | _ => true end.

Lemma bar_goes_on s : bar_inv s -> Forall (fun p => p = BDone) (bpcs s) \/ exists t s', bar_step t s = Some s'.
Proof.
  intros [I1 I2 I3 I4 I5 I6 _]. destruct s as [c k q ps o]. cbn [barrierCnt conditionLock waitingQueue bpcs] in *. cbn [bar_step].
  destruct (count_cases unblocked ps) as [(t & p & Ht & Hp)|Hu].
  { right. exists t. rewrite Ht. destruct p; try done; try case_bool_decide; eauto. }
  assert (Hz : forall f, (forall p, f p = true -> unblocked p = true) -> forall t p, ps !! t = Some p -> f p = false).
  { intros f Hf t p Ht. pose proof (count_zero _ _ _ _ Hu Ht) as Hb. destruct (f p) eqn:E; [|done]. by rewrite (Hf p E) in Hb. }
  destruct (count_cases at_lock ps) as [(t & p & Ht & Hp)|Ha].
  { right. exists t. rewrite Ht. destruct (guarded_free in_section k ps t I1 (Hz in_section ltac:(by intros []))) as [k' Hk].
    destruct p; try done; rewrite Hk; cbn; eauto. }
  assert (Hall : count_if (fun p => negb (arrived p)) ps = 0%nat).
  { apply count_none. intros t p Ht. pose proof (count_zero _ _ _ _ Hu Ht). pose proof (count_zero _ _ _ _ Ha Ht). by destruct p. }
  pose proof (count_negb arrived ps). destruct I6 as [Hh|Hb]; [lia| |].
  - left. apply Forall_lookup_2. intros t p Ht. pose proof (count_zero _ _ _ _ Hu Ht). pose proof (count_zero _ _ _ _ Ha Ht).
    pose proof (count_zero _ _ _ _ Hh Ht). by destruct p.
  - rewrite (count_none broadcasts) in Hb by (apply Hz; by intros []). lia.
Qed.

Lemma bar_starts : bar_inv ThreadTest8.
Proof.
  assert (Hlk : forall t p, replicate 4 BAcquire !! t = Some p -> p = BAcquire) by (intros t p H; by apply lookup_replicate in H as [-> _]).
  split; cbn; try done; try lia.
  - apply guarded_new. by intros t p ->%Hlk.
  - apply queued_new. by intros t p ->%Hlk.
  - unfold count_if. cbn. lia.
  - by exists [], [].
Qed.

(** ** Property *)

(** C33. The barrier, in every run of its four threads: no thread continues before
    all four have reached the savepoint (the output is the arrivals, numbered from 1, and
    then the threads that continue); a run ends after at most 36 steps, and when no
    thread can go on all have ended, four having arrived and four continued; from every
    state this end can be reached. *)
Theorem barrier_correct n s : steps bar_step ThreadTest8 n s ->
  (n <= 36)%nat /\
  (exists ts cs, bout s = arrivals ts ++ (Continues <$> cs) /\ (length ts <= 4)%nat /\
     (cs <> [] -> length ts = 4%nat) /\
     ((forall t, bar_step t s = None) -> Forall (fun p => p = BDone) (bpcs s) /\ length ts = 4%nat /\ length cs = 4%nat)) /\
  exists m s', steps bar_step s m s' /\ Forall (fun p => p = BDone) (bpcs s').
Proof.
  intros H. pose proof (steps_inv bar_step bar_inv bar_keeps _ _ _ bar_starts H) as I. split_and!.
  - pose proof (steps_bound bar_step bar_inv left bar_keeps bar_decreases _ _ _ bar_starts H) as Hb. cbn in Hb. lia.
  - destruct (bi_out _ I) as (ts & cs & H1 & H2 & H3). exists ts, cs. split; [done|].
    pose proof (count_negb arrived (bpcs s)) as Ha. rewrite (bi_threads _ I) in Ha. rewrite (bi_cnt _ I) in H2. split_and!.
    + lia.
    + intros Hne. pose proof (count_disjoint over (fun _ => false) passed (bpcs s) ltac:(by intros []; cbn; lia)).
      pose proof (bi_passed _ I) as Hp. rewrite (bi_cnt _ I) in Hp. destruct cs; [done|]. cbn in H3. lia.
    + intros Hs. destruct (bar_goes_on s I) as [Hd|(t & s' & Ht)]; [|by rewrite Hs in Ht]. split; [done|].
      assert (Hall : forall f, f BDone = true -> count_if f (bpcs s) = 4%nat).
      { intros f Hf. pose proof (count_negb f (bpcs s)) as Hn. rewrite (bi_threads _ I) in Hn.
        rewrite (count_none (fun p => negb (f p))) in Hn; [lia|].
        intros t p Ht. rewrite (proj1 (Forall_lookup _ _) Hd t p Ht). by rewrite Hf. }
      rewrite (Hall arrived) in H2 by done. rewrite (Hall over) in H3 by done. lia.
  - destruct (runs_finish bar_step bar_inv left bar_keeps bar_decreases _ s bar_goes_on I) as (m & s' & Hm & Hd). eauto.
Qed.

Definition gathered : Bar :=
  MkBar 4 new_lk [] (replicate 4 BDone) (arrivals [0; 1; 2; 3]%nat ++ (Continues <$> [3; 0; 1; 2]%nat)).
Lemma barrier_correct_witness :
  steps bar_step ThreadTest8 27 gathered /\
  exists m s', steps bar_step gathered m s' /\ Forall (fun p => p = BDone) (bpcs s').
Proof.
  assert (H : steps bar_step ThreadTest8 27 gathered)
    by (apply (by_schedule_steps _ (round_robin 20)); vm_compute; reflexivity).
  split; [exact H|]. destruct (barrier_correct 27 gathered H) as (_ & _ & Hend). exact Hend.
Defined.
End Barrier.

(** ** The bounded buffer *)

Module BoundedBuffer.

Definition MAX_PRODUCT : Z := 10.

(** [produce_withCondition] and [consume_withCondition] have the same shape; they
    wait for [produceCondition] and [consumeCondition], and signal the other. *)
Inductive role : Type := Producer | Consumer.
Definition other (r : role) : role := match r with Producer => Consumer | Consumer => Producer end.

(** Before the call, or the statement, named: [Act] appends or removes a product,
    [TickHeld] is the [OneTick] after [Wait], [Tick] the one after [Release]. *)
Inductive place : Type :=
| Acquire | Test | Wait | Waiting | Reacquire | TickHeld | Act | Signal | Release | Tick.
Inductive pc : Type := At (r : role) (x : place) (i : nat) | Done.

#[export] Instance place_eq_dec : EqDecision place.
Proof. solve_decision. Defined.

(** The rounds of the loops. *)
Definition rounds (r : role) : nat := match r with Producer => 20 | Consumer => 10 end.

(** The globals, the threads, the products made (by the number of their [new]) and those
    consumed. *)
Record Buf : Type := MkBuf {
  ProductList : list nat;
  product_num : Z;
  lock : Lk;
  produceCondition : list nat;
  consumeCondition : list nat;
  cpcs : list pc;
  made : nat;
  consumed : list nat
}.

Definition set_cpcs (ps : list pc) (s : Buf) : Buf :=
  MkBuf (ProductList s) (product_num s) (lock s) (produceCondition s) (consumeCondition s) ps (made s) (consumed s).
Definition set_lk (k : Lk) (s : Buf) : Buf :=
  MkBuf (ProductList s) (product_num s) k (produceCondition s) (consumeCondition s) (cpcs s) (made s) (consumed s).
Definition queue_of (r : role) (s : Buf) : list nat :=
  match r with Producer => produceCondition s | Consumer => consumeCondition s end.
Definition set_queue (r : role) (q : list nat) (s : Buf) : Buf :=
  MkBuf (ProductList s) (product_num s) (lock s)
    (match r with Producer => q | Consumer => produceCondition s end)
    (match r with Producer => consumeCondition s | Consumer => q end) (cpcs s) (made s) (consumed s).
Definition go (t : nat) (p : pc) (s : Buf) : Buf := set_cpcs (<[t := p]> (cpcs s)) s.

(** [product_num >= MAX_PRODUCT], [ProductList->IsEmpty()]. *)
Definition blocked (r : role) (s : Buf) : bool :=
  match r with Producer => MAX_PRODUCT <=? product_num s | Consumer => bool_decide (ProductList s = []) end.

(** The append, or the removal and [delete], with the change of [product_num]. *)
Definition act (r : role) (s : Buf) : Buf :=
  match r with
  | Producer => MkBuf (ProductList s ++ [made s]) (product_num s + 1) (lock s) (produceCondition s) (consumeCondition s)
                  (cpcs s) (S (made s)) (consumed s)
  | Consumer => MkBuf (tail (ProductList s)) (product_num s - 1) (lock s) (produceCondition s) (consumeCondition s)
                  (cpcs s) (made s) (consumed s ++ take 1 (ProductList s))
  end.

Definition woken (p : pc) : pc := match p with At r Waiting i => At r Reacquire i | _ => p end.

(** [Condition::Signal] of the condition of [r], by [t]. *)
Definition signal (t : nat) (r : role) (s : Buf) : Buf :=
  if bool_decide (lk_holder (lock s) = Some t) then
    match queue_of r s with
    | [] => s
    | u :: q => set_queue r q (set_cpcs (alter woken u (cpcs s)) s)
    end
  else s.

(** The next step of thread [t]. *)
Definition buf_step (t : nat) (s : Buf) : option Buf :=
  match cpcs s !! t with
  | None | Some Done | Some (At _ Waiting _) => None
  | Some (At r Acquire i) => k ← lk_acquire t (lock s); Some (go t (At r Test i) (set_lk k s))
  | Some (At r Test i) => Some (go t (At r (if blocked r s then Wait else Act) i) s)
  | Some (At r Wait i) =>
      Some (go t (At r Waiting i) (set_queue r (queue_of r s ++ [t]) (set_lk (lk_release (lock s)) s)))
  | Some (At r Reacquire i) => k ← lk_acquire t (lock s); Some (go t (At r TickHeld i) (set_lk k s))
  | Some (At r TickHeld i) => Some (go t (At r Test i) s)
  | Some (At r Act i) => Some (go t (At r Signal i) (act r s))
  | Some (At r Signal i) => Some (go t (At r Release i) (signal t (other r) s))
  | Some (At r Release i) => Some (go t (At r Tick i) (set_lk (lk_release (lock s)) s))
  | Some (At r Tick i) => Some (go t (if (S i <? rounds r)%nat then At r Acquire (S i) else Done) s)
  end.

(** The globals as [ThreadTest7] makes them; it forks the variants that poll, here are
    those with conditions, any number of them. *)
Definition buf_start (roles : list role) : Buf :=
  MkBuf [] 0 new_lk [] [] ((fun r => At r Acquire 0) <$> roles) 0 [].

(** ** The invariant *)

Definition same (r r' : role) : bool :=
  match r, r' with Producer, Producer | Consumer, Consumer => true | _, _ => false end.
Definition in_section (p : pc) : bool :=
  match p with At _ (Test | Wait | TickHeld | Act | Signal | Release) _ => true | _ => false end.
Definition waits (r : role) (p : pc) : bool := match p with At r' Waiting _ => same r r' | _ => false end.
Definition acts (r : role) (p : pc) : bool := match p with At r' Act _ => same r r' | _ => false end.
Definition gives_up (r : role) (p : pc) : bool := match p with At r' Wait _ => same r r' | _ => false end.
(** Threads that will test for [r] before they wait, or will wake one that does. *)
Definition attends (r : role) (p : pc) : bool :=
  match p with
  | At r' (Acquire | Reacquire | TickHeld | Test | Act) _ => same r r'
  | At r' Signal _ => same (other r) r'
  | _ => false
  end.
(** Rounds of a thread in role [r] that have not acted. *)
Definition to_do (r : role) (p : pc) : nat :=
  match p with
  | At r' x i => if same r r' then match x with Signal | Release | Tick => rounds r - 1 - i | _ => rounds r - i end else 0
  | Done => 0
  end.
(** Room for [r] to act: free places, products. *)
Definition room (r : role) (s : Buf) : nat :=
  match r with Producer => 10 - length (ProductList s) | Consumer => length (ProductList s) end.
Definition has_role (r : role) (x : role) : bool := same r x.

Record buf_inv (roles : list role) (s : Buf) : Prop := {
  bf_lock : guarded in_section (lock s) (cpcs s);
  bf_queue : forall r, queued (waits r) (queue_of r s) (cpcs s);
  bf_num : product_num s = Z.of_nat (length (ProductList s)) /\ (length (ProductList s) <= 10)%nat;
  bf_acts : forall r, (0 < count_if (acts r) (cpcs s))%nat -> (0 < room r s)%nat;
  bf_gives_up : forall r, (0 < count_if (gives_up r) (cpcs s))%nat -> room r s = 0%nat;
  bf_wake : forall r, queue_of r s <> [] -> (room r s <= count_if (attends r) (cpcs s))%nat;
  bf_fifo : seq 0 (made s) = consumed s ++ ProductList s;
  bf_made : (made s + sum_list_with (to_do Producer) (cpcs s) = 20 * count_if (has_role Producer) roles)%nat;
  bf_consumed : (length (consumed s) + sum_list_with (to_do Consumer) (cpcs s) = 10 * count_if (has_role Consumer) roles)%nat;
  bf_rounds : forall t r x i, cpcs s !! t = Some (At r x i) -> (i < rounds r)%nat
}.

Lemma rounds_moved s t p r0 x0 i0 : (forall u r x i, cpcs s !! u = Some (At r x i) -> (i < rounds r)%nat) ->
  cpcs s !! t = Some p -> (i0 < rounds r0)%nat ->
  forall u r x i, <[t := At r0 x0 i0]> (cpcs s) !! u = Some (At r x i) -> (i < rounds r)%nat.
Proof. intros H Ht Hi u r x i [[-> [= -> -> ->]]|[_ Hu]]%(lookup_moved_to _ _ _ _ _ _ Ht); [done|by eapply H]. Qed.

(** A thread goes from [p] to [q] and may take or leave the lock, nothing else. *)
Lemma buf_goes roles s t p q k : buf_inv roles s -> cpcs s !! t = Some p -> guarded in_section k (<[t := q]> (cpcs s)) ->
  (forall r, waits r p = false /\ waits r q = false) ->
  (forall r, acts r q = true -> (0 < room r s)%nat) -> (forall r, gives_up r q = true -> room r s = 0%nat) ->
  (forall r, queue_of r s <> [] -> (room r s + b2n (attends r p) <= count_if (attends r) (cpcs s) + b2n (attends r q))%nat) ->
  (forall r, to_do r q = to_do r p) ->
  (forall r x i, q = At r x i -> (i < rounds r)%nat) -> buf_inv roles (go t q (set_lk k s)).
Proof.
  intros [I1 I2 I3 I4 I5 I6 I7 I8 I9 I10] Ht Hg Hw Ha Hu Hat Hd Hr.
  pose proof (fun r => count_insert_if (acts r) _ _ _ q Ht) as C1. pose proof (fun r => count_insert_if (gives_up r) _ _ _ q Ht) as C2.
  pose proof (fun r => count_insert_if (attends r) _ _ _ q Ht) as C3. pose proof (fun r => sum_insert (to_do r) _ _ _ q Ht) as C4.
  split; cbn [cpcs lock product_num ProductList made consumed go set_cpcs set_lk]; try done.
  - intros r. destruct (Hw r). change (queue_of r _) with (queue_of r s). by eapply queued_move.
  - intros r Hc. specialize (C1 r). change (room r _) with (room r s). specialize (Ha r). destruct (acts r q); [by apply Ha|].
    apply I4. cbn in C1. lia.
  - intros r Hc. specialize (C2 r). change (room r _) with (room r s). specialize (Hu r). destruct (gives_up r q); [by apply Hu|].
    apply I5. cbn in C2. lia.
  - intros r Hq. specialize (C3 r). change (room r _) with (room r s). change (queue_of r _) with (queue_of r s) in Hq.
    specialize (Hat r Hq). lia.
  - specialize (C4 Producer). rewrite Hd in C4. lia.
  - specialize (C4 Consumer). rewrite Hd in C4. lia.
  - intros u r x i [[-> Hq]|[_ Hq]]%(lookup_moved_to _ _ _ _ _ _ Ht); [by eapply Hr|by eapply I10].
Qed.

(** A thread gives up the lock and waits. *)
Lemma buf_waits roles s t r i : buf_inv roles s -> cpcs s !! t = Some (At r Wait i) ->
  buf_inv roles (go t (At r Waiting i) (set_queue r (queue_of r s ++ [t]) (set_lk (lk_release (lock s)) s))).
Proof.
  intros [I1 I2 I3 I4 I5 I6 I7 I8 I9 I10] Ht. set (q := At r Waiting i).
  pose proof (fun r => count_insert_if (acts r) _ _ _ q Ht) as C1. pose proof (fun r => count_insert_if (gives_up r) _ _ _ q Ht) as C2.
  pose proof (fun r => count_insert_if (attends r) _ _ _ q Ht) as C3. pose proof (fun r => sum_insert (to_do r) _ _ _ q Ht) as C4.
  assert (Hroom : room r s = 0%nat).
  { apply I5. pose proof (count_at_least (gives_up r) _ _ _ Ht ltac:(by destruct r)). lia. }
  pose proof (guarded_release _ _ _ _ _ q I1 Ht eq_refl eq_refl) as Hg.
  assert (Hq : forall r', queued (waits r') (if same r r' then queue_of r s ++ [t] else queue_of r' s) (<[t := q]> (cpcs s))).
  { intros r'. destruct (same r r') eqn:E.
    - assert (r' = r) as -> by (by destruct r, r'). eapply queued_append; [apply I2|exact Ht|done|by destruct r].
    - eapply queued_move; [apply I2|exact Ht|done|by destruct r, r']. }
  split; cbn [cpcs lock product_num ProductList made consumed go set_cpcs set_lk set_queue]; try done.
  - intros r'. by specialize (Hq r'); destruct r, r'.
  - intros r' Hc. specialize (C1 r'). apply I4. cbn in C1. lia.
  - intros r' Hc. specialize (C2 r'). apply I5. cbn in C2. lia.
  - intros r' Hne. specialize (C3 r'). destruct (same r r') eqn:E.
    + assert (r' = r) as -> by (by destruct r, r'). change (room r s <= count_if (attends r) (<[t := q]> (cpcs s)))%nat. lia.
    + assert (Hold : queue_of r' s <> []) by (by destruct r, r'). specialize (I6 r' Hold). cbn in C3.
      change (room r' s <= count_if (attends r') (<[t := q]> (cpcs s)))%nat. lia.
  - specialize (C4 Producer). cbn in C4. lia.
  - specialize (C4 Consumer). cbn in C4. lia.
  - by eapply rounds_moved; [|exact Ht|eapply I10].
Qed.

(** A product is appended or removed. *)
Lemma buf_acts roles s t r i : buf_inv roles s -> cpcs s !! t = Some (At r Act i) -> buf_inv roles (go t (At r Signal i) (act r s)).
Proof.
  intros [I1 I2 I3 I4 I5 I6 I7 I8 I9 I10] Ht. set (q := At r Signal i).
  pose proof (fun r => count_insert_if (acts r) _ _ _ q Ht) as C1. pose proof (fun r => count_insert_if (gives_up r) _ _ _ q Ht) as C2.
  pose proof (fun r => count_insert_if (attends r) _ _ _ q Ht) as C3. pose proof (fun r => sum_insert (to_do r) _ _ _ q Ht) as C4.
  assert (A0 : forall r', count_if (acts r') (<[t := q]> (cpcs s)) = 0%nat).
  { intros r'. specialize (C1 r'). rewrite (guarded_count _ _ _ _ _ (acts r') I1 Ht eq_refl) in C1 by (by intros [? [] ?|]).
    change (acts r' q) with false in C1. cbn [b2n] in C1. lia. }
  assert (U0 : forall r', count_if (gives_up r') (<[t := q]> (cpcs s)) = 0%nat).
  { intros r'. specialize (C2 r'). rewrite (guarded_count _ _ _ _ _ (gives_up r') I1 Ht eq_refl) in C2 by (by intros [? [] ?|]).
    change (gives_up r' q) with false in C2. cbn [b2n] in C2. lia. }
  assert (Hroom : (0 < room r s)%nat).
  { apply I4. pose proof (count_at_least (acts r) _ _ _ Ht ltac:(by destruct r)). lia. }
  pose proof (I10 _ _ _ _ Ht) as Hi. pose proof (guarded_move _ _ _ _ _ q I1 Ht eq_refl) as Hg.
  assert (Hq : forall r', queued (waits r') (queue_of r' s) (<[t := q]> (cpcs s))) by (intros r'; by eapply queued_move; [apply I2|exact Ht|..]).
  pose proof (C4 Producer) as C4P. pose proof (C4 Consumer) as C4C. pose proof (C3 Producer) as C3P. pose proof (C3 Consumer) as C3C.
  pose proof (I6 Producer) as I6P. pose proof (I6 Consumer) as I6C. clear C1 C2 C3 C4.
  subst q. destruct r; cbn [to_do same rounds attends other b2n room queue_of] in *.
  all: split; cbn [cpcs lock product_num ProductList made consumed go set_cpcs act]; try done.
  all: try (intros r'; rewrite ?A0, ?U0; lia).
  all: try (by intros r'; specialize (Hq r'); destruct r').
  all: try (by eapply rounds_moved; [exact I10|exact Ht|done]).
  - rewrite length_app. cbn [length]. lia.
  - intros [] Hne; cbn [room queue_of go set_cpcs ProductList produceCondition consumeCondition] in *; rewrite length_app; cbn [length].
    + specialize (I6P Hne). lia.
    + specialize (I6C Hne). lia.
  - by rewrite seq_S, I7, app_assoc.
  - lia.
  - lia.
  - destruct (ProductList s); cbn in *; lia.
  - intros [] Hne; cbn [room queue_of go set_cpcs ProductList produceCondition consumeCondition] in *; destruct (ProductList s); cbn [tail length] in *.
    + lia.
    + specialize (I6P Hne). lia.
    + lia.
    + specialize (I6C Hne). lia.
  - rewrite I7. destruct (ProductList s) as [|x l]; cbn; [by rewrite !app_nil_r|by rewrite take_0, <- app_assoc].
  - lia.
  - rewrite length_app. destruct (ProductList s) as [|x l]; cbn in *; [lia|]. rewrite take_0. cbn. lia.
Qed.

(** A waiting thread is signalled. *)
Lemma buf_wakes roles s r u q : buf_inv roles s -> queue_of r s = u :: q ->
  let s1 := set_queue r q (set_cpcs (alter woken u (cpcs s)) s) in
  buf_inv roles s1 /\ count_if (attends r) (cpcs s1) = S (count_if (attends r) (cpcs s)) /\
  forall t p, in_section p = true -> cpcs s !! t = Some p -> cpcs s1 !! t = Some p.
Proof.
  intros [I1 I2 I3 I4 I5 I6 I7 I8 I9 I10] Hqu s1. pose proof (I2 r) as Hqr. rewrite Hqu in Hqr.
  destruct (queued_head _ _ _ _ Hqr) as (p & Hu & Hp). destruct p as [r0 x i|]; [|done]. destruct x; try done.
  assert (r0 = r) as -> by (by destruct r, r0).
  subst s1. rewrite (alter_at woken _ _ _ Hu). cbn [woken].
 set (w := At r Reacquire i).
  pose proof (fun r => count_insert_if (acts r) _ _ _ w Hu) as C1. pose proof (fun r => count_insert_if (gives_up r) _ _ _ w Hu) as C2.
  pose proof (fun r => count_insert_if (attends r) _ _ _ w Hu) as C3. pose proof (fun r => sum_insert (to_do r) _ _ _ w Hu) as C4.
  split; [|split].
  2:{ specialize (C3 r). cbn [cpcs set_queue set_cpcs]. destruct r; cbn [attends w same other b2n] in C3; lia. }
  2:{ intros t p Hsec Hp'. cbn. rewrite list_lookup_insert_ne; [done|]. intros ->. rewrite Hu in Hp'. by injection Hp' as <-. }
  split; cbn [cpcs lock product_num ProductList made consumed set_cpcs set_queue]; try done.
  - by eapply guarded_move.
  - intros r'. destruct (same r r') eqn:E.
    + assert (r' = r) as -> by (by destruct r, r'). pose proof (queued_pop _ _ _ _ w Hqr eq_refl). by destruct r.
    + assert (queued (waits r') (queue_of r' s) (<[u := w]> (cpcs s))); [|by destruct r, r'].
      eapply queued_move; [apply I2|exact Hu|by destruct r, r'|done].
  - intros r' Hc. specialize (C1 r'). apply I4. cbn in C1. lia.
  - intros r' Hc. specialize (C2 r'). apply I5. cbn in C2. lia.
  - intros r' Hne. specialize (C3 r'). assert (Hold : queue_of r' s <> []) by (destruct r, r'; cbn in *; congruence).
    specialize (I6 r' Hold). change (room r' s <= count_if (attends r') (<[u := w]> (cpcs s)))%nat. cbn [attends b2n] in C3. lia.
  - specialize (C4 Producer). cbn in C4. lia.
  - specialize (C4 Consumer). cbn in C4. lia.
  - by eapply rounds_moved; [|exact Hu|eapply I10].
Qed.

Lemma blocked_room r s roles : buf_inv roles s -> if blocked r s then room r s = 0%nat else (0 < room r s)%nat.
Proof.
  intros I. destruct (bf_num _ _ I) as [Hn Hl]. destruct r; cbn [blocked room].
  - unfold MAX_PRODUCT. destruct (Z.leb_spec 10 (product_num s)); lia.
  - case_bool_decide as E; [by rewrite E|]. destruct (ProductList s); [done|cbn; lia].
Qed.
Lemma buf_goes_inside roles s t p q : buf_inv roles s -> cpcs s !! t = Some p -> in_section q = in_section p ->
  (forall r, waits r p = false /\ waits r q = false) ->
  (forall r, acts r q = true -> (0 < room r s)%nat) -> (forall r, gives_up r q = true -> room r s = 0%nat) ->
  (forall r, queue_of r s <> [] -> (room r s + b2n (attends r p) <= count_if (attends r) (cpcs s) + b2n (attends r q))%nat) ->
  (forall r, to_do r q = to_do r p) -> (forall r x i, q = At r x i -> (i < rounds r)%nat) -> buf_inv roles (go t q s).
Proof.
  intros I Ht Hs. intros. enough (buf_inv roles (go t q (set_lk (lock s) s))) by (by destruct s).
  eapply buf_goes; [exact I|exact Ht|by eapply guarded_move; [apply I|..]|done..].
Qed.

(** The obligations of [buf_goes] that hold at sight. *)
Ltac buf_easy I Hi :=
  try done;
  try (intros []; split; by repeat case_match);
  try (intros []; by repeat case_match);
  try (let r' := fresh in let H := fresh in intros r' H; pose proof (bf_wake _ _ I r' H); repeat case_match; cbn in *; lia);
  try (intros ? ? ? [= <- <- <-]; exact Hi).

Lemma buf_keeps roles t s s' : buf_inv roles s -> buf_step t s = Some s' -> buf_inv roles s'.
Proof.
  intros I H. unfold buf_step in H. destruct (cpcs s !! t) as [[r x i|]|] eqn:Ht; [|done|done].
  pose proof (bf_rounds _ _ I _ _ _ _ Ht) as Hi. pose proof (bf_lock _ _ I) as Hg.
  destruct x; try done; try (destruct (lk_acquire t (lock s)) as [k|] eqn:Ha; [|done]); cbn [mbind option_bind] in H; injection H as <-.
  - eapply buf_goes; [exact I|exact Ht|by eapply guarded_acquire|..]. all: buf_easy I Hi.
  - pose proof (blocked_room r s roles I) as Hb.
    pose proof (count_at_least (attends r) _ _ _ Ht ltac:(by destruct r)).
    destruct (blocked r s); (eapply buf_goes_inside; [exact I|exact Ht|..]); buf_easy I Hi.
    + intros r' Hr. assert (r' = r) as -> by (by destruct r, r'). done.
    + intros r' Hq. pose proof (bf_wake _ _ I r' Hq). destruct (same r r') eqn:E.
      * assert (r' = r) as -> by (by destruct r, r'). destruct r; cbn [attends same other b2n]; lia.
      * destruct r, r'; try done; cbn [attends same other b2n]; lia.
    + intros r' Hr. assert (r' = r) as -> by (by destruct r, r'). done.
  - by apply buf_waits.
  - eapply buf_goes; [exact I|exact Ht|by eapply guarded_acquire|..]. all: buf_easy I Hi.
  - eapply buf_goes_inside; [exact I|exact Ht|..]. all: buf_easy I Hi.
  - by apply buf_acts.
  - unfold signal. rewrite (gd_holder _ _ _ Hg t _ Ht eq_refl), bool_decide_true by done.
    destruct (queue_of (other r) s) as [|u q] eqn:Hq.
    + eapply buf_goes_inside; [exact I|exact Ht|..]. all: buf_easy I Hi.
      intros r' Hne. pose proof (bf_wake _ _ I r' Hne). destruct r, r'; try done; cbn [attends same other b2n]; lia.
    + destruct (buf_wakes roles s (other r) u q I Hq) as (I1 & Hc & Hkeep). set (s1 := set_queue _ _ _) in *.
      pose proof (Hkeep t (At r Signal i) eq_refl Ht) as Ht1.
      eapply buf_goes_inside; [exact I1|exact Ht1|..]. all: buf_easy I1 Hi.
      intros r' Hne. pose proof (bf_wake _ _ I1 r' Hne). pose proof (bf_wake _ _ I (other r) ltac:(by rewrite Hq)) as Hw.
      destruct (same r r') eqn:E.
      * assert (r' = r) as -> by (by destruct r, r'). destruct r; cbn [attends same other b2n]; lia.
      * assert (r' = other r) as -> by (by destruct r, r'). change (room (other r) s1) with (room (other r) s).
        rewrite Hc. destruct r; cbn [attends same other b2n] in *; lia.
  - eapply buf_goes; [exact I|exact Ht|by eapply guarded_release|..]. all: buf_easy I Hi.
  - destruct (Nat.ltb_spec (S i) (rounds r));
      (eapply buf_goes_inside; [exact I|exact Ht|..]); buf_easy I Hi.
    + by intros r0 x i0 [= <- <- <-].
    + intros []; destruct r; cbn in *; lia.
Qed.

(** ** Its end *)

Definition rank_at (x : place) : nat :=
  match x with
  | Acquire => 15 | Reacquire => 15 | TickHeld => 14 | Test => 13 | Wait => 12 | Waiting => 11
  | Act => 12 | Signal => 11 | Release => 2 | Tick => 1
  end.
Definition rank (p : pc) : nat := match p with At r x i => 16 * (rounds r - 1 - i) + rank_at x | Done => 0 end.
Definition left (s : Buf) : nat := sum_list_with rank (cpcs s).

Lemma buf_decreases roles t s s' : buf_inv roles s -> buf_step t s = Some s' -> (left s' < left s)%nat.
Proof.
  intros I H. unfold buf_step in H. destruct (cpcs s !! t) as [[r x i|]|] eqn:Ht; [|done|done].
  pose proof (bf_rounds _ _ I _ _ _ _ Ht) as Hi. unfold left.
  destruct (decide (x = Signal)) as [->|Hne].
  - injection H as <-. unfold signal. rewrite (gd_holder _ _ _ (bf_lock _ _ I) t _ Ht eq_refl), bool_decide_true by done.
    destruct (queue_of (other r) s) as [|u q] eqn:Hq; cbn [go set_cpcs set_queue cpcs].
    + pose proof (sum_insert rank _ t _ (At r Release i) Ht). cbn [rank rank_at] in *. lia.
    + pose proof (bf_queue _ _ I (other r)) as Hqr. rewrite Hq in Hqr. destruct (queued_head _ _ _ _ Hqr) as ([r' [] j|] & Hu & Hp); try done.
      rewrite (alter_at woken _ _ _ Hu). cbn [woken]. assert (Ht' : <[u := At r' Reacquire j]> (cpcs s) !! t = Some (At r Signal i)).
      { rewrite list_lookup_insert_ne; [done|]. intros ->. congruence. }
      pose proof (sum_insert rank _ t _ (At r Release i) Ht'). pose proof (sum_insert rank _ u _ (At r' Reacquire j) Hu).
      cbn [rank rank_at] in *. lia.
  - destruct x; try done; try (destruct (lk_acquire t (lock s)) as [k|] eqn:Ha; [|done]); cbn [mbind option_bind] in H; injection H as <-;
      cbn [go set_cpcs set_lk set_queue act cpcs]; try (replace (cpcs (act r s)) with (cpcs s) by (by destruct r));
      match goal with |- context [<[t := ?y]> (cpcs s)] => pose proof (sum_insert rank (cpcs s) t _ y Ht) end;
      cbn [rank rank_at] in *; repeat (case_match; cbn [rank rank_at] in * ); rewrite ?Nat.ltb_lt, ?Nat.ltb_ge in *; lia.
Qed.

Definition at_lock (p : pc) : bool := match p with At _ (Acquire | Reacquire) _ => true | _ => false end.
Definition unblocked (p : pc) : bool :=
  match p with At _ (Acquire | Reacquire | Waiting) _ | Done => false | _ => true end.

Lemma buf_goes_on roles s :
  (20 * count_if (has_role Producer) roles = 10 * count_if (has_role Consumer) roles)%nat -> buf_inv roles s ->
  Forall (fun p => p = Done) (cpcs s) \/ exists t s', buf_step t s = Some s'.
Proof.
  intros Hbal I. unfold buf_step. destruct (count_cases unblocked (cpcs s)) as [(t & p & Ht & Hp)|Hu].
  { right. exists t. rewrite Ht. destruct p as [r [] i|]; try done; eauto. }
  assert (Hz : forall f, (forall p, f p = true -> unblocked p = true) -> forall t p, cpcs s !! t = Some p -> f p = false).
  { intros f Hf t p Ht. pose proof (count_zero _ _ _ _ Hu Ht) as Hb. destruct (f p) eqn:E; [|done]. by rewrite (Hf p E) in Hb. }
  destruct (count_cases at_lock (cpcs s)) as [(t & p & Ht & Hp)|Ha].
  { right. exists t. rewrite Ht. destruct (guarded_free in_section (lock s) (cpcs s) t (bf_lock _ _ I)) as [k Hk].
    { apply Hz. by intros [? [] ?|]. }
    destruct p as [r [] i|]; try done; rewrite Hk; cbn; eauto. }
  left. assert (Hplace : forall t p, cpcs s !! t = Some p -> p = Done \/ exists r i, p = At r Waiting i).
  { intros t p Ht. pose proof (count_zero _ _ _ _ Hu Ht). pose proof (count_zero _ _ _ _ Ha Ht). destruct p as [r [] i|]; try done; eauto. }
  assert (Hno : forall r, queue_of r s <> [] -> room r s = 0%nat).
  { intros r Hne. pose proof (bf_wake _ _ I r Hne) as Hw. rewrite (count_none (attends r)) in Hw; [lia|].
    by intros t p [->|(r' & i & ->)]%Hplace. }
  assert (Hdone : forall r, queue_of r s = [] -> sum_list_with (to_do r) (cpcs s) = 0%nat).
  { intros r Hnil. apply sum_zero. intros t p Ht. destruct (Hplace t p Ht) as [->|(r' & i & ->)]; [done|].
    pose proof (bf_queue _ _ I r) as Hq. rewrite Hnil in Hq. pose proof (queued_nil _ _ _ _ Hq Ht) as Hw. cbn in Hw |- *. by rewrite Hw. }
  assert (Hmade : made s = (length (consumed s) + length (ProductList s))%nat)
    by (rewrite <- length_app, <- (bf_fifo _ _ I), length_seq; done).
  pose proof (bf_made _ _ I) as Hm. pose proof (bf_consumed _ _ I) as Hc.
  assert (Hempty : forall r, queue_of r s = []).
  { destruct (produceCondition s) as [|u q] eqn:E1, (consumeCondition s) as [|v q'] eqn:E2.
    - by intros [].
    - pose proof (Hdone Producer E1) as Hp. pose proof (Hno Consumer ltac:(cbn; by rewrite E2)) as Hr. cbn in Hr.
      pose proof (bf_queue _ _ I Consumer) as Hq. cbn [queue_of] in Hq. rewrite E2 in Hq.
      destruct (queued_head _ _ _ _ Hq) as ([r [] i|] & Hv & Hw); try done. destruct r; [done|].
      pose proof (bf_rounds _ _ I _ _ _ _ Hv). pose proof (sum_at_least (to_do Consumer) _ _ _ Hv) as Hs. cbn in Hs, H. lia.
    - pose proof (Hdone Consumer E2) as Hp. pose proof (Hno Producer ltac:(cbn; by rewrite E1)) as Hr. cbn in Hr.
      pose proof (bf_num _ _ I). lia.
    - pose proof (Hno Producer ltac:(cbn; by rewrite E1)) as Hr. pose proof (Hno Consumer ltac:(cbn; by rewrite E2)) as Hr'. cbn in Hr, Hr'. lia. }
  apply Forall_lookup_2. intros t p Ht. destruct (Hplace t p Ht) as [->|(r & i & ->)]; [done|].
  pose proof (bf_queue _ _ I r) as Hq. rewrite Hempty in Hq. pose proof (queued_nil _ _ _ _ Hq Ht) as Hw. by destruct r.
Qed.

Lemma buf_starts roles : buf_inv roles (buf_start roles).
Proof.
  assert (Hlk : forall t p, cpcs (buf_start roles) !! t = Some p -> exists r, p = At r Acquire 0).
  { intros t p H. cbn in H. rewrite list_lookup_fmap in H. destruct (roles !! t) as [r|]; naive_solver. }
  split.
  - apply guarded_new. by intros t p (r & ->)%Hlk.
  - intros r. assert (queue_of r (buf_start roles) = []) as -> by (by destruct r). apply queued_new. by intros t p (r' & ->)%Hlk.
  - cbn. lia.
  - intros r. rewrite count_none; [lia|]. by intros t p (r' & ->)%Hlk.
  - intros r. rewrite count_none; [lia|]. by intros t p (r' & ->)%Hlk.
  - by intros [].
  - done.
  - cbn [buf_start made cpcs]. rewrite Nat.add_0_l. clear. unfold count_if. induction roles as [|[] roles IH]; cbn in *; lia.
  - cbn [buf_start consumed cpcs length]. rewrite Nat.add_0_l. clear. unfold count_if. induction roles as [|[] roles IH]; cbn in *; lia.
  - intros t r x i (r' & [= -> -> ->])%Hlk. destruct r'; cbn; lia.
Qed.

(** ** Property *)

(** C7. The bounded buffer, in every run of producers of 20 products and consumers of
    10, when the numbers balance: [product_num] is the number of products in the list, at
    most [MAX_PRODUCT]; products are consumed in the order they were made, none twice and
    none lost; no wakeup is lost, so that when no thread can go on all have ended and
    everything made is consumed; a run takes at most 319 steps for each thread, and from
    every state its end can be reached. *)
Theorem bounded_buffer_correct roles n s :
  (20 * count_if (has_role Producer) roles = 10 * count_if (has_role Consumer) roles)%nat ->
  steps buf_step (buf_start roles) n s ->
  product_num s = Z.of_nat (length (ProductList s)) /\ product_num s <= MAX_PRODUCT /\
  seq 0 (made s) = consumed s ++ ProductList s /\ (n <= 319 * length roles)%nat /\
  ((forall t, buf_step t s = None) -> Forall (fun p => p = Done) (cpcs s) /\ ProductList s = [] /\
     consumed s = seq 0 (20 * count_if (has_role Producer) roles)) /\
  exists m s', steps buf_step s m s' /\ Forall (fun p => p = Done) (cpcs s').
Proof.
  intros Hbal H. pose proof (steps_inv buf_step (buf_inv roles) (buf_keeps roles) _ _ _ (buf_starts roles) H) as I.
  destruct (bf_num _ _ I) as [Hn Hl]. split_and!.
  - done.
  - unfold MAX_PRODUCT. lia.
  - apply (bf_fifo _ _ I).
  - pose proof (steps_bound buf_step (buf_inv roles) left (buf_keeps roles) (buf_decreases roles) _ _ _ (buf_starts roles) H) as Hb.
    enough (left (buf_start roles) <= 319 * length roles)%nat by lia. clear. unfold left. cbn [buf_start cpcs].
    induction roles as [|[] roles IH]; cbn [fmap list_fmap sum_list_with rank rank_at rounds length] in *; lia.
  - intros Hs. destruct (buf_goes_on roles s Hbal I) as [Hd|(t & s' & Ht)]; [|by rewrite Hs in Ht]. split; [done|].
    pose proof (bf_made _ _ I) as Hm. pose proof (bf_consumed _ _ I) as Hc. pose proof (bf_fifo _ _ I) as Hf.
    rewrite sum_zero in Hm, Hc by (intros t p Ht; by rewrite (proj1 (Forall_lookup _ _) Hd t p Ht)).
    assert (Hlen : length (ProductList s) = 0%nat).
    { pose proof (f_equal length Hf) as E. rewrite length_seq, length_app in E. lia. }
    apply nil_length_inv in Hlen. rewrite Hlen, app_nil_r in Hf. split; [done|]. rewrite <- Hf. f_equal. lia.
  - destruct (runs_finish buf_step (buf_inv roles) left (buf_keeps roles) (buf_decreases roles) _ s (fun s => buf_goes_on roles s Hbal) I)
      as (m & s' & Hm & Hd). eauto.
Qed.

(** One producer and two consumers. *)
Lemma bounded_buffer_correct_witness :
  exists n s, steps buf_step (buf_start [Producer; Consumer; Consumer]) n s /\ consumed s = seq 0 20 /\ ProductList s = [].
Proof.
  destruct (by_schedule buf_step (round_robin 300) (buf_start [Producer; Consumer; Consumer])) as [n s] eqn:E.
  assert (Hs : s = (by_schedule buf_step (round_robin 300) (buf_start [Producer; Consumer; Consumer])).2) by (by rewrite E).
  exists n, s. pose proof (by_schedule_steps _ _ _ _ _ E) as H. split; [exact H|].
  destruct (bounded_buffer_correct [Producer; Consumer; Consumer] n s eq_refl H) as (_ & _ & _ & _ & Hend & _).
  destruct Hend as (_ & Hnil & Hall); [|split; [exact Hall|exact Hnil]].
  rewrite Hs. clear. intros [|[|[|t]]]; vm_compute; reflexivity.
Defined.
End BoundedBuffer.
