(* ===== verification/PollTests.v ===== *)
(** * [threads/threadtest.cc]: producers and consumers that poll

    [produce_withLock] and [consume_withLock], which [ThreadTest6] and [ThreadTest7]
    fork: a thread that finds the pool full, or empty, gives the lock back and tries
    again.  As in [ThreadTests.v] every order of the threads' steps is a run. *)

From S2P Require Import Prelude Interleave.

Module Polling.

Definition MAX_PRODUCT : Z := 10.

Inductive role : Type := Producer | Consumer.

(** Before the call, or the statement, named: [Act] appends or removes a product; the
    flag says that the thread has found nothing to do, and will repeat the round. *)
Inductive place : Type := Acquire | Test | Act | Release (polled : bool) | Tick (polled : bool).
Inductive pc : Type := At (r : role) (x : place) (i : nat) | Done.

(** The rounds of the loops. *)
Definition rounds (r : role) : nat := match r with Producer => 20 | Consumer => 10 end.

(** The globals, the threads, the products made (by the number of their [new]) and those
    consumed. *)
Record Poll : Type := MkPoll {
  ProductList : list nat;
  product_num : Z;
  lock : Lk;
  ppcs : list pc;
  made : nat;
  consumed : list nat
}.
Definition set_lk (k : Lk) (s : Poll) : Poll := MkPoll (ProductList s) (product_num s) k (ppcs s) (made s) (consumed s).
Definition go (t : nat) (p : pc) (s : Poll) : Poll :=
  MkPoll (ProductList s) (product_num s) (lock s) (<[t := p]> (ppcs s)) (made s) (consumed s).

(** [product_num == MAX_PRODUCT], [ProductList->IsEmpty()]. *)
Definition blocked (r : role) (s : Poll) : bool :=
  match r with Producer => product_num s =? MAX_PRODUCT | Consumer => bool_decide (ProductList s = []) end.
(** The append, or the removal and [delete], with the change of [product_num]. *)
Definition act (r : role) (s : Poll) : Poll :=
  match r with
  | Producer => MkPoll (ProductList s ++ [made s]) (product_num s + 1) (lock s) (ppcs s) (S (made s)) (consumed s)
  | Consumer => MkPoll (tail (ProductList s)) (product_num s - 1) (lock s) (ppcs s) (made s) (consumed s ++ take 1 (ProductList s))
  end.

(** The next step of thread [t]. *)
Definition poll_step (t : nat) (s : Poll) : option Poll :=
  match ppcs s !! t with
  | None | Some Done => None
  | Some (At r Acquire i) => k ← lk_acquire t (lock s); Some (go t (At r Test i) (set_lk k s))
  | Some (At r Test i) => Some (go t (At r (if blocked r s then Release true else Act) i) s)
  | Some (At r Act i) => Some (go t (At r (Release false) i) (act r s))
  | Some (At r (Release b) i) => Some (go t (At r (Tick b) i) (set_lk (lk_release (lock s)) s))
  | Some (At r (Tick true) i) => Some (go t (At r Acquire i) s)
  | Some (At r (Tick false) i) => Some (go t (if (S i <? rounds r)%nat then At r Acquire (S i) else Done) s)
  end.

Definition poll_start (roles : list role) : Poll := MkPoll [] 0 new_lk ((fun r => At r Acquire 0) <$> roles) 0 [].
Definition ThreadTest6 : Poll := poll_start [Consumer; Producer; Consumer].
Definition ThreadTest7 : Poll := poll_start [Producer; Consumer; Consumer].

(** ** The invariant *)

Definition same (r r' : role) : bool := match r, r' with Producer, Producer | Consumer, Consumer => true | _, _ => false end.
Definition in_section (p : pc) : bool := match p with At _ (Test | Act | Release _) _ => true | _ => false end.
Definition acts (r : role) (p : pc) : bool := match p with At r' Act _ => same r r' | _ => false end.
(** Rounds of a thread in role [r] that have not acted. *)
Definition to_do (r : role) (p : pc) : nat :=
  match p with
  | At r' x i => if same r r' then match x with Release false | Tick false => rounds r - 1 - i | _ => rounds r - i end else 0
  | Done => 0
  end.
Definition room (r : role) (s : Poll) : nat :=
  match r with Producer => 10 - length (ProductList s) | Consumer => length (ProductList s) end.

Record poll_inv (roles : list role) (s : Poll) : Prop := {
  pl_lock : guarded in_section (lock s) (ppcs s);
  pl_num : product_num s = Z.of_nat (length (ProductList s)) /\ (length (ProductList s) <= 10)%nat;
  pl_acts : forall r, (0 < count_if (acts r) (ppcs s))%nat -> (0 < room r s)%nat;
  pl_fifo : seq 0 (made s) = consumed s ++ ProductList s;
  pl_made : (made s + sum_list_with (to_do Producer) (ppcs s) = 20 * count_if (same Producer) roles)%nat;
  pl_consumed : (length (consumed s) + sum_list_with (to_do Consumer) (ppcs s) = 10 * count_if (same Consumer) roles)%nat;
  pl_rounds : forall t r x i, ppcs s !! t = Some (At r x i) -> (i < rounds r)%nat;
  pl_threads : length (ppcs s) = length roles
}.

(** A thread goes from [p] to [q] and may take or leave the lock, nothing else. *)
Lemma poll_goes roles s t p q k : poll_inv roles s -> ppcs s !! t = Some p -> guarded in_section k (<[t := q]> (ppcs s)) ->
  (forall r, acts r q = true -> (0 < room r s)%nat) -> (forall r, to_do r q = to_do r p) ->
  (forall r x i, q = At r x i -> (i < rounds r)%nat) -> poll_inv roles (go t q (set_lk k s)).
Proof.
  intros [I1 I2 I3 I4 I5 I6 I7 I8] Ht Hg Ha Hd Hr.
  pose proof (fun r => count_insert_if (acts r) _ _ _ q Ht) as C1. pose proof (fun r => sum_insert (to_do r) _ _ _ q Ht) as C4.
  split; cbn [ppcs lock product_num ProductList made consumed go set_lk]; try done.
  - intros r Hc. specialize (C1 r). change (room r _) with (room r s). specialize (Ha r). destruct (acts r q); [by apply Ha|].
    apply I3. cbn in C1. lia.
  - specialize (C4 Producer). rewrite Hd in C4. lia.
  - specialize (C4 Consumer). rewrite Hd in C4. lia.
  - intros u r x i [[-> Hq]|[_ Hq]]%(lookup_moved_to _ _ _ _ _ _ Ht); [by eapply Hr|by eapply I7].
  - by rewrite length_insert.
Qed.

Lemma unblocked_room roles r s : poll_inv roles s -> blocked r s = false -> (0 < room r s)%nat.
Proof.
  intros I H. destruct (pl_num _ _ I) as [Hn Hl]. destruct r; cbn in *.
  - apply Z.eqb_neq in H. unfold MAX_PRODUCT in H. lia.
  - apply bool_decide_eq_false_1 in H. destruct (ProductList s); [done|cbn; lia].
Qed.

(** A thread appends or removes a product. *)
Lemma poll_acts roles s t r i : poll_inv roles s -> ppcs s !! t = Some (At r Act i) ->
  poll_inv roles (go t (At r (Release false) i) (act r s)).
Proof.
  intros I Ht. pose proof I as [I1 [Hn Hl] I3 I4 I5 I6 I7 I8]. set (q := At r (Release false) i).
  assert (Hroom : (0 < room r s)%nat).
  { apply I3. pose proof (count_at_least (acts r) _ _ _ Ht ltac:(by destruct r)). lia. }
  pose proof (fun r => sum_insert (to_do r) _ _ _ q Ht) as C4. pose proof (I7 _ _ _ _ Ht) as Hi.
  assert (Hnone : forall r', count_if (acts r') (<[t := q]> (ppcs s)) = 0%nat).
  { intros r'. pose proof (guarded_count _ _ _ _ _ (acts r') I1 Ht eq_refl ltac:(by intros [? [] ?|])) as Hc.
    pose proof (count_insert_if (acts r') _ _ _ q Ht) as C. change (b2n (acts r' q)) with 0%nat in C. lia. }
  assert (Hg : guarded in_section (lock s) (<[t := q]> (ppcs s))) by (by eapply guarded_move).
  split; destruct r; cbn [act ppcs lock product_num ProductList made consumed go room q rounds same to_do] in *;
    rewrite ?length_insert; try done; try (intros r' Hc; rewrite Hnone in Hc; lia).
  - rewrite length_app. cbn. lia.
  - destruct (ProductList s); cbn in *; lia.
  - rewrite seq_S, I4, <- app_assoc. done.
  - rewrite I4, <- app_assoc. by destruct (ProductList s).
  - specialize (C4 Producer). cbn in C4. lia.
  - specialize (C4 Producer). cbn in C4. lia.
  - specialize (C4 Consumer). cbn in C4. lia.
  - specialize (C4 Consumer). cbn in C4. rewrite length_app, length_take. lia.
  - intros u r x j [[-> [= -> -> ->]]|[_ Hq]]%(lookup_moved_to _ _ _ _ _ _ Ht); [done|by eapply I7].
  - intros u r x j [[-> [= -> -> ->]]|[_ Hq]]%(lookup_moved_to _ _ _ _ _ _ Ht); [done|by eapply I7].
Qed.

Lemma set_lk_same s : set_lk (lock s) s = s.
Proof. by destruct s. Qed.
Lemma polling_keeps roles t s s' : poll_inv roles s -> poll_step t s = Some s' -> poll_inv roles s'.
Proof.
  intros I H. unfold poll_step in H. destruct (ppcs s !! t) as [[r x i|]|] eqn:Ht; [|done|done].
  pose proof (pl_rounds _ _ I _ _ _ _ Ht) as Hi. pose proof (pl_lock _ _ I) as Hg.
  destruct x as [| | |b|[]]; try (destruct (lk_acquire t (lock s)) as [k|] eqn:Ha; [|done]); cbn [mbind option_bind] in H; injection H as <-.
  - eapply poll_goes; [done|exact Ht|by eapply guarded_acquire|done|done|by intros ??? [= <- <- <-]].
  - rewrite <- (set_lk_same s) at 2. destruct (blocked r s) eqn:Hb.
    + eapply poll_goes; [done|exact Ht|by eapply guarded_move|done|done|by intros ??? [= <- <- <-]].
    + pose proof (unblocked_room _ _ _ I Hb) as Hr. eapply poll_goes; [done|exact Ht|by eapply guarded_move| |done|by intros ??? [= <- <- <-]].
      intros r' Hs. by destruct r, r'.
  - by apply poll_acts.
  - eapply poll_goes; [done|exact Ht|by eapply guarded_release|done| |by intros ??? [= <- <- <-]].
    intros r'. by destruct r, r', b.
  - rewrite <- (set_lk_same s). eapply poll_goes; [done|exact Ht|by eapply guarded_move|done|done|by intros ??? [= <- <- <-]].
  - rewrite <- (set_lk_same s). destruct (Nat.ltb_spec (S i) (rounds r)) as [Hlt|Hge].
    + eapply poll_goes; [done|exact Ht|by eapply guarded_move|done| |by intros ??? [= <- <- <-]]. intros r'. destruct r, r'; cbn in *; lia.
    + eapply poll_goes; [done|exact Ht|by eapply guarded_move|done| |done]. intros r'. destruct r, r'; cbn in *; lia.
Qed.

(** ** Getting to the end *)

(** Steps to the next [Acquire]; rounds to act. *)
Definition local (p : pc) : nat :=
  match p with At _ Test _ => 4 | At _ Act _ => 3 | At _ (Release _) _ => 2 | At _ (Tick _) _ => 1 | _ => 0 end.
Definition task (p : pc) : nat := to_do Producer p + to_do Consumer p.
Definition weight (s : Poll) : nat := (4 * length (ppcs s) + 5) * sum_list_with task (ppcs s) + sum_list_with local (ppcs s).
Definition busy (p : pc) : bool := match p with At _ Acquire _ | Done => false | _ => true end.

Lemma weight_insert s s' t p q : ppcs s !! t = Some p -> ppcs s' = <[t := q]> (ppcs s) ->
  (task q < task p /\ local q <= 4 + local p)%nat \/ (task q <= task p /\ local q < local p)%nat -> (weight s' < weight s)%nat.
Proof.
  intros Ht Hs Hq. unfold weight. rewrite Hs, length_insert. pose proof (sum_insert task _ t p q Ht). pose proof (sum_insert local _ t p q Ht).
  nia.
Qed.

(** A thread past its [Acquire] can go on. *)
Lemma busy_goes_on roles s t p : poll_inv roles s -> ppcs s !! t = Some p -> busy p = true ->
  exists s', poll_step t s = Some s' /\ (weight s' < weight s)%nat.
Proof.
  intros I Ht Hb. unfold poll_step. rewrite Ht. destruct p as [r x i|]; [|done]. pose proof (pl_rounds _ _ I _ _ _ _ Ht) as Hi.
  destruct x as [| | |b|[]]; [done|..]; eexists; (split; [reflexivity|]);
    [eapply weight_insert; [exact Ht|reflexivity|] | eapply weight_insert; [exact Ht|by destruct r|]
    | eapply weight_insert; [exact Ht|reflexivity|]..]; right; unfold task.
  - destruct (blocked r s), r; cbn; lia.
  - destruct r; cbn in *; lia.
  - destruct r, b; cbn in *; lia.
  - destruct r; cbn in *; lia.
  - destruct (Nat.ltb_spec (S i) (rounds r)), r; cbn in *; lia.
Qed.

(** When none is, one that has something to do takes the lock and does it. *)
Lemma quiet_goes_on roles s t r i : poll_inv roles s -> count_if busy (ppcs s) = 0%nat -> ppcs s !! t = Some (At r Acquire i) ->
  (0 < room r s)%nat -> exists s', steps poll_step s 3 s' /\ (weight s' < weight s)%nat.
Proof.
  intros I Hq Ht Hr. pose proof (pl_rounds _ _ I _ _ _ _ Ht) as Hi. pose proof (lookup_lt_Some _ _ _ Ht) as Hlt.
  destruct (guarded_free in_section (lock s) (ppcs s) t (pl_lock _ _ I)) as [k Hk].
  { intros u p Hu. pose proof (count_zero _ _ _ _ Hq Hu). by destruct p as [? [] ?|]. }
  assert (Hnb : blocked r s = false).
  { destruct (pl_num _ _ I) as [Hn Hl]. destruct r; cbn in *; [apply Z.eqb_neq; unfold MAX_PRODUCT; lia|].
    apply bool_decide_eq_false_2. by destruct (ProductList s); [cbn in Hr; lia|]. }
  set (s1 := go t (At r Test i) (set_lk k s)). set (s2 := go t (At r Act i) s1).
  exists (go t (At r (Release false) i) (act r s2)). split.
  - eapply steps_more; [eapply steps_more; [eapply steps_more; [constructor|]|]|].
    + unfold poll_step. rewrite Ht, Hk. reflexivity.
    + unfold poll_step. cbn [ppcs s1 go set_lk]. rewrite list_lookup_insert_eq by done.
      change (blocked r _) with (blocked r s). rewrite Hnb. reflexivity.
    + unfold poll_step. cbn [ppcs s2 s1 go set_lk]. rewrite !list_lookup_insert_eq by (by rewrite ?length_insert). reflexivity.
  - apply (weight_insert _ _ t _ (At r (Release false) i) Ht); [|left; unfold task; destruct r; cbn in *; lia].
    destruct r; cbn [ppcs act go s2 s1 set_lk]; by rewrite !list_insert_insert_eq.
Qed.

Lemma poll_goes_on roles s : (20 * count_if (same Producer) roles = 10 * count_if (same Consumer) roles)%nat -> poll_inv roles s ->
  Forall (fun p => p = Done) (ppcs s) \/ exists n s', steps poll_step s n s' /\ (weight s' < weight s)%nat.
Proof.
  intros Hbal I. destruct (count_cases busy (ppcs s)) as [(t & p & Ht & Hp)|Hq].
  { right. destruct (busy_goes_on _ _ _ _ I Ht Hp) as (s' & Hs & Hw). exists 1%nat, s'. split; [|done]. eapply steps_more; [constructor|done]. }
  assert (Hplace : forall t p, ppcs s !! t = Some p -> p = Done \/ exists r i, p = At r Acquire i).
  { intros t p Ht. pose proof (count_zero _ _ _ _ Hq Ht). destruct p as [r [] i|]; try done; eauto. }
  assert (Hwork : forall r, (0 < sum_list_with (to_do r) (ppcs s))%nat -> (0 < room r s)%nat ->
    exists n s', steps poll_step s n s' /\ (weight s' < weight s)%nat).
  { intros r (t & p & Ht & Hp)%sum_some Hr. destruct (Hplace t p Ht) as [->|(r' & i & ->)]; [cbn in Hp; lia|].
    assert (r' = r) as -> by (destruct r, r'; cbn in Hp; (done || lia)). exists 3%nat. by eapply quiet_goes_on. }
  pose proof (pl_made _ _ I) as Hm. pose proof (pl_consumed _ _ I) as Hc. destruct (pl_num _ _ I) as [_ Hl].
  pose proof (f_equal length (pl_fifo _ _ I)) as Hf. rewrite length_seq, length_app in Hf.
  destruct (decide (sum_list_with (to_do Producer) (ppcs s) = 0%nat)) as [Ep|Ep], (decide (sum_list_with (to_do Consumer) (ppcs s) = 0%nat)) as [Ec|Ec].
  - left. apply Forall_lookup_2. intros t p Ht. destruct (Hplace t p Ht) as [->|(r & i & ->)]; [done|].
    pose proof (pl_rounds _ _ I _ _ _ _ Ht). pose proof (sum_at_least (to_do r) _ _ _ Ht) as Hs. destruct r; cbn in *; lia.
  - right. apply (Hwork Consumer); cbn; lia.
  - right. apply (Hwork Producer); cbn; lia.
  - right. destruct (decide (length (ProductList s) = 0%nat)); [apply (Hwork Producer)|apply (Hwork Consumer)]; cbn; lia.
Qed.

Lemma poll_ends roles s : (20 * count_if (same Producer) roles = 10 * count_if (same Consumer) roles)%nat -> poll_inv roles s ->
  exists m s', steps poll_step s m s' /\ poll_inv roles s' /\ Forall (fun p => p = Done) (ppcs s').
Proof.
  intros Hbal. induction s as [s IH] using (induction_ltof1 _ weight). unfold ltof in IH. intros I.
  destruct (poll_goes_on roles s Hbal I) as [Hd|(n & s1 & Hn & Hw)]; [exists 0%nat, s; by split; [constructor|]|].
  pose proof (steps_inv poll_step (poll_inv roles) (polling_keeps roles) _ _ _ I Hn) as I1.
  destruct (IH s1 Hw I1) as (m & s' & Hm & I' & Hd). exists (m + n)%nat, s'. split; [by eapply steps_trans|done].
Qed.

Lemma poll_starts roles : poll_inv roles (poll_start roles).
Proof.
  assert (Hlk : forall t p, ppcs (poll_start roles) !! t = Some p -> exists r, p = At r Acquire 0).
  { intros t p H. cbn in H. rewrite list_lookup_fmap in H. destruct (roles !! t) as [r|]; naive_solver. }
  split.
  - apply guarded_new. by intros t p (r & ->)%Hlk.
  - cbn. lia.
  - intros r. rewrite count_none; [lia|]. by intros t p (r' & ->)%Hlk.
  - done.
  - cbn [poll_start made ppcs]. rewrite Nat.add_0_l. clear. unfold count_if. induction roles as [|[] roles IH]; cbn in *; lia.
  - cbn [poll_start consumed ppcs length]. rewrite Nat.add_0_l. clear. unfold count_if. induction roles as [|[] roles IH]; cbn in *; lia.
  - intros t r x i (r' & [= -> -> ->])%Hlk. destruct r'; cbn; lia.
  - cbn. by rewrite length_fmap.
Qed.

Lemma all_done roles s : poll_inv roles s -> (20 * count_if (same Producer) roles = 10 * count_if (same Consumer) roles)%nat ->
  Forall (fun p => p = Done) (ppcs s) -> ProductList s = [] /\ consumed s = seq 0 (20 * count_if (same Producer) roles).
Proof.
  intros I Hbal Hd. pose proof (pl_made _ _ I) as Hm. pose proof (pl_consumed _ _ I) as Hc. pose proof (pl_fifo _ _ I) as Hf.
  rewrite sum_zero in Hm, Hc by (intros t p Ht; by rewrite (proj1 (Forall_lookup _ _) Hd t p Ht)).
  assert (Hlen : length (ProductList s) = 0%nat).
  { pose proof (f_equal length Hf) as E. rewrite length_seq, length_app in E. lia. }
  apply nil_length_inv in Hlen. rewrite Hlen, app_nil_r in Hf. split; [done|]. rewrite <- Hf. f_equal. lia.
Qed.

(** A consumer that finds nothing leaves everything as it was. *)
Lemma consumer_polls t i s : ProductList s = [] -> lock s = new_lk -> ppcs s !! t = Some (At Consumer Acquire i) -> steps poll_step s 4 s.
Proof.
  intros Hnil Hl Ht. pose proof (lookup_lt_Some _ _ _ Ht) as Hlt. set (s1 := go t (At Consumer Test i) (set_lk (MkLk 0 (Some t)) s)).
  set (s2 := go t (At Consumer (Release true) i) s1). set (s3 := go t (At Consumer (Tick true) i) (set_lk new_lk s2)).
  assert (Hs : s = go t (At Consumer Acquire i) s3).
  { destruct s as [l n k ps md cs]. cbn in *. unfold go. cbn. rewrite !list_insert_insert_eq, list_insert_id by done. by subst. }
  assert (Hlook : forall p s', ppcs s' = ppcs s \/ length (ppcs s') = length (ppcs s) -> ppcs (go t p s') !! t = Some p).
  { intros p s' [E|E]; cbn; rewrite list_lookup_insert_eq; rewrite ?E; done. }
  rewrite Hs at 2. apply (steps_more _ _ _ t s3); [apply (steps_more _ _ _ t s2); [apply (steps_more _ _ _ t s1);
    [apply (steps_more _ _ _ t s); [constructor|]|]|]|]; unfold poll_step.
  - rewrite Ht, Hl. reflexivity.
  - unfold s1. rewrite Hlook by (by left). cbn [blocked ProductList go set_lk]. rewrite bool_decide_true by done. reflexivity.
  - unfold s2. rewrite Hlook by (right; cbn; by rewrite length_insert). reflexivity.
  - unfold s3. rewrite Hlook by (right; cbn; by rewrite !length_insert). reflexivity.
Qed.

(** ** Property *)

(** C34. Producers and consumers that poll, in every run of producers of 20 products and
    consumers of 10, when the numbers balance: [product_num] is the number of products in
    the list, at most [MAX_PRODUCT]; products are consumed in the order they were made,
    none twice and none lost; from every state a run can end, and then everything made is
    consumed.  But there is no bound on the runs: a consumer can poll for ever. *)
Theorem polling_correct roles n s :
  (20 * count_if (same Producer) roles = 10 * count_if (same Consumer) roles)%nat -> steps poll_step (poll_start roles) n s ->
  product_num s = Z.of_nat (length (ProductList s)) /\ product_num s <= MAX_PRODUCT /\
  seq 0 (made s) = consumed s ++ ProductList s /\
  (exists m s', steps poll_step s m s' /\ Forall (fun p => p = Done) (ppcs s') /\ ProductList s' = [] /\
     consumed s' = seq 0 (20 * count_if (same Producer) roles)) /\
  (forall r, In Consumer r -> forall m, exists m' s', (m <= m')%nat /\ steps poll_step (poll_start r) m' s' /\ made s' = 0%nat).
Proof.
  intros Hbal H. pose proof (steps_inv poll_step (poll_inv roles) (polling_keeps roles) _ _ _ (poll_starts roles) H) as I.
  destruct (pl_num _ _ I) as [Hn Hl]. split_and!.
  - done.
  - unfold MAX_PRODUCT. lia.
  - apply (pl_fifo _ _ I).
  - destruct (poll_ends roles s Hbal I) as (m & s' & Hm & I' & Hd). exists m, s'. destruct (all_done _ _ I' Hbal Hd). done.
  - intros r [t Ht]%list_elem_of_In%list_elem_of_lookup m. exists (4 * m)%nat, (poll_start r). split; [lia|]. split; [|done].
    assert (H4 : steps poll_step (poll_start r) 4 (poll_start r)).
    { apply (consumer_polls t 0); [done|done|]. cbn. by rewrite list_lookup_fmap, Ht. }
    induction m as [|m IH]; [constructor|]. replace (4 * S m)%nat with (4 * m + 4)%nat by lia. by eapply steps_trans.
Qed.

(** The threads of [ThreadTest6], in turn. *)
Lemma polling_correct_witness : exists m s, steps poll_step ThreadTest6 m s /\ ProductList s = [] /\ consumed s = seq 0 20.
Proof.
  destruct (polling_correct [Consumer; Producer; Consumer] 0 ThreadTest6 eq_refl (steps_none _ _)) as (_ & _ & _ & (m & s & Hm & _ & Hnil & Hall) & _).
  exists m, s. split; [exact Hm|]. split; [exact Hnil|exact Hall].
Defined.
End Polling.
