(* ===== verification/Network.v ===== *)
(** * The network and the post office: [machine/network.cc], [network/post.cc]

    Machines that exchange packets over datagram sockets, and the post office that
    sends and receives mail on them.  The state is all the machines and the sockets
    between them; an event is what one machine does between two points where its
    thread waits: a call of [Send] up to the wait for the interrupt, an interrupt, a
    round of the delivery thread, a call of [Receive].  Events of all machines
    interleave in any order.

    [chanceToWork] is a rational number here, a [double] in the code; the values 0
    and 1 and the product with 100 that decides on a loss are exact for both. *)

From Stdlib Require Import QArith.QArith.
From S2P Require Import Prelude.
Open Scope Z_scope.

(** ** Data *)

(** [network.h], [post.h]: the sizes are those of three 4-byte fields. *)
Definition MaxWireSize : Z := 64.
Definition MaxPacketSize : Z := MaxWireSize - 12.
Definition MaxMailSize : Z := MaxPacketSize - 12.

Record PacketHeader : Type := MkPkt { pk_to : Z; pk_from : Z; pk_length : Z }.
Record MailHeader : Type := MkMailHdr { ml_to : Z; ml_from : Z; ml_length : Z }.

(** The structures as bytes, two [int]s and an [unsigned]. *)
Definition word_at (bs : list Z) (i : nat) : Z := le_val (take 4 (drop (4 * i) bs)).
Definition struct_bytes (a b c : Z) : list Z := le_bytes 4 a ++ le_bytes 4 b ++ le_bytes 4 c.
Definition pkt_bytes (h : PacketHeader) : list Z := struct_bytes (pk_to h) (pk_from h) (pk_length h).
Definition pkt_of (bs : list Z) : PacketHeader := MkPkt (i32 (word_at bs 0)) (i32 (word_at bs 1)) (word_at bs 2).
Definition mail_bytes (h : MailHeader) : list Z := struct_bytes (ml_to h) (ml_from h) (ml_length h).
Definition mail_of (bs : list Z) : MailHeader := MkMailHdr (i32 (word_at bs 0)) (i32 (word_at bs 1)) (word_at bs 2).

(** [class Mail]; [mail_data] is the part of [data] in use. *)
Record Mail : Type := MkMail { mail_pkt : PacketHeader; mail_hdr : MailHeader; mail_data : list Z }.

(** The interrupts of the device. *)
Inductive NetInt : Type := NetworkReadPoll | NetworkSendDone.
#[export] Instance NetInt_eq_dec : EqDecision NetInt.
Proof. solve_decision. Defined.

(** One machine: its [Network] and its [PostOffice].  [scheduled] are the pending
    interrupts; [buffer] is the array of [PostalDelivery]; [gone] is the mail already
    taken from each box, which the code does not keep. *)
Record Node : Type := MkNode {
  ident : Z;
  chanceToWork : Q;
  sendBusy : bool;
  inHdr : PacketHeader;
  inbox : list Z;
  scheduled : list NetInt;
  numPacketsSent : Z;
  numPacketsRecvd : Z;
  messageAvailable : Z;
  messageSent : Z;
  sendLock : bool;
  boxes : list (list Mail);
  buffer : list Z;
  draws : nat;
  gone : list (list Mail)
}.

(** The machines by their network address, the queues of the sockets, and all the
    datagrams each socket ever accepted. *)
Record World : Type := MkWorld {
  nodes : gmap Z Node;
  sockets : gmap Z (list (list Z));
  carried : gmap Z (list (list Z))
}.

Definition set_in (h : PacketHeader) (bs : list Z) (n : Node) : Node :=
  MkNode (ident n) (chanceToWork n) (sendBusy n) h bs (scheduled n) (numPacketsSent n) (numPacketsRecvd n)
    (messageAvailable n) (messageSent n) (sendLock n) (boxes n) (buffer n) (draws n) (gone n).
Definition set_scheduled (l : list NetInt) (n : Node) : Node :=
  MkNode (ident n) (chanceToWork n) (sendBusy n) (inHdr n) (inbox n) l (numPacketsSent n) (numPacketsRecvd n)
    (messageAvailable n) (messageSent n) (sendLock n) (boxes n) (buffer n) (draws n) (gone n).
Definition set_counts (busy : bool) (s r : Z) (n : Node) : Node :=
  MkNode (ident n) (chanceToWork n) busy (inHdr n) (inbox n) (scheduled n) s r
    (messageAvailable n) (messageSent n) (sendLock n) (boxes n) (buffer n) (draws n) (gone n).
Definition set_semaphores (a s : Z) (l : bool) (n : Node) : Node :=
  MkNode (ident n) (chanceToWork n) (sendBusy n) (inHdr n) (inbox n) (scheduled n) (numPacketsSent n) (numPacketsRecvd n)
    a s l (boxes n) (buffer n) (draws n) (gone n).
Definition set_boxes (b g : list (list Mail)) (n : Node) : Node :=
  MkNode (ident n) (chanceToWork n) (sendBusy n) (inHdr n) (inbox n) (scheduled n) (numPacketsSent n) (numPacketsRecvd n)
    (messageAvailable n) (messageSent n) (sendLock n) b (buffer n) (draws n) g.
Definition set_buffer (b : list Z) (n : Node) : Node :=
  MkNode (ident n) (chanceToWork n) (sendBusy n) (inHdr n) (inbox n) (scheduled n) (numPacketsSent n) (numPacketsRecvd n)
    (messageAvailable n) (messageSent n) (sendLock n) (boxes n) b (draws n) (gone n).
Definition set_draws (d : nat) (n : Node) : Node :=
  MkNode (ident n) (chanceToWork n) (sendBusy n) (inHdr n) (inbox n) (scheduled n) (numPacketsSent n) (numPacketsRecvd n)
    (messageAvailable n) (messageSent n) (sendLock n) (boxes n) (buffer n) d (gone n).

(** A map from a list of keys. *)
Lemma map_of_const {A} (f : Z -> A) (l : list Z) a :
  (list_to_map ((fun a => (a, f a)) <$> l) : gmap Z A) !! a = if decide (a ∈ l) then Some (f a) else None.
Proof.
  induction l as [|x l IH]; [rewrite decide_False; [done|apply not_elem_of_nil]|]. cbn [fmap list_fmap list_to_map foldr].
  destruct (decide (a = x)) as [->|Hne].
  - rewrite lookup_insert_eq, decide_True by left. done.
  - rewrite lookup_insert_ne by done. rewrite IH. destruct (decide (a ∈ l)).
    + rewrite decide_True by (by right). done.
    + rewrite decide_False; [done|]. rewrite elem_of_cons. tauto.
Qed.

Section Network.
(** [Random a k] is the [k]-th number drawn by machine [a]; [junk] is what a new
    buffer holds. *)
Context (Random : Z -> nat -> Z) (junk : nat -> Z).

Definition pad (n : nat) (l : list Z) : list Z := l ++ (junk <$> seq (length l) (n - length l)).

Definition node (me : Z) : M World Node := fun w =>
  match nodes w !! me with Some n => Ok (n, w) | None => Stop Undefined end.
Definition change (me : Z) (f : Node -> Node) : M World unit :=
  n ← node me; modify (fun w => MkWorld (<[me := f n]> (nodes w)) (sockets w) (carried w)).

(** ** The network device *)

(** [Network::Network], with the first poll scheduled, on a machine whose other
    fields are there. *)
Definition clamp (reliability : Q) : Q :=
  if negb (Qle_bool 0 reliability) then 0%Q else if negb (Qle_bool reliability 1) then 1%Q else reliability.
Definition new_network (addr : Z) (reliability : Q) (n : Node) : Node :=
  MkNode addr (clamp reliability) false (MkPkt (pk_to (inHdr n)) (pk_from (inHdr n)) 0) (inbox n)
    (scheduled n ++ [NetworkReadPoll]) (numPacketsSent n) (numPacketsRecvd n)
    (messageAvailable n) (messageSent n) (sendLock n) (boxes n) (buffer n) (draws n) (gone n).

(** [PostOffice::PostOffice]: its semaphores, lock and boxes, and a new [Network];
    the delivery thread it forks is the event [EDeliver] below. *)
Definition new_node (addr : Z) (reliability : Q) (nBoxes : nat) : Node :=
  new_network addr reliability
    (MkNode (junk 0) 0%Q false (MkPkt (junk 1) (junk 2) (junk 3)) (pad (Z.to_nat MaxPacketSize) []) [] 0 0
       0 0 false (replicate nBoxes []) (pad (Z.to_nat MaxPacketSize) []) 0 (replicate nBoxes [])).

(** [interrupt->Schedule]. *)
Definition Schedule (me : Z) (i : NetInt) : M World unit := change me (fun n => set_scheduled (scheduled n ++ [i]) n).

(** [SendToSocket] of [sysdep.cc]: the datagram is queued at the socket of that
    address, and the assertion fails when there is none. *)
Definition SendToSocket (to : Z) (bs : list Z) : M World unit := fun w =>
  match sockets w !! to with
  | Some q => Ok (tt, MkWorld (nodes w) (<[to := q ++ [bs]]> (sockets w))
                        (<[to := default [] (carried w !! to) ++ [bs]]> (carried w)))
  | None => Stop AssertFailed
  end.
(** [PollSocket] and [ReadFromSocket]: [None] when nothing is there. *)
Definition ReadFromSocket (me : Z) : M World (option (list Z)) := fun w =>
  match sockets w !! me with
  | None => Stop Undefined
  | Some [] => Ok (None, w)
  | Some (bs :: q) =>
      if Z.of_nat (length bs) =? MaxWireSize
      then Ok (Some bs, MkWorld (nodes w) (<[me := q]> (sockets w)) (carried w)) else Stop AssertFailed
  end.

(** [Network::Send]. *)
Definition Network_Send (me : Z) (hdr : PacketHeader) (data : list Z) : M World unit :=
  n ← node me;
  _ ← ASSERT (negb (sendBusy n) && (0 <? pk_length hdr) && (pk_length hdr <=? MaxPacketSize) && (pk_from hdr =? ident n));
  _ ← Schedule me NetworkSendDone;
  _ ← change me (fun n => set_draws (S (draws n)) n);
  if Qle_bool (chanceToWork n * 100) (inject_Z (Random me (draws n) mod 100)) then mret tt
  else
    payload ← lift (slice 0 (pk_length hdr) data);
    SendToSocket (pk_to hdr) (pad (Z.to_nat MaxWireSize) (pkt_bytes hdr ++ payload)).

(** [Network::Receive]: the header, and the caller's buffer. *)
Definition Network_Receive (me : Z) (data : list Z) : M World (PacketHeader * list Z) :=
  n ← node me;
  let hdr := inHdr n in
  _ ← change me (fun n => set_in (MkPkt (pk_to hdr) (pk_from hdr) 0) (inbox n) n);
  if negb (pk_length hdr =? 0) then
    bs ← lift (slice 0 (pk_length hdr) (inbox n));
    data ← lift (splice 0 bs data);
    mret (hdr, data)
  else mret (hdr, data).

(** ** The post office *)

(** [PostOffice::IncomingPacket], [PostOffice::PacketSent]. *)
Definition IncomingPacket (me : Z) : M World unit :=
  change me (fun n => set_semaphores (messageAvailable n + 1) (messageSent n) (sendLock n) n).
Definition PacketSent (me : Z) : M World unit :=
  change me (fun n => set_semaphores (messageAvailable n) (messageSent n + 1) (sendLock n) n).

(** [Network::CheckPktAvail], with the handler [ReadAvail]: the packet [bs] is split
    and put in [inbox]; a poll does so when there is a packet and room for it. *)
Definition packet_in (me : Z) (bs : list Z) : M World unit :=
  n ← node me;
  let h := pkt_of bs in
  _ ← ASSERT ((pk_to h =? ident n) && (pk_length h <=? MaxPacketSize));
  payload ← lift (slice 12 (pk_length h) bs);
  inbox ← lift (splice 0 payload (inbox n));
  _ ← change me (set_in h inbox);
  _ ← change me (fun n => set_counts (sendBusy n) (numPacketsSent n) (numPacketsRecvd n + 1) n);
  IncomingPacket me.
Definition CheckPktAvail (me : Z) : M World unit :=
  _ ← Schedule me NetworkReadPoll;
  n ← node me;
  if negb (pk_length (inHdr n) =? 0) then mret tt
  else
    p ← ReadFromSocket me;
    match p with None => mret tt | Some bs => packet_in me bs end.

(** [Network::SendDone], with the handler [WriteDone]. *)
Definition SendDone (me : Z) : M World unit :=
  _ ← change me (fun n => set_counts false (numPacketsSent n + 1) (numPacketsRecvd n) n);
  PacketSent me.

(** [PostOffice::Send] up to [messageSent->P()], and after it. *)
Definition Send_begin (me : Z) (pktHdr : PacketHeader) (mailHdr : MailHeader) (data : list Z) : M World unit :=
  n ← node me;
  _ ← ASSERT (ml_length mailHdr <=? MaxMailSize);
  _ ← ASSERT ((0 <=? ml_to mailHdr) && (ml_to mailHdr <? Z.of_nat (length (boxes n))));
  let pktHdr := MkPkt (pk_to pktHdr) (ident n) (u32 (ml_length mailHdr + 12)) in
  bs ← lift (slice 0 (ml_length mailHdr) data);
  let buffer := pad (Z.to_nat MaxPacketSize) (mail_bytes mailHdr ++ bs) in
  _ ← change me (fun n => set_semaphores (messageAvailable n) (messageSent n) true n);
  Network_Send me pktHdr buffer.
Definition Send_end (me : Z) : M World unit :=
  change me (fun n => set_semaphores (messageAvailable n) (messageSent n - 1) false n).

(** [Mail::Mail] and [MailBox::Put]. *)
Definition new_Mail (pktH : PacketHeader) (mailH : MailHeader) (msgData : list Z) : M World Mail :=
  _ ← ASSERT (ml_length mailH <=? MaxMailSize);
  bs ← lift (slice 0 (ml_length mailH) msgData);
  mret (MkMail pktH mailH bs).
Definition Put (me box : Z) (pktHdr : PacketHeader) (mailHdr : MailHeader) (data : list Z) : M World unit :=
  mail ← new_Mail pktHdr mailHdr data;
  n ← node me;
  b ← lift (aget (boxes n) box);
  bs ← lift (aset (boxes n) box (b ++ [mail]));
  change me (set_boxes bs (gone n)).

(** A round of [PostOffice::PostalDelivery], from [messageAvailable->P()]. *)
Definition PostalDelivery (me : Z) : M World unit :=
  _ ← change me (fun n => set_semaphores (messageAvailable n - 1) (messageSent n) (sendLock n) n);
  n ← node me;
  '(pktHdr, buf) ← Network_Receive me (buffer n);
  _ ← change me (set_buffer buf);
  let mailHdr := mail_of buf in
  _ ← ASSERT ((0 <=? ml_to mailHdr) && (ml_to mailHdr <? Z.of_nat (length (boxes n))));
  _ ← ASSERT (ml_length mailHdr <=? MaxMailSize);
  Put me (ml_to mailHdr) pktHdr mailHdr (drop 12 buf).

(** [MailBox::Get] and [PostOffice::Receive]. *)
Definition Get (me box : Z) : M World Mail :=
  n ← node me;
  b ← lift (aget (boxes n) box);
  match b with
  | [] => halt Undefined
  | mail :: rest =>
      bs ← lift (aset (boxes n) box rest);
      g ← lift (aget (gone n) box);
      gs ← lift (aset (gone n) box (g ++ [mail]));
      _ ← change me (set_boxes bs gs);
      mret mail
  end.
Definition Receive (me box : Z) : M World Mail :=
  n ← node me;
  _ ← ASSERT ((0 <=? box) && (box <? Z.of_nat (length (boxes n))));
  mail ← Get me box;
  _ ← ASSERT (ml_length (mail_hdr mail) <=? MaxMailSize);
  mret mail.

(** ** Events *)

Inductive event : Type :=
| ESend (me : Z) (pktHdr : PacketHeader) (mailHdr : MailHeader) (data : list Z)
| ESent (me : Z)
| EInterrupt (me : Z) (i : nat)
| EDeliver (me : Z)
| EReceive (me box : Z).

Definition do_event (e : event) : M World (option Mail) :=
  match e with
  | ESend me pktHdr mailHdr data => _ ← Send_begin me pktHdr mailHdr data; mret None
  | ESent me => _ ← Send_end me; mret None
  | EInterrupt me i =>
      n ← node me;
      match scheduled n !! i with
      | None => halt Undefined
      | Some h =>
          _ ← change me (fun n => set_scheduled (delete i (scheduled n)) n);
          _ ← match h with NetworkReadPoll => CheckPktAvail me | NetworkSendDone => SendDone me end;
          mret None
      end
  | EDeliver me => _ ← PostalDelivery me; mret None
  | EReceive me box => m ← Receive me box; mret (Some m)
  end.

(** An event whose thread does not have to wait: the lock is free, the semaphore
    positive, the interrupt pending, the box not empty. *)
Definition ready (e : event) (w : World) : bool :=
  match e with
  | ESend me _ _ _ => match nodes w !! me with Some n => negb (sendLock n) | None => false end
  | ESent me => match nodes w !! me with Some n => sendLock n && (0 <? messageSent n) | None => false end
  | EInterrupt me i => match nodes w !! me with Some n => (i <? length (scheduled n))%nat | None => false end
  | EDeliver me => match nodes w !! me with Some n => 0 <? messageAvailable n | None => false end
  | EReceive me box =>
      match nodes w !! me with
      | Some n => match boxes n !! Z.to_nat box with Some (_ :: _) => 0 <=? box | _ => false end
      | None => false
      end
  end.


(** ** Datagrams *)

(** The mail in a datagram. *)
Definition decode (bs : list Z) : Mail :=
  let h := mail_of (drop 12 bs) in MkMail (pkt_of bs) h (take (Z.to_nat (ml_length h)) (drop 24 bs)).

(** A datagram for machine [d], whose post office has [nb] boxes. *)
Record datagram_ok (nb : nat) (d : Z) (bs : list Z) : Prop := {
  dg_size : length bs = 64%nat;
  dg_to : pk_to (pkt_of bs) = d;
  dg_length : pk_length (pkt_of bs) = ml_length (mail_of (drop 12 bs)) + 12;
  dg_fits : 0 <= ml_length (mail_of (drop 12 bs)) <= 40;
  dg_box : 0 <= ml_to (mail_of (drop 12 bs)) < Z.of_nat nb
}.

Lemma length_struct a b c : length (struct_bytes a b c) = 12%nat.
Proof. reflexivity. Qed.

Lemma take_le n z r : take n (le_bytes n z ++ r) = le_bytes n z.
Proof. rewrite take_app_le by (by rewrite length_le_bytes). apply take_ge. by rewrite length_le_bytes. Qed.
Lemma drop_le n z r : drop n (le_bytes n z ++ r) = r.
Proof. by rewrite drop_app_length' by (by rewrite length_le_bytes). Qed.

Lemma struct_words a b c r :
  let bs := struct_bytes a b c ++ r in word_at bs 0 = u32 a /\ word_at bs 1 = u32 b /\ word_at bs 2 = u32 c.
Proof.
  intros bs. unfold bs, struct_bytes, word_at. rewrite <- !app_assoc.
  change (4 * 2)%nat with (4 + 4)%nat. change (4 * 0)%nat with 0%nat. change (4 * 1)%nat with 4%nat.
  rewrite drop_0, <- !drop_drop, !drop_le, !take_le, !le_val_bytes. done.
Qed.

Lemma pkt_roundtrip h r : is_i32 (pk_to h) -> is_i32 (pk_from h) -> is_u32 (pk_length h) -> pkt_of (pkt_bytes h ++ r) = h.
Proof.
  intros H1 H2 H3. unfold pkt_of, pkt_bytes. destruct (struct_words (pk_to h) (pk_from h) (pk_length h) r) as (-> & -> & ->).
  rewrite !i32_u32, !i32_id, u32_id by done. by destruct h.
Qed.
Lemma mail_roundtrip h r : is_i32 (ml_to h) -> is_i32 (ml_from h) -> is_u32 (ml_length h) -> mail_of (mail_bytes h ++ r) = h.
Proof.
  intros H1 H2 H3. unfold mail_of, mail_bytes. destruct (struct_words (ml_to h) (ml_from h) (ml_length h) r) as (-> & -> & ->).
  rewrite !i32_u32, !i32_id, u32_id by done. by destruct h.
Qed.

Lemma length_pad n l : (length l <= n)%nat -> length (pad n l) = n.
Proof. intros. unfold pad. rewrite length_app, length_fmap, length_seq. lia. Qed.

(** What [Send] puts on the wire. *)
Definition datagram (me to : Z) (mh : MailHeader) (data : list Z) : list Z :=
  let bs := take (Z.to_nat (ml_length mh)) data in
  let len := ml_length mh + 12 in
  pad 64 (pkt_bytes (MkPkt to me len) ++ take (Z.to_nat len) (pad 52 (mail_bytes mh ++ bs))).

(** The arguments of [Send] that are in range. *)
Record mail_ok (nb : nat) (to : Z) (mh : MailHeader) (data : list Z) : Prop := {
  mo_to : is_i32 to;
  mo_box : 0 <= ml_to mh < Z.of_nat nb;
  mo_from : is_i32 (ml_from mh);
  mo_length : 0 <= ml_length mh <= 40;
  mo_data : ml_length mh <= Z.of_nat (length data)
}.

Lemma datagram_decode nb me to mh data : (Z.of_nat nb < 2 ^ 31) -> is_i32 me -> mail_ok nb to mh data ->
  datagram_ok nb to (datagram me to mh data) /\
  decode (datagram me to mh data) = MkMail (MkPkt to me (ml_length mh + 12)) mh (take (Z.to_nat (ml_length mh)) data).
Proof.
  intros Hnb Hme [H1 H2 H3 H4 H5]. unfold datagram. set (bs := take (Z.to_nat (ml_length mh)) data).
  set (h := MkPkt to me (ml_length mh + 12)).
  assert (Hbs : length bs = Z.to_nat (ml_length mh)) by (unfold bs; rewrite length_take; lia).
  assert (Htk : take (Z.to_nat (ml_length mh + 12)) (pad 52 (mail_bytes mh ++ bs)) = mail_bytes mh ++ bs).
  { unfold pad. apply take_app_length'. rewrite length_app. unfold mail_bytes. rewrite length_struct, Hbs. lia. }
  rewrite Htk. set (D := pad 64 _).
  assert (Hpk : pkt_of D = h).
  { unfold D, pad. rewrite <- app_assoc. apply pkt_roundtrip; [done|done|unfold h, is_u32; simpl; lia]. }
  assert (Hd12 : exists r, drop 12 D = mail_bytes mh ++ bs ++ r).
  { eexists. unfold D, pad. rewrite <- !app_assoc. apply (drop_app_length' (pkt_bytes h)). reflexivity. }
  destruct Hd12 as [r Hr].
  assert (Hml : mail_of (drop 12 D) = mh).
  { rewrite Hr. apply mail_roundtrip; [unfold is_i32; lia|done|unfold is_u32; lia]. }
  assert (Hlen : length D = 64%nat).
  { apply length_pad. rewrite !length_app, Hbs. unfold pkt_bytes, mail_bytes. rewrite !length_struct. lia. }
  split.
  - split; [done|by rewrite Hpk|by rewrite Hpk, Hml|by rewrite Hml|by rewrite Hml].
  - unfold decode. rewrite Hml, Hpk. f_equal. replace (drop 24 D) with (drop 12 (drop 12 D)) by (by rewrite drop_drop).
    rewrite Hr. rewrite (drop_app_length' (mail_bytes mh)) by reflexivity. by rewrite take_app_length' by lia.
Qed.

(** ** The invariant *)

(** The mail for box [b] in a list of datagrams. *)
Definition for_box (b : nat) (l : list (list Z)) : list Mail :=
  filter (fun m => ml_to (mail_hdr m) = Z.of_nat b) (decode <$> l).

(** The packet in the device's [inbox], which the delivery thread has been told of. *)
Definition arrived (nb : nat) (d : Z) (n : Node) (cur : option (list Z)) : Prop :=
  match cur with
  | None => pk_length (inHdr n) = 0 /\ messageAvailable n = 0
  | Some bs => datagram_ok nb d bs /\ inHdr n = pkt_of bs /\ messageAvailable n = 1 /\
      take (Z.to_nat (pk_length (pkt_of bs))) (inbox n) = take (Z.to_nat (pk_length (pkt_of bs))) (drop 12 bs)
  end.

Definition sends (l : list NetInt) : Z := Z.of_nat (length (filter (fun i => i = NetworkSendDone) l)).

(** Machine [d], with the queue [q] of its socket, which has accepted [l] so far:
    the datagrams delivered, the one in the device and those in the queue are all of
    them; each box has the delivered mail for it that was not yet received; a poll is
    scheduled; and while a message is being sent, the interrupt that ends it is to
    come or has come. *)
Record node_ok (nb : nat) (d : Z) (n : Node) (q l : list (list Z)) : Prop := {
  no_ident : ident n = d /\ is_i32 d;
  no_busy : sendBusy n = false;
  no_sizes : length (inbox n) = 52%nat /\ length (buffer n) = 52%nat /\ length (boxes n) = nb /\ length (gone n) = nb;
  no_poll : NetworkReadPoll ∈ scheduled n;
  no_lock : 0 <= messageSent n /\ sends (scheduled n) + messageSent n = if sendLock n then 1 else 0;
  no_log : exists dl cur, l = dl ++ option_list cur ++ q /\ arrived nb d n cur /\ Forall (datagram_ok nb d) l /\
    forall b g x, gone n !! b = Some g -> boxes n !! b = Some x -> for_box b dl = g ++ x
}.

Record world_ok (nb : nat) (w : World) : Prop := {
  wo_boxes : Z.of_nat nb < 2 ^ 31;
  wo_nodes : forall d n, nodes w !! d = Some n ->
    exists q l, sockets w !! d = Some q /\ carried w !! d = Some l /\ node_ok nb d n q l;
  wo_sockets : forall d, is_Some (sockets w !! d) -> is_Some (nodes w !! d)
}.

(** The world with another machine [me]. *)
Definition with_node (me : Z) (n : Node) (w : World) : World :=
  MkWorld (<[me := n]> (nodes w)) (sockets w) (carried w).

Lemma node_run me n w : nodes w !! me = Some n -> node me w = Ok (n, w).
Proof. intros H. unfold node. by rewrite H. Qed.
Lemma change_run me f n w : nodes w !! me = Some n -> change me f w = Ok (tt, with_node me (f n) w).
Proof. intros H. unfold change. by rewrite (bind_ok _ _ _ _ _ (node_run me n w H)). Qed.
Lemma nodes_with me n w : nodes (with_node me n w) !! me = Some n.
Proof. apply lookup_insert_eq. Qed.
Lemma with_with me n n' w : with_node me n' (with_node me n w) = with_node me n' w.
Proof. unfold with_node. cbn. by rewrite insert_insert_eq. Qed.

Lemma world_with nb w me n n' q l q' :
  world_ok nb w -> nodes w !! me = Some n -> sockets w !! me = Some q -> carried w !! me = Some l -> node_ok nb me n' q' l ->
  world_ok nb (MkWorld (<[me := n']> (nodes w)) (<[me := q']> (sockets w)) (carried w)).
Proof.
  intros [H1 H2 H3] Hn Hq Hl Hok. split; [done| |]; cbn.
  - intros d m. destruct (decide (d = me)) as [->|Hne].
    + rewrite !lookup_insert_eq. intros [= <-]. by exists q', l.
    + rewrite !lookup_insert_ne by done. apply H2.
  - intros d. destruct (decide (d = me)) as [->|Hne].
    + rewrite !lookup_insert_eq. done.
    + rewrite !lookup_insert_ne by done. apply H3.
Qed.

Lemma world_with_node nb w me n n' : world_ok nb w -> nodes w !! me = Some n ->
  (forall q l, node_ok nb me n q l -> node_ok nb me n' q l) -> world_ok nb (with_node me n' w).
Proof.
  intros Hw Hn Hok. destruct (wo_nodes _ _ Hw me n Hn) as (q & l & Hq & Hl & Hno).
  pose proof (world_with nb w me n n' q l q Hw Hn Hq Hl (Hok q l Hno)) as H.
  rewrite (insert_id (sockets w)) in H by done. exact H.
Qed.

(** A datagram more on a socket. *)
Lemma world_carries nb w to q l bs :
  world_ok nb w -> sockets w !! to = Some q -> carried w !! to = Some l -> datagram_ok nb to bs ->
  world_ok nb (MkWorld (nodes w) (<[to := q ++ [bs]]> (sockets w)) (<[to := l ++ [bs]]> (carried w))).
Proof.
  intros [H1 H2 H3] Hq Hl Hbs. split; [done| |]; cbn.
  - intros d n Hn. destruct (decide (d = to)) as [->|Hne].
    + rewrite !lookup_insert_eq. exists (q ++ [bs]), (l ++ [bs]). split; [done|]. split; [done|].
      destruct (H2 to n Hn) as (q' & l' & Hq' & Hl' & [A1 A2 A3 A4 A5 (dl & cur & B1 & B2 & B3 & B4)]).
      assert (q' = q) as -> by congruence. assert (l' = l) as -> by congruence.
      split; try done. exists dl, cur. split; [rewrite B1, !app_assoc; done|]. split; [done|]. split; [|done].
      apply Forall_app. by split; [|constructor].
    + rewrite !lookup_insert_ne by done. by apply H2.
  - intros d. destruct (decide (d = to)) as [->|Hne]; [intros _; apply H3; by rewrite Hq|].
    rewrite lookup_insert_ne by done. apply H3.
Qed.

(** ** The events keep it *)

Lemma sends_app l1 l2 : sends (l1 ++ l2) = sends l1 + sends l2.
Proof. unfold sends. rewrite filter_app, length_app. lia. Qed.
Lemma sends_delete (l : list NetInt) i h : l !! i = Some h -> sends l = sends [h] + sends (delete i l).
Proof. intros H. unfold sends. rewrite (length_filter_delete _ l i h H), filter_cons. case_decide; cbn; lia. Qed.
Lemma sends_nonneg l : 0 <= sends l.
Proof. unfold sends. lia. Qed.
(** A change of the semaphores, the pending interrupts and the draws. *)
Lemma node_ok_same nb d n n' q l :
  node_ok nb d n q l ->
  ident n' = ident n -> sendBusy n' = false -> inHdr n' = inHdr n -> inbox n' = inbox n -> length (buffer n') = 52%nat ->
  boxes n' = boxes n -> gone n' = gone n -> messageAvailable n' = messageAvailable n ->
  NetworkReadPoll ∈ scheduled n' ->
  (0 <= messageSent n' /\ sends (scheduled n') + messageSent n' = if sendLock n' then 1 else 0) ->
  node_ok nb d n' q l.
Proof.
  intros [A1 A2 A3 A4 A5 (dl & cur & B1 & B2 & B3 & B4)] E1 E2 E3 E4 E5 E6 E7 E8 E9 E10.
  destruct A3 as (C1 & C2 & C3 & C4).
  split; [by rewrite E1|done|by rewrite E4, E6, E7|done|done|].
  exists dl, cur. split; [done|]. split; [|by rewrite E6, E7].
  unfold arrived in *. rewrite E3, E4, E8. done.
Qed.

(** [Send], up to its wait: the mail is on the wire, or lost. *)
Definition lost (me : Z) (n : Node) : bool :=
  Qle_bool (chanceToWork n * 100) (inject_Z (Random me (draws n) mod 100)).
Lemma never_lost me n : chanceToWork n = 1%Q -> lost me n = false.
Proof.
  intros Hone. unfold lost. rewrite Hone. apply not_true_iff_false. rewrite Qle_bool_iff. unfold Qle. cbn.
  pose proof (Z.mod_pos_bound (Random me (draws n)) 100 ltac:(lia)). lia.
Qed.
Definition sending (n : Node) : Node :=
  set_draws (S (draws n)) (set_scheduled (scheduled n ++ [NetworkSendDone])
    (set_semaphores (messageAvailable n) (messageSent n) true n)).

Lemma send_run nb w me n pkt mh data q l :
  world_ok nb w -> nodes w !! me = Some n -> mail_ok nb (pk_to pkt) mh data ->
  sockets w !! pk_to pkt = Some q -> carried w !! pk_to pkt = Some l ->
  Send_begin me pkt mh data w = Ok (tt,
    if lost me n then with_node me (sending n) w
    else MkWorld (<[me := sending n]> (nodes w)) (<[pk_to pkt := q ++ [datagram me (pk_to pkt) mh data]]> (sockets w))
           (<[pk_to pkt := l ++ [datagram me (pk_to pkt) mh data]]> (carried w))).
Proof.
  intros Hw Hn [M1 M2 M3 M4 M5] Hq Hl. destruct (wo_nodes _ _ Hw me n Hn) as (q0 & l0 & _ & _ & Hno).
  destruct (no_sizes _ _ _ _ _ Hno) as (_ & _ & Hb & _). pose proof (proj1 (no_ident _ _ _ _ _ Hno)) as Hid.
  unfold Send_begin. rewrite (bind_ok _ _ _ _ _ (node_run me n w Hn)). change MaxMailSize with 40.
  rewrite (proj2 (Z.leb_le (ml_length mh) 40)) by lia. erewrite bind_ok by reflexivity.
  rewrite Hb, (proj2 (Z.leb_le 0 (ml_to mh))), (proj2 (Z.ltb_lt (ml_to mh) _)) by lia. erewrite bind_ok by reflexivity. cbv zeta.
  erewrite bind_ok by (apply lift_ok, slice_ok; lia). rewrite (bind_ok _ _ _ _ _ (change_run me _ n w Hn)).
  rewrite drop_0, u32_id, Hid by (unfold is_u32; lia). unfold Network_Send.
  rewrite (bind_ok _ _ _ _ _ (node_run me _ _ (nodes_with me _ w))). cbn [sendBusy set_semaphores pk_length pk_from pk_to ident].
  rewrite (no_busy _ _ _ _ _ Hno), Hid, Z.eqb_refl. change MaxPacketSize with 52.
  rewrite (proj2 (Z.ltb_lt _ _)), (proj2 (Z.leb_le _ _)) by lia. cbn [negb andb]. erewrite bind_ok by reflexivity.
  unfold Schedule. rewrite (bind_ok _ _ _ _ _ (change_run me _ _ _ (nodes_with me _ w))), with_with.
  rewrite (bind_ok _ _ _ _ _ (change_run me _ _ _ (nodes_with me _ w))), with_with.
  cbn [chanceToWork set_semaphores draws]. fold (lost me n). destruct (lost me n); [done|].
  assert (Hlen : length (mail_bytes mh ++ take (Z.to_nat (ml_length mh)) data) = Z.to_nat (ml_length mh + 12)).
  { rewrite length_app, length_take. unfold mail_bytes. rewrite length_struct. lia. }
  erewrite bind_ok by (apply lift_ok, slice_ok; [lia|lia|rewrite length_pad by (rewrite Hlen; lia); lia]).
  rewrite drop_0. unfold SendToSocket. cbn [sockets with_node carried nodes]. rewrite Hq, Hl. done.
Qed.

Lemma send_keeps nb w me n pkt mh data w' :
  world_ok nb w -> nodes w !! me = Some n -> sendLock n = false -> mail_ok nb (pk_to pkt) mh data ->
  is_Some (sockets w !! pk_to pkt) -> Send_begin me pkt mh data w = Ok (tt, w') -> world_ok nb w'.
Proof.
  intros Hw Hn Hlock Hm [q Hq] Hrun. destruct (wo_sockets _ _ Hw (pk_to pkt) ltac:(by rewrite Hq)) as [n2 Hn2].
  destruct (wo_nodes _ _ Hw _ n2 Hn2) as (q' & l & Hq' & Hl & _).
  rewrite (send_run nb w me n pkt mh data q l Hw Hn Hm Hq Hl) in Hrun. injection Hrun as <-.
  assert (Hsend : forall q l, node_ok nb me n q l -> node_ok nb me (sending n) q l).
  { intros q0 l0 Hno. eapply node_ok_same; [exact Hno|done|apply Hno|done|done|apply Hno|done|done|done|cbn; set_solver by apply Hno|].
    pose proof (no_lock _ _ _ _ _ Hno) as [L1 L2]. cbn. rewrite sends_app. rewrite Hlock in L2.
    change (sends [NetworkSendDone]) with 1. lia. }
  pose proof (world_with_node nb w me n (sending n) Hw Hn Hsend) as Hw1.
  destruct (lost me n); [done|].
  destruct (wo_nodes _ _ Hw me n Hn) as (q1 & l1 & _ & _ & Hno).
  apply (world_carries nb (with_node me (sending n) w) (pk_to pkt) q l _ Hw1 Hq Hl).
  apply (datagram_decode nb me (pk_to pkt) mh data (wo_boxes _ _ Hw) (proj2 (no_ident _ _ _ _ _ Hno)) Hm).
Qed.

(** The end of [Send]. *)
Lemma sent_run nb w me n : world_ok nb w -> nodes w !! me = Some n -> sendLock n = true -> 0 < messageSent n ->
  exists w', Send_end me w = Ok (tt, w') /\ world_ok nb w'.
Proof.
  intros Hw Hn Hlock Hpos. unfold Send_end. rewrite (change_run me _ n w Hn). eexists. split; [done|].
  eapply world_with_node; [done|done|]. intros q l Hno.
  eapply node_ok_same; [exact Hno|done|apply Hno|done|done|apply Hno|done|done|done|apply Hno|].
  pose proof (no_lock _ _ _ _ _ Hno) as [L1 L2]. rewrite Hlock in L2. pose proof (sends_nonneg (scheduled n)). cbn. lia.
Qed.

(** The interrupts. *)
Lemma send_done_run nb w me n i : world_ok nb w -> nodes w !! me = Some n -> scheduled n !! i = Some NetworkSendDone ->
  exists n', do_event (EInterrupt me i) w = Ok (None, with_node me n' w) /\ world_ok nb (with_node me n' w) /\
    messageSent n' = messageSent n + 1.
Proof.
  intros Hw Hn Hi. unfold do_event. rewrite (bind_ok _ _ _ _ _ (node_run me n w Hn)), Hi.
  rewrite (bind_ok _ _ _ _ _ (change_run me _ n w Hn)). unfold SendDone, PacketSent.
  erewrite bind_ok; [|rewrite (bind_ok _ _ _ _ _ (change_run me _ _ _ (nodes_with me _ w))), with_with;
    rewrite (change_run me _ _ _ (nodes_with me _ w)), with_with; reflexivity].
  eexists. split; [done|]. split; [|done]. eapply world_with_node; [done|done|]. intros q l Hno.
  eapply node_ok_same; [exact Hno|done|done|done|done|apply Hno|done|done|done| |].
  - destruct (elem_of_delete_other _ _ _ _ Hi (no_poll _ _ _ _ _ Hno)); done.
  - pose proof (no_lock _ _ _ _ _ Hno) as [L1 L2]. rewrite (sends_delete _ _ _ Hi) in L2.
    change (sends [NetworkSendDone]) with 1 in L2. cbn. lia.
Qed.

(** A poll reads the next datagram when the device is free. *)
Definition polled (i : nat) (n : Node) : Node := set_scheduled (delete i (scheduled n) ++ [NetworkReadPoll]) n.

Lemma polled_ok nb d n i q l : scheduled n !! i = Some NetworkReadPoll -> node_ok nb d n q l -> node_ok nb d (polled i n) q l.
Proof.
  intros Hi Hno. eapply node_ok_same; [exact Hno|done|apply Hno|done|done|apply Hno|done|done|done|cbn; set_solver|].
  pose proof (no_lock _ _ _ _ _ Hno) as [L1 L2]. rewrite (sends_delete _ _ _ Hi) in L2. cbn. rewrite sends_app.
  change (sends [NetworkReadPoll]) with 0 in *. lia.
Qed.

Lemma poll_run nb w me n i q l : world_ok nb w -> nodes w !! me = Some n -> scheduled n !! i = Some NetworkReadPoll ->
  sockets w !! me = Some q -> carried w !! me = Some l ->
  exists n' q', do_event (EInterrupt me i) w = Ok (None, MkWorld (<[me := n']> (nodes w)) (<[me := q']> (sockets w)) (carried w)) /\
    node_ok nb me n' q' l /\ boxes n' = boxes n /\ gone n' = gone n /\
    (pk_length (inHdr n) = 0 -> forall bs rest, q = bs :: rest -> q' = rest /\ pk_length (inHdr n') <> 0).
Proof.
  intros Hw Hn Hi Hq Hl. destruct (wo_nodes _ _ Hw me n Hn) as (q0 & l0 & Hq0 & Hl0 & Hno0).
  assert (q0 = q) as -> by congruence. assert (l0 = l) as -> by congruence. clear Hq0 Hl0.
  pose proof (polled_ok nb me n i q l Hi Hno0) as Hno. set (n1 := polled i n) in *.
  assert (Hgo : do_event (EInterrupt me i) w =
    (_ ← (if negb (pk_length (inHdr n1) =? 0) then mret tt
          else p ← ReadFromSocket me; match p with None => mret tt | Some bs => packet_in me bs end); mret None)
      (with_node me n1 w)).
  { unfold do_event. rewrite (bind_ok _ _ _ _ _ (node_run me n w Hn)), Hi.
    rewrite (bind_ok _ _ _ _ _ (change_run me _ n w Hn)). unfold CheckPktAvail, Schedule. munfold.
    rewrite (change_run me _ _ _ (nodes_with me _ w)), with_with. by rewrite (node_run me _ _ (nodes_with me _ w)). }
  assert (Hstay : with_node me n1 w = MkWorld (<[me := n1]> (nodes w)) (<[me := q]> (sockets w)) (carried w)).
  { unfold with_node. by rewrite (insert_id (sockets w)). }
  rewrite Hgo. clear Hgo. change (inHdr n1) with (inHdr n).
  destruct (Z.eqb_spec (pk_length (inHdr n)) 0) as [Hfree|Hbusy]; cbn [negb].
  2:{ exists n1, q. rewrite Hstay. split; [done|]. split; [done|]. split_and!; [done|done|]. done. }
  unfold ReadFromSocket at 1. destruct q as [|bs q].
  { exists n1, []. split; [|split_and!; done]. munfold. cbn [sockets with_node]. rewrite Hq. f_equal. f_equal. exact Hstay. }
  pose proof (no_log _ _ _ _ _ Hno) as (dl & cur & L1 & L2 & L3 & L4).
  assert (cur = None) as ->.
  { destruct cur as [bs0|]; [|done]. destruct L2 as (Hdg & Hh & _). change (inHdr n1) with (inHdr n) in Hh.
    pose proof (dg_length _ _ _ Hdg). pose proof (dg_fits _ _ _ Hdg). rewrite Hh in Hfree. lia. }
  assert (Hbs : datagram_ok nb me bs).
  { rewrite L1, !Forall_app in L3. destruct L3 as (_ & _ & L3). by apply Forall_cons in L3 as [L3 _]. }
  pose proof (dg_size _ _ _ Hbs) as Hsize. pose proof (dg_length _ _ _ Hbs) as Hlen. pose proof (dg_fits _ _ _ Hbs) as Hfits.
  destruct (no_sizes _ _ _ _ _ Hno) as (S1 & S2 & S3 & S4). pose proof (no_ident _ _ _ _ _ Hno) as [Hid _].
  set (len := pk_length (pkt_of bs)) in *.
  set (box' := ins 0 (take (Z.to_nat len) (drop 12 bs)) (inbox n)).
  set (n2 := set_semaphores (messageAvailable n + 1) (messageSent n) (sendLock n)
    (set_counts (sendBusy n) (numPacketsSent n) (numPacketsRecvd n + 1) (set_in (pkt_of bs) box' n1))).
  assert (Hpl : length (take (Z.to_nat len) (drop 12 bs)) = Z.to_nat len) by (rewrite length_take, length_drop; lia).
  exists n2, q. split; [|split_and!; [|done|done|]].
  - rewrite (bind_ok _ _ _ tt (MkWorld (<[me := n2]> (nodes w)) (<[me := q]> (sockets w)) (carried w))); [done|].
    rewrite (bind_ok _ _ _ (Some bs) (with_node me n1 (MkWorld (nodes w) (<[me := q]> (sockets w)) (carried w)))).
    2:{ cbn [sockets with_node]. rewrite Hq, Hsize. done. }
    unfold packet_in. rewrite (bind_ok _ _ _ _ _ (node_run me _ _ (nodes_with me _ _))). cbv zeta. fold len.
    rewrite (dg_to _ _ _ Hbs), Hid, Z.eqb_refl. change MaxPacketSize with 52. rewrite (proj2 (Z.leb_le _ _)) by lia.
    cbn [andb]. erewrite bind_ok by reflexivity.
    erewrite bind_ok by (apply lift_ok, slice_ok; lia).
    erewrite bind_ok by (apply lift_ok, splice_ok; [lia|]; change (Z.to_nat 12) with 12%nat; rewrite Hpl; change (inbox n1) with (inbox n) in *; lia).
    rewrite (bind_ok _ _ _ _ _ (change_run me _ _ _ (nodes_with me _ _))), with_with.
    rewrite (bind_ok _ _ _ _ _ (change_run me _ _ _ (nodes_with me _ _))), with_with.
    unfold IncomingPacket. rewrite (change_run me _ _ _ (nodes_with me _ _)), with_with. done.
  - split; try apply Hno.
    + cbn. unfold box'. rewrite length_ins; [|rewrite Hpl; change (inbox n1) with (inbox n) in S1; lia].
      change (inbox n1) with (inbox n) in S1. done.
    + exists dl, (Some bs). split; [exact L1|]. split; [|done]. split; [done|]. split; [done|]. split.
      * destruct L2 as [_ L2]. change (messageAvailable n1) with (messageAvailable n) in L2. cbn. lia.
      * cbn. fold len. unfold box', ins. rewrite take_0. cbn [app]. by rewrite take_app_length' by done.
  - intros _ b r [= <- <-]. split; [done|]. change (len <> 0). lia.
Qed.

Lemma for_box_app b l1 l2 : for_box b (l1 ++ l2) = for_box b l1 ++ for_box b l2.
Proof. unfold for_box. by rewrite fmap_app, filter_app. Qed.
Lemma for_box_one b bs : for_box b [bs] = if decide (ml_to (mail_hdr (decode bs)) = Z.of_nat b) then [decode bs] else [].
Proof. unfold for_box. cbn [fmap list_fmap]. rewrite filter_cons. by case_decide. Qed.

Lemma take_drop_prefix {A} (l : list A) a n k : (a + n <= k)%nat -> take n (drop a (take k l)) = take n (drop a l).
Proof. intros. rewrite !take_drop_commute, take_take. by rewrite Nat.min_l by lia. Qed.

(** The delivery thread puts the packet of the device in its box. *)
Lemma deliver_run nb w me n q l : world_ok nb w -> nodes w !! me = Some n -> 0 < messageAvailable n ->
  sockets w !! me = Some q -> carried w !! me = Some l ->
  exists n' bs b x, do_event (EDeliver me) w = Ok (None, with_node me n' w) /\ node_ok nb me n' q l /\
    gone n' = gone n /\ pk_length (inHdr n') = 0 /\ ml_to (mail_hdr (decode bs)) = Z.of_nat b /\
    boxes n !! b = Some x /\ boxes n' = <[b := x ++ [decode bs]]> (boxes n) /\
    exists dl, l = dl ++ [bs] ++ q /\
      forall c g y, gone n !! c = Some g -> boxes n !! c = Some y -> for_box c dl = g ++ y.
Proof.
  intros Hw Hn Havail Hq Hl. destruct (wo_nodes _ _ Hw me n Hn) as (q0 & l0 & Hq0 & Hl0 & Hno).
  assert (q0 = q) as -> by congruence. assert (l0 = l) as -> by congruence. clear Hq0 Hl0.
  pose proof (no_log _ _ _ _ _ Hno) as (dl & cur & L1 & L2 & L3 & L4).
  destruct cur as [bs|]; [|destruct L2; lia]. destruct L2 as (Hdg & Hh & Hav & Htake).
  destruct (no_sizes _ _ _ _ _ Hno) as (S1 & S2 & S3 & S4).
  pose proof (dg_size _ _ _ Hdg) as Hsize. pose proof (dg_length _ _ _ Hdg) as Hlen. pose proof (dg_fits _ _ _ Hdg) as Hfits.
  pose proof (dg_box _ _ _ Hdg) as Hbox. set (mh := mail_of (drop 12 bs)) in *. set (len := pk_length (pkt_of bs)) in *.
  set (buf := ins 0 (take (Z.to_nat len) (inbox n)) (buffer n)).
  assert (Hbuf : exists r, buf = take (Z.to_nat len) (drop 12 bs) ++ r).
  { eexists. unfold buf, ins. rewrite take_0, Htake. reflexivity. }
  assert (Hlt : length (take (Z.to_nat len) (drop 12 bs)) = Z.to_nat len) by (rewrite length_take, length_drop; lia).
  assert (Hlbuf : length buf = 52%nat).
  { unfold buf. rewrite length_ins; [done|]. rewrite length_take. lia. }
  assert (Hmh : mail_of buf = mh).
  { destruct Hbuf as [r ->]. unfold mh, mail_of, word_at.
    assert (Hw4 : forall k, (k <= 2)%nat -> take 4 (drop (4 * k) (take (Z.to_nat len) (drop 12 bs) ++ r)) =
      take 4 (drop (4 * k) (drop 12 bs))).
    { intros k Hk. rewrite drop_app_le by lia. rewrite take_app_le by (rewrite length_drop; lia).
      apply take_drop_prefix. lia. }
    rewrite (Hw4 0%nat), (Hw4 1%nat), (Hw4 2%nat) by lia. done. }
  assert (Hdata : take (Z.to_nat (ml_length mh)) (drop 12 buf) = take (Z.to_nat (ml_length mh)) (drop 24 bs)).
  { destruct Hbuf as [r ->]. rewrite drop_app_le by lia. rewrite take_app_le by (rewrite length_drop; lia).
    replace (drop 24 bs) with (drop 12 (drop 12 bs)) by (by rewrite drop_drop).
    apply take_drop_prefix. lia. }
  set (b := Z.to_nat (ml_to mh)). destruct (lookup_lt_is_Some_2 (boxes n) b) as [x Hx]; [lia|].
  assert (Hdec : MkMail (pkt_of bs) mh (take (Z.to_nat (ml_length mh)) (drop 12 buf)) = decode bs) by (unfold decode; fold mh; by rewrite Hdata).
  set (n' := set_boxes (<[b := x ++ [decode bs]]> (boxes n)) (gone n) (set_buffer buf
    (set_in (MkPkt (pk_to (inHdr n)) (pk_from (inHdr n)) 0) (inbox n) (set_semaphores (messageAvailable n - 1) (messageSent n) (sendLock n) n)))).
  assert (Hb : ml_to (mail_hdr (decode bs)) = Z.of_nat b) by (change (ml_to mh = Z.of_nat b); unfold b; lia).
  exists n', bs, b, x. split; [|split_and!; try done; [|by exists dl]].
  - unfold do_event. rewrite (bind_ok _ _ _ tt (with_node me n' w)); [done|]. unfold PostalDelivery.
    rewrite (bind_ok _ _ _ _ _ (change_run me _ n w Hn)). rewrite (bind_ok _ _ _ _ _ (node_run me _ _ (nodes_with me _ w))).
    set (n1 := set_semaphores _ _ _ n).
    rewrite (bind_ok _ _ _ (pkt_of bs, buf) (with_node me (set_in (MkPkt (pk_to (inHdr n)) (pk_from (inHdr n)) 0) (inbox n) n1) w)).
    2:{ unfold Network_Receive. rewrite (bind_ok _ _ _ _ _ (node_run me _ _ (nodes_with me _ w))). cbv zeta.
        rewrite (bind_ok _ _ _ _ _ (change_run me _ _ _ (nodes_with me _ w))), with_with.
        change (inHdr n1) with (inHdr n). change (inbox n1) with (inbox n). rewrite Hh. fold len.
        rewrite (proj2 (Z.eqb_neq len 0)) by lia. cbn [negb].
        erewrite bind_ok by (apply lift_ok, slice_ok; lia). rewrite drop_0.
        erewrite bind_ok by (apply lift_ok, splice_ok; [lia|]; change (buffer n1) with (buffer n); rewrite length_take; lia). done. }
    cbv beta iota. rewrite (bind_ok _ _ _ _ _ (change_run me _ _ _ (nodes_with me _ w))), with_with. cbv zeta. rewrite Hmh.
    change (length (boxes n1)) with (length (boxes n)). rewrite S3, (proj2 (Z.leb_le 0 (ml_to mh))), (proj2 (Z.ltb_lt (ml_to mh) _)) by lia.
    erewrite bind_ok by reflexivity. change MaxMailSize with 40. rewrite (proj2 (Z.leb_le (ml_length mh) 40)) by lia.
    erewrite bind_ok by reflexivity. unfold Put, new_Mail. change MaxMailSize with 40.
    rewrite (bind_ok _ _ _ (decode bs) (with_node me (set_buffer buf (set_in (MkPkt (pk_to (inHdr n)) (pk_from (inHdr n)) 0) (inbox n) n1)) w)).
    2:{ rewrite (proj2 (Z.leb_le (ml_length mh) 40)) by lia. erewrite bind_ok by reflexivity.
        erewrite bind_ok by (apply lift_ok, slice_ok; [lia|lia|rewrite length_drop; lia]). rewrite drop_0, Hdec. done. }
    rewrite (bind_ok _ _ _ _ _ (node_run me _ _ (nodes_with me _ w))).
    erewrite bind_ok by (apply lift_ok, aget_Some; split; [lia|exact Hx]).
    erewrite bind_ok by (apply lift_ok, aset_ok; change (0 <= ml_to mh < Z.of_nat (length (boxes n))); lia).
    rewrite (change_run me _ _ _ (nodes_with me _ w)), with_with. done.
  - split; try apply Hno; [by split_and!; cbn; rewrite ?length_insert|].
    exists (dl ++ [bs]), None. split; [by rewrite L1, <- app_assoc|]. split; [split; [done|cbn; lia]|]. split; [done|].
    intros c g y Hg Hy. cbn in Hg, Hy. rewrite for_box_app, for_box_one. destruct (decide (c = b)) as [->|Hne].
    + rewrite list_lookup_insert_eq in Hy by lia. injection Hy as <-. rewrite decide_True by done.
      by rewrite (L4 b g x Hg Hx), app_assoc.
    + rewrite list_lookup_insert_ne in Hy by done. rewrite decide_False by lia. by rewrite app_nil_r, (L4 c g y Hg Hy).
Qed.

Lemma receive_run nb w me n b m rest : world_ok nb w -> nodes w !! me = Some n -> boxes n !! b = Some (m :: rest) ->
  exists g n', gone n !! b = Some g /\ do_event (EReceive me (Z.of_nat b)) w = Ok (Some m, with_node me n' w) /\
    boxes n' = <[b := rest]> (boxes n) /\ gone n' = <[b := g ++ [m]]> (gone n) /\ world_ok nb (with_node me n' w).
Proof.
  intros Hw Hn Hb. destruct (wo_nodes _ _ Hw me n Hn) as (q & l & _ & _ & Hno).
  destruct (no_sizes _ _ _ _ _ Hno) as (S1 & S2 & S3 & S4). pose proof (lookup_lt_Some _ _ _ Hb) as Hlt.
  destruct (lookup_lt_is_Some_2 (gone n) b) as [g Hg]; [lia|].
  pose proof (no_log _ _ _ _ _ Hno) as (dl & cur & L1 & L2 & L3 & L4).
  assert (Hfit : ml_length (mail_hdr m) <= 40).
  { assert (Hin : m ∈ for_box b dl) by (rewrite (L4 b g _ Hg Hb); apply elem_of_app; right; left).
    unfold for_box in Hin. apply list_elem_of_filter in Hin as [_ (bs & -> & Hbs)%list_elem_of_fmap].
    rewrite L1 in L3. apply Forall_app in L3 as [L3 _]. rewrite Forall_forall in L3.
    apply (dg_fits _ _ _ (L3 bs Hbs)). }
  exists g, (set_boxes (<[b := rest]> (boxes n)) (<[b := g ++ [m]]> (gone n)) n). split_and!; try done.
  - unfold do_event, Receive, Get.
    rewrite (bind_ok _ _ _ m (with_node me (set_boxes (<[b := rest]> (boxes n)) (<[b := g ++ [m]]> (gone n)) n) w)); [done|].
    rewrite (bind_ok _ _ _ _ _ (node_run me n w Hn)). rewrite (proj2 (Z.leb_le 0 (Z.of_nat b))), (proj2 (Z.ltb_lt (Z.of_nat b) _)) by lia.
    erewrite bind_ok by reflexivity.
    erewrite bind_ok.
    2:{ rewrite (bind_ok _ _ _ _ _ (node_run me n w Hn)).
        erewrite bind_ok by (apply lift_ok, aget_Some; split; [lia|rewrite Nat2Z.id; exact Hb]). cbv beta iota.
        erewrite bind_ok by (apply lift_ok, aset_ok; lia).
        erewrite bind_ok by (apply lift_ok, aget_Some; split; [lia|rewrite Nat2Z.id; exact Hg]).
        erewrite bind_ok by (apply lift_ok, aset_ok; lia). rewrite !Nat2Z.id.
        rewrite (bind_ok _ _ _ _ _ (change_run me _ n w Hn)). reflexivity. }
    change MaxMailSize with 40. rewrite (proj2 (Z.leb_le _ 40)) by lia. done.
  - eapply world_with_node; [done|done|]. intros q' l' Hno'. split; try apply Hno'; [by split_and!; cbn; rewrite ?length_insert|].
    destruct (no_log _ _ _ _ _ Hno') as (dl' & cur' & K1 & K2 & K3 & K4). exists dl', cur'. split_and!; try done.
    intros c h y Hh Hy. cbn in Hh, Hy. destruct (decide (c = b)) as [->|Hne].
    + rewrite list_lookup_insert_eq in Hh, Hy by lia. injection Hh as <-. injection Hy as <-.
      by rewrite (K4 b g _ Hg Hb), <- app_assoc.
    + rewrite list_lookup_insert_ne in Hh, Hy by done. by apply K4.
Qed.

(** ** Runs *)

(** The machines [addresses] just started. *)
Definition start_world (nb : nat) (reliability : Q) (addresses : list Z) : World :=
  MkWorld (list_to_map ((fun a => (a, new_node a reliability nb)) <$> addresses))
    (list_to_map ((fun a => (a, [])) <$> addresses)) (list_to_map ((fun a => (a, [])) <$> addresses)).

(** Callers of [Send] name a machine that runs, and pass a message that fits. *)
Definition client_ok (nb : nat) (e : event) (w : World) : Prop :=
  match e with
  | ESend _ pkt mh data => mail_ok nb (pk_to pkt) mh data /\ is_Some (sockets w !! pk_to pkt)
  | _ => True
  end.

Inductive reachable (nb : nat) (reliability : Q) (addresses : list Z) : World -> Prop :=
| reach_start : reachable nb reliability addresses (start_world nb reliability addresses)
| reach_event e w r w' : reachable nb reliability addresses w -> ready e w = true -> client_ok nb e w ->
    do_event e w = Ok (r, w') -> reachable nb reliability addresses w'.

Lemma start_ok nb reliability addresses : Z.of_nat nb < 2 ^ 31 -> Forall is_i32 addresses ->
  world_ok nb (start_world nb reliability addresses).
Proof.
  intros Hnb Ha. split; [done| |].
  - intros d n. unfold start_world. cbn [nodes sockets carried]. rewrite (map_of_const (fun a => new_node a reliability nb)).
    destruct (decide (d ∈ addresses)) as [Hd|]; [|done]. intros [= <-]. exists [], [].
    rewrite !(map_of_const (fun _ => [])), !decide_True by done. split; [done|]. split; [done|].
    rewrite Forall_forall in Ha. split; cbn.
    + split; [done|by apply Ha].
    + done.
    + split_and!; [done|done|by rewrite length_replicate..].
    + by left.
    + done.
    + exists [], None. split_and!; try done. intros b g x Hg Hx. apply lookup_replicate in Hg as [-> _].
      apply lookup_replicate in Hx as [-> _]. done.
  - intros d. unfold start_world. cbn [nodes sockets]. rewrite (map_of_const (fun _ => [])), (map_of_const (fun a => new_node a reliability nb)).
    destruct (decide _); [intros _; by eexists|done].
Qed.

Lemma network_event_keeps nb e w : world_ok nb w -> ready e w = true -> client_ok nb e w ->
  exists r w', do_event e w = Ok (r, w') /\ world_ok nb w'.
Proof.
  intros Hw Hr Hc. destruct e as [me pkt mh data|me|me i|me|me box]; cbn [ready client_ok] in Hr, Hc;
    (destruct (nodes w !! me) as [n|] eqn:Hn; [|done]).
  - destruct Hc as [Hm Hs]. apply negb_true_iff in Hr. pose proof Hs as [q Hq].
    destruct (wo_sockets _ _ Hw (pk_to pkt) Hs) as [n2 Hn2]. destruct (wo_nodes _ _ Hw _ n2 Hn2) as (q' & l & Hq' & Hl & _).
    pose proof (send_run nb w me n pkt mh data q l Hw Hn Hm Hq Hl) as Hrun.
    eexists None, _. split; [unfold do_event; rewrite (bind_ok _ _ _ _ _ Hrun); reflexivity|].
    exact (send_keeps nb w me n pkt mh data _ Hw Hn Hr Hm Hs Hrun).
  - apply andb_true_iff in Hr as [Hl Hp%Z.ltb_lt]. destruct (sent_run nb w me n Hw Hn Hl Hp) as (w' & Hrun & Hw').
    exists None, w'. split; [|done]. unfold do_event. by rewrite (bind_ok _ _ _ _ _ Hrun).
  - apply Nat.ltb_lt in Hr. destruct (lookup_lt_is_Some_2 _ _ Hr) as [[] Hi].
    + destruct (wo_nodes _ _ Hw me n Hn) as (q & l & Hq & Hl & _).
      destruct (poll_run nb w me n i q l Hw Hn Hi Hq Hl) as (n' & q' & Hrun & Hok & _).
      eexists None, _. split; [exact Hrun|]. by eapply world_with.
    + destruct (send_done_run nb w me n i Hw Hn Hi) as (n' & Hrun & Hw' & _). by eexists None, _.
  - apply Z.ltb_lt in Hr. destruct (wo_nodes _ _ Hw me n Hn) as (q & l & Hq & Hl & _).
    destruct (deliver_run nb w me n q l Hw Hn Hr Hq Hl) as (n' & _ & _ & _ & Hrun & Hok & _).
    eexists None, _. split; [exact Hrun|]. pose proof (world_with nb w me n n' q l q Hw Hn Hq Hl Hok) as H.
    by rewrite (insert_id (sockets w)) in H.
  - destruct (boxes n !! Z.to_nat box) as [[|m rest]|] eqn:Hb; try done. apply Z.leb_le in Hr.
    destruct (receive_run nb w me n _ m rest Hw Hn Hb) as (g & n' & _ & Hrun & _ & _ & Hw').
    rewrite Z2Nat.id in Hrun by done. by eexists _, _.
Qed.

Lemma reachable_ok nb reliability addresses w : Z.of_nat nb < 2 ^ 31 -> Forall is_i32 addresses ->
  reachable nb reliability addresses w -> world_ok nb w.
Proof.
  intros Hnb Ha. induction 1 as [|e w r w' _ IH Hr Hc Hrun]; [by apply start_ok|].
  destruct (network_event_keeps nb e w IH Hr Hc) as (r' & w'' & Hrun' & Hw'). congruence.
Qed.

(** Events one after the other, each of which is ready. *)
Fixpoint play (es : list event) (w : World) : option World :=
  match es with
  | [] => Some w
  | e :: es => if ready e w then match do_event e w with Ok (_, w') => play es w' | Stop _ => None end else None
  end.

Lemma play_app es1 es2 w w1 : play es1 w = Some w1 -> play (es1 ++ es2) w = play es2 w1.
Proof.
  revert w. induction es1 as [|e es1 IH]; intros w; cbn; [by intros [= ->]|]. destruct (ready e w); [|done].
  destruct (do_event e w) as [[r w']|]; [|done]. apply IH.
Qed.

(** The interrupts and the delivery thread of [me]. *)
Definition own (me : Z) (e : event) : Prop :=
  match e with EInterrupt d _ | EDeliver d => d = me | _ => False end.

(** The delivery of what the device holds. *)
Lemma play_deliver nb w me n q l : world_ok nb w -> nodes w !! me = Some n -> sockets w !! me = Some q ->
  carried w !! me = Some l -> exists es n' w', Forall (own me) es /\ play es w = Some w' /\ world_ok nb w' /\ nodes w' !! me = Some n' /\
    sockets w' !! me = Some q /\ carried w' = carried w /\ gone n' = gone n /\ pk_length (inHdr n') = 0.
Proof.
  intros Hw Hn Hq Hl. destruct (wo_nodes _ _ Hw me n Hn) as (q0 & l0 & Hq0 & Hl0 & Hno).
  destruct (no_log _ _ _ _ _ Hno) as (dl & [bs|] & L1 & L2 & _).
  - destruct L2 as (_ & _ & Hav & _). destruct (deliver_run nb w me n q l Hw Hn ltac:(lia) Hq Hl)
      as (n' & _ & _ & _ & Hrun & Hok & Hg & Hfree & _).
    exists [EDeliver me], n', (with_node me n' w). cbn [play ready]. rewrite Hn, Hav, Hrun. cbn [play].
    split; [by repeat constructor|]. split; [done|]. split; [|split_and!; try done; apply nodes_with].
    pose proof (world_with nb w me n n' q l q Hw Hn Hq Hl Hok) as H. by rewrite (insert_id (sockets w)) in H.
  - destruct L2 as [L2 _]. exists [], n, w. split; [by constructor|done].
Qed.

Lemma play_drain nb me q l : forall w n, world_ok nb w -> nodes w !! me = Some n -> sockets w !! me = Some q ->
  carried w !! me = Some l -> pk_length (inHdr n) = 0 ->
  exists es n' w', Forall (own me) es /\ play es w = Some w' /\ world_ok nb w' /\ nodes w' !! me = Some n' /\
    sockets w' !! me = Some [] /\ carried w' !! me = Some l /\ gone n' = gone n /\ pk_length (inHdr n') = 0.
Proof.
  induction q as [|bs q IH]; intros w n Hw Hn Hq Hl Hfree; [exists [], n, w; split; [by constructor|done]|].
  destruct (wo_nodes _ _ Hw me n Hn) as (q0 & l0 & Hq0 & Hl0 & Hno).
  destruct (proj1 (list_elem_of_lookup _ _) (no_poll _ _ _ _ _ Hno)) as [i Hi].
  destruct (poll_run nb w me n i _ l Hw Hn Hi Hq Hl) as (n1 & q1 & Hrun & Hok & _ & Hg & Hnext).
  destruct (Hnext Hfree bs q eq_refl) as [-> Hbusy]. set (w1 := MkWorld _ _ _) in Hrun.
  assert (Hw1 : world_ok nb w1) by exact (world_with nb w me n n1 _ l q Hw Hn Hq Hl Hok).
  destruct (play_deliver nb w1 me n1 q l Hw1) as (es & n2 & w2 & Hown & Hplay & Hw2 & Hn2 & Hq2 & Hl2 & Hg2 & Hf2);
    [apply lookup_insert_eq|apply lookup_insert_eq|done|].
  destruct (IH w2 n2 Hw2 Hn2 Hq2) as (es' & n3 & w3 & Hown3 & Hplay3 & Hrest); [by rewrite Hl2|done|].
  exists (EInterrupt me i :: es ++ es'), n3, w3. split; [constructor; [done|by apply Forall_app]|]. cbn [play ready]. rewrite Hn.
  rewrite (proj2 (Nat.ltb_lt _ _)) by (by eapply lookup_lt_Some). rewrite Hrun, (play_app _ _ _ _ Hplay), Hplay3.
  split; [done|]. rewrite <- Hg, <- Hg2. done.
Qed.

(** The mail on the wire for a box, in order. *)
Lemma mail_log nb w me n b g x l : world_ok nb w -> nodes w !! me = Some n -> gone n !! b = Some g -> boxes n !! b = Some x ->
  carried w !! me = Some l -> exists rest, for_box b l = g ++ x ++ rest.
Proof.
  intros Hw Hn Hg Hx Hl. destruct (wo_nodes _ _ Hw me n Hn) as (q & l' & Hq & Hl' & Hno).
  assert (l' = l) as -> by congruence. destruct (no_log _ _ _ _ _ Hno) as (dl & cur & -> & _ & _ & L4).
  exists (for_box b (option_list cur ++ q)). by rewrite for_box_app, (L4 b g x Hg Hx), app_assoc.
Qed.

(** The interrupts and the delivery thread of a machine bring its mail to the boxes. *)
Lemma mail_drains nb w me n l : world_ok nb w -> nodes w !! me = Some n -> carried w !! me = Some l ->
  exists es n' w', Forall (own me) es /\ play es w = Some w' /\ world_ok nb w' /\ nodes w' !! me = Some n' /\
    carried w' !! me = Some l /\ gone n' = gone n /\
    forall b g x, gone n' !! b = Some g -> boxes n' !! b = Some x -> for_box b l = g ++ x.
Proof.
  intros Hw Hn Hl.
  destruct (wo_nodes _ _ Hw me n Hn) as (q & l' & Hq & Hl' & _). assert (l' = l) as -> by congruence.
  destruct (play_deliver nb w me n q l Hw Hn Hq Hl) as (es & n1 & w1 & Ho1 & Hp1 & Hw1 & Hn1 & Hq1 & Hl1 & Hg1 & Hf1).
  destruct (play_drain nb me q l w1 n1 Hw1 Hn1 Hq1 ltac:(by rewrite Hl1) Hf1)
    as (es' & n2 & w2 & Ho2 & Hp2 & Hw2 & Hn2 & Hq2 & Hl2 & Hg2 & Hf2).
  exists (es ++ es'), n2, w2. split; [by apply Forall_app|]. split; [by rewrite (play_app _ _ _ _ Hp1)|]. split_and!; [done|done|done|congruence|].
  intros b g x Hg Hx. destruct (wo_nodes _ _ Hw2 me n2 Hn2) as (q' & l2 & Hq' & Hl2' & Hno).
  assert (q' = []) as -> by congruence. assert (l2 = l) as -> by congruence.
  destruct (no_log _ _ _ _ _ Hno) as (dl & cur & L1 & L2 & _ & L4).
  destruct cur as [bs|].
  - destruct L2 as (Hdg & Hh & _). pose proof (dg_length _ _ _ Hdg). pose proof (dg_fits _ _ _ Hdg). rewrite Hh in Hf2. lia.
  - rewrite L1. cbn [option_list app]. rewrite app_nil_r. by apply L4.
Qed.

(** ** Properties *)

(** C4. The post offices of any number of machines, under every interleaving of
    their events, when callers of [Send] pass messages that fit to machines that
    run: no assertion of the network or the post office ever fails; a [Send] puts its
    mail on the wire, with the sender filled in and header and data unchanged,
    unless the simulated network loses it, which it never does at reliability 1;
    the mail on the wire for a box is, in order, the mail received from it, the mail
    in it, and mail that is still to come; [Receive] returns the first of the box. *)
Theorem mail_arrives_in_order nb reliability addresses w :
  Z.of_nat nb < 2 ^ 31 -> Forall is_i32 addresses -> reachable nb reliability addresses w ->
  (forall e, ready e w = true -> client_ok nb e w -> exists r w', do_event e w = Ok (r, w')) /\
  (forall me n pkt mh data q l, nodes w !! me = Some n -> mail_ok nb (pk_to pkt) mh data ->
     sockets w !! pk_to pkt = Some q -> carried w !! pk_to pkt = Some l ->
     exists w', do_event (ESend me pkt mh data) w = Ok (None, w') /\
       carried w' !! pk_to pkt = Some (if lost me n then l else l ++ [datagram me (pk_to pkt) mh data]) /\
       decode (datagram me (pk_to pkt) mh data) =
         MkMail (MkPkt (pk_to pkt) me (ml_length mh + 12)) mh (take (Z.to_nat (ml_length mh)) data) /\
       (chanceToWork n = 1%Q -> lost me n = false)) /\
  (forall me n b g x l, nodes w !! me = Some n -> gone n !! b = Some g -> boxes n !! b = Some x ->
     carried w !! me = Some l -> exists rest, for_box b l = g ++ x ++ rest) /\
  (forall me n b m rest, nodes w !! me = Some n -> boxes n !! b = Some (m :: rest) ->
     exists g n' w', gone n !! b = Some g /\ do_event (EReceive me (Z.of_nat b)) w = Ok (Some m, w') /\
       nodes w' !! me = Some n' /\ gone n' = <[b := g ++ [m]]> (gone n) /\ boxes n' = <[b := rest]> (boxes n)).
Proof.
  intros Hnb Ha Hreach. pose proof (reachable_ok _ _ _ _ Hnb Ha Hreach) as Hw. split_and!.
  - intros e Hr Hc. destruct (network_event_keeps nb e w Hw Hr Hc) as (r & w' & Hrun & _). by exists r, w'.
  - intros me n pkt mh data q l Hn Hm Hq Hl. pose proof (send_run nb w me n pkt mh data q l Hw Hn Hm Hq Hl) as Hrun.
    destruct (wo_nodes _ _ Hw me n Hn) as (q0 & l0 & _ & _ & Hno).
    destruct (datagram_decode nb me (pk_to pkt) mh data Hnb (proj2 (no_ident _ _ _ _ _ Hno)) Hm) as [_ Hdec].
    eexists. split; [unfold do_event; rewrite (bind_ok _ _ _ _ _ Hrun); reflexivity|]. split_and!; [|exact Hdec|].
    + destruct (lost me n); [exact Hl|apply lookup_insert_eq].
    + apply never_lost.
  - intros me n b g x l Hn Hg Hx Hl. by eapply mail_log.
  - intros me n b m rest Hn Hb. destruct (receive_run nb w me n b m rest Hw Hn Hb) as (g & n' & Hg & Hrun & Hb' & Hg' & _).
    exists g, n', (with_node me n' w). split_and!; try done. apply nodes_with.
Qed.

(** C31. Nothing on the wire is stuck: from every reachable state the interrupts of
    a machine and its delivery thread alone can go on, without waiting for anything
    else, until all the mail ever put on the wire for the machine has been received
    or is in its box. *)
Theorem mail_can_be_received nb reliability addresses w me n l :
  Z.of_nat nb < 2 ^ 31 -> Forall is_i32 addresses -> reachable nb reliability addresses w ->
  nodes w !! me = Some n -> carried w !! me = Some l ->
  exists es n' w', Forall (own me) es /\ play es w = Some w' /\ nodes w' !! me = Some n' /\ carried w' !! me = Some l /\ gone n' = gone n /\
    forall b g x, gone n' !! b = Some g -> boxes n' !! b = Some x -> for_box b l = g ++ x.
Proof.
  intros Hnb Ha Hreach Hn Hl. pose proof (reachable_ok _ _ _ _ Hnb Ha Hreach) as Hw.
  destruct (mail_drains nb w me n l Hw Hn Hl) as (es & n' & w' & H1 & H2 & _ & H3 & H4 & H5 & H6). exists es, n', w'. by split_and!.
Qed.
End Network.

(** ** Witnesses

    Machines 0 and 1 on a reliable network; 0 sends two bytes to box 3 of 1. *)
Definition demo_draw : Z -> nat -> Z := fun _ k => Z.of_nat k.
Definition demo_junk : nat -> Z := fun _ => 0.
Definition demo_world : World := start_world demo_junk 10 1%Q [0; 1].
Definition demo_send : event := ESend 0 (MkPkt 1 0 0) (MkMailHdr 3 5 2) [72; 105].
Definition demo_sent : World :=
  match do_event demo_draw demo_junk demo_send demo_world with Ok (_, w) => w | Stop _ => demo_world end.

Lemma demo_mail_ok : mail_ok 10 1 (MkMailHdr 3 5 2) [72; 105].
Proof. split; cbn; unfold is_i32; lia. Qed.
Lemma demo_addresses : Forall is_i32 [0; 1].
Proof. repeat constructor; unfold is_i32; lia. Qed.

Lemma demo_sent_reachable : reachable demo_draw demo_junk 10 1%Q [0; 1] demo_sent.
Proof.
  apply (reach_event _ _ _ _ _ demo_send demo_world None).
  - apply reach_start.
  - vm_compute. reflexivity.
  - split; [exact demo_mail_ok|]. exists []. vm_compute. reflexivity.
  - vm_compute. reflexivity.
Qed.

Lemma mail_arrives_in_order_witness :
  exists w', do_event demo_draw demo_junk demo_send demo_world = Ok (None, w') /\
    carried w' !! 1 = Some [datagram demo_junk 0 1 (MkMailHdr 3 5 2) [72; 105]].
Proof.
  destruct (mail_arrives_in_order demo_draw demo_junk 10 1%Q [0; 1] demo_world ltac:(lia) demo_addresses
    (reach_start _ _ _ _ _)) as (_ & Hsend & _).
  destruct (Hsend 0 (new_node demo_junk 0 1%Q 10) (MkPkt 1 0 0) (MkMailHdr 3 5 2) [72; 105] [] [])
    as (w' & Hrun & Hc & _ & Hnot).
  - vm_compute. reflexivity.
  - exact demo_mail_ok.
  - vm_compute. reflexivity.
  - vm_compute. reflexivity.
  - exists w'. split; [exact Hrun|]. rewrite (Hnot ltac:(vm_compute; reflexivity)) in Hc. exact Hc.
Defined.

Lemma mail_can_be_received_witness :
  exists es n' w', play demo_draw demo_junk es demo_sent = Some w' /\ nodes w' !! 1 = Some n' /\
    forall x, boxes n' !! 3%nat = Some x -> x = [MkMail (MkPkt 1 0 14) (MkMailHdr 3 5 2) [72; 105]].
Proof.
  destruct (mail_can_be_received demo_draw demo_junk 10 1%Q [0; 1] demo_sent 1 (new_node demo_junk 1 1%Q 10)
    [datagram demo_junk 0 1 (MkMailHdr 3 5 2) [72; 105]] ltac:(lia) demo_addresses demo_sent_reachable)
    as (es & n' & w' & _ & Hplay & Hn & _ & Hgone & Hbox).
  - vm_compute. reflexivity.
  - vm_compute. reflexivity.
  - exists es, n', w'. split; [exact Hplay|]. split; [exact Hn|]. intros x Hx.
    specialize (Hbox 3%nat [] x ltac:(rewrite Hgone; reflexivity) Hx). cbn [app] in Hbox. rewrite <- Hbox. vm_compute. reflexivity.
Defined.
