(* ===== verification/NetTest.v ===== *)
(** * [network/nettest.cc]: two machines that exchange mail

    [MailTest] on two machines, each with the other as [farAddr], over the network and
    the post offices of [Network.v].  A step is a step of the test's thread on one of the
    machines, up to the next point where it may wait, or an interrupt or a round of the
    delivery thread of a machine that has not halted; any order of steps is a run. *)

From Stdlib Require Import QArith.QArith.
From S2P Require Import Prelude Network.
Open Scope Z_scope.

(** ["Hello there!"] and ["Got it!"], with their terminating 0. *)
Definition data : list Z := [72; 101; 108; 108; 111; 32; 116; 104; 101; 114; 101; 33; 0].
Definition ack : list Z := [71; 111; 116; 32; 105; 116; 33; 0].

(** Where the test is: before the first [Send], in it, before the first [Receive], before
    the second [Send] (with what was received), in it, before the second [Receive], and
    after [Halt]. *)
Inductive place : Type := Send1 | Sent1 | Recv0 | SendAck (m : Mail) | Sent2 | Recv1 | Halted.

(** What [printf] prints: the string in [buffer], [inPktHdr.from] and [inMailHdr.from]. *)
Record line : Type := Got { got_text : list Z; got_from : Z; got_box : Z }.
Fixpoint c_string (bs : list Z) : list Z := match bs with [] => [] | c :: bs => if c =? 0 then [] else c :: c_string bs end.
Definition line_of (m : Mail) : line := Got (c_string (mail_data m)) (pk_from (mail_pkt m)) (ml_from (mail_hdr m)).

(** Both machines: the network, and the place and the output of the test on each. *)
Record Test : Type := MkTest { world : World; places : gmap Z place; printed : gmap Z (list line) }.

Section MailTest.
(** [junk]: what the uninitialised fields of [outPktHdr] hold, and new buffers. *)
Context (Random : Z -> nat -> Z) (junk : nat -> Z).

(** The call of the post office a test makes at a place. *)
Definition out_pkt (to : Z) : PacketHeader := MkPkt to (junk 0) (junk 1).
Definition hello_hdr : MailHeader := MkMailHdr 0 1 (Z.of_nat (length data)).
Definition ack_hdr (box : Z) : MailHeader := MkMailHdr box 1 (Z.of_nat (length ack)).
Definition call (me farAddr : Z) (p : place) : option event :=
  match p with
  | Send1 => Some (ESend me (out_pkt farAddr) hello_hdr data)
  | Sent1 | Sent2 => Some (ESent me)
  | Recv0 => Some (EReceive me 0)
  | SendAck m => Some (ESend me (out_pkt (pk_from (mail_pkt m))) (ack_hdr (ml_from (mail_hdr m))) ack)
  | Recv1 => Some (EReceive me 1)
  | Halted => None
  end.
(** What it does with the result, and what it prints. *)
Definition resume (p : place) (r : option Mail) : place * list line :=
  match p, r with
  | Send1, _ => (Sent1, [])
  | Sent1, _ => (Recv0, [])
  | Recv0, Some m => (SendAck m, [line_of m])
  | SendAck _, _ => (Sent2, [])
  | Sent2, _ => (Recv1, [])
  | Recv1, Some m => (Halted, [line_of m])
  | _, _ => (p, [])
  end.

Definition MailTest (me farAddr : Z) (s : Test) : option (res Test) :=
  match places s !! me, printed s !! me with
  | Some p, Some out =>
      match call me farAddr p with
      | Some e =>
          if ready e (world s) then
            Some match do_event Random junk e (world s) with
                 | Ok (r, w) => let '(p', l) := resume p r in Ok (MkTest w (<[me := p']> (places s)) (<[me := out ++ l]> (printed s)))
                 | Stop x => Stop x
                 end
          else None
      | None => None
      end
  | _, _ => None
  end.

(** The two machines; [far] is the other one. *)
Context (a b : Z) (Hab : a <> b).
Definition far (me : Z) : Z := if me =? a then b else a.

Inductive mt_step (s : Test) : Test -> Prop :=
| mt_thread me s' : me = a \/ me = b -> MailTest me (far me) s = Some (Ok s') -> mt_step s s'
| mt_device me e r w : me = a \/ me = b -> own me e -> places s !! me <> Some Halted -> ready e (world s) = true ->
    do_event Random junk e (world s) = Ok (r, w) -> mt_step s (MkTest w (places s) (printed s)).

Definition mt_start (nb : nat) : Test :=
  MkTest (start_world junk nb 1%Q [a; b]) {[a := Send1; b := Send1]} {[a := []; b := []]}.

Inductive mt_run (s0 : Test) : Test -> Prop :=
| mt_none : mt_run s0 s0
| mt_more s s' : mt_run s0 s -> mt_step s s' -> mt_run s0 s'.

Lemma mt_trans s0 s s' : mt_run s0 s -> mt_run s s' -> mt_run s0 s'.
Proof. intros H H'. induction H'; [done|]. by eapply mt_more. Qed.

(** ** What an event leaves alone *)

(** A part [f] of every machine, and the datagrams carried. *)
Definition core {T : Type} (f : Node -> T) (w : World) : gmap Z T * gmap Z (list (list Z)) := (f <$> nodes w, carried w).
Definition keeps {T A : Type} (f : Node -> T) (m : M World A) : Prop := forall w x w', m w = Ok (x, w') -> core f w' = core f w.

Lemma nt_keeps_bind {T A B} (f : Node -> T) (m : M World A) (g : A -> M World B) :
  keeps f m -> (forall x, keeps f (g x)) -> keeps f (m ≫= g).
Proof. intros Hm Hg w y w' (x & w1 & H1 & H2)%bind_inv. rewrite (Hg x _ _ _ H2). by eapply Hm. Qed.
Lemma nt_keeps_pure {T A} (f : Node -> T) (m : M World A) : (forall w x w', m w = Ok (x, w') -> w' = w) -> keeps f m.
Proof. intros H w x w' Hr. by rewrite (H _ _ _ Hr). Qed.
Lemma nt_keeps_node {T} (f : Node -> T) me : keeps f (node me).
Proof. apply nt_keeps_pure. intros w x w' H. unfold node in H. destruct (nodes w !! me); naive_solver. Qed.
Lemma nt_keeps_lift {T A} (f : Node -> T) (r : res A) : keeps f (lift r).
Proof. apply nt_keeps_pure. intros w x w' H. unfold lift in H. destruct r; naive_solver. Qed.
Lemma nt_keeps_assert {T} (f : Node -> T) c : keeps f (ASSERT c).
Proof. apply nt_keeps_pure. intros w x w' H. destruct c; [by injection H|done]. Qed.
Lemma nt_keeps_ret {T A} (f : Node -> T) (x : A) : keeps f (mret x).
Proof. apply nt_keeps_pure. intros w y w' H. by injection H. Qed.
Lemma nt_keeps_halt {T A} (f : Node -> T) x : keeps f (halt x : M World A).
Proof. by intros w y w' H. Qed.
Lemma nt_keeps_change {T} (f : Node -> T) me g : (forall n, f (g n) = f n) -> keeps f (change me g).
Proof.
  intros Hg w x w' H. unfold change in H. apply bind_inv in H as (n & w1 & H1 & H2). unfold node in H1.
  destruct (nodes w !! me) as [n'|] eqn:Hn; [|done]. injection H1 as <- <-. injection H2 as _ <-. unfold core. cbn. f_equal.
  rewrite fmap_insert, Hg, <- (fmap_insert f), insert_id by done. done.
Qed.
Lemma nt_keeps_read {T} (f : Node -> T) me : keeps f (ReadFromSocket me).
Proof. intros w x w' H. unfold ReadFromSocket in H. repeat case_match; try done; by injection H as _ <-. Qed.

(** The interrupts and the delivery thread. *)
Definition kept (n : Node) : Q * bool * list (list Mail) := (chanceToWork n, sendLock n, gone n).
Lemma put_keeps me box h mh bs : keeps kept (Put me box h mh bs).
Proof.
  intros w x w' H. unfold Put in H. apply bind_inv in H as (m & w1 & H1 & H).
  assert (core kept w1 = core kept w) as <-.
  { revert H1. unfold new_Mail. repeat first [apply nt_keeps_assert | apply nt_keeps_lift | apply nt_keeps_ret | apply nt_keeps_bind; [|intros]]. }
  clear H1. apply bind_inv in H as (n & w2 & Hn & H). unfold node in Hn. destruct (nodes w1 !! me) as [n'|] eqn:E; [|done].
  injection Hn as <- <-. apply bind_inv in H as (b0 & w2 & H1 & H). unfold lift in H1. case_match; [|done]. injection H1 as <- <-.
  apply bind_inv in H as (bs' & w2 & H1 & H). unfold lift in H1. case_match; [|done]. injection H1 as <- <-.
  rewrite (change_run me _ _ _ E) in H. injection H as _ <-. unfold core. cbn. f_equal.
  rewrite fmap_insert. change (kept (set_boxes _ _ n')) with (kept n'). by rewrite <- (fmap_insert kept), insert_id.
Qed.
Lemma own_keeps me e : own me e -> keeps kept (do_event Random junk e).
Proof.
  destruct e as [| |d i|d|]; try done; intros _; unfold do_event.
  - apply nt_keeps_bind; [apply nt_keeps_node|]. intros n. destruct (scheduled n !! i) as [h|]; [|apply nt_keeps_halt].
    apply nt_keeps_bind; [by apply nt_keeps_change|]. intros _. apply nt_keeps_bind; [|intros; apply nt_keeps_ret]. destruct h.
    + unfold CheckPktAvail, Schedule. apply nt_keeps_bind; [by apply nt_keeps_change|]. intros _.
      apply nt_keeps_bind; [apply nt_keeps_node|]. intros n'. case_match; [apply nt_keeps_ret|].
      apply nt_keeps_bind; [apply nt_keeps_read|]. intros [bs|]; [|apply nt_keeps_ret]. unfold packet_in, IncomingPacket.
      repeat first [apply nt_keeps_node | apply nt_keeps_assert | apply nt_keeps_lift | apply nt_keeps_change; done
                   | apply nt_keeps_bind; [|intros]].
    + unfold SendDone, PacketSent. apply nt_keeps_bind; [by apply nt_keeps_change|]. intros _. by apply nt_keeps_change.
  - apply nt_keeps_bind; [|intros; apply nt_keeps_ret]. unfold PostalDelivery, Network_Receive.
    repeat first [apply put_keeps | apply nt_keeps_node | apply nt_keeps_assert | apply nt_keeps_lift | apply nt_keeps_ret | apply nt_keeps_change; done
                 | apply nt_keeps_bind; [|intros] | case_match].
Qed.
Lemma receive_keeps me box : keeps (fun n => (chanceToWork n, sendLock n)) (do_event Random junk (EReceive me box)).
Proof.
  unfold do_event, Receive, Get.
  repeat first [apply nt_keeps_node | apply nt_keeps_assert | apply nt_keeps_lift | apply nt_keeps_ret | apply nt_keeps_halt
               | apply nt_keeps_change; done | apply nt_keeps_bind; [|intros] | case_match].
Qed.

(** ** The invariant *)

Definition index (p : place) : nat :=
  match p with Send1 => 0 | Sent1 => 1 | Recv0 => 2 | SendAck _ => 3 | Sent2 => 4 | Recv1 => 5 | Halted => 6 end.
Definition in_send (p : place) : bool := match p with Sent1 | Sent2 => true | _ => false end.

(** The two messages, what a machine has put on the wire at a place, what it has received
    from its boxes 0 and 1, and what it has printed. *)
Definition hello_mail (from to : Z) : Mail := MkMail (MkPkt to from 25) hello_hdr data.
Definition ack_mail (from to : Z) : Mail := MkMail (MkPkt to from 20) (ack_hdr 1) ack.
Definition upto {A : Type} (k n : nat) (x : A) : list A := if (k <=? n)%nat then [x] else [].
Definition sent (from to : Z) (n : nat) : list (list Z) :=
  upto 1 n (datagram junk from to hello_hdr data) ++ upto 4 n (datagram junk from to (ack_hdr 1) ack).
Definition received (from to : Z) (box n : nat) : list Mail :=
  match box with O => upto 3 n (hello_mail from to) | _ => upto 6 n (ack_mail from to) end.
Definition output (from : Z) (n : nat) : list line :=
  upto 3 n (Got (c_string data) from 1) ++ upto 6 n (Got (c_string ack) from 1).

Context (nb : nat) (Hnb : (2 <= nb)%nat).

Record side_ok (s : Test) (me : Z) (n : Node) (p p2 : place) : Prop := {
  si_node : nodes (world s) !! me = Some n;
  si_place : places s !! me = Some p /\ places s !! far me = Some p2;
  si_net : chanceToWork n = 1%Q /\ sendLock n = in_send p;
  si_gone : forall c, (c <= 1)%nat -> gone n !! c = Some (received (far me) me c (index p));
  si_carried : carried (world s) !! me = Some (sent (far me) me (index p2));
  si_printed : printed s !! me = Some (output (far me) (index p));
  si_mail : forall m, p = SendAck m -> m = hello_mail (far me) me
}.
Record mt_inv (s : Test) : Prop := {
  mt_world : world_ok nb (world s);
  mt_side : forall me, me = a \/ me = b -> exists n p p2, side_ok s me n p p2
}.

Lemma far_other me : me = a \/ me = b -> (far me = a \/ far me = b) /\ far me <> me /\ far (far me) = me.
Proof.
  intros [->| ->]; unfold far.
  - rewrite Z.eqb_refl. rewrite (proj2 (Z.eqb_neq b a)) by done. split_and!; [by right|done|done].
  - rewrite (proj2 (Z.eqb_neq b a)), Z.eqb_refl by done. split_and!; [by left|done|done].
Qed.

Context (Ha : is_i32 a) (Hb : is_i32 b) (Hbox : Z.of_nat nb < 2 ^ 31).
Lemma side_i32 me : me = a \/ me = b -> is_i32 me.
Proof. by intros [->| ->]. Qed.
Lemma hello_ok me : me = a \/ me = b -> mail_ok nb me hello_hdr data.
Proof. intros H. pose proof (side_i32 me H). split; cbn; unfold is_i32 in *; lia. Qed.
Lemma ack_ok me : me = a \/ me = b -> mail_ok nb me (ack_hdr 1) ack.
Proof. intros H. pose proof (side_i32 me H). split; cbn; unfold is_i32 in *; lia. Qed.

(** The mail for the two boxes among what was sent. *)
Lemma for_box_sent me n : me = a \/ me = b ->
  for_box 0 (sent (far me) me n) = upto 1 n (hello_mail (far me) me) /\
  for_box 1 (sent (far me) me n) = upto 4 n (ack_mail (far me) me).
Proof.
  intros H. destruct (far_other me H) as (Hf & _ & _).
  destruct (datagram_decode junk nb (far me) me hello_hdr data Hbox (side_i32 _ Hf) (hello_ok me H)) as [_ H1].
  destruct (datagram_decode junk nb (far me) me (ack_hdr 1) ack Hbox (side_i32 _ Hf) (ack_ok me H)) as [_ H2].
  unfold sent, upto. rewrite !for_box_app. repeat case_match; rewrite ?for_box_one, ?H1, ?H2; done.
Qed.

(** A [Send] of a message that fits. *)
Lemma send_effect w me o n n2 mh dat l : world_ok nb w -> nodes w !! me = Some n -> chanceToWork n = 1%Q -> sendLock n = false ->
  nodes w !! o = Some n2 -> o <> me -> mail_ok nb o mh dat -> carried w !! o = Some l ->
  exists w', do_event Random junk (ESend me (out_pkt o) mh dat) w = Ok (None, w') /\ world_ok nb w' /\
    nodes w' !! me = Some (sending n) /\ nodes w' !! o = Some n2 /\ carried w' !! me = carried w !! me /\
    carried w' !! o = Some (l ++ [datagram junk me o mh dat]).
Proof.
  intros Hw Hn Hc Hl Hn2 Hne Hm Hco. destruct (wo_nodes _ _ Hw o n2 Hn2) as (q & l' & Hq & Hl' & _).
  assert (l' = l) as -> by congruence.
  pose proof (send_run Random junk nb w me n (out_pkt o) mh dat q l Hw Hn Hm Hq Hco) as Hrun.
  rewrite (never_lost Random me n Hc) in Hrun.
  pose proof (send_keeps Random junk nb w me n (out_pkt o) mh dat _ Hw Hn Hl Hm ltac:(by exists q) Hrun) as Hw'.
  eexists. split; [unfold do_event; rewrite (bind_ok _ _ _ _ _ Hrun); reflexivity|]. split; [exact Hw'|]. cbn.
  rewrite !lookup_insert_eq, !lookup_insert_ne by done. done.
Qed.

(** A [Receive] from a box for which one message has been sent. *)
Lemma receive_effect w me n (c : nat) m L : world_ok nb w -> nodes w !! me = Some n -> gone n !! c = Some [] -> carried w !! me = Some L ->
  (for_box c L = [m] \/ for_box c L = []) -> ready (EReceive me (Z.of_nat c)) w = true ->
  exists n', do_event Random junk (EReceive me (Z.of_nat c)) w = Ok (Some m, with_node me n' w) /\ world_ok nb (with_node me n' w) /\
    chanceToWork n' = chanceToWork n /\ sendLock n' = sendLock n /\ gone n' = <[c := [m]]> (gone n) /\ for_box c L = [m].
Proof.
  intros Hw Hn Hg HL Hbx Hr. cbn in Hr. rewrite Hn, Nat2Z.id in Hr. destruct (boxes n !! c) as [[|m' rest]|] eqn:Hx; try done.
  destruct (mail_log nb w me n c [] _ L Hw Hn Hg Hx HL) as [rest' Hlog]. destruct Hbx as [Hbx|Hbx]; [|by rewrite Hbx in Hlog].
  rewrite Hbx in Hlog. injection Hlog as <- _.
  destruct (receive_run Random junk nb w me n c m rest Hw Hn Hx) as (g & n' & Hg' & Hrun & _ & Hgone & Hw').
  assert (g = []) as -> by congruence. exists n'. pose proof (receive_keeps me (Z.of_nat c) _ _ _ Hrun) as Hk. unfold core in Hk. cbn in Hk.
  injection Hk as Hk. apply (f_equal (fun x => x !! me)) in Hk. rewrite !lookup_fmap, lookup_insert_eq, Hn in Hk. cbn in Hk.
  injection Hk as Hk1 Hk2. split_and!; done.
Qed.

(** The end of a [Send]. *)
Lemma sent_effect w me n : world_ok nb w -> nodes w !! me = Some n -> ready (ESent me) w = true ->
  exists n', do_event Random junk (ESent me) w = Ok (None, with_node me n' w) /\ world_ok nb (with_node me n' w) /\
    chanceToWork n' = chanceToWork n /\ sendLock n' = false /\ gone n' = gone n.
Proof.
  intros Hw Hn Hr. cbn in Hr. rewrite Hn in Hr. apply andb_true_iff in Hr as [Hl Hp%Z.ltb_lt].
  destruct (sent_run nb _ me n Hw Hn Hl Hp) as (w' & Hrun & Hw'). unfold Send_end in Hrun. rewrite (change_run _ _ _ _ Hn) in Hrun.
  injection Hrun as <-. eexists. split; [unfold do_event, Send_end; rewrite (bind_ok _ _ _ _ _ (change_run _ _ _ _ Hn)); reflexivity|].
  by split_and!.
Qed.

(** A step of the test goes on to the next place, with the message it waited for. *)
Lemma thread_effect s me n p p2 n2 : world_ok nb (world s) -> me = a \/ me = b -> side_ok s me n p p2 -> side_ok s (far me) n2 p2 p ->
  forall e, call me (far me) p = Some e -> ready e (world s) = true ->
  exists r w' p' l n', do_event Random junk e (world s) = Ok (r, w') /\ resume p r = (p', l) /\ index p' = S (index p) /\
    world_ok nb w' /\ nodes w' !! me = Some n' /\ nodes w' !! far me = Some n2 /\
    chanceToWork n' = 1%Q /\ sendLock n' = in_send p' /\ (forall c, (c <= 1)%nat -> gone n' !! c = Some (received (far me) me c (index p'))) /\
    carried w' !! me = carried (world s) !! me /\ carried w' !! far me = Some (sent me (far me) (index p')) /\
    output (far me) (index p') = output (far me) (index p) ++ l /\ (forall m, p' = SendAck m -> m = hello_mail (far me) me).
Proof.
  intros Hw Hme [S1 S2 [S3 S3'] S4 S5 S6 S7] [T1 T2 T3 T4 T5 T6 T7] e He Hr. destruct (far_other me Hme) as (Hf & Hne & Hff).
  rewrite Hff in *. destruct (for_box_sent me (index p2) Hme) as [B0 B1].
  destruct p as [| | |m| | |]; cbn [call] in He; [injection He as <-..|discriminate He]; cbn [index in_send] in *.
  - destruct (send_effect _ me (far me) n n2 hello_hdr data _ Hw S1 S3 S3' T1 Hne (hello_ok _ Hf) T5) as (w' & Hrun & Hw' & H1 & H2 & H3 & H4).
    exists None, w', Sent1, [], (sending n). by split_and!.
  - destruct (sent_effect _ me n Hw S1 Hr) as (n' & Hrun & Hw' & H1 & H2 & H3). exists None, (with_node me n' (world s)), Recv0, [], n'.
    split_and!; try done; try (by rewrite ?H1, ?H3); [apply nodes_with|cbn; by rewrite lookup_insert_ne].
  - destruct (receive_effect _ me n 0 (hello_mail (far me) me) _ Hw S1 (S4 0%nat ltac:(lia)) S5) as (n' & Hrun & Hw' & H1 & H2 & H3 & H4); [|done|].
    { rewrite B0. unfold upto. case_match; auto. }
    exists (Some (hello_mail (far me) me)), (with_node me n' (world s)), (SendAck (hello_mail (far me) me)), [Got (c_string data) (far me) 1], n'.
    split_and!; try done; try (by rewrite ?H1, ?H2); try (by intros m [= <-]); [apply nodes_with|cbn; by rewrite lookup_insert_ne|].
    intros [|[|c]] Hc; [| |lia]; rewrite H3.
    + rewrite list_lookup_insert_eq; [done|]. eapply lookup_lt_Some, (S4 0%nat). lia.
    + rewrite list_lookup_insert_ne by done. rewrite S4 by lia. done.
  - specialize (S7 m eq_refl). subst m.
    destruct (send_effect _ me (far me) n n2 (ack_hdr 1) ack _ Hw S1 S3 S3' T1 Hne (ack_ok _ Hf) T5) as (w' & Hrun & Hw' & H1 & H2 & H3 & H4).
    exists None, w', Sent2, [], (sending n). by split_and!.
  - destruct (sent_effect _ me n Hw S1 Hr) as (n' & Hrun & Hw' & H1 & H2 & H3). exists None, (with_node me n' (world s)), Recv1, [], n'.
    split_and!; try done; try (by rewrite ?H1, ?H3); [apply nodes_with|cbn; by rewrite lookup_insert_ne].
  - destruct (receive_effect _ me n 1 (ack_mail (far me) me) _ Hw S1 (S4 1%nat ltac:(lia)) S5) as (n' & Hrun & Hw' & H1 & H2 & H3 & H4); [|done|].
    { rewrite B1. unfold upto. case_match; auto. }
    exists (Some (ack_mail (far me) me)), (with_node me n' (world s)), Halted, [Got (c_string ack) (far me) 1], n'.
    split_and!; try done; try (by rewrite ?H1, ?H2); [apply nodes_with|cbn; by rewrite lookup_insert_ne|].
    intros [|[|c]] Hc; [| |lia]; rewrite H3.
    + rewrite list_lookup_insert_ne by done. rewrite S4 by lia. done.
    + rewrite list_lookup_insert_eq; [done|]. eapply lookup_lt_Some, (S4 1%nat). lia.
Qed.

(** Both machines of a state. *)
Lemma both_sides s me : mt_inv s -> me = a \/ me = b -> exists n p n2 p2, side_ok s me n p p2 /\ side_ok s (far me) n2 p2 p.
Proof.
  intros [_ I] Hme. destruct (far_other me Hme) as (Hf & _ & Hff). destruct (I me Hme) as (n & p & p2 & S), (I _ Hf) as (n2 & q & q2 & T).
  destruct (si_place _ _ _ _ _ S) as [A1 A2], (si_place _ _ _ _ _ T) as [B1 B2]. rewrite Hff in B2.
  assert (q = p2) as -> by congruence. assert (q2 = p) as -> by congruence. by exists n, p, n2, p2.
Qed.

(** The step of a test that does not have to wait. *)
Lemma thread_steps s me n p n2 p2 e : mt_inv s -> me = a \/ me = b -> side_ok s me n p p2 -> side_ok s (far me) n2 p2 p ->
  call me (far me) p = Some e -> ready e (world s) = true ->
  exists s' p' n', MailTest me (far me) s = Some (Ok s') /\ mt_inv s' /\ index p' = S (index p) /\ side_ok s' me n' p' p2 /\ side_ok s' (far me) n2 p2 p'.
Proof.
  intros I Hme S T He Hr. destruct (thread_effect s me n p p2 n2 (mt_world _ I) Hme S T e He Hr)
    as (r & w' & p' & l & n' & Hrun & Hres & Hidx & Hw' & N1 & N2 & C1 & C2 & C3 & C4 & C5 & C6 & C7).
  destruct (far_other me Hme) as (Hf & Hne & Hff). destruct S as [S1 [S2 S2'] S3 S4 S5 S6 S7], T as [T1 [T2 T2'] T3 T4 T5 T6 T7]. rewrite Hff in *.
  set (s' := MkTest w' (<[me := p']> (places s)) (<[me := output (far me) (index p) ++ l]> (printed s))).
  assert (A : side_ok s' me n' p' p2).
  { split; cbn [s' world places printed]; try done; [by rewrite lookup_insert_eq, lookup_insert_ne|by rewrite C4|by rewrite lookup_insert_eq, C6]. }
  assert (B : side_ok s' (far me) n2 p2 p').
  { split; cbn [s' world places printed]; rewrite ?Hff; try done; [by rewrite lookup_insert_eq, lookup_insert_ne|by rewrite lookup_insert_ne]. }
  exists s', p', n'. split_and!; try done.
  - unfold MailTest. rewrite S2, S6, He, Hr, Hrun, Hres. done.
  - split; [done|]. intros me' Hme'. assert (me' = me \/ me' = far me) as [->| ->].
    { unfold far. clear - Hme Hme' Hab. destruct (Z.eqb_spec me a); naive_solver. }
    + by exists n', p', p2.
    + by exists n2, p2, p'.
Qed.

(** An interrupt or a round of a delivery thread changes neither the tests nor what they
    have sent and received. *)
Lemma device_keeps s me e r w : mt_inv s -> own me e -> ready e (world s) = true -> do_event Random junk e (world s) = Ok (r, w) ->
  mt_inv (MkTest w (places s) (printed s)).
Proof.
  intros [Hw I] Ho Hr Hrun.
  destruct (network_event_keeps Random junk nb e (world s) Hw Hr) as (r' & w'' & Hrun' & Hw'); [by destruct e|].
  assert (w'' = w) as -> by congruence. pose proof (own_keeps me e Ho _ _ _ Hrun) as Hk. unfold core in Hk. injection Hk as Hn Hc.
  split; [done|]. intros me' Hme'. destruct (I me' Hme') as (n & p & p2 & [S1 S2 [S3 S3'] S4 S5 S6 S7]).
  apply (f_equal (fun x => x !! me')) in Hn. rewrite !lookup_fmap, S1 in Hn. destruct (nodes w !! me') as [n'|] eqn:Hn'; [|done].
  cbn in Hn. injection Hn as K1 K2 K3. exists n', p, p2. split; cbn [world places printed]; try done.
  - by rewrite K1, K2.
  - by rewrite K3.
  - by rewrite Hc.
Qed.

Lemma mt_keeps s s' : mt_inv s -> mt_step s s' -> mt_inv s'.
Proof.
  intros I [me s1 Hme Hrun|me e r w Hme Ho Hh Hr Hrun]; [|by eapply device_keeps].
  destruct (both_sides s me I Hme) as (n & p & n2 & p2 & S & T). unfold MailTest in Hrun.
  destruct (si_place _ _ _ _ _ S) as [P1 _]. rewrite P1, (si_printed _ _ _ _ _ S) in Hrun. destruct (call me (far me) p) as [e|] eqn:He; [|done].
  destruct (ready e (world s)) eqn:Hr; [|done]. destruct (thread_steps s me n p n2 p2 e I Hme S T He Hr) as (s2 & p' & n' & Hs2 & I2 & _).
  unfold MailTest in Hs2. rewrite P1, (si_printed _ _ _ _ _ S), He, Hr in Hs2. congruence.
Qed.
Lemma mt_runs s s' : mt_inv s -> mt_run s s' -> mt_inv s'.
Proof. intros I. induction 1; [done|]. by eapply mt_keeps. Qed.

Lemma mt_starts : mt_inv (mt_start nb).
Proof.
  split; [apply (start_ok junk); [done|by rewrite !Forall_cons, Forall_nil]|]. intros me Hme. destruct (far_other me Hme) as (Hf & Hne & Hff).
  exists (new_node junk me 1%Q nb), Send1, Send1.
  assert (Hin : forall d, d = a \/ d = b -> d ∈ [a; b]) by (intros d [->| ->]; set_solver).
  assert (Hpl : forall (A : Type) (x : A) d, d = a \/ d = b -> ({[a := x; b := x]} : gmap Z A) !! d = Some x).
  { intros A x d Hd. destruct (decide (d = a)) as [->|]; [apply lookup_insert_eq|]. rewrite lookup_insert_ne by done.
    destruct Hd as [->| ->]; [done|]. apply lookup_singleton_eq. }
  split; cbn [mt_start world places printed start_world nodes carried].
  - rewrite (map_of_const (fun d => new_node junk d 1%Q nb)), decide_True by (by apply Hin). done.
  - split; by apply Hpl.
  - done.
  - intros c Hc. cbn. rewrite lookup_replicate_2 by lia. by destruct c as [|[|c]].
  - rewrite (map_of_const (fun _ => [])), decide_True by (by apply Hin). done.
  - by apply Hpl.
  - done.
Qed.

(** ** Getting to the end *)

Lemma play_run s me es w : me = a \/ me = b -> Forall (own me) es -> places s !! me <> Some Halted ->
  play Random junk es (world s) = Some w -> mt_run s (MkTest w (places s) (printed s)).
Proof.
  intros Hme Ho Hh. revert s Hh. induction Ho as [|e es He _ IH]; intros s Hh Hp; cbn in Hp.
  - injection Hp as <-. destruct s. constructor.
  - destruct (ready e (world s)) eqn:Hr; [|done]. destruct (do_event Random junk e (world s)) as [[r w1]|] eqn:Hrun; [|done].
    eapply mt_trans; [eapply mt_more; [constructor|by eapply mt_device]|]. by apply (IH (MkTest w1 (places s) (printed s))).
Qed.

(** After steps of the devices the tests are where they were. *)
Lemma side_after s s' me n p n2 p2 : mt_inv s' -> places s' = places s -> me = a \/ me = b -> side_ok s me n p p2 -> side_ok s (far me) n2 p2 p ->
  exists n' n2', side_ok s' me n' p p2 /\ side_ok s' (far me) n2' p2 p.
Proof.
  intros I Hpl Hme S T. destruct (both_sides s' me I Hme) as (n' & q & n2' & q2 & S' & T').
  destruct (si_place _ _ _ _ _ S) as [A1 A2], (si_place _ _ _ _ _ S') as [B1 B2]. rewrite Hpl in B1, B2.
  assert (q = p) as -> by congruence. assert (q2 = p2) as -> by congruence. by exists n', n2'.
Qed.

(** While a test is in [Send] the interrupt that ends it is pending or has come. *)
Lemma sent_ready s me n p p2 n2 : mt_inv s -> me = a \/ me = b -> side_ok s me n p p2 -> side_ok s (far me) n2 p2 p -> in_send p = true ->
  exists s' n' n2', mt_run s s' /\ mt_inv s' /\ side_ok s' me n' p p2 /\ side_ok s' (far me) n2' p2 p /\ ready (ESent me) (world s') = true.
Proof.
  intros I Hme S T Hp. pose proof (si_node _ _ _ _ _ S) as Hn. destruct (si_net _ _ _ _ _ S) as [Hc Hl]. rewrite Hp in Hl.
  destruct (wo_nodes _ _ (mt_world _ I) me n Hn) as (q & l & _ & _ & Hno). destruct (no_lock _ _ _ _ _ Hno) as [L1 L2]. rewrite Hl in L2.
  destruct (decide (0 < messageSent n)) as [Hpos|Hzero].
  { exists s, n, n2. split; [constructor|]. split_and!; try done. cbn. rewrite Hn, Hl. by apply Z.ltb_lt. }
  assert (exists i, scheduled n !! i = Some NetworkSendDone) as [i Hi].
  { apply list_elem_of_lookup. destruct (filter (fun i => i = NetworkSendDone) (scheduled n)) as [|x r] eqn:E.
    - unfold sends in L2. rewrite E in L2. cbn in L2. lia.
    - assert (Hx : x ∈ filter (fun i => i = NetworkSendDone) (scheduled n)) by (rewrite E; left). by apply list_elem_of_filter in Hx as [-> Hx]. }
  destruct (send_done_run Random junk nb _ me n i (mt_world _ I) Hn Hi) as (n' & Hrun & Hw' & Hm).
  assert (Hr : ready (EInterrupt me i) (world s) = true) by (cbn; rewrite Hn; apply Nat.ltb_lt; by eapply lookup_lt_Some).
  pose proof (device_keeps s me (EInterrupt me i) _ _ I eq_refl Hr Hrun) as I'. set (s' := MkTest _ _ _) in I'.
  destruct (side_after s s' me n p n2 p2 I' eq_refl Hme S T) as (n1 & n3 & S' & T'). exists s', n1, n3.
  split.
  { apply (mt_more s s s'); [apply mt_none|].
    apply (mt_device s me (EInterrupt me i) None _ Hme eq_refl); try assumption.
    destruct (si_place _ _ _ _ _ S) as [-> _]. intros [= ->]. discriminate Hp. }
  split_and!; try done. cbn. pose proof (si_node _ _ _ _ _ S') as Hn1. cbn in Hn1. rewrite Hn1. rewrite lookup_insert_eq in Hn1. injection Hn1 as ->.
  destruct (si_net _ _ _ _ _ S') as [_ ->]. rewrite Hp, Hm. apply Z.ltb_lt. lia.
Qed.

(** A message that the other machine has sent gets to its box. *)
Lemma mail_ready s me n p p2 n2 (c : nat) m : mt_inv s -> me = a \/ me = b -> side_ok s me n p p2 -> side_ok s (far me) n2 p2 p ->
  (c <= 1)%nat -> p <> Halted -> received (far me) me c (index p) = [] -> for_box c (sent (far me) me (index p2)) = [m] ->
  exists s' n' n2', mt_run s s' /\ mt_inv s' /\ side_ok s' me n' p p2 /\ side_ok s' (far me) n2' p2 p /\ ready (EReceive me (Z.of_nat c)) (world s') = true.
Proof.
  intros I Hme S T Hcb Hp Hnil Hbx. pose proof (si_node _ _ _ _ _ S) as Hn.
  destruct (mail_drains Random junk nb _ me n _ (mt_world _ I) Hn (si_carried _ _ _ _ _ S)) as (es & n' & w' & Ho & Hplay & Hw' & Hn' & Hc' & Hg & Hall).
  assert (Hh : places s !! me <> Some Halted) by (destruct (si_place _ _ _ _ _ S) as [-> _]; congruence).
  pose proof (play_run s me es w' Hme Ho Hh Hplay) as Hrun. pose proof (mt_runs _ _ I Hrun) as I'.
  destruct (side_after s (MkTest w' (places s) (printed s)) me n p n2 p2 I' eq_refl Hme S T) as (n1 & n3 & S' & T'). eexists _, n1, n3. split; [exact Hrun|]. split_and!; try done.
  pose proof (si_gone _ _ _ _ _ S c Hcb) as Hgc. rewrite Hnil, <- Hg in Hgc.
  destruct (wo_nodes _ _ Hw' me n' Hn') as (q & l & _ & _ & Hno). destruct (no_sizes _ _ _ _ _ Hno) as (_ & _ & N3 & _).
  destruct (lookup_lt_is_Some_2 (boxes n') c) as [x Hx]; [lia|]. specialize (Hall c [] x Hgc Hx). rewrite Hbx in Hall. cbn in Hall.
  cbn. rewrite Hn', Nat2Z.id, Hx, <- Hall. apply Z.leb_le. lia.
Qed.

(** The test that is behind, or level, goes on. *)
Lemma behind_goes_on s me n p n2 p2 : mt_inv s -> me = a \/ me = b -> side_ok s me n p p2 -> side_ok s (far me) n2 p2 p ->
  p <> Halted -> (index p <= index p2)%nat ->
  exists s' n' n2' p', mt_run s s' /\ mt_inv s' /\ index p' = S (index p) /\ side_ok s' me n' p' p2 /\ side_ok s' (far me) n2' p2 p'.
Proof.
  intros I Hme S T Hp Hle. destruct (for_box_sent me (index p2) Hme) as [B0 B1].
  assert (Hready : exists s1 n1 n3 e, mt_run s s1 /\ mt_inv s1 /\ side_ok s1 me n1 p p2 /\ side_ok s1 (far me) n3 p2 p /\
    call me (far me) p = Some e /\ ready e (world s1) = true).
  { pose proof (si_node _ _ _ _ _ S) as Hn. destruct (si_net _ _ _ _ _ S) as [_ Hl].
    destruct p as [| | |m| | |]; cbn [index in_send call] in *; [..|done].
    - eexists s, n, n2, _. split; [constructor|]. split_and!; try done. cbn. by rewrite Hn, Hl.
    - destruct (sent_ready s me n _ p2 n2 I Hme S T eq_refl) as (s1 & n1 & n3 & H1 & H2 & H3 & H4 & H5). by exists s1, n1, n3, (ESent me).
    - destruct (mail_ready s me n _ p2 n2 0 (hello_mail (far me) me) I Hme S T ltac:(lia) Hp eq_refl) as (s1 & n1 & n3 & H1 & H2 & H3 & H4 & H5);
        [|by exists s1, n1, n3, (EReceive me 0)].
      rewrite B0. unfold upto. by rewrite (proj2 (Nat.leb_le 1 (index p2))) by lia.
    - eexists s, n, n2, _. split; [constructor|]. split_and!; try done. cbn. by rewrite Hn, Hl.
    - destruct (sent_ready s me n _ p2 n2 I Hme S T eq_refl) as (s1 & n1 & n3 & H1 & H2 & H3 & H4 & H5). by exists s1, n1, n3, (ESent me).
    - destruct (mail_ready s me n _ p2 n2 1 (ack_mail (far me) me) I Hme S T ltac:(lia) Hp eq_refl) as (s1 & n1 & n3 & H1 & H2 & H3 & H4 & H5);
        [|by exists s1, n1, n3, (EReceive me 1)].
      rewrite B1. unfold upto. by rewrite (proj2 (Nat.leb_le 4 (index p2))) by lia. }
  destruct Hready as (s1 & n1 & n3 & e & Hrun & I1 & S1 & T1 & He & Hr).
  destruct (thread_steps s1 me n1 p n3 p2 e I1 Hme S1 T1 He Hr) as (s2 & p' & n' & Hs2 & I2 & Hidx & S2 & T2).
  exists s2, n', n3, p'. split; [eapply mt_more; [exact Hrun|by eapply mt_thread]|]. done.
Qed.

Lemma both_halt k : forall s me n p n2 p2, (12 - index p - index p2 <= k)%nat -> mt_inv s -> me = a \/ me = b ->
  side_ok s me n p p2 -> side_ok s (far me) n2 p2 p ->
  exists s', mt_run s s' /\ mt_inv s' /\ places s' !! me = Some Halted /\ places s' !! far me = Some Halted.
Proof.
  assert (Hlast : forall p, index p = 6%nat -> p = Halted) by (by intros []).
  assert (Hmax : forall p, (index p <= 6)%nat) by (intros []; cbn; lia).
  induction k as [|k IH]; intros s me n p n2 p2 Hk I Hme S T; pose proof (Hmax p); pose proof (Hmax p2).
  - exists s. destruct (si_place _ _ _ _ _ S) as [-> ->]. rewrite (Hlast p), (Hlast p2) by lia. split_and!; [constructor|done|done|done].
  - destruct (far_other me Hme) as (Hf & _ & Hff). destruct (decide (index p <= index p2)%nat) as [Hle|Hgt].
    + destruct (decide (index p = 6%nat)) as [E|E].
      { exists s. destruct (si_place _ _ _ _ _ S) as [-> ->]. rewrite (Hlast p), (Hlast p2) by lia. split_and!; [constructor|done|done|done]. }
      destruct (behind_goes_on s me n p n2 p2 I Hme S T) as (s1 & n' & n2' & p' & Hrun & I1 & Hidx & S1 & T1); [by intros ->|done|].
      destruct (IH s1 me n' p' n2' p2 ltac:(lia) I1 Hme S1 T1) as (s' & Hrun' & I' & H1 & H2). exists s'. split; [by eapply mt_trans|done].
    + destruct (behind_goes_on s (far me) n2 p2 n p I Hf T) as (s1 & n' & n2' & p' & Hrun & I1 & Hidx & S1 & T1); [by rewrite Hff|intros ->; cbn in *; lia|lia|].
      rewrite Hff in T1. destruct (IH s1 me n2' p n' p' ltac:(lia) I1 Hme T1 S1) as (s' & Hrun' & I' & H1 & H2). exists s'. split; [by eapply mt_trans|done].
Qed.

(** ** Property *)

(** C5. [MailTest] on two machines of a network that loses nothing, under every order of
    their steps, interrupts and deliveries: no assertion of the network or the post
    offices fails; each machine prints that it got the greeting and then the
    acknowledgement, from the other machine, and nothing else, and both when it halts;
    and there is no deadlock: from every state of every run both machines can go on until
    both have halted. *)
Theorem mail_test_correct s : mt_run (mt_start nb) s ->
  (forall me, me = a \/ me = b -> exists p k, places s !! me = Some p /\ (p = Halted -> k = 2%nat) /\
     printed s !! me = Some (take k [Got (c_string data) (far me) 1; Got (c_string ack) (far me) 1])) /\
  (forall me r, me = a \/ me = b -> MailTest me (far me) s = Some r -> exists s', r = Ok s') /\
  (forall me e, own me e -> ready e (world s) = true -> exists r w, do_event Random junk e (world s) = Ok (r, w)) /\
  exists s', mt_run s s' /\ places s' !! a = Some Halted /\ places s' !! b = Some Halted.
Proof.
  intros Hrun. pose proof (mt_runs _ _ mt_starts Hrun) as I. split_and!.
  - intros me Hme. destruct (both_sides s me I Hme) as (n & p & n2 & p2 & S & _).
    exists p, (length (output (far me) (index p))). split; [apply (si_place _ _ _ _ _ S)|].
    split; [by intros ->|]. rewrite (si_printed _ _ _ _ _ S). by destruct p.
  - intros me r Hme Hr. destruct (both_sides s me I Hme) as (n & p & n2 & p2 & S & T). unfold MailTest in Hr.
    destruct (si_place _ _ _ _ _ S) as [P1 _]. rewrite P1, (si_printed _ _ _ _ _ S) in Hr.
    destruct (call me (far me) p) as [e|] eqn:He; [|done]. destruct (ready e (world s)) eqn:Hrd; [|done].
    destruct (thread_steps s me n p n2 p2 e I Hme S T He Hrd) as (s2 & p' & n' & Hs2 & _). unfold MailTest in Hs2.
    rewrite P1, (si_printed _ _ _ _ _ S), He, Hrd in Hs2. exists s2. congruence.
  - intros me e Ho Hr. destruct (network_event_keeps Random junk nb e (world s) (mt_world _ I) Hr) as (r & w & H & _); [by destruct e|]. by exists r, w.
  - destruct (both_sides s a I ltac:(by left)) as (n & p & n2 & p2 & S & T).
    destruct (both_halt 12 s a n p n2 p2 ltac:(lia) I ltac:(by left) S T) as (s' & H1 & _ & H2 & H3). exists s'.
    unfold far in H3. by rewrite Z.eqb_refl in H3.
Qed.
End MailTest.

(** ** Witness *)

(** Machines 0 and 1, with ten boxes each. *)
Lemma mail_test_correct_witness :
  exists s', mt_run demo_draw demo_junk 0 1 (mt_start demo_junk 0 1 10) s' /\ places s' !! 0 = Some Halted /\ places s' !! 1 = Some Halted.
Proof.
  exact (proj2 (proj2 (proj2 (mail_test_correct demo_draw demo_junk 0 1 ltac:(lia) 10 ltac:(lia) ltac:(unfold is_i32; lia) ltac:(unfold is_i32; lia)
    ltac:(lia) _ (mt_none _ _ _ _ _))))).
Defined.
